(* ===== verification/_CoqProject ===== *)
-Q . S2P
Prelude.v
Hsm.v
HsmSpec.v
HsmProps.v
ActiveObject.v
Defer.v
Fabric.v
Philosophers.v
Timer.v
Spy.v
Log.v
Json.v
Envelope.v
InitGate.v
Manager.v
ListenerDispatch.v
ModemBridge.v
BridgeSpec.v
BridgeProps.v
BridgeRpc.v
BridgeFence.v
BridgeRun.v
DataCall.v
DataCallSession.v
SessionProps.v
SessionLife.v
DataConnection.v
DataConnectionProps.v
Ecall.v
EcallManager.v
EcallProps.v
NetWire.v
Answers.v
NetShell.v
Socks.v
NetShellProps.v
NetListeners.v
Vlan.v
L2tp.v
Nat.v
DataSettings.v
DataProfile.v
DataServing.v
TelWire.v
TelShell.v
NetworkSelection.v
TelShellProps.v
TelServing.v
SignalStrength.v
CellInfo.v
Phone.v
PhoneManager.v
Schema.v
RadioSchemas.v
TelTyping.v
SimShell.v
Card.v
Subscription.v
MultiSim.v
SimProps.v
SimFactory.v
SubscriptionProps.v
PowerShell.v
Tcu.v
Wakeup.v
PowerProps.v
TcuProps.v
PowerFactory.v
Platform.v
Registry.v
DataFactory.v
TelFamily.v
TelFactory.v
WsFilter.v
EndToEnd.v
Requesters.v
EcallRequester.v
Bypass.v
SimBypass.v
Stubs.v
