(* ===== verification/Prelude.v ===== *)
(** * Verification of the simulated telephony platform adaptor (telaf-pa-simula)

    telaf-pa-simula implements the telematics SDK's interfaces on a Linux host: a
    set of managers, each an active object with its own thread and a hierarchical
    state chart, that talk over MQTT to a simulated modem.  This library models
    the C++ under src/pa/telaf-pa-simula/component and proves it correct; with it, the
    wakeup-source filter of telaf-np and its modem side, the SIM services of
    src/bypass/telsdk and the two stub services of src/stub that keep a state.

    ** The program and where its parts are modelled

    - component/chart, the state-chart framework every other part runs on.
      Hsm.v is chart/hsm.hpp: [init] and [dispatch] with the scratch slot [temp_],
      the pointer walks, the nesting limit and its assertions, the dispatch probe
      and the trace.  HsmSpec.v gives the reference semantics of a chart (offer the
      event to the leaf and its ancestors; leave, enter, follow initial
      transitions), the obligations [wf_chart] a set of state handlers must meet,
      and the refinement between the two; [chart_step] is what the components
      build on.  ActiveObject.v is chart/active_object.hpp: the queue, the mutex
      and condition variable, the worker loop and [stop], as a step relation over
      all interleavings of the worker with posting and stopping threads;
      [reach_chart] turns any interleaved execution into a sequential run
      ([chart_run]) of the events processed.  Defer.v, Fabric.v, Timer.v and Spy.v
      are chart/defer.hpp, publish_subscribe.hpp, time_event.hpp, spy.hpp and
      spy_bootstrap.hpp.  Philosophers.v is chart/examples/dining_philosophers.cpp,
      objects that work together.
    - component/common.  Json.v states what is relied on of nlohmann::json.
      Envelope.v is the message wrapper, error codes and correlation ids;
      InitGate.v is InitCallbackGate.hpp; ListenerDispatch.v is
      ListenerDispatchAO.cpp.  ModemBridge.v is ModemBridge.cpp, the MQTT bridge:
      one definition per state handler ([on_Disconnected] for [Disconnected_St] and
      so on), helper and public call.  BridgeSpec.v is the bridge as a transition
      table, BridgeProps.v its invariant, BridgeRpc.v requests and answers,
      BridgeFence.v observers, subscriptions and the drain fence; BridgeRun.v holds the
      response timers and follows the requests through the bridge as an active
      object.  Log.v is Log.cpp.
    - What the managers share.  Manager.v holds shells with one ready state and runs
      of moves ([run], and [heard] for what a run says of some matter); Answers.v
      how an answer reaches callbacks ([op_laws]).  EndToEnd.v composes a manager with
      the bridge, over the classes [Requester] and [RequesterSpec], of which
      Requesters.v makes the three shells below instances (data and network,
      telephony, SIM), and EcallRequester.v the eCall manager.
    - component/data.  DataConnectionManager.cpp is DataCall.v (the call object and
      the decoders), DataCallSession.v (the life of one call, one definition per
      state handler, with SessionProps.v and SessionLife.v) and DataConnection.v
      (the manager that owns the sessions, with DataConnectionProps.v).
      DataProfile.v and DataServing.v are DataProfileManager.cpp and
      ServingSystemManager.cpp; DataFactory.v is DataFactory.cpp.
    - component/net.  NetShell.v is the active object its five managers, and the two
      of component/data above, are around different operations, written once over
      the class [NetOps]; [NetSpec] is what each of them promises.  NetWire.v is
      WireEnums.hpp; Vlan.v, L2tp.v, Nat.v, Socks.v and DataSettings.v are the
      managers.  NetShellProps.v and NetListeners.v prove the shell for all of them.
    - component/tel.  Ecall.v, EcallManager.v and EcallProps.v are Call.cpp and
      CallManager.cpp.  TelShell.v is the active object of the other three managers,
      over the classes [TelOps] and [TelSpec], with TelShellProps.v; TelWire.v holds
      what their payloads share; NetworkSelection.v, TelServing.v and PhoneManager.v
      are the managers.  Phone.v, CellInfo.v and SignalStrength.v are the phone and
      the value objects it hands out.  Schema.v is the part of JSON Schema that
      sml/shared/schemas uses, RadioSchemas.v those schemas, and TelTyping.v types
      the telephony messages with them.  TelFactory.v is TelephonyManager.cpp, its
      managers being whole active objects (TelFamily.v).
    - component/sim.  SimShell.v is the active object of its three managers, over
      [SimOps]; Card.v, Subscription.v and MultiSim.v the managers with the objects
      they hand out; SimFactory.v the factory that wires them together; SimProps.v
      and SubscriptionProps.v their theorems.
    - component/power.  PowerShell.v, Tcu.v and Wakeup.v, with PowerProps.v,
      TcuProps.v and PowerFactory.v.  component/platform is Platform.v.  Registry.v
      is the getter of the factories.
    - telaf-np.  WsFilter.v is taf_prop_pa_pms.cpp, with the handlers of
      sml/mpss/wakeup that hold and enforce the filter and the relay of sml/apss/power.
    - bypass/telsdk/sdkSimCardSvcBypass.  Bypass.v is what its two managers and their
      getters share, clients and initialization threads interleaved, over the classes
      [BypassManager] and [BypassSpec]; SimBypass.v the managers.
    - stub.  Stubs.v is the key store and the references of the audio service.

    How the parts interact: an operation of a component that posts an event is a
    function on [AO]; a handler's effects on other objects (library calls, client
    callbacks, listener tasks, requests to the bridge, sessions) are recorded in
    logs of the component's state, in order, and the functions other threads run
    later (reply functions, timer callbacks) are definitions of their own that give
    the event they post or the call they make.  A manager's life is then a sequence
    of moves: events its worker processes, answers the bridge's thread delivers,
    calls of clients.  Component data is a Record, signals with their payloads are
    the constructors of the component's event type, and the state handlers meet
    [wf_chart] (an Instance per component), which is the interface through which
    the framework's theorems apply to them.

    ** What is proved

    - Framework: dispatch implements the reference semantics and terminates; no
      event is lost, duplicated or reordered; run to completion; no lost wake-up;
      stop returns and drains; timers fire when due and as often as asked (C1 to
      C7).  Deferral, publishing and the spy's rings are lemmas of their files.
    - Messages and bridge: the envelope round trip; the bridge is its transition
      table; its reachable states; the requests of a manager from end to end, each
      answered at most once, by the answer to it, and its timer running while it waits;
      stopping answers all; responses reach their request; what sending does; drain is
      a fence (C8 to C15).
    - Data calls: the session is its table; its reachable states; what clients and
      listeners are told; stops are answered once; a session always has a deadline;
      the manager's states (C16 to C21).
    - eCall: the calls refine the table of the last reports, and every client hears
      what it should (C22, C23).
    - Network managers: clients answered once; mirrors of the modem's settings; what an
      answer says of a table is what the client is given; listeners told in order (C24
      to C27).
    - Telephony managers: clients answered once (C28); every message conforms to its
      schema, so that no decoder throws on a conforming answer (C29); cells and
      signal readings decoded as sent (C30), levels and bounds (C31, C32).
    - SIM: readiness, clients, the slots' announcements following the cards (C33 to
      C35).
    - Power: what a client filters does not wake it and what it does not filter does
      (C36); the TCU activity manager answers faithfully (C37).
    - Factories: no callback given to a getter is dropped and each manager is made once,
      by the component's getters (C38) and by the bypass's (C39).
    - Objects together: the philosophers never eat beside each other, nor does their
      dinner come to a standstill (C40).
    - Theorems of their files beside these: [DataProfile.profiles_faithful],
      [NetShellProps.net_status] and the statuses
      of the other shells, [SubscriptionProps.subscription_joined],
      [TelFactory.phone_callbacks], [PowerFactory.power_roles], [Platform.imei_bounds],
      [SimBypass.slot_count_known], [Stubs.KeyStore.shared_apps_queue].
    - Example declarations beside the theorems show behaviour that differs from the
      sources' comments.

    ** Fuel and bounds

    The loops of hsm.hpp run with fuel; [dispatch_fuel] of ActiveObject.v exceeds
    the nesting limit [kMaxNest] = 8, which [dispatch_terminates] shows to be enough
    for every chart that meets [wf_chart].  [recall_all] takes the length of the
    queue as fuel, shown to be enough.  Machine integers wrap where the code's do:
    32-bit correlation counter, 64-bit timer and observer tokens, [int] and unsigned
    fields of decoded payloads ([wrap], [to_unsigned]).

    ** What is parametric

    libmosquitto (return codes), the JSON parser and printer, the schema
    validator the bridge is given, the generated topic names, [inet_pton], the
    clocks, the environment and the files read from it, the property tree of the
    device's description, the lifetime of listeners, the order of iteration of
    hash maps, the SDK's listener manager (sources absent) and Legato's safe references
    are functions the theorems quantify over, or classes with the laws relied on.  A C++ exception that
    leaves a worker thread's handler is [Fail Terminate]; callbacks of clients are
    assumed to return.

    ** What is not modelled

    Process start-up (Common.cpp's singletons); the simulated modem and its tools,
    which are Python programs in other processes, but for the wakeup filter; the stub
    services that return constants, which leaves nothing to state of them, and the
    location bypass, whose managers inherit from sources that are not here; build and
    container files. *)

From stdpp Require Export prelude gmap strings list relations sorting.

#[export] Set Default Goal Selector "!".

(** ** Outcomes

    C++ code can stop short of a value in four ways that matter here: a
    [CHART_ASSERT] fails in a debug build, a null function pointer is called,
    an exception leaves a thread's top-level function ([std::terminate]), or
    a loop runs longer than the fuel the model gave it. *)

Inductive failure :=
  | AssertFailed
  | NullCall
  | Terminate
  | OutOfFuel.

Inductive outcome (A : Type) :=
  | Done (a : A)
  | Fail (f : failure).
Arguments Done {A} a.
Arguments Fail {A} f.

#[export] Instance outcome_ret : MRet outcome := fun A a => Done a.
#[export] Instance outcome_bind : MBind outcome :=
  fun A B k m => match m with Done a => k a | Fail f => Fail f end.

(** ** A state monad over outcomes *)

Definition M (X A : Type) : Type := X -> outcome (A * X).

#[export] Instance M_ret {X} : MRet (M X) := fun A a x => Done (a, x).
#[export] Instance M_bind {X} : MBind (M X) :=
  fun A B k m x =>
    match m x with
    | Done (a, x') => k a x'
    | Fail f => Fail f
    end.

Definition gets {X A} (f : X -> A) : M X A := fun x => Done (f x, x).
Definition modify {X} (f : X -> X) : M X unit := fun x => Done (tt, f x).
Definition failM {X A} (f : failure) : M X A := fun _ => Fail f.

Lemma M_bind_done {X A B} (m : M X A) (k : A -> M X B) x a x' :
  m x = Done (a, x') -> (m ≫= k) x = k a x'.
Proof. intros H. unfold mbind, M_bind. by rewrite H. Qed.

Lemma M_bind_fail {X A B} (m : M X A) (k : A -> M X B) x f :
  m x = Fail f -> (m ≫= k) x = Fail f.
Proof. intros H. unfold mbind, M_bind. by rewrite H. Qed.

(** A block that is executed only when a condition holds. *)
Definition when {X} (b : bool) (m : M X unit) : M X unit :=
  if b then m else mret tt.

(** A range-for loop. *)
Fixpoint for_each {X A} (l : list A) (body : A -> M X unit) : M X unit :=
  match l with
  | [] => mret tt
  | a :: l' => body a ;; for_each l' body
  end.

(** ** Tactics *)

(** Split every pair, conjunction and existential of the context. *)
Ltac split_ctx :=
  repeat match goal with
    | H : _ /\ _ |- _ => destruct H
    | H : exists _, _ |- _ => destruct H
    | x : (_ * _)%type |- _ => destruct x
    | x : unit |- _ => destruct x
    end.

(** Case analysis on the innermost scrutinee of the goal or a hypothesis. *)
Ltac case_goal :=
  match goal with
  | |- context [match ?x with _ => _ end] =>
      lazymatch x with
      | context [match _ with _ => _ end] => fail
      | _ => destruct x eqn:?
      end
  end.

(** Run the first command of a monadic block with the equation [H]. *)
Ltac mrun H :=
  first [ rewrite (M_bind_done _ _ _ _ _ H) | rewrite (M_bind_fail _ _ _ _ H)
        | erewrite (M_bind_done _ _ _ _ _ H) | erewrite (M_bind_fail _ _ _ _ H) ].

(** ** Reachability and invariants *)

Section invariants.
Context {C : Type} (step : relation C).

Definition stable (I : C -> Prop) : Prop := forall c c', I c -> step c c' -> I c'.

Lemma rtc_stable (I : C -> Prop) c c' :
  stable I -> rtc step c c' -> I c -> I c'.
Proof. intros Hst. induction 1; eauto. Qed.
End invariants.

(** ** Lists *)

(** [interleave xs ys zs]: [zs] is a merge of [xs] and [ys] that keeps the
    order of each. *)
Inductive interleave {A} : list A -> list A -> list A -> Prop :=
  | interleave_nil : interleave [] [] []
  | interleave_l x xs ys zs : interleave xs ys zs -> interleave (x :: xs) ys (x :: zs)
  | interleave_r y xs ys zs : interleave xs ys zs -> interleave xs (y :: ys) (y :: zs).

Create HintDb chart.
#[export] Hint Constructors interleave : chart.

Lemma interleave_left {A} (xs : list A) : interleave xs [] xs.
Proof. induction xs; auto with chart. Qed.

Lemma interleave_right {A} (ys : list A) : interleave [] ys ys.
Proof. induction ys; auto with chart. Qed.

Lemma interleave_perm {A} (xs ys zs : list A) :
  interleave xs ys zs -> zs ≡ₚ xs ++ ys.
Proof.
  induction 1 as [|x xs ys zs _ IH|y xs ys zs _ IH]; [done| |].
  - by rewrite IH.
  - rewrite IH. apply Permutation_middle.
Qed.

#[export] Hint Resolve interleave_left interleave_right : chart.

Lemma omap_bind {A B B'} (h : B -> option B') (f : A -> list B) (g : A -> list B') (l : list A) :
  (forall a, omap h (f a) = g a) -> omap h (l ≫= f) = l ≫= g.
Proof.
  intros Hfg. induction l as [|a l IH]; [done|]. by rewrite !bind_cons, omap_app, Hfg, IH.
Qed.

Lemma omap_all_none {A B} (g : A -> option B) (l : list A) : (forall a, a ∈ l -> g a = None) -> omap g l = [].
Proof. induction l as [|a l IH]; [done|]. intros Ha. csimpl. rewrite Ha by set_solver. apply IH. set_solver. Qed.

(** ** Strings *)

Lemma string_app_assoc (a b c : string) : (a +:+ b) +:+ c = a +:+ (b +:+ c).
Proof. induction a as [|x a IH]; [done|]. exact (f_equal (String x) IH). Qed.
Lemma string_app_nil (a : string) : a +:+ "" = a.
Proof. induction a as [|x a IH]; [done|]. exact (f_equal (String x) IH). Qed.

(** Newlines, carriage returns and spaces, which lines read from files lose at their
    end. *)
Definition trailing (a : Ascii.ascii) : bool :=
  bool_decide (Ascii.nat_of_ascii a ∈ [10; 13; 32]%nat).

Fixpoint pop_back_trailing (s : string) : string :=
  match s with
  | EmptyString => EmptyString
  | String a s' =>
      match pop_back_trailing s' with
      | EmptyString => if trailing a then EmptyString else String a EmptyString
      | r => String a r
      end
  end.

Lemma pop_back_prefix s : exists t, s = pop_back_trailing s +:+ t.
Proof.
  induction s as [|a s [t Ht]]; [by exists ""|]. simpl. destruct (pop_back_trailing s) as [|b r] eqn:Hp.
  - destruct (trailing a); [by exists (String a s)|by exists s].
  - exists t. simpl. by rewrite Ht at 1.
Qed.

Lemma pop_back_clean s a :
  last (String.list_ascii_of_string (pop_back_trailing s)) = Some a -> trailing a = false.
Proof.
  induction s as [|b s IH]; [done|]. simpl. destruct (pop_back_trailing s) as [|c r] eqn:Hp.
  - destruct (trailing b) eqn:Hb; [done|]. by intros [= <-].
  - done.
Qed.

Lemma pop_back_id s :
  (forall a, last (String.list_ascii_of_string s) = Some a -> trailing a = false) -> pop_back_trailing s = s.
Proof.
  induction s as [|b s IH]; [done|]. intros Hl. simpl. destruct s as [|c s].
  - simpl in *. by rewrite (Hl b eq_refl).
  - rewrite IH by (intros a Ha; by apply Hl). done.
Qed.

(** ** Sorted iteration over [std::map] *)

Definition key_le {K A} (le : K -> K -> bool) (x y : K * A) : Prop := le (fst x) (fst y) = true.

#[global] Instance key_le_dec {K A} (le : K -> K -> bool) : RelDecision (key_le (A := A) le).
Proof. intros x y. unfold key_le. apply _. Defined.

Definition by_key {K A} (le : K -> K -> bool) (l : list (K * A)) : list (K * A) :=
  merge_sort (key_le le) l.

Definition string_items {A} (m : gmap string A) : list (string * A) :=
  by_key String.leb (map_to_list m).
Definition token_items {A} (m : gmap Z A) : list (Z * A) := by_key Z.leb (map_to_list m).

Lemma string_items_perm {A} (m : gmap string A) : string_items m ≡ₚ map_to_list m.
Proof. apply merge_sort_Permutation. Qed.
Lemma token_items_perm {A} (m : gmap Z A) : token_items m ≡ₚ map_to_list m.
Proof. apply merge_sort_Permutation. Qed.

Lemma elem_of_token_items {A} (m : gmap Z A) k a : (k, a) ∈ token_items m <-> m !! k = Some a.
Proof. by rewrite token_items_perm, elem_of_map_to_list. Qed.

Lemma token_items_nodup {A} (m : gmap Z A) : NoDup (token_items m).*1.
Proof. rewrite token_items_perm. apply NoDup_fst_map_to_list. Qed.
