(* ===== verification/Hsm.v ===== *)
(** * Hierarchical state machine core (chart/hsm.hpp, chart/event.hpp) *)

From S2P Require Import Prelude.

(** ** Events *)

(** [Event] of chart/event.hpp.  The four system signals carry no payload;
    [User u] is an event whose signal id is at least [User_Signal_Begin],
    with its payload.  A component gives its own type for [u], one constructor
    per signal. *)
Inductive Event (E : Type) :=
  | None_Signal
  | Entry_Signal
  | Exit_Signal
  | Init_Signal
  | User (u : E).
Arguments None_Signal {E}.
Arguments Entry_Signal {E}.
Arguments Exit_Signal {E}.
Arguments Init_Signal {E}.
Arguments User {E} u.

Definition is_user {E} (e : Event E) : bool :=
  match e with User _ => true | _ => false end.

Inductive Status := HANDLED | IGNORED | UNHANDLED | NEED_TO_TRANSFER | TO_SUPER.

#[export] Instance Status_eq_dec : EqDecision Status.
Proof. solve_decision. Defined.

(** A [StateFn] pointer: null, [&Hsm::top], or one of the component's state
    handlers. *)
Inductive StateFn (St : Type) :=
  | nullfn
  | top
  | st (s : St).
Arguments nullfn {St}.
Arguments top {St}.
Arguments st {St} s.

#[export] Instance StateFn_eq_dec {St} `{EqDecision St} : EqDecision (StateFn St).
Proof. solve_decision. Defined.

Inductive DispatchEvent := HandlerVisit | Hook | Ignored.

(** How a state handler ends: the value of its [return] statement.
    [To t] is [return self->to(t)], [Super p] is [return self->super(p)]. *)
Inductive verdict (St : Type) :=
  | Handled
  | IgnoredV
  | Unhandled
  | To (t : StateFn St)
  | Super (p : StateFn St).
Arguments Handled {St}.
Arguments IgnoredV {St}.
Arguments Unhandled {St}.
Arguments To {St} t.
Arguments Super {St} p.

(** ** The Hsm object *)

Section Hsm.
Context {St E D : Type} `{EqDecision St}.

(** The fields of [Hsm]; [self] stands for the fields of the derived class.
    [probe_on]/[probe_log] stand for the [DispatchProbeFn] callback and the
    calls it received, [trace_on]/[trace_log] for the [TraceFn]. *)
Record Hsm := mkHsm {
  state_ : StateFn St;
  temp_ : StateFn St;
  last_ignored_ : bool;
  probe_on : bool;
  probe_log : list (Event E * StateFn St * DispatchEvent);
  trace_on : bool;
  trace_log : list (Event E * StateFn St * StateFn St);
  self : D }.

Definition set_state (s : StateFn St) (h : Hsm) : Hsm :=
  mkHsm s (temp_ h) (last_ignored_ h) (probe_on h) (probe_log h) (trace_on h)
    (trace_log h) (self h).
Definition set_temp (t : StateFn St) (h : Hsm) : Hsm :=
  mkHsm (state_ h) t (last_ignored_ h) (probe_on h) (probe_log h) (trace_on h)
    (trace_log h) (self h).
Definition set_ignored (b : bool) (h : Hsm) : Hsm :=
  mkHsm (state_ h) (temp_ h) b (probe_on h) (probe_log h) (trace_on h)
    (trace_log h) (self h).
Definition set_self (d : D) (h : Hsm) : Hsm :=
  mkHsm (state_ h) (temp_ h) (last_ignored_ h) (probe_on h) (probe_log h) (trace_on h)
    (trace_log h) d.
Definition add_probe p (h : Hsm) : Hsm :=
  mkHsm (state_ h) (temp_ h) (last_ignored_ h) (probe_on h) (probe_log h ++ [p])
    (trace_on h) (trace_log h) (self h).
Definition add_trace t (h : Hsm) : Hsm :=
  mkHsm (state_ h) (temp_ h) (last_ignored_ h) (probe_on h) (probe_log h)
    (trace_on h) (trace_log h ++ [t]) (self h).

(** The component's state handlers: the body of each handler works on the
    derived object and ends in a verdict. *)
Context (handler : St -> Event E -> D -> outcome (verdict St * D)).

(** Whether [CHART_ASSERT] is compiled out. *)
Context (ndebug : bool).

Definition kMaxNest : nat := 8.

Definition CHART_ASSERT_FALSE : M Hsm unit :=
  if ndebug then mret tt else failM AssertFailed.

Definition CHART_REQUIRE (b : bool) : M Hsm unit :=
  if b then mret tt else CHART_ASSERT_FALSE.

(** [Hsm::to] and [Hsm::super], as the effect of a handler's return. *)
Definition run_verdict (v : verdict St) : M Hsm Status :=
  match v with
  | Handled => mret HANDLED
  | IgnoredV => mret IGNORED
  | Unhandled => mret UNHANDLED
  | To t => modify (set_temp t) ;; mret NEED_TO_TRANSFER
  | Super p => modify (set_temp p) ;; mret TO_SUPER
  end.

(** Calling a [StateFn]; [Hsm::top] returns IGNORED and touches nothing. *)
Definition call (f : StateFn St) (e : Event E) : M Hsm Status :=
  match f with
  | nullfn => failM NullCall
  | top => mret IGNORED
  | st s => fun h =>
      match handler s e (self h) with
      | Done (v, d) => run_verdict v (set_self d h)
      | Fail f => Fail f
      end
  end.

(** [for (i = n-1; i >= 0; --i) path[i](this, &evt)], for [path] listed from
    index 0. *)
Definition call_down (path : list (StateFn St)) (e : Event E) : M Hsm unit :=
  for_each (rev path) (fun f => call f e ;; mret tt).

(** The loop of [collect_lineage] (room: free slots left in [out]). *)
Fixpoint collect_lineage_loop (room : nat) (cur : StateFn St) (out : list (StateFn St)) :
    M Hsm (list (StateFn St)) :=
  t ← gets temp_;
  if decide (t = top \/ t = cur) then mret out
  else match room with
       | O => CHART_ASSERT_FALSE ;; mret out
       | S room' =>
           call t None_Signal ;; collect_lineage_loop room' t (out ++ [t])
       end.

Definition collect_lineage (from : StateFn St) : M Hsm (list (StateFn St)) :=
  save ← gets temp_;
  modify (set_temp from) ;;
  call from None_Signal ;;
  out ← collect_lineage_loop (kMaxNest - 1) from [from];
  modify (set_temp save) ;;
  mret out.

(** The path recorded by [init] from a target up to (excluding) [t]. *)
Fixpoint init_path_loop (room : nat) (t : StateFn St) (path : list (StateFn St)) :
    M Hsm (list (StateFn St)) :=
  tmp ← gets temp_;
  if decide (tmp = t) then mret path
  else match room with
       | O => CHART_ASSERT_FALSE ;; mret path
       | S room' =>
           call tmp None_Signal ;; init_path_loop room' t (path ++ [tmp])
       end.

(** The outer do-while of [init]; the argument is [t]. *)
Fixpoint init_loop (fuel : nat) (t : StateFn St) : M Hsm (StateFn St) :=
  match fuel with
  | O => failM OutOfFuel
  | S fuel' =>
      p0 ← gets temp_;
      call p0 None_Signal ;;
      path ← init_path_loop (kMaxNest - 1) t [p0];
      call_down path Entry_Signal ;;
      modify (set_temp p0) ;;
      r ← call p0 Init_Signal;
      if decide (r = NEED_TO_TRANSFER) then init_loop fuel' p0 else mret p0
  end.

Definition init (fuel : nat) (initial : StateFn St) : M Hsm unit :=
  CHART_REQUIRE (bool_decide (initial <> nullfn)) ;;
  modify (set_state top) ;;
  modify (set_temp initial) ;;
  t0 ← gets state_;
  t ← init_loop fuel t0;
  modify (set_state t) ;;
  modify (set_temp t) ;;
  tr ← gets trace_on;
  when tr (modify (add_trace (None_Signal, top, t))).

(** Step 1 of [dispatch]: current state, super-state, ... until a handler
    returns something other than TO_SUPER. *)
Fixpoint walk_up (fuel : nat) (e : Event E) : M Hsm (StateFn St * Status) :=
  match fuel with
  | O => failM OutOfFuel
  | S fuel' =>
      s ← gets temp_;
      pr ← gets probe_on;
      when pr (modify (add_probe (e, s, HandlerVisit))) ;;
      r ← call s e;
      match r with
      | UNHANDLED => call s None_Signal ;; walk_up fuel' e
      | TO_SUPER => walk_up fuel' e
      | _ => mret (s, r)
      end
  end.

(** One exit step: EXIT, then walk to the super-state by hand when the
    handler consumed EXIT. *)
Definition exit_one (cur : StateFn St) : M Hsm (StateFn St) :=
  r ← call cur Exit_Signal;
  (if decide (r = HANDLED) then call cur None_Signal ;; mret tt else mret tt) ;;
  gets temp_.

(** Step 2a: EXIT from the original state up to (excluding) [s]. *)
Fixpoint exit_below (fuel : nat) (cur s : StateFn St) : M Hsm unit :=
  if decide (cur = s) then mret tt
  else match fuel with
       | O => failM OutOfFuel
       | S fuel' => nxt ← exit_one cur; exit_below fuel' nxt s
       end.

(** [for (i = 0; i < tn; ++i) if (tpath[i] == cur) ...]. *)
Fixpoint index_of (cur : StateFn St) (l : list (StateFn St)) : option nat :=
  match l with
  | [] => None
  | x :: l' => if decide (x = cur) then Some O else S <$> index_of cur l'
  end.

(** Step 2c: walk from [s] upward, exiting, until a state of [tpath]. *)
Fixpoint exit_to_lca (fuel : nat) (cur : StateFn St) (tpath : list (StateFn St)) :
    M Hsm (option nat) :=
  if decide (cur = top) then mret None
  else match index_of cur tpath with
       | Some i => mret (Some i)
       | None =>
           match fuel with
           | O => failM OutOfFuel
           | S fuel' => nxt ← exit_one cur; exit_to_lca fuel' nxt tpath
           end
       end.

(** The path of step 3 from a new target up to (excluding) [cur]. *)
Fixpoint drill_path_loop (room : nat) (cur : StateFn St) (npath : list (StateFn St)) :
    M Hsm (list (StateFn St)) :=
  t ← gets temp_;
  if decide (t = cur \/ t = top) then mret npath
  else match room with
       | O => CHART_ASSERT_FALSE ;; mret npath
       | S room' =>
           call t None_Signal ;; drill_path_loop room' cur (npath ++ [t])
       end.

(** Step 3: INIT recursion on the (possibly composite) target. *)
Fixpoint drill (fuel : nat) (cur : StateFn St) : M Hsm (StateFn St) :=
  match fuel with
  | O => failM OutOfFuel
  | S fuel' =>
      modify (set_temp cur) ;;
      r ← call cur Init_Signal;
      if decide (r = NEED_TO_TRANSFER) then
        new_target ← gets temp_;
        call new_target None_Signal ;;
        npath ← drill_path_loop (kMaxNest - 1) cur [new_target];
        call_down npath Entry_Signal ;;
        drill fuel' new_target
      else mret cur
  end.

(** Step 2: the transition from [s] to [target]. *)
Definition transition (fuel : nat) (original_state s target : StateFn St) : M Hsm unit :=
  exit_below fuel original_state s ;;
  if decide (s = target) then
    call s Exit_Signal ;; call target Entry_Signal ;; mret tt
  else
    tpath ← collect_lineage target;
    lca ← exit_to_lca fuel s tpath;
    call_down (match lca with Some i => take i tpath | None => tpath end) Entry_Signal.

Definition dispatch (fuel : nat) (e : Event E) : M Hsm unit :=
  original_state ← gets state_;
  modify (set_ignored false) ;;
  modify (set_temp original_state) ;;
  '(s, r) ← walk_up fuel e;
  if decide (r = NEED_TO_TRANSFER) then
    target ← gets temp_;
    transition fuel original_state s target ;;
    cur ← drill fuel target;
    modify (set_state cur) ;;
    modify (set_temp cur) ;;
    tr ← gets trace_on;
    when tr (modify (add_trace (e, original_state, cur)))
  else
    pr ← gets probe_on;
    when pr (if decide (r = IGNORED) then modify (add_probe (e, s, Ignored))
             else when (is_user e) (modify (add_probe (e, s, Hook)))) ;;
    when (bool_decide (r = IGNORED)) (modify (set_ignored true)) ;;
    modify (set_state original_state) ;;
    modify (set_temp original_state).
End Hsm.

Arguments Hsm : clear implicits.
