(* ===== verification/HsmSpec.v ===== *)
(** * What the dispatcher of chart/hsm.hpp promises

    The reference semantics of a hierarchical chart, stated with the
    super-state function only (no scratch slot [temp_], no pointer walks), and
    the theorem that [Hsm.dispatch] and [Hsm.init] implement it. *)

From S2P Require Import Prelude Hsm.

Section Spec.
Context {St E D : Type} `{EqDecision St}.
Context (handler : St -> Event E -> D -> outcome (verdict St * D)).

(** The hierarchy: the super-state of each state ([None]: [Hsm::top]) and
    the chain from a state to its outermost ancestor.  [swallow] marks the
    terminal states whose handler consumes every signal, [None_Signal]
    included, and so never report a super-state. *)
Context (parent : St -> option St) (lineage : St -> list St) (swallow : St -> bool).

Definition up (s : St) : StateFn St :=
  match parent s with Some p => st p | None => top end.

(** The obligations a set of state handlers must meet. *)
Class wf_chart : Prop := {
  wf_lineage s :
    lineage s = s :: match parent s with Some p => lineage p | None => [] end;
  wf_depth s : length (lineage s) <= kMaxNest;
  wf_swallow_root s : swallow s = true -> parent s = None;
  wf_swallow_leaf s p : parent s = Some p -> swallow p = false;
  wf_none s d :
    handler s None_Signal d = Done (if swallow s then Handled else Super (up s), d);
  wf_exit s d v d' :
    handler s Exit_Signal d = Done (v, d') -> v = Handled \/ v = Super (up s);
  wf_user s u d v d' :
    handler s (User u) d = Done (v, d') ->
    match v with
    | Handled | IgnoredV => True
    | Unhandled => swallow s = false
    | Super p => swallow s = false /\ p = up s
    | To t => swallow s = false /\ exists s', t = st s'
    end;
  wf_init s d t d' :
    handler s Init_Signal d = Done (To t, d') ->
    exists s', t = st s' /\ s ∈ tail (lineage s') }.

(** ** Reference semantics *)

(** Running one action handler, and a sequence of them. *)
Definition act (sg : Event E) (s : St) (d : D) : outcome D :=
  '(_, d') ← handler s sg d; Done d'.

Fixpoint acts (sg : Event E) (l : list St) (d : D) : outcome D :=
  match l with
  | [] => Done d
  | s :: l' => d' ← act sg s d; acts sg l' d'
  end.

(** Offering an event to a state and then to its ancestors: the states
    visited, the one that resolved the event, its verdict. *)
Fixpoint offer (l : list St) (u : E) (d : D) :
    outcome (list (StateFn St) * StateFn St * verdict St * D) :=
  match l with
  | [] => Done ([top], top, IgnoredV, d)
  | s :: l' =>
      '(v, d') ← handler s (User u) d;
      match v with
      | Unhandled | Super _ =>
          '(vis, r, v', d'') ← offer l' u d';
          Done (st s :: vis, r, v', d'')
      | _ => Done ([st s], st s, v, d')
      end
  end.

(** States left and entered when [s], an ancestor-or-self of the active leaf,
    takes a transition to [t]: the ancestors of the one that are not
    ancestors of the other, inner states first on the way out, outer states
    first on the way in; a self-transition leaves and re-enters [s]. *)
Definition exits (leaf s t : St) : list St :=
  filter (fun x => x ∉ lineage s) (lineage leaf) ++
  (if decide (s = t) then [s] else filter (fun x => x ∉ lineage t) (lineage s)).

Definition entries (s t : St) : list St :=
  if decide (s = t) then [t] else rev (filter (fun x => x ∉ lineage s) (lineage t)).

(** Following initial transitions to a leaf. *)
Fixpoint settle (fuel : nat) (s : St) (d : D) : outcome (St * D) :=
  match fuel with
  | O => Fail OutOfFuel
  | S fuel' =>
      '(v, d') ← handler s Init_Signal d;
      match v with
      | To (st t) => d'' ← acts Entry_Signal (entries s t) d'; settle fuel' t d''
      | _ => Done (s, d')
      end
  end.

Definition is_ignored (v : verdict St) : bool :=
  match v with IgnoredV => true | _ => false end.

Definition log_probe (l : list (Event E * StateFn St * DispatchEvent)) (h : Hsm St E D) :=
  if probe_on h then
    mkHsm (state_ h) (temp_ h) (last_ignored_ h) (probe_on h) (probe_log h ++ l)
      (trace_on h) (trace_log h) (self h)
  else h.

Definition log_trace (t : Event E * StateFn St * StateFn St) (h : Hsm St E D) :=
  if trace_on h then add_trace t h else h.

(** The object after it came to rest in [f]. *)
Definition rest_at (f : StateFn St) (h : Hsm St E D) : Hsm St E D :=
  set_temp f (set_state f h).

Definition spec_dispatch (leaf : St) (u : E) (h : Hsm St E D) : outcome (Hsm St E D) :=
  '(vis, r, v, d1) ← offer (lineage leaf) u (self h);
  let h1 := log_probe ((fun f => (User u, f, HandlerVisit)) <$> vis)
              (set_ignored (is_ignored v) h) in
  match v, r with
  | To (st t), st s =>
      d2 ← acts Exit_Signal (exits leaf s t) d1;
      d3 ← acts Entry_Signal (entries s t) d2;
      '(leaf', d4) ← settle kMaxNest t d3;
      Done (log_trace (User u, st leaf, st leaf') (rest_at (st leaf') (set_self d4 h1)))
  | _, _ =>
      Done (rest_at (st leaf)
              (log_probe [(User u, r, if is_ignored v then Ignored else Hook)]
                 (set_self d1 h1)))
  end.

Definition spec_init (initial : St) (h : Hsm St E D) : outcome (Hsm St E D) :=
  d1 ← acts Entry_Signal (rev (lineage initial)) (self h);
  '(leaf, d2) ← settle kMaxNest initial d1;
  Done (log_trace (None_Signal, top, st leaf) (rest_at (st leaf) (set_self d2 h))).

(** ** The hierarchy *)

Context {WF : wf_chart}.

Lemma lineage_self s : s ∈ lineage s.
Proof. rewrite wf_lineage. left. Qed.

Lemma lineage_inv x s :
  x ∈ lineage s -> x = s \/ exists p, parent s = Some p /\ x ∈ lineage p.
Proof.
  rewrite (wf_lineage s). intros [->|Hx]%elem_of_cons; [by left|].
  destruct (parent s) as [p|]; [eauto|]. by apply elem_of_nil in Hx.
Qed.

Lemma lineage_suffix x s : x ∈ lineage s -> lineage x `suffix_of` lineage s.
Proof.
  remember (length (lineage s)) as n eqn:Hn. revert s Hn.
  induction n as [n IH] using lt_wf_ind. intros s -> [->|(p & Hp & Hx)]%lineage_inv; [done|].
  rewrite (wf_lineage s), Hp. apply suffix_cons_r. apply (IH (length (lineage p))); [|done..].
  rewrite (wf_lineage s), Hp. simpl. lia.
Qed.

Lemma lineage_trans x y z : x ∈ lineage y -> y ∈ lineage z -> x ∈ lineage z.
Proof.
  intros Hx [k ->]%lineage_suffix. apply elem_of_app. by right.
Qed.

Lemma lineage_length x s : x ∈ lineage s -> length (lineage x) <= length (lineage s).
Proof. intros [k ->]%lineage_suffix. rewrite length_app. lia. Qed.

Lemma lineage_parent s p : parent s = Some p -> lineage s = s :: lineage p.
Proof. intros Hp. by rewrite wf_lineage, Hp. Qed.

Lemma lineage_root s : parent s = None -> lineage s = [s].
Proof. intros Hp. by rewrite wf_lineage, Hp. Qed.

(** A state is never its own proper ancestor. *)
Lemma lineage_acyclic s p : parent s = Some p -> s ∉ lineage p.
Proof.
  intros Hp Hs. apply lineage_length in Hs. rewrite (lineage_parent s p Hp) in Hs.
  simpl in Hs. lia.
Qed.

Lemma lineage_antisym x y : x ∈ lineage y -> y ∈ lineage x -> x = y.
Proof.
  intros [->|(p & Hp & Hx)]%lineage_inv Hy; [done|].
  destruct (lineage_acyclic y p Hp). by eapply lineage_trans.
Qed.

Lemma lineage_NoDup s : NoDup (lineage s).
Proof.
  remember (length (lineage s)) as n eqn:Hn. revert s Hn.
  induction n as [n IH] using lt_wf_ind. intros s ->.
  destruct (parent s) as [p|] eqn:Hp.
  - rewrite (lineage_parent s p Hp). constructor; [by apply lineage_acyclic|].
    apply (IH (length (lineage p))); [|done]. rewrite (lineage_parent s p Hp). simpl. lia.
  - rewrite (lineage_root s Hp). apply NoDup_singleton.
Qed.

(** Elements of a lineage are the only states above its members. *)
Lemma filter_above_nil x s :
  s ∈ lineage x -> filter (fun y => y ∉ lineage x) (lineage s) = [].
Proof.
  intros Hs. apply elem_of_nil_inv. intros y [Hn Hy]%list_elem_of_filter.
  apply Hn. by eapply lineage_trans.
Qed.

(** Peeling the innermost state off the part of a lineage below [x]. *)
Lemma filter_below_step x s p :
  parent s = Some p -> s ∉ lineage x ->
  filter (fun y => y ∉ lineage x) (lineage s) =
    s :: filter (fun y => y ∉ lineage x) (lineage p).
Proof.
  intros Hp Hs. rewrite (lineage_parent s p Hp). by rewrite filter_cons_True.
Qed.

Lemma filter_below_root x s :
  parent s = None -> s ∉ lineage x ->
  filter (fun y => y ∉ lineage x) (lineage s) = [s].
Proof.
  intros Hp Hs. rewrite (lineage_root s Hp). by rewrite filter_cons_True.
Qed.

(** ** The dispatcher's loops *)

Context (ndebug : bool).

Lemma set_self_id (h : Hsm St E D) : set_self (self h) h = h.
Proof. by destruct h. Qed.

Lemma call_none s h :
  swallow s = false -> call handler (st s) None_Signal h = Done (TO_SUPER, set_temp (up s) h).
Proof. intros Hs. simpl. rewrite wf_none, Hs. simpl. by rewrite set_self_id. Qed.

Lemma call_none_swallow s h :
  swallow s = true -> call handler (st s) None_Signal h = Done (HANDLED, h).
Proof. intros Hs. simpl. rewrite wf_none, Hs. simpl. by rewrite set_self_id. Qed.

(** Running an action handler: the data change as in the reference
    semantics; only the scratch slot may differ besides. *)
Lemma call_act s sg h :
  match act sg s (self h) with
  | Done d => exists r t, call handler (st s) sg h = Done (r, set_temp t (set_self d h))
  | Fail f => call handler (st s) sg h = Fail f
  end.
Proof.
  unfold act. simpl. destruct (handler s sg (self h)) as [[v d]|f]; [|done].
  simpl. destruct v; simpl; do 2 eexists; try reflexivity;
    by instantiate (1 := temp_ h); destruct h.
Qed.

#[local] Arguments Hsm.call : simpl never.
#[local] Opaque kMaxNest.

(** [o] is what the dispatcher does to [h] when the data evolve to [od]:
    only the data and the scratch slot change. *)
Definition moves (h : Hsm St E D) (od : outcome D) (o : outcome (unit * Hsm St E D)) : Prop :=
  match od with
  | Done d => exists t, o = Done (tt, set_temp t (set_self d h))
  | Fail f => o = Fail f
  end.

Lemma for_each_acts sg l h :
  moves h (acts sg l (self h))
    (for_each (st <$> l) (fun f => call handler f sg ;; mret tt) h).
Proof.
  revert h. induction l as [|s l IH]; intros h; simpl.
  - exists (temp_ h). by destruct h.
  - pose proof (call_act s sg h) as Hc.
    destruct (act sg s (self h)) as [d|f]; simpl.
    + destruct Hc as (r & t & Hc). unfold mbind, M_bind. rewrite Hc. simpl.
      pose proof (IH (set_temp t (set_self d h))) as IH'. unfold moves in *. simpl in IH'.
      destruct (acts sg l d) as [d'|f]; [|done].
      destruct IH' as [t' IH']. exists t'. exact IH'.
    + unfold mbind, M_bind. by rewrite Hc.
Qed.

Lemma acts_app sg l1 l2 d : acts sg (l1 ++ l2) d = (d' ← acts sg l1 d; acts sg l2 d').
Proof.
  revert d. induction l1 as [|s l1 IH]; intros d; [done|]. simpl.
  unfold mbind, outcome_bind in *. destruct (act sg s d); [apply IH|done].
Qed.

Lemma acts_one sg s d : acts sg [s] d = act sg s d.
Proof. simpl. unfold mbind, outcome_bind. by destruct (act sg s d). Qed.

Lemma call_down_acts sg l h :
  moves h (acts sg (rev l) (self h)) (call_down handler (st <$> l) sg h).
Proof.
  unfold call_down. rewrite <- map_rev. apply for_each_acts.
Qed.

(** One exit step moves the scratch slot to the super-state. *)
Lemma exit_one_ok s h :
  swallow s = false ->
  exit_one handler (st s) h =
    match act Exit_Signal s (self h) with
    | Done d => Done (up s, set_temp (up s) (set_self d h))
    | Fail f => Fail f
    end.
Proof.
  intros Hs. unfold exit_one, act, mbind, M_bind, outcome_bind. unfold Hsm.call at 1.
  destruct (handler s Exit_Signal (self h)) as [[v d]|f] eqn:Hx; [|done].
  destruct (wf_exit _ _ _ _ Hx) as [-> | ->]; simpl.
  - rewrite call_none by done. done.
  - done.
Qed.

Lemma above_not_swallow s x : s ∈ lineage x -> s <> x -> swallow s = false.
Proof.
  intros [->|(p & Hp & Hs)]%lineage_inv Hne; [done|]. clear Hne.
  remember (length (lineage p)) as n eqn:Hn. revert p x Hn Hp Hs.
  induction n as [n IH] using lt_wf_ind. intros p x -> Hp.
  intros [->|(q & Hq & Hs)]%lineage_inv; [by eapply wf_swallow_leaf|].
  eapply (IH (length (lineage q))); [|done|exact Hq|done].
  rewrite (lineage_parent p q Hq). simpl. lia.
Qed.

Lemma exit_below_ok fuel x s h :
  x ∈ lineage s -> swallow s = false -> length (lineage s) <= fuel ->
  moves h (acts Exit_Signal (filter (fun y => y ∉ lineage x) (lineage s)) (self h))
    (exit_below handler fuel (st s) (st x) h).
Proof.
  revert s h. induction fuel as [|fuel IH]; intros s h Hx Hsw Hf.
  { rewrite wf_lineage in Hf. simpl in Hf. lia. }
  simpl. case_decide as Heq.
  { injection Heq as ->. rewrite filter_above_nil by apply lineage_self.
    exists (temp_ h). by destruct h. }
  apply lineage_inv in Hx as [->|(p & Hp & Hx)]; [done|].
  assert (s ∉ lineage x) as Hns.
  { intros Hsx. apply (lineage_acyclic s p Hp). by eapply lineage_trans. }
  rewrite (filter_below_step x s p Hp Hns). simpl. unfold mbind, M_bind.
  rewrite exit_one_ok by done.
  destruct (act Exit_Signal s (self h)) as [d|f]; simpl; [|done].
  assert (up s = st p) as -> by (unfold up; by rewrite Hp).
  specialize (IH p (set_temp (st p) (set_self d h)) Hx). unfold moves in *. simpl in *.
  rewrite (lineage_parent s p Hp) in Hf. simpl in Hf.
  specialize (IH ltac:(by eapply wf_swallow_leaf) ltac:(lia)).
  destruct (acts _ _ d); [|done]. destruct IH as [t' IH]. by exists t'.
Qed.

(** The three upward walks record the ancestors they pass. *)
Lemma up_cases s :
  (parent s = None /\ up s = top) \/ (exists p, parent s = Some p /\ up s = st p).
Proof. unfold up. destruct (parent s); eauto. Qed.

Lemma collect_loop_stop room cur out h :
  temp_ h = top \/ temp_ h = cur ->
  collect_lineage_loop handler ndebug room cur out h = Done (out, h).
Proof.
  intros Ht. destruct room; simpl; unfold mbind, M_bind; simpl; by rewrite decide_True.
Qed.

Lemma collect_loop_ok room s out h :
  temp_ h = up s -> length (lineage s) <= S room ->
  exists t, collect_lineage_loop handler ndebug room (st s) out h =
    Done (out ++ (st <$> tail (lineage s)), set_temp t h).
Proof.
  revert s out h. induction room as [|room IH]; intros s out h Ht Hl;
    destruct (up_cases s) as [[Hp Hu]|(p & Hp & Hu)]; rewrite Hu in Ht.
  1,3: exists (temp_ h); rewrite (lineage_root s Hp), collect_loop_stop, app_nil_r by auto;
    by destruct h.
  - rewrite (lineage_parent s p Hp), (wf_lineage p) in Hl. simpl in Hl. lia.
  - rewrite (lineage_parent s p Hp) in *. simpl. unfold mbind, M_bind. simpl. rewrite Ht.
    rewrite decide_False by (intros [?|[= ->]]; [done|];
      apply (lineage_acyclic s s Hp), lineage_self).
    rewrite call_none by (by eapply wf_swallow_leaf). simpl.
    destruct (IH p (out ++ [st p]) (set_temp (up p) h)) as [t Ht'];
      [done|simpl in Hl; lia|].
    exists t. rewrite (wf_lineage p) at 1. simpl.
    unfold mbind, M_bind in Ht'. rewrite Ht', <- app_assoc. simpl.
    rewrite (wf_lineage p) at 1. by destruct h.
Qed.

Lemma collect_lineage_ok s h :
  collect_lineage handler ndebug (st s) h = Done (st <$> lineage s, h).
Proof.
  unfold collect_lineage, mbind, M_bind. simpl.
  destruct (swallow s) eqn:Hs.
  - rewrite call_none_swallow by done. rewrite (lineage_root s) by by apply wf_swallow_root.
    simpl. rewrite collect_loop_stop by auto. by destruct h.
  - rewrite call_none by done. simpl.
    destruct (collect_loop_ok (kMaxNest - 1) s [st s] (set_temp (up s) (set_temp (st s) h)))
      as [t Ht]; [done|apply wf_depth|].
    simpl in Ht. rewrite Ht. simpl. rewrite (wf_lineage s). by destruct h.
Qed.

(** Searching the target's ancestors. *)
Lemma index_of_none (x : St) l : x ∉ l -> index_of (st x) (st <$> l) = None.
Proof.
  induction l as [|y l IH]; [done|]. intros [Hn Hl]%not_elem_of_cons. csimpl.
  rewrite decide_False by congruence. by rewrite IH.
Qed.

Lemma index_of_lineage x t :
  x ∈ lineage t ->
  exists i, index_of (st x) (st <$> lineage t) = Some i /\
    take i (lineage t) = filter (fun y => y ∉ lineage x) (lineage t).
Proof.
  remember (length (lineage t)) as n eqn:Hn. revert t Hn.
  induction n as [n IH] using lt_wf_ind. intros t -> Hx.
  destruct (decide (t = x)) as [->|Hne].
  { exists 0. rewrite filter_above_nil by done. split; [|done].
    rewrite (wf_lineage x). csimpl. by rewrite decide_True. }
  apply lineage_inv in Hx as [->|(p & Hp & Hx)]; [done|].
  rewrite (lineage_parent t p Hp) in *.
  destruct (IH (length (lineage p)) ltac:(simpl; lia) p eq_refl Hx) as (i & Hi & Htk).
  exists (S i). csimpl. rewrite decide_False by congruence. split; [by rewrite Hi|].
  rewrite filter_cons_True; [by rewrite Htk|].
  intros Ht. apply (lineage_acyclic t p Hp). by eapply lineage_trans.
Qed.

Lemma filter_skip s p (l : list St) :
  parent s = Some p -> s ∉ l ->
  filter (fun y => y ∉ lineage p) l = filter (fun y => y ∉ lineage s) l.
Proof.
  intros Hp. induction l as [|y l IH]; [done|]. intros [Hy Hl]%not_elem_of_cons.
  rewrite !filter_cons, IH by done. rewrite (lineage_parent s p Hp).
  destruct (decide (y ∉ lineage p)) as [H1|H1], (decide (y ∉ s :: lineage p)) as [H2|H2];
    set_solver.
Qed.

Lemma filter_disjoint_root s (l : list St) :
  parent s = None -> s ∉ l -> filter (fun y => y ∉ lineage s) l = l.
Proof.
  intros Hp. induction l as [|y l IH]; [done|]. intros [Hy Hl]%not_elem_of_cons.
  rewrite filter_cons, IH by done. rewrite (lineage_root s Hp).
  rewrite decide_True; [done|set_solver].
Qed.

Lemma exit_to_lca_ok fuel s t h :
  swallow s = false -> length (lineage s) <= fuel ->
  match acts Exit_Signal (filter (fun y => y ∉ lineage t) (lineage s)) (self h) with
  | Done d => exists tm o,
      exit_to_lca handler fuel (st s) (st <$> lineage t) h =
        Done (o, set_temp tm (set_self d h)) /\
      match o with Some i => take i (st <$> lineage t) | None => st <$> lineage t end =
        st <$> filter (fun y => y ∉ lineage s) (lineage t)
  | Fail f => exit_to_lca handler fuel (st s) (st <$> lineage t) h = Fail f
  end.
Proof.
  revert s h. induction fuel as [|fuel IH]; intros s h Hsw Hf.
  { rewrite wf_lineage in Hf. simpl in Hf. lia. }
  destruct (decide (s ∈ lineage t)) as [Hin|Hout].
  - destruct (index_of_lineage s t Hin) as (i & Hi & Htk).
    rewrite (filter_above_nil t s) by done. csimpl. rewrite Hi.
    exists (temp_ h), (Some i). split; [by destruct h|]. by rewrite <- Htk, fmap_take.
  - csimpl. rewrite (index_of_none s) by done.
    unfold mbind, M_bind. rewrite exit_one_ok by done.
    destruct (up_cases s) as [[Hp Hu]|(p & Hp & Hu)]; rewrite Hu.
    + rewrite filter_below_root by done. csimpl.
      destruct (act Exit_Signal s (self h)) as [d|f]; csimpl; [|done].
      rewrite filter_disjoint_root by done.
      exists top, None. split; [|done]. by destruct fuel.
    + rewrite (filter_below_step t s p Hp Hout). csimpl.
      destruct (act Exit_Signal s (self h)) as [d|f]; csimpl; [|done].
      rewrite (lineage_parent s p Hp) in Hf. simpl in Hf.
      specialize (IH p (set_temp (st p) (set_self d h))
        ltac:(by eapply wf_swallow_leaf) ltac:(lia)). simpl in IH.
      destruct (acts Exit_Signal _ d) as [d'|f]; [|done].
      destruct IH as (tm & o & Heq & Ho). exists tm, o. split; [exact Heq|].
      rewrite Ho. by rewrite (filter_skip s p).
Qed.

(** The part of [t]'s lineage below a stopping point. *)
Definition below (stop : StateFn St) (t : St) : list St :=
  match stop with
  | st s => filter (fun y => y ∉ lineage s) (lineage t)
  | _ => lineage t
  end.

(** [t] lies properly below [stop]. *)
Definition is_below (stop : StateFn St) (t : St) : Prop :=
  match stop with st s => s ∈ tail (lineage t) | top => swallow t = false | nullfn => False end.

Lemma is_below_up stop t :
  is_below stop t ->
  swallow t = false /\ below stop t = t :: tail (below stop t) /\
  ((up t = stop /\ tail (below stop t) = []) \/
   (exists p, parent t = Some p /\ up t = st p /\ st p <> stop /\ is_below stop p /\
     tail (below stop t) = below stop p)).
Proof.
  destruct stop as [| |s]; csimpl; [done|..].
  - intros Hsw. split; [done|]. split; [by rewrite (wf_lineage t)|].
    destruct (up_cases t) as [[Hp Hu]|(p & Hp & Hu)].
    + left. by rewrite (lineage_root t Hp).
    + right. exists p. rewrite (lineage_parent t p Hp).
      repeat split; try done. by eapply wf_swallow_leaf.
  - intros Hs. destruct (up_cases t) as [[Hp Hu]|(p & Hp & Hu)].
    { rewrite (lineage_root t Hp) in Hs. by apply elem_of_nil in Hs. }
    rewrite (lineage_parent t p Hp) in Hs. simpl in Hs.
    assert (t ∉ lineage s) as Hns.
    { intros Ht. apply (lineage_acyclic t p Hp). by eapply lineage_trans. }
    split.
    { destruct (swallow t) eqn:Hsw; [|done]. apply wf_swallow_root in Hsw. congruence. }
    rewrite (filter_below_step s t p Hp Hns). csimpl. split; [done|].
    destruct (decide (p = s)) as [->|Hne].
    + left. split; [done|]. by apply filter_above_nil, lineage_self.
    + right. exists p. repeat split; try done; [congruence|].
      apply lineage_inv in Hs as [->|(q & Hq & Hs)]; [done|].
      by rewrite (lineage_parent p q Hq).
Qed.

#[local] Arguments below : simpl never.
#[local] Arguments is_below : simpl never.

Lemma drill_path_ok room s t path h :
  is_below (st s) t -> temp_ h = up t -> length (lineage t) <= S room ->
  exists tm, drill_path_loop handler ndebug room (st s) path h =
    Done (path ++ (st <$> tail (below (st s) t)), set_temp tm h).
Proof.
  revert t path h. induction room as [|room IH]; intros t path h Hb Ht Hl;
    destruct (is_below_up _ _ Hb) as (Hsw & _ & [[Hu Hnil]|(p & Hp & Hu & Hne & Hb' & Htl)]);
    rewrite Hu in Ht.
  1,3: exists (temp_ h); rewrite Hnil; csimpl; unfold mbind, M_bind; csimpl;
    rewrite decide_True, app_nil_r by auto; by destruct h.
  - rewrite (lineage_parent t p Hp), (wf_lineage p) in Hl. simpl in Hl. lia.
  - destruct (is_below_up _ _ Hb') as (Hsw' & Hcons & _).
    csimpl. unfold mbind, M_bind. csimpl. rewrite Ht.
    rewrite decide_False by (intros [?|?]; done). rewrite call_none by done.
    rewrite (lineage_parent t p Hp) in Hl. simpl in Hl.
    destruct (IH p (path ++ [st p]) (set_temp (up p) h) Hb' eq_refl ltac:(lia)) as [tm Heq].
    exists tm. etrans; [exact Heq|]. rewrite <- app_assoc, Htl, Hcons. by destruct h.
Qed.

Lemma init_path_ok room stop t path h :
  is_below stop t -> temp_ h = up t -> length (lineage t) <= S room ->
  exists tm, init_path_loop handler ndebug room stop path h =
    Done (path ++ (st <$> tail (below stop t)), set_temp tm h).
Proof.
  revert t path h. induction room as [|room IH]; intros t path h Hb Ht Hl;
    destruct (is_below_up _ _ Hb) as (Hsw & _ & [[Hu Hnil]|(p & Hp & Hu & Hne & Hb' & Htl)]);
    rewrite Hu in Ht.
  1,3: exists (temp_ h); rewrite Hnil; csimpl; unfold mbind, M_bind; csimpl;
    rewrite decide_True, app_nil_r by auto; by destruct h.
  - rewrite (lineage_parent t p Hp), (wf_lineage p) in Hl. simpl in Hl. lia.
  - destruct (is_below_up _ _ Hb') as (Hsw' & Hcons & _).
    csimpl. unfold mbind, M_bind. csimpl. rewrite Ht.
    rewrite decide_False by done. rewrite call_none by done.
    rewrite (lineage_parent t p Hp) in Hl. simpl in Hl.
    destruct (IH p (path ++ [st p]) (set_temp (up p) h) Hb' eq_refl ltac:(lia)) as [tm Heq].
    exists tm. etrans; [exact Heq|]. rewrite <- app_assoc, Htl, Hcons. by destruct h.
Qed.

Lemma below_entries s t : is_below (st s) t -> entries s t = rev (below (st s) t).
Proof.
  intros Hb. unfold entries, below. rewrite decide_False; [done|]. intros ->.
  destruct (is_below_up _ _ Hb) as (_ & _ & [[Hu _]|(p & Hp & Hu & Hne & Hb' & _)]).
  - unfold up in Hu. destruct (parent t) as [p|] eqn:Hp; [|done]. injection Hu as ->.
    by apply (lineage_acyclic t t Hp), lineage_self.
  - apply (lineage_acyclic t p Hp). unfold is_below in Hb. by rewrite (lineage_parent t p Hp) in Hb.
Qed.

Lemma is_below_length s t : is_below (st s) t -> length (lineage s) < length (lineage t).
Proof.
  unfold is_below. rewrite (wf_lineage t) at 1. destruct (parent t) as [p|] eqn:Hp; simpl.
  - intros Hs%lineage_length. rewrite (lineage_parent t p Hp). simpl. lia.
  - by intros ?%elem_of_nil.
Qed.

(** Calling a state with INIT, in terms of the handler's verdict. *)
Lemma call_init s h :
  match handler s Init_Signal (self h) with
  | Fail f => call handler (st s) Init_Signal h = Fail f
  | Done (To (st t), d) => is_below (st s) t /\
      call handler (st s) Init_Signal h = Done (NEED_TO_TRANSFER, set_temp (st t) (set_self d h))
  | Done (To _, d) => False
  | Done (_, d) => exists r tm, r <> NEED_TO_TRANSFER /\
      call handler (st s) Init_Signal h = Done (r, set_temp tm (set_self d h))
  end.
Proof.
  unfold Hsm.call. destruct (handler s Init_Signal (self h)) as [[v d]|f] eqn:Hi; [|done].
  destruct v as [| | |t|p].
  4: { destruct (wf_init _ _ _ _ Hi) as (s' & -> & Hb). by split. }
  4: { by exists TO_SUPER, p. }
  all: simpl; do 2 eexists; (split; [|instantiate (1 := temp_ h); by destruct h]); done.
Qed.

Lemma drill_ok fuel n s h :
  kMaxNest < fuel + length (lineage s) -> kMaxNest < n + length (lineage s) ->
  match settle n s (self h) with
  | Done (leaf, d) => exists tm, drill handler ndebug fuel (st s) h =
      Done (st leaf, set_temp tm (set_self d h))
  | Fail f => drill handler ndebug fuel (st s) h = Fail f
  end.
Proof.
  revert n s h. induction fuel as [|fuel IH]; intros n s h Hf Hn;
    pose proof (wf_depth s) as Hd; [lia|].
  destruct n as [|n]; [lia|]. simpl. unfold mbind, M_bind, outcome_bind. simpl.
  pose proof (call_init s (set_temp (st s) h)) as Hc. simpl in Hc.
  destruct (handler s Init_Signal (self h)) as [[v d]|f]; [|by rewrite Hc].
  destruct v as [| | |[| |t]|p]; try done;
    try (destruct Hc as (r & tm & Hr & ->); rewrite decide_False by done;
         exists tm; by destruct h).
  destruct Hc as [Hb ->]. rewrite decide_True by done. simpl.
  destruct (is_below_up _ _ Hb) as (Hsw & Hcons & _).
  rewrite call_none by done.
  destruct (drill_path_ok (kMaxNest - 1) s t [st t]
    (set_temp (up t) (set_temp (st t) (set_self d (set_temp (st s) h)))) Hb eq_refl)
    as [tm Hp]; [apply wf_depth|].
  simpl in Hp. rewrite Hp. clear Hp. change (st t :: (st <$> tail (below (st s) t)))
    with (st <$> (t :: tail (below (st s) t))). rewrite <- Hcons.
  match goal with |- context [call_down _ _ _ ?h'] =>
    pose proof (call_down_acts Entry_Signal (below (st s) t) h') as Hd' end.
  rewrite (below_entries s t Hb). unfold moves in Hd'. simpl in Hd'.
  destruct (acts Entry_Signal (rev (below (st s) t)) d) as [d'|f]; [|by rewrite Hd'].
  destruct Hd' as [tm' ->]. apply is_below_length in Hb.
  match goal with |- context [drill _ _ _ _ ?h'] =>
    specialize (IH n t h' ltac:(lia) ltac:(lia)) end. simpl in IH.
  destruct (settle n t d') as [[leaf d'']|f]; [|done].
  destruct IH as [tm'' ->]. exists tm''. by destruct h.
Qed.

Lemma init_loop_ok fuel n stop t h :
  temp_ h = st t -> is_below stop t ->
  kMaxNest < fuel + length (lineage t) -> kMaxNest < n + length (lineage t) ->
  match d1 ← acts Entry_Signal (rev (below stop t)) (self h); settle n t d1 with
  | Done (leaf, d) => exists tm, init_loop handler ndebug fuel stop h =
      Done (st leaf, set_temp tm (set_self d h))
  | Fail f => init_loop handler ndebug fuel stop h = Fail f
  end.
Proof.
  revert n stop t h. induction fuel as [|fuel IH]; intros n stop t h Ht Hb Hf Hn;
    pose proof (wf_depth t) as Hd; [lia|].
  destruct n as [|n]; [lia|]. simpl. unfold mbind, M_bind, outcome_bind. simpl. rewrite Ht.
  destruct (is_below_up _ _ Hb) as (Hsw & Hcons & _). rewrite call_none by done.
  destruct (init_path_ok (kMaxNest - 1) stop t [st t] (set_temp (up t) h) Hb eq_refl)
    as [tm Hp]; [apply wf_depth|].
  simpl in Hp. rewrite Hp. clear Hp. change (st t :: (st <$> tail (below stop t)))
    with (st <$> (t :: tail (below stop t))). rewrite <- Hcons.
  match goal with |- context [call_down _ _ _ ?h'] =>
    pose proof (call_down_acts Entry_Signal (below stop t) h') as Hd' end.
  unfold moves in Hd'. simpl in Hd'.
  destruct (acts Entry_Signal (rev (below stop t)) (self h)) as [d'|f]; [|by rewrite Hd'].
  destruct Hd' as [tm' ->].
  match goal with |- context [call _ _ Init_Signal ?h'] =>
    pose proof (call_init t h') as Hc end. simpl in Hc.
  destruct (handler t Init_Signal d') as [[v d]|f]; [|by rewrite Hc].
  destruct v as [| | |[| |t']|p]; try done;
    try (destruct Hc as (r & tm'' & Hr & ->); rewrite decide_False by done;
         exists tm''; by destruct h).
  destruct Hc as [Hb' ->]. rewrite decide_True by done. rewrite (below_entries t t' Hb').
  apply is_below_length in Hb' as Hlen.
  match goal with |- context [init_loop _ _ _ _ ?h'] =>
    specialize (IH n (st t) t' h' eq_refl Hb' ltac:(lia) ltac:(lia)) end. simpl in IH.
  unfold mbind, outcome_bind in IH.
  destruct (acts Entry_Signal (rev (below (st t) t')) d) as [d2|f]; [|done].
  destruct (settle n t' d2) as [[leaf d'']|f]; [|done].
  destruct IH as [tm3 ->]. exists tm3. by destruct h.
Qed.

(** Step 2 of [dispatch]: the exits and entries of the reference semantics. *)
Lemma transition_ok fuel leaf s t h :
  s ∈ lineage leaf -> swallow leaf = false -> swallow s = false -> kMaxNest <= fuel ->
  moves h (d ← acts Exit_Signal (exits leaf s t) (self h);
           acts Entry_Signal (entries s t) d)
    (transition handler ndebug fuel (st leaf) (st s) (st t) h).
Proof.
  intros Hs Hleaf Hsw Hf.
  assert (forall x, length (lineage x) <= fuel) as Hlen.
  { intros x. pose proof (wf_depth x). lia. }
  unfold transition, mbind, M_bind, outcome_bind.
  pose proof (exit_below_ok fuel s leaf h Hs Hleaf (Hlen leaf)) as H1.
  unfold exits, entries. rewrite acts_app. unfold mbind, outcome_bind.
  unfold moves in *. destruct (acts Exit_Signal (filter _ (lineage leaf)) (self h)) as [d|f];
    [|by rewrite H1].
  destruct H1 as [t1 ->]. destruct (decide (s = t)) as [<-|Hne].
  - rewrite decide_True by done. rewrite !acts_one.
    pose proof (call_act s Exit_Signal (set_temp t1 (set_self d h))) as H2. simpl in H2.
    destruct (act Exit_Signal s d) as [d2|f]; [|by rewrite H2].
    destruct H2 as (r & t2 & ->). simpl.
    match goal with |- context [call _ (st s) Entry_Signal ?h'] =>
      pose proof (call_act s Entry_Signal h') as H3 end. simpl in H3.
    destruct (act Entry_Signal s d2) as [d3|f]; [|by rewrite H3].
    destruct H3 as (r3 & t3 & ->). exists t3. by destruct h.
  - rewrite decide_False by congruence. rewrite collect_lineage_ok.
    pose proof (exit_to_lca_ok fuel s t (set_temp t1 (set_self d h)) Hsw (Hlen s)) as H2.
    simpl in H2. destruct (acts Exit_Signal (filter _ (lineage s)) d) as [d2|f];
      [|by rewrite H2].
    destruct H2 as (t2 & o & -> & ->).
    match goal with |- context [call_down _ (st <$> ?l) Entry_Signal ?h'] =>
      pose proof (call_down_acts Entry_Signal l h') as H3 end. unfold moves in H3. simpl in H3.
    destruct (acts Entry_Signal (rev _) d2) as [d3|f]; [|done].
    destruct H3 as [t3 ->]. exists t3. by destruct h.
Qed.

(** What [offer] can return. *)
Lemma offer_resolved s u d vis r v d' :
  offer (lineage s) u d = Done (vis, r, v, d') ->
  match v with
  | Unhandled | Super _ => False
  | To t => exists s' t', r = st s' /\ t = st t' /\ s' ∈ lineage s /\ swallow s' = false
  | _ => True
  end.
Proof.
  remember (length (lineage s)) as n eqn:Hn. revert s d vis d' Hn.
  induction n as [n IH] using lt_wf_ind. intros s d vis d' ->.
  rewrite (wf_lineage s) at 1. simpl. unfold mbind, outcome_bind.
  destruct (handler s (User u) d) as [[v1 d1]|f] eqn:Hu; [|done].
  apply wf_user in Hu. destruct v1 as [| | |t|p].
  1,2: by intros [= _ <- <- _].
  2: { intros [= _ <- <- _]. destruct Hu as (Hsw & s' & ->).
       exists s, s'. repeat split; [|done]. apply lineage_self. }
  all: destruct (parent s) as [q|] eqn:Hp; simpl; [|by intros [= _ <- <- _]].
  all: destruct (offer (lineage q) u d1) as [[[[vis1 r1] v1] d2]|f] eqn:Ho; [|done].
  all: intros [= _ <- <- <-].
  all: apply (IH (length (lineage q))) in Ho;
    [|rewrite (lineage_parent s q Hp); simpl; lia|done].
  all: destruct v1; try done; destruct Ho as (s' & t' & -> & -> & Hin & Hsw');
    exists s', t'; repeat split; try done; rewrite (lineage_parent s q Hp); by right.
Qed.

Definition status_of (v : verdict St) : Status :=
  match v with
  | Handled => HANDLED | IgnoredV => IGNORED | Unhandled => UNHANDLED
  | To _ => NEED_TO_TRANSFER | Super _ => TO_SUPER
  end.

#[local] Notation visits u vis := ((fun f => (User u, f, HandlerVisit)) <$> vis).

Lemma probe_visit u f (h : Hsm St E D) :
  (pr ← gets probe_on; when pr (modify (add_probe (User u, f, HandlerVisit)))) h =
    Done (tt, log_probe (visits u [f]) h).
Proof. unfold mbind, M_bind, log_probe, when. simpl. by destruct h, probe_on. Qed.

Lemma log_probe_app l1 l2 (h : Hsm St E D) : log_probe l2 (log_probe l1 h) = log_probe (l1 ++ l2) h.
Proof. unfold log_probe. destruct h, probe_on; simpl; by rewrite ?app_assoc. Qed.

Lemma log_probe_temp l t d (h : Hsm St E D) :
  set_temp t (set_self d (log_probe l h)) = log_probe l (set_temp t (set_self d h)).
Proof. unfold log_probe. by destruct h, probe_on. Qed.

Lemma walk_up_top fuel u h :
  temp_ h = top ->
  walk_up handler (S fuel) (User u) h = Done ((top, IGNORED), log_probe (visits u [top]) h).
Proof.
  intros Ht. simpl. unfold mbind, M_bind. simpl. rewrite Ht.
  unfold log_probe, when. by destruct h, probe_on.
Qed.

(** The result of a walk, in terms of [offer]. *)
Definition walked (u : E) (h : Hsm St E D)
    (o : outcome (list (StateFn St) * StateFn St * verdict St * D))
    (w : outcome (StateFn St * Status * Hsm St E D)) : Prop :=
  match o with
  | Fail f => w = Fail f
  | Done (vis, r, v, d) => exists tm,
      w = Done (r, status_of v, log_probe (visits u vis) (set_temp tm (set_self d h))) /\
      (forall t, v = To t -> tm = t)
  end.

Lemma walk_up_step fuel s u h :
  temp_ h = st s ->
  let h1 := log_probe (visits u [st s]) h in
  walk_up handler (S fuel) (User u) h =
    match handler s (User u) (self h) with
    | Fail f => Fail f
    | Done (Handled, d) => Done (st s, HANDLED, set_self d h1)
    | Done (IgnoredV, d) => Done (st s, IGNORED, set_self d h1)
    | Done (To t, d) => Done (st s, NEED_TO_TRANSFER, set_temp t (set_self d h1))
    | Done (Unhandled, d) | Done (Super _, d) =>
        walk_up handler fuel (User u) (set_temp (up s) (set_self d h1))
    end.
Proof.
  intros Ht h1. cbn [walk_up]. unfold mbind, M_bind. simpl. rewrite Ht.
  assert (when (probe_on h) (modify (add_probe (User u, st s, HandlerVisit))) h = Done (tt, h1))
    as -> by (unfold h1, log_probe, when; by destruct h, probe_on).
  unfold Hsm.call at 1.
  assert (self h1 = self h) as -> by (unfold h1, log_probe; by destruct h, probe_on).
  destruct (handler s (User u) (self h)) as [[v d]|f] eqn:Hu; [|done].
  apply wf_user in Hu. destruct v; simpl; try done.
  - by rewrite call_none.
  - by destruct Hu as [_ ->].
Qed.

Lemma walk_up_ok fuel s u h :
  temp_ h = st s -> length (lineage s) < fuel ->
  walked u h (offer (lineage s) u (self h)) (walk_up handler fuel (User u) h).
Proof.
  revert s h. induction fuel as [|fuel IH]; intros s h Ht Hf; [lia|].
  rewrite walk_up_step with (s := s) by done. rewrite (wf_lineage s) at 1. simpl.
  unfold mbind, outcome_bind.
  destruct (handler s (User u) (self h)) as [[v d]|f]; [|done].
  assert (forall v' : verdict St, v' = Unhandled \/ (exists p, v' = Super p) ->
    walked u h
      match offer match parent s with Some p => lineage p | None => [] end u d with
      | Done (vis, r, v', d'') => Done (st s :: vis, r, v', d'')
      | Fail f => Fail f
      end
      (walk_up handler fuel (User u)
         (set_temp (up s) (set_self d (log_probe (visits u [st s]) h))))) as Hup.
  { intros _ _. rewrite log_probe_temp. rewrite (wf_lineage s) in Hf. simpl in Hf.
    destruct fuel as [|fuel]; [lia|].
    destruct (up_cases s) as [[Hp Hu]|(p & Hp & Hu)]; rewrite Hu, Hp in *.
    - rewrite walk_up_top by (unfold log_probe; by destruct h, probe_on).
      exists top. by rewrite log_probe_app.
    - match goal with |- context [walk_up _ _ _ ?h'] => specialize (IH p h') end.
      unfold walked in *.
      assert (self (log_probe (visits u [st s]) (set_temp (st p) (set_self d h))) = d) as Hd
        by (unfold log_probe; by destruct h, probe_on).
      rewrite Hd in IH. destruct (offer (lineage p) u d) as [[[[vis r] v'] d'']|f].
      + destruct IH as (tm & -> & Htm);
          [unfold log_probe; by destruct h, probe_on|lia|].
        exists tm. split; [|done]. rewrite log_probe_temp, log_probe_app. simpl.
        by destruct h.
      + apply IH; [unfold log_probe; by destruct h, probe_on|lia]. }
  destruct v as [| | |t|p]; [..|apply (Hup (Super p)); eauto].
  3: { apply (Hup Unhandled); auto. }
  all: unfold walked.
  1,2: exists (temp_ h); (split; [|done]); unfold log_probe; by destruct h, probe_on.
  exists t. split; [|congruence]. by rewrite log_probe_temp.
Qed.

Lemma walk_swallow s u d0 vis r v d :
  offer (lineage s) u d0 = Done (vis, r, v, d) -> swallow s = true ->
  match v with To _ => False | _ => True end.
Proof.
  intros Ho Hsw. apply offer_resolved in Ho. destruct v; try done.
  destruct Ho as (s' & t' & _ & _ & Hin & Hs').
  rewrite (lineage_root s) in Hin by by apply wf_swallow_root.
  apply list_elem_of_singleton in Hin as ->. congruence.
Qed.

(** ** Refinement *)

Definition lift_outcome {A} (o : outcome A) : outcome (unit * A) :=
  match o with Done a => Done (tt, a) | Fail f => Fail f end.

Lemma dispatch_eq fuel leaf u h :
  state_ h = st leaf -> kMaxNest < fuel ->
  dispatch handler ndebug fuel (User u) h = lift_outcome (spec_dispatch leaf u h).
Proof.
  intros Hst Hf. unfold dispatch, spec_dispatch, mbind, M_bind, outcome_bind. simpl. rewrite Hst.
  pose proof (walk_up_ok fuel leaf u (set_temp (st leaf) (set_ignored false h)) eq_refl) as Hw.
  specialize (Hw ltac:(pose proof (wf_depth leaf); lia)). simpl in Hw. unfold walked in Hw.
  destruct (offer (lineage leaf) u (self h)) as [[[[vis r] v] d]|f] eqn:Ho; [|by rewrite Hw].
  destruct Hw as (tm & -> & Htm).
  pose proof (walk_swallow leaf u _ vis r v d Ho) as Hws. apply offer_resolved in Ho.
  destruct v as [| | |t|p]; simpl; try done.
  1,2: unfold log_probe, rest_at, when; by destruct h, probe_on.
  destruct Ho as (s & t' & -> & -> & Hin & Hsw).
  rewrite (Htm _ eq_refl).
  assert (swallow leaf = false) as Hleaf.
  { destruct (swallow leaf); [by destruct Hws|done]. }
  set (h1 := log_probe _ _).
  assert (temp_ h1 = st t') as -> by (unfold h1, log_probe; by destruct h, probe_on).
  assert (self h1 = d) as Hd by (unfold h1, log_probe; by destruct h, probe_on).
  pose proof (transition_ok fuel leaf s t' h1 Hin Hleaf Hsw ltac:(lia)) as Htr.
  rewrite Hd in Htr. unfold moves, mbind, outcome_bind in Htr.
  destruct (acts Exit_Signal (exits leaf s t') d) as [d2|f]; [|by rewrite Htr].
  destruct (acts Entry_Signal (entries s t') d2) as [d3|f]; [|by rewrite Htr].
  destruct Htr as [t2 ->].
  pose proof (drill_ok fuel kMaxNest t' (set_temp t2 (set_self d3 h1))) as Hdr. simpl in Hdr.
  assert (0 < length (lineage t')) as Hpos by (rewrite (wf_lineage t'); simpl; lia).
  specialize (Hdr ltac:(lia) ltac:(lia)).
  destruct (settle kMaxNest t' d3) as [[leaf' d4]|f]; [|by rewrite Hdr].
  destruct Hdr as [t3 ->]. subst h1. simpl. unfold log_probe, log_trace, rest_at, when.
  by destruct h, probe_on, trace_on.
Qed.

Lemma init_eq fuel initial h :
  swallow initial = false -> kMaxNest < fuel ->
  init handler ndebug fuel (st initial) h = lift_outcome (spec_init initial h).
Proof.
  intros Hsw Hf. unfold init, spec_init, CHART_REQUIRE.
  rewrite bool_decide_eq_true_2 by done. unfold mbind, M_bind, outcome_bind. simpl.
  assert (0 < length (lineage initial)) as Hpos by (rewrite (wf_lineage initial); simpl; lia).
  pose proof (init_loop_ok fuel kMaxNest top initial (set_temp (st initial) (set_state top h))
    eq_refl Hsw ltac:(lia) ltac:(lia)) as Hi.
  unfold below, mbind, outcome_bind in Hi. simpl in Hi.
  destruct (acts Entry_Signal (rev (lineage initial)) (self h)) as [d1|f]; [|by rewrite Hi].
  destruct (settle kMaxNest initial d1) as [[leaf d2]|f]; [|by rewrite Hi].
  destruct Hi as [tm ->]. unfold log_trace, rest_at, when. by destruct h, trace_on.
Qed.

(** ** The active configuration

    The states that were entered and not left, innermost first, as a stack. *)
Definition leave (x : St) (k : list St) : option (list St) :=
  match k with
  | y :: k' => if decide (x = y) then Some k' else None
  | [] => None
  end.

Definition enter (x : St) (k : list St) : option (list St) :=
  if decide (parent x = head k) then Some (x :: k) else None.

Fixpoint leave_all (l k : list St) : option (list St) :=
  match l with [] => Some k | x :: l' => k' ← leave x k; leave_all l' k' end.

Fixpoint enter_all (l k : list St) : option (list St) :=
  match l with [] => Some k | x :: l' => k' ← enter x k; enter_all l' k' end.

Lemma leave_all_app l k : leave_all l (l ++ k) = Some k.
Proof. induction l as [|x l IH]; [done|]. simpl. by rewrite decide_True. Qed.

Lemma enter_all_app l1 l2 k :
  enter_all (l1 ++ l2) k = (k' ← enter_all l1 k; enter_all l2 k').
Proof.
  revert k. induction l1 as [|x l1 IH]; intros k; [done|]. simpl.
  destruct (enter x k); simpl; [apply IH|done].
Qed.

Lemma enter_all_rev t l k : lineage t = l ++ k -> enter_all (rev l) k = Some (l ++ k).
Proof.
  revert t. induction l as [|x l IH]; intros t Ht; [done|]. simpl.
  rewrite enter_all_app. rewrite (wf_lineage t) in Ht. injection Ht as -> Ht.
  destruct (parent x) as [p|] eqn:Hp.
  - rewrite (IH p) by done. simpl. unfold enter. rewrite decide_True; [done|].
    by rewrite <- Ht, (wf_lineage p).
  - symmetry in Ht. apply app_eq_nil in Ht as [-> ->]. simpl. unfold enter.
    by rewrite decide_True.
Qed.

Lemma lineage_split_above x s :
  x ∈ lineage s -> lineage s = filter (fun y => y ∉ lineage x) (lineage s) ++ lineage x.
Proof.
  intros Hx. destruct (lineage_suffix x s Hx) as [l Hl].
  enough (filter (fun y => y ∉ lineage x) (lineage s) = l) as -> by done.
  rewrite Hl, filter_app, (filter_above_nil x x), app_nil_r by apply lineage_self.
  pose proof (lineage_NoDup s) as Hnd. rewrite Hl in Hnd.
  apply NoDup_app in Hnd as (_ & Hdisj & _). clear Hl Hx.
  induction l as [|y l IH]; [done|].
  rewrite filter_cons_True by (apply Hdisj; left).
  f_equal. apply IH. intros z Hz. apply Hdisj. by right.
Qed.

(** Two lineages share exactly their common outer part. *)
Lemma lineage_split s t :
  exists k, lineage s = filter (fun y => y ∉ lineage t) (lineage s) ++ k /\
            lineage t = filter (fun y => y ∉ lineage s) (lineage t) ++ k.
Proof.
  remember (length (lineage s)) as n eqn:Hn. revert s Hn.
  induction n as [n IH] using lt_wf_ind. intros s ->.
  destruct (decide (s ∈ lineage t)) as [Hin|Hout].
  { exists (lineage s). split; [by rewrite filter_above_nil|by apply lineage_split_above]. }
  destruct (parent s) as [p|] eqn:Hp.
  - destruct (IH (length (lineage p))) with (s := p) as (k & H1 & H2); [|done|].
    { rewrite (lineage_parent s p Hp). simpl. lia. }
    exists k. rewrite (filter_below_step t s p Hp Hout). simpl. rewrite <- H1.
    split; [by apply lineage_parent|]. by rewrite (filter_skip s p) in H2.
  - exists []. rewrite !app_nil_r, filter_below_root, filter_disjoint_root by done.
    split; [by apply lineage_root|done].
Qed.

Lemma exits_entries_bracket leaf s t :
  s ∈ lineage leaf ->
  (k ← leave_all (exits leaf s t) (lineage leaf); enter_all (entries s t) k) = Some (lineage t).
Proof.
  intros Hs. unfold exits, entries.
  assert (forall l1 l2 k, leave_all (l1 ++ l2) k = (k' ← leave_all l1 k; leave_all l2 k'))
    as Happ.
  { induction l1 as [|x l1 IH]; intros l2 k; [done|]. simpl.
    destruct (leave x k); simpl; [apply IH|done]. }
  rewrite Happ. rewrite (lineage_split_above s leaf Hs) at 2. rewrite leave_all_app. simpl.
  destruct (decide (s = t)) as [<-|Hne].
  - destruct (parent s) as [p|] eqn:Hp.
    + rewrite (lineage_parent s p Hp). simpl. rewrite decide_True by done. simpl.
      unfold enter. rewrite decide_True; [done|]. by rewrite (wf_lineage p).
    + rewrite (lineage_root s Hp). simpl. rewrite decide_True by done. simpl.
      unfold enter. by rewrite decide_True.
  - destruct (lineage_split s t) as (k & H1 & H2). rewrite H1 at 2.
    rewrite leave_all_app. simpl. rewrite (enter_all_rev t) by done. by rewrite <- H2.
Qed.

(** Where [settle] ends, no further initial transition is pending. *)
Lemma settle_rest n s d leaf d' :
  settle n s d = Done (leaf, d') ->
  s ∈ lineage leaf /\
  exists d0 v, handler leaf Init_Signal d0 = Done (v, d') /\ (forall t, v <> To t).
Proof.
  revert s d. induction n as [|n IH]; intros s d; [done|]. simpl.
  unfold mbind, outcome_bind.
  destruct (handler s Init_Signal d) as [[v d1]|f] eqn:Hi; [|done].
  destruct v as [| | |[| |t]|p].
  4,5: by destruct (wf_init _ _ _ _ Hi) as (? & ? & ?).
  4: { destruct (wf_init _ _ _ _ Hi) as (? & [= <-] & Hb).
       destruct (acts _ _ d1) as [d2|]; [|done]. intros (Hl & H)%IH. split; [|done].
       eapply lineage_trans; [|done]. rewrite (wf_lineage t) in Hb |- *. by right. }
  all: intros [= <- <-]; split; [apply lineage_self|]; eexists _, _; by split; [exact Hi|].
Qed.

(** ** Totality *)

Section total.
Context (Htot : forall s e d, exists r, handler s e d = Done r).

Lemma acts_total sg l d : exists d', acts sg l d = Done d'.
Proof.
  revert d. induction l as [|s l IH]; intros d; simpl; [eauto|].
  unfold act, mbind, outcome_bind. destruct (Htot s sg d) as [[v d'] ->]. apply IH.
Qed.

Lemma offer_total l u d : exists r, offer l u d = Done r.
Proof.
  revert d. induction l as [|s l IH]; intros d; simpl; [eauto|].
  unfold mbind, outcome_bind. destruct (Htot s (User u) d) as [[v d'] ->].
  destruct (IH d') as [[[[vis r] v'] d''] Hr]. rewrite Hr. destruct v; eauto.
Qed.

Lemma settle_total n s d :
  kMaxNest < n + length (lineage s) -> exists r, settle n s d = Done r.
Proof.
  revert s d. induction n as [|n IH]; intros s d Hn; pose proof (wf_depth s) as Hd; [lia|].
  simpl. unfold mbind, outcome_bind. destruct (Htot s Init_Signal d) as [[v d'] Hi].
  rewrite Hi. destruct v as [| | |[| |t]|p]; eauto.
  destruct (acts_total Entry_Signal (entries s t) d') as [d'' ->].
  destruct (wf_init _ _ _ _ Hi) as (t1 & Ht1 & Hb). injection Ht1 as <-.
  apply is_below_length in Hb. apply IH. lia.
Qed.

Lemma spec_dispatch_total leaf u h :
  exists h' leaf', spec_dispatch leaf u h = Done h' /\
    state_ h' = st leaf' /\ temp_ h' = st leaf' /\
    (leaf' = leaf \/
     exists d v, handler leaf' Init_Signal d = Done (v, self h') /\ forall t, v <> To t).
Proof.
  unfold spec_dispatch, mbind, outcome_bind.
  destruct (offer_total (lineage leaf) u (self h)) as [[[[vis r] v] d] Ho]. rewrite Ho.
  apply offer_resolved in Ho.
  destruct v as [| | |t|p]; try done; [by eauto 10..|].
  destruct Ho as (s & t' & -> & -> & _ & _).
  destruct (acts_total Exit_Signal (exits leaf s t') d) as [d2 ->].
  destruct (acts_total Entry_Signal (entries s t') d2) as [d3 ->].
  destruct (settle_total kMaxNest t' d3) as [[leaf' d4] Hs].
  { rewrite (wf_lineage t'). simpl. lia. }
  rewrite Hs. apply settle_rest in Hs as [_ Hrest].
  eexists _, leaf'. split; [done|]. unfold log_trace. case_match; simpl; eauto.
Qed.
End total.
End Spec.

(** ** The chart without its bookkeeping

    A component's theorems speak of the active leaf and the component's own
    data only; [chart_step] is the part of [spec_dispatch] they need. *)

Section ChartStep.
Context {St E D : Type} `{EqDecision St}.
Context (handler : St -> Event E -> D -> outcome (verdict St * D)).
Context (parent : St -> option St) (lineage : St -> list St) (swallow : St -> bool).

Definition chart_step (leaf : St) (u : E) (d : D) : outcome (St * D) :=
  '(vis, r, v, d1) ← offer handler (lineage leaf) u d;
  match v, r with
  | To (st t), st s =>
      d2 ← acts handler Exit_Signal (exits lineage leaf s t) d1;
      d3 ← acts handler Entry_Signal (entries lineage s t) d2;
      settle handler lineage kMaxNest t d3
  | _, _ => Done (leaf, d1)
  end.

Definition chart_init (initial : St) (d : D) : outcome (St * D) :=
  d1 ← acts handler Entry_Signal (rev (lineage initial)) d;
  settle handler lineage kMaxNest initial d1.

Lemma log_probe_fields l (h : Hsm St E D) :
  self (log_probe l h) = self h /\ state_ (log_probe l h) = state_ h.
Proof. unfold log_probe. by destruct (probe_on h). Qed.

Lemma log_trace_fields t (h : Hsm St E D) :
  self (log_trace t h) = self h /\ state_ (log_trace t h) = state_ h.
Proof. unfold log_trace. by destruct (trace_on h). Qed.

Context {WF : wf_chart handler parent lineage swallow}.

Lemma dispatch_step ndebug fuel leaf u (h : Hsm St E D) :
  state_ h = st leaf -> kMaxNest < fuel ->
  match chart_step leaf u (self h) with
  | Done (leaf', d') =>
      exists h', dispatch handler ndebug fuel (User u) h = Done (tt, h') /\
        state_ h' = st leaf' /\ self h' = d'
  | Fail f => dispatch handler ndebug fuel (User u) h = Fail f
  end.
Proof.
  intros Hst Hf. rewrite (dispatch_eq handler parent lineage swallow ndebug fuel leaf) by done.
  unfold chart_step, spec_dispatch.
  destruct (offer handler (lineage leaf) u (self h)) as [[[[vis r] v] d1]|f]; [|done].
  set (h1 := log_probe ((fun f => (User u, f, HandlerVisit)) <$> vis)
               (set_ignored (is_ignored v) h)).
  assert (Hrest : exists h', lift_outcome (Done (rest_at (st leaf)
      (log_probe [(User u, r, if is_ignored v then Ignored else Hook)] (set_self d1 h1)))) =
      Done (tt, h') /\ state_ h' = st leaf /\ self h' = d1).
  { eexists. split; [reflexivity|]. split; [done|]. simpl. by rewrite (proj1 (log_probe_fields _ _)). }
  destruct v as [| | |[| |t]|]; try exact Hrest.
  destruct r as [| |s]; try exact Hrest.
  cbn [mbind outcome_bind lift_outcome].
  destruct (acts handler Exit_Signal (exits lineage leaf s t) d1) as [d2|];
    cbn [mbind outcome_bind lift_outcome]; [|done].
  destruct (acts handler Entry_Signal (entries lineage s t) d2) as [d3|];
    cbn [mbind outcome_bind lift_outcome]; [|done].
  destruct (settle handler lineage kMaxNest t d3) as [[leaf' d4]|];
    cbn [mbind outcome_bind lift_outcome]; [|done].
  eexists. split; [reflexivity|].
  by rewrite (proj1 (log_trace_fields _ _)), (proj2 (log_trace_fields _ _)).
Qed.

Lemma init_step ndebug fuel initial (h : Hsm St E D) :
  swallow initial = false -> kMaxNest < fuel ->
  match chart_init initial (self h) with
  | Done (leaf', d') =>
      exists h', init handler ndebug fuel (st initial) h = Done (tt, h') /\
        state_ h' = st leaf' /\ self h' = d'
  | Fail f => init handler ndebug fuel (st initial) h = Fail f
  end.
Proof.
  intros Hs Hf. rewrite (init_eq handler parent lineage swallow ndebug fuel initial) by done.
  unfold chart_init, spec_init.
  destruct (acts handler Entry_Signal (rev (lineage initial)) (self h)) as [d1|];
    cbn [mbind outcome_bind lift_outcome]; [|done].
  destruct (settle handler lineage kMaxNest initial d1) as [[leaf' d2]|];
    cbn [mbind outcome_bind lift_outcome]; [|done].
  eexists. split; [reflexivity|].
  by rewrite (proj1 (log_trace_fields _ _)), (proj2 (log_trace_fields _ _)).
Qed.

(** An event the active leaf handles itself, doing [o]. *)
Lemma chart_step_here leaf u d (o : outcome D) :
  handler leaf (User u) d = (d' ← o; Done (Handled, d')) ->
  chart_step leaf u d = (d' ← o; Done (leaf, d')).
Proof.
  intros Hh. unfold chart_step. rewrite (wf_lineage handler parent lineage swallow). simpl.
  rewrite Hh. by destruct o.
Qed.
End ChartStep.
