(* ===== verification/HsmProps.v ===== *)
(** * Properties of the HSM dispatcher

    The theorems about chart/hsm.hpp that the rest of the development (and a
    reader of hsm.hpp) relies on, each with the canonical chart of
    chart/tests/test_hsm.cpp as its concrete instance. *)

From S2P Require Import Prelude Hsm HsmSpec.

(** ** The canonical test chart (chart/tests/test_hsm.cpp) *)

Module Canonical.
Inductive state := s | s1 | s11 | s2 | s21 | s211.

#[global] Instance state_eq_dec : EqDecision state.
Proof. solve_decision. Defined.

Inductive signal := A | B | C | D | E | F | G | H | I.

(** class Probe: the guard variable and the action log. *)
Record probe := Probe { foo : bool; log : list string }.

Definition emit (m : string) (p : probe) : probe := Probe (foo p) (log p ++ [m]).
Definition put_foo (b : bool) (m : string) (p : probe) : probe := Probe b (log p ++ [m]).

Definition handler (x : state) (e : Event signal) (p : probe) :
    outcome (verdict state * probe) :=
  match x, e with
  | s, Entry_Signal => Done (Handled, emit "s-ENTRY" p)
  | s, Init_Signal => Done (To (st s11), emit "s-INIT" p)
  | s, Exit_Signal => Done (Handled, emit "s-EXIT" p)
  | s, User E => Done (To (st s11), emit "s-E" p)
  | s, User I =>
      let p1 := emit "s-I" p in
      Done (Handled, if foo p1 then put_foo false "foo=0" p1 else p1)
  | s, _ => Done (Super top, p)
  | s1, Entry_Signal => Done (Handled, emit "s1-ENTRY" p)
  | s1, Init_Signal => Done (To (st s11), emit "s1-INIT" p)
  | s1, Exit_Signal => Done (Handled, emit "s1-EXIT" p)
  | s1, User A => Done (To (st s1), emit "s1-A" p)
  | s1, User B => Done (To (st s11), emit "s1-B" p)
  | s1, User C => Done (To (st s2), emit "s1-C" p)
  | s1, User F => Done (To (st s211), emit "s1-F" p)
  | s1, User D =>
      if negb (foo p) then Done (To (st s), put_foo true "foo=1" (emit "s1-D" p))
      else Done (Unhandled, p)
  | s1, _ => Done (Super (st s), p)
  | s11, Entry_Signal => Done (Handled, emit "s11-ENTRY" p)
  | s11, Exit_Signal => Done (Handled, emit "s11-EXIT" p)
  | s11, User G => Done (To (st s211), emit "s11-G" p)
  | s11, User H => Done (To (st s), emit "s11-H" p)
  | s11, User D =>
      if foo p then Done (To (st s1), put_foo false "foo=0" (emit "s11-D" p))
      else Done (Unhandled, p)
  | s11, _ => Done (Super (st s1), p)
  | s2, Entry_Signal => Done (Handled, emit "s2-ENTRY" p)
  | s2, Init_Signal => Done (To (st s211), emit "s2-INIT" p)
  | s2, Exit_Signal => Done (Handled, emit "s2-EXIT" p)
  | s2, User I =>
      let p1 := emit "s2-I" p in
      Done (Handled, if negb (foo p1) then put_foo true "foo=1" p1 else p1)
  | s2, User C => Done (To (st s1), emit "s2-C" p)
  | s2, User F => Done (To (st s11), emit "s2-F" p)
  | s2, _ => Done (Super (st s), p)
  | s21, Entry_Signal => Done (Handled, emit "s21-ENTRY" p)
  | s21, Init_Signal => Done (To (st s211), emit "s21-INIT" p)
  | s21, Exit_Signal => Done (Handled, emit "s21-EXIT" p)
  | s21, User A => Done (To (st s21), emit "s21-A" p)
  | s21, User B => Done (To (st s211), emit "s21-B" p)
  | s21, User G => Done (To (st s11), emit "s21-G" p)
  | s21, _ => Done (Super (st s2), p)
  | s211, Entry_Signal => Done (Handled, emit "s211-ENTRY" p)
  | s211, Exit_Signal => Done (Handled, emit "s211-EXIT" p)
  | s211, User D => Done (To (st s21), emit "s211-D" p)
  | s211, User H => Done (To (st s), emit "s211-H" p)
  | s211, _ => Done (Super (st s21), p)
  end.

Definition parent (x : state) : option state :=
  match x with
  | s => None | s1 | s2 => Some s | s11 => Some s1 | s21 => Some s2 | s211 => Some s21
  end.

Definition lineage (x : state) : list state :=
  match x with
  | s => [s] | s1 => [s1; s] | s11 => [s11; s1; s]
  | s2 => [s2; s] | s21 => [s21; s2; s] | s211 => [s211; s21; s2; s]
  end.

Definition swallow (x : state) : bool := false.

#[global] Instance wf : wf_chart handler parent lineage swallow.
Proof.
  constructor.
  - by intros [].
  - intros []; unfold kMaxNest; simpl; lia.
  - done.
  - done.
  - by intros [] ?.
  - intros [] ? v ? [= <- _]; auto.
  - intros x u p v p'.
    destruct x, u; simpl; try (destruct (foo p); simpl); intros [= <- _]; eauto.
  - intros [] ? t ? [= <- _]; eexists; (split; [done|set_solver]).
Qed.

Definition fresh : Hsm state signal probe :=
  mkHsm nullfn nullfn false false [] false [] (Probe false []).

Definition boot : Hsm state signal probe :=
  match init handler false 9 (st s2) fresh with Done (_, h) => h | Fail _ => fresh end.

(** Actions logged by a dispatch from a booted chart. *)
Definition actions_of (u : signal) : list string :=
  match dispatch handler false 9 (User u) (set_self (Probe false []) boot) with
  | Done (_, h) => log (self h)
  | Fail _ => []
  end.

(** test_initial_transition *)
Example initial_transition :
  log (self boot) = ["s-ENTRY"; "s2-ENTRY"; "s2-INIT"; "s21-ENTRY"; "s211-ENTRY"].
Proof. reflexivity. Qed.

(** test_self_transition_runs_exit_init_entry *)
Example self_transition :
  actions_of A = ["s21-A"; "s211-EXIT"; "s21-EXIT"; "s21-ENTRY"; "s21-INIT"; "s211-ENTRY"].
Proof. reflexivity. Qed.

(** test_lca_jump_across_branches *)
Example lca_jump :
  actions_of C =
    ["s2-C"; "s211-EXIT"; "s21-EXIT"; "s2-EXIT"; "s1-ENTRY"; "s1-INIT"; "s11-ENTRY"].
Proof. reflexivity. Qed.

(** test_internal_transition_no_exit_entry *)
Example internal_transition : actions_of I = ["s2-I"; "foo=1"].
Proof. reflexivity. Qed.
End Canonical.

(** ** Refinement of the reference semantics *)

(** C1: for every chart whose handlers meet [wf_chart], run-to-completion
    dispatch as written (scratch slot, super-state walks, LCA search, bounded
    path buffers) computes exactly the reference semantics: the event is
    offered to the active leaf and its ancestors in order, and a transition
    from [s] to [t] runs the EXIT actions of the states left, innermost first,
    then the ENTRY actions of the states entered, outermost first, then the
    INIT chain; no assertion and no array bound is ever hit. *)
Theorem dispatch_refines {St E D} `{EqDecision St}
    (handler : St -> Event E -> D -> outcome (verdict St * D))
    (parent : St -> option St) (lineage : St -> list St) (swallow : St -> bool)
    (ndebug : bool) (fuel : nat) (leaf : St) (u : E) (h : Hsm St E D) :
  wf_chart handler parent lineage swallow ->
  state_ h = st leaf -> kMaxNest < fuel ->
  dispatch handler ndebug fuel (User u) h = lift_outcome (spec_dispatch handler lineage leaf u h).
Proof. intros WF. by apply (dispatch_eq handler parent lineage swallow). Qed.

Lemma dispatch_refines_witness :
  dispatch Canonical.handler false 9 (User Canonical.C) Canonical.boot =
    lift_outcome (spec_dispatch Canonical.handler Canonical.lineage
      Canonical.s211 Canonical.C Canonical.boot).
Proof.
  apply (dispatch_refines Canonical.handler Canonical.parent Canonical.lineage
           Canonical.swallow).
  - apply Canonical.wf.
  - reflexivity.
  - unfold kMaxNest. lia.
Defined.

(** [Hsm::init] implements its reference semantics: ENTRY from the
    outermost ancestor of the initial state down to it, then the INIT chain. *)
Theorem init_refines {St E D} `{EqDecision St}
    (handler : St -> Event E -> D -> outcome (verdict St * D))
    (parent : St -> option St) (lineage : St -> list St) (swallow : St -> bool)
    (ndebug : bool) (fuel : nat) (initial : St) (h : Hsm St E D) :
  wf_chart handler parent lineage swallow ->
  swallow initial = false -> kMaxNest < fuel ->
  init handler ndebug fuel (st initial) h = lift_outcome (spec_init handler lineage initial h).
Proof. intros WF. by apply (init_eq handler parent lineage swallow). Qed.

Lemma init_refines_witness :
  init Canonical.handler true 9 (st Canonical.s2) Canonical.fresh =
    lift_outcome (spec_init Canonical.handler Canonical.lineage Canonical.s2 Canonical.fresh).
Proof.
  apply (init_refines Canonical.handler Canonical.parent Canonical.lineage Canonical.swallow).
  - apply Canonical.wf.
  - reflexivity.
  - unfold kMaxNest. lia.
Defined.

(** ENTRY and EXIT are balanced. Starting from the active configuration of
    the leaf (the leaf and all its ancestors), the EXIT actions of a transition
    each leave the innermost active state, the ENTRY actions each enter a child
    of the innermost active state, and the result is exactly the active
    configuration of the target. *)
Theorem transition_balanced {St E D} `{EqDecision St}
    (handler : St -> Event E -> D -> outcome (verdict St * D))
    (parent : St -> option St) (lineage : St -> list St) (swallow : St -> bool)
    (leaf s t : St) :
  wf_chart handler parent lineage swallow ->
  s ∈ lineage leaf ->
  (k ← leave_all (exits lineage leaf s t) (lineage leaf);
   enter_all parent (entries lineage s t) k) = Some (lineage t).
Proof. intros WF. by apply (exits_entries_bracket handler parent lineage swallow). Qed.

Lemma transition_balanced_witness :
  (k ← leave_all (exits Canonical.lineage Canonical.s211 Canonical.s2 Canonical.s11)
         (Canonical.lineage Canonical.s211);
   enter_all Canonical.parent (entries Canonical.lineage Canonical.s2 Canonical.s11) k)
    = Some (Canonical.lineage Canonical.s11).
Proof.
  apply (transition_balanced Canonical.handler Canonical.parent Canonical.lineage
           Canonical.swallow).
  - apply Canonical.wf.
  - apply (bool_decide_unpack _). reflexivity.
Defined.

(** C2: when no handler throws, [dispatch] terminates and returns with the
    chart at rest: [state_] and [temp_] agree on a leaf state, and either the
    leaf did not change or the new leaf's own INIT takes no further transition
    (a chart never rests on a composite state). *)
Theorem dispatch_terminates {St E D} `{EqDecision St}
    (handler : St -> Event E -> D -> outcome (verdict St * D))
    (parent : St -> option St) (lineage : St -> list St) (swallow : St -> bool)
    (ndebug : bool) (fuel : nat) (leaf : St) (u : E) (h : Hsm St E D) :
  wf_chart handler parent lineage swallow ->
  (forall s e d, exists r, handler s e d = Done r) ->
  state_ h = st leaf -> kMaxNest < fuel ->
  exists h' leaf', dispatch handler ndebug fuel (User u) h = Done (tt, h') /\
    state_ h' = st leaf' /\ temp_ h' = st leaf' /\
    (leaf' = leaf \/
     exists d v, handler leaf' Init_Signal d = Done (v, self h') /\ forall t, v <> To t).
Proof.
  intros WF Htot Hst Hf.
  rewrite (dispatch_eq handler parent lineage swallow ndebug fuel leaf) by done.
  destruct (spec_dispatch_total handler parent lineage swallow Htot leaf u h)
    as (h' & leaf' & -> & H1 & H2 & H3). by exists h', leaf'.
Qed.

Lemma dispatch_terminates_witness :
  exists h' leaf', dispatch Canonical.handler false 9 (User Canonical.D) Canonical.boot
      = Done (tt, h') /\
    state_ h' = st leaf' /\ temp_ h' = st leaf' /\
    (leaf' = Canonical.s211 \/
     exists d v, Canonical.handler leaf' Init_Signal d = Done (v, self h') /\
       forall t, v <> To t).
Proof.
  apply (dispatch_terminates Canonical.handler Canonical.parent Canonical.lineage
           Canonical.swallow).
  - apply Canonical.wf.
  - intros x e p. destruct x, e as [| | | |[]]; simpl; try destruct (Canonical.foo p); simpl; eauto.
  - reflexivity.
  - unfold kMaxNest. lia.
Defined.
