(* ===== verification/ActiveObject.v ===== *)
(** * Active objects (chart/active_object.hpp)

    An [ActiveObject] is an [Hsm] with a worker thread and an event queue.
    The model gives every lock-protected section of the class one atomic
    action and lets the actions of the worker, of any number of posting
    threads and of the stopping thread interleave freely.  The condition
    variable is modelled down to the seam the comment of [stop] speaks about:
    blocking is one action with the evaluation of the predicate (the mutex is
    held), while a notification is sent after the mutex was released and is an
    action of its own. *)

From Stdlib Require Import Relation_Operators Lexicographic_Product.
From S2P Require Import Prelude Hsm HsmSpec HsmProps.

(** A post on the queue; the tag records which of [post_fifo] and [post_lifo]
    was called. *)
Inductive post (E : Type) := Fifo (u : E) | Lifo (u : E).
Arguments Fifo {E} u.
Arguments Lifo {E} u.

Definition payload {E} (p : post E) : E := match p with Fifo u | Lifo u => u end.
Definition is_fifo {E} (p : post E) : bool := match p with Fifo _ => true | Lifo _ => false end.

(** Where the worker thread is inside [run]. *)
Inductive worker_phase (E : Type) :=
  | WLock                          (* about to take [m_] and test the predicate *)
  | WBlocked                       (* waiting on [cv_] *)
  | WBusy (p : post E)             (* popped [p], about to dispatch it *)
  | WPosting (l : list (post E))   (* inside [dispatch], posts still to be made *)
  | WExited                        (* [run] returned *)
  | WDead (p : post E) (f : failure).  (* an assertion or exception in [p]'s dispatch *)
Arguments WLock {E}.
Arguments WBlocked {E}.
Arguments WBusy {E} p.
Arguments WPosting {E} l.
Arguments WExited {E}.
Arguments WDead {E} p f.

(** Where the thread that won the [running_.exchange] is inside [stop]. *)
Inductive stop_phase := NotStopped | StopNotify | StopJoin | StopClear | Stopped.

#[export] Instance stop_phase_eq_dec : EqDecision stop_phase.
Proof. solve_decision. Defined.

Section ActiveObject.
Context {St E D : Type} `{EqDecision St}.
Context (handler : St -> Event E -> D -> outcome (verdict St * D)) (ndebug : bool).

(** The posts a dispatch made on its own object, and forgetting them. *)
Context (outbox : D -> list (post E)) (flush : D -> D).

(** Enough for every walk of [Hsm.dispatch] (at most [kMaxNest] states). *)
Definition dispatch_fuel : nat := S kMaxNest.

(** [notifies] counts [cv_.notify_*] calls that are still to be made by
    threads that left their critical section.  [accepted] and [done] are
    history: the posts that entered the queue and the ones dispatched. *)
Record AO := mkAO {
  hsm : Hsm St E D;
  q_ : list (post E);
  running_ : bool;
  worker_ : worker_phase E;
  stopper : stop_phase;
  notifies : nat;
  accepted : list (post E);
  done : list (post E) }.

Definition set_worker (w : worker_phase E) (c : AO) : AO :=
  mkAO (hsm c) (q_ c) (running_ c) w (stopper c) (notifies c) (accepted c) (done c).
Definition set_stopper (s : stop_phase) (c : AO) : AO :=
  mkAO (hsm c) (q_ c) (running_ c) (worker_ c) s (notifies c) (accepted c) (done c).
Definition set_queue (q : list (post E)) (c : AO) : AO :=
  mkAO (hsm c) q (running_ c) (worker_ c) (stopper c) (notifies c) (accepted c) (done c).

(** [start_at]: INIT runs on the caller's thread, then the worker starts. *)
Definition start_at (inst : bool) (initial : StateFn St) (c : AO) : outcome AO :=
  if running_ c && negb ndebug then Fail AssertFailed else
  let h := hsm c in
  let h1 := if inst
            then mkHsm (state_ h) (temp_ h) (last_ignored_ h) true (probe_log h) true
                   (trace_log h) (self h)
            else h in
  '(_, h2) ← init handler ndebug dispatch_fuel initial h1;
  Done (mkAO h2 (q_ c) true WLock NotStopped (notifies c) (accepted c) (done c)).

(** The critical section of [post_fifo] and [post_lifo]; the caller then has
    a notification to send. *)
Definition push (p : post E) (q : list (post E)) : list (post E) :=
  match p with Fifo _ => q ++ [p] | Lifo _ => p :: q end.

Definition post_event (p : post E) (c : AO) : AO :=
  if running_ c
  then mkAO (hsm c) (push p (q_ c)) (running_ c) (worker_ c) (stopper c)
         (S (notifies c)) (accepted c ++ [p]) (done c)
  else c.

Definition post_fifo (u : E) : AO -> AO := post_event (Fifo u).
Definition post_lifo (u : E) : AO -> AO := post_event (Lifo u).

(** Waking the worker: it re-acquires the mutex and tests the predicate. *)
Definition wake (w : worker_phase E) : worker_phase E :=
  match w with WBlocked => WLock | _ => w end.

(** The critical section of [run]: [cv_.wait] with its predicate, the exit
    test, and the pop. *)
Definition run_wait (c : AO) : AO :=
  if negb (running_ c) || negb (bool_decide (q_ c = [])) then
    match q_ c with
    | [] => set_worker WExited c
    | p :: q => set_queue q (set_worker (WBusy p) c)
    end
  else set_worker WBlocked c.

(** [dispatch(e)] on the worker; the posts the handlers make on this object
    come out of it in order and reach the queue one at a time. *)
Definition run_dispatch (p : post E) (c : AO) : AO :=
  match dispatch handler ndebug dispatch_fuel (User (payload p)) (hsm c) with
  | Done (_, h) =>
      mkAO (set_self (flush (self h)) h) (q_ c) (running_ c) (WPosting (outbox (self h)))
        (stopper c) (notifies c) (accepted c) (done c ++ [p])
  | Fail f => set_worker (WDead p f) c
  end.

(** The actions of all threads. *)
Inductive action :=
  | APost (p : post E)   (* a thread other than the worker posts *)
  | ANotify              (* a poster's [notify_one] *)
  | ASpurious            (* a spurious wake-up of [cv_.wait] *)
  | AWait                (* the worker's critical section *)
  | ADispatch            (* the worker dispatches the event it popped *)
  | AOwnPost             (* a handler's post on its own object *)
  | AStop                (* the critical section that begins [stop] *)
  | AStopNotify          (* [cv_.notify_all] of [stop] *)
  | AJoin                (* [worker_.join] returns *)
  | AClear.              (* the critical section that ends [stop] *)

Definition step (a : action) (c : AO) : option AO :=
  match a, worker_ c, stopper c with
  | APost p, _, _ => Some (post_event p c)
  | ANotify, w, _ =>
      match notifies c with
      | O => None
      | S n => Some (mkAO (hsm c) (q_ c) (running_ c) (wake w) (stopper c) n
                       (accepted c) (done c))
      end
  | ASpurious, WBlocked, _ => Some (set_worker WLock c)
  | AWait, WLock, _ => Some (run_wait c)
  | ADispatch, WBusy p, _ => Some (run_dispatch p c)
  | AOwnPost, WPosting (p :: l), _ => Some (post_event p (set_worker (WPosting l) c))
  | AOwnPost, WPosting [], _ => Some (set_worker WLock c)
  | AStop, _, s =>
      if running_ c
      then Some (mkAO (hsm c) (q_ c) false (worker_ c) StopNotify (notifies c)
                   (accepted c) (done c))
      else Some c
  | AStopNotify, w, StopNotify => Some (set_stopper StopJoin (set_worker (wake w) c))
  | AJoin, WExited, StopJoin => Some (set_stopper StopClear c)
  | AClear, _, StopClear => Some (set_stopper Stopped (set_queue [] c))
  | _, _, _ => None
  end.

Definition steps (c c' : AO) : Prop := exists a, step a c = Some c'.

(** A schedule, run action by action. *)
Fixpoint run_schedule (l : list action) (c : AO) : option AO :=
  match l with
  | [] => Some c
  | a :: l' => c' ← step a c; run_schedule l' c'
  end.

(** An object that [start_at] just started, with no history. *)
Definition started (h : Hsm St E D) : AO := mkAO h [] true WLock NotStopped 0 [] [].

(** ** Reachable configurations *)

Lemma run_schedule_reach l c c' : run_schedule l c = Some c' -> rtc steps c c'.
Proof.
  revert c. induction l as [|a l IH]; intros c; simpl; [intros [= ->]; constructor|].
  destruct (step a c) as [c1|] eqn:Hs; [|done].
  intros Hl. eapply rtc_l; [|by apply IH]. by exists a.
Qed.

(** The post the worker took off the queue and has not dispatched yet. *)
Definition in_hand (w : worker_phase E) : list (post E) :=
  match w with WBusy p | WDead p _ => [p] | _ => [] end.

(** The dispatches in [ps], one after the other, on the object itself. *)
Fixpoint dispatch_all (ps : list (post E)) (h : Hsm St E D) : outcome (Hsm St E D) :=
  match ps with
  | [] => Done h
  | p :: ps' =>
      '(_, h') ← dispatch handler ndebug dispatch_fuel (User (payload p)) h;
      dispatch_all ps' (set_self (flush (self h')) h')
  end.

Record ao_inv (h0 : Hsm St E D) (c : AO) : Prop := {
  inv_conserve : done c ++ in_hand (worker_ c) ++ q_ c ≡ₚ accepted c;
  inv_order : filter (fun p => is_fifo p = true) (done c ++ in_hand (worker_ c) ++ q_ c) =
              filter (fun p => is_fifo p = true) (accepted c);
  inv_history : dispatch_all (done c) h0 = Done (hsm c);
  inv_stopper : running_ c = bool_decide (stopper c = NotStopped);
  inv_wakeup : worker_ c = WBlocked -> (q_ c <> [] -> 0 < notifies c) /\
               (running_ c = false -> stopper c = StopNotify);
  inv_exited : worker_ c = WExited -> running_ c = false /\ q_ c = [];
  inv_joined : stopper c = StopClear \/ stopper c = Stopped -> worker_ c = WExited }.

(** The conjuncts of the invariant that speak of the control state only. *)
Ltac ao_side :=
  intros;
  repeat match goal with
    | H : _ \/ _ |- _ => destruct H
    | H : ?P -> _, H' : ?P |- _ => specialize (H H')
    | H : _ /\ _ |- _ => destruct H
    end;
  solve [ congruence | split; congruence | exfalso; auto | split; intros; first [congruence | by auto | exfalso; by auto] ].

Lemma dispatch_all_snoc ps p h :
  dispatch_all (ps ++ [p]) h = (h' ← dispatch_all ps h; dispatch_all [p] h').
Proof.
  revert h. induction ps as [|p' ps IH]; intros h; simpl; [done|].
  destruct (dispatch _ _ _ _ h) as [[[] h']|f]; simpl; [apply IH|done].
Qed.

Lemma started_inv h : ao_inv h (started h).
Proof. split; simpl; try done. intros [Hs|Hs]; discriminate. Qed.

Lemma push_perm (p : post E) q : push p q ≡ₚ q ++ [p].
Proof. destruct p; simpl; [done|]. apply Permutation_cons_append. Qed.

Lemma push_fifo_order (p : post E) pre q acc :
  filter (fun x => is_fifo x = true) (pre ++ q) = filter (fun x => is_fifo x = true) acc ->
  filter (fun x => is_fifo x = true) (pre ++ push p q) =
  filter (fun x => is_fifo x = true) (acc ++ [p]).
Proof.
  intros Hq. destruct p as [u|u]; simpl.
  - by rewrite (assoc_L (++)), (filter_app _ (pre ++ q)), Hq, filter_app.
  - rewrite filter_app, filter_cons_False by done.
    rewrite <- filter_app, Hq, filter_app. simpl. by rewrite app_nil_r.
Qed.

Lemma post_event_inv h0 p c : ao_inv h0 c -> ao_inv h0 (post_event p c).
Proof.
  intros Hi. unfold post_event. destruct (running_ c) eqn:Hr; [|done].
  destruct Hi as [H1 H2 H3 H4 H5 H6 H7]. rewrite Hr in *. split; simpl; try done.
  - rewrite push_perm, <- H1. by rewrite !(assoc_L (++)).
  - rewrite (assoc_L (++)). apply push_fifo_order. by rewrite <- (assoc_L (++)).
  - intros Hb. split; [lia|]. congruence.
  - intros He. destruct (H6 He). congruence.
Qed.

(** Moving the worker to a phase that holds nothing. *)
Lemma set_worker_inv h0 w c :
  ao_inv h0 c -> in_hand (worker_ c) = [] -> in_hand w = [] ->
  w <> WBlocked -> w <> WExited -> (stopper c = StopClear \/ stopper c = Stopped -> False) ->
  ao_inv h0 (set_worker w c).
Proof.
  intros [H1 H2 H3 H4 H5 H6 H7] Hh Hw Hb He Hs. rewrite Hh in *.
  split; simpl; rewrite ?Hw; done.
Qed.

Lemma not_exited_not_joined h0 c :
  ao_inv h0 c -> worker_ c <> WExited -> stopper c = StopClear \/ stopper c = Stopped -> False.
Proof. intros Hi Hw Hs. by apply Hw, (inv_joined h0 c). Qed.

Lemma run_wait_inv h0 c : ao_inv h0 c -> worker_ c = WLock -> ao_inv h0 (run_wait c).
Proof.
  intros Hi Hw. pose proof (not_exited_not_joined _ _ Hi) as Hnj. rewrite Hw in Hnj.
  destruct Hi as [H1 H2 H3 H4 H5 H6 H7]. rewrite Hw in *. simpl in *. unfold run_wait.
  destruct (running_ c) eqn:Hr, (q_ c) as [|p q] eqn:Hq; simpl;
    split; simpl; rewrite ?Hq, ?Hr; simpl; try done; try ao_side.
Qed.

Lemma run_dispatch_inv h0 c p :
  ao_inv h0 c -> worker_ c = WBusy p -> ao_inv h0 (run_dispatch p c).
Proof.
  intros Hi Hw. pose proof (not_exited_not_joined _ _ Hi) as Hnj. rewrite Hw in Hnj.
  destruct Hi as [H1 H2 H3 H4 H5 H6 H7]. rewrite Hw in *. simpl in *. unfold run_dispatch.
  destruct (dispatch _ _ _ _ (hsm c)) as [[[] h]|f] eqn:Hd; simpl;
    split; simpl; try done; try ao_side.
  - by rewrite <- H1, <- (assoc_L (++)).
  - by rewrite <- H2, <- (assoc_L (++)).
  - rewrite dispatch_all_snoc, H3. simpl. by rewrite Hd.
Qed.

Lemma wake_in_hand (w : worker_phase E) : in_hand (wake w) = in_hand w.
Proof. by destruct w. Qed.

Lemma wake_not_blocked (w : worker_phase E) : wake w <> WBlocked.
Proof. by destruct w. Qed.

Lemma wake_exited (w : worker_phase E) : wake w = WExited <-> w = WExited.
Proof. by destruct w. Qed.

Lemma step_inv h0 a c c' : ao_inv h0 c -> step a c = Some c' -> ao_inv h0 c'.
Proof.
  intros Hi. unfold step.
  destruct a; [intros [= <-]; by apply post_event_inv|..].
  - destruct Hi as [H1 H2 H3 H4 H5 H6 H7].
    destruct (notifies c) as [|n]; [done|]. intros [= <-].
    split; simpl; rewrite ?wake_in_hand, ?wake_exited; try done.
    intros Hb. by destruct (wake_not_blocked (worker_ c)).
  - destruct (worker_ c) eqn:Hw; try done. intros [= <-].
    apply set_worker_inv; rewrite ?Hw; try done. eapply not_exited_not_joined; [done|]. by rewrite Hw.
  - destruct (worker_ c) eqn:Hw; try done. intros [= <-]. by apply run_wait_inv.
  - destruct (worker_ c) eqn:Hw; try done. intros [= <-]. by apply run_dispatch_inv.
  - destruct (worker_ c) as [| | |[|p l]| |] eqn:Hw; try done; intros [= <-];
      [|apply post_event_inv]; (apply set_worker_inv; rewrite ?Hw; try done);
      (eapply not_exited_not_joined; [done|]; by rewrite Hw).
  - destruct (running_ c) eqn:Hr; intros [= <-]; [|done].
    destruct Hi as [H1 H2 H3 H4 H5 H6 H7]. rewrite Hr in *.
    split; simpl; try done; try ao_side.
  - destruct Hi as [H1 H2 H3 H4 H5 H6 H7].
    destruct (worker_ c) eqn:Hw, (stopper c) eqn:Hs; try done; intros [= <-];
      split; simpl; rewrite ?Hw; simpl; try done; try ao_side.
  - destruct Hi as [H1 H2 H3 H4 H5 H6 H7].
    destruct (worker_ c) eqn:Hw, (stopper c) eqn:Hs; try done; intros [= <-];
      split; simpl; rewrite ?Hw; simpl; try done; try ao_side.
  - destruct Hi as [H1 H2 H3 H4 H5 H6 H7].
    destruct (stopper c) eqn:Hs; try (by destruct (worker_ c)).
    rewrite H7 in * by auto. destruct H6 as [H6 H6']; [done|]. intros [= <-].
    rewrite H6' in *. split; simpl; rewrite ?H7 by auto; try done.
Qed.

Lemma reach_inv h c : rtc steps (started h) c -> ao_inv h c.
Proof.
  intros Hr. eapply rtc_stable; [|exact Hr|apply started_inv].
  intros c1 c2 Hi [a Ha]. by eapply step_inv.
Qed.

(** ** The object seen as a chart and its data

    [chart_run] is the sequential meaning of a list of processed events; by
    [reach_chart] it is what every interleaved execution computes. *)

Section chart.
Context (parent : St -> option St) (lineage : St -> list St) (swallow : St -> bool).

Fixpoint chart_run (ps : list (post E)) (s : St * D) : outcome (St * D) :=
  match ps with
  | [] => Done s
  | p :: ps' =>
      '(leaf, d) ← chart_step handler lineage (fst s) (payload p) (snd s);
      chart_run ps' (leaf, flush d)
  end.

Context {WF : wf_chart handler parent lineage swallow}.

Lemma dispatch_all_chart ps leaf h h' :
  state_ h = st leaf -> dispatch_all ps h = Done h' ->
  exists leaf', chart_run ps (leaf, self h) = Done (leaf', self h') /\ state_ h' = st leaf'.
Proof.
  revert leaf h. induction ps as [|p ps IH]; intros leaf h Hst; simpl.
  - intros [= ->]. eauto.
  - pose proof (dispatch_step handler parent lineage swallow ndebug dispatch_fuel leaf
      (payload p) h Hst) as Hd.
    destruct (chart_step handler lineage leaf (payload p) (self h)) as [[leaf1 d1]|f].
    + destruct Hd as (h1 & -> & Hst1 & Hs1); [unfold dispatch_fuel; lia|]. simpl. intros Ha.
      destruct (IH leaf1 (set_self (flush (self h1)) h1) Hst1 Ha) as (leaf' & Hr & Hst'). exists leaf'.
      split; [|done]. simpl in Hr. by rewrite Hs1 in Hr.
    + rewrite Hd by (unfold dispatch_fuel; lia). done.
Qed.

Lemma reach_chart leaf h c :
  state_ h = st leaf -> rtc steps (started h) c ->
  exists leaf', chart_run (done c) (leaf, self h) = Done (leaf', self (hsm c)) /\
    state_ (hsm c) = st leaf'.
Proof.
  intros Hst Hr%reach_inv. apply (dispatch_all_chart _ _ h); [done|]. apply inv_history, Hr.
Qed.

(** Invariants of a chart: kept by every step, and by handing the posts over. *)
Lemma chart_run_stable (P : St -> D -> Prop) (Q : E -> Prop) ps leaf d leaf' d' :
  (forall leaf d, P leaf d -> P leaf (flush d)) ->
  (forall u leaf d leaf1 d1, Q u -> P leaf d ->
     chart_step handler lineage leaf u d = Done (leaf1, d1) -> P leaf1 d1) ->
  Forall (fun p => Q (payload p)) ps -> P leaf d ->
  chart_run ps (leaf, d) = Done (leaf', d') -> P leaf' d'.
Proof.
  intros Hflush Hstep HQ. revert leaf d.
  induction HQ as [|p ps Hp _ IH]; intros leaf d HP; simpl; [by intros [= <- <-]|].
  destruct (chart_step handler lineage leaf (payload p) d) as [[leaf1 d1]|f] eqn:Hs; [|done].
  simpl. apply IH, Hflush. by eapply Hstep.
Qed.

Lemma reach_stable (P : St -> D -> Prop) (Q : E -> Prop) leaf h c :
  (forall leaf d, P leaf d -> P leaf (flush d)) ->
  (forall u leaf d leaf1 d1, Q u -> P leaf d ->
     chart_step handler lineage leaf u d = Done (leaf1, d1) -> P leaf1 d1) ->
  Forall (fun p => Q (payload p)) (done c) -> P leaf (self h) ->
  state_ h = st leaf -> rtc steps (started h) c ->
  exists leaf', state_ (hsm c) = st leaf' /\ P leaf' (self (hsm c)).
Proof.
  intros Hflush Hstep HQ HP Hst Hr. destruct (reach_chart leaf h c Hst Hr) as (leaf' & Hc & Hst').
  exists leaf'. split; [done|]. by eapply chart_run_stable.
Qed.
End chart.

(** ** Stopping terminates *)

(** The steps a stopping object takes by itself (posts and further [stop]
    calls are no-ops once [running_] is false; spurious wake-ups excluded). *)
Definition internal (a : action) : bool :=
  match a with APost _ | ASpurious | AStop => false | _ => true end.

Definition stopping_step (c' c : AO) : Prop :=
  running_ c = false /\ exists a, internal a = true /\ step a c = Some c'.

Definition worker_rank (w : worker_phase E) : nat :=
  match w with
  | WPosting l => 3 + length l
  | WBlocked => 3
  | WLock => 2
  | WBusy _ => 1
  | WExited | WDead _ _ => 0
  end.

Definition stop_rank (s : stop_phase) : nat :=
  match s with NotStopped => 4 | StopNotify => 3 | StopJoin => 2 | StopClear => 1 | Stopped => 0 end.

Definition work_left (c : AO) : nat := length (q_ c) + length (in_hand (worker_ c)).

Definition measure3 (c : AO) : nat * (nat * nat) :=
  (work_left c, (worker_rank (worker_ c), notifies c + stop_rank (stopper c))).

Definition lex3 : relation (nat * (nat * nat)) :=
  slexprod _ _ lt (slexprod _ _ lt lt).

Lemma lex3_wf : well_founded lex3.
Proof. apply wf_slexprod; [apply lt_wf|]. apply wf_slexprod; apply lt_wf. Qed.

Lemma lex3_1 a a' b b' : a' < a -> lex3 (a', b') (a, b).
Proof. intros Hlt. by apply left_slex. Qed.

Lemma lex3_2 a b b' c c' : b' < b -> lex3 (a, (b', c')) (a, (b, c)).
Proof. intros Hlt. apply right_slex. by apply left_slex. Qed.

Lemma lex3_3 a b c c' : c' < c -> lex3 (a, (b, c')) (a, (b, c)).
Proof. intros Hlt. apply right_slex. by apply right_slex. Qed.

Lemma wake_rank (w : worker_phase E) :
  worker_rank (wake w) < worker_rank w \/ wake w = w.
Proof. destruct w; simpl; auto with lia. Qed.

Lemma stopping_step_decreases c c' :
  stopping_step c' c -> lex3 (measure3 c') (measure3 c).
Proof.
  intros [Hr (a & Ha & Hs)]. unfold step in Hs. unfold measure3.
  destruct a; try done.
  - destruct (notifies c) as [|n] eqn:Hn; [done|]. injection Hs as <-.
    unfold work_left. simpl. rewrite wake_in_hand.
    destruct (wake_rank (worker_ c)) as [Hw| ->]; [by apply lex3_2|].
    apply lex3_3. lia.
  - destruct (worker_ c) eqn:Hw; try done. injection Hs as <-.
    unfold run_wait, work_left. rewrite Hr, Hw. simpl.
    destruct (q_ c) eqn:Hq; simpl; rewrite ?Hq; simpl; [apply lex3_2; lia|].
    rewrite Nat.add_0_r, Nat.add_1_r. apply lex3_2. lia.
  - destruct (worker_ c) eqn:Hw; try done. injection Hs as <-.
    unfold run_dispatch, work_left. rewrite Hw.
    destruct (dispatch _ _ _ _ (hsm c)) as [[[] h]|f]; simpl; [apply lex3_1|apply lex3_2]; lia.
  - destruct (worker_ c) as [| | |[|p l]| |] eqn:Hw; try done; injection Hs as <-;
      unfold post_event, work_left; simpl; rewrite ?Hr, ?Hw; simpl; apply lex3_2; lia.
  - destruct (worker_ c) eqn:Hw, (stopper c) eqn:Hst; try done; injection Hs as <-;
      unfold work_left; simpl; rewrite ?Hw; simpl; first [apply lex3_2; lia | apply lex3_3; lia].
  - destruct (worker_ c) eqn:Hw, (stopper c) eqn:Hst; try done; injection Hs as <-;
      unfold work_left; simpl; rewrite ?Hw; simpl; apply lex3_3; lia.
  - destruct (stopper c) eqn:Hst; try (by destruct (worker_ c)).
    assert (Hc : c' = set_stopper Stopped (set_queue [] c)) by (destruct (worker_ c); by injection Hs).
    subst c'. unfold work_left. simpl. destruct (q_ c); simpl; [|apply lex3_1; lia].
    apply lex3_3. lia.
Qed.

Lemma stopping_acc c : Acc stopping_step c.
Proof.
  remember (measure3 c) as m eqn:Hm. revert c Hm.
  induction m as [m IH] using (well_founded_induction lex3_wf). intros c ->.
  constructor. intros c' Hs. eapply IH; [|reflexivity]. by apply stopping_step_decreases.
Qed.

Lemma stopping_progress h0 c :
  ao_inv h0 c -> running_ c = false ->
  stopper c = Stopped \/ (exists p f, worker_ c = WDead p f) \/
  exists a c', internal a = true /\ step a c = Some c'.
Proof.
  intros [H1 H2 H3 H4 H5 H6 H7] Hr. rewrite Hr in H4. symmetry in H4.
  apply bool_decide_eq_false in H4.
  destruct (worker_ c) as [| |p|[|p l]| |p f] eqn:Hw.
  1, 3, 4, 5: right; right.
  - exists AWait. unfold step. rewrite Hw. eauto.
  - exists ADispatch. unfold step. rewrite Hw. eauto.
  - exists AOwnPost. unfold step. rewrite Hw. eauto.
  - exists AOwnPost. unfold step. rewrite Hw. eauto.
  - destruct (H5 eq_refl) as [_ H5']. right; right. exists AStopNotify. unfold step.
    rewrite Hw, (H5' Hr). eauto.
  - destruct (stopper c) eqn:Hs; [done| | | |by left]; right; right; unfold step; rewrite Hw, Hs.
    + exists AStopNotify. eauto.
    + exists AJoin. eauto.
    + exists AClear. eauto.
  - right; left. eauto.
Qed.
End ActiveObject.

Arguments AO : clear implicits.

(** ** Properties *)

(** C3: no event is lost, duplicated or reordered by the queue. In every
    reachable configuration of an active object, under any interleaving of
    posting threads, the worker and [stop], the posts dispatched so far, the
    one in the worker's hand and the queued ones are together exactly the posts
    accepted while the object ran, and the ones made with [post_fifo] are
    dispatched in the order in which they were accepted. *)
Theorem queue_conserves {St E D} `{EqDecision St}
    (handler : St -> Event E -> D -> outcome (verdict St * D)) (ndebug : bool)
    (outbox : D -> list (post E)) (flush : D -> D) (h : Hsm St E D) (c : AO St E D) :
  rtc (steps handler ndebug outbox flush) (started h) c ->
  done c ++ in_hand (worker_ c) ++ q_ c ≡ₚ accepted c /\
  filter (fun p => is_fifo p = true) (done c)
    `prefix_of` filter (fun p => is_fifo p = true) (accepted c).
Proof.
  intros [H1 H2 _ _ _ _ _]%reach_inv. split; [done|].
  rewrite <- H2, filter_app. by apply prefix_app_r.
Qed.


(** C5: no lost wake-up. Whenever the worker is blocked on the condition
    variable although an event is queued or [stop] has begun, the notification
    that wakes it is still to be delivered. *)
Theorem no_lost_wakeup {St E D} `{EqDecision St}
    (handler : St -> Event E -> D -> outcome (verdict St * D)) (ndebug : bool)
    (outbox : D -> list (post E)) (flush : D -> D) (h : Hsm St E D) (c : AO St E D) :
  rtc (steps handler ndebug outbox flush) (started h) c ->
  worker_ c = WBlocked -> (q_ c <> [] \/ running_ c = false) ->
  exists a c', (a = ANotify \/ a = AStopNotify) /\
    step handler ndebug outbox flush a c = Some c' /\ worker_ c' = WLock.
Proof.
  intros Hi%reach_inv Hw Hor. destruct (inv_wakeup _ _ _ _ _ Hi Hw) as [Hq Hs].
  destruct Hor as [Hne|Hr].
  - exists ANotify. unfold step. destruct (notifies c) as [|n]; [specialize (Hq Hne); lia|].
    eexists. rewrite Hw. eauto.
  - exists AStopNotify. unfold step. rewrite Hw, (Hs Hr). eauto.
Qed.

(** C6: [stop] returns, and it does not drop pending events. Once [stop] has
    taken effect the object's own steps cannot go on forever, and until [stop]
    has returned (or a handler has brought the process down) one of them is
    enabled; when it has returned, every event that was accepted has been
    dispatched. *)
Theorem stop_returns {St E D} `{EqDecision St}
    (handler : St -> Event E -> D -> outcome (verdict St * D)) (ndebug : bool)
    (outbox : D -> list (post E)) (flush : D -> D) (h : Hsm St E D) (c : AO St E D) :
  rtc (steps handler ndebug outbox flush) (started h) c ->
  running_ c = false ->
  Acc (stopping_step handler ndebug outbox flush) c /\
  ((stopper c = Stopped /\ q_ c = [] /\ done c ≡ₚ accepted c) \/
   (exists p f, worker_ c = WDead p f) \/
   exists a c', internal a = true /\ step handler ndebug outbox flush a c = Some c').
Proof.
  intros Hi%reach_inv Hr. split; [apply stopping_acc|].
  destruct (stopping_progress _ _ outbox _ _ _ Hi Hr) as [Hs|Hp]; [left|by right].
  destruct Hi as [H1 _ _ _ _ H6 H7]. rewrite H7 in * by auto.
  destruct H6 as [_ Hq]; [done|]. rewrite Hq in *. by rewrite <- H1, app_nil_r.
Qed.

(** *** Witnesses: the canonical chart under a concrete schedule *)

Module Demo.
Import Canonical.

Definition obj : AO state signal probe := started boot.
Definition no_posts (p : probe) : list (post signal) := [].
Definition kept (p : probe) : probe := p.

Definition run (l : list action) : AO state signal probe :=
  default obj (run_schedule handler false no_posts kept l obj).

(** The worker blocks, two events arrive, [stop] begins before either is
    dispatched. *)
Definition schedule1 : list (action (E := signal)) :=
  [AWait; APost (Fifo C); APost (Lifo A); AStop].

Lemma schedule_reach l c c' :
  run_schedule handler false no_posts kept l c = Some c' ->
  rtc (steps handler false no_posts kept) c c'.
Proof. apply run_schedule_reach. Qed.

Definition drained : list (action (E := signal)) :=
  schedule1 ++ [AStopNotify; AWait; ADispatch; AOwnPost; AWait; ADispatch; AOwnPost;
                AWait; AJoin; AClear].
End Demo.

Lemma queue_conserves_witness :
  done (Demo.run Demo.drained) ++ in_hand (worker_ (Demo.run Demo.drained)) ++
    q_ (Demo.run Demo.drained) ≡ₚ accepted (Demo.run Demo.drained) /\
  filter (fun p => is_fifo p = true) (done (Demo.run Demo.drained))
    `prefix_of` filter (fun p => is_fifo p = true) (accepted (Demo.run Demo.drained)).
Proof.
  apply (queue_conserves Canonical.handler false Demo.no_posts Demo.kept Canonical.boot).
  apply (Demo.schedule_reach Demo.drained). vm_compute. reflexivity.
Defined.


Lemma no_lost_wakeup_witness :
  exists a c', (a = ANotify \/ a = AStopNotify) /\
    step Canonical.handler false Demo.no_posts Demo.kept a (Demo.run Demo.schedule1)
      = Some c' /\ worker_ c' = WLock.
Proof.
  apply (no_lost_wakeup Canonical.handler false Demo.no_posts Demo.kept Canonical.boot).
  - apply (Demo.schedule_reach Demo.schedule1). vm_compute. reflexivity.
  - vm_compute. reflexivity.
  - right. vm_compute. reflexivity.
Defined.

Lemma stop_returns_witness :
  Acc (stopping_step Canonical.handler false Demo.no_posts Demo.kept) (Demo.run Demo.drained) /\
  ((stopper (Demo.run Demo.drained) = Stopped /\ q_ (Demo.run Demo.drained) = [] /\
    done (Demo.run Demo.drained) ≡ₚ accepted (Demo.run Demo.drained)) \/
   (exists p f, worker_ (Demo.run Demo.drained) = WDead p f) \/
   exists a c', internal a = true /\
     step Canonical.handler false Demo.no_posts Demo.kept a (Demo.run Demo.drained) = Some c').
Proof.
  apply (stop_returns Canonical.handler false Demo.no_posts Demo.kept Canonical.boot).
  - apply (Demo.schedule_reach Demo.drained). vm_compute. reflexivity.
  - vm_compute. reflexivity.
Defined.
