(* ===== verification/Defer.v ===== *)
(** * Defer and recall (chart/defer.hpp)

    A [DeferQueue] keeps the events a chart cannot handle in its current state;
    [recall] puts one back at the front of the owner's queue, [recall_all] puts
    all of them back at its end. *)

From S2P Require Import Prelude Hsm HsmProps ActiveObject.

Section DeferQueue.
Context {E : Type}.

(** The deque [q_]; the mutex of [DeferQueue] makes each operation atomic. *)
Definition DeferQueue : Type := list E.

Definition defer_push (e : E) (q : DeferQueue) : DeferQueue := q ++ [e].

(** [pop]: the popped event ([None]: returned false) and the queue left. *)
Definition defer_pop (q : DeferQueue) : option E * DeferQueue :=
  match q with
  | [] => (None, [])
  | e :: q' => (Some e, q')
  end.

Definition defer_empty (q : DeferQueue) : bool := bool_decide (length q = 0).
Definition defer_size (q : DeferQueue) : nat := length q.
Definition defer_clear (q : DeferQueue) : DeferQueue := [].

Definition defer (q : DeferQueue) (e : E) : DeferQueue := defer_push e q.
End DeferQueue.

Arguments DeferQueue : clear implicits.

Section Recall.
Context {St E D : Type}.

(** [recall]: the returned flag, the queue and the object after it. *)
Definition recall (q : DeferQueue E) (ao : AO St E D) : bool * DeferQueue E * AO St E D :=
  match defer_pop q with
  | (None, q') => (false, q', ao)
  | (Some e, q') => (true, q', post_lifo e ao)
  end.

(** The while loop of [recall_all], [n] the counter. *)
Fixpoint recall_all_loop (fuel : nat) (q : DeferQueue E) (ao : AO St E D) (n : nat) :
    outcome (nat * DeferQueue E * AO St E D) :=
  match fuel with
  | O => Fail OutOfFuel
  | S fuel' =>
      match defer_pop q with
      | (None, q') => Done (n, q', ao)
      | (Some e, q') => recall_all_loop fuel' q' (post_fifo e ao) (S n)
      end
  end.

(** Every iteration but the last removes one event. *)
Definition recall_all (q : DeferQueue E) (ao : AO St E D) :
    outcome (nat * DeferQueue E * AO St E D) :=
  recall_all_loop (S (defer_size q)) q ao 0.

(** Posting a list of events one after the other. *)
Definition post_each (q : list E) (ao : AO St E D) : AO St E D :=
  foldl (fun c e => post_fifo e c) ao q.

Lemma recall_all_loop_ok q ao n fuel :
  length q < fuel ->
  recall_all_loop fuel q ao n = Done (n + length q, [], post_each q ao).
Proof.
  revert ao n fuel. induction q as [|e q IH]; intros ao n [|fuel] Hf; simpl in *; try lia.
  - by rewrite Nat.add_0_r.
  - rewrite IH by lia. simpl. do 3 f_equal. lia.
Qed.

Lemma recall_all_eq q ao : recall_all q ao = Done (length q, [], post_each q ao).
Proof. unfold recall_all, defer_size. rewrite recall_all_loop_ok; [done|lia]. Qed.

Lemma post_each_running q (ao : AO St E D) :
  running_ ao = true ->
  q_ (post_each q ao) = q_ ao ++ (Fifo <$> q) /\
  accepted (post_each q ao) = accepted ao ++ (Fifo <$> q) /\
  running_ (post_each q ao) = true /\ hsm (post_each q ao) = hsm ao.
Proof.
  revert ao. induction q as [|e q IH]; intros ao Hr; simpl.
  - by rewrite !app_nil_r.
  - assert (Hr' : running_ (post_fifo e ao) = true)
      by (unfold post_fifo, post_event; by rewrite Hr).
    destruct (IH _ Hr') as (H1 & H2 & H3 & H4).
    unfold post_each in *. rewrite H1, H2, H3, H4.
    unfold post_fifo, post_event. rewrite Hr. simpl. by rewrite <- !(assoc_L (++)).
Qed.

Lemma post_each_stopped q (ao : AO St E D) :
  running_ ao = false -> post_each q ao = ao.
Proof.
  intros Hr. induction q as [|e q IH]; simpl; [done|].
  unfold post_fifo at 1, post_event. by rewrite Hr.
Qed.
End Recall.

(** [recall_all] terminates and moves the deferred events, all of them,
    once each and in their original order, to the end of the running owner's
    queue, behind the events that were already queued; it leaves the deferred
    queue empty and returns their number. *)
Theorem recall_all_in_order {St E D} (q : DeferQueue E) (ao : AO St E D) :
  running_ ao = true ->
  exists ao', recall_all q ao = Done (length q, [], ao') /\
    q_ ao' = q_ ao ++ (Fifo <$> q) /\ accepted ao' = accepted ao ++ (Fifo <$> q) /\
    hsm ao' = hsm ao.
Proof.
  intros Hr. exists (post_each q ao). rewrite recall_all_eq.
  destruct (post_each_running q ao Hr) as (? & ? & _ & ?). done.
Qed.

Lemma recall_all_in_order_witness :
  exists ao', recall_all [Canonical.A; Canonical.B] Demo.obj = Done (2, [], ao') /\
    q_ ao' = q_ Demo.obj ++ (Fifo <$> [Canonical.A; Canonical.B]) /\
    accepted ao' = accepted Demo.obj ++ (Fifo <$> [Canonical.A; Canonical.B]) /\
    hsm ao' = hsm Demo.obj.
Proof. apply (recall_all_in_order [Canonical.A; Canonical.B] Demo.obj). reflexivity. Defined.

(** [recall] makes the oldest deferred event the next one the worker pops. *)
Lemma recall_next {St E D} (e : E) (q : DeferQueue E) (ao : AO St E D) :
  running_ ao = true ->
  exists ao', recall (e :: q) ao = (true, q, ao') /\ q_ ao' = Lifo e :: q_ ao.
Proof.
  intros Hr. eexists. split; [reflexivity|].
  unfold post_lifo, post_event. by rewrite Hr.
Qed.

(** On a stopped owner [recall_all] discards the events it counts. *)
Lemma recall_all_stopped {St E D} (q : DeferQueue E) (ao : AO St E D) :
  running_ ao = false -> recall_all q ao = Done (length q, [], ao).
Proof. intros Hr. by rewrite recall_all_eq, post_each_stopped. Qed.
