(* ===== verification/Fabric.v ===== *)
(** * Publish/subscribe between active objects (chart/publish_subscribe.hpp)

    [Fabric] maps a signal id to the objects subscribed to it.  Objects are
    identified by a number (their address); the registry of cleanup hooks of
    chart/active_object.hpp, through which a destroyed object leaves every
    subscription list, is modelled here too. *)

From S2P Require Import Prelude.

Definition ao_id : Type := positive.

(** [subs_]: an [unordered_map<int, vector<ActiveObject*>>]. *)
Notation subs := (gmap Z (list ao_id)).

(** [CHART_REQUIRE(who != nullptr)] holds of every [ao_id]. *)
Definition subscribe (who : ao_id) (sig : Z) (s : subs) : subs :=
  let list := default [] (s !! sig) in
  if decide (who ∈ list) then <[sig := list]> s else <[sig := list ++ [who]]> s.

(** [list.erase(std::remove(...))]. *)
Definition remove_all (who : ao_id) (l : list ao_id) : list ao_id :=
  filter (fun x => x <> who) l.

Definition unsubscribe (who : ao_id) (sig : Z) (s : subs) : subs :=
  match s !! sig with
  | None => s
  | Some list =>
      let list' := remove_all who list in
      if decide (list' = []) then delete sig s else <[sig := list']> s
  end.

(** One pass over the map: shrink every list, erase the ones left empty. *)
Definition unsubscribe_all (who : ao_id) (s : subs) : subs :=
  omap (fun list => let list' := remove_all who list in
                    if decide (list' = []) then None else Some list') s.

(** [publish]: the objects the event is posted to, in order. *)
Definition publish (sig : Z) (s : subs) : list ao_id :=
  match s !! sig with
  | None => []
  | Some targets => targets
  end.

(** ** The cleanup registry *)

(** A hook acts on the state of the library facility it belongs to. *)
Definition hook : Type := ao_id -> subs -> subs.

Definition register_cleanup_hook (fn : hook) (hooks : list hook) : list hook := hooks ++ [fn].

Definition run_cleanup_hooks (hooks : list hook) (ao : ao_id) (s : subs) : subs :=
  foldl (fun s fn => fn ao s) s hooks.

(** [detail::fabric_cleanup_registered_]. *)
Definition fabric_hooks : list hook := register_cleanup_hook unsubscribe_all [].

(** The operations of the class; [Destroy] is what [~ActiveObject] does to it. *)
Inductive fabric_op :=
  | Subscribe (who : ao_id) (sig : Z)
  | Unsubscribe (who : ao_id) (sig : Z)
  | UnsubscribeAll (who : ao_id)
  | Destroy (who : ao_id).

Definition apply_op (o : fabric_op) (s : subs) : subs :=
  match o with
  | Subscribe who sig => subscribe who sig s
  | Unsubscribe who sig => unsubscribe who sig s
  | UnsubscribeAll who => unsubscribe_all who s
  | Destroy who => run_cleanup_hooks fabric_hooks who s
  end.

Definition apply_ops (l : list fabric_op) : subs := foldl (fun s o => apply_op o s) ∅ l.

(** ** Specification: a set of (object, signal) pairs *)

(** Whether [who] is subscribed to [sig] after a history of operations, newest
    operation last. *)
Fixpoint subscribed (l : list fabric_op) (who : ao_id) (sig : Z) (acc : bool) : bool :=
  match l with
  | [] => acc
  | o :: l' =>
      subscribed l' who sig
        match o with
        | Subscribe w g => acc || (bool_decide (w = who) && bool_decide (g = sig))
        | Unsubscribe w g => acc && negb (bool_decide (w = who) && bool_decide (g = sig))
        | UnsubscribeAll w | Destroy w => acc && negb (bool_decide (w = who))
        end
  end.

(** No list holds an object twice and none is empty. *)
Definition fabric_ok (s : subs) : Prop := map_Forall (fun _ l => NoDup l /\ l <> []) s.

Lemma remove_all_elem who x l : x ∈ remove_all who l <-> x ∈ l /\ x <> who.
Proof. unfold remove_all. rewrite list_elem_of_filter. tauto. Qed.

Lemma unsubscribe_all_lookup who s sig :
  unsubscribe_all who s !! sig =
    (list ← s !! sig; if decide (remove_all who list = []) then None
                      else Some (remove_all who list)).
Proof. unfold unsubscribe_all. by rewrite lookup_omap. Qed.

Lemma apply_op_ok o s : fabric_ok s -> fabric_ok (apply_op o s).
Proof.
  intros Hok. assert (Hall : forall who, fabric_ok (unsubscribe_all who s)).
  { intros who g l. rewrite unsubscribe_all_lookup.
    destruct (s !! g) as [l0|] eqn:Hs; [|done]. simpl.
    destruct (decide _); [done|]. intros [= <-]. split; [|done].
    apply NoDup_filter. by apply (Hok g). }
  destruct o as [who g|who g|who|who]; simpl; [| |apply Hall|apply Hall].
  - unfold subscribe. destruct (s !! g) as [l|] eqn:Hs; simpl.
    + destruct (Hok _ _ Hs) as [Hnd Hne].
      destruct (decide _); apply map_Forall_insert_2; try done.
      split; [|by destruct l]. apply NoDup_app. split; [done|]. split; [set_solver|].
      apply NoDup_singleton.
    + apply map_Forall_insert_2; [|done]. split; [apply NoDup_singleton|done].
  - unfold unsubscribe. destruct (s !! g) as [l|] eqn:Hs; [|done].
    destruct (decide _); [by apply map_Forall_delete|].
    apply map_Forall_insert_2; [|done]. split; [|done]. apply NoDup_filter. by apply (Hok g).
Qed.

Lemma empty_after_remove who x l : remove_all who l = [] -> x ∈ l -> x = who.
Proof.
  intros Hn Hx. destruct (decide (x = who)); [done|].
  assert (x ∈ remove_all who l) as Hin by by apply remove_all_elem.
  rewrite Hn in Hin. by apply elem_of_nil in Hin.
Qed.

Lemma publish_unsubscribe_all who s x sig :
  x ∈ publish sig (unsubscribe_all who s) <-> x ∈ publish sig s /\ x <> who.
Proof.
  unfold publish. rewrite unsubscribe_all_lookup.
  destruct (s !! sig) as [l|]; simpl; [|set_solver].
  destruct (decide _) as [Hn|_]; [|apply remove_all_elem].
  split; [set_solver|]. intros [Hx Hne]. by destruct Hne, (empty_after_remove who x l).
Qed.

Lemma publish_subscribe_op who g s x sig :
  x ∈ publish sig (subscribe who g s) <-> x ∈ publish sig s \/ (x = who /\ sig = g).
Proof.
  unfold publish, subscribe. destruct (decide (sig = g)) as [->|Hne].
  - destruct (s !! g) as [l|] eqn:Hs; simpl;
      [destruct (decide _)|]; rewrite lookup_insert_eq; set_solver.
  - destruct (decide _); rewrite lookup_insert_ne by done; set_solver.
Qed.

Lemma publish_unsubscribe_op who g s x sig :
  x ∈ publish sig (unsubscribe who g s) <-> x ∈ publish sig s /\ ~ (x = who /\ sig = g).
Proof.
  unfold publish, unsubscribe. destruct (decide (sig = g)) as [->|Hne].
  - destruct (s !! g) as [l|] eqn:Hs; [|rewrite Hs; set_solver].
    destruct (decide _) as [Hn|_].
    + rewrite lookup_delete_eq. split; [set_solver|].
      intros [Hx Hc]. by destruct Hc, (empty_after_remove who x l).
    + rewrite lookup_insert_eq, remove_all_elem. naive_solver.
  - destruct (s !! g); [|naive_solver].
    destruct (decide _); rewrite ?lookup_delete_ne, ?lookup_insert_ne by done; naive_solver.
Qed.

Lemma subscribed_publish l s who sig acc :
  (who ∈ publish sig s <-> acc = true) ->
  who ∈ publish sig (foldl (fun s o => apply_op o s) s l) <->
    subscribed l who sig acc = true.
Proof.
  revert s acc. induction l as [|o l IH]; intros s acc Hacc; simpl; [done|].
  apply IH. destruct o as [w g|w g|w|w]; simpl;
    rewrite ?publish_subscribe_op, ?publish_unsubscribe_op, ?publish_unsubscribe_all, Hacc;
    unfold run_cleanup_hooks, fabric_hooks; simpl;
    rewrite ?publish_unsubscribe_all, ?Hacc;
    destruct acc; simpl; repeat case_bool_decide; simpl; naive_solver.
Qed.

Lemma apply_ops_ok l : fabric_ok (apply_ops l).
Proof.
  unfold apply_ops. assert (Hg : forall s, fabric_ok s -> fabric_ok (foldl (fun s o => apply_op o s) s l)).
  { induction l as [|o l IH]; intros s Hs; simpl; [done|]. apply IH. by apply apply_op_ok. }
  apply Hg, map_Forall_empty.
Qed.

(** Publishing reaches exactly the subscribers. After any history of
    subscribe, unsubscribe, unsubscribe_all and object destructions, [publish]
    posts the event to an object if and only if the history leaves it
    subscribed to the signal, and at most once; in particular never to an
    object that was destroyed before, unless it subscribed again. *)
Theorem publish_exact (l : list fabric_op) (who : ao_id) (sig : Z) :
  NoDup (publish sig (apply_ops l)) /\
  (who ∈ publish sig (apply_ops l) <-> subscribed l who sig false = true).
Proof.
  split.
  - unfold publish. destruct (apply_ops l !! sig) as [t|] eqn:Ht; [|constructor].
    by destruct (apply_ops_ok l _ _ Ht).
  - apply subscribed_publish. unfold publish. rewrite lookup_empty. set_solver.
Qed.

(** No subscription list is ever left empty in the map. *)
Lemma fabric_no_empty_list (l : list fabric_op) (sig : Z) :
  apply_ops l !! sig <> Some [].
Proof. intros Hl. by destruct (apply_ops_ok l _ _ Hl). Qed.
