(* ===== verification/Philosophers.v ===== *)
(** * Active objects together: the dining philosophers (chart/examples)

    dining_philosophers.cpp: five philosophers and the table, an active object each,
    that talk through [Fabric].  A state handler's calls (timers, subscriptions,
    publications) are carried out one at a time by the worker that runs it, so that the
    six threads and the timers interleave between them; a publication takes a snapshot
    of the subscribers and then posts to each.  Run to completion and the order of a
    queue are ActiveObject.v's, what a subscription is Fabric.v's.  Main's stopping of
    the objects at the end is left out. *)

From S2P Require Import Prelude Hsm HsmSpec Fabric.

Local Open Scope Z_scope.

Definition N : nat := 5.
Definition LFORK (i : nat) : nat := i.
Definition RFORK (i : nat) : nat := ((i + 1) mod N)%nat.
Definition LPHIL (i : nat) : nat := ((i + N - 1) mod N)%nat.
Definition RPHIL (i : nat) : nat := ((i + 1) mod N)%nat.

(** Payloads are philosophers' numbers. *)
Inductive dine_event :=
  | Hungry_Signal (id : nat) | Done_Signal (id : nat) | Eat_Signal (id : nat)
  | ThinkTimeout_Signal | EatTimeout_Signal.
Definition User_Signal_Begin : Z := 4.
Definition Hungry_sig : Z := User_Signal_Begin.
Definition Done_sig : Z := User_Signal_Begin + 1.
Definition Eat_sig : Z := User_Signal_Begin + 2.
Definition sig (e : dine_event) : Z :=
  match e with
  | Hungry_Signal _ => Hungry_sig | Done_Signal _ => Done_sig | Eat_Signal _ => Eat_sig
  | ThinkTimeout_Signal => User_Signal_Begin + 3 | EatTimeout_Signal => User_Signal_Begin + 4
  end.

#[export] Instance dine_event_eq_dec : EqDecision dine_event.
Proof. solve_decision. Defined.

(** What a handler asks for.  [PostTo]: what is left of a publication. *)
Inductive dine_call :=
  | Subscribe (sg : Z) | Unsubscribe_all | Publish (e : dine_event) | PostTo (who : ao_id) (e : dine_event)
  | ArmThink | ArmEat.

(** ** A philosopher *)

Inductive phil_state := phil_top | phil_thinking | phil_hungry | phil_eating.
#[export] Instance phil_state_eq_dec : EqDecision phil_state.
Proof. solve_decision. Defined.

(** [calls]: those the worker has still to make before it returns to its queue. *)
Record Philosopher := mkPhil { id_ : nat; calls : list dine_call }.
Definition do_calls (cs : list dine_call) (p : Philosopher) : Philosopher := mkPhil (id_ p) (calls p ++ cs).

Definition phil_result : Type := outcome (verdict phil_state * Philosopher).

Definition on_top (e : Event dine_event) (p : Philosopher) : phil_result :=
  match e with
  | Entry_Signal => Done (Handled, do_calls [Subscribe Eat_sig] p)
  | Exit_Signal => Done (Handled, do_calls [Unsubscribe_all] p)
  | Init_Signal => Done (To (st phil_thinking), p)
  | _ => Done (Super top, p)
  end.

Definition on_thinking (e : Event dine_event) (p : Philosopher) : phil_result :=
  match e with
  | Entry_Signal => Done (Handled, do_calls [ArmThink] p)
  | User ThinkTimeout_Signal => Done (To (st phil_hungry), p)
  | _ => Done (Super (st phil_top), p)
  end.

Definition on_hungry (e : Event dine_event) (p : Philosopher) : phil_result :=
  match e with
  | Entry_Signal => Done (Handled, do_calls [Publish (Hungry_Signal (id_ p))] p)
  | User (Eat_Signal i) => if decide (i = id_ p) then Done (To (st phil_eating), p) else Done (Handled, p)
  | _ => Done (Super (st phil_top), p)
  end.

Definition on_eating (e : Event dine_event) (p : Philosopher) : phil_result :=
  match e with
  | Entry_Signal => Done (Handled, do_calls [ArmEat] p)
  | Exit_Signal => Done (Handled, do_calls [Publish (Done_Signal (id_ p))] p)
  | User EatTimeout_Signal => Done (To (st phil_thinking), p)
  | _ => Done (Super (st phil_top), p)
  end.

Definition phil_handler (x : phil_state) : Event dine_event -> Philosopher -> phil_result :=
  match x with
  | phil_top => on_top | phil_thinking => on_thinking | phil_hungry => on_hungry | phil_eating => on_eating
  end.

Definition phil_parent (x : phil_state) : option phil_state := match x with phil_top => None | _ => Some phil_top end.
Definition phil_lineage (x : phil_state) : list phil_state := match x with phil_top => [phil_top] | _ => [x; phil_top] end.
Definition no_swallow {A} (x : A) : bool := false.

#[export] Instance wf_phil : wf_chart phil_handler phil_parent phil_lineage no_swallow.
Proof.
  constructor.
  - by intros [].
  - intros []; unfold phil_lineage, kMaxNest; simpl; lia.
  - by intros [].
  - by intros [] ? [=].
  - by intros [] ?.
  - intros [] d v d' [= <- _]; auto.
  - intros [] u d v d' Hs; destruct u; simpl in Hs; try case_decide; injection Hs as <- _; simpl; eauto.
  - intros [] d t d' [= <- _]. exists phil_thinking. split; [done|]. simpl. set_solver.
Qed.

(** ** The table *)

Inductive Fork := FREE | USED.
#[export] Instance Fork_eq_dec : EqDecision Fork.
Proof. solve_decision. Defined.

Record Table := mkTable { forks : list Fork; hungry : list bool; table_calls : list dine_call }.

(** The numbers are in range ([dine_inv]). *)
Definition try_feed (i : nat) (t : Table) : Table :=
  if decide (hungry t !! i = Some true /\ forks t !! LFORK i = Some FREE /\ forks t !! RFORK i = Some FREE)
  then mkTable (<[RFORK i := USED]> (<[LFORK i := USED]> (forks t))) (<[i := false]> (hungry t))
         (table_calls t ++ [Publish (Eat_Signal i)])
  else t.

Inductive table_state := table_serving.
#[export] Instance table_state_eq_dec : EqDecision table_state.
Proof. solve_decision. Defined.

Definition on_serving (e : Event dine_event) (t : Table) : outcome (verdict table_state * Table) :=
  match e with
  | Entry_Signal =>
      Done (Handled, mkTable (replicate N FREE) (replicate N false) (table_calls t ++ [Subscribe Hungry_sig; Subscribe Done_sig]))
  | Exit_Signal => Done (Handled, mkTable (forks t) (hungry t) (table_calls t ++ [Unsubscribe_all]))
  | User (Hungry_Signal i) => Done (Handled, try_feed i (mkTable (forks t) (<[i := true]> (hungry t)) (table_calls t)))
  | User (Done_Signal i) =>
      let t := mkTable (<[RFORK i := FREE]> (<[LFORK i := FREE]> (forks t))) (hungry t) (table_calls t) in
      Done (Handled, try_feed (RPHIL i) (try_feed (LPHIL i) t))
  | _ => Done (Super top, t)
  end.
Definition table_handler (x : table_state) := on_serving.

#[export] Instance wf_table : wf_chart table_handler (fun _ => None) (fun x => [x]) no_swallow.
Proof.
  constructor.
  - by intros [].
  - intros []. unfold kMaxNest. simpl. lia.
  - by intros [].
  - by intros [] ? [=].
  - by intros [] ?.
  - intros [] d v d' [= <- _]; auto.
  - intros [] u d v d' Hs; destruct u; injection Hs as <- _; simpl; eauto.
  - by intros [] d t d' [=].
Qed.

(** ** The six objects *)

(** Before its start an object has no state.  The timers: armed or not. *)
Record PhilAO := mkPhilAO { leaf : option phil_state; phil : Philosopher; queue : list dine_event; think_timer : bool; eat_timer : bool }.
Record Dining := mkDining { fabric : subs; table : Table; table_on : bool; table_queue : list dine_event; phils : list PhilAO }.

Definition table_id : ao_id := 1%positive.
Definition phil_id (i : nat) : ao_id := Pos.of_succ_nat (S i).
Definition phil_of (who : ao_id) : nat := (Pos.to_nat who - 2)%nat.

Definition dining_boot : Dining :=
  mkDining ∅ (mkTable [] [] []) false [] ((fun i => mkPhilAO None (mkPhil i []) [] false false) <$> seq 0 N).

Definition set_phil (i : nat) (p : PhilAO) (s : Dining) : Dining :=
  mkDining (fabric s) (table s) (table_on s) (table_queue s) (<[i := p]> (phils s)).
Definition set_fabric (f : subs) (s : Dining) : Dining := mkDining f (table s) (table_on s) (table_queue s) (phils s).

Definition enqueue (e : dine_event) (p : PhilAO) : PhilAO := mkPhilAO (leaf p) (phil p) (queue p ++ [e]) (think_timer p) (eat_timer p).

(** [post_fifo]. *)
Definition post_to (who : ao_id) (e : dine_event) (s : Dining) : Dining :=
  if decide (who = table_id) then mkDining (fabric s) (table s) (table_on s) (table_queue s ++ [e]) (phils s)
  else mkDining (fabric s) (table s) (table_on s) (table_queue s) (alter (enqueue e) (phil_of who) (phils s)).

Definition arm (c : dine_call) (p : PhilAO) : PhilAO :=
  match c with
  | ArmThink => mkPhilAO (leaf p) (phil p) (queue p) true (eat_timer p)
  | ArmEat => mkPhilAO (leaf p) (phil p) (queue p) (think_timer p) true
  | _ => p
  end.

Definition left_calls (cs : list dine_call) (p : PhilAO) : PhilAO :=
  mkPhilAO (leaf p) (mkPhil (id_ (phil p)) cs) (queue p) (think_timer p) (eat_timer p).

(** One call of the object [who]: what it does, and what is left of it. *)
Definition perform (who : ao_id) (c : dine_call) (s : Dining) : Dining * list dine_call :=
  match c with
  | Subscribe sg => (set_fabric (subscribe who sg (fabric s)) s, [])
  | Unsubscribe_all => (set_fabric (unsubscribe_all who (fabric s)) s, [])
  | Publish e => (s, (fun w => PostTo w e) <$> publish (sig e) (fabric s))
  | PostTo w e => (post_to w e s, [])
  | ArmThink | ArmEat => (mkDining (fabric s) (table s) (table_on s) (table_queue s) (alter (arm c) (phil_of who) (phils s)), [])
  end.
Definition perform_all (who : ao_id) (cs : list dine_call) (s : Dining) : Dining := foldl (fun s c => fst (perform who c s)) s cs.

Inductive dine_action := StartTable | StartPhil (i : nat) | TableRuns | PhilRuns (i : nat) | ThinkFires (i : nat) | EatFires (i : nat).

Definition chart_step_phil := chart_step phil_handler phil_lineage.
Definition chart_step_table := chart_step table_handler (fun x => [x]).

(** [start_at] runs in main's thread, before the object's worker: the table first, then
    the philosophers.  A start is one step: it concerns the subscriptions and the object's
    own timer only. *)
Definition dine_step (a : dine_action) (s : Dining) : option Dining :=
  match a with
  | StartTable =>
      if table_on s then None else
      match chart_init table_handler (fun x => [x]) table_serving (table s) with
      | Done (_, t) =>
          Some (perform_all table_id (table_calls t)
                  (mkDining (fabric s) (mkTable (forks t) (hungry t) []) true (table_queue s) (phils s)))
      | Fail _ => None
      end
  | StartPhil i =>
      p ← phils s !! i;
      if decide (table_on s = true /\ leaf p = None /\ Forall (fun p => leaf p <> None) (take i (phils s))) then
        match chart_init phil_handler phil_lineage phil_top (phil p) with
        | Done (l, d) =>
            Some (perform_all (phil_id i) (calls d)
                    (set_phil i (mkPhilAO (Some l) (mkPhil (id_ d) []) (queue p) (think_timer p) (eat_timer p)) s))
        | Fail _ => None
        end
      else None
  | TableRuns =>
      match table_calls (table s), table_queue s with
      | c :: cs, _ =>
          let '(s, more) := perform table_id c s in
          Some (mkDining (fabric s) (mkTable (forks (table s)) (hungry (table s)) (more ++ cs)) (table_on s) (table_queue s) (phils s))
      | [], e :: q =>
          match chart_step_table table_serving e (table s) with
          | Done (_, t) => Some (mkDining (fabric s) t (table_on s) q (phils s))
          | Fail _ => None
          end
      | [], [] => None
      end
  | PhilRuns i =>
      p ← phils s !! i;
      match calls (phil p), queue p, leaf p with
      | c :: cs, _, _ =>
          let '(s, more) := perform (phil_id i) c s in
          Some (mkDining (fabric s) (table s) (table_on s) (table_queue s)
(alter (left_calls (more ++ cs)) i (phils s)))
      | [], e :: q, Some l =>
          match chart_step_phil l e (phil p) with
          | Done (l', d) => Some (set_phil i (mkPhilAO (Some l') d q (think_timer p) (eat_timer p)) s)
          | Fail _ => None
          end
      | _, _, _ => None
      end
  | ThinkFires i =>
      p ← phils s !! i;
      if think_timer p then Some (set_phil i (enqueue ThinkTimeout_Signal (mkPhilAO (leaf p) (phil p) (queue p) false (eat_timer p))) s) else None
  | EatFires i =>
      p ← phils s !! i;
      if eat_timer p then Some (set_phil i (enqueue EatTimeout_Signal (mkPhilAO (leaf p) (phil p) (queue p) (think_timer p) false)) s) else None
  end.

Fixpoint dine_run (l : list dine_action) (s : Dining) : option Dining :=
  match l with [] => Some s | a :: l => s ← dine_step a s; dine_run l s end.

(** ** Where a philosopher stands

    Seen across the threads: its state, its messages the table has not handled, those
    of the table it has not, its timer, and whether the table knows it is hungry. *)

Record view := mkView { v_leaf : option phil_state; v_sent : list dine_event; v_eats : nat; v_timer : list dine_event; v_hungry : bool }.

Definition about (i : nat) (e : dine_event) : Prop := e = Hungry_Signal i \/ e = Done_Signal i.
#[local] Instance about_dec i e : Decision (about i e).
Proof. unfold about. apply _. Defined.

Definition to_table (c : dine_call) : option dine_event :=
  match c with Publish e => Some e | PostTo w e => if decide (w = table_id) then Some e else None | _ => None end.
Definition to_phil (i : nat) (c : dine_call) : option unit :=
  match c with
  | Publish e => if decide (e = Eat_Signal i) then Some tt else None
  | PostTo w e => if decide (w = phil_id i /\ e = Eat_Signal i) then Some tt else None
  | _ => None
  end.
Definition timeout (e : dine_event) : Prop := e = ThinkTimeout_Signal \/ e = EatTimeout_Signal.
#[local] Instance timeout_dec e : Decision (timeout e).
Proof. unfold timeout. apply _. Defined.
Definition arms (c : dine_call) : option dine_event :=
  match c with ArmThink => Some ThinkTimeout_Signal | ArmEat => Some EatTimeout_Signal | _ => None end.

Definition view_of (i : nat) (p : PhilAO) (q : list dine_event) (t : Table) : view :=
  mkView (leaf p) (filter (about i) q ++ omap to_table (calls (phil p)))
    (length (filter (eq (Eat_Signal i)) (queue p)) + length (omap (to_phil i) (table_calls t)))
    (filter timeout (queue p) ++ (if think_timer p then [ThinkTimeout_Signal] else []) ++
     (if eat_timer p then [EatTimeout_Signal] else []) ++ omap arms (calls (phil p)))
    (default false (hungry t !! i)).

#[local] Instance phil_inhabited : Inhabited PhilAO := populate (mkPhilAO None (mkPhil 0 []) [] false false).
Definition view_in (s : Dining) (i : nat) : view := view_of i (phils s !!! i) (table_queue s) (table s).

Definition view_ok (i : nat) (v : view) : Prop :=
  match v_leaf v with
  | None => v = mkView None [] 0 [] false
  | Some phil_top => False
  | Some phil_thinking =>
      (v_sent v = [] \/ v_sent v = [Done_Signal i]) /\ v_eats v = 0%nat /\ v_timer v = [ThinkTimeout_Signal] /\ v_hungry v = false
  | Some phil_hungry =>
      v_timer v = [] /\
      (((v_sent v = [Hungry_Signal i] \/ v_sent v = [Done_Signal i; Hungry_Signal i]) /\ v_eats v = 0%nat /\ v_hungry v = false) \/
       (v_sent v = [] /\ v_eats v = 0%nat /\ v_hungry v = true) \/
       (v_sent v = [] /\ v_eats v = 1%nat /\ v_hungry v = false))
  | Some phil_eating => v_sent v = [] /\ v_eats v = 0%nat /\ v_timer v = [EatTimeout_Signal] /\ v_hungry v = false
  end.

(** It holds its forks: from the table's grant until the table has handled its "done". *)
Definition holds (i : nat) (v : view) : Prop := (0 < v_eats v)%nat \/ v_leaf v = Some phil_eating \/ Done_Signal i ∈ v_sent v.

(** Neighbours never hold forks both, a fork is in use when a neighbour holds it, and a
    philosopher known to be hungry, but for those in [X], lacks a fork. *)
Record dine_core (X : nat -> Prop) (V : nat -> view) (f : list Fork) : Prop := {
  c_len : length f = N;
  c_ok i : (i < N)%nat -> view_ok i (V i);
  c_forks j : (j < N)%nat -> f !! j = Some USED <-> holds j (V j) \/ holds (LPHIL j) (V (LPHIL j));
  c_excl i : (i < N)%nat -> holds i (V i) -> ~ holds (RPHIL i) (V (RPHIL i));
  c_wait i : (i < N)%nat -> ~ X i -> v_hungry (V i) = true -> f !! i = Some USED \/ f !! RFORK i = Some USED }.

Lemma five (P : nat -> Prop) : P 0%nat -> P 1%nat -> P 2%nat -> P 3%nat -> P 4%nat -> forall i, (i < N)%nat -> P i.
Proof. intros. do 5 (destruct i as [|i]; [done|]). unfold N in *. lia. Qed.
Ltac by_five := let i := fresh in let H := fresh in intros i H; revert i H; apply five; unfold LPHIL, RPHIL, RFORK, LFORK, N; simpl; lia.

Lemma seats : forall i, (i < N)%nat ->
  (LPHIL i < N /\ RPHIL i < N)%nat /\ RPHIL (LPHIL i) = i /\ LPHIL (RPHIL i) = i /\ RPHIL i <> i /\ LPHIL i <> i /\ LPHIL i <> RPHIL i.
Proof. by_five. Qed.

(** What does not change what anybody holds. *)
Lemma core_local X X' V V' f :
  dine_core X V f ->
  (forall i, (i < N)%nat -> view_ok i (V' i) /\ (holds i (V' i) <-> holds i (V i)) /\
     (~ X' i -> ~ X i /\ (v_hungry (V' i) = true -> v_hungry (V i) = true))) ->
  dine_core X' V' f.
Proof.
  intros [Hl Ho Hf He Hw] Hv.
  assert (Hh : forall i, (i < N)%nat -> holds i (V' i) <-> holds i (V i)) by (intros; by apply Hv).
  split; [done| | | |].
  - intros i Hi. by apply Hv.
  - intros j Hj. destruct (seats j Hj) as [[? ?] _]. by rewrite Hf, !Hh.
  - intros i Hi. destruct (seats i Hi) as [[? ?] _]. rewrite !Hh by done. by apply He.
  - intros i Hi Hx Hhi. destruct (Hv i Hi) as (_ & _ & Hx'). destruct (Hx' Hx). auto.
Qed.

Lemma not_free f (j : nat) : length f = N -> (j < N)%nat -> f !! j <> Some FREE -> f !! j = Some USED.
Proof. intros Hl Hj Hf. destruct (f !! j) as [[]|] eqn:He; [done|done|]. apply lookup_ge_None in He. lia. Qed.

(** [try_feed], as the philosophers' views see it. *)
Lemma feed_core X V f i :
  dine_core X V f -> (i < N)%nat ->
  let fed := v_hungry (V i) = true /\ f !! LFORK i = Some FREE /\ f !! RFORK i = Some FREE in
  (~ fed -> dine_core (fun j => X j /\ j <> i) V f) /\
  (fed -> forall V', (forall j, j <> i -> V' j = V j) ->
     V' i = mkView (v_leaf (V i)) (v_sent (V i)) (S (v_eats (V i))) (v_timer (V i)) false ->
     dine_core (fun j => X j /\ j <> i) V' (<[RFORK i := USED]> (<[LFORK i := USED]> f))).
Proof.
  intros [Hl Ho Hf He Hw] Hi fed. destruct (seats i Hi) as ([HL HR] & HRL & HLR & Hni & HniL & HLnR). split.
  - intros Hno. split; try done. intros j Hj Hx Hh. destruct (decide (j = i)) as [->|Hne]; [|apply Hw; auto].
    destruct (decide (f !! LFORK i = Some FREE)) as [H1|H1]; [right|left]; apply not_free; try done. intros H2. by apply Hno.
  - intros (Hh & HfL & HfR) V' Hsame Hfed. unfold LFORK in *. change (RFORK i) with (RPHIL i) in *.
    assert (Hfree : forall j, (j < N)%nat -> f !! j = Some FREE -> ~ holds j (V j) /\ ~ holds (LPHIL j) (V (LPHIL j))).
    { intros j Hj Hfr. split; intros Hh'; assert (f !! j = Some USED) by (apply Hf; auto); congruence. }
    destruct (Hfree i Hi HfL) as [N1 N2]. destruct (Hfree _ HR HfR) as [N3 _].
    assert (Hnew : holds i (V' i)) by (left; rewrite Hfed; simpl; lia).
    split.
    + by rewrite !length_insert.
    + intros j Hj. destruct (decide (j = i)) as [->|Hne]; [|rewrite Hsame by done; auto].
      pose proof (Ho i Hi) as Hok. rewrite Hfed. unfold view_ok in *. simpl. destruct (V i) as [lf se ea ti hu]. simpl in *.
      subst hu. destruct lf as [[]|]; try done; try (by destruct Hok as (_ & _ & _ & ?)).
      destruct Hok as (-> & [(_ & _ & ?)|[(-> & -> & _)|(_ & _ & ?)]]); try done. split; [done|]. by right; right.
    + intros j Hj. destruct (seats j Hj) as ([HLj HRj] & HRLj & HLRj & Hnj & HnjL & _).
      destruct (decide (j = RPHIL i)) as [->|Hj1]; [|destruct (decide (j = i)) as [->|Hj2]].
      * rewrite list_lookup_insert_eq by (rewrite length_insert; lia). rewrite HLR. split; [auto|done].
      * rewrite list_lookup_insert_ne, list_lookup_insert_eq by (done || lia). split; [auto|done].
      * rewrite !list_lookup_insert_ne by done. rewrite (Hsame j), (Hsame (LPHIL j)) by (done || (intros <-; by apply Hj1)). auto.
    + intros j Hj. destruct (seats j Hj) as ([HLj HRj] & HRLj & HLRj & Hnj & HnjL & _).
      destruct (decide (j = i)) as [->|Hj1].
      * intros _. rewrite Hsame by done. done.
      * destruct (decide (RPHIL j = i)) as [<-|Hj2]; [|rewrite !Hsame by done; auto].
        rewrite (Hsame j) by done. rewrite HLRj in N2. done.
    + intros j Hj Hx Hhj. destruct (decide (j = i)) as [->|Hj1]; [left; by rewrite list_lookup_insert_ne, list_lookup_insert_eq by (done || lia)|].
      assert (Hw' : f !! j = Some USED \/ f !! RFORK j = Some USED) by (apply Hw; [done|tauto|by rewrite <- Hsame]).
      assert (Hk : forall k, f !! k = Some USED -> <[RPHIL i:=USED]> (<[i:=USED]> f) !! k = Some USED).
      { intros k Hk. destruct (decide (k = RPHIL i)) as [->|]; [by congruence|]. rewrite list_lookup_insert_ne by done.
        destruct (decide (k = i)) as [->|]; [congruence|]. by rewrite list_lookup_insert_ne. }
      destruct Hw'; auto.
Qed.

(** ** The invariant *)

Definition phil_call_ok (c : dine_call) : Prop :=
  match c with Publish _ | ArmThink | ArmEat => True | PostTo w _ => w = table_id | _ => False end.
Definition table_call_ok (c : dine_call) : Prop :=
  match c with
  | Publish (Eat_Signal j) => (j < N)%nat
  | PostTo w (Eat_Signal _) => exists k, w = phil_id k
  | _ => False
  end.

Record dine_inv (s : Dining) : Prop := {
  di_on : table_on s = true;
  di_phils : length (phils s) = N;
  di_hungry : length (hungry (table s)) = N;
  di_each i p : phils s !! i = Some p -> id_ (phil p) = i /\ Forall phil_call_ok (calls (phil p));
  di_queue : Forall (fun e => exists j, (j < N)%nat /\ about j e) (table_queue s);
  di_calls : Forall table_call_ok (table_calls (table s));
  di_fabric : publish Hungry_sig (fabric s) = [table_id] /\ publish Done_sig (fabric s) = [table_id] /\
    exists k, publish Eat_sig (fabric s) = phil_id <$> seq 0 k /\
      forall i p, phils s !! i = Some p -> leaf p <> None <-> (i < k)%nat;
  di_core : dine_core (fun _ => False) (view_in s) (forks (table s)) }.

Lemma phil_of_id k : phil_of (phil_id k) = k.
Proof. unfold phil_of, phil_id. lia. Qed.
Lemma phil_not_table k : phil_id k <> table_id.
Proof. unfold phil_id, table_id. lia. Qed.
Lemma phil_id_inj j k : phil_id j = phil_id k -> j = k.
Proof. unfold phil_id. lia. Qed.

Lemma view_at s i p : phils s !! i = Some p -> view_in s i = view_of i p (table_queue s) (table s).
Proof. intros Hp. unfold view_in. by rewrite (list_lookup_total_correct _ _ _ Hp). Qed.
Lemma phil_at s i : dine_inv s -> (i < N)%nat -> exists p, phils s !! i = Some p.
Proof. intros Hi Hlt. destruct (phils s !! i) as [p|] eqn:Hp; [eauto|]. apply lookup_ge_None in Hp. rewrite (di_phils _ Hi) in Hp. lia. Qed.
Lemma phil_lt s i p : dine_inv s -> phils s !! i = Some p -> (i < N)%nat.
Proof. intros Hi Hp%lookup_lt_Some. by rewrite (di_phils _ Hi) in Hp. Qed.

Lemma sent_about i v : view_ok i v -> Forall (about i) (v_sent v).
Proof.
  unfold view_ok, about. destruct v as [lf se ea ti hu]. simpl. intros Hv.
  assert (se = [] \/ se = [Done_Signal i] \/ se = [Hungry_Signal i] \/ se = [Done_Signal i; Hungry_Signal i]) as Hs.
  { destruct lf as [[]|]; naive_solver. }
  destruct Hs as [->|[->|[->| ->]]]; repeat (apply Forall_cons_2; [by auto|]); apply Forall_nil_2.
Qed.
Lemma timer_one i v : view_ok i v -> (length (v_timer v) <= 1)%nat.
Proof.
  unfold view_ok. destruct v as [lf se ea ti hu]. simpl. intros Hv.
  destruct lf as [[]|]; [done|destruct Hv as (_ & _ & -> & _)|destruct Hv as [-> _]|destruct Hv as (_ & _ & -> & _)|injection Hv as -> -> -> ->]; simpl; lia.
Qed.
Lemma eats_started i v : view_ok i v -> (0 < v_eats v)%nat -> v_leaf v <> None.
Proof. intros Hv He Hn. unfold view_ok in Hv. rewrite Hn in Hv. subst v. simpl in He. lia. Qed.

Lemma about_one i j e : about i e -> about j e -> i = j.
Proof. intros [->| ->] [[= ->]|[= ->]]; done. Qed.

(** A change of one philosopher that keeps the table as it is. *)
Lemma phil_changes s i p p' :
  dine_inv s -> phils s !! i = Some p ->
  id_ (phil p') = i -> Forall phil_call_ok (calls (phil p')) -> (leaf p' <> None <-> leaf p <> None) ->
  (let v' := view_of i p' (table_queue s) (table s) in let v := view_in s i in
   view_ok i v' /\ (holds i v' <-> holds i v) /\ v_hungry v' = v_hungry v) ->
  dine_inv (set_phil i p' s).
Proof.
  intros Hi Hp Hid Hc Hleaf Hv. pose proof (phil_lt _ _ _ Hi Hp) as Hlt. pose proof (di_phils _ Hi) as Hlen.
  assert (Hin : phils (set_phil i p' s) !! i = Some p') by (simpl; rewrite list_lookup_insert_eq by lia; done).
  assert (Hother : forall j, j <> i -> phils (set_phil i p' s) !! j = phils s !! j) by (intros j Hj; simpl; by rewrite list_lookup_insert_ne).
  destruct Hi as [H1 H2 H3 H4 H5 H6 (HF1 & HF2 & k & HF3 & HF4) H8]. split; try done.
  - simpl. by rewrite length_insert.
  - intros j q Hq. destruct (decide (j = i)) as [->|Hj]; [|rewrite Hother in Hq by done; auto].
    rewrite Hin in Hq. by injection Hq as <-.
  - split; [done|]. split; [done|]. exists k. split; [done|]. intros j q Hq.
    destruct (decide (j = i)) as [->|Hj]; [|rewrite Hother in Hq by done; auto].
    rewrite Hin in Hq. injection Hq as <-. rewrite Hleaf. auto.
  - eapply core_local; [exact H8|]. intros j Hj. destruct (decide (j = i)) as [->|Hne].
    + rewrite (view_at _ _ _ Hin). destruct Hv as (Ho & Hd & Hh). split; [exact Ho|]. split; [exact Hd|].
      split; [done|]. intros Hx. rewrite <- Hh. exact Hx.
    + assert (Hvj : view_in (set_phil i p' s) j = view_in s j).
      { unfold view_in. simpl. by rewrite list_lookup_total_insert_ne. }
      rewrite Hvj. split; [by apply (c_ok _ _ _ H8)|done].
Qed.

(** The same when its view stays as it is. *)
Lemma phil_keeps s i p p' :
  dine_inv s -> phils s !! i = Some p ->
  id_ (phil p') = i -> Forall phil_call_ok (calls (phil p')) -> leaf p' = leaf p ->
  view_of i p' (table_queue s) (table s) = view_in s i ->
  dine_inv (set_phil i p' s).
Proof.
  intros Hi Hp Hid Hc Hl Hv. eapply phil_changes; [done|exact Hp|done|done|by rewrite Hl|]. cbv zeta. rewrite Hv.
  split; [|done]. apply (c_ok _ _ _ (di_core _ Hi)). by eapply phil_lt.
Qed.

(** ** A philosopher's steps *)

Lemma phil_turn l e i :
  chart_step_phil l e (mkPhil i []) =
    Done match l, e with
         | phil_thinking, ThinkTimeout_Signal => (phil_hungry, mkPhil i [Publish (Hungry_Signal i)])
         | phil_hungry, Eat_Signal j => if decide (j = i) then (phil_eating, mkPhil i [ArmEat]) else (phil_hungry, mkPhil i [])
         | phil_eating, EatTimeout_Signal => (phil_thinking, mkPhil i [Publish (Done_Signal i); ArmThink])
         | _, _ => (l, mkPhil i [])
         end.
Proof. destruct l, e; try reflexivity. unfold chart_step_phil, chart_step. simpl. by case_decide. Qed.

(** The view with an event still to handle, and with calls to make. *)
Definition with_event (i : nat) (e : dine_event) (v : view) : view :=
  mkView (v_leaf v) (v_sent v) (if decide (e = Eat_Signal i) then S (v_eats v) else v_eats v)
    (if decide (timeout e) then e :: v_timer v else v_timer v) (v_hungry v).
Definition with_calls (l : phil_state) (cs : list dine_call) (v : view) : view :=
  mkView (Some l) (v_sent v ++ omap to_table cs) (v_eats v) (v_timer v ++ omap arms cs) (v_hungry v).

Lemma view_event i l e q th ea tq t :
  view_of i (mkPhilAO l (mkPhil i []) (e :: q) th ea) tq t = with_event i e (view_of i (mkPhilAO l (mkPhil i []) q th ea) tq t).
Proof.
  unfold view_of, with_event. simpl. f_equal.
  - rewrite filter_cons. by do 2 case_decide; subst.
  - rewrite filter_cons. by case_decide.
Qed.
Lemma view_calls i l0 l cs q th ea tq t :
  view_of i (mkPhilAO (Some l) (mkPhil i cs) q th ea) tq t = with_calls l cs (view_of i (mkPhilAO l0 (mkPhil i []) q th ea) tq t).
Proof. unfold view_of, with_calls. simpl. by rewrite !app_nil_r, <- !(assoc_L (++)). Qed.

Ltac by_cases :=
  repeat match goal with H : _ /\ _ |- _ => destruct H | H : _ \/ _ |- _ => destruct H | H : False |- _ => destruct H end; simplify_eq/=.

Lemma turn_ok i l e l' d v :
  v_leaf v = Some l -> view_ok i (with_event i e v) -> chart_step_phil l e (mkPhil i []) = Done (l', d) ->
  id_ d = i /\ Forall phil_call_ok (calls d) /\ view_ok i (with_calls l' (calls d) v) /\
  (holds i (with_calls l' (calls d) v) <-> holds i (with_event i e v)).
Proof.
  destruct v as [lf se ea ti hu]. simpl. intros -> Hv Hs. rewrite phil_turn in Hs. injection Hs as Hs.
  assert (Hd : id_ d = i /\ Forall phil_call_ok (calls d))
    by (destruct l, e; try case_decide; injection Hs as _ <-; split; try done; by repeat constructor).
  split; [apply Hd|]. split; [apply Hd|]. clear Hd.
  unfold view_ok, with_event, holds, with_calls in *. simpl in *.
  destruct l, e; simpl in *; repeat case_decide; injection Hs as <- <-; simpl; rewrite ?app_nil_r;
    by_cases;
    (split; [naive_solver|rewrite ?elem_of_cons, ?elem_of_nil; naive_solver lia]).
Qed.

Lemma phil_event_inv s i p e q l l' d :
  dine_inv s -> phils s !! i = Some p -> calls (phil p) = [] -> queue p = e :: q -> leaf p = Some l ->
  chart_step_phil l e (phil p) = Done (l', d) ->
  dine_inv (set_phil i (mkPhilAO (Some l') d q (think_timer p) (eat_timer p)) s).
Proof.
  intros Hi Hp Hc Hq Hl Hs. destruct (di_each _ Hi i p Hp) as [Hid _].
  pose proof (c_ok _ _ _ (di_core _ Hi) i (phil_lt _ _ _ Hi Hp)) as Hv.
  assert (Hat : view_in s i = with_event i e (view_of i (mkPhilAO (leaf p) (mkPhil i []) q (think_timer p) (eat_timer p)) (table_queue s) (table s))).
  { rewrite (view_at _ _ _ Hp), <- view_event. destruct p as [lf [id cs] qu th ea]. simpl in *. by subst. }
  rewrite Hat in Hv. assert (Hd : phil p = mkPhil i []) by (destruct (phil p); simpl in *; by subst). rewrite Hd in Hs.
  apply (turn_ok i l e l' d) in Hv as (Hid' & Hcs & Hok & Hh); [|done|done].
  eapply phil_changes; [done|exact Hp|done|done|by rewrite Hl|]. rewrite Hat.
  destruct d as [id cs]. simpl in *. subst id. rewrite (view_calls i (leaf p)). done.
Qed.

Lemma timer_fires_inv s i p e th ea :
  dine_inv s -> phils s !! i = Some p ->
  (e = ThinkTimeout_Signal /\ think_timer p = true /\ th = false /\ ea = eat_timer p \/
   e = EatTimeout_Signal /\ eat_timer p = true /\ th = think_timer p /\ ea = false) ->
  dine_inv (set_phil i (enqueue e (mkPhilAO (leaf p) (phil p) (queue p) th ea)) s).
Proof.
  intros Hi Hp He. destruct (di_each _ Hi i p Hp) as [Hid Hc].
  pose proof (timer_one _ _ (c_ok _ _ _ (di_core _ Hi) i (phil_lt _ _ _ Hi Hp))) as Ht.
  rewrite (view_at _ _ _ Hp) in Ht. apply (phil_keeps s i p); try done. rewrite (view_at _ _ _ Hp).
  unfold view_of, enqueue in *. simpl in *. rewrite !filter_app in *.
  destruct He as [(-> & Hth & -> & ->)|(-> & Hea & -> & ->)]; rewrite ?Hth, ?Hea in *.
  - rewrite (filter_cons_False (eq _)), (filter_cons_True timeout) by (done || by left). simpl. by rewrite !app_nil_r, <- (assoc_L (++)).
  - rewrite (filter_cons_False (eq _)), (filter_cons_True timeout) by (done || by right). simpl. rewrite !app_nil_r, <- (assoc_L (++)).
    simpl. f_equal. f_equal. rewrite !length_app in Ht. destruct (think_timer p); simpl in *; [lia|done].
Qed.

(** Nothing moves but messages on their way. *)
Lemma dine_keeps s s' :
  dine_inv s -> table_on s' = true -> length (phils s') = N -> forks (table s') = forks (table s) -> hungry (table s') = hungry (table s) ->
  (forall i p, phils s' !! i = Some p -> id_ (phil p) = i /\ Forall phil_call_ok (calls (phil p)) /\
     exists p0, phils s !! i = Some p0 /\ leaf p0 = leaf p) ->
  Forall (fun e => exists j, (j < N)%nat /\ about j e) (table_queue s') -> Forall table_call_ok (table_calls (table s')) ->
  fabric s' = fabric s -> (forall i, (i < N)%nat -> view_in s' i = view_in s i) -> dine_inv s'.
Proof.
  intros Hi Hon Hlen Hf Hh He Hq Hc Hfab Hv. destruct Hi as [H1 H2 H3 H4 H5 H6 (HF1 & HF2 & k & HF3 & HF4) H8]. split; try done.
  - by rewrite Hh.
  - intros i p Hp. by destruct (He i p Hp) as (? & ? & _).
  - rewrite Hfab. split; [done|]. split; [done|]. exists k. split; [done|]. intros i p Hp.
    destruct (He i p Hp) as (_ & _ & p0 & Hp0 & <-). auto.
  - rewrite Hf. eapply core_local; [exact H8|]. intros i Hlt. rewrite Hv by done. split; [by apply (c_ok _ _ _ H8)|done].
Qed.

Lemma alter_insert {A} (f : A -> A) i (l : list A) x : l !! i = Some x -> alter f i l = <[i := f x]> l.
Proof.
  intros Hx. apply list_eq. intros j. destruct (decide (i = j)) as [<-|Hne].
  - rewrite list_lookup_alter_eq, list_lookup_insert_eq, Hx by (by eapply lookup_lt_Some). done.
  - by rewrite list_lookup_alter_ne, list_lookup_insert_ne.
Qed.

(** One call of a philosopher. *)
Lemma phil_call_inv s i p c cs s1 more :
  dine_inv s -> phils s !! i = Some p -> calls (phil p) = c :: cs -> perform (phil_id i) c s = (s1, more) ->
  dine_inv (mkDining (fabric s1) (table s1) (table_on s1) (table_queue s1) (alter (left_calls (more ++ cs)) i (phils s1))).
Proof.
  intros Hi Hp Hc Hf. destruct (di_each _ Hi i p Hp) as [Hid Hcs]. rewrite Hc in Hcs. apply Forall_cons in Hcs as [Hok Hcs].
  pose proof (phil_lt _ _ _ Hi Hp) as Hlt. pose proof (c_ok _ _ _ (di_core _ Hi) i Hlt) as Hv. rewrite (view_at _ _ _ Hp) in Hv.
  assert (Habout : forall e, to_table c = Some e -> about i e).
  { intros e He. apply sent_about in Hv. unfold view_of in Hv. simpl in Hv. rewrite Hc in Hv. simpl in Hv. rewrite He in Hv.
    apply Forall_app in Hv as [_ Hv]. by apply Forall_cons in Hv as [? _]. }
  destruct c as [sg| |e|w e| |]; try done; simpl in Hf; injection Hf as <- <-.
  - assert (Hpub : publish (sig e) (fabric s) = [table_id]).
    { destruct (di_fabric _ Hi) as (H1 & H2 & _). destruct (Habout e eq_refl) as [->| ->]; done. }
    rewrite Hpub, (alter_insert _ _ _ _ Hp). simpl. apply (phil_keeps s i p); try done.
    + by apply Forall_cons.
    + rewrite (view_at _ _ _ Hp). unfold view_of. simpl. by rewrite Hc.
  - simpl in Hok. subst w. specialize (Habout e eq_refl). unfold post_to. rewrite decide_True by done. simpl.
    rewrite (alter_insert _ _ _ _ Hp). apply (dine_keeps s); simpl; try done.
    + apply (di_on _ Hi).
    + rewrite length_insert. apply (di_phils _ Hi).
    + intros j q Hq. destruct (decide (j = i)) as [->|Hj].
      * rewrite list_lookup_insert_eq in Hq by (by eapply lookup_lt_Some). injection Hq as <-. simpl. eauto 10.
      * rewrite list_lookup_insert_ne in Hq by done. destruct (di_each _ Hi j q Hq). eauto.
    + apply Forall_app. split; [apply (di_queue _ Hi)|]. apply Forall_singleton. eauto.
    + apply (di_calls _ Hi).
    + intros j Hj. unfold view_in. simpl. destruct (decide (j = i)) as [->|Hne].
      * rewrite list_lookup_total_insert_eq by (by eapply lookup_lt_Some). rewrite (list_lookup_total_correct _ _ _ Hp).
        unfold view_of. simpl. rewrite Hc. simpl. by rewrite filter_app, filter_cons_True, <- (assoc_L (++)).
      * rewrite list_lookup_total_insert_ne by done. unfold view_of. rewrite filter_app, filter_cons_False, filter_nil, app_nil_r; [done|].
        intros Ha. apply Hne. symmetry. by eapply about_one.
  - simpl. rewrite phil_of_id, (alter_insert _ _ _ _ Hp). erewrite alter_insert by (apply list_lookup_insert_eq; by eapply lookup_lt_Some).
    rewrite list_insert_insert_eq. apply timer_one in Hv. apply (phil_keeps s i p); try done. rewrite (view_at _ _ _ Hp).
    unfold view_of in *. simpl in *. rewrite Hc in *. simpl in *. f_equal. rewrite !length_app in Hv. simpl in Hv.
    destruct (filter timeout (queue p)), (think_timer p), (eat_timer p); simpl in *; try lia. done.
  - simpl. rewrite phil_of_id, (alter_insert _ _ _ _ Hp). erewrite alter_insert by (apply list_lookup_insert_eq; by eapply lookup_lt_Some).
    rewrite list_insert_insert_eq. apply timer_one in Hv. apply (phil_keeps s i p); try done. rewrite (view_at _ _ _ Hp).
    unfold view_of in *. simpl in *. rewrite Hc in *. simpl in *. f_equal. rewrite !length_app in Hv. simpl in Hv.
    destruct (filter timeout (queue p)), (think_timer p), (eat_timer p); simpl in *; try lia. done.
Qed.

(** ** The table's steps *)

Lemma posts_to_phil i k cs :
  length (omap (to_phil i) (((fun w => PostTo w (Eat_Signal i)) <$> (phil_id <$> seq 0 k)) ++ cs)) =
    ((if decide (i < k)%nat then 1 else 0) + length (omap (to_phil i) cs))%nat.
Proof.
  assert (Hg : forall a, length (omap (to_phil i) (((fun w => PostTo w (Eat_Signal i)) <$> (phil_id <$> seq a k)) ++ cs)) =
    ((if decide (a <= i < a + k)%nat then 1 else 0) + length (omap (to_phil i) cs))%nat).
  { induction k as [|k IH]; intros a; [simpl; by rewrite decide_False by lia|]. csimpl. destruct (decide (phil_id a = phil_id i /\ _)) as [[Ha _]|Ha].
    - apply phil_id_inj in Ha as ->. simpl. rewrite IH, decide_False by lia. by rewrite decide_True by lia.
    - rewrite IH. assert (a <> i) by (intros ->; by apply Ha). repeat case_decide; simpl; lia. }
  rewrite Hg. repeat case_decide; simpl; lia.
Qed.
Lemma posts_elsewhere i j k cs :
  j <> i -> omap (to_phil i) (((fun w => PostTo w (Eat_Signal j)) <$> (phil_id <$> seq 0 k)) ++ cs) = omap (to_phil i) cs.
Proof.
  intros Hj. rewrite omap_app. rewrite (omap_all_none (to_phil i) (_ <$> _)); [done|].
  intros c (w & -> & _)%list_elem_of_fmap. simpl. by rewrite decide_False by (intros [_ Hji]; apply Hj; congruence).
Qed.

Definition table_left (cs : list dine_call) (s : Dining) : Dining :=
  mkDining (fabric s) (mkTable (forks (table s)) (hungry (table s)) cs) (table_on s) (table_queue s) (phils s).

Lemma table_call_inv s c cs s1 more :
  dine_inv s -> table_calls (table s) = c :: cs -> perform table_id c s = (s1, more) -> dine_inv (table_left (more ++ cs) s1).
Proof.
  intros Hi Hc Hf. pose proof (di_calls _ Hi) as Hok. rewrite Hc in Hok. apply Forall_cons in Hok as [Hok Hcs].
  destruct c as [sg| |e|w e| |]; try done; simpl in Hf; injection Hf as <- <-.
  - destruct e as [| |j| |]; try done. destruct (di_fabric _ Hi) as (_ & _ & k & Hpub & Hk). unfold sig. rewrite Hpub.
    apply (dine_keeps s); simpl; try done.
    + apply (di_on _ Hi).
    + apply (di_phils _ Hi).
    + intros i p Hp. destruct (di_each _ Hi i p Hp). eauto.
    + apply (di_queue _ Hi).
    + apply Forall_app. split; [|done]. apply Forall_forall. intros c (w & -> & (m & -> & _)%list_elem_of_fmap)%list_elem_of_fmap. by exists m.
    + intros i Hlt. destruct (phil_at _ _ Hi Hlt) as [p Hp]. pose proof (c_ok _ _ _ (di_core _ Hi) i Hlt) as Hv.
      unfold view_in in *. simpl. rewrite (list_lookup_total_correct _ _ _ Hp) in *. unfold view_of in *. simpl. f_equal. f_equal.
      rewrite Hc. simpl. destruct (decide (j = i)) as [->|Hji].
      * rewrite posts_to_phil, !decide_True; [done|done|]. apply (Hk i p Hp). apply (eats_started _ _ Hv). simpl. rewrite Hc. simpl.
        rewrite decide_True by done. simpl. lia.
      * rewrite posts_elsewhere, decide_False by (done || congruence). done.
  - destruct e as [| |j| |]; try done. destruct Hok as [k ->]. simpl. unfold post_to. rewrite decide_False by apply phil_not_table.
    rewrite phil_of_id. apply (dine_keeps s); simpl; try done.
    + apply (di_on _ Hi).
    + rewrite length_alter. apply (di_phils _ Hi).
    + intros i p Hp. destruct (decide (k = i)) as [->|Hki].
      * rewrite list_lookup_alter_eq in Hp. apply fmap_Some in Hp as (p0 & Hp0 & ->). destruct (di_each _ Hi i p0 Hp0). simpl. eauto.
      * rewrite list_lookup_alter_ne in Hp by done. destruct (di_each _ Hi i p Hp). eauto.
    + apply (di_queue _ Hi).
    + intros i Hlt. destruct (phil_at _ _ Hi Hlt) as [p Hp]. unfold view_in. simpl. rewrite (list_lookup_total_correct _ _ _ Hp).
      destruct (decide (k = i)) as [->|Hki].
      * assert (Ha : alter (enqueue (Eat_Signal j)) i (phils s) !! i = Some (enqueue (Eat_Signal j) p)) by (by rewrite list_lookup_alter_eq, Hp).
        rewrite (list_lookup_total_correct _ _ _ Ha). unfold view_of. simpl. rewrite Hc, !filter_app, !length_app. csimpl.
        rewrite (filter_cons_False timeout) by (by intros [|]). rewrite filter_nil, app_nil_r. f_equal.
        rewrite filter_cons. repeat case_decide; destruct_and?; csimpl; try lia; exfalso; intuition congruence.
      * assert (Ha : alter (enqueue (Eat_Signal j)) k (phils s) !! i = Some p) by (by rewrite list_lookup_alter_ne).
        rewrite (list_lookup_total_correct _ _ _ Ha). unfold view_of. simpl. rewrite Hc. simpl.
        by rewrite decide_False by (intros [?%phil_id_inj _]; by apply Hki).
Qed.

(** A holder gives its forks back. *)
Lemma core_frees X V V' f i :
  dine_core (fun _ => False) V f -> (i < N)%nat -> (forall j, j <> i -> V' j = V j) ->
  holds i (V i) -> view_ok i (V' i) -> ~ holds i (V' i) -> v_hungry (V' i) = false ->
  X = (fun j => j = LPHIL i \/ j = RPHIL i) ->
  dine_core X V' (<[RFORK i := FREE]> (<[LFORK i := FREE]> f)).
Proof.
  intros [Hl Ho Hf He Hw] Hi Hsame Hh Hok Hno Hhu ->. destruct (seats i Hi) as ([HL HR] & HRL & HLR & Hni & HniL & HLnR).
  unfold LFORK. change (RFORK i) with (RPHIL i).
  assert (NL : ~ holds (LPHIL i) (V (LPHIL i))) by (intros Hx; apply (He _ HL Hx); by rewrite HRL).
  pose proof (He _ Hi Hh) as NR. split.
  - by rewrite !length_insert.
  - intros j Hj. destruct (decide (j = i)) as [->|Hne]; [done|rewrite Hsame by done; auto].
  - intros j Hj. destruct (seats j Hj) as ([HLj HRj] & HRLj & HLRj & Hnj & HnjL & _).
    destruct (decide (j = RPHIL i)) as [->|Hj1]; [|destruct (decide (j = i)) as [->|Hj2]].
    + rewrite list_lookup_insert_eq by (rewrite length_insert; lia). rewrite HLR, (Hsame (RPHIL i)) by done. split; [done|tauto].
    + rewrite list_lookup_insert_ne, list_lookup_insert_eq by (done || lia). rewrite (Hsame (LPHIL i)) by done. split; [done|tauto].
    + rewrite !list_lookup_insert_ne by done. rewrite (Hsame j), (Hsame (LPHIL j)) by (done || (intros <-; by apply Hj1)). auto.
  - intros j Hj Hhj. destruct (decide (j = i)) as [->|Hj1]; [done|]. rewrite Hsame in Hhj by done.
    destruct (decide (RPHIL j = i)) as [Hj2|Hj2]; [by rewrite Hj2|]. rewrite Hsame by done. auto.
  - intros j Hj Hx Hhj. destruct (decide (j = i)) as [->|Hj1]; [congruence|]. rewrite Hsame in Hhj by done.
    destruct (seats j Hj) as (_ & HRLj & HLRj & _). change (RFORK j) with (RPHIL j).
    assert (j <> RPHIL i /\ RPHIL j <> i /\ RPHIL j <> RPHIL i) as (? & ? & ?).
    { split; [tauto|]. split; [intros <-; by apply Hx; left|]. intros Heq. apply Hj1. rewrite <- HLRj, Heq. done. }
    rewrite !list_lookup_insert_ne by done. apply Hw; [done|tauto|done].
Qed.

(** [try_feed] in a table. *)
Lemma try_feed_core X (P : nat -> PhilAO) q t i :
  dine_core X (fun j => view_of j (P j) q t) (forks t) -> length (hungry t) = N -> (i < N)%nat ->
  dine_core (fun j => X j /\ j <> i) (fun j => view_of j (P j) q (try_feed i t)) (forks (try_feed i t)) /\
  length (hungry (try_feed i t)) = N /\ (Forall table_call_ok (table_calls t) -> Forall table_call_ok (table_calls (try_feed i t))).
Proof.
  intros Hc Hl Hi. apply (feed_core _ _ _ _ Hc) in Hi as Hfeed. destruct Hfeed as [Hno Hyes]. simpl in Hno, Hyes.
  unfold try_feed. case_decide as Hd.
  - destruct Hd as (Hh & HfL & HfR). simpl. split; [|split; [by rewrite length_insert|]].
    + apply Hyes; [by rewrite Hh| |].
      * intros j Hj. unfold view_of. simpl. rewrite omap_app, length_app, list_lookup_insert_ne by done. simpl.
        rewrite decide_False by congruence. f_equal. simpl. lia.
      * unfold view_of. simpl. rewrite omap_app, length_app, list_lookup_insert_eq by lia. simpl. rewrite decide_True by done.
        f_equal. simpl. lia.
    + intros Hok. apply Forall_app. split; [done|]. by apply Forall_singleton.
  - split; [|done]. apply Hno. intros (Hh & HfL & HfR). apply Hd. split; [|done].
    destruct (hungry t !! i) as [[]|]; done.
Qed.

Lemma table_turn e t :
  chart_step_table table_serving e t =
    Done (table_serving, match e with
      | Hungry_Signal i => try_feed i (mkTable (forks t) (<[i := true]> (hungry t)) (table_calls t))
      | Done_Signal i => try_feed (RPHIL i) (try_feed (LPHIL i)
          (mkTable (<[RFORK i := FREE]> (<[LFORK i := FREE]> (forks t))) (hungry t) (table_calls t)))
      | _ => t
      end).
Proof. by destruct e. Qed.

(** The table takes a message: the view of its sender, and those of the others. *)
Lemma view_pop i j p e q t t' :
  about i e -> table_calls t' = table_calls t ->
  v_leaf (view_of j p q t') = v_leaf (view_of j p (e :: q) t) /\
  v_sent (view_of j p (e :: q) t) = (if decide (j = i) then [e] else []) ++ v_sent (view_of j p q t') /\
  v_eats (view_of j p q t') = v_eats (view_of j p (e :: q) t) /\ v_timer (view_of j p q t') = v_timer (view_of j p (e :: q) t).
Proof.
  intros Ha Hc. unfold view_of. simpl. rewrite Hc. split; [done|]. split; [|done]. rewrite filter_cons.
  case_decide as Hj; case_decide as Hj'; [done| | |done].
  - by destruct Hj', (about_one _ _ _ Ha Hj).
  - by subst.
Qed.

Lemma table_event_inv s e q t' :
  dine_inv s -> table_calls (table s) = [] -> table_queue s = e :: q -> chart_step_table table_serving e (table s) = Done (table_serving, t') ->
  dine_inv (mkDining (fabric s) t' (table_on s) q (phils s)).
Proof.
  intros Hi Hc Hq. rewrite table_turn. intros [= <-].
  pose proof (di_queue _ Hi) as Hqs. rewrite Hq in Hqs. apply Forall_cons in Hqs as [(i & Hlt & Ha) Hqs].
  pose proof (di_core _ Hi) as Hcore. unfold view_in in Hcore. rewrite Hq in Hcore.
  pose proof (di_hungry _ Hi) as Hlen. set (t := table s) in *. set (P := fun j => phils s !!! j).
  change (dine_core (fun _ => False) (fun j => view_of j (P j) (e :: q) t) (forks t)) in Hcore.
  assert (Hgo : forall t2, dine_core (fun _ => False) (fun j => view_of j (P j) q t2) (forks t2) -> length (hungry t2) = N ->
    Forall table_call_ok (table_calls t2) -> dine_inv (mkDining (fabric s) t2 (table_on s) q (phils s))).
  { intros t2 H1 H2 H3. destruct Hi. by split. }
  assert (Hnil : Forall table_call_ok (table_calls t)) by (by rewrite Hc).
  pose proof (c_ok _ _ _ Hcore i Hlt) as Hv. simpl in Hv.
  destruct Ha as [->| ->].
  - set (t1 := mkTable (forks t) (<[i := true]> (hungry t)) (table_calls t)).
    assert (Hp : forall j, j <> i -> view_of j (P j) q t1 = view_of j (P j) (Hungry_Signal i :: q) t).
    { intros j Hj. unfold view_of. simpl. rewrite filter_cons_False, list_lookup_insert_ne by (done || (intros [[=]|[=]]; congruence)). done. }
    assert (Hpi : let v := view_of i (P i) (Hungry_Signal i :: q) t in
      view_of i (P i) q t1 = mkView (v_leaf v) (tail (v_sent v)) (v_eats v) (v_timer v) true /\ exists l, v_sent v = Hungry_Signal i :: l).
    { unfold view_of. simpl. rewrite filter_cons_True, list_lookup_insert_eq by (lia || by left). simpl. eauto. }
    destruct (view_of i (P i) (Hungry_Signal i :: q) t) as [lf se ea ti hu] eqn:He. simpl in Hpi. destruct Hpi as [Hpi [l ->]].
    assert (Hcore1 : dine_core (fun j => j = i) (fun j => view_of j (P j) q t1) (forks t1)).
    { eapply core_local; [exact Hcore|]. intros j Hj. cbv beta. destruct (decide (j = i)) as [->|Hji].
      - rewrite Hpi, He. unfold view_ok, holds in *. simpl in *. split; [|split; [|done]].
        + destruct lf as [[]|]; by_cases; naive_solver.
        + rewrite elem_of_cons. destruct lf as [[]|]; by_cases; naive_solver.
      - rewrite (Hp j Hji). split; [by apply (c_ok _ _ _ Hcore)|]. split; [done|]. tauto. }
    destruct (try_feed_core _ P q t1 i Hcore1) as (H1 & H2 & H3); [simpl; by rewrite length_insert|done|].
    apply Hgo; [|done|by apply H3]. eapply core_local; [exact H1|]. intros j Hj. split; [by apply (c_ok _ _ _ H1)|]. split; [done|]. tauto.
  - set (t1 := mkTable (<[RFORK i := FREE]> (<[LFORK i := FREE]> (forks t))) (hungry t) (table_calls t)).
    destruct (seats i Hlt) as ([HL HR] & _).
    assert (Hp : forall j, j <> i -> view_of j (P j) q t1 = view_of j (P j) (Done_Signal i :: q) t).
    { intros j Hj. unfold view_of. simpl. rewrite filter_cons_False by (intros [[=]|[=]]; congruence). done. }
    assert (Hpi : let v := view_of i (P i) (Done_Signal i :: q) t in
      view_of i (P i) q t1 = mkView (v_leaf v) (tail (v_sent v)) (v_eats v) (v_timer v) (v_hungry v) /\ exists l, v_sent v = Done_Signal i :: l).
    { unfold view_of. simpl. rewrite filter_cons_True by (by right). simpl. eauto. }
    assert (Hcore1 : dine_core (fun j => j = LPHIL i \/ j = RPHIL i) (fun j => view_of j (P j) q t1) (forks t1)).
    { destruct (view_of i (P i) (Done_Signal i :: q) t) as [lf se ea ti hu] eqn:He. simpl in Hpi. destruct Hpi as [Hpi [l ->]].
      eapply core_frees; [exact Hcore|done|exact Hp| | | | |done]; cbv beta; rewrite ?He, ?Hpi; unfold view_ok, holds in *; simpl in *.
      - right; right. left.
      - destruct lf as [[]|]; by_cases; naive_solver.
      - destruct lf as [[]|]; by_cases; intros [?|[?|Hin]]; try lia; try done; set_solver.
      - destruct lf as [[]|]; by_cases; naive_solver. }
    destruct (try_feed_core _ P q t1 (LPHIL i) Hcore1 Hlen HL) as (H1 & H2 & H3).
    destruct (try_feed_core _ P q _ (RPHIL i) H1 H2 HR) as (H1' & H2' & H3').
    apply Hgo; [|done|by apply H3', H3]. eapply core_local; [exact H1'|]. intros j Hj. split; [by apply (c_ok _ _ _ H1')|]. split; [done|]. tauto.
Qed.

(** ** Main's start *)

Lemma boot_views i : (i < N)%nat -> view_in (mkDining (subscribe table_id Done_sig (subscribe table_id Hungry_sig ∅))
    (mkTable (replicate N FREE) (replicate N false) []) true [] (phils dining_boot)) i = mkView None [] 0 [] false.
Proof. revert i. by apply five. Qed.

Lemma table_started s : dine_step StartTable dining_boot = Some s -> dine_inv s.
Proof.
  intros [= <-]. split; try done.
  - intros i p Hp. change (((fun i => mkPhilAO None (mkPhil i []) [] false false) <$> seq 0 N) !! i = Some p) in Hp.
    apply list_lookup_fmap_Some in Hp as (j & -> & [-> _]%lookup_seq). split; [done|constructor].
  - split; [by vm_compute|]. split; [by vm_compute|]. exists 0%nat. split; [by vm_compute|]. intros i p Hp.
    change (((fun i => mkPhilAO None (mkPhil i []) [] false false) <$> seq 0 N) !! i = Some p) in Hp.
    apply list_lookup_fmap_Some in Hp as (j & -> & _). simpl. split; [done|lia].
  - match goal with |- dine_core _ (view_in ?x) _ => assert (Hv : forall i, (i < N)%nat -> view_in x i = mkView None [] 0 [] false) by exact boot_views end.
    split.
    + done.
    + intros i Hi. by rewrite Hv.
    + intros j Hj. destruct (seats j Hj) as [[? ?] _]. rewrite !Hv by done. unfold holds. simpl. split.
      * revert j Hj H H0. apply (five (fun j => _ -> _ -> replicate N FREE !! j = Some USED -> _)); done.
      * intros [[?|[?|?%elem_of_nil]]|[?|[?|?%elem_of_nil]]]; done || lia.
    + intros i Hi. rewrite Hv by done. intros [?|[?|?%elem_of_nil]]; done || (simpl in *; lia).
    + intros i Hi _. by rewrite Hv.
Qed.

Lemma phil_init i : chart_init phil_handler phil_lineage phil_top (mkPhil i []) = Done (phil_thinking, mkPhil i [Subscribe Eat_sig; ArmThink]).
Proof. done. Qed.

Lemma phil_started s i p :
  dine_inv s -> phils s !! i = Some p -> leaf p = None -> Forall (fun p => leaf p <> None) (take i (phils s)) ->
  dine_inv (perform_all (phil_id i) [Subscribe Eat_sig; ArmThink]
    (set_phil i (mkPhilAO (Some phil_thinking) (mkPhil i []) (queue p) (think_timer p) (eat_timer p)) s)).
Proof.
  intros Hi Hp Hl Hall. pose proof (phil_lt _ _ _ Hi Hp) as Hlt. pose proof (di_phils _ Hi) as Hlen.
  destruct (di_fabric _ Hi) as (HF1 & HF2 & k & HF3 & HF4).
  assert (k = i) as ->.
  { assert (~ (i < k)%nat) by (rewrite <- (HF4 i p Hp); intros Hn; by apply Hn). destruct (decide (k < i)%nat) as [Hk|]; [|lia].
    destruct (phil_at s k Hi ltac:(lia)) as [q Hq]. exfalso. apply (Nat.lt_irrefl k). rewrite <- (HF4 k q Hq).
    rewrite Forall_forall in Hall. apply Hall. apply list_elem_of_lookup. exists k. by rewrite lookup_take_lt. }
  pose proof (c_ok _ _ _ (di_core _ Hi) i Hlt) as Hv. unfold view_ok in Hv. rewrite (view_at _ _ _ Hp) in Hv. simpl in Hv. rewrite Hl in Hv.
  set (p1 := mkPhilAO (Some phil_thinking) (mkPhil i []) (queue p) true (eat_timer p)).
  assert (Hs : perform_all (phil_id i) [Subscribe Eat_sig; ArmThink]
    (set_phil i (mkPhilAO (Some phil_thinking) (mkPhil i []) (queue p) (think_timer p) (eat_timer p)) s) =
    set_phil i p1 (set_fabric (subscribe (phil_id i) Eat_sig (fabric s)) s)).
  { unfold perform_all, set_phil, set_fabric. simpl. rewrite phil_of_id.
    erewrite alter_insert by (apply list_lookup_insert_eq; by eapply lookup_lt_Some). by rewrite list_insert_insert_eq. }
  rewrite Hs. clear Hs.
  assert (Hv1 : view_of i p1 (table_queue s) (table s) = mkView (Some phil_thinking) [] 0 [ThinkTimeout_Signal] false).
  { pose proof (f_equal v_sent Hv) as Hse. pose proof (f_equal v_eats Hv) as Hea. pose proof (f_equal v_timer Hv) as Hti.
    pose proof (f_equal v_hungry Hv) as Hhu. unfold view_of in *. simpl in *. apply app_eq_nil in Hse as [-> _]. rewrite Hea, Hhu.
    apply app_eq_nil in Hti as [-> [_ Hti]%app_eq_nil]. by destruct (eat_timer p). }
  assert (Hat : forall j, phils (set_phil i p1 s) !! j = if decide (j = i) then Some p1 else phils s !! j).
  { intros j. simpl. case_decide; [subst; by rewrite list_lookup_insert_eq by lia|by rewrite list_lookup_insert_ne]. }
  assert (Hpub : forall sg, publish sg (subscribe (phil_id i) Eat_sig (fabric s)) =
    if decide (sg = Eat_sig) then (phil_id <$> seq 0 i) ++ [phil_id i] else publish sg (fabric s)).
  { intros sg. unfold publish in *. unfold subscribe. destruct (decide (sg = Eat_sig)) as [->|Hsg].
    - assert (Hd : default [] (fabric s !! Eat_sig) = phil_id <$> seq 0 i) by (by destruct (fabric s !! Eat_sig)).
      rewrite Hd. case_decide as Hin; [|by rewrite lookup_insert_eq].
      apply list_elem_of_fmap in Hin as (j & ->%phil_id_inj & Hj%elem_of_seq). lia.
    - by case_decide; rewrite lookup_insert_ne. }
  destruct Hi as [H1 H2 H3 H4 H5 H6 _ H8]. split; try done.
  - simpl. by rewrite length_insert.
  - intros j q Hq. change (phils (set_phil i p1 s) !! j = Some q) in Hq. rewrite Hat in Hq. case_decide; [injection Hq as <-; subst; by split|auto].
  - simpl. rewrite !Hpub. split; [done|]. split; [done|]. exists (S i). split.
    + rewrite decide_True, seq_S by done. by rewrite fmap_app.
    + intros j q Hq. change (phils (set_phil i p1 s) !! j = Some q) in Hq. rewrite Hat in Hq. case_decide.
      * injection Hq as <-. subst. simpl. split; [lia|done].
      * rewrite (HF4 j q Hq). lia.
  - eapply core_local; [exact H8|]. intros j Hj. destruct (decide (j = i)) as [->|Hne].
    + assert (Hx : view_in (set_phil i p1 (set_fabric (subscribe (phil_id i) Eat_sig (fabric s)) s)) i =
        mkView (Some phil_thinking) [] 0 [ThinkTimeout_Signal] false).
      { rewrite <- Hv1. unfold view_in. simpl. by rewrite list_lookup_total_insert_eq by lia. }
      rewrite Hx, (view_at _ _ _ Hp), Hv. unfold view_ok, holds. simpl. split; [auto 10|]. split; [|done].
      split; intros [?|[?|?%elem_of_nil]]; done || lia.
    + assert (Hx : view_in (set_phil i p1 (set_fabric (subscribe (phil_id i) Eat_sig (fabric s)) s)) j = view_in s j)
        by (unfold view_in; simpl; by rewrite list_lookup_total_insert_ne).
      rewrite Hx. split; [by apply (c_ok _ _ _ H8)|done].
Qed.

Lemma dine_step_inv a s s' : s = dining_boot \/ dine_inv s -> dine_step a s = Some s' -> s' = dining_boot \/ dine_inv s'.
Proof.
  intros [->|Hi] Hs.
  { right. destruct a as [|i| |i|i|i]; [by apply table_started| | | | |]; simpl in Hs; try done;
      do 5 (destruct i as [|i]; [done|]); done. }
  right. destruct a as [|i| |i|i|i]; cbn [dine_step] in Hs.
  - by rewrite (di_on _ Hi) in Hs.
  - destruct (phils s !! i) as [p|] eqn:Hp; [|done]. cbn [mbind option_bind] in Hs. case_decide as Hd; [|done].
    destruct Hd as (_ & Hl & Hall). destruct (di_each _ Hi i p Hp) as [Hid Hcs].
    assert (Hph : phil p = mkPhil i []).
    { pose proof (c_ok _ _ _ (di_core _ Hi) i (phil_lt _ _ _ Hi Hp)) as Hv. unfold view_ok in Hv. rewrite (view_at _ _ _ Hp) in Hv.
      simpl in Hv. rewrite Hl in Hv. pose proof (f_equal v_sent Hv) as Hse. pose proof (f_equal v_timer Hv) as Hti. simpl in Hse, Hti.
      apply app_eq_nil in Hse as [_ Hse]. do 3 apply app_eq_nil in Hti as [_ Hti].
      destruct (phil p) as [id [|c cs]]; simpl in *; [by subst|]. apply Forall_cons in Hcs as [Hc _].
      destruct c; try done. simpl in Hc. by subst. }
    rewrite Hph, phil_init in Hs. injection Hs as <-. by apply phil_started.
  - destruct (table_calls (table s)) as [|c cs] eqn:Hc.
    + destruct (table_queue s) as [|e q] eqn:Hq; [done|]. destruct (chart_step_table _ _ _) as [[[] t]|] eqn:Ht; [|done].
      injection Hs as <-. by eapply table_event_inv.
    + destruct (perform table_id c s) as [s1 more] eqn:Hf. injection Hs as <-. by eapply (table_call_inv s).
  - destruct (phils s !! i) as [p|] eqn:Hp; [|done]. cbn [mbind option_bind] in Hs. destruct (calls (phil p)) as [|c cs] eqn:Hc.
    + destruct (queue p) as [|e q] eqn:Hq; [done|]. destruct (leaf p) as [l|] eqn:Hl; [|done].
      destruct (chart_step_phil l e (phil p)) as [[l' d]|] eqn:Ht; [|done]. injection Hs as <-. by eapply phil_event_inv.
    + destruct (perform (phil_id i) c s) as [s1 more] eqn:Hf. 
      assert (Hi' := phil_call_inv _ _ _ _ _ _ _ Hi Hp Hc Hf). destruct (queue p), (leaf p); injection Hs as <-; exact Hi'.
  - destruct (phils s !! i) as [p|] eqn:Hp; [|done]. cbn [mbind option_bind] in Hs. destruct (think_timer p) eqn:Ht; [|done].
    injection Hs as <-. apply timer_fires_inv; auto.
  - destruct (phils s !! i) as [p|] eqn:Hp; [|done]. cbn [mbind option_bind] in Hs. destruct (eat_timer p) eqn:Ht; [|done].
    injection Hs as <-. apply timer_fires_inv; auto 10.
Qed.

Lemma dine_run_inv l s : dine_run l dining_boot = Some s -> s = dining_boot \/ dine_inv s.
Proof.
  assert (Hgen : forall s0, s0 = dining_boot \/ dine_inv s0 -> dine_run l s0 = Some s -> s = dining_boot \/ dine_inv s).
  { induction l as [|a l IH]; intros s0 Hi; simpl; [by intros [= <-]|].
    intros Hr. apply bind_Some in Hr as (s1 & Hs & Hr). eapply IH; [|exact Hr]. by eapply dine_step_inv. }
  apply Hgen. by left.
Qed.

(** ** Nobody is forgotten *)

(** No message or call is under way, and all have started. *)
Definition quiet (s : Dining) : bool :=
  bool_decide (table_queue s = [] /\ table_calls (table s) = []) &&
  bool_decide (Forall (fun p => leaf p <> None /\ calls (phil p) = [] /\ queue p = []) (phils s)).

Lemma quiet_phil s i p : quiet s = true -> phils s !! i = Some p -> leaf p <> None /\ calls (phil p) = [] /\ queue p = [].
Proof.
  intros [_ Hq%bool_decide_eq_true]%andb_true_iff Hp. rewrite Forall_lookup in Hq. by eapply Hq.
Qed.
Lemma quiet_table s : quiet s = true -> table_queue s = [] /\ table_calls (table s) = [].
Proof. unfold quiet. by intros [Hq%bool_decide_eq_true _]%andb_true_iff. Qed.

(** The view of a philosopher then: nothing but its state and its timer. *)
Lemma quiet_view s i p :
  quiet s = true -> phils s !! i = Some p -> v_sent (view_in s i) = [] /\ v_eats (view_in s i) = 0%nat /\ v_leaf (view_in s i) = leaf p /\
  v_timer (view_in s i) = (if think_timer p then [ThinkTimeout_Signal] else []) ++ (if eat_timer p then [EatTimeout_Signal] else []).
Proof.
  intros Hq Hp. destruct (quiet_phil _ _ _ Hq Hp) as (_ & Hc & Hqu). destruct (quiet_table _ Hq) as [Ht Htc].
  rewrite (view_at _ _ _ Hp). unfold view_of. simpl. rewrite Hc, Hqu, Ht, Htc. simpl. by rewrite app_nil_r.
Qed.

Lemma holder_eats s i p : quiet s = true -> phils s !! i = Some p -> holds i (view_in s i) -> leaf p = Some phil_eating.
Proof.
  intros Hq Hp. destruct (quiet_view _ _ _ Hq Hp) as (Hse & Hea & Hl & _). unfold holds. rewrite Hse, Hea, Hl.
  intros [?|[?|?%elem_of_nil]]; [lia|done|done].
Qed.

Lemma hungry_waits s i p :
  dine_inv s -> quiet s = true -> phils s !! i = Some p -> leaf p = Some phil_hungry ->
  (leaf <$> phils s !! LPHIL i) = Some (Some phil_eating) \/ (leaf <$> phils s !! RPHIL i) = Some (Some phil_eating).
Proof.
  intros Hi Hq Hp Hl. pose proof (phil_lt _ _ _ Hi Hp) as Hlt. destruct (seats i Hlt) as ([HL HR] & _ & HLR & _).
  destruct (quiet_view _ _ _ Hq Hp) as (Hse & Hea & Hvl & _). pose proof (di_core _ Hi) as Hc.
  pose proof (c_ok _ _ _ Hc i Hlt) as Hv. unfold view_ok in Hv. rewrite Hvl, Hl in Hv.
  assert (Hh : v_hungry (view_in s i) = true) by (destruct Hv as [_ [([?|?] & _)|[(_ & _ & ?)|(_ & ? & _)]]]; congruence).
  assert (Hno : ~ holds i (view_in s i)) by (intros Hx; apply (holder_eats _ _ _ Hq Hp) in Hx; congruence).
  assert (Heat : forall j, (j < N)%nat -> holds j (view_in s j) -> (leaf <$> phils s !! j) = Some (Some phil_eating)).
  { intros j Hj Hx. destruct (phil_at _ _ Hi Hj) as [q Hqj]. rewrite Hqj. simpl. f_equal. by eapply holder_eats. }
  destruct (c_wait _ _ _ Hc i Hlt ltac:(tauto) Hh) as [Hu|Hu]; apply (c_forks _ _ _ Hc) in Hu; try done;
    destruct Hu as [Hu|Hu]; try done.
  - left. by apply Heat.
  - right. by apply Heat.
  - rewrite (HLR : LPHIL (RFORK i) = i) in Hu. done.
Qed.

Lemma eater_armed s i : dine_inv s -> quiet s = true -> (leaf <$> phils s !! i) = Some (Some phil_eating) -> is_Some (dine_step (EatFires i) s).
Proof.
  intros Hi Hq Hl. destruct (phils s !! i) as [p|] eqn:Hp; [|done]. injection Hl as Hl. simpl. rewrite Hp. simpl.
  destruct (quiet_view _ _ _ Hq Hp) as (_ & _ & Hvl & Hti). pose proof (c_ok _ _ _ (di_core _ Hi) i (phil_lt _ _ _ Hi Hp)) as Hv.
  unfold view_ok in Hv. rewrite Hvl, Hl, Hti in Hv. destruct Hv as (_ & _ & Hx & _). by destruct (think_timer p), (eat_timer p).
Qed.

Lemma quiet_moves s : dine_inv s -> quiet s = true -> exists a, is_Some (dine_step a s).
Proof.
  intros Hi Hq. destruct (phil_at s 0 Hi) as [p Hp]; [unfold N; lia|]. destruct (quiet_phil _ _ _ Hq Hp) as (Hl & _ & _).
  destruct (leaf p) as [[]|] eqn:Hlf; try done.
  - pose proof (c_ok _ _ _ (di_core _ Hi) 0 (phil_lt _ _ _ Hi Hp)) as Hv. unfold view_ok in Hv.
    destruct (quiet_view _ _ _ Hq Hp) as (_ & _ & Hvl & _). by rewrite Hvl, Hlf in Hv.
  - exists (ThinkFires 0). simpl. rewrite Hp. simpl. destruct (quiet_view _ _ _ Hq Hp) as (_ & _ & Hvl & Hti).
    pose proof (c_ok _ _ _ (di_core _ Hi) 0 (phil_lt _ _ _ Hi Hp)) as Hv.
    unfold view_ok in Hv. rewrite Hvl, Hlf, Hti in Hv. destruct Hv as (_ & _ & Hx & _). by destruct (think_timer p), (eat_timer p).
  - destruct (hungry_waits _ _ _ Hi Hq Hp Hlf); eexists; by eapply eater_armed.
  - exists (EatFires 0). apply eater_armed; [done|done|]. rewrite Hp. simpl. by rewrite Hlf.
Qed.

(** Someone who has not started can be started. *)
Lemma next_start s i p : dine_inv s -> phils s !! i = Some p -> leaf p = None -> exists a, is_Some (dine_step a s).
Proof.
  intros Hi Hp Hl. destruct (di_fabric _ Hi) as (_ & _ & k & _ & Hk).
  assert (Hki : (k <= i)%nat) by (destruct (decide (i < k)%nat) as [Hx|]; [by apply (Hk i p Hp) in Hx|lia]).
  destruct (phil_at s k Hi) as [q Hq]; [pose proof (phil_lt _ _ _ Hi Hp); lia|].
  assert (Hlq : leaf q = None) by (destruct (leaf q) eqn:Hx; [|done]; exfalso; apply (Nat.lt_irrefl k), (Hk k q Hq); congruence).
  exists (StartPhil k). cbn [dine_step]. rewrite Hq. cbn [mbind option_bind]. rewrite decide_True.
  - destruct (chart_init phil_handler phil_lineage phil_top (phil q)) as [[]|] eqn:Hx; [by eexists|].
    destruct (phil q). discriminate Hx.
  - split; [apply (di_on _ Hi)|]. split; [done|]. apply Forall_forall. intros r [j Hr]%list_elem_of_lookup.
    apply lookup_take_Some in Hr as [Hr Hj]. by apply (Hk j r Hr).
Qed.

Lemma phil_runs s i p : dine_inv s -> phils s !! i = Some p -> leaf p <> None -> calls (phil p) <> [] \/ queue p <> [] -> is_Some (dine_step (PhilRuns i) s).
Proof.
  intros Hi Hp Hl Hx. cbn [dine_step]. rewrite Hp. cbn [mbind option_bind]. destruct (di_each _ Hi i p Hp) as [Hid _].
  destruct (calls (phil p)) as [|c cs] eqn:Hc.
  - destruct (queue p) as [|e q]; [tauto|]. destruct (leaf p) as [l|]; [|done].
    assert (Hph : phil p = mkPhil i []) by (destruct (phil p); simpl in *; by subst). rewrite Hph, phil_turn.
    destruct l, e; try (by eexists). case_decide; by eexists.
  - destruct (perform _ _ _). by destruct (queue p), (leaf p); eexists.
Qed.

Lemma dine_moves s : dine_inv s -> exists a, is_Some (dine_step a s).
Proof.
  intros Hi. destruct (quiet s) eqn:Hq; [by apply quiet_moves|]. apply andb_false_iff in Hq as [Hq|Hq].
  - apply bool_decide_eq_false in Hq. exists TableRuns. cbn [dine_step]. destruct (table_calls (table s)) as [|c cs].
    + destruct (table_queue s) as [|e q]; [tauto|]. rewrite table_turn. by eexists.
    + destruct (perform _ _ _). by eexists.
  - apply bool_decide_eq_false, not_Forall_Exists in Hq; [|intros ?; apply _]. apply Exists_exists in Hq as (p & [i Hp]%list_elem_of_lookup & Hx).
    destruct (leaf p) as [l|] eqn:Hl; [|by eapply next_start]. exists (PhilRuns i). apply (phil_runs _ _ _ Hi Hp); [congruence|].
    destruct (calls (phil p)) eqn:Hc; [|by left]. destruct (queue p) eqn:Hqu; [|by right]. exfalso. apply Hx. by rewrite Hl.
Qed.

(** C40: the dining philosophers, under every interleaving of their threads, the table's and
    the timers' from main's first start: neighbours never eat at the same time; one who
    eats has both its forks, and they are marked used; something can always happen; and
    when no message is under way, whoever is hungry has a neighbour who eats. *)
Theorem philosophers_dine l s :
  dine_run l dining_boot = Some s ->
  (forall i, (i < N)%nat -> (leaf <$> phils s !! i) = Some (Some phil_eating) ->
     (leaf <$> phils s !! RPHIL i) <> Some (Some phil_eating) /\
     forks (table s) !! LFORK i = Some USED /\ forks (table s) !! RFORK i = Some USED) /\
  (exists a, is_Some (dine_step a s)) /\
  (quiet s = true -> forall i, (leaf <$> phils s !! i) = Some (Some phil_hungry) ->
     (leaf <$> phils s !! LPHIL i) = Some (Some phil_eating) \/ (leaf <$> phils s !! RPHIL i) = Some (Some phil_eating)).
Proof.
  intros [->|Hi]%dine_run_inv.
  { split; [|split; [by exists StartTable|discriminate]]. intros i _ (p & Hp & Hl)%fmap_Some.
    change (((fun i => mkPhilAO None (mkPhil i []) [] false false) <$> seq 0 N) !! i = Some p) in Hp.
    by apply list_lookup_fmap_Some in Hp as (j & -> & _). }
  assert (Hh : forall i, (leaf <$> phils s !! i) = Some (Some phil_eating) -> holds i (view_in s i)).
  { intros i (p & Hp & Hl)%fmap_Some. right; left. rewrite (view_at _ _ _ Hp). simpl. done. }
  pose proof (di_core _ Hi) as Hc. split; [|split].
  - intros i Hlt Hl%Hh. destruct (seats i Hlt) as ([HL HR] & _ & HLR & _). split; [|split].
    + intros Hr%Hh. by apply (c_excl _ _ _ Hc i Hlt Hl).
    + apply (c_forks _ _ _ Hc); [done|by left].
    + apply (c_forks _ _ _ Hc); [done|]. right. change (RFORK i) with (RPHIL i). by rewrite HLR.
  - by apply dine_moves.
  - intros Hq i (p & Hp & Hl)%fmap_Some. by apply (hungry_waits s i p).
Qed.

(** ** A dinner *)

Module DinnerDemo.
Definition start_all : list dine_action := StartTable :: (StartPhil <$> seq 0 N).
(** Philosopher [i] gets hungry, and the table hears of it: its own post, the table's. *)
Definition hungers (i : nat) : list dine_action := [ThinkFires i; PhilRuns i; PhilRuns i; PhilRuns i; TableRuns].
Definition served : list dine_action := repeat TableRuns 6.
(** The grant goes to every queue. *)
Definition eats (i : nat) : list dine_action := [PhilRuns i; PhilRuns i].
Definition everyone : list dine_action := PhilRuns <$> seq 0 N.
(** Everybody is hungry; 0 and 2 eat, the others wait. *)
Definition life : list dine_action :=
  start_all ++ hungers 0 ++ served ++ everyone ++ [PhilRuns 0] ++ hungers 2 ++ served ++ everyone ++ [PhilRuns 2] ++
  hungers 1 ++ hungers 3 ++ hungers 4.
Definition at_table : Dining := default dining_boot (dine_run life dining_boot).
End DinnerDemo.

Lemma dinner_served :
  dine_run DinnerDemo.life dining_boot = Some DinnerDemo.at_table /\ quiet DinnerDemo.at_table = true /\
  leaf <$> phils DinnerDemo.at_table =
    [Some phil_eating; Some phil_hungry; Some phil_eating; Some phil_hungry; Some phil_hungry].
Proof. split_and!; by vm_compute. Qed.

Lemma philosophers_dine_witness :
  let s := DinnerDemo.at_table in
  forks (table s) !! LFORK 2 = Some USED /\
  ((leaf <$> phils s !! LPHIL 4) = Some (Some phil_eating) \/ (leaf <$> phils s !! RPHIL 4) = Some (Some phil_eating)).
Proof.
  destruct dinner_served as (Hr & Hq & _).
  destruct (philosophers_dine DinnerDemo.life DinnerDemo.at_table Hr) as (He & _ & Hw). split.
  - refine (proj1 (proj2 (He 2%nat _ _))); [unfold N; lia|by vm_compute].
  - refine (Hw Hq 4%nat _). by vm_compute.
Defined.
