(* ===== verification/Timer.v ===== *)
(** * Timers (chart/time_event.hpp)

    [TimerService] is one background thread that calls functions at deadlines;
    [TimeEvent] is the one-shot or periodic event built on it.  The worker
    releases the mutex while it calls a function, so [schedule] and [cancel]
    of other threads interleave with every section of its loop; the model has
    one action per section. *)

From S2P Require Import Prelude.

Local Open Scope Z_scope.

Section TimerService.
(** The functions that can be scheduled (for [TimeEvent]: target and signal). *)
Context {F : Type}.

Record Item := mkItem { due : Z; fn : F; period : Z; tok : Z }.

(** [Item::operator<]. *)
Definition item_lt (x y : Item) : bool :=
  if decide (due x <> due y) then bool_decide (due x < due y) else bool_decide (tok x < tok y).

(** [std::multiset::insert]: behind the elements that are not greater. *)
Fixpoint insert_item (it : Item) (l : list Item) : list Item :=
  match l with
  | [] => [it]
  | x :: l' => if item_lt it x then it :: x :: l' else x :: insert_item it l'
  end.

(** Where the worker is inside [run]; [now] is the clock value it read. *)
Inductive timer_phase :=
  | TWait                          (* top of the loop, or in [cv_.wait*] *)
  | TScan (now : Z)                (* at the inner while test, mutex held *)
  | TCall (it : Item) (now : Z)    (* unlocked, about to call [it.fn] *)
  | TBack (it : Item) (now : Z)    (* [it.fn] returned, mutex not yet retaken *)
  | TExit.

(** [clock] is [Clock::now()]; [fired] and [issued] are history: the calls made
    with their times, and the number of [schedule] calls. *)
Record timers := mkTimers {
  items_ : list Item;
  valid_ : gmap Z bool;
  next_ : Z;
  stopping_ : bool;
  tworker : timer_phase;
  clock : Z;
  fired : list (Item * Z);
  issued : Z }.

Definition fresh_timers (t0 : Z) : timers := mkTimers [] ∅ 0 false TWait t0 [] 0.

Definition token_modulus : Z := 2 ^ 64.

(** [schedule]: the new token and the state. *)
Definition schedule (f : F) (first per : Z) (c : timers) : Z * timers :=
  let t := (next_ c + 1) mod token_modulus in
  (t, mkTimers (insert_item (mkItem first f per t) (items_ c)) (<[t := true]> (valid_ c)) t
        (stopping_ c) (tworker c) (clock c) (fired c) (issued c + 1)).

Definition cancel (t : Z) (c : timers) : timers :=
  match valid_ c !! t with
  | None => c
  | Some _ => mkTimers (items_ c) (<[t := false]> (valid_ c)) (next_ c) (stopping_ c)
                (tworker c) (clock c) (fired c) (issued c)
  end.

Definition alive (t : Z) (c : timers) : bool := default false (valid_ c !! t).

Definition set_phase (p : timer_phase) (c : timers) : timers :=
  mkTimers (items_ c) (valid_ c) (next_ c) (stopping_ c) p (clock c) (fired c) (issued c).

Definition set_items (l : list Item) (c : timers) : timers :=
  mkTimers l (valid_ c) (next_ c) (stopping_ c) (tworker c) (clock c) (fired c) (issued c).

Definition erase_valid (t : Z) (c : timers) : timers :=
  mkTimers (items_ c) (delete t (valid_ c)) (next_ c) (stopping_ c) (tworker c) (clock c)
    (fired c) (issued c).

(** The loop head: [wait] sleeps on while there is nothing to wait for;
    [wait_until] may return at any time. *)
Definition run_head (c : timers) : timers :=
  if stopping_ c then set_phase TExit c
  else match items_ c with
       | [] => c
       | _ => set_phase (TScan (clock c)) c
       end.

(** One iteration of the inner while loop, up to [lk.unlock()]. *)
Definition run_scan (now : Z) (c : timers) : timers :=
  match items_ c with
  | [] => set_phase TWait c
  | it :: rest =>
      if decide (due it <= now) then
        let c1 := set_items rest c in
        if alive (tok it) c1 then set_phase (TCall it now) c1 else erase_valid (tok it) c1
      else set_phase TWait c
  end.

(** [it.fn()], exceptions swallowed. *)
Definition run_call (it : Item) (now : Z) (c : timers) : timers :=
  mkTimers (items_ c) (valid_ c) (next_ c) (stopping_ c) (TBack it now) (clock c)
    (fired c ++ [(it, clock c)]) (issued c).

(** From [lk.lock()] to the end of the iteration. *)
Definition run_back (it : Item) (now : Z) (c : timers) : timers :=
  if stopping_ c then set_phase TExit c
  else
    let c1 := set_phase (TScan now) c in
    if bool_decide (0 < period it) && alive (tok it) c then
      set_items (insert_item (mkItem (clock c + period it) (fn it) (period it) (tok it)) (items_ c)) c1
    else erase_valid (tok it) c1.

Inductive timer_action :=
  | TSchedule (f : F) (first per : Z)
  | TCancel (t : Z)
  | TTick (n : nat)      (* the steady clock advances *)
  | TStop                (* [~TimerService] *)
  | TRun.                (* the worker's next section *)

Definition timer_step (a : timer_action) (c : timers) : timers :=
  match a with
  | TSchedule f first per => snd (schedule f first per c)
  | TCancel t => cancel t c
  | TTick n => mkTimers (items_ c) (valid_ c) (next_ c) (stopping_ c) (tworker c)
                 (clock c + Z.of_nat n) (fired c) (issued c)
  | TStop => mkTimers (items_ c) (valid_ c) (next_ c) true (tworker c) (clock c) (fired c) (issued c)
  | TRun =>
      match tworker c with
      | TWait => run_head c
      | TScan now => run_scan now c
      | TCall it now => run_call it now c
      | TBack it now => run_back it now c
      | TExit => c
      end
  end.

Definition run_timers (l : list timer_action) (c : timers) : timers :=
  foldl (fun c a => timer_step a c) c l.

(** ** TimeEvent *)

(** A [TimeEvent] holds the token of its pending schedule. *)
Definition disarm (tok_ : option Z) (c : timers) : option Z * timers :=
  match tok_ with
  | Some t => (None, cancel t c)
  | None => (None, c)
  end.

Definition arm_one_shot (f : F) (delay : Z) (tok_ : option Z) (c : timers) : option Z * timers :=
  let c1 := snd (disarm tok_ c) in
  let '(t, c2) := schedule f (clock c1 + delay) 0 c1 in (Some t, c2).

(** [CHART_REQUIRE(period.count() > 0)] in a build with assertions. *)
Definition arm_periodic (ndebug : bool) (f : F) (first per : Z) (tok_ : option Z) (c : timers) :
    outcome (option Z * timers) :=
  if negb ndebug && negb (bool_decide (0 < per)) then Fail AssertFailed
  else
    let c1 := snd (disarm tok_ c) in
    let '(t, c2) := schedule f (clock c1 + first) per c1 in Done (Some t, c2).

Definition armed (tok_ : option Z) : bool := match tok_ with Some _ => true | None => false end.

(** ** Invariant *)

Definition hand (p : timer_phase) : list Item :=
  match p with TCall it _ | TBack it _ => [it] | _ => [] end.

(** The items that are scheduled or in the worker's hand. *)
Definition held (c : timers) : list Item := hand (tworker c) ++ items_ c.

Definition item_le (x y : Item) : Prop := item_lt y x = false.

(** What is known of a held item while the service runs. *)
Definition unfired (l : list (Item * Z)) (it : Item) : Prop :=
  period it <= 0 -> tok it ∉ (tok ∘ fst) <$> l.

Record timers_inv (c : timers) : Prop := {
  tinv_next : next_ c = issued c /\ 0 <= issued c;
  tinv_range : Forall (fun it => 1 <= tok it <= next_ c) (held c ++ (fst <$> fired c));
  tinv_nodup : NoDup (tok <$> held c);
  tinv_sorted : StronglySorted item_le (items_ c);
  tinv_valid : forall it, it ∈ items_ c -> is_Some (valid_ c !! tok it);
  tinv_valid_range : forall t b, valid_ c !! t = Some b -> 1 <= t <= next_ c;
  tinv_dom : match tworker c with
             | TExit => True
             | _ => forall t b, valid_ c !! t = Some b -> t ∈ tok <$> held c
             end;
  tinv_now : match tworker c with
             | TScan now => now <= clock c
             | TCall it now | TBack it now => due it <= now /\ now <= clock c
             | _ => True
             end;
  tinv_due : Forall (fun p => due p.1 <= p.2) (fired c);
  tinv_once : NoDup ((tok ∘ fst) <$> filter (fun p => period p.1 <= 0) (fired c));
  tinv_unfired : Forall (unfired (fired c))
    (match tworker c with TCall it _ => [it] | _ => [] end ++ items_ c) }.

Lemma insert_item_perm it l : insert_item it l ≡ₚ it :: l.
Proof.
  induction l as [|x l IH]; simpl; [done|].
  destruct (item_lt it x); [done|]. rewrite IH. constructor.
Qed.

Lemma item_lt_spec x y :
  item_lt x y = true <-> due x < due y \/ (due x = due y /\ tok x < tok y).
Proof.
  unfold item_lt. destruct (decide _); rewrite bool_decide_eq_true; lia.
Qed.

Lemma item_le_spec x y :
  item_le x y <-> due x < due y \/ (due x = due y /\ tok x <= tok y).
Proof.
  unfold item_le. pose proof (item_lt_spec y x) as H.
  destruct (item_lt y x); split; intros; try done; [|lia].
  destruct H as [H _]. specialize (H eq_refl). lia.
Qed.

Lemma insert_item_sorted it l :
  StronglySorted item_le l -> StronglySorted item_le (insert_item it l).
Proof.
  induction 1 as [|x l Hs IH Hx]; simpl; [by repeat constructor|].
  destruct (item_lt it x) eqn:Hlt.
  - apply item_lt_spec in Hlt. constructor; [by constructor|].
    constructor; [apply item_le_spec; lia|].
    eapply Forall_impl; [exact Hx|]. simpl. intros y Hy%item_le_spec. apply item_le_spec. lia.
  - constructor; [done|]. rewrite insert_item_perm. by constructor.
Qed.

Lemma insert_item_elem it x l : x ∈ insert_item it l <-> x = it \/ x ∈ l.
Proof. by rewrite insert_item_perm, elem_of_cons. Qed.

Lemma fresh_inv t0 : timers_inv (fresh_timers t0).
Proof. split; simpl; try done; try constructor; try set_solver. Qed.

Lemma schedule_inv f first per c :
  timers_inv c -> issued c + 1 < token_modulus -> timers_inv (snd (schedule f first per c)).
Proof.
  intros [[I1 I0] I2 I3 I4 I5 I6 I7 I8 I9 I10 I11] Hlt. unfold schedule. simpl.
  rewrite Z.mod_small by (unfold token_modulus in *; lia).
  set (t := next_ c + 1). set (it := mkItem first f per t).
  assert (Hp : hand (tworker c) ++ insert_item it (items_ c) ≡ₚ it :: held c).
  { rewrite insert_item_perm. symmetry. apply Permutation_middle. }
  assert (Hfr : t ∉ tok <$> (held c ++ (fst <$> fired c))).
  { intros (x & Hx & Hin)%list_elem_of_fmap. rewrite Forall_forall in I2.
    specialize (I2 _ Hin). simpl in I2. lia. }
  rewrite fmap_app, elem_of_app in Hfr.
  split; unfold held in *; simpl; try done; try lia.
  - rewrite Hp. simpl. constructor; [simpl; lia|].
    eapply Forall_impl; [exact I2|]. simpl. lia.
  - rewrite Hp. simpl. constructor; [|done]. tauto.
  - by apply insert_item_sorted.
  - intros x [->|Hx]%insert_item_elem; [by rewrite lookup_insert_eq|].
    destruct (decide (tok x = t)) as [->|Hne]; [by rewrite lookup_insert_eq|].
    rewrite lookup_insert_ne by done. auto.
  - intros t' b. destruct (decide (t = t')) as [<-|Hne]; [intros _; lia|].
    rewrite lookup_insert_ne by done. intros Hl%I6. lia.
  - assert (Hd : (forall t b, valid_ c !! t = Some b ->
        t ∈ tok <$> hand (tworker c) ++ items_ c) ->
      forall t' b, <[t := true]> (valid_ c) !! t' = Some b ->
      t' ∈ tok <$> hand (tworker c) ++ insert_item it (items_ c)).
    { intros Hold t' b. rewrite Hp. simpl.
      destruct (decide (t = t')) as [<-|Hne]; [left|].
      rewrite lookup_insert_ne by done. intros Hl. right. by eapply Hold. }
    destruct (tworker c); first [exact I | exact (Hd I7)].
  - rewrite insert_item_perm, <- Permutation_middle. constructor; [|done].
    intros _. simpl. rewrite list_fmap_compose. tauto.
Qed.

Lemma cancel_inv t c : timers_inv c -> timers_inv (cancel t c).
Proof.
  intros Hi. unfold cancel. destruct (valid_ c !! t) as [b|] eqn:Ht; [|done].
  destruct Hi as [I1 I2 I3 I4 I5 I6 I7 I8 I9 I10 I11].
  split; unfold held in *; simpl; try done.
  - intros it Hit. destruct (decide (t = tok it)) as [<-|Hne]; [by rewrite lookup_insert_eq|].
    rewrite lookup_insert_ne by done. auto.
  - intros t' b'. destruct (decide (t = t')) as [->|Hne]; [by eauto|].
    rewrite lookup_insert_ne by done. eauto.
  - assert (Hd : (forall t b, valid_ c !! t = Some b ->
        t ∈ tok <$> hand (tworker c) ++ items_ c) ->
      forall t' b, <[t := false]> (valid_ c) !! t' = Some b ->
      t' ∈ tok <$> hand (tworker c) ++ items_ c).
    { intros Hold t' b'. destruct (decide (t = t')) as [->|Hne]; [by eauto|].
      rewrite lookup_insert_ne by done. eauto. }
    destruct (tworker c); first [exact I | exact (Hd I7)].
Qed.

Lemma run_head_inv c : timers_inv c -> tworker c = TWait -> timers_inv (run_head c).
Proof.
  intros [I1 I2 I3 I4 I5 I6 I7 I8 I9 I10 I11] Hw. unfold run_head, held in *.
  rewrite Hw in *. simpl in *.
  destruct (stopping_ c); [by split|].
  destruct (items_ c) eqn:Hi; split; unfold held; simpl; rewrite ?Hw, ?Hi; simpl; first [done | lia].
Qed.

Lemma run_scan_inv now c :
  timers_inv c -> tworker c = TScan now -> timers_inv (run_scan now c).
Proof.
  intros [I1 I2 I3 I4 I5 I6 I7 I8 I9 I10 I11] Hw. unfold run_scan, held in *.
  rewrite Hw in *. simpl in *.
  destruct (items_ c) as [|it rest] eqn:Hi; [split; unfold held; simpl; rewrite ?Hi; done|].
  destruct (decide _) as [Hd|Hd]; [|split; unfold held; simpl; rewrite ?Hi; done].
  apply StronglySorted_inv in I4 as [I4 _].
  destruct (alive _ _).
  - split; unfold held; simpl; try done.
    intros x Hx. apply I5. by right.
  - apply Forall_cons_1 in I2 as [_ I2]. apply NoDup_cons in I3 as [Hni I3].
    apply Forall_cons_1 in I11 as [_ I11].
    split; unfold held; simpl; rewrite ?Hw; simpl; try done.
    + intros x Hx. rewrite lookup_delete_ne; [apply I5; by right|].
      intros Heq. apply Hni. rewrite Heq. by apply list_elem_of_fmap_2.
    + intros t b [_ Hl]%lookup_delete_Some. by eapply I6.
    + intros t b [Hne Hl]%lookup_delete_Some.
      assert (Ht : t ∈ tok it :: (tok <$> rest)) by by eapply I7.
      apply elem_of_cons in Ht as [->|Ht]; done.
Qed.

Lemma run_call_inv it now c :
  timers_inv c -> tworker c = TCall it now -> timers_inv (run_call it now c).
Proof.
  intros [I1 I2 I3 I4 I5 I6 I7 I8 I9 I10 I11] Hw. unfold run_call, held in *.
  rewrite Hw in *. simpl in *. apply NoDup_cons in I3 as [Hni I3'].
  apply Forall_cons_1 in I2 as [Hr I2']. apply Forall_cons_1 in I11 as [Hu I11].
  split; unfold held; simpl; try done.
  - constructor; [done|]. rewrite fmap_app, (assoc_L (++)), Forall_app. split; [done|].
    by apply Forall_singleton.
  - by constructor.
  - apply Forall_app. split; [done|]. constructor; [simpl; lia|done].
  - rewrite filter_app, fmap_app. apply NoDup_app. split; [done|].
    destruct (decide (period it <= 0)) as [Hp|Hp].
    + rewrite filter_cons_True by done. simpl. split; [|apply NoDup_singleton].
      intros t Ht ->%list_elem_of_singleton. apply (Hu Hp).
      apply list_elem_of_fmap in Ht as (x & -> & Hx).
      apply list_elem_of_filter in Hx as [_ Hx]. by apply list_elem_of_fmap_2.
    + rewrite filter_cons_False by done. split; [set_solver|constructor].
  - rewrite Forall_forall in *. intros x Hx Hp. rewrite fmap_app, elem_of_app. simpl.
    intros [Hin|Hin%list_elem_of_singleton]; [by apply (I11 x Hx Hp)|].
    apply Hni. rewrite <- Hin. by apply list_elem_of_fmap_2.
Qed.

Lemma run_back_inv it now c :
  timers_inv c -> tworker c = TBack it now -> timers_inv (run_back it now c).
Proof.
  intros [I1 I2 I3 I4 I5 I6 I7 I8 I9 I10 I11] Hw. unfold run_back, held in *.
  rewrite Hw in *. simpl in *. apply NoDup_cons in I3 as [Hni I3].
  apply Forall_cons_1 in I2 as [Hr I2].
  destruct (stopping_ c); [by split|].
  destruct (bool_decide (0 < period it)) eqn:Hp, (alive (tok it) c) eqn:Ha; simpl.
  1: { apply bool_decide_eq_true in Hp. set (it' := mkItem _ _ _ _).
    split; unfold held; simpl; try done.
    - rewrite insert_item_perm. simpl. by constructor.
    - rewrite insert_item_perm. simpl. by constructor.
    - by apply insert_item_sorted.
    - intros x [->|Hx]%insert_item_elem; [|by apply I5].
      simpl. unfold alive in Ha. by destruct (valid_ c !! tok it).
    - intros t b Hl. rewrite insert_item_perm. simpl. by eapply I7.
    - lia.
    - rewrite insert_item_perm. constructor; [|done]. intros Hp'. simpl in Hp'. lia. }
  all: split; unfold held; simpl; try done; try lia.
  all: try (intros x Hx; rewrite lookup_delete_ne; [by apply I5|];
    intros Heq; apply Hni; rewrite Heq; by apply list_elem_of_fmap_2).
  all: try (intros t b [_ Hl]%lookup_delete_Some; by eapply I6).
  all: intros t b [Hne Hl]%lookup_delete_Some;
    (assert (Ht : t ∈ tok it :: (tok <$> items_ c)) by by eapply I7);
    apply elem_of_cons in Ht as [->|Ht]; done.
Qed.

Lemma timer_step_inv a c :
  timers_inv c -> issued (timer_step a c) < token_modulus -> timers_inv (timer_step a c).
Proof.
  intros Hi Hlt. destruct a as [f first per|t|n| |].
  - by apply schedule_inv.
  - by apply cancel_inv.
  - destruct Hi as [I1 I2 I3 I4 I5 I6 I7 I8 I9 I10 I11]. split; try done. simpl.
    destruct (tworker c); simpl in *; lia.
  - by destruct Hi.
  - simpl. destruct (tworker c) eqn:Hw;
      auto using run_head_inv, run_scan_inv, run_call_inv, run_back_inv.
Qed.

Lemma issued_mono a c : issued c <= issued (timer_step a c).
Proof.
  destruct a; simpl; try lia.
  - unfold cancel. destruct (valid_ c !! t); simpl; lia.
  - destruct (tworker c) as [|now|it now|it now|];
      unfold run_head, run_scan, run_back; simpl; try lia; repeat case_goal; simpl; lia.
Qed.

Lemma issued_mono_run l c : issued c <= issued (run_timers l c).
Proof.
  revert c. induction l as [|a l IH]; intros c; simpl; [lia|].
  etransitivity; [apply issued_mono|apply IH].
Qed.

Lemma run_timers_inv l c :
  timers_inv c -> issued (run_timers l c) < token_modulus -> timers_inv (run_timers l c).
Proof.
  revert c. induction l as [|a l IH]; intros c Hi Hlt; simpl; [done|].
  apply IH; [|done]. apply timer_step_inv; [done|].
  pose proof (issued_mono_run l (timer_step a c)). simpl in Hlt. lia.
Qed.

(** ** Cancellation *)

(** A token that can never fire again. *)
Definition dead (t : Z) (c : timers) : Prop :=
  t <= next_ c /\ alive t c = false /\
  match tworker c with TCall it _ => tok it <> t | _ => True end.

(** The calls made on behalf of a token. *)
Definition calls_of (t : Z) (c : timers) : list (Item * Z) :=
  filter (fun p => tok p.1 = t) (fired c).

Lemma alive_erase t t' (m : gmap Z bool) :
  default false (m !! t) = false -> default false (delete t' m !! t) = false.
Proof.
  intros Ha. destruct (decide (t' = t)) as [->|Hne]; [by rewrite lookup_delete_eq|].
  by rewrite lookup_delete_ne.
Qed.

Lemma dead_run t c :
  dead t c -> dead t (timer_step TRun c) /\ calls_of t (timer_step TRun c) = calls_of t c.
Proof.
  intros (Hn & Ha & Hw). simpl. unfold dead, calls_of, alive in *.
  destruct (tworker c) as [|now|it now|it now|] eqn:Hp.
  - unfold run_head. repeat case_goal; simpl; rewrite ?Hp; auto.
  - unfold run_scan, alive. destruct (items_ c) as [|it rest]; [by auto|].
    destruct (decide _); [|by auto]. simpl.
    destruct (default false (valid_ c !! tok it)) eqn:Hal; simpl; rewrite ?Hp;
      (split; [|done]); (split; [done|]); (split; [|try done]); auto using alive_erase.
    congruence.
  - simpl. split; [done|]. rewrite filter_app, filter_cons_False by done. apply app_nil_r.
  - unfold run_back, alive. repeat case_goal; simpl; auto using alive_erase.
  - rewrite Hp. auto.
Qed.

Lemma dead_step t a c :
  timers_inv c -> issued (timer_step a c) < token_modulus -> dead t c ->
  dead t (timer_step a c) /\ calls_of t (timer_step a c) = calls_of t c.
Proof.
  intros Hi Hlt Hd. destruct a as [f first per|t'|n| |]; [| | | |by apply dead_run];
    destruct Hd as (Hn & Ha & Hw); unfold dead, calls_of, alive in *; simpl; auto.
  - destruct (tinv_next c Hi) as [H1 H2]. simpl in Hlt.
    rewrite Z.mod_small by (unfold token_modulus in *; lia).
    split; [|done]. split; [lia|]. split; [|done]. rewrite lookup_insert_ne by lia. done.
  - unfold cancel. destruct (valid_ c !! t') eqn:Ht'; simpl; [|by auto].
    split; [|done]. split; [done|]. split; [|done].
    destruct (decide (t' = t)) as [->|Hne]; [by rewrite lookup_insert_eq|].
    by rewrite lookup_insert_ne.
Qed.

Lemma dead_forever t l c :
  timers_inv c -> issued (run_timers l c) < token_modulus -> dead t c ->
  calls_of t (run_timers l c) = calls_of t c.
Proof.
  revert c. induction l as [|a l IH]; intros c Hi Hlt Hd; simpl in *; [done|].
  assert (Hlt' : issued (timer_step a c) < token_modulus)
    by (pose proof (issued_mono_run l (timer_step a c)); lia).
  destruct (dead_step t a c) as [Hd' <-]; try done.
  apply IH; [by apply timer_step_inv|done..].
Qed.

Lemma cancel_dead t c :
  t <= next_ c -> match tworker c with TCall it _ => tok it <> t | _ => True end ->
  dead t (cancel t c).
Proof.
  intros Hn Hw. unfold dead, alive, cancel.
  destruct (valid_ c !! t) eqn:Ht; simpl; rewrite ?lookup_insert_eq, ?Ht; auto.
Qed.
End TimerService.

Arguments Item : clear implicits.
Arguments timers : clear implicits.
Arguments timer_action : clear implicits.

(** C7: timers fire neither early nor too often. Whatever the interleaving of
    [schedule], [cancel] and clock ticks with the worker (fewer than 2^64
    schedules), every call is made at or after the item's deadline, and a
    one-shot item is called at most once. *)
Theorem timers_sound {F} (t0 : Z) (l : list (timer_action F)) :
  issued (run_timers l (fresh_timers t0)) < token_modulus ->
  Forall (fun p => due p.1 <= p.2) (fired (run_timers l (fresh_timers t0))) /\
  NoDup ((tok ∘ fst) <$>
         filter (fun p => period p.1 <= 0) (fired (run_timers l (fresh_timers t0)))).
Proof.
  intros Hlt. assert (Hi := run_timers_inv l _ (fresh_inv t0) Hlt).
  split; [apply tinv_due|apply tinv_once]; done.
Qed.

(** The bookkeeping is exact. Until the worker has exited, [items_] is ordered
    by deadline and the tokens of [valid_] are exactly the tokens of the
    scheduled items and of the one being called, each held once: cancelled or
    finished timers leave nothing behind. *)
Theorem timers_bookkeeping {F} (t0 : Z) (l : list (timer_action F)) :
  issued (run_timers l (fresh_timers t0)) < token_modulus ->
  let c := run_timers l (fresh_timers t0) in
  StronglySorted item_le (items_ c) /\ NoDup (tok <$> held c) /\
  (forall it, it ∈ items_ c -> is_Some (valid_ c !! tok it)) /\
  (tworker c <> TExit -> forall t b, valid_ c !! t = Some b -> t ∈ tok <$> held c).
Proof.
  intros Hlt c. assert (Hi := run_timers_inv l _ (fresh_inv t0) Hlt). fold c in Hi.
  split; [by apply tinv_sorted|]. split; [by apply tinv_nodup|].
  split; [by apply tinv_valid|]. intros Hw.
  pose proof (tinv_dom c Hi) as Hd. destruct (tworker c); try done.
Qed.

(** Cancellation is final. Once [cancel] (or [disarm]) has returned for an
    issued token, the token's function is never called again, whatever happens
    afterwards, except for a call the worker had already committed to when the
    cancellation took the mutex. *)
Theorem cancel_final {F} (t0 t : Z) (before after : list (timer_action F)) :
  let c := run_timers before (fresh_timers t0) in
  issued (run_timers after (cancel t c)) < token_modulus ->
  t <= next_ c ->
  match tworker c with TCall it _ => tok it <> t | _ => True end ->
  calls_of t (run_timers after (cancel t c)) = calls_of t (cancel t c).
Proof.
  intros c Hlt Hn Hw.
  assert (Hi : timers_inv (cancel t c)).
  { apply (run_timers_inv [TCancel t] c); [apply run_timers_inv; [apply fresh_inv|]|].
    - assert (Hc : issued (cancel t c) = issued c) by (unfold cancel; by case_goal).
      pose proof (issued_mono_run after (cancel t c)). fold c. lia.
    - pose proof (issued_mono_run after (cancel t c)). simpl. lia. }
  by apply dead_forever, cancel_dead.
Qed.

(** *** Witnesses *)

Module TimerDemo.
(** Two timers, one of them periodic; the first is cancelled. *)
Definition script : list (timer_action string) :=
  [TSchedule "a" 5 0; TSchedule "b" 3 10; TTick 4; TRun; TRun; TRun; TRun; TRun; TRun; TCancel 1].

Definition later : list (timer_action string) := [TTick 50; TRun; TRun; TRun; TRun; TRun; TRun; TRun].
End TimerDemo.

Lemma timers_sound_witness :
  Forall (fun p => due p.1 <= p.2) (fired (run_timers TimerDemo.script (fresh_timers 0))) /\
  NoDup ((tok ∘ fst) <$>
    filter (fun p => period p.1 <= 0) (fired (run_timers TimerDemo.script (fresh_timers 0)))).
Proof. apply (timers_sound 0 TimerDemo.script). vm_compute. reflexivity. Defined.

Lemma timers_bookkeeping_witness :
  let c := run_timers TimerDemo.script (fresh_timers 0) in
  StronglySorted item_le (items_ c) /\ NoDup (tok <$> held c) /\
  (forall it, it ∈ items_ c -> is_Some (valid_ c !! tok it)) /\
  (tworker c <> TExit -> forall t b, valid_ c !! t = Some b -> t ∈ tok <$> held c).
Proof. apply (timers_bookkeeping 0 TimerDemo.script). vm_compute. reflexivity. Defined.

Lemma cancel_final_witness :
  let c := run_timers TimerDemo.script (fresh_timers 0) in
  calls_of 2 (run_timers TimerDemo.later (cancel 2 c)) = calls_of 2 (cancel 2 c).
Proof.
  apply (cancel_final 0 2 TimerDemo.script TimerDemo.later).
  - vm_compute. reflexivity.
  - vm_compute. discriminate.
  - vm_compute. exact I.
Defined.

(** The call [cancel] cannot recall: the worker released the mutex to call the
    function, [disarm] returned, and only then the function runs. *)
Example disarm_does_not_wait :
  let c := run_timers [TSchedule "a" 5 0; TTick 9; TRun; TRun] (fresh_timers 0) in
  let c' := snd (disarm (Some 1) c) in
  fired c' = [] /\ fired (run_timers [TRun] c') = [(mkItem 5 "a" 0 1, 9)].
Proof. split; reflexivity. Qed.
