(* ===== verification/Spy.v ===== *)
(** * Instrumentation (chart/spy.hpp, chart/spy_bootstrap.hpp, chart/instrument.hpp)

    [Spy] keeps two bounded rings of text lines (handler visits and state
    transitions) and the lines of the current run-to-completion step;
    [SpyInstrument] feeds it from the probes of an [ActiveObject];
    [init_from_env] picks the verbosity.  The timestamp [snprintf] prints in
    front of a line is an argument [prefix]. *)

From S2P Require Import Prelude Hsm.

Inductive SpyMode := Off | On | Verbose.

#[export] Instance SpyMode_eq_dec : EqDecision SpyMode.
Proof. solve_decision. Defined.

(** The enumerator's integer value. *)
Definition mode_level (m : SpyMode) : nat :=
  match m with Off => 0 | On => 1 | Verbose => 2 end.

(** The fields of [Spy]; [live_out] and [live_trace_out] stand for what was
    written to the tee streams when they are set. *)
Record Spy := mkSpy {
  mode_ : SpyMode;
  lines_ : list string;
  max_ : nat;
  live_ : bool;
  traces_ : list string;
  max_trace_ : nat;
  live_trace_ : bool;
  rtc_ : list string;
  live_out : list string;
  live_trace_out : list string }.

Definition spy0 : Spy := mkSpy Off [] 4096 false [] 4096 false [] [] [].

(** [while (l.size() > n) l.pop_front()]. *)
Fixpoint pop_front_while (n : nat) (l : list string) : list string :=
  match l with
  | [] => []
  | _ :: l' => if decide (n < length l) then pop_front_while n l' else l
  end.

Definition max_size (n : nat) (s : Spy) : Spy :=
  mkSpy (mode_ s) (pop_front_while n (lines_ s)) n (live_ s) (traces_ s) (max_trace_ s)
    (live_trace_ s) (rtc_ s) (live_out s) (live_trace_out s).

Definition max_trace_size (n : nat) (s : Spy) : Spy :=
  mkSpy (mode_ s) (lines_ s) (max_ s) (live_ s) (pop_front_while n (traces_ s)) n
    (live_trace_ s) (rtc_ s) (live_out s) (live_trace_out s).

Definition set_mode (m : SpyMode) (s : Spy) : Spy :=
  let s1 := mkSpy m (lines_ s) (max_ s) (live_ s) (traces_ s) (max_trace_ s)
              (live_trace_ s) (rtc_ s) (live_out s) (live_trace_out s) in
  if decide (m = Verbose) then max_size 16384 s1 else s1.

Definition enable (on : bool) : Spy -> Spy := set_mode (if on then On else Off).
Definition enabled (s : Spy) : bool := bool_decide (mode_ s <> Off).

Definition live_sink (on : bool) (s : Spy) : Spy :=
  mkSpy (mode_ s) (lines_ s) (max_ s) on (traces_ s) (max_trace_ s)
    (live_trace_ s) (rtc_ s) (live_out s) (live_trace_out s).
Definition live_trace_sink (on : bool) (s : Spy) : Spy :=
  mkSpy (mode_ s) (lines_ s) (max_ s) (live_ s) (traces_ s) (max_trace_ s)
    on (rtc_ s) (live_out s) (live_trace_out s).

Definition newline : string := String (Ascii.ascii_of_nat 10) EmptyString.

(** The common body of [record], [record_dispatch] and [scribble] (they differ
    in the order of the two appends to different buffers only). *)
Definition record_line (full : string) (s : Spy) : Spy :=
  mkSpy (mode_ s) (pop_front_while (max_ s) (lines_ s ++ [full])) (max_ s) (live_ s)
    (traces_ s) (max_trace_ s) (live_trace_ s) (rtc_ s ++ [full])
    (if live_ s then live_out s ++ [full +:+ newline] else live_out s) (live_trace_out s).

Definition record (prefix line : string) (s : Spy) : Spy :=
  if decide (mode_level (mode_ s) < mode_level Verbose) then s
  else record_line (prefix +:+ line) s.

Definition record_structured (prefix ao_name signal state : string) (hook : bool) : Spy -> Spy :=
  let line := "[" +:+ ao_name +:+ "] " +:+ signal +:+ ":" +:+ state in
  record prefix (if hook then line +:+ ":HOOK" else line).

Definition record_dispatch (prefix ao_name signal state : string) (s : Spy) : Spy :=
  if decide (mode_level (mode_ s) < mode_level Verbose) then s
  else record_line (prefix +:+ "[" +:+ ao_name +:+ "] " +:+ signal +:+ ":" +:+ state) s.

Definition scribble (prefix line : string) (s : Spy) : Spy :=
  if decide (mode_level (mode_ s) < mode_level Verbose) then s
  else record_line (prefix +:+ line) s.

Definition record_trace (prefix ao_name sig from to : string) (s : Spy) : Spy :=
  if decide (mode_level (mode_ s) < mode_level On) then s
  else
    let line := prefix +:+ "[" +:+ ao_name +:+ "] e->" +:+ sig +:+ "() " +:+ from +:+ "->" +:+ to in
    mkSpy (mode_ s) (lines_ s) (max_ s) (live_ s)
      (pop_front_while (max_trace_ s) (traces_ s ++ [line])) (max_trace_ s) (live_trace_ s)
      (rtc_ s) (live_out s)
      (if live_trace_ s then live_trace_out s ++ [line +:+ newline] else live_trace_out s).

Definition rtc_lines (s : Spy) : list string := rtc_ s.
Definition rtc_size (s : Spy) : nat := length (rtc_ s).
Definition clear_rtc (s : Spy) : Spy :=
  mkSpy (mode_ s) (lines_ s) (max_ s) (live_ s) (traces_ s) (max_trace_ s)
    (live_trace_ s) [] (live_out s) (live_trace_out s).
Definition clear (s : Spy) : Spy :=
  mkSpy (mode_ s) [] (max_ s) (live_ s) (traces_ s) (max_trace_ s)
    (live_trace_ s) (rtc_ s) (live_out s) (live_trace_out s).
Definition clear_trace (s : Spy) : Spy :=
  mkSpy (mode_ s) (lines_ s) (max_ s) (live_ s) [] (max_trace_ s)
    (live_trace_ s) (rtc_ s) (live_out s) (live_trace_out s).
Definition dump (s : Spy) : list string := (fun l => l +:+ newline) <$> lines_ s.
Definition dump_trace (s : Spy) : list string := (fun l => l +:+ newline) <$> traces_ s.
Definition size (s : Spy) : nat := length (lines_ s).
Definition trace_size (s : Spy) : nat := length (traces_ s).

(** ** State names and the adapter *)

Section SpyInstrument.
Context {St : Type} `{EqDecision St}.

(** [StateNames::map_] as an association list, newest registration first. *)
Definition reg (fn : StateFn St) (name : string) (m : list (StateFn St * string)) :=
  (fn, name) :: m.

Fixpoint assoc_name (fn : StateFn St) (m : list (StateFn St * string)) : option string :=
  match m with
  | [] => None
  | (f, n) :: m' => if decide (f = fn) then Some n else assoc_name fn m'
  end.

Definition lookup_name (m : list (StateFn St * string)) (fn : StateFn St) : string :=
  match fn with
  | top => "top"
  | _ => default "<unknown>" (assoc_name fn m)
  end.

Context (names : list (StateFn St * string)) (name_ : string).

Definition on_transition (prefix sig : string) (from to : StateFn St) : Spy -> Spy :=
  record_trace prefix name_ sig (lookup_name names from) (lookup_name names to).

(** The switch on [DispatchEvent] in [ActiveObject::start_at], with
    [on_visit], [on_hook] and [on_ignored]. *)
Definition on_dispatch (prefix sig : string) (state : StateFn St) (kind : DispatchEvent) :
    Spy -> Spy :=
  match kind with
  | HandlerVisit => record_dispatch prefix name_ sig (lookup_name names state)
  | Hook => record_structured prefix name_ sig (lookup_name names state) true
  | Ignored => record_structured prefix name_ (sig +:+ ":IGNORED") (lookup_name names state) false
  end.
End SpyInstrument.

(** ** spy_bootstrap.hpp *)

Definition to_lower (a : Ascii.ascii) : Ascii.ascii :=
  let n := Ascii.nat_of_ascii a in
  if decide (65 <= n <= 90) then Ascii.ascii_of_nat (n + 32) else a.

(** [iequals]: only the left operand is folded to lower case. *)
Fixpoint iequals (s lit : string) : bool :=
  match s, lit with
  | EmptyString, EmptyString => true
  | String a s', String b lit' => bool_decide (to_lower a = b) && iequals s' lit'
  | _, _ => false
  end.

Definition parse_mode (s : string) : SpyMode :=
  if iequals s "on" then On else if iequals s "verbose" then Verbose else Off.

(** The part of a string before and after the first [c] ([None]: [npos]). *)
Fixpoint split_at (c : Ascii.ascii) (s : string) : option (string * string) :=
  match s with
  | EmptyString => None
  | String a s' =>
      if decide (a = c) then Some (EmptyString, s')
      else '(l, r) ← split_at c s'; Some (String a l, r)
  end.

Definition is_ws (a : Ascii.ascii) : bool :=
  bool_decide (Ascii.nat_of_ascii a ∈ [32; 9; 13; 10]).

Fixpoint ltrim (s : string) : string :=
  match s with
  | EmptyString => EmptyString
  | String a s' => if is_ws a then ltrim s' else s
  end.

Fixpoint rtrim (s : string) : string :=
  match s with
  | EmptyString => EmptyString
  | String a s' =>
      match rtrim s' with
      | EmptyString => if is_ws a then EmptyString else String a EmptyString
      | r => String a r
      end
  end.

(** [trim]: from the first to the last character that is not white space. *)
Definition trim (s : string) : string := rtrim (ltrim s).

Definition hash_char : Ascii.ascii := Ascii.ascii_of_nat 35.
Definition eq_char : Ascii.ascii := Ascii.ascii_of_nat 61.

(** [conf_value] on the lines of the file ([None]: no path or key). *)
Fixpoint conf_value (file : list string) (key : string) : string :=
  match file with
  | [] => ""
  | line :: rest =>
      let line' := match split_at hash_char line with Some (l, _) => l | None => line end in
      match split_at eq_char line' with
      | None => conf_value rest key
      | Some (k, v) => if decide (trim k = key) then trim v else conf_value rest key
      end
  end.

(** [init_from_env]: [env] is the variable's value; [conf] the conf file's
    lines and key when both pointers are given.  [once] is the [once_flag]. *)
Definition init_from_env (env : option string) (conf : option (list string * string))
    (st : bool * Spy) : bool * Spy :=
  let '(once, s) := st in
  if once then (true, s)
  else
    let setting := match env with Some v => v | None => "" end in
    let setting := if decide (setting = "") then
                     match conf with Some (file, key) => conf_value file key | None => "" end
                   else setting in
    (true, set_mode (parse_mode setting) s).

(** ** Properties *)

Inductive spy_op :=
  | OSetMode (m : SpyMode) | OEnable (b : bool) | OLive (b : bool) | OLiveTrace (b : bool)
  | ORecord (prefix line : string)
  | OStructured (prefix ao sig state : string) (hook : bool)
  | ODispatch (prefix ao sig state : string)
  | OScribble (prefix line : string)
  | OTrace (prefix ao sig from to : string)
  | OClearRtc | OClear | OClearTrace | OMax (n : nat) | OMaxTrace (n : nat).

Definition spy_apply (o : spy_op) : Spy -> Spy :=
  match o with
  | OSetMode m => set_mode m | OEnable b => enable b
  | OLive b => live_sink b | OLiveTrace b => live_trace_sink b
  | ORecord p l => record p l | OStructured p a g x h => record_structured p a g x h
  | ODispatch p a g x => record_dispatch p a g x | OScribble p l => scribble p l
  | OTrace p a g f t => record_trace p a g f t
  | OClearRtc => clear_rtc | OClear => clear | OClearTrace => clear_trace
  | OMax n => max_size n | OMaxTrace n => max_trace_size n
  end.

Definition spy_run (l : list spy_op) (s : Spy) : Spy := foldl (fun s o => spy_apply o s) s l.

(** What popping from the front leaves: the newest [n] lines. *)
Lemma pop_front_while_drop n l : pop_front_while n l = drop (length l - n) l.
Proof.
  induction l as [|x l IH]; simpl; [done|].
  destruct (decide _) as [Hlt|Hge].
  - rewrite IH. replace (S (length l) - n) with (S (length l - n)) by lia. done.
  - by replace (S (length l) - n) with 0 by lia.
Qed.

Lemma pop_front_while_length n l : length (pop_front_while n l) <= n.
Proof. rewrite pop_front_while_drop, length_drop. lia. Qed.

Definition spy_ok (s : Spy) : Prop :=
  length (lines_ s) <= max_ s /\ length (traces_ s) <= max_trace_ s.

Lemma spy_apply_ok o s : spy_ok s -> spy_ok (spy_apply o s).
Proof.
  intros [H1 H2].
  destruct o; simpl; unfold enable, set_mode, record_structured, record, record_dispatch,
    scribble, record_trace; repeat case_decide; split; simpl;
    auto using pop_front_while_length with lia.
Qed.

(** The rings are bounded and keep the newest lines. After any sequence of
    operations neither ring is longer than its limit, and a record in Verbose
    mode leaves exactly the newest [max_] lines, the new one last. *)
Theorem spy_rings (l : list spy_op) (prefix line : string) :
  let s := spy_run l spy0 in
  spy_ok s /\
  (mode_ s = Verbose ->
   lines_ (record prefix line s) =
     drop (length (lines_ s) + 1 - max_ s) (lines_ s ++ [prefix +:+ line])).
Proof.
  simpl. split.
  - assert (Hg : forall s, spy_ok s -> spy_ok (spy_run l s)).
    { induction l as [|o l IH]; intros s Hs; simpl; [done|]. by apply IH, spy_apply_ok. }
    apply Hg. split; simpl; lia.
  - intros Hv. unfold record. rewrite Hv. rewrite decide_False by (simpl; lia).
    simpl. by rewrite pop_front_while_drop, length_app.
Qed.

(** The per-step buffer has no limit of its own: without [clear_rtc] it keeps
    every line ever recorded. *)
Lemma rtc_unbounded (l : list (string * string)) (s : Spy) :
  mode_ s = Verbose ->
  rtc_size (foldl (fun s pl => record pl.1 pl.2 s) s l) = rtc_size s + length l.
Proof.
  revert s. induction l as [|[p x] l IH]; intros s Hv; simpl; [lia|].
  rewrite IH; unfold record; rewrite Hv; simpl; [|done].
  unfold rtc_size. simpl. rewrite length_app. simpl. lia.
Qed.

(** test_spy_bootstrap: values, comments and white space. *)
Example parse_mode_cases :
  parse_mode <$> ["on"; "VERBOSE"; "Off"; "1"; ""] = [On; Verbose; Off; Off; Off].
Proof. reflexivity. Qed.

Example conf_value_cases :
  conf_value ["# LOG_SPY=on"; " LOG_SPY =  verbose # comment"; "LOG_SPY=on"] "LOG_SPY" = "verbose".
Proof. reflexivity. Qed.

Lemma spy_rings_witness :
  let s := spy_run [OSetMode Verbose; OMax 1; ORecord "[0] " "a"] spy0 in
  spy_ok s /\
  (mode_ s = Verbose ->
   lines_ (record "[1] " "b" s) =
     drop (length (lines_ s) + 1 - max_ s) (lines_ s ++ ["[1] " +:+ "b"])).
Proof. apply (spy_rings [OSetMode Verbose; OMax 1; ORecord "[0] " "a"] "[1] " "b"). Defined.
