(* ===== verification/Log.v ===== *)
(** * Logging (common/Log.cpp)

    What decides whether and where a message is written (the environment, the
    configuration file), the message itself, and the buffer that turns the Spy's live
    output into one entry per line (texts without NUL).  The time and the thread's number, as printed, are
    arguments.  The configuration file has a second reader, [conf_value] of Spy.v. *)

From S2P Require Import Prelude Spy.

Local Open Scope Z_scope.

Inductive LogLevel := DBG | INFO | WARN | ERR.
(** The enumerator's integer value. *)
Definition level_int (l : LogLevel) : Z := match l with DBG => 0 | INFO => 1 | WARN => 2 | ERR => 3 end.

(** syslog.h *)
Definition LOG_ERR : Z := 3.
Definition LOG_WARNING : Z := 4.
Definition LOG_INFO : Z := 6.
Definition LOG_DEBUG : Z := 7.

(** ** Settings *)

(** A line of the file as a key and a value; [None]: no ['=']. *)
Definition conf_entry (line : string) : option (string * string) :=
  let line := match split_at hash_char line with Some (l, _) => l | None => line end in
  (fun '(k, v) => (trim k, trim v)) <$> split_at eq_char line.

Definition conf_file (file : list string) : gmap string string :=
  foldl (fun m line =>
    match conf_entry line with
    | Some (k, v) => if decide (k = "") then m else <[k := v]> m
    | None => m
    end) ∅ file.

Definition setting (getenv : string -> option string) (file : list string) (env_name conf_key : string) : option string :=
  match getenv env_name with
  | Some v => if decide (v = "") then
                match conf_file file !! conf_key with Some v => if decide (v = "") then None else Some v | None => None end
              else Some v
  | None => match conf_file file !! conf_key with Some v => if decide (v = "") then None else Some v | None => None end
  end.

(** [fopen]: whether the path can be opened for appending. *)
Definition g_log_file (fopen : string -> bool) (getenv : string -> option string) (file : list string) : bool :=
  match setting getenv file "SML_PA_LOG_FILE" "LOG_FILE" with Some path => fopen path | None => false end.

Definition g_log_level (getenv : string -> option string) (file : list string) : LogLevel :=
  match setting getenv file "SML_PA_LOG_LEVEL" "LOG_LEVEL" with
  | None => INFO
  | Some v => if decide (v = "DEBUG") then DBG else if decide (v = "WARN") then WARN
              else if decide (v = "ERROR") then ERR else INFO
  end.

(** ** Messages *)

Inductive log_effect := Syslog (priority : Z) (text : string) | FileLine (text : string).

Definition to_syslog_priority (l : LogLevel) : Z :=
  match l with DBG => LOG_DEBUG | INFO => LOG_INFO | WARN => LOG_WARNING | ERR => LOG_ERR end.

Definition slash : Ascii.ascii := Ascii.ascii_of_nat 47.
(** What follows the last slash. *)
Fixpoint after_last (c : Ascii.ascii) (s : string) : option string :=
  match s with
  | EmptyString => None
  | String a s' => match after_last c s' with Some r => Some r | None => if decide (a = c) then Some s' else None end
  end.
Definition basename_ (p : string) : string := default p (after_last slash p).

Definition tag (l : LogLevel) : string := match l with DBG => "DBG" | INFO => "INF" | WARN => "WRN" | ERR => "ERR" end.

(** [snprintf] into [n] bytes. *)
Definition bounded (n : nat) (s : string) : string := String.substring 0 (n - 1) s.

(** [now] and [tid] as ["%10.3f"] and ["%-6d"] print them; [line] as ["%d"] does;
    [text] what the format gives. *)
Definition log_impl (threshold : LogLevel) (to_file : bool) (now tid : string)
    (level : LogLevel) (file line text : string) : list log_effect :=
  if level_int level <? level_int threshold then []
  else
    let body := bounded 1024 text in
    let msg := bounded 1280 ("[sml-pa " +:+ tag level +:+ " " +:+ now +:+ " tid=" +:+ tid +:+ "] " +:+
                             basename_ file +:+ ":" +:+ line +:+ " " +:+ body) in
    Syslog (to_syslog_priority level) msg :: (if to_file then [FileLine msg] else []).

(** ** The Spy's live output *)

Definition newline : Ascii.ascii := Ascii.ascii_of_nat 10.

(** [SpySyslogBuf]: what it has of the line so far, and the entries it made. *)
Record SpySyslogBuf := mkSpyBuf { buf_ : string; entries : list log_effect }.

Definition overflow (to_file : bool) (prefix_ : string) (c : Ascii.ascii) (b : SpySyslogBuf) : SpySyslogBuf :=
  if decide (c = newline) then
    if decide (buf_ b = "") then b
    else let text := prefix_ +:+ " " +:+ buf_ b in
         mkSpyBuf "" (entries b ++ Syslog LOG_DEBUG text :: (if to_file then [FileLine text] else []))
  else mkSpyBuf (buf_ b +:+ String c "") (entries b).

(** The stream writes character by character. *)
Fixpoint write (to_file : bool) (prefix_ : string) (s : string) (b : SpySyslogBuf) : SpySyslogBuf :=
  match s with EmptyString => b | String c s => write to_file prefix_ s (overflow to_file prefix_ c b) end.

(** ** Correctness *)

(** The last entry with the key counts; an entry without a key does not. *)
Lemma conf_file_last file key :
  key <> "" ->
  conf_file file !! key = snd <$> last (filter (fun kv => fst kv = key) (omap conf_entry file)).
Proof.
  intros Hkey. unfold conf_file. induction file as [|line file IH] using rev_ind; [done|].
  rewrite foldl_app, omap_app, filter_app. cbn [foldl].
  replace (omap conf_entry [line]) with (match conf_entry line with Some kv => [kv] | None => [] end) by (simpl; by destruct (conf_entry line)).
  destruct (conf_entry line) as [[k v]|]; [|by rewrite app_nil_r].
  destruct (decide (k = "")) as [->|Hk]; [|destruct (decide (k = key)) as [->|Hne]].
  - rewrite filter_cons_False by (simpl; congruence). change (filter _ []) with (@nil (string * string)). by rewrite app_nil_r.
  - rewrite lookup_insert_eq, filter_cons_True by done. change (filter _ []) with (@nil (string * string)). by rewrite last_snoc.
  - rewrite lookup_insert_ne, filter_cons_False by done. change (filter _ []) with (@nil (string * string)). by rewrite app_nil_r.
Qed.

(** The Spy's reader takes the first. *)
Lemma conf_value_first file key :
  conf_value file key = from_option snd "" (head (filter (fun kv => fst kv = key) (omap conf_entry file))).
Proof.
  induction file as [|line file IH]; [done|]. simpl. unfold conf_entry at 1.
  destruct (split_at eq_char _) as [[k v]|]; simpl; [|done].
  destruct (decide (trim k = key)) as [Hk|Hk]; [by rewrite filter_cons_True|by rewrite filter_cons_False].
Qed.

(** The two readers agree on a file that gives each key once. *)
Lemma conf_readers_agree file key :
  key <> "" -> NoDup (fst <$> omap conf_entry file) ->
  conf_value file key = default "" (conf_file file !! key).
Proof.
  intros Hkey Hnd. rewrite conf_file_last, conf_value_first by done.
  assert (Hone : (length (filter (fun kv => fst kv = key) (omap conf_entry file)) <= 1)%nat).
  { revert Hnd. generalize (omap conf_entry file). intros l. induction l as [|[k v] l IH]; simpl; [lia|].
    intros [Hk Hl]%NoDup_cons. destruct (decide (k = key)) as [->|Hne].
    - rewrite filter_cons_True by done. simpl.
      destruct (filter (fun kv => fst kv = key) l) as [|[k' v'] l'] eqn:Hf; [simpl; lia|]. destruct Hk.
      assert (Hin : (k', v') ∈ filter (fun kv => fst kv = key) l) by (rewrite Hf; left).
      apply list_elem_of_filter in Hin as [Hk' Hin]. simpl in Hk'. subst. by apply (list_elem_of_fmap_2 fst) in Hin.
    - rewrite filter_cons_False by done. by apply IH. }
  by destruct (filter _ _) as [|? [|]]; simpl in Hone; [|done|lia].
Qed.

(** A message is written exactly when it is at least as severe as the threshold, once
    to the system's log, and cut to the buffer's size. *)
Lemma log_impl_writes threshold to_file now tid level file line text :
  log_impl threshold to_file now tid level file line text = [] <-> level_int level < level_int threshold.
Proof. unfold log_impl. destruct (level_int level <? level_int threshold) eqn:Hl; [by split; [lia|]|]. split; [done|lia]. Qed.

Lemma bounded_length n s : (0 < n)%nat -> (String.length (bounded n s) < n)%nat.
Proof.
  intros Hn. unfold bounded. assert (Hg : forall m s, (String.length (String.substring 0 m s) <= m)%nat); [|specialize (Hg (n - 1)%nat s); lia].
  clear. intros m. induction m as [|m IH]; intros [|a s]; simpl; [lia..|]. specialize (IH s). lia.
Qed.

(** The lines of a text, and what follows the last newline. *)
Fixpoint split_lines (s : string) : list string * string :=
  match s with
  | EmptyString => ([], "")
  | String c s =>
      let '(ls, rest) := split_lines s in
      if decide (c = newline) then ("" :: ls, rest)
      else match ls with l :: ls => (String c l :: ls, rest) | [] => ([], String c rest) end
  end.

(** What a line, begun with [b], becomes. *)
Definition begun (b : string) (x : list string * string) : list string * string :=
  match x with (l :: ls, rest) => ((b +:+ l) :: ls, rest) | ([], rest) => ([], b +:+ rest) end.

Definition line_entries (to_file : bool) (prefix_ : string) (l : string) : list log_effect :=
  if decide (l = "") then []
  else let text := prefix_ +:+ " " +:+ l in Syslog LOG_DEBUG text :: (if to_file then [FileLine text] else []).

(** One entry per line of the text that is not empty, whatever pieces it is written
    in; an unfinished line waits. *)
Lemma write_lines to_file prefix_ s b :
  write to_file prefix_ s b =
    let '(ls, rest) := begun (buf_ b) (split_lines s) in
    mkSpyBuf rest (entries b ++ (ls ≫= line_entries to_file prefix_)).
Proof.
  revert b. induction s as [|c s IH]; intros [u es]; simpl.
  { by rewrite string_app_nil, app_nil_r. }
  rewrite IH. unfold overflow. simpl. destruct (split_lines s) as [ls rest]. destruct (decide (c = newline)) as [->|Hc]; simpl.
  - rewrite string_app_nil. destruct (decide (u = "")) as [->|Hu]; simpl.
    + destruct ls as [|l ls]; simpl; [by rewrite !app_nil_r|done].
    + assert (He : line_entries to_file prefix_ u =
        let text := prefix_ +:+ " " +:+ u in Syslog LOG_DEBUG text :: (if to_file then [FileLine text] else []))
        by (unfold line_entries; by rewrite decide_False).
      simpl in He. rewrite He. destruct ls as [|l ls]; simpl; by rewrite <- (assoc_L (++)), ?app_nil_r.
  - destruct ls as [|l ls]; simpl; by rewrite string_app_assoc.
Qed.

(** Where a key is given twice, the threshold follows the last and the Spy's mode the
    first. *)
Example repeated_key :
  g_log_level (fun _ => None) ["LOG_LEVEL=DEBUG"; "LOG_LEVEL = ERROR # later"] = ERR /\
  conf_value ["LOG_SPY=on"; "LOG_SPY=off"] "LOG_SPY" = "on".
Proof. by vm_compute. Qed.

Example conf_readers_agree_here :
  conf_value ["# comment"; "LOG_SPY = verbose"; "LOG_LEVEL=WARN"] "LOG_SPY" =
    default "" (conf_file ["# comment"; "LOG_SPY = verbose"; "LOG_LEVEL=WARN"] !! "LOG_SPY").
Proof. apply conf_readers_agree; [done|]. apply (bool_decide_unpack _). vm_compute. exact I. Qed.

Example a_message :
  log_impl INFO true "     1.000" "42    " WARN "a/b/Bridge.cpp" "7" "connected rc=0" =
    [Syslog 4 "[sml-pa WRN      1.000 tid=42    ] Bridge.cpp:7 connected rc=0";
     FileLine "[sml-pa WRN      1.000 tid=42    ] Bridge.cpp:7 connected rc=0"].
Proof. by vm_compute. Qed.
