(* ===== verification/Json.v ===== *)
(** * The JSON library the wire code relies on

    The sources use nlohmann::json, which is not part of the repository.  It is
    a parameter of the models: a class [Json] with the operations the sources
    call and a class [JsonSpec] with the documented behaviour they rely on.
    [jval] at the end is a concrete implementation that satisfies it. *)

From S2P Require Import Prelude.

Local Open Scope Z_scope.

(** Two's-complement truncation of an integer to [w] bits. *)
Definition wrap (w : Z) (n : Z) : Z := (n + 2 ^ (w - 1)) mod 2 ^ w - 2 ^ (w - 1).

Definition is_int (n : Z) : Prop := - 2 ^ 31 <= n < 2 ^ 31.
Definition is_uint32 (n : Z) : Prop := 0 <= n < 2 ^ 32.
Definition in_i64 (n : Z) : Prop := - 2 ^ 63 <= n < 2 ^ 63.

Lemma wrap_small w n : 0 < w -> - 2 ^ (w - 1) <= n < 2 ^ (w - 1) -> wrap w n = n.
Proof.
  intros Hw Hn. unfold wrap. rewrite Z.mod_small; [lia|].
  replace (2 ^ w) with (2 * 2 ^ (w - 1)); [lia|].
  rewrite <- Z.pow_succ_r by lia. f_equal. lia.
Qed.

(** Wrapping only sees the low [w] bits. *)
Lemma wrap_shift w n k : wrap w (n + k * 2 ^ w) = wrap w n.
Proof.
  unfold wrap. replace (n + k * 2 ^ w + 2 ^ (w - 1)) with (n + 2 ^ (w - 1) + k * 2 ^ w) by lia.
  by rewrite Z_mod_plus_full.
Qed.

(** An [int] stored in an unsigned field of [w] bits. *)
Definition to_unsigned (w n : Z) : Z := n mod 2 ^ w.

(** A narrower unsigned field sees the low bits of the [int]. *)
Lemma to_unsigned_low w n : 0 < w <= 32 -> 0 <= n < 2 ^ w -> to_unsigned w (wrap 32 n) = n.
Proof.
  intros Hw Hn. unfold to_unsigned, wrap.
  assert (Hp : 2 ^ 32 = 2 ^ w * 2 ^ (32 - w)) by (rewrite <- Z.pow_add_r by lia; f_equal; lia).
  assert (Hw0 : 0 < 2 ^ w) by lia. assert (Hw1 : 0 < 2 ^ (32 - w)) by lia.
  rewrite (Z.mod_eq _ (2 ^ 32)) by lia.
  generalize ((n + 2 ^ (32 - 1)) / 2 ^ 32). intros q.
  replace (n + 2 ^ (32 - 1) - 2 ^ 32 * q - 2 ^ (32 - 1)) with (n + (- 2 ^ (32 - w) * q) * 2 ^ w).
  - rewrite Z_mod_plus_full. by apply Z.mod_small.
  - rewrite Hp. ring.
Qed.

Class Json (json : Type) := {
  is_object : json -> bool;
  is_string : json -> bool;
  is_number_integer : json -> bool;
  is_boolean : json -> bool;
  (** [j.find(key)] on an object *)
  jfind : string -> json -> option json;
  (** [j[key] = v] on an object *)
  jset : string -> json -> json -> json;
  jobject : json;                       (* [json::object()] *)
  of_string : string -> json;
  of_int : Z -> json;                   (* from [int] or [int64_t] *)
  of_bool : bool -> json;
  get_string : json -> string;          (* of a string *)
  get_i64 : json -> Z;                  (* of an integer *)
  get_int : json -> Z;                  (* [get<int>()] of an integer *)
  get_bool : json -> bool;              (* of a boolean *)
}.

Class JsonSpec (json : Type) `{Json json} : Prop := {
  jobject_is_object : is_object jobject = true;
  jobject_find k : jfind k jobject = None;
  jset_is_object k v j : is_object j = true -> is_object (jset k v j) = true;
  jset_find k k' v j :
    is_object j = true -> jfind k' (jset k v j) = if decide (k = k') then Some v else jfind k' j;
  of_string_is s : is_string (of_string s) = true;
  of_string_get s : get_string (of_string s) = s;
  of_int_is n : is_number_integer (of_int n) = true;
  of_int_get n : in_i64 n -> get_i64 (of_int n) = n;
  of_bool_is b : is_boolean (of_bool b) = true;
  of_bool_get b : get_bool (of_bool b) = b;
  (** [get<int>] of an integer is a [static_cast] of the stored value *)
  get_int_cast j : is_number_integer j = true -> get_int j = wrap 32 (get_i64 j);
}.

(** Conversions that may throw ([None]), and iteration. *)
Class JsonValues (json : Type) := {
  as_int : json -> option Z;            (* [get<int>()] of any value *)
  as_uint : json -> option Z;           (* [get<uint32_t>()] of any value *)
  as_ulong : json -> option Z;          (* [get<unsigned long>()] of any value *)
  as_bool : json -> option bool;        (* [get<bool>()] of any value *)
  elements : json -> list json;         (* what a range-for visits *)
  keys : json -> list string;           (* of an object, what [items()] visits *)
  jarray : json;                        (* [json::array()] *)
  is_array : json -> bool;
  of_array : list json -> json;         (* of a [std::vector] *)
}.

Class JsonValuesSpec (json : Type) `{Json json, JsonValues json} : Prop := {
  as_int_integer j : is_number_integer j = true -> as_int j = Some (get_int j);
  as_int_width j n : as_int j = Some n -> - 2 ^ 31 <= n < 2 ^ 31;
  as_uint_integer j :
    is_number_integer j = true -> as_uint j = Some (to_unsigned 32 (get_i64 j));
  as_uint_width j n : as_uint j = Some n -> 0 <= n < 2 ^ 32;
  as_ulong_integer j :
    is_number_integer j = true -> as_ulong j = Some (to_unsigned 64 (get_i64 j));
  as_ulong_width j n : as_ulong j = Some n -> 0 <= n < 2 ^ 64;
  as_bool_boolean j : is_boolean j = true -> as_bool j = Some (get_bool j);
  elements_jarray : elements jarray = [];
  keys_find k j : is_object j = true -> k ∈ keys j <-> is_Some (jfind k j);
  of_array_is l : is_array (of_array l) = true;
  of_array_elements l : elements (of_array l) = l;
}.

Section JsonOps.
Context {json : Type} `{Json json}.

Definition contains (k : string) (j : json) : bool := bool_decide (is_Some (jfind k j)).

(** [j.value(key, def)] with a string default: throws ([None]) when [j] is not
    an object or the member is not a string. *)
Definition value_string (k def : string) (j : json) : option string :=
  if is_object j then
    match jfind k j with
    | None => Some def
    | Some v => if is_string v then Some (get_string v) else None
    end
  else None.

(** [j.value(key, def)] with a default of another type, [get] being the
    conversion of a member that is present. *)
Definition value_as {A} (get : json -> option A) (k : string) (def : A) (j : json) : option A :=
  if is_object j then
    match jfind k j with
    | None => Some def
    | Some v => get v
    end
  else None.

Context `{JsonValues json}.

Definition value_int (k : string) (def : Z) (j : json) : option Z := value_as as_int k def j.
Definition value_uint (k : string) (def : Z) (j : json) : option Z := value_as as_uint k def j.
Definition value_ulong (k : string) (def : Z) (j : json) : option Z := value_as as_ulong k def j.
Definition value_bool (k : string) (def : bool) (j : json) : option bool :=
  value_as as_bool k def j.
Definition value_json (k : string) (def : json) (j : json) : option json :=
  value_as Some k def j.

(** [get<std::vector<int>>()], and [j.value(key, std::vector<int>{})]. *)
Definition as_ints (j : json) : option (list Z) :=
  if is_array j then mapM as_int (elements j) else None.
Definition value_ints (k : string) (j : json) : option (list Z) := value_as as_ints k [] j.

(** [j.empty()]. *)
Definition jempty (j : json) : bool := match elements j with [] => true | _ => false end.

(** The elements of an array member, each decoded. *)
Definition decode_list {A} (k : string) (decode : json -> option A) (d : json) : option (list A) :=
  l ← value_json k jarray d; mapM decode (elements l).

(** [j.at(key)]. *)
Definition jat (k : string) (j : json) : option json := if is_object j then jfind k j else None.

(** An object built member by member, [j[key] = v] in turn or from an
    initializer list; [opt_member]: a member set under a condition. *)
Definition jobj (ms : list (string * json)) : json :=
  fold_left (fun j m => jset (fst m) (snd m) j) ms jobject.
Definition opt_member (b : bool) (k : string) (v : json) : list (string * json) :=
  if b then [(k, v)] else [].

(** The value a member of such an object ends up with. *)
Fixpoint member (k : string) (ms : list (string * json)) : option json :=
  match ms with
  | [] => None
  | (k', v) :: ms' =>
      match member k ms' with
      | Some w => Some w
      | None => if decide (k' = k) then Some v else None
      end
  end.
End JsonOps.

(** ** Reading what was written *)

Section JsonRead.
Context {json : Type} `{JsonSpec json, !JsonValues json, !JsonValuesSpec json}.
Implicit Type j : json.

Lemma jobj_snoc ms k v : jobj (ms ++ [(k, v)]) = (jset k v (jobj ms) : json).
Proof. unfold jobj. by rewrite fold_left_app. Qed.

Lemma jobj_object ms : is_object (jobj ms : json) = true.
Proof.
  induction ms as [|[k v] ms IH] using rev_ind; [apply jobject_is_object|].
  rewrite jobj_snoc. by apply jset_is_object.
Qed.

Lemma member_app k ms1 ms2 :
  member k (ms1 ++ ms2) =
    (match member k ms2 with Some w => Some w | None => member k ms1 end : option json).
Proof.
  induction ms1 as [|[k' v] ms1 IH]; simpl; [by destruct (member k ms2)|].
  rewrite IH. by destruct (member k ms2).
Qed.

Lemma jobj_find k ms : jfind k (jobj ms : json) = member k ms.
Proof.
  induction ms as [|[k' v] ms IH] using rev_ind; [apply jobject_find|].
  rewrite jobj_snoc, jset_find, member_app by apply jobj_object. simpl. by case_decide.
Qed.

Lemma jobj_contains k ms :
  contains k (jobj ms : json) = bool_decide (is_Some (member k ms)).
Proof. unfold contains. by rewrite jobj_find. Qed.

Lemma read_string k d ms s :
  member k ms = Some (of_string s) -> value_string k d (jobj ms : json) = Some s.
Proof.
  intros Hm. unfold value_string. by rewrite jobj_object, jobj_find, Hm, of_string_is, of_string_get.
Qed.

Lemma read_absent_string k d ms : member k ms = None -> value_string k d (jobj ms : json) = Some d.
Proof. intros Hm. unfold value_string. by rewrite jobj_object, jobj_find, Hm. Qed.

Lemma read_as {A} (get : json -> option A) k d ms v :
  member k ms = Some v -> value_as get k d (jobj ms) = get v.
Proof. intros Hm. unfold value_as. by rewrite jobj_object, jobj_find, Hm. Qed.

Lemma read_absent {A} (get : json -> option A) k d ms :
  member k ms = None -> value_as get k d (jobj ms) = Some d.
Proof. intros Hm. unfold value_as. by rewrite jobj_object, jobj_find, Hm. Qed.

Lemma as_int_of n : - 2 ^ 31 <= n < 2 ^ 31 -> as_int (of_int n : json) = Some n.
Proof.
  intros Hn. rewrite as_int_integer, get_int_cast, of_int_get by (try apply of_int_is; unfold in_i64; lia).
  f_equal. apply wrap_small; lia.
Qed.

Lemma as_uint_of n : 0 <= n < 2 ^ 32 -> as_uint (of_int n : json) = Some n.
Proof.
  intros Hn. rewrite as_uint_integer, of_int_get by (try apply of_int_is; unfold in_i64; lia).
  f_equal. by apply Z.mod_small.
Qed.

Lemma as_ulong_of n : 0 <= n < 2 ^ 63 -> as_ulong (of_int n : json) = Some n.
Proof.
  intros Hn. rewrite as_ulong_integer, of_int_get by (try apply of_int_is; unfold in_i64; lia).
  f_equal. apply Z.mod_small. lia.
Qed.

Lemma as_bool_of b : as_bool (of_bool b : json) = Some b.
Proof. by rewrite as_bool_boolean, of_bool_get by apply of_bool_is. Qed.
Lemma decode_list_read {A} k (decode : json -> option A) (encode : A -> json) l d :
  value_json k jarray d = Some (of_array (encode <$> l)) ->
  Forall (fun a => decode (encode a) = Some a) l -> decode_list k decode d = Some l.
Proof.
  intros Hd Hl. unfold decode_list. rewrite Hd. simpl. rewrite of_array_elements.
  apply mapM_Some. rewrite Forall2_fmap_l. by apply Forall_Forall2_diag.
Qed.
End JsonRead.

(** Read the members of an object built by [jobj]. *)
Ltac read_members :=
  unfold value_int, value_uint, value_ulong, value_bool, value_json;
  repeat first
    [ match goal with
      | |- context [value_string ?k ?d (jobj ?ms)] =>
          first [ rewrite (read_string k d ms _ eq_refl) | rewrite (read_absent_string k d ms eq_refl) ]
      | |- context [value_as ?get ?k ?d (jobj ?ms)] =>
          first [ rewrite (read_as get k d ms _ eq_refl) | rewrite (read_absent get k d ms eq_refl) ]
      | |- context [contains ?k (jobj ?ms)] => rewrite (jobj_contains k ms)
      end
    | rewrite as_bool_of | rewrite as_int_of by lia | rewrite as_uint_of by lia
    | rewrite as_ulong_of by lia
    | progress cbn [mbind option_bind] ].

(** ** A concrete implementation *)

Inductive jval :=
  | JNull
  | JBool (b : bool)
  | JInt (n : Z)
  | JString (s : string)
  | JArray (l : list jval)
  | JObject (m : list (string * jval)).

(** Object members are kept sorted by key ([std::map]). *)
Fixpoint member_set (k : string) (v : jval) (m : list (string * jval)) : list (string * jval) :=
  match m with
  | [] => [(k, v)]
  | (k', v') :: m' =>
      if decide (k = k') then (k, v) :: m'
      else if String.ltb k k' then (k, v) :: (k', v') :: m'
      else (k', v') :: member_set k v m'
  end.

Fixpoint member_find (k : string) (m : list (string * jval)) : option jval :=
  match m with
  | [] => None
  | (k', v) :: m' => if decide (k' = k) then Some v else member_find k m'
  end.

Lemma member_find_set k k' v m :
  member_find k' (member_set k v m) = if decide (k = k') then Some v else member_find k' m.
Proof.
  induction m as [|[x w] m IH]; simpl; [done|].
  destruct (decide (k = x)) as [->|Hne]; simpl; [by repeat case_decide|].
  destruct (String.ltb k x); simpl; [done|]. rewrite IH.
  destruct (decide (x = k')) as [->|]; [|done]. by destruct (decide (k = k')).
Qed.

Lemma member_find_keys k m : k ∈ m.*1 <-> is_Some (member_find k m).
Proof.
  induction m as [|[x w] m IH]; simpl; [split; [by intros ?%elem_of_nil|by intros [? ?]]|].
  rewrite elem_of_cons, IH. case_decide as Hx; [naive_solver|]. split; [|auto]. by intros [->|].
Qed.

#[export] Instance jval_json : Json jval := {|
  is_object j := match j with JObject _ => true | _ => false end;
  is_string j := match j with JString _ => true | _ => false end;
  is_number_integer j := match j with JInt _ => true | _ => false end;
  is_boolean j := match j with JBool _ => true | _ => false end;
  jfind k j := match j with JObject m => member_find k m | _ => None end;
  jset k v j := match j with JObject m => JObject (member_set k v m) | _ => j end;
  jobject := JObject [];
  of_string := JString;
  of_int := JInt;
  of_bool := JBool;
  get_string j := match j with JString s => s | _ => EmptyString end;
  get_i64 j := match j with JInt n => wrap 64 n | _ => 0 end;
  get_int j := match j with JInt n => wrap 32 (wrap 64 n) | _ => 0 end;
  get_bool j := match j with JBool b => b | _ => false end;
|}.

#[export] Instance jval_spec : JsonSpec jval.
Proof.
  split; simpl; try done.
  - intros k v j Hj. by destruct j.
  - intros k k' v j Hj. destruct j; try done. apply member_find_set.
  - intros n Hn. apply wrap_small; [lia|]. unfold in_i64 in Hn. simpl. lia.
  - intros j Hj. by destruct j.
Qed.

#[export] Instance jval_values : JsonValues jval := {|
  as_int j := match j with
              | JInt n => Some (wrap 32 (wrap 64 n))
              | JBool b => Some (if b then 1 else 0)
              | _ => None
              end;
  as_uint j := match j with
               | JInt n => Some (to_unsigned 32 (wrap 64 n))
               | JBool b => Some (if b then 1 else 0)
               | _ => None
               end;
  as_ulong j := match j with
                | JInt n => Some (to_unsigned 64 (wrap 64 n))
                | JBool b => Some (if b then 1 else 0)
                | _ => None
                end;
  as_bool j := match j with JBool b => Some b | _ => None end;
  elements j := match j with
                | JArray l => l
                | JObject m => snd <$> m
                | JNull => []
                | _ => [j]
                end;
  keys j := match j with JObject m => m.*1 | _ => [] end;
  jarray := JArray [];
  is_array j := match j with JArray _ => true | _ => false end;
  of_array := JArray;
|}.

Lemma wrap_range w n : 0 < w -> - 2 ^ (w - 1) <= wrap w n < 2 ^ (w - 1).
Proof.
  intros Hw. unfold wrap. pose proof (Z.mod_pos_bound (n + 2 ^ (w - 1)) (2 ^ w)) as Hb.
  assert (2 ^ w = 2 * 2 ^ (w - 1)).
  { rewrite <- Z.pow_succ_r by lia. f_equal. lia. }
  pose proof (Z.pow_pos_nonneg 2 (w - 1)). lia.
Qed.

#[export] Instance jval_values_spec : JsonValuesSpec jval.
Proof.
  split; simpl; try done.
  - intros j Hj. by destruct j.
  - intros j n Hn. destruct j as [|[]|m| | |]; try done; injection Hn as <-; try (simpl; lia).
    apply (wrap_range 32). lia.
  - intros j Hj. by destruct j.
  - intros j n Hn. destruct j as [|[]|m| | |]; try done; injection Hn as <-; try (simpl; lia).
    apply Z.mod_pos_bound. lia.
  - intros j Hj. by destruct j.
  - intros j n Hn. destruct j as [|[]|m| | |]; try done; injection Hn as <-; try (simpl; lia).
    apply Z.mod_pos_bound. lia.
  - intros j Hj. by destruct j.
  - intros k j Hj. destruct j as [| | | | |m]; try done. apply member_find_keys.
Qed.
