(* ===== verification/Envelope.v ===== *)
(** * The MQTT message wrapper (common/Envelope.hpp, common/Envelope.cpp) *)

From S2P Require Import Prelude Json.

Local Open Scope Z_scope.

(** ** Error codes *)

(** The values of [telux::common::ErrorCode] (CommonDefines.hpp) the table names. *)
Definition SUCCESS : Z := 0.
Definition RADIO_NOT_AVAILABLE : Z := 1.
Definition GENERIC_FAILURE : Z := 2.
Definition INVALID_STATE : Z := 41.
Definition NO_RESOURCES : Z := 42.
Definition INVALID_ARGUMENTS : Z := 44.
Definition DEVICE_IN_USE : Z := 64.
Definition INVALID_OPERATION : Z := 1070.
Definition NOT_SUPPORTED : Z := 1094.
Definition OP_IN_PROGRESS : Z := 1118.
Definition OPERATION_TIMEOUT : Z := 5001.

Definition kErrorCodes : list (string * Z) :=
  [ ("SUCCESS", SUCCESS); ("GENERIC_FAILURE", GENERIC_FAILURE);
    ("RADIO_NOT_AVAILABLE", RADIO_NOT_AVAILABLE); ("INVALID_ARGUMENTS", INVALID_ARGUMENTS);
    ("OP_IN_PROGRESS", OP_IN_PROGRESS); ("NOT_SUPPORTED", NOT_SUPPORTED);
    ("DEVICE_IN_USE", DEVICE_IN_USE); ("INVALID_OPERATION", INVALID_OPERATION);
    ("NO_RESOURCES", NO_RESOURCES); ("OPERATION_TIMEOUT", OPERATION_TIMEOUT);
    ("INVALID_STATE", INVALID_STATE) ].

Fixpoint parse_in (t : list (string * Z)) (wire : string) : Z :=
  match t with
  | [] => GENERIC_FAILURE
  | (w, c) :: t' => if decide (w = wire) then c else parse_in t' wire
  end.

Definition parseErrorCode (wire : string) : Z := parse_in kErrorCodes wire.

Fixpoint name_in (t : list (string * Z)) (code : Z) : string :=
  match t with
  | [] => "GENERIC_FAILURE"
  | (w, c) :: t' => if decide (c = code) then w else name_in t' code
  end.

Definition errorCodeName (code : Z) : string := name_in kErrorCodes code.

(** ** Correlation ids *)

Definition hex_digit (n : Z) : Ascii.ascii :=
  Ascii.ascii_of_nat (Z.to_nat (if decide (n < 10) then 48 + n else 87 + n)).

(** The low [k] hexadecimal digits of [n], most significant first. *)
Fixpoint hex (k : nat) (n : Z) (acc : string) : string :=
  match k with
  | O => acc
  | S k' => hex k' (n / 16) (String (hex_digit (n mod 16)) acc)
  end.

(** [g_corr_counter], a [std::atomic<uint32_t>]: [fetch_add] returns the old
    value and wraps around; the id is printed with ["%08x"]. *)
Definition nextCorrId (counter : Z) : string * Z :=
  (hex 8 counter EmptyString, (counter + 1) mod 2 ^ 32).

(** ** Envelope *)

Section Envelope.
Context {json : Type} `{Json json}.

Record Envelope := mkEnvelope {
  v : Z;
  corrId : string;
  ts : Z;
  src : string;
  dest : option string;
  data : option json;
  error : option json }.

(** [j[k] = v] when the optional member is present. *)
Definition set_opt {A} (k : string) (f : A -> json) (o : option A) (j : json) : json :=
  match o with Some a => jset k (f a) j | None => j end.

Definition toJson (e : Envelope) : json :=
  let j := jobject in
  let j := jset "v" (of_int (v e)) j in
  let j := jset "corrId" (of_string (corrId e)) j in
  let j := jset "ts" (of_int (ts e)) j in
  let j := jset "src" (of_string (src e)) j in
  let j := set_opt "dest" of_string (dest e) j in
  let j := set_opt "data" id (data e) j in
  set_opt "error" id (error e) j.

(** A required member of the given kind, or the error message. *)
Definition required (k : string) (ok : json -> bool) (msg : string) (j : json) : string + json :=
  match jfind k j with
  | None => inl msg
  | Some x => if ok x then inr x else inl msg
  end.

(** An optional member of the given kind. *)
Definition optional (k : string) (ok : json -> bool) (msg : string) (j : json) :
    string + option json :=
  match jfind k j with
  | None => inr None
  | Some x => if ok x then inr (Some x) else inl msg
  end.

Definition andThen {A B} (r : string + A) (f : A -> string + B) : string + B :=
  match r with inl m => inl m | inr a => f a end.

Definition fromJson (j : json) : string + Envelope :=
  if negb (is_object j) then inl "envelope is not a JSON object" else
  andThen (required "v" is_number_integer "missing/invalid field `v`" j) (fun jv =>
  if decide (get_int jv <> 1) then inl "envelope `v` != 1" else
  andThen (required "corrId" is_string "missing/invalid field `corrId`" j) (fun jc =>
  andThen (required "ts" is_number_integer "missing/invalid field `ts`" j) (fun jt =>
  andThen (required "src" is_string "missing/invalid field `src`" j) (fun js =>
  andThen (optional "dest" is_string "invalid field `dest`" j) (fun jd =>
  andThen (optional "data" is_object "invalid field `data`" j) (fun jdata =>
  andThen (optional "error" is_object "invalid field `error`" j) (fun jerr =>
  inr (mkEnvelope (get_int jv) (get_string jc) (get_i64 jt) (get_string js)
         (get_string <$> jd) jdata jerr)))))))).

(** The builders; [now] is [nowMs()], [counter] the correlation counter. *)
Definition makeRequestEnvelope (now counter : Z) (src : string) (data : json) : Envelope * Z :=
  let '(c, counter') := nextCorrId counter in
  (mkEnvelope 1 c now src None (Some data) None, counter').

Definition makeResponseEnvelope (now : Z) (src corrId dest : string) (data : json) : Envelope :=
  mkEnvelope 1 corrId now src (Some dest) (Some data) None.

Definition makeErrorEnvelope (now : Z) (src corrId dest : string) (code : Z) (msg : string) :
    Envelope :=
  let err_obj := jset "code" (of_string (errorCodeName code)) jobject in
  let err_obj := if decide (msg = EmptyString) then err_obj
                 else jset "msg" (of_string msg) err_obj in
  mkEnvelope 1 corrId now src (Some dest) None (Some err_obj).

Definition makeEventEnvelope (now counter : Z) (src : string) (data : json) : Envelope * Z :=
  let '(c, counter') := nextCorrId counter in
  (mkEnvelope 1 c now src None (Some data) None, counter').

(** What a sender may put into an envelope: the protocol version, a timestamp
    that fits its type, and objects for the optional parts. *)
Definition wf_envelope (e : Envelope) : Prop :=
  v e = 1 /\ in_i64 (ts e) /\
  (forall x, data e = Some x -> is_object x = true) /\
  (forall x, error e = Some x -> is_object x = true).

Context `{!JsonSpec json}.

Lemma set_opt_is_object {A} k (f : A -> json) o j :
  is_object j = true -> is_object (set_opt k f o j) = true.
Proof. destruct o; simpl; [apply jset_is_object|done]. Qed.

Lemma set_opt_find {A} k k' (f : A -> json) o j :
  is_object j = true ->
  jfind k' (set_opt k f o j) =
    if decide (k = k') then match o with Some a => Some (f a) | None => jfind k' j end
    else jfind k' j.
Proof.
  intros Hj. destruct o; simpl; [by apply jset_find|]. by destruct (decide _).
Qed.

Lemma toJson_is_object e : is_object (toJson e) = true.
Proof.
  unfold toJson. repeat apply set_opt_is_object. repeat apply jset_is_object.
  apply jobject_is_object.
Qed.

(** Looking up any member of an encoded envelope. *)
Lemma toJson_find e k :
  jfind k (toJson e) =
    if decide ("error" = k) then error e
    else if decide ("data" = k) then data e
    else if decide ("dest" = k) then of_string <$> dest e
    else if decide ("src" = k) then Some (of_string (src e))
    else if decide ("ts" = k) then Some (of_int (ts e))
    else if decide ("corrId" = k) then Some (of_string (corrId e))
    else if decide ("v" = k) then Some (of_int (v e))
    else None.
Proof.
  unfold toJson.
  rewrite !set_opt_find, !jset_find, jobject_find
    by (repeat apply set_opt_is_object; repeat apply jset_is_object; apply jobject_is_object).
  destruct (dest e), (data e), (error e); repeat case_decide; try done; by subst.
Qed.

Lemma optional_string k msg j o :
  jfind k j = of_string <$> o ->
  optional k is_string msg j = inr (of_string <$> o).
Proof. intros Hf. unfold optional. rewrite Hf. destruct o; simpl; [by rewrite of_string_is|done]. Qed.

Lemma optional_object k msg j o :
  jfind k j = o -> (forall x, o = Some x -> is_object x = true) ->
  optional k is_object msg j = inr o.
Proof.
  intros Hf Ho. unfold optional. rewrite Hf. destruct o as [x|]; [|done]. by rewrite (Ho x).
Qed.

Lemma fromJson_toJson e : wf_envelope e -> fromJson (toJson e) = inr e.
Proof.
  intros (Hv & Hts & Hd & He). unfold fromJson. rewrite toJson_is_object. simpl.
  unfold required at 1. rewrite toJson_find. simpl. rewrite of_int_is. simpl.
  assert (Hi : get_int (of_int (v e)) = 1).
  { rewrite get_int_cast, of_int_get, Hv by (rewrite ?of_int_is, ?Hv; unfold in_i64; done || lia).
    done. }
  rewrite Hi. rewrite decide_False by (intros Hn; by apply Hn).
  unfold required. rewrite !toJson_find. simpl. rewrite !of_string_is, of_int_is. simpl.
  rewrite (optional_string "dest" _ _ (dest e)) by by rewrite toJson_find.
  rewrite (optional_object "data" _ _ (data e)) by (try done; by rewrite toJson_find).
  rewrite (optional_object "error" _ _ (error e)) by (try done; by rewrite toJson_find).
  simpl. rewrite !of_string_get, of_int_get by done. f_equal.
  destruct e as [v' c' t' s' d' a' r']. simpl in *. subst v'. f_equal.
  destruct d'; simpl; [by rewrite of_string_get|done].
Qed.
End Envelope.

Arguments Envelope : clear implicits.

(** ** Properties *)


Definition sample_envelope : Envelope jval :=
  makeErrorEnvelope 1700000000000 "mpss" "0000000a" "pa-1" INVALID_STATE "busy".


Lemma make_wf {json} `{JsonSpec json} (now counter : Z) (s c d msg : string) (code : Z) (x : json) :
  in_i64 now -> is_object x = true ->
  wf_envelope (fst (makeRequestEnvelope now counter s x)) /\
  wf_envelope (makeResponseEnvelope now s c d x) /\
  wf_envelope (makeErrorEnvelope now s c d code msg) /\
  wf_envelope (fst (makeEventEnvelope now counter s x)).
Proof.
  intros Hn Hx.
  assert (He : is_object (jset "code" (of_string (errorCodeName code)) jobject) = true)
    by apply jset_is_object, jobject_is_object.
  unfold wf_envelope, in_i64 in *. simpl. repeat split; try done; try lia; intros y [= <-]; try done.
  case_decide; [done|]. by apply jset_is_object.
Qed.

(** What [fromJson] accepts. If it returns an envelope, the input is an
    object whose [v] is congruent to 1 modulo 2^32, whose [corrId] and [src]
    are strings and whose [ts] is an integer, the returned fields are those
    values, [dest] is the string member if there is one, and [data] and
    [error] are returned exactly when present, and are objects. *)
Theorem fromJson_accepts {json} `{JsonSpec json} (j : json) (e : Envelope json) :
  fromJson j = inr e ->
  is_object j = true /\ v e = 1 /\
  (exists x, jfind "v" j = Some x /\ is_number_integer x = true /\ wrap 32 (get_i64 x) = 1) /\
  (exists x, jfind "corrId" j = Some x /\ is_string x = true /\ get_string x = corrId e) /\
  (exists x, jfind "ts" j = Some x /\ is_number_integer x = true /\ get_i64 x = ts e) /\
  (exists x, jfind "src" j = Some x /\ is_string x = true /\ get_string x = src e) /\
  dest e = get_string <$> jfind "dest" j /\
  data e = jfind "data" j /\ error e = jfind "error" j /\
  (forall x, data e = Some x \/ error e = Some x -> is_object x = true).
Proof.
  unfold fromJson, required, optional.
  destruct (is_object j) eqn:Ho; simpl; [|done].
  destruct (jfind "v" j) as [jv|]; simpl; [|done].
  destruct (is_number_integer jv) eqn:Hv; simpl; [|done].
  destruct (decide _) as [|Hv1]; [done|].
  assert (get_int jv = 1) as Hv1' by (destruct (decide (get_int jv = 1)); tauto).
  pose proof (get_int_cast jv Hv) as Hv2. rewrite Hv1' in Hv2. symmetry in Hv2.
  destruct (jfind "corrId" j) as [jc|]; simpl; [|done].
  destruct (is_string jc) eqn:Hc; simpl; [|done].
  destruct (jfind "ts" j) as [jt|]; simpl; [|done].
  destruct (is_number_integer jt) eqn:Ht; simpl; [|done].
  destruct (jfind "src" j) as [js|]; simpl; [|done].
  destruct (is_string js) eqn:Hs; simpl; [|done].
  destruct (jfind "dest" j) as [jd|]; [destruct (is_string jd)|]; simpl; try done;
    (destruct (jfind "data" j) as [ja|]; [destruct (is_object ja) eqn:Ha|]; simpl; try done);
    (destruct (jfind "error" j) as [je|]; [destruct (is_object je) eqn:He|]; simpl; try done);
    intros [= <-]; simpl;
    repeat split; eauto; intros x [|]; congruence.
Qed.

Lemma fromJson_accepts_witness :
  let j := toJson sample_envelope in
  let e := sample_envelope in
  is_object j = true /\ v e = 1 /\
  (exists x, jfind "v" j = Some x /\ is_number_integer x = true /\ wrap 32 (get_i64 x) = 1) /\
  (exists x, jfind "corrId" j = Some x /\ is_string x = true /\ get_string x = corrId e) /\
  (exists x, jfind "ts" j = Some x /\ is_number_integer x = true /\ get_i64 x = ts e) /\
  (exists x, jfind "src" j = Some x /\ is_string x = true /\ get_string x = src e) /\
  dest e = get_string <$> jfind "dest" j /\
  data e = jfind "data" j /\ error e = jfind "error" j /\
  (forall x, data e = Some x \/ error e = Some x -> is_object x = true).
Proof. apply (fromJson_accepts (toJson sample_envelope) sample_envelope). reflexivity. Defined.

(** The version test looks at 32 bits of the number only. *)
Example version_truncated :
  exists e, fromJson (JObject [("corrId", JString "0000000a"); ("src", JString "m");
                               ("ts", JInt 5); ("v", JInt (2 ^ 32 + 1))]) = inr e.
Proof. eexists. vm_compute. reflexivity. Qed.

(** The error-code table is a bijection between its wire names and its
    codes; every other name is read as GENERIC_FAILURE and every other code is
    written as "GENERIC_FAILURE". *)
Theorem error_codes_inverse (wire : string) (code : Z) :
  (wire ∈ kErrorCodes.*1 -> errorCodeName (parseErrorCode wire) = wire) /\
  (code ∈ kErrorCodes.*2 -> parseErrorCode (errorCodeName code) = code) /\
  (wire ∉ kErrorCodes.*1 -> parseErrorCode wire = GENERIC_FAILURE) /\
  (code ∉ kErrorCodes.*2 -> errorCodeName code = "GENERIC_FAILURE").
Proof.
  repeat split.
  - intros Hw. repeat (apply elem_of_cons in Hw as [->|Hw]; [reflexivity|]). by apply elem_of_nil in Hw.
  - intros Hc. repeat (apply elem_of_cons in Hc as [->|Hc]; [reflexivity|]). by apply elem_of_nil in Hc.
  - intros Hw. unfold parseErrorCode. induction kErrorCodes as [|[w c] t IH]; simpl; [done|].
    rewrite decide_False by set_solver. apply IH. set_solver.
  - intros Hc. unfold errorCodeName. induction kErrorCodes as [|[w c] t IH]; simpl; [done|].
    rewrite decide_False by set_solver. apply IH. set_solver.
Qed.

Lemma error_codes_inverse_witness :
  errorCodeName (parseErrorCode "NO_RESOURCES") = "NO_RESOURCES".
Proof.
  apply (error_codes_inverse "NO_RESOURCES" 42).
  apply (bool_decide_unpack _). reflexivity.
Defined.

Lemma hex_digit_inj a b : 0 <= a < 16 -> 0 <= b < 16 -> hex_digit a = hex_digit b -> a = b.
Proof.
  intros Ha Hb Heq. apply (f_equal Ascii.nat_of_ascii) in Heq. unfold hex_digit in Heq.
  do 2 rewrite Ascii.nat_ascii_embedding in Heq by (repeat case_decide; lia).
  repeat case_decide; lia.
Qed.

Lemma hex_length k n acc : String.length (hex k n acc) = (k + String.length acc)%nat.
Proof.
  revert n acc. induction k as [|k IH]; intros n acc; simpl; [done|]. rewrite IH. simpl. lia.
Qed.

Lemma string_app_inj a b c d :
  String.length a = String.length b -> (a +:+ c)%string = b +:+ d -> a = b /\ c = d.
Proof.
  revert b. induction a as [|x a IH]; intros [|y b] Hl Heq; simpl in *; try done.
  injection Heq as -> Heq. injection Hl as Hl. destruct (IH b Hl Heq) as [-> ->]. done.
Qed.

Lemma hex_acc k n acc : hex k n acc = hex k n EmptyString +:+ acc.
Proof.
  revert n acc. induction k as [|k IH]; intros n acc; simpl; [done|].
  rewrite IH, (IH _ (String _ EmptyString)). by rewrite string_app_assoc.
Qed.

Lemma hex_inj k a b :
  0 <= a < 16 ^ Z.of_nat k -> 0 <= b < 16 ^ Z.of_nat k ->
  hex k a EmptyString = hex k b EmptyString -> a = b.
Proof.
  revert a b. induction k as [|k IH]; intros a b Ha Hb Heq; simpl in *; [lia|].
  replace (Z.of_nat (S k)) with (Z.succ (Z.of_nat k)) in * by lia.
  rewrite Z.pow_succ_r in * by lia.
  rewrite hex_acc, (hex_acc _ (b / 16)) in Heq.
  apply string_app_inj in Heq as [Heq Hd]; [|by rewrite !hex_length].
  injection Hd as Hd. apply hex_digit_inj in Hd; try (apply Z.mod_pos_bound; lia).
  apply IH in Heq; try (split; [apply Z.div_pos; lia|apply Z.div_lt_upper_bound; lia]).
  rewrite (Z.div_mod a 16), (Z.div_mod b 16) by lia. lia.
Qed.

(** The id drawn by the [n]-th call after the counter stood at [c0]. *)
Definition nth_corr_id (c0 : Z) (n : nat) : string :=
  fst (nextCorrId (Nat.iter n (fun c => snd (nextCorrId c)) c0)).

Lemma counter_iter c0 n :
  0 <= c0 < 2 ^ 32 -> Nat.iter n (fun c => snd (nextCorrId c)) c0 = (c0 + Z.of_nat n) mod 2 ^ 32.
Proof.
  intros Hc. induction n as [|n IH].
  - simpl Nat.iter. rewrite Z.add_0_r. symmetry. by apply Z.mod_small.
  - rewrite Nat.iter_succ, IH. unfold nextCorrId. simpl snd. rewrite Zplus_mod_idemp_l. f_equal. lia.
Qed.

Lemma nth_corr_id_eq c0 n :
  0 <= c0 < 2 ^ 32 -> nth_corr_id c0 n = hex 8 ((c0 + Z.of_nat n) mod 2 ^ 32) EmptyString.
Proof. intros Hc. unfold nth_corr_id. by rewrite counter_iter. Qed.

(** Correlation ids are eight characters long and distinct: two calls of
    the allocator return different ids whenever fewer than 2^32 calls separate
    them, also across the wrap-around of the counter. *)
Theorem corr_ids_distinct (c0 : Z) (i j : nat) :
  0 <= c0 < 2 ^ 32 -> Z.of_nat i < Z.of_nat j < Z.of_nat i + 2 ^ 32 ->
  String.length (nth_corr_id c0 i) = 8%nat /\ nth_corr_id c0 i <> nth_corr_id c0 j.
Proof.
  intros Hc Hij. rewrite !nth_corr_id_eq by done.
  split; [by rewrite hex_length|].
  intros Heq. apply hex_inj in Heq.
  2, 3: change (16 ^ Z.of_nat 8) with (2 ^ 32); apply Z.mod_pos_bound; lia.
  assert (Hd : (Z.of_nat j - Z.of_nat i) mod 2 ^ 32 = 0).
  { replace (Z.of_nat j - Z.of_nat i) with ((c0 + Z.of_nat j) - (c0 + Z.of_nat i)) by lia.
    rewrite Zminus_mod, Heq, Z.sub_diag. done. }
  rewrite Z.mod_small in Hd by lia. lia.
Qed.

Lemma corr_ids_distinct_witness :
  String.length (nth_corr_id 4294967295 0) = 8%nat /\
  nth_corr_id 4294967295 0 <> nth_corr_id 4294967295 1.
Proof. apply (corr_ids_distinct 4294967295 0 1); lia. Defined.
