(* ===== verification/InitGate.v ===== *)
(** * Init callbacks (common/InitCallbackGate.hpp)

    A manager's init callbacks are collected until the manager first reports
    its status and are then invoked with that status.  The callbacks run
    outside the mutex; the model separates the critical sections from the
    calls, which the threads make later and in any order between threads. *)

From S2P Require Import Prelude.

Inductive ServiceStatus := SERVICE_UNAVAILABLE | SERVICE_AVAILABLE | SERVICE_FAILED.

#[export] Instance ServiceStatus_eq_dec : EqDecision ServiceStatus.
Proof. solve_decision. Defined.

Section InitCallbackGate.
(** The callbacks, identified by [C]; a null [std::function] is [None]. *)
Context {C : Type}.

(** [todo]: calls the threads still have to make after they released the mutex;
    [called]: the calls made; [registered]: the callbacks ever handed in. *)
Record Gate := mkGate {
  cbs_ : list C;
  fired_ : bool;
  status_ : ServiceStatus;
  todo : list (C * ServiceStatus);
  called : list (C * ServiceStatus);
  registered : list C }.

Definition new_gate (cb : option C) : Gate :=
  mkGate (option_list cb) false SERVICE_UNAVAILABLE [] [] (option_list cb).

Definition add (cb : option C) (g : Gate) : Gate :=
  match cb with
  | None => g
  | Some c =>
      if fired_ g
      then mkGate (cbs_ g) (fired_ g) (status_ g) (todo g ++ [(c, status_ g)]) (called g)
             (registered g ++ [c])
      else mkGate (cbs_ g ++ [c]) (fired_ g) (status_ g) (todo g) (called g)
             (registered g ++ [c])
  end.

Definition markReadyAndFire (s : ServiceStatus) (g : Gate) : bool * Gate :=
  if fired_ g then (false, g)
  else (true, mkGate [] true s (todo g ++ ((fun c => (c, s)) <$> cbs_ g)) (called g)
                (registered g)).

(** One of the threads makes the next of its calls. *)
Inductive gate_step : Gate -> Gate -> Prop :=
  | gate_add cb g : gate_step g (add cb g)
  | gate_mark s g : gate_step g (snd (markReadyAndFire s g))
  | gate_call c s l1 l2 g :
      todo g = l1 ++ (c, s) :: l2 ->
      gate_step g (mkGate (cbs_ g) (fired_ g) (status_ g) (l1 ++ l2) (called g ++ [(c, s)])
                     (registered g)).

Record gate_inv (g : Gate) : Prop := {
  gate_conserve : cbs_ g ++ (todo g ++ called g).*1 ≡ₚ registered g;
  gate_status : Forall (fun p => p.2 = status_ g) (todo g ++ called g);
  gate_fired : if fired_ g then cbs_ g = [] else todo g ++ called g = [] }.

Lemma new_gate_inv cb : gate_inv (new_gate cb).
Proof. split; simpl; [by rewrite app_nil_r|constructor|done]. Qed.

Lemma add_inv cb g : gate_inv g -> gate_inv (add cb g).
Proof.
  intros [H1 H2 H3]. destruct cb as [c|]; simpl; [|done].
  destruct (fired_ g) eqn:Hf; split; simpl; try done.
  - rewrite <- H1, !fmap_app. simpl. solve_Permutation.
  - rewrite !Forall_app in *. destruct H2. repeat split; try done. by constructor.
  - rewrite <- H1. solve_Permutation.
Qed.

Lemma mark_inv s g : gate_inv g -> gate_inv (snd (markReadyAndFire s g)).
Proof.
  intros Hi. unfold markReadyAndFire. destruct (fired_ g) eqn:Hf; [done|].
  destruct Hi as [H1 H2 H3]. rewrite Hf in H3.
  apply app_eq_nil in H3 as [Ht Hc]. rewrite Ht, Hc in *. simpl in *.
  split; simpl; try done.
  - rewrite app_nil_r in *. rewrite <- H1, <- list_fmap_compose.
    by rewrite (list_fmap_ext _ id) by done; rewrite list_fmap_id.
  - rewrite app_nil_r, Forall_fmap. by apply Forall_true.
Qed.

Lemma call_inv c s l1 l2 g :
  gate_inv g -> todo g = l1 ++ (c, s) :: l2 ->
  gate_inv (mkGate (cbs_ g) (fired_ g) (status_ g) (l1 ++ l2) (called g ++ [(c, s)])
              (registered g)).
Proof.
  intros [H1 H2 H3] Ht. rewrite Ht in *.
  assert (Hp : (l1 ++ l2) ++ called g ++ [(c, s)] ≡ₚ (l1 ++ (c, s) :: l2) ++ called g)
    by solve_Permutation.
  split; simpl.
  - by rewrite Hp.
  - by rewrite Hp.
  - destruct (fired_ g); [done|]. apply app_eq_nil in H3 as [H3 _].
    symmetry in H3. by apply app_cons_not_nil in H3.
Qed.

Lemma gate_step_inv g g' : gate_inv g -> gate_step g g' -> gate_inv g'.
Proof. intros Hi Hs. inv Hs; [by apply add_inv|by apply mark_inv|by eapply call_inv]. Qed.
End InitCallbackGate.

Arguments Gate : clear implicits.

(** Every init callback is invoked exactly once. In every state reachable
    from a fresh gate, the callbacks waiting, about to be called and called are
    together exactly the ones registered; once the first status has been
    reported nothing waits, so when the pending calls are made each registered
    callback (registered before or after) has been called once, with that
    status; and only the first report returns true. *)
Theorem init_callbacks_once {C} (cb : option C) (g : Gate C) :
  rtc gate_step (new_gate cb) g ->
  cbs_ g ++ (todo g ++ called g).*1 ≡ₚ registered g /\
  Forall (fun p => p.2 = status_ g) (todo g ++ called g) /\
  (forall s, fst (markReadyAndFire s g) = negb (fired_ g)) /\
  (fired_ g = true -> todo g = [] -> (called g).*1 ≡ₚ registered g) /\
  (fired_ g = false -> called g = []).
Proof.
  intros Hr. assert (Hi : gate_inv g).
  { eapply rtc_stable; [|exact Hr|apply new_gate_inv]. intros g1 g2. apply gate_step_inv. }
  destruct Hi as [H1 H2 H3]. repeat split; try done.
  - intros s. unfold markReadyAndFire. by destruct (fired_ g).
  - intros Hf Ht. rewrite Hf in H3. by rewrite H3, Ht in H1.
  - intros Hf. rewrite Hf in H3. by apply app_eq_nil in H3 as [_ ->].
Qed.

Lemma init_callbacks_once_witness :
  let g := snd (markReadyAndFire SERVICE_AVAILABLE (add (Some 2) (new_gate (Some 1)))) in
  cbs_ g ++ (todo g ++ called g).*1 ≡ₚ registered g /\
  Forall (fun p => p.2 = status_ g) (todo g ++ called g) /\
  (forall s, fst (markReadyAndFire s g) = negb (fired_ g)) /\
  (fired_ g = true -> todo g = [] -> (called g).*1 ≡ₚ registered g) /\
  (fired_ g = false -> called g = []).
Proof.
  apply (init_callbacks_once (Some 1)). eapply rtc_l; [apply (gate_add (Some 2))|].
  eapply rtc_l; [apply (gate_mark SERVICE_AVAILABLE)|]. apply rtc_refl.
Defined.
