(* ===== verification/Manager.v ===== *)
(** * What the managers have in common

    Every manager of the SDK (data, net, tel, power) is an active object around
    the same shell of two leaf states, NotReady and Ready, driven by the modem's
    readiness indications and by the bridge's connectivity.  This file holds the
    values of the SDK the managers share, the futures their blocking calls wait
    on, lists of weak listeners, the codec interface of wire enumerations, and
    the shell as an interface: [ReadyShell] states what a manager's chart must
    satisfy, and [shell_reach] derives what every interleaved execution of such
    a manager then guarantees. *)

From S2P Require Import Prelude Hsm HsmSpec HsmProps ActiveObject Json Envelope.

Local Open Scope Z_scope.

(** ** Values of the SDK *)

(** [telux::common::Status] (CommonDefines.hpp). *)
Inductive Status :=
  | SUCCESS_ | FAILED | NOCONNECTION | NOSUBSCRIPTION | INVALIDPARAM | INVALIDSTATE | NOTREADY
  | NOTALLOWED | NOTIMPLEMENTED | CONNECTIONLOST | EXPIRED | ALREADY | NOSUCH | NOTSUPPORTED
  | NOMEMORY | ACCESSDENIED.

#[export] Instance Status_eq_dec : EqDecision Status.
Proof. solve_decision. Defined.

(** Members of [telux::common::ErrorCode] that are not in the wire table. *)
Definition DEVICE_NOT_READY : Z := 102.
Definition SUBSYSTEM_UNAVAILABLE : Z := 5000.

(** [kRpcTimeout] of every manager, in milliseconds. *)
Definition kRpcTimeout : Z := 30000.

(** A conversion that throws in a state handler ends the process: nothing
    catches it on the worker thread. *)
Definition or_die {A} (o : option A) : outcome A :=
  match o with Some a => Done a | None => Fail Terminate end.

Lemma or_die_done {A} (o : option A) a : or_die o = Done a -> o = Some a.
Proof. destruct o; [by intros [= ->]|done]. Qed.

Lemma bind_done' {A B} (o : outcome A) (k : A -> outcome B) b :
  o ≫= k = Done b -> exists a, o = Done a /\ k a = Done b.
Proof. destruct o; [eauto|done]. Qed.

(** A future as the waiting caller finds it: the value set; not ready within
    the time waited; or its promise destroyed without a value, and then [get]
    throws. *)
Inductive future (A : Type) := Ready (a : A) | NotInTime | Broken.
Arguments Ready {A} a.
Arguments NotInTime {A}.
Arguments Broken {A}.

(** ** Weak listeners

    A [std::vector<std::weak_ptr<...>>]; [alive l]: [lock()] succeeds. *)
Section WeakListeners.
Context {L : Type} `{EqDecision L} (alive : L -> bool).

(** The listeners a broadcast task is built for. *)
Definition locked (ls : list L) : list L := filter (fun l => alive l = true) ls.

(** Removing a listener, reaping the expired ones: [!sp || sp == target]; an
    expired target compares equal to no live listener. *)
Definition reap (target : L) (ls : list L) : list L :=
  filter (fun l => alive l = true /\ ~ (alive target = true /\ l = target)) ls.

Lemma locked_reap target ls :
  alive target = true -> locked (reap target ls) = filter (fun l => l <> target) (locked ls).
Proof.
  intros Ht. unfold locked, reap. rewrite !list_filter_filter.
  apply list_filter_iff. naive_solver.
Qed.

Lemma locked_reap_dead target ls : alive target = false -> locked (reap target ls) = locked ls.
Proof.
  intros Ht. unfold locked, reap. rewrite list_filter_filter. apply list_filter_iff.
  intros x. rewrite Ht. naive_solver.
Qed.
End WeakListeners.

(** ** Wire enumerations *)

(** A pair of conversions between an enumeration of the SDK and its wire names;
    a name the table does not have is read as some fixed member. *)
Class WireEnum (T : Type) := { to_wire : T -> string; of_wire : string -> T }.

(** What the codecs built on it rely on, on the members that have a name. *)
Class WireEnumSpec (T : Type) `{WireEnum T} (named : T -> Prop) : Prop := {
  of_to_wire t : named t -> of_wire (to_wire t) = t }.

(** Distinct members with a name have distinct names. *)
Lemma to_wire_inj {T} `{WireEnum T} named `{!WireEnumSpec T named} (t u : T) :
  named t -> named u -> to_wire t = to_wire u -> t = u.
Proof. intros Ht Hu Heq. rewrite <- (of_to_wire t), Heq by done. by apply of_to_wire. Qed.

(** ** The readiness shell *)

(** The last of the reports among some events; a manager starts NotReady. *)
Definition last_report {E} (report : E -> option bool) (us : list E) : bool :=
  default false (last (omap report us)).

(** What a readiness indication reports; [downs]: the statuses that take
    readiness away. *)
Definition status_report {json} `{Json json} (downs : list string) (env : Envelope json) :
    option bool :=
  s ← (d ← data env; value_string "status" "" d);
  if decide (s = "AVAILABLE") then Some true
  else if decide (s ∈ downs) then Some false else None.

Section Shell.
Context {St E D : Type} `{EqDecision St}.
Context (handler : St -> Event E -> D -> outcome (verdict St * D)) (lineage : St -> list St).

(** [report u]: [Some true] when the event says the modem's service is
    available, [Some false] when it takes readiness away, [None] when it does
    not bear on it.  The law: reports are the only thing that moves a manager,
    and each moves it to the leaf it names. *)
Class ReadyShell (not_ready ready : St) (report : E -> option bool) : Prop := {
  shell_distinct : not_ready <> ready;
  shell_step leaf u d leaf' d' :
    leaf = not_ready \/ leaf = ready -> chart_step handler lineage leaf u d = Done (leaf', d') ->
    leaf' = match report u with Some true => ready | Some false => not_ready | None => leaf end }.

Context (ndebug : bool) (outbox : D -> list (post E)) (flush : D -> D).
Context {parent : St -> option St} {swallow : St -> bool}.
Context `{!wf_chart handler parent lineage swallow}.
Context (not_ready ready : St) (report : E -> option bool) `{!ReadyShell not_ready ready report}.

Definition shell_leaf (b : bool) : St := if b then ready else not_ready.

Lemma last_report_snoc us u :
  last_report report (us ++ [u]) = match report u with Some b => b | None => last_report report us end.
Proof.
  unfold last_report. rewrite omap_app. simpl. destruct (report u) as [b|].
  - by rewrite last_snoc.
  - by rewrite app_nil_r.
Qed.

(** A sequential run, by what its events report. *)
Lemma shell_run ps leaf d leaf' d' :
  leaf = not_ready \/ leaf = ready -> chart_run handler flush lineage ps (leaf, d) = Done (leaf', d') ->
  leaf' = match last (omap report (payload <$> ps)) with
          | Some b => shell_leaf b
          | None => leaf
          end.
Proof.
  revert leaf d. induction ps as [|p ps IH]; intros leaf d Hl; [by intros [= <- <-]|].
  intros ([leaf1 d1] & Hs & Hr)%bind_done'. pose proof Hl as Hl'.
  eapply shell_step in Hs; [|exact Hl]. simpl in Hr.
  assert (Hl1 : leaf1 = not_ready \/ leaf1 = ready).
  { rewrite Hs. destruct (report (payload p)) as [[]|]; auto. }
  rewrite (IH _ _ Hl1 Hr). csimpl. rewrite Hs. unfold shell_leaf.
  destruct (report (payload p)) as [b|]; [|done].
  rewrite last_cons. destruct (last (omap report (payload <$> ps))) as [b'|] eqn:Hlast.
  - done.
  - by destruct b.
Qed.

(** Under every interleaving with the threads that post to it, the manager is
    in the leaf that the last report processed names. *)
Lemma shell_reach h c :
  state_ h = st not_ready -> rtc (steps handler ndebug outbox flush) (started h) c ->
  state_ (hsm c) = st (shell_leaf (last_report report (payload <$> done c))).
Proof.
  intros Hst Hr.
  destruct (reach_chart handler ndebug outbox flush parent lineage swallow _ h c Hst Hr)
    as (leaf & Hc & Hst').
  apply shell_run in Hc; [|by left]. rewrite Hst', Hc. unfold last_report.
  by destruct (last (omap report (payload <$> done c))) as [[]|].
Qed.
End Shell.

Arguments ReadyShell {St E D _} handler lineage not_ready ready report.

(** ** Runs

    A manager's shared state is touched by its worker, by the bridge's thread
    delivering answers and by clients' threads.  A run is a sequence of their
    moves; [heard] replays it with the manager's readiness, or more of its state, and [run_hears] turns
    a relation between what the moves say and the state into a fact of every
    run. *)

Section Runs.
Context {Mv S : Type} (move_step : Mv -> S -> outcome S).
Context {B : Type} (ready_of : S -> B) (ready_after : B -> Mv -> B).

Fixpoint run (mvs : list Mv) (s : S) : outcome S :=
  match mvs with [] => Done s | mv :: mvs => s ← move_step mv s; run mvs s end.

(** What a run says of some matter, [f ready mv] being what one move says. *)
Fixpoint heard {A} (f : B -> Mv -> option A) (ready : B) (mvs : list Mv) : list A :=
  match mvs with
  | [] => []
  | mv :: mvs => option_list (f ready mv) ++ heard f (ready_after ready mv) mvs
  end.

Lemma run_app mvs mvs' s : run (mvs ++ mvs') s = (s ← run mvs s; run mvs' s).
Proof.
  revert s. induction mvs as [|mv mvs IH]; intros s; [done|]. simpl.
  destruct (move_step mv s) as [s1|]; simpl; [apply IH|done].
Qed.

Lemma heard_snoc {A} (f : B -> Mv -> option A) ready mvs mv :
  heard f ready (mvs ++ [mv]) = heard f ready mvs ++ option_list (f (fold_left ready_after mvs ready) mv).
Proof.
  revert ready. induction mvs as [|mv' mvs IH]; intros ready; simpl; [by rewrite app_nil_r|].
  by rewrite IH, app_assoc.
Qed.

Lemma heard_omap {A A'} (f : B -> Mv -> option A) (g : A -> option A') (f' : B -> Mv -> option A')
    ready mvs :
  (forall r mv, f r mv ≫= g = f' r mv) -> omap g (heard f ready mvs) = heard f' ready mvs.
Proof.
  intros Hfg. revert ready. induction mvs as [|mv mvs IH]; intros ready; [done|]. simpl.
  rewrite omap_app, IH, <- Hfg. f_equal. destruct (f ready mv) as [a|]; [|done]. simpl.
  by destruct (g a).
Qed.

Context (ready_step : forall mv s s',
  move_step mv s = Done s' -> ready_of s' = ready_after (ready_of s) mv).

Lemma run_hears {A} (f : B -> Mv -> option A) (R : list A -> S -> Prop) s0 :
  R [] s0 ->
  (forall l mv s s', R l s -> move_step mv s = Done s' -> R (l ++ option_list (f (ready_of s) mv)) s') ->
  forall mvs s, run mvs s0 = Done s -> R (heard f (ready_of s0) mvs) s.
Proof.
  intros Hstart Hstep mvs.
  assert (Hgen : forall s l s', R l s -> run mvs s = Done s' -> R (l ++ heard f (ready_of s) mvs) s').
  { clear s0 Hstart. induction mvs as [|mv mvs IH]; intros s l s' HR; simpl.
    { intros [= <-]. by rewrite app_nil_r. }
    intros (s1 & Hs & Hr)%bind_done'. rewrite app_assoc, <- (ready_step _ _ _ Hs).
    apply IH; [by eapply Hstep|done]. }
  intros s Hr. by apply (Hgen s0 []).
Qed.
End Runs.
