(* ===== verification/ListenerDispatch.v ===== *)
(** * Listener notifications (common/ListenerDispatchAO.cpp)

    A one-state active object that runs the listeners' callbacks of every
    manager, one task at a time.  A task names its listeners weakly and carries
    the function to call on those still alive. *)

From S2P Require Import Prelude Hsm HsmSpec HsmProps ActiveObject.

Section ListenerDispatchAO.
(** Listeners [L], tasks' functions [I], and the part of the program [W] the
    functions act on.  [alive] is [weak_ptr::lock]; [invoke] runs the function
    on a listener, the flag tells whether it threw. *)
Context {L I W : Type}.
Context (alive : L -> W -> bool) (invoke : I -> L -> W -> W * bool).

Record DispatchTask := mkTask {
  listeners : list L;
  invoker : option I;
  debug_tag : string }.

(** [DispatchTask_Signal] with its payload, which may be null. *)
Inductive dispatch_event := DispatchTask_Signal (t : option DispatchTask).

Inductive dispatch_state := Dispatching_St.

#[global] Instance dispatch_state_eq_dec : EqDecision dispatch_state.
Proof. solve_decision. Defined.

(** The world and the calls made: function, listener, whether it threw. *)
Record dispatcher := mkDispatcher { world : W; calls : list (I * L * bool) }.

(** The loop over [t->listeners]; what an invoker throws is swallowed. *)
Fixpoint notify_all (f : I) (ls : list L) (d : dispatcher) : dispatcher :=
  match ls with
  | [] => d
  | l :: ls' =>
      notify_all f ls'
        (if alive l (world d) then
           let '(w, threw) := invoke f l (world d) in
           mkDispatcher w (calls d ++ [(f, l, threw)])
         else d)
  end.

Definition handler (s : dispatch_state) (e : Event dispatch_event) (d : dispatcher) :
    outcome (verdict dispatch_state * dispatcher) :=
  match e with
  | Entry_Signal | Exit_Signal => Done (Handled, d)
  | User (DispatchTask_Signal p) =>
      Done (Handled,
        match p with
        | Some t => match invoker t with
                    | Some f => notify_all f (listeners t) d
                    | None => d
                    end
        | None => d
        end)
  | _ => Done (Super top, d)
  end.

Definition parent (s : dispatch_state) : option dispatch_state := None.
Definition lineage (s : dispatch_state) : list dispatch_state := [s].
Definition swallow (s : dispatch_state) : bool := false.

(** [start] and [enqueue]. *)
Definition start (c : AO dispatch_state dispatch_event dispatcher) :
    outcome (AO dispatch_state dispatch_event dispatcher) :=
  if running_ c then Done c else start_at handler false true (st Dispatching_St) c.

Definition enqueue (t : DispatchTask) (c : AO dispatch_state dispatch_event dispatcher) :=
  post_fifo (DispatchTask_Signal (Some t)) c.

#[global] Instance wf_dispatching : wf_chart handler parent lineage swallow.
Proof.
  constructor; try done.
  - intros s. unfold lineage, kMaxNest. simpl. lia.
  - intros s d v d' [= <- _]. by left.
  - by intros s [p] d v d' [= <- _].
Qed.

(** *** What a task does *)

(** The listeners a task reaches, with the world each is called in: those
    alive when their turn comes. *)
Fixpoint reached (f : I) (ls : list L) (w : W) : list (I * L * bool) * W :=
  match ls with
  | [] => ([], w)
  | l :: ls' =>
      if alive l w then
        let '(w1, threw) := invoke f l w in
        let '(r, w2) := reached f ls' w1 in ((f, l, threw) :: r, w2)
      else reached f ls' w
  end.

Lemma notify_all_reached f ls d :
  notify_all f ls d =
    mkDispatcher (snd (reached f ls (world d))) (calls d ++ fst (reached f ls (world d))).
Proof.
  revert d. induction ls as [|l ls IH]; intros [w c]; simpl.
  - by rewrite app_nil_r.
  - rewrite IH. destruct (alive l w); simpl; [|done].
    destruct (invoke f l w) as [w1 b]. simpl. destruct (reached f ls w1) as [r w2]. simpl.
    by rewrite <- (assoc_L (++)).
Qed.

(** The effect of a sequence of tasks on the dispatcher. *)
Definition run_task (d : dispatcher) (p : post dispatch_event) : dispatcher :=
  match payload p with
  | DispatchTask_Signal (Some t) =>
      match invoker t with Some f => notify_all f (listeners t) d | None => d end
  | DispatchTask_Signal None => d
  end.

Lemma run_tasks ps d leaf d' :
  chart_run handler (fun d => d) lineage ps (Dispatching_St, d) = Done (leaf, d') ->
  d' = foldl run_task d ps.
Proof.
  revert d. induction ps as [|p ps IH]; intros d; simpl; [intros Hd; congruence|].
  unfold chart_step, run_task at 2. simpl.
  destruct (payload p) as [[t|]]; simpl; [destruct (invoker t)|]; simpl; apply IH.
Qed.
End ListenerDispatchAO.

Arguments DispatchTask : clear implicits.
Arguments dispatch_event : clear implicits.
Arguments dispatcher : clear implicits.

(** Listener callbacks run task by task, in the order the tasks were
    processed, and within a task in the order of its listeners, each listener
    that is still alive when its turn comes being called exactly once; an
    invoker that throws neither stops the task nor the tasks behind it. *)
Theorem listeners_notified {L I W} (alive : L -> W -> bool) (invoke : I -> L -> W -> W * bool)
    (h : Hsm dispatch_state (dispatch_event L I) (dispatcher L I W))
    (c : AO dispatch_state (dispatch_event L I) (dispatcher L I W)) :
  state_ h = st Dispatching_St ->
  rtc (steps (handler alive invoke) false (fun _ => []) (fun d => d)) (started h) c ->
  self (hsm c) = foldl (run_task alive invoke) (self h) (done c) /\
  forall f ls d, notify_all alive invoke f ls d =
    mkDispatcher (snd (reached alive invoke f ls (world d)))
      (calls d ++ fst (reached alive invoke f ls (world d))).
Proof.
  intros Hst Hr. split; [|apply notify_all_reached].
  destruct (reach_chart (handler alive invoke) false (fun _ => []) (fun d => d) parent lineage
    swallow Dispatching_St h c Hst Hr) as (leaf & Hc & _).
  by apply run_tasks in Hc.
Qed.

(** *** Witness: three listeners, one expired, one whose callback throws *)

Module ListenerDemo.
Definition alive_ (l : nat) (w : list nat) : bool := bool_decide (l ∈ w).
Definition invoke_ (f : string) (l : nat) (w : list nat) : list nat * bool :=
  (w, bool_decide (l = 2)).

Definition booted : Hsm dispatch_state (dispatch_event nat string) (dispatcher nat string (list nat)) :=
  mkHsm (st Dispatching_St) (st Dispatching_St) false false [] false [] (mkDispatcher [1; 2] []).

Definition script : list (action (E := dispatch_event nat string)) :=
  [APost (Fifo (DispatchTask_Signal (Some (mkTask [2; 3; 1] (Some "onX") "x")))); AWait; ADispatch].

Definition after : AO dispatch_state (dispatch_event nat string) (dispatcher nat string (list nat)) :=
  default (started booted)
    (run_schedule (handler alive_ invoke_) false (fun _ => []) (fun d => d) script (started booted)).

(** The calls made: the expired listener 3 is skipped, the exception of 2 is
    swallowed. *)
Example after_calls : calls (self (hsm after)) = [("onX", 2, true); ("onX", 1, false)].
Proof. reflexivity. Qed.
End ListenerDemo.

Lemma listeners_notified_witness :
  self (hsm ListenerDemo.after) =
    foldl (run_task ListenerDemo.alive_ ListenerDemo.invoke_) (mkDispatcher [1; 2] [])
      (done ListenerDemo.after).
Proof.
  apply (listeners_notified ListenerDemo.alive_ ListenerDemo.invoke_ ListenerDemo.booted).
  - reflexivity.
  - eapply rtc_l; [exists (APost (Fifo (DispatchTask_Signal
        (Some (mkTask [2; 3; 1] (Some "onX") "x"))))); reflexivity|].
    eapply rtc_l; [exists AWait; reflexivity|].
    eapply rtc_l; [exists ADispatch; reflexivity|]. apply rtc_refl.
Defined.
