(* ===== verification/ModemBridge.v ===== *)
(** * The MQTT bridge (common/ModemBridge.cpp, ModemBridge.hpp, Signals.hpp)

    The active object through which every manager talks to the simulated modem:
    broker connection life cycle, request/response calls with correlation ids
    and timeouts, event subscriptions, connectivity observers.  One definition
    per state handler and helper of ModemBridge.cpp.

    libmosquitto, the JSON library and the schema validator are not part of the
    repository: calls to libmosquitto are recorded in [wire] and their return
    codes come from an arbitrary function [rc_of] of the call and the calls made
    before it; parsing, printing and validation are parameters.  Callbacks of
    the managers are identified by [C]; invoking one is recorded in [out] (what
    it posts in turn is a post like any other thread's).  The clock does not
    advance within one handler. *)

From stdpp Require Import pretty.
From S2P Require Import Prelude Hsm HsmSpec ActiveObject Defer Json Envelope.

Local Open Scope Z_scope.

(** ** Configuration and identity *)

Record BrokerConfig := mkConfig {
  use_uds : bool;
  host : string;
  port : Z;
  keepalive_s : Z;
  connect_timeout : Z;       (* ms *)
  backoff_initial : Z;       (* ms *)
  backoff_max : Z;           (* ms *)
  socket_path : string }.

Definition default_config (default_uds : bool) : BrokerConfig :=
  mkConfig default_uds "localhost" 1883 60 5000 500 30000 "".

(** [readWhoami_]: [home] is [$HOME], [file] the first line of [~/.whoami] when
    it can be opened. *)
Definition readWhoami_ (home file : option string) : string :=
  match home, file with
  | Some _, Some line =>
      let role := pop_back_trailing line in
      if decide (role = EmptyString) then "unknown" else role
  | _, _ => "unknown"
  end.

Definition readProcessName_ (comm : option string) : string :=
  match comm with
  | Some name => if decide (name = EmptyString) then "pa" else name
  | None => "pa"
  end.

(** ["%04x"] of the low 16 bits of a 32-bit random number. *)
Definition drawShortId_ (r : Z) : string := hex 4 (Z.land r 0xFFFF) EmptyString.

Definition buildPaId (comm home file : option string) (r : Z) : string :=
  readProcessName_ comm +:+ "-" +:+ readWhoami_ home file +:+ "-" +:+ drawShortId_ r.

Definition computeBrokerUri_ (uds_socket : string) (cfg : BrokerConfig) : string :=
  if use_uds cfg then
    "unix://" +:+ (if decide (socket_path cfg = EmptyString) then uds_socket else socket_path cfg)
  else "tcp://" +:+ host cfg +:+ ":" +:+ pretty (port cfg).

(** [mosquitto_reconnect_delay_set] arguments of [start]: milliseconds to
    seconds by truncating division, at least one, as [unsigned int]. *)
Definition reconnect_delays (cfg : BrokerConfig) : Z * Z :=
  let rd := Z.max 1 (Z.quot (backoff_initial cfg) 1000) mod 2 ^ 32 in
  (rd, Z.max rd (Z.quot (backoff_max cfg) 1000) mod 2 ^ 32).

(** [resolveReqSchemaId_]: strip the prefix, turn slashes into dots. *)
Fixpoint strip_prefix (p s : string) : option string :=
  match p, s with
  | EmptyString, _ => Some s
  | String a p', String b s' => if decide (a = b) then strip_prefix p' s' else None
  | String _ _, EmptyString => None
  end.

Definition slash : Ascii.ascii := Ascii.ascii_of_nat 47.
Definition dot : Ascii.ascii := Ascii.ascii_of_nat 46.

Fixpoint replace_char (a b : Ascii.ascii) (s : string) : string :=
  match s with
  | EmptyString => EmptyString
  | String c s' => String (if decide (c = a) then b else c) (replace_char a b s')
  end.

Definition resolveReqSchemaId_ (topic : string) : string :=
  match strip_prefix "mp/req/" topic with
  | Some rest => replace_char slash dot rest +:+ ".req"
  | None =>
      match strip_prefix "ap/req/" topic with
      | Some rest => replace_char slash dot rest +:+ ".req"
      | None => EmptyString
      end
  end.

Definition kRspWildcard : string := "mp/rsp/#".
Definition kApRspWildcard : string := "ap/rsp/#".

(** ** State and events *)

Section ModemBridge.
Context {json : Type} `{Json json}.
(** Managers' callbacks; a null [std::function] is [None]. *)
Context {C : Type}.

(** [nlohmann::json::parse] ([None]: it throws), [json::dump] ([None]: it throws,
    on a string that is not UTF-8), and the generated schema table with the
    validator ([None]: unknown schema, or the validator throws). *)
Context (parse : string -> option json) (dump : json -> option string).
Context (schema_check : string -> json -> option bool).

(** Calls into libmosquitto. *)
Inductive mosq_call :=
  | MReconnectDelay (delay delay_max : Z)
  | MConnectAsync (host : string) (port keepalive : Z)
  | MLoopStart
  | MSubscribe (topic : string)
  | MUnsubscribe (topic : string)
  | MPublish (topic body : string)
  | MDisconnect
  | MLoopStop.

Context (rc_of : list mosq_call -> mosq_call -> Z).
Context (uds_socket : string).

Context (clock_at token_at : nat -> Z).

Definition MOSQ_ERR_SUCCESS : Z := 0.
Definition MOSQ_ERR_INVAL : Z := 3.

(** What the bridge's timers do when they fire. *)
Inductive timer_fn := ConnectTimer | RspTimer (corrId : string).

(** [TimerService::schedule] (one-shot; the token it returned) and [cancel]. *)
Inductive timer_op := Scheduled (f : timer_fn) (due token : Z) | Cancelled (token : Z).

(** Invocations of managers' callbacks. *)
Inductive call :=
  | RpcCall (cb : C) (rsp : option (Envelope json))
  | EventCall (cb : C) (topic : string) (env : Envelope json)
  | ConnCall (token : Z) (cb : C) (operational : bool).

Record SendReqPld := mkSendReq {
  sr_topic : string;
  sr_rsp_schema_id : string;
  sr_envelope : Envelope json;
  sr_cb : option C;
  sr_deadline : Z }.

Record PublishOnewayPld := mkOneway {
  po_topic : string;
  po_schema_id : string;
  po_envelope : Envelope json }.

(** The signals of Signals.hpp with their payloads; a [DrainPld] is named by a
    number. *)
Inductive bridge_event :=
  | Start_Signal
  | Stop_Signal
  | LinkUp_Signal (rc : Z)
  | LinkDown_Signal (rc : Z)
  | ConnectTimeout_Signal
  | Backoff_Signal
  | AllSubAcked_Signal
  | SendReq_Signal (p : SendReqPld)
  | RspTimeout_Signal (corrId : string)
  | EvtRecv_Signal (topic body : string)
  | SubscribeEvent_Signal (topic schema_id : string) (cb : option C)
  | UnsubscribeEvent_Signal (topic : string)
  | SubscribeConnectivity_Signal (token : Z) (cb : option C)
  | UnsubscribeConnectivity_Signal (token : Z)
  | Drain_Signal (fence : positive)
  | DispatchTask_Signal
  | PublishOneway_Signal (p : PublishOnewayPld).

(** The ids of Signals.hpp. *)
Definition User_Signal_Begin : Z := 4.

Definition signal_id (e : bridge_event) : Z :=
  User_Signal_Begin +
  match e with
  | Start_Signal => 0 | Stop_Signal => 1 | LinkUp_Signal _ => 2 | LinkDown_Signal _ => 3
  | ConnectTimeout_Signal => 4 | Backoff_Signal => 5 | AllSubAcked_Signal => 6
  | SendReq_Signal _ => 7 | RspTimeout_Signal _ => 8 | EvtRecv_Signal _ _ => 9
  | SubscribeEvent_Signal _ _ _ => 10 | UnsubscribeEvent_Signal _ => 11
  | SubscribeConnectivity_Signal _ _ => 12 | UnsubscribeConnectivity_Signal _ => 13
  | Drain_Signal _ => 14 | DispatchTask_Signal => 15 | PublishOneway_Signal _ => 16
  end.

Definition Common_Signal_End : Z := User_Signal_Begin + 17.

Inductive bridge_state :=
  | NotOperational_St | Disconnected_St | Connecting_St | Connected_St
  | Subscribing_St | Operational_St | Backoff_St | ShuttingDown_St.

#[global] Instance bridge_state_eq_dec : EqDecision bridge_state.
Proof. solve_decision. Defined.

Record InFlight := mkInFlight {
  if_topic : string;
  if_rsp_schema_id : string;
  if_cb : option C;
  if_timer_token : Z }.

Record Subscription := mkSubscription { sub_schema_id : string; sub_cb : option C }.

(** The members of [ModemBridge].  [client_] tells whether the handle is
    non-null; [conn_tok] is the token of the TimeEvent [connect_timeout_].
    [reads] counts the readings of the clock.  [outbox] holds the posts the current
    dispatch makes on the bridge itself, [wire] the library calls made, [out]
    the callbacks invoked, [drained] the fences fulfilled. *)
Record Bridge := mkBridge {
  cfg_ : BrokerConfig;
  pa_id_ : string;
  client_ : bool;
  in_flight_ : gmap string InFlight;
  subscriptions_ : gmap string Subscription;
  connectivity_observers_ : gmap Z (option C);
  consecutive_failures_ : Z;
  conn_tok : option Z;
  deferred_ : DeferQueue bridge_event;
  reads : nat;
  timer_ops : list timer_op;
  outbox : list (post bridge_event);
  wire : list mosq_call;
  out : list call;
  drained : list positive }.

Definition set_in_flight m b := mkBridge (cfg_ b) (pa_id_ b) (client_ b) m (subscriptions_ b)
  (connectivity_observers_ b) (consecutive_failures_ b) (conn_tok b) (deferred_ b) (reads b) (timer_ops b)
  (outbox b) (wire b) (out b) (drained b).
Definition set_subscriptions m b := mkBridge (cfg_ b) (pa_id_ b) (client_ b) (in_flight_ b) m
  (connectivity_observers_ b) (consecutive_failures_ b) (conn_tok b) (deferred_ b) (reads b) (timer_ops b)
  (outbox b) (wire b) (out b) (drained b).
Definition set_observers m b := mkBridge (cfg_ b) (pa_id_ b) (client_ b) (in_flight_ b)
  (subscriptions_ b) m (consecutive_failures_ b) (conn_tok b) (deferred_ b) (reads b) (timer_ops b)
  (outbox b) (wire b) (out b) (drained b).
Definition set_failures n b := mkBridge (cfg_ b) (pa_id_ b) (client_ b) (in_flight_ b)
  (subscriptions_ b) (connectivity_observers_ b) n (conn_tok b) (deferred_ b) (reads b) (timer_ops b)
  (outbox b) (wire b) (out b) (drained b).
Definition set_timer t n ops b := mkBridge (cfg_ b) (pa_id_ b) (client_ b) (in_flight_ b)
  (subscriptions_ b) (connectivity_observers_ b) (consecutive_failures_ b) t (deferred_ b) n ops
  (outbox b) (wire b) (out b) (drained b).
Definition set_deferred q b := mkBridge (cfg_ b) (pa_id_ b) (client_ b) (in_flight_ b)
  (subscriptions_ b) (connectivity_observers_ b) (consecutive_failures_ b) (conn_tok b) q
  (reads b) (timer_ops b) (outbox b) (wire b) (out b) (drained b).
Definition set_outbox l b := mkBridge (cfg_ b) (pa_id_ b) (client_ b) (in_flight_ b)
  (subscriptions_ b) (connectivity_observers_ b) (consecutive_failures_ b) (conn_tok b)
  (deferred_ b) (reads b) (timer_ops b) l (wire b) (out b) (drained b).
Definition add_wire c b := mkBridge (cfg_ b) (pa_id_ b) (client_ b) (in_flight_ b)
  (subscriptions_ b) (connectivity_observers_ b) (consecutive_failures_ b) (conn_tok b)
  (deferred_ b) (reads b) (timer_ops b) (outbox b) (wire b ++ [c]) (out b) (drained b).
Definition add_out l b := mkBridge (cfg_ b) (pa_id_ b) (client_ b) (in_flight_ b)
  (subscriptions_ b) (connectivity_observers_ b) (consecutive_failures_ b) (conn_tok b)
  (deferred_ b) (reads b) (timer_ops b) (outbox b) (wire b) (out b ++ l) (drained b).
Definition set_drained l b := mkBridge (cfg_ b) (pa_id_ b) (client_ b) (in_flight_ b)
  (subscriptions_ b) (connectivity_observers_ b) (consecutive_failures_ b) (conn_tok b)
  (deferred_ b) (reads b) (timer_ops b) (outbox b) (wire b) (out b) l.

(** [post_fifo] on the bridge from its own handlers. *)
Definition self_post (e : bridge_event) (b : Bridge) : Bridge :=
  set_outbox (outbox b ++ [Fifo e]) b.

Definition flush (b : Bridge) : Bridge := set_outbox [] b.

(** A library call and its return code. *)
Definition mosq (c : mosq_call) (b : Bridge) : Z * Bridge := (rc_of (wire b) c, add_wire c b).
Definition mosq_ (c : mosq_call) (b : Bridge) : Bridge := snd (mosq c b).

(** [try { cb(rsp); } catch (...) {}]: a null function throws
    [bad_function_call], which is swallowed like anything a callback throws. *)
Definition call_rpc (cb : option C) (rsp : option (Envelope json)) (b : Bridge) : Bridge :=
  match cb with Some c => add_out [RpcCall c rsp] b | None => b end.

Definition call_conn (token : Z) (cb : option C) (operational : bool) (b : Bridge) : Bridge :=
  match cb with Some c => add_out [ConnCall token c operational] b | None => b end.

Definition call_event (cb : option C) (topic : string) (env : Envelope json) (b : Bridge) : Bridge :=
  match cb with Some c => add_out [EventCall c topic env] b | None => b end.

(** [DrainPld::fulfil]. *)
Definition fulfil (n : positive) (b : Bridge) : Bridge :=
  if decide (n ∈ drained b) then b else set_drained (drained b ++ [n]) b.

(** [TimerService::Clock::now()]. *)
Definition clock_now (b : Bridge) : Z * Bridge :=
  (clock_at (reads b), set_timer (conn_tok b) (S (reads b)) (timer_ops b) b).

Definition schedule_timer (f : timer_fn) (due : Z) (b : Bridge) : Z * Bridge :=
  let t := token_at (length (timer_ops b)) in
  (t, set_timer (conn_tok b) (reads b) (timer_ops b ++ [Scheduled f due t]) b).

Definition cancel_op (t : Z) (b : Bridge) : Bridge :=
  set_timer (conn_tok b) (reads b) (timer_ops b ++ [Cancelled t]) b.

(** [if (timer_token != 0) cancel(timer_token)]. *)
Definition cancel_timer (t : Z) (b : Bridge) : Bridge :=
  if decide (t <> 0) then cancel_op t b else b.

(** [connect_timeout_.disarm()] and [.arm_one_shot(delay)]. *)
Definition disarm_watchdog (b : Bridge) : Bridge :=
  match conn_tok b with
  | Some t => let b := cancel_op t b in set_timer None (reads b) (timer_ops b) b
  | None => b
  end.

Definition arm_watchdog (delay : Z) (b : Bridge) : Bridge :=
  let b := disarm_watchdog b in
  let '(now, b) := clock_now b in
  let '(t, b) := schedule_timer ConnectTimer (now + delay) b in
  set_timer (Some t) (reads b) (timer_ops b) b.

(** ** Helpers *)

Definition issueAllSubscribes_ (b : Bridge) : Bridge :=
  let b := mosq_ (MSubscribe kRspWildcard) b in
  let b := mosq_ (MSubscribe kApRspWildcard) b in
  foldl (fun b kv => mosq_ (MSubscribe (fst kv)) b) b (string_items (subscriptions_ b)).

(** The loop runs over a copy of the map. *)
Definition notifyConnectivity_ (operational : bool) (b : Bridge) : Bridge :=
  foldl (fun b kv => call_conn (fst kv) (snd kv) operational b) b
    (token_items (connectivity_observers_ b)).

Definition fail_entry (b : Bridge) (kv : string * InFlight) : Bridge :=
  call_rpc (if_cb (snd kv)) None (cancel_timer (if_timer_token (snd kv)) b).

Definition fail_deferred (b : Bridge) (e : bridge_event) : Bridge :=
  match e with SendReq_Signal p => call_rpc (sr_cb p) None b | _ => b end.

(** [in_flight_] is unordered: its iteration order is the one [map_to_list]
    happens to have.  The second loop pops [deferred_] until it is empty. *)
Definition failAllInFlight_ (b : Bridge) : Bridge :=
  let b := set_in_flight ∅ (foldl fail_entry b (map_to_list (in_flight_ b))) in
  set_deferred [] (foldl fail_deferred b (deferred_ b)).

Definition validate_ (schema_id : string) (payload : json) : bool :=
  default true (schema_check schema_id payload).

(** [schema_id.empty()] or no data, or the data is valid. *)
Definition data_valid (schema_id : string) (env : Envelope json) : bool :=
  match data env with Some d => validate_ schema_id d | None => true end.

Definition doSendRequest_ (p : SendReqPld) (b : Bridge) : outcome Bridge :=
  let '(now, b) := clock_now b in
  if decide (sr_deadline p <= now) then Done (call_rpc (sr_cb p) None b)
  else
    let req_schema_id := resolveReqSchemaId_ (sr_topic p) in
    if negb (bool_decide (req_schema_id = EmptyString)) &&
       negb (data_valid req_schema_id (sr_envelope p))
    then Done (call_rpc (sr_cb p) None b)
    else
      let remaining := sr_deadline p - now in
      let cid := corrId (sr_envelope p) in
      let '(now2, b) := clock_now b in
      let '(t, b) := schedule_timer (RspTimer cid) (now2 + remaining) b in
      let inf := mkInFlight (sr_topic p) (sr_rsp_schema_id p) (sr_cb p) t in
      (* emplace: no effect when the key exists *)
      let b := if decide (is_Some (in_flight_ b !! cid)) then b
               else set_in_flight (<[cid := inf]> (in_flight_ b)) b in
      match dump (toJson (sr_envelope p)) with
      | None => Fail Terminate
      | Some body =>
          let '(rc, b) := mosq (MPublish (sr_topic p) body) b in
          if decide (rc <> MOSQ_ERR_SUCCESS) then
            match in_flight_ b !! cid with
            | Some old =>
                let b := cancel_timer (if_timer_token old) b in
                Done (call_rpc (if_cb old) None (set_in_flight (delete cid (in_flight_ b)) b))
            | None => Done b
            end
          else Done b
      end.

Definition doPublishOneway_ (p : PublishOnewayPld) (b : Bridge) : outcome Bridge :=
  if negb (bool_decide (po_schema_id p = EmptyString)) &&
     negb (data_valid (po_schema_id p) (po_envelope p))
  then Done b
  else
    match dump (toJson (po_envelope p)) with
    | None => Fail Terminate
    | Some body => Done (mosq_ (MPublish (po_topic p) body) b)
    end.

(** ** State handlers *)

(** [return Status::HANDLED], [self->to(t)], [self->super(p)] after the effects. *)
Definition result : Type := outcome (verdict bridge_state * Bridge).
Definition handled (b : Bridge) : result := Done (Handled, b).
Definition goto (t : bridge_state) (b : Bridge) : result := Done (To (st t), b).
Definition super (p : StateFn bridge_state) (b : Bridge) : result := Done (Super p, b).

Definition fail_count (b : Bridge) : Bridge := set_failures (consecutive_failures_ b + 1) b.

Definition on_NotOperational (e : Event bridge_event) (b : Bridge) : result :=
  match e with
  | Entry_Signal | Exit_Signal => handled b
  | User (SubscribeConnectivity_Signal tok cb) =>
      handled (set_observers (<[tok := cb]> (connectivity_observers_ b)) b)
  | User (UnsubscribeConnectivity_Signal tok) =>
      handled (set_observers (delete tok (connectivity_observers_ b)) b)
  | User (SubscribeEvent_Signal topic sid cb) =>
      handled (set_subscriptions (<[topic := mkSubscription sid cb]> (subscriptions_ b)) b)
  | User (UnsubscribeEvent_Signal topic) =>
      handled (set_subscriptions (delete topic (subscriptions_ b)) b)
  | User (Drain_Signal n) => handled (fulfil n b)
  | _ => super top b
  end.

Definition on_Disconnected (e : Event bridge_event) (b : Bridge) : result :=
  match e with
  | Entry_Signal => handled b
  | User Start_Signal => goto Connecting_St b
  | User (SendReq_Signal p) => handled (call_rpc (sr_cb p) None b)
  | User (PublishOneway_Signal p) => handled b
  | User Stop_Signal => goto ShuttingDown_St b
  | _ => super (st NotOperational_St) b
  end.

(** Entry of Connecting: connect, start the network thread, arm the watchdog. *)
Definition connecting_entry (b : Bridge) : Bridge :=
  let c := cfg_ b in
  let '(h, p) := if use_uds c
                 then (if decide (socket_path c = EmptyString) then uds_socket else socket_path c, 0)
                 else (host c, port c) in
  let '(rc, b) := mosq (MConnectAsync h p (keepalive_s c)) b in
  let b := if decide (rc <> MOSQ_ERR_SUCCESS) then self_post (LinkDown_Signal (-1)) b
           else mosq_ MLoopStart b in
  arm_watchdog (connect_timeout (cfg_ b)) b.

Definition on_Connecting (e : Event bridge_event) (b : Bridge) : result :=
  match e with
  | Entry_Signal => handled (connecting_entry b)
  | Exit_Signal => handled (disarm_watchdog b)
  | User (LinkUp_Signal rc) =>
      if decide (rc = 0) then goto Connected_St (set_failures 0 b)
      else goto Backoff_St (fail_count b)
  | User ConnectTimeout_Signal | User (LinkDown_Signal _) => goto Backoff_St (fail_count b)
  | User Stop_Signal => goto ShuttingDown_St b
  | User (SendReq_Signal p) => handled (set_deferred (defer (deferred_ b) (SendReq_Signal p)) b)
  | User (PublishOneway_Signal p) =>
      handled (set_deferred (defer (deferred_ b) (PublishOneway_Signal p)) b)
  | _ => super (st NotOperational_St) b
  end.

Definition on_Connected (e : Event bridge_event) (b : Bridge) : result :=
  match e with
  | Entry_Signal => handled b
  | Init_Signal => goto Subscribing_St b
  | User (LinkDown_Signal _) => goto Backoff_St (fail_count b)
  | User Stop_Signal => goto ShuttingDown_St b
  | User (UnsubscribeConnectivity_Signal tok) =>
      handled (set_observers (delete tok (connectivity_observers_ b)) b)
  | User (Drain_Signal n) => handled (fulfil n b)
  | User (SubscribeEvent_Signal topic sid cb) =>
      handled (mosq_ (MSubscribe topic)
                 (set_subscriptions (<[topic := mkSubscription sid cb]> (subscriptions_ b)) b))
  | User (UnsubscribeEvent_Signal topic) =>
      handled (mosq_ (MUnsubscribe topic)
                 (set_subscriptions (delete topic (subscriptions_ b)) b))
  | _ => super top b
  end.

Definition on_Subscribing (e : Event bridge_event) (b : Bridge) : result :=
  match e with
  | Entry_Signal => handled (self_post AllSubAcked_Signal (issueAllSubscribes_ b))
  | User AllSubAcked_Signal => goto Operational_St b
  | User (SubscribeConnectivity_Signal tok cb) =>
      handled (set_observers (<[tok := cb]> (connectivity_observers_ b)) b)
  | User (SendReq_Signal p) => handled (set_deferred (defer (deferred_ b) (SendReq_Signal p)) b)
  | User (PublishOneway_Signal p) =>
      handled (set_deferred (defer (deferred_ b) (PublishOneway_Signal p)) b)
  | _ => super (st Connected_St) b
  end.

(** [chart::recall_all(deferred_, *self)]: [post_fifo] of each event in turn. *)
Definition recall_deferred (b : Bridge) : Bridge :=
  set_deferred [] (foldl (fun b e => self_post e b) b (deferred_ b)).

(** A response addressed to this process. *)
Definition on_response (env : Envelope json) (b : Bridge) : Bridge :=
  match in_flight_ b !! corrId env with
  | None => b
  | Some inf =>
      let b := cancel_timer (if_timer_token inf) b in
      let b := set_in_flight (delete (corrId env) (in_flight_ b)) b in
      if negb (data_valid (if_rsp_schema_id inf) env)
      then call_rpc (if_cb inf) None b
      else call_rpc (if_cb inf) (Some env) b
  end.

Definition on_indication (topic : string) (env : Envelope json) (b : Bridge) : Bridge :=
  match subscriptions_ b !! topic with
  | None => b
  | Some s =>
      if negb (data_valid (sub_schema_id s) env) then b
      else call_event (sub_cb s) topic env b
  end.

Definition on_message (topic body : string) (b : Bridge) : Bridge :=
  match parse body with
  | None => b
  | Some j =>
      match fromJson j with
      | inl _ => b
      | inr env =>
          match dest env with
          | Some d => if decide (d <> pa_id_ b) then b else on_response env b
          | None => on_indication topic env b
          end
      end
  end.

Definition on_rsp_timeout (cid : string) (b : Bridge) : Bridge :=
  match in_flight_ b !! cid with
  | None => b
  | Some inf => call_rpc (if_cb inf) None (set_in_flight (delete cid (in_flight_ b)) b)
  end.

Definition on_Operational (e : Event bridge_event) (b : Bridge) : result :=
  match e with
  | Entry_Signal => handled (recall_deferred (notifyConnectivity_ true b))
  | Exit_Signal => handled (failAllInFlight_ (notifyConnectivity_ false b))
  | User (SendReq_Signal p) => b ← doSendRequest_ p b; handled b
  | User (PublishOneway_Signal p) => b ← doPublishOneway_ p b; handled b
  | User (SubscribeConnectivity_Signal tok cb) =>
      let b := call_conn tok cb true b in
      handled (set_observers (<[tok := cb]> (connectivity_observers_ b)) b)
  | User (EvtRecv_Signal topic body) => handled (on_message topic body b)
  | User (RspTimeout_Signal cid) => handled (on_rsp_timeout cid b)
  | _ => super (st Connected_St) b
  end.

Definition on_Backoff (e : Event bridge_event) (b : Bridge) : result :=
  match e with
  | Entry_Signal => handled (failAllInFlight_ (notifyConnectivity_ false b))
  | User (LinkUp_Signal rc) =>
      if decide (rc = 0) then goto Connected_St (set_failures 0 b) else handled b
  | User Stop_Signal => goto ShuttingDown_St b
  | User (SendReq_Signal p) => handled (set_deferred (defer (deferred_ b) (SendReq_Signal p)) b)
  | User (LinkDown_Signal _) => handled b
  | _ => super (st NotOperational_St) b
  end.

Definition shutdown_entry (b : Bridge) : Bridge :=
  let b := failAllInFlight_ (notifyConnectivity_ false b) in
  if client_ b then mosq_ MLoopStop (mosq_ MDisconnect b) else b.

Definition on_ShuttingDown (e : Event bridge_event) (b : Bridge) : result :=
  match e with
  | Entry_Signal => handled (shutdown_entry b)
  | User (Drain_Signal n) => handled (fulfil n b)
  | _ => handled b
  end.

Definition handler (s : bridge_state) : Event bridge_event -> Bridge -> result :=
  match s with
  | NotOperational_St => on_NotOperational
  | Disconnected_St => on_Disconnected
  | Connecting_St => on_Connecting
  | Connected_St => on_Connected
  | Subscribing_St => on_Subscribing
  | Operational_St => on_Operational
  | Backoff_St => on_Backoff
  | ShuttingDown_St => on_ShuttingDown
  end.

(** ** Hierarchy *)

Definition parent (s : bridge_state) : option bridge_state :=
  match s with
  | Disconnected_St | Connecting_St | Backoff_St => Some NotOperational_St
  | Subscribing_St | Operational_St => Some Connected_St
  | _ => None
  end.

Definition lineage (s : bridge_state) : list bridge_state := s :: option_list (parent s).

Definition swallow (s : bridge_state) : bool := bool_decide (s = ShuttingDown_St).

#[global] Instance wf_bridge : wf_chart handler parent lineage swallow.
Proof.
  constructor.
  - by intros [].
  - intros []; unfold lineage, kMaxNest; simpl; lia.
  - by intros [].
  - by intros [] ? [= <-].
  - by intros [] ?.
  - intros [] b v b'; simpl; intros [= <- _]; auto.
  - intros s e b v b'; destruct s, e; simpl; try case_decide;
      repeat match goal with
        | |- context [doSendRequest_ ?p ?b] => destruct (doSendRequest_ p b)
        | |- context [doPublishOneway_ ?p ?b] => destruct (doPublishOneway_ p b)
        end; simpl; intros [= <- _]; simpl; eauto.
  - intros [] b t b'; simpl; intros [= <- _]. eexists. split; [done|]. by left.
Qed.

(** ** The public interface *)

Inductive State := Disconnected | Connecting | Subscribing | Operational | Backoff | ShuttingDown.

Definition currentState (current : StateFn bridge_state) : State :=
  match current with
  | st Disconnected_St => Disconnected
  | st Connecting_St => Connecting
  | st Subscribing_St => Subscribing
  | st Operational_St => Operational
  | st Backoff_St => Backoff
  | st ShuttingDown_St => ShuttingDown
  | _ => Disconnected
  end.

Definition AOBridge : Type := AO bridge_state bridge_event Bridge.

Definition with_self (b : Bridge) (c : AOBridge) : AOBridge :=
  mkAO (set_self b (hsm c)) (q_ c) (running_ c) (worker_ c) (stopper c) (notifies c)
    (accepted c) (done c).

Definition setBrokerConfig (ndebug : bool) (cfg : BrokerConfig) (c : AOBridge) : outcome AOBridge :=
  if running_ c && negb ndebug then Fail AssertFailed
  else
    let b := self (hsm c) in
    Done (with_self (mkBridge cfg (pa_id_ b) (client_ b) (in_flight_ b) (subscriptions_ b)
      (connectivity_observers_ b) (consecutive_failures_ b) (conn_tok b) (deferred_ b) (reads b) (timer_ops b)
      (outbox b) (wire b) (out b) (drained b)) c).

(** [start]; [mosquitto_new] may fail ([new_ok] false). *)
Definition start (ndebug new_ok : bool) (c : AOBridge) : outcome AOBridge :=
  if running_ c then Done c
  else
    let b := self (hsm c) in
    let set_client k := mkBridge (cfg_ b) (pa_id_ b) k (in_flight_ b) (subscriptions_ b)
      (connectivity_observers_ b) (consecutive_failures_ b) (conn_tok b) (deferred_ b) (reads b) (timer_ops b)
      (outbox b) (wire b) (out b) (drained b) in
    if negb new_ok then Done (with_self (set_client false) c)
    else
      let '(rd, rd_max) := reconnect_delays (cfg_ b) in
      let b := mosq_ (MReconnectDelay rd rd_max) (set_client true) in
      c ← start_at handler ndebug false (st Disconnected_St) (with_self b c);
      Done (post_fifo Start_Signal c).

(** The calls that only post; [now] is the caller's clock. *)
Definition send_request (now : Z) (topic rsp_schema_id : string) (req : Envelope json)
    (cb : option C) (timeout : Z) (c : AOBridge) : AOBridge :=
  post_fifo (SendReq_Signal (mkSendReq topic rsp_schema_id req cb (now + timeout))) c.

Definition subscribe_event (topic schema_id : string) (cb : option C) (c : AOBridge) : AOBridge :=
  post_fifo (SubscribeEvent_Signal topic schema_id cb) c.

Definition publish_oneway (topic schema_id : string) (msg : Envelope json) (c : AOBridge) : AOBridge :=
  post_fifo (PublishOneway_Signal (mkOneway topic schema_id msg)) c.

Definition unsubscribe_event (topic : string) (c : AOBridge) : AOBridge :=
  post_fifo (UnsubscribeEvent_Signal topic) c.

(** [next_conn_token_] is the atomic counter; [fetch_add] is atomic. *)
Definition subscribe_connectivity (cb : option C) (next_conn_token_ : Z) (c : AOBridge) :
    Z * Z * AOBridge :=
  (next_conn_token_, (next_conn_token_ + 1) mod 2 ^ 64,
   post_fifo (SubscribeConnectivity_Signal next_conn_token_ cb) c).

Definition unsubscribe_connectivity (token : Z) (c : AOBridge) : AOBridge :=
  if decide (token = 0) then c else post_fifo (UnsubscribeConnectivity_Signal token) c.

(** [drain] up to [fut.wait()]: [None] when it returns at once, [Some] of the
    object with the fence posted otherwise; the caller then waits until the
    fence is among [drained] (or the post was dropped). *)
Definition drain (ndebug on_worker : bool) (fence : positive) (c : AOBridge) :
    outcome (option AOBridge) :=
  if on_worker && negb ndebug then Fail AssertFailed
  else if running_ c then Done (Some (post_fifo (Drain_Signal fence) c)) else Done None.

(** [stop] up to the wait on its fence; [ActiveObject::stop] follows. *)
Definition stop (ndebug on_worker : bool) (fence : positive) (c : AOBridge) :
    outcome (option AOBridge) :=
  if running_ c then drain ndebug on_worker fence (post_fifo Stop_Signal c) else Done None.

(** libmosquitto's callbacks, one post each. *)
Definition onConnect_ (rc : Z) (c : AOBridge) : AOBridge :=
  post_fifo (LinkUp_Signal (if decide (rc = 0) then 0 else -1)) c.
Definition onDisconnect_ (rc : Z) (c : AOBridge) : AOBridge :=
  post_fifo (LinkDown_Signal (-1)) c.
Definition onMessage_ (topic payload : string) (c : AOBridge) : AOBridge :=
  post_fifo (EvtRecv_Signal topic payload) c.

(** What the timer service runs when one of the bridge's timers fires. *)
Definition timer_fires (f : timer_fn) (c : AOBridge) : AOBridge :=
  match f with
  | ConnectTimer => post_fifo ConnectTimeout_Signal c
  | RspTimer cid => post_fifo (RspTimeout_Signal cid) c
  end.
End ModemBridge.
