(* ===== verification/BridgeSpec.v ===== *)
(** * The bridge as a transition table

    [bridge_step] says, leaf state by leaf state, what one event does to the
    bridge: the state it ends in and the composed effects of the exit, entry
    and initial actions on the way.  [bridge_chart_step] shows that this is what
    the state handlers of ModemBridge.v, run by the dispatcher of hsm.hpp,
    compute. *)

From S2P Require Import Prelude Hsm HsmSpec ActiveObject Defer Json Envelope ModemBridge.

Local Open Scope Z_scope.

Section BridgeSpec.
Context {json : Type} `{Json json} {C : Type}.
Context (parse : string -> option json) (dump : json -> option string).
Context (schema_check : string -> json -> option bool).
Context (rc_of : list mosq_call -> mosq_call -> Z) (uds_socket : string).
Context (clock_at token_at : nat -> Z).

Local Notation Bridge := (Bridge (json := json) (C := C)).
Local Notation bridge_event := (bridge_event (json := json) (C := C)).
Local Notation handler :=
  (handler parse dump schema_check rc_of uds_socket clock_at token_at (C := C)).

Definition is_leaf (s : bridge_state) : bool :=
  match s with NotOperational_St | Connected_St => false | _ => true end.

(** Composed actions. *)
Definition enter_subscribing (b : Bridge) : Bridge :=
  self_post AllSubAcked_Signal (issueAllSubscribes_ rc_of b).
Definition tear_down (b : Bridge) : Bridge := failAllInFlight_ (notifyConnectivity_ false b).
Definition enter_connecting (b : Bridge) : Bridge :=
  connecting_entry rc_of uds_socket clock_at token_at b.
Definition put_off (e : bridge_event) (b : Bridge) : Bridge :=
  set_deferred (defer (deferred_ b) e) b.
Definition add_observer tok cb (b : Bridge) : Bridge :=
  set_observers (<[tok := cb]> (connectivity_observers_ b)) b.
Definition drop_observer tok (b : Bridge) : Bridge :=
  set_observers (delete tok (connectivity_observers_ b)) b.
Definition add_subscription topic sid cb (b : Bridge) : Bridge :=
  set_subscriptions (<[topic := mkSubscription sid cb]> (subscriptions_ b)) b.
Definition drop_subscription topic (b : Bridge) : Bridge :=
  set_subscriptions (delete topic (subscriptions_ b)) b.

(** What the composite parents do for their children. *)
Definition parent_step (connected : bool) (leaf : bridge_state) (e : bridge_event) (b : Bridge) :
    bridge_state * Bridge :=
  match e with
  | SubscribeConnectivity_Signal tok cb => (leaf, add_observer tok cb b)
  | UnsubscribeConnectivity_Signal tok => (leaf, drop_observer tok b)
  | SubscribeEvent_Signal topic sid cb =>
      (leaf, if connected then mosq_ rc_of (MSubscribe topic) (add_subscription topic sid cb b)
             else add_subscription topic sid cb b)
  | UnsubscribeEvent_Signal topic =>
      (leaf, if connected then mosq_ rc_of (MUnsubscribe topic) (drop_subscription topic b)
             else drop_subscription topic b)
  | Drain_Signal n => (leaf, fulfil n b)
  | _ => (leaf, b)
  end.

Definition bridge_step (leaf : bridge_state) (e : bridge_event) (b : Bridge) :
    outcome (bridge_state * Bridge) :=
  match leaf, e with
  | ShuttingDown_St, Drain_Signal n => Done (leaf, fulfil n b)
  | ShuttingDown_St, _ => Done (leaf, b)
  | Disconnected_St, Start_Signal => Done (Connecting_St, enter_connecting b)
  | Disconnected_St, SendReq_Signal p => Done (leaf, call_rpc (sr_cb p) None b)
  | Disconnected_St, Stop_Signal => Done (ShuttingDown_St, shutdown_entry rc_of b)
  | Connecting_St, LinkUp_Signal rc =>
      Done (if decide (rc = 0)
            then (Subscribing_St, enter_subscribing (disarm_watchdog (set_failures 0 b)))
            else (Backoff_St, tear_down (disarm_watchdog (fail_count b))))
  | Connecting_St, ConnectTimeout_Signal | Connecting_St, LinkDown_Signal _ =>
      Done (Backoff_St, tear_down (disarm_watchdog (fail_count b)))
  | Connecting_St, Stop_Signal => Done (ShuttingDown_St, shutdown_entry rc_of (disarm_watchdog b))
  | Backoff_St, LinkUp_Signal rc =>
      Done (if decide (rc = 0) then (Subscribing_St, enter_subscribing (set_failures 0 b))
            else (leaf, b))
  | Backoff_St, Stop_Signal => Done (ShuttingDown_St, shutdown_entry rc_of b)
  | Subscribing_St, AllSubAcked_Signal =>
      Done (Operational_St, recall_deferred (notifyConnectivity_ true b))
  | Subscribing_St, LinkDown_Signal _ => Done (Backoff_St, tear_down (fail_count b))
  | Subscribing_St, Stop_Signal => Done (ShuttingDown_St, shutdown_entry rc_of b)
  | Operational_St, LinkDown_Signal _ =>
      Done (Backoff_St, tear_down (tear_down (fail_count b)))
  | Operational_St, Stop_Signal => Done (ShuttingDown_St, shutdown_entry rc_of (tear_down b))
  | Operational_St, SendReq_Signal p =>
      b' ← doSendRequest_ dump schema_check rc_of clock_at token_at p b; Done (leaf, b')
  | Operational_St, PublishOneway_Signal p =>
      b' ← doPublishOneway_ dump schema_check rc_of p b; Done (leaf, b')
  | Operational_St, SubscribeConnectivity_Signal tok cb =>
      Done (leaf, add_observer tok cb (call_conn tok cb true b))
  | Operational_St, EvtRecv_Signal topic body =>
      Done (leaf, on_message parse schema_check topic body b)
  | Operational_St, RspTimeout_Signal cid => Done (leaf, on_rsp_timeout cid b)
  | (Connecting_St | Subscribing_St | Backoff_St), SendReq_Signal p =>
      Done (leaf, put_off (SendReq_Signal p) b)
  | (Connecting_St | Subscribing_St), PublishOneway_Signal p =>
      Done (leaf, put_off (PublishOneway_Signal p) b)
  | (Subscribing_St | Operational_St), _ => Done (parent_step true leaf e b)
  | _, _ => Done (parent_step false leaf e b)
  end.

(** The states left and entered are closed lists: compute them. *)
Ltac eval_paths :=
  repeat match goal with
    | |- context [exits lineage ?a ?b ?c] =>
        let v := eval vm_compute in (exits lineage a b c) in
        change (exits lineage a b c) with v
    | |- context [entries lineage ?a ?b] =>
        let v := eval vm_compute in (entries lineage a b) in
        change (entries lineage a b) with v
    end.

Ltac chart_cbn :=
  cbn -[exits entries failAllInFlight_ notifyConnectivity_ shutdown_entry tear_down
        connecting_entry issueAllSubscribes_ recall_deferred doSendRequest_ doPublishOneway_
        on_message on_rsp_timeout disarm_watchdog].

Lemma bridge_chart_step leaf e b :
  is_leaf leaf = true -> chart_step handler lineage leaf e b = bridge_step leaf e b.
Proof.
  intros Hl. unfold chart_step.
  destruct leaf, e; try discriminate Hl; chart_cbn; try case_decide; chart_cbn;
    eval_paths; chart_cbn; try reflexivity; eval_paths; chart_cbn; try reflexivity.
  - by destruct (doSendRequest_ _ _ _ _ _ _ _).
  - by destruct (doPublishOneway_ _ _ _ _ _).
Qed.
End BridgeSpec.

(** Reduce a step of the table in a hypothesis, keeping the actions folded. *)
Ltac step_cbn Hs := cbn [BridgeSpec.bridge_step mbind outcome_bind] in Hs.
