(* ===== verification/BridgeProps.v ===== *)
(** * Correctness of the MQTT bridge

    Closed forms of the helper functions, the invariant of the reachable
    states, and the theorems about calls, subscriptions, observers and the
    drain fence. *)

From S2P Require Import Prelude Hsm HsmSpec HsmProps ActiveObject Defer Timer Json Envelope.
From S2P Require Import ModemBridge BridgeSpec.

Local Open Scope Z_scope.

(** What the bridge needs of the tokens of the timer service. *)
Class TimerTokens (token_at : nat -> Z) : Prop := {
  token_nonzero n : token_at n <> 0;
  token_inj i j : token_at i = token_at j -> i = j }.

(** The tokens of [Timer.schedule] meet it: the [n]-th schedule of a service
    returns [n + 1], for fewer than 2^64 schedules. *)
Definition service_token (n : nat) : Z := Z.of_nat n + 1.

#[global] Instance service_tokens : TimerTokens service_token.
Proof. split; unfold service_token; intros; lia. Qed.

Lemma service_token_schedule {F} (f : F) first per (c : timers F) :
  timers_inv c -> issued c + 1 < token_modulus ->
  fst (schedule f first per c) = service_token (Z.to_nat (issued c)).
Proof.
  intros Hi Hlt. destruct (tinv_next c Hi) as [H1 H2]. unfold schedule, service_token. simpl.
  rewrite Z.mod_small; unfold token_modulus in *; lia.
Qed.

Section BridgeProps.
Context {json : Type} `{Json json} {C : Type}.
Context (parse : string -> option json) (dump : json -> option string).
Context (schema_check : string -> json -> option bool).
Context (rc_of : list mosq_call -> mosq_call -> Z) (uds_socket : string).
Context (clock_at token_at : nat -> Z).

Local Notation Bridge := (Bridge (json := json) (C := C)).
Local Notation bridge_event := (bridge_event (json := json) (C := C)).
Local Notation call := (call (json := json) (C := C)).
Local Notation handler :=
  (handler parse dump schema_check rc_of uds_socket clock_at token_at (C := C)).
Local Notation bridge_step :=
  (bridge_step parse dump schema_check rc_of uds_socket clock_at token_at (C := C)).

(** ** Closed forms *)

Definition rpc_call (cb : option C) (r : option (Envelope json)) : list call :=
  match cb with Some c => [RpcCall c r] | None => [] end.
Definition conn_call (op : bool) (kv : Z * option C) : list call :=
  match snd kv with Some c => [ConnCall (fst kv) c op] | None => [] end.
Definition conn_calls (op : bool) (m : gmap Z (option C)) : list call :=
  token_items m ≫= conn_call op.
Definition add_ops (l : list timer_op) (b : Bridge) : Bridge :=
  set_timer (conn_tok b) (reads b) (timer_ops b ++ l) b.
Definition add_wires (l : list mosq_call) (b : Bridge) : Bridge :=
  foldl (fun b c => add_wire c b) b l.
Definition cancel_ops (t : Z) : list timer_op :=
  if decide (t <> 0) then [Cancelled t] else [].
Definition fail_calls (b : Bridge) : list call :=
  (map_to_list (in_flight_ b) ≫= fun kv => rpc_call (if_cb (snd kv)) None) ++
  (deferred_ b ≫= fun e => match e with SendReq_Signal p => rpc_call (sr_cb p) None | _ => [] end).
Definition fail_cancels (b : Bridge) : list timer_op :=
  map_to_list (in_flight_ b) ≫= fun kv => cancel_ops (if_timer_token (snd kv)).

Lemma add_out_nil (b : Bridge) : add_out [] b = b.
Proof. destruct b. unfold add_out. simpl. by rewrite app_nil_r. Qed.

Lemma add_out_add l1 l2 (b : Bridge) : add_out l2 (add_out l1 b) = add_out (l1 ++ l2) b.
Proof. unfold add_out. simpl. by rewrite (assoc_L (++)). Qed.

Lemma add_ops_nil (b : Bridge) : add_ops [] b = b.
Proof. destruct b. unfold add_ops, set_timer. simpl. by rewrite app_nil_r. Qed.

Lemma call_rpc_eq cb r (b : Bridge) : call_rpc cb r b = add_out (rpc_call cb r) b.
Proof. destruct cb; simpl; [done|by rewrite add_out_nil]. Qed.

Lemma cancel_timer_eq t (b : Bridge) : cancel_timer t b = add_ops (cancel_ops t) b.
Proof. unfold cancel_timer, cancel_ops. case_decide; [done|by rewrite add_ops_nil]. Qed.

Lemma notify_eq op (b : Bridge) :
  notifyConnectivity_ op b = add_out (conn_calls op (connectivity_observers_ b)) b.
Proof.
  unfold notifyConnectivity_, conn_calls.
  generalize (token_items (connectivity_observers_ b)). intros l.
  revert b. induction l as [|[t cb] l IH]; intros b; simpl; [by rewrite add_out_nil|].
  rewrite IH. unfold conn_call at 2. simpl. destruct cb; simpl; [by rewrite add_out_add|done].
Qed.

Lemma fail_entries_eq l (b : Bridge) :
  foldl fail_entry b l =
    add_out (l ≫= fun kv => rpc_call (if_cb (snd kv)) None)
      (add_ops (l ≫= fun kv => cancel_ops (if_timer_token (snd kv))) b).
Proof.
  revert b. induction l as [|[k i] l IH]; intros b; simpl.
  - by rewrite add_ops_nil, add_out_nil.
  - rewrite IH. unfold fail_entry. simpl. rewrite call_rpc_eq, cancel_timer_eq.
    unfold add_out, add_ops, set_timer. simpl. by rewrite <- !(assoc_L (++)).
Qed.

Lemma fail_deferred_eq l (b : Bridge) :
  foldl fail_deferred b l =
    add_out (l ≫= fun e => match e with SendReq_Signal p => rpc_call (sr_cb p) None | _ => [] end) b.
Proof.
  revert b. induction l as [|e l IH]; intros b; simpl; [by rewrite add_out_nil|].
  rewrite IH. destruct e; simpl; try done. by rewrite call_rpc_eq, add_out_add.
Qed.

Lemma failAll_eq (b : Bridge) :
  failAllInFlight_ b =
    set_deferred [] (set_in_flight ∅ (add_out (fail_calls b) (add_ops (fail_cancels b) b))).
Proof.
  unfold failAllInFlight_, fail_calls, fail_cancels. rewrite fail_entries_eq, fail_deferred_eq.
  unfold add_out, add_ops, set_timer, set_in_flight, set_deferred. simpl.
  by rewrite <- !(assoc_L (++)).
Qed.

Lemma add_wires_fields l (b : Bridge) :
  add_wires l b = mkBridge (cfg_ b) (pa_id_ b) (client_ b) (in_flight_ b) (subscriptions_ b)
    (connectivity_observers_ b) (consecutive_failures_ b) (conn_tok b) (deferred_ b) (reads b)
    (timer_ops b) (outbox b) (wire b ++ l) (out b) (drained b).
Proof.
  revert b. induction l as [|c l IH]; intros b; simpl.
  - destruct b. simpl. by rewrite app_nil_r.
  - rewrite IH. simpl. by rewrite <- (assoc_L (++)).
Qed.

Definition batch (b : Bridge) : list mosq_call :=
  MSubscribe kRspWildcard :: MSubscribe kApRspWildcard ::
  ((fun kv => MSubscribe (fst kv)) <$> string_items (subscriptions_ b)).

Lemma subscribe_all_eq {A} (l : list (string * A)) (b : Bridge) :
  foldl (fun b kv => mosq_ rc_of (MSubscribe (fst kv)) b) b l =
    add_wires ((fun kv => MSubscribe (fst kv)) <$> l) b.
Proof. revert b. induction l as [|kv l IH]; intros b; simpl; [done|]. apply IH. Qed.

Lemma issue_eq (b : Bridge) : issueAllSubscribes_ rc_of b = add_wires (batch b) b.
Proof. unfold issueAllSubscribes_. by rewrite subscribe_all_eq. Qed.

Lemma recall_eq (b : Bridge) :
  recall_deferred b = set_deferred [] (set_outbox (outbox b ++ (Fifo <$> deferred_ b)) b).
Proof.
  unfold recall_deferred. f_equal. generalize (deferred_ b) as l. intros l.
  revert b. induction l as [|e l IH]; intros b; simpl.
  - destruct b. unfold set_outbox. simpl. by rewrite app_nil_r.
  - rewrite IH. unfold self_post, set_outbox. simpl. by rewrite <- (assoc_L (++)).
Qed.

(** ** What each helper leaves alone *)

(** The members only the transitions and the deferring states touch. *)
Definition core (b : Bridge) := (deferred_ b, conn_tok b, outbox b, pa_id_ b, drained b).

Lemma fulfil_core n (b : Bridge) :
  in_flight_ (fulfil n b) = in_flight_ b /\ deferred_ (fulfil n b) = deferred_ b /\
  conn_tok (fulfil n b) = conn_tok b /\ out (fulfil n b) = out b /\
  outbox (fulfil n b) = outbox b /\ subscriptions_ (fulfil n b) = subscriptions_ b /\
  connectivity_observers_ (fulfil n b) = connectivity_observers_ b.
Proof. unfold fulfil. by case_decide. Qed.

Lemma on_message_core topic body (b : Bridge) :
  core (on_message parse schema_check topic body b) = core b.
Proof.
  unfold on_message, on_response, on_indication, call_event.
  repeat (case_goal; try reflexivity); rewrite ?call_rpc_eq, ?cancel_timer_eq; reflexivity.
Qed.

Lemma on_rsp_timeout_core cid (b : Bridge) : core (on_rsp_timeout cid b) = core b.
Proof. unfold on_rsp_timeout. case_goal; [|done]. by rewrite call_rpc_eq. Qed.

Lemma doSend_core p (b b' : Bridge) :
  doSendRequest_ dump schema_check rc_of clock_at token_at p b = Done b' -> core b' = core b.
Proof.
  unfold doSendRequest_. simpl. case_decide; [intros [= <-]; by rewrite call_rpc_eq|].
  destruct (_ && _); [intros [= <-]; by rewrite call_rpc_eq|].
  destruct (dump _) as [body|]; [|done].
  repeat case_decide; try (intros [= <-]; done);
    case_goal; intros [= <-]; rewrite ?call_rpc_eq, ?cancel_timer_eq; done.
Qed.

Lemma doPublish_core p (b b' : Bridge) :
  doPublishOneway_ dump schema_check rc_of p b = Done b' ->
  core b' = core b /\ in_flight_ b' = in_flight_ b /\ out b' = out b /\
  subscriptions_ b' = subscriptions_ b /\ connectivity_observers_ b' = connectivity_observers_ b.
Proof.
  unfold doPublishOneway_. destruct (_ && _); [by intros [= <-]|].
  destruct (dump _); [|done]. by intros [= <-].
Qed.

Lemma disarm_fields (b : Bridge) :
  disarm_watchdog b =
    set_timer None (reads b)
      (timer_ops b ++ match conn_tok b with Some t => [Cancelled t] | None => [] end) b.
Proof.
  unfold disarm_watchdog. destruct b as [? ? ? ? ? ? ? []]; simpl; [done|].
  unfold set_timer. simpl. by rewrite app_nil_r.
Qed.

Lemma connecting_fields (b : Bridge) :
  let b' := connecting_entry rc_of uds_socket clock_at token_at b in
  in_flight_ b' = in_flight_ b /\ deferred_ b' = deferred_ b /\ out b' = out b /\
  subscriptions_ b' = subscriptions_ b /\
  connectivity_observers_ b' = connectivity_observers_ b /\ is_Some (conn_tok b') /\
  (forall p, Fifo (SendReq_Signal p) ∈ outbox b' -> Fifo (SendReq_Signal p) ∈ outbox b) /\
  drained b' = drained b.
Proof.
  unfold connecting_entry. destruct (use_uds (cfg_ b)); simpl; unfold arm_watchdog;
    rewrite disarm_fields; case_decide; simpl; repeat split; eauto;
    intros p; rewrite ?elem_of_app, ?list_elem_of_singleton; try done; intros [?|[=]]; done.
Qed.

Lemma shutdown_fields (b : Bridge) :
  let b' := shutdown_entry rc_of b in
  let b1 := tear_down b in
  in_flight_ b' = in_flight_ b1 /\ deferred_ b' = deferred_ b1 /\ out b' = out b1 /\
  conn_tok b' = conn_tok b1 /\ outbox b' = outbox b1 /\ drained b' = drained b1 /\
  subscriptions_ b' = subscriptions_ b1 /\
  connectivity_observers_ b' = connectivity_observers_ b1.
Proof.
  unfold shutdown_entry, tear_down.
  destruct (client_ (failAllInFlight_ (notifyConnectivity_ false b))); done.
Qed.

Lemma tear_down_eq (b : Bridge) :
  tear_down b =
    set_deferred [] (set_in_flight ∅
      (add_out (conn_calls false (connectivity_observers_ b) ++ fail_calls b)
         (add_ops (fail_cancels b) b))).
Proof.
  unfold tear_down. rewrite notify_eq, failAll_eq.
  unfold fail_calls, fail_cancels, add_out, add_ops, set_timer, set_in_flight, set_deferred. simpl.
  by rewrite <- !(assoc_L (++)).
Qed.

(** ** The invariant *)

Definition deferrable (e : bridge_event) : bool :=
  match e with SendReq_Signal _ | PublishOneway_Signal _ => true | _ => false end.

Record bridge_inv (leaf : bridge_state) (b : Bridge) : Prop := {
  bi_leaf : is_leaf leaf = true;
  bi_in_flight : leaf <> Operational_St -> in_flight_ b = ∅;
  bi_deferred : Forall (fun e => deferrable e = true) (deferred_ b);
  bi_empty : leaf ∈ [Disconnected_St; Operational_St; ShuttingDown_St] -> deferred_ b = [];
  bi_watchdog : is_Some (conn_tok b) <-> leaf = Connecting_St }.

(** A step that stays in the same leaf. *)
Lemma bridge_inv_stay leaf (b b' : Bridge) :
  bridge_inv leaf b -> (leaf <> Operational_St -> in_flight_ b' = in_flight_ b) ->
  deferred_ b' = deferred_ b -> conn_tok b' = conn_tok b -> bridge_inv leaf b'.
Proof.
  intros [H1 H2 H3 H4 H5] Hi Hd Hc. split; rewrite ?Hd, ?Hc; auto.
  intros Hne. rewrite Hi by done. auto.
Qed.

Lemma bridge_inv_clear leaf (b : Bridge) :
  is_leaf leaf = true -> leaf <> Connecting_St -> in_flight_ b = ∅ -> deferred_ b = [] ->
  conn_tok b = None -> bridge_inv leaf b.
Proof.
  intros Hl Hc Hi Hd Ht. split; rewrite ?Hd, ?Ht; auto.
  split; [intros Hs; by apply is_Some_None in Hs|done].
Qed.

Lemma watchdog_off leaf (b : Bridge) :
  bridge_inv leaf b -> leaf <> Connecting_St -> conn_tok b = None.
Proof.
  intros Hi Hne. destruct (conn_tok b) as [t|] eqn:Ht; [|done].
  destruct Hne. apply (bi_watchdog _ _ Hi). rewrite Ht. by eexists.
Qed.

Lemma parent_step_inv connected leaf e (b : Bridge) :
  bridge_inv leaf b ->
  bridge_inv (fst (parent_step rc_of connected leaf e b)) (snd (parent_step rc_of connected leaf e b)).
Proof.
  intros Hi. destruct e; simpl; try done;
    try (destruct connected); apply (bridge_inv_stay leaf b); try done;
    destruct (fulfil_core fence b) as (? & ? & ? & _); done.
Qed.

Lemma put_off_inv leaf e (b : Bridge) :
  bridge_inv leaf b -> leaf ∉ [Disconnected_St; Operational_St; ShuttingDown_St] ->
  deferrable e = true -> bridge_inv leaf (put_off e b).
Proof.
  intros [H1 H2 H3 H4 H5] Hl He. split; simpl; try done.
  apply Forall_app. split; [done|]. by constructor.
Qed.

Lemma tear_down_inv leaf (b : Bridge) :
  is_leaf leaf = true -> leaf <> Connecting_St -> conn_tok b = None ->
  bridge_inv leaf (tear_down b).
Proof. intros Hl Hne Ht. rewrite tear_down_eq. by apply bridge_inv_clear. Qed.

Lemma shutdown_inv (b : Bridge) :
  conn_tok b = None -> bridge_inv ShuttingDown_St (shutdown_entry rc_of b).
Proof.
  intros Ht. destruct (shutdown_fields b) as (H1 & H2 & _ & H3 & _).
  apply bridge_inv_clear; rewrite ?H1, ?H2, ?H3, ?tear_down_eq; done.
Qed.

Lemma enter_subscribing_inv leaf (b : Bridge) :
  bridge_inv leaf b -> leaf <> Operational_St -> conn_tok b = None ->
  bridge_inv Subscribing_St (enter_subscribing rc_of b).
Proof.
  intros [H1 H2 H3 H4 H5] Hl Ht. unfold enter_subscribing. rewrite issue_eq, add_wires_fields.
  split; simpl; try done; [auto|set_solver|]. rewrite Ht. split; [by intros []|done].
Qed.

Lemma core_inv leaf (b b' : Bridge) :
  bridge_inv leaf b -> core b' = core b -> leaf = Operational_St -> bridge_inv leaf b'.
Proof.
  intros Hi Hc ->. injection Hc as Hd Ht _ _ _. by apply (bridge_inv_stay _ b).
Qed.

Lemma enter_connecting_inv (b : Bridge) :
  bridge_inv Disconnected_St b ->
  bridge_inv Connecting_St (enter_connecting rc_of uds_socket clock_at token_at b).
Proof.
  intros [H1 H2 H3 H4 H5]. destruct (connecting_fields b) as (F1 & F2 & _ & _ & _ & F3 & _).
  split; unfold enter_connecting; rewrite ?F1, ?F2; auto; set_solver.
Qed.

Lemma enter_operational_inv (b : Bridge) :
  conn_tok b = None -> bridge_inv Operational_St (recall_deferred (notifyConnectivity_ true b)).
Proof.
  intros Ht. rewrite recall_eq, notify_eq. split; simpl; try done.
  rewrite Ht. split; [by intros []|done].
Qed.

Lemma fulfil_inv leaf n (b : Bridge) : bridge_inv leaf b -> bridge_inv leaf (fulfil n b).
Proof.
  intros Hi. destruct (fulfil_core n b) as (H1 & H2 & H3 & _).
  by apply (bridge_inv_stay leaf b).
Qed.

Lemma bridge_step_inv leaf e (b b' : Bridge) leaf' :
  bridge_inv leaf b -> bridge_step leaf e b = Done (leaf', b') -> bridge_inv leaf' b'.
Proof.
  intros Hi Hs. pose proof (bi_leaf _ _ Hi) as Hl. pose proof (watchdog_off leaf b Hi) as Hw.
  assert (Hp : forall c, Done (parent_step rc_of c leaf e b) = Done (leaf', b') -> bridge_inv leaf' b').
  { intros c [= Heq]. pose proof (parent_step_inv c leaf e b Hi) as Hpi. by rewrite Heq in Hpi. }
  destruct leaf; try discriminate Hl; destruct e; step_cbn Hs; try (by apply Hp in Hs);
    try case_decide; try (injection Hs as <- <-); try exact Hi;
    try (apply put_off_inv; [done|set_solver|done]);
    try (apply tear_down_inv; [done|done|]; rewrite ?tear_down_eq, ?disarm_fields; by auto);
    try (apply shutdown_inv; rewrite ?tear_down_eq, ?disarm_fields; by auto);
    try (by apply fulfil_inv).
  - by apply enter_connecting_inv.
  - rewrite call_rpc_eq. by apply (bridge_inv_stay _ b).
  - eapply (enter_subscribing_inv Backoff_St); [|done|by rewrite disarm_fields].
    rewrite disarm_fields. destruct Hi as [H1 H2 H3 H4 H5].
    split; simpl; auto; [set_solver|]. split; [by intros []|done].
  - apply enter_operational_inv. by auto.
  - destruct (doSendRequest_ _ _ _ _ _ _ _) as [b1|] eqn:Hd; [|done]. injection Hs as <- <-.
    apply doSend_core in Hd. by apply (core_inv _ b).
  - apply (core_inv _ b); [done| |done]. apply on_rsp_timeout_core.
  - apply (core_inv _ b); [done| |done]. apply on_message_core.
  - apply (bridge_inv_stay _ b); try done; by destruct cb.
  - destruct (doPublishOneway_ _ _ _ _ _) as [b1|] eqn:Hd; [|done]. injection Hs as <- <-.
    apply doPublish_core in Hd as [Hd _]. by apply (core_inv _ b).
  - eapply (enter_subscribing_inv Backoff_St); [|done|by auto].
    by apply (bridge_inv_stay _ b).
Qed.

(** ** Reachable states *)

Lemma chart_run_step p ps leaf (b : Bridge) :
  is_leaf leaf = true ->
  chart_run handler flush lineage (p :: ps) (leaf, b) =
    ('(leaf1, b1) ← bridge_step leaf (payload p) b;
     chart_run handler flush lineage ps (leaf1, flush b1)).
Proof. intros Hl. simpl. by rewrite bridge_chart_step. Qed.

(** Invariants of the step that survive the emptying of the outbox. *)
Lemma run_stable (P : bridge_state -> Bridge -> Prop) ps leaf (b : Bridge) leaf' b' :
  (forall leaf b, P leaf b -> is_leaf leaf = true) ->
  (forall leaf b, P leaf b -> P leaf (flush b)) ->
  (forall p leaf b leaf1 b1, p ∈ ps -> P leaf b -> bridge_step leaf (payload p) b = Done (leaf1, b1) ->
     P leaf1 b1) ->
  P leaf b -> chart_run handler flush lineage ps (leaf, b) = Done (leaf', b') -> P leaf' b'.
Proof.
  intros Hleaf Hflush. revert leaf b. induction ps as [|p ps IH]; intros leaf b Hstep HP.
  - by intros [= <- <-].
  - rewrite chart_run_step by eauto.
    destruct (bridge_step leaf (payload p) b) as [[leaf1 b1]|f] eqn:Hs; [|done].
    cbn [mbind outcome_bind]. apply IH.
    + intros q ? ? ? ? Hq. apply Hstep. by right.
    + apply Hflush. eapply Hstep; [by left|done..].
Qed.

Lemma flush_inv leaf (b : Bridge) : bridge_inv leaf b -> bridge_inv leaf (flush b).
Proof. intros Hi. by apply (bridge_inv_stay leaf b). Qed.

Lemma run_inv ps leaf (b : Bridge) leaf' b' :
  bridge_inv leaf b -> chart_run handler flush lineage ps (leaf, b) = Done (leaf', b') ->
  bridge_inv leaf' b'.
Proof.
  intros Hi. apply (run_stable bridge_inv); auto using flush_inv.
  - apply bi_leaf.
  - intros p l b0 l1 b1 _. apply bridge_step_inv.
Qed.

(** ** The RPC ledger *)

Definition rpc_cb (c : call) : option C := match c with RpcCall cb _ => Some cb | _ => None end.
(** Callbacks of requests answered so far, and of requests the bridge holds:
    in flight, deferred, or recalled and about to be queued again. *)
Definition called (b : Bridge) : list C := omap rpc_cb (out b).
Definition send_cb (e : bridge_event) : list C :=
  match e with SendReq_Signal p => option_list (sr_cb p) | _ => [] end.
Definition flight_cbs (m : gmap string InFlight) : list C :=
  map_to_list m ≫= fun kv => option_list (if_cb (snd kv)).
Definition held (b : Bridge) : list C :=
  flight_cbs (in_flight_ b) ++ (deferred_ b ≫= send_cb) ++
  (outbox b ≫= fun p => send_cb (payload p)).

Lemma flight_cbs_insert m k i :
  m !! k = None -> flight_cbs (<[k := i]> m) ≡ₚ option_list (if_cb i) ++ flight_cbs m.
Proof. intros Hk. unfold flight_cbs. by rewrite map_to_list_insert. Qed.

Lemma flight_cbs_delete m k i :
  m !! k = Some i -> option_list (if_cb i) ++ flight_cbs (delete k m) ≡ₚ flight_cbs m.
Proof. intros Hk. unfold flight_cbs. by rewrite <- (map_to_list_delete m k i Hk). Qed.

Lemma flight_cbs_empty : flight_cbs (∅ : gmap string (InFlight (C := C))) = [].
Proof. unfold flight_cbs. by rewrite map_to_list_empty. Qed.

Lemma rpc_cb_call cb r : omap rpc_cb (rpc_call cb r) = option_list cb.
Proof. by destruct cb. Qed.

Lemma rpc_cb_conns op m : omap rpc_cb (conn_calls op m) = [].
Proof.
  unfold conn_calls. induction (token_items m) as [|[t [c|]] l IH]; simpl; done.
Qed.

Lemma rpc_cb_fail (b : Bridge) :
  omap rpc_cb (fail_calls b) = flight_cbs (in_flight_ b) ++ (deferred_ b ≫= send_cb).
Proof.
  unfold fail_calls, flight_cbs. rewrite omap_app. f_equal; apply omap_bind.
  - intros kv. apply rpc_cb_call.
  - intros e. destruct e; try done. apply rpc_cb_call.
Qed.

Lemma called_add l (b : Bridge) : called (add_out l b) = called b ++ omap rpc_cb l.
Proof. unfold called. simpl. apply omap_app. Qed.

Lemma held_add l (b : Bridge) : held (add_out l b) = held b.
Proof. done. Qed.

(** Callbacks called and held, together. *)
Definition ledger (b : Bridge) : list C := called b ++ held b.

Lemma ledger_same (b b' : Bridge) :
  out b' = out b -> in_flight_ b' = in_flight_ b -> deferred_ b' = deferred_ b ->
  outbox b' = outbox b -> ledger b' = ledger b.
Proof. unfold ledger, called, held. by intros -> -> -> ->. Qed.

Lemma ledger_tear_down (b : Bridge) : ledger (tear_down b) ≡ₚ ledger b.
Proof.
  rewrite tear_down_eq. unfold ledger, called, held. simpl.
  rewrite !omap_app, rpc_cb_conns, rpc_cb_fail, flight_cbs_empty. simpl. solve_Permutation.
Qed.

Lemma ledger_shutdown (b : Bridge) : ledger (shutdown_entry rc_of b) ≡ₚ ledger b.
Proof.
  destruct (shutdown_fields b) as (H1 & H2 & H3 & _ & H4 & _).
  by rewrite (ledger_same (tear_down b) _ H3 H1 H2 H4), ledger_tear_down.
Qed.

Lemma ledger_call cb r (b : Bridge) : ledger (call_rpc cb r b) ≡ₚ ledger b ++ option_list cb.
Proof.
  rewrite call_rpc_eq. unfold ledger. rewrite called_add, rpc_cb_call. solve_Permutation.
Qed.

Lemma ledger_take cid i (b : Bridge) :
  in_flight_ b !! cid = Some i ->
  ledger (set_in_flight (delete cid (in_flight_ b)) b) ++ option_list (if_cb i) ≡ₚ ledger b.
Proof.
  intros Hi. unfold ledger, called, held. simpl. rewrite <- (flight_cbs_delete _ _ _ Hi).
  solve_Permutation.
Qed.
End BridgeProps.

(** ** Properties *)

Section BridgeStates.
Context {json : Type} `{Json json} {C : Type}.
Context (parse : string -> option json) (dump : json -> option string).
Context (schema_check : string -> json -> option bool).
Context (rc_of : list mosq_call -> mosq_call -> Z) (uds_socket : string).
Context (clock_at token_at : nat -> Z).

Local Notation handler :=
  (handler parse dump schema_check rc_of uds_socket clock_at token_at (C := C)).

(** C9: the bridge is its transition table. For every leaf state and every
    event, running the state handlers of ModemBridge.cpp through the dispatcher
    (offer to the leaf, then to the composite parent; exits, entries and the
    INIT of Connected on a transition) gives exactly the state and the effects
    listed in [bridge_step]. *)
Theorem bridge_is_table (leaf : bridge_state) (e : bridge_event) (b : Bridge) :
  is_leaf leaf = true ->
  chart_step handler lineage leaf e b =
    bridge_step parse dump schema_check rc_of uds_socket clock_at token_at leaf e b.
Proof. intros Hl. by apply bridge_chart_step. Qed.

(** C10: the reachable states of the bridge. Under every interleaving of the
    threads, after [start] the bridge is in a leaf state (so [currentState]
    never falls back on its default); requests are in flight only while
    Operational; only requests and one-way messages are ever deferred, and none
    is in Disconnected, Operational and ShuttingDown; and the connect watchdog
    is armed exactly while Connecting. *)
Theorem bridge_reachable (ndebug : bool) (h : Hsm bridge_state bridge_event Bridge)
    (c : AOBridge) :
  state_ h = st Disconnected_St -> in_flight_ (self h) = ∅ -> deferred_ (self h) = [] ->
  conn_tok (self h) = None ->
  rtc (steps handler ndebug outbox flush) (started h) c ->
  exists leaf, state_ (hsm c) = st leaf /\ is_leaf leaf = true /\
    (leaf <> Operational_St -> in_flight_ (self (hsm c)) = ∅) /\
    Forall (fun e => deferrable e = true) (deferred_ (self (hsm c))) /\
    (leaf ∈ [Disconnected_St; Operational_St; ShuttingDown_St] ->
     deferred_ (self (hsm c)) = []) /\
    (is_Some (conn_tok (self (hsm c))) <-> leaf = Connecting_St).
Proof.
  intros Hst Hi Hd Ht Hr.
  destruct (reach_chart handler ndebug outbox flush parent lineage swallow _ h c Hst Hr)
    as (leaf & Hc & Hst').
  assert (Hinv : bridge_inv leaf (self (hsm c))).
  { eapply run_inv; [|exact Hc]. by apply bridge_inv_clear. }
  destruct Hinv. by exists leaf.
Qed.
End BridgeStates.

(** ** A concrete bridge for the witnesses *)

Module BridgeDemo.
Notation Ev := (bridge_event (json := jval) (C := string)).
Notation Br := (Bridge (json := jval) (C := string)).

Definition config : BrokerConfig := default_config true.

Definition boot : Br :=
  mkBridge config "pa-test-0001" true ∅ ∅ ∅ 0 None [] 0 [] [] [] [] [].

(** The body "rsp" is a response to request 0000000a, every other body is not
    JSON; printing, validation and the library calls succeed. *)
Definition rsp_env : Envelope jval :=
  makeResponseEnvelope 77 "mpss" "0000000a" "pa-test-0001" (JObject []).
Definition parse_ (body : string) : option jval :=
  if decide (body = "rsp") then Some (toJson rsp_env) else None.
Definition dump_ (j : jval) : option string := Some "body".
Definition check_ (schema : string) (j : jval) : option bool := Some true.
Definition rc_ (l : list mosq_call) (c : mosq_call) : Z := 0.
Definition clock_ (n : nat) : Z := Z.of_nat n.

Definition req_env : Envelope jval := mkEnvelope 1 "0000000a" 5 "pa-test-0001" None (Some (JObject [])) None.
Definition request : SendReqPld (json := jval) (C := string) :=
  mkSendReq "mp/req/data/start" "data.start.rsp" req_env (Some "cb") 5000.

Definition demo_handler :=
  handler parse_ dump_ check_ rc_ "/run/mqtt.sock" clock_ service_token (C := string).

(** A schedule: connect, become operational, send the request, receive its
    response. *)
Definition events : list Ev :=
  [Start_Signal; SendReq_Signal request; LinkUp_Signal 0; AllSubAcked_Signal;
   SendReq_Signal request; EvtRecv_Signal "mp/rsp/data/start" "rsp"].

Definition run (l : list Ev) : option (bridge_state * Br) :=
  match chart_run demo_handler flush lineage (Fifo <$> l) (Disconnected_St, boot) with
  | Done s => Some s
  | Fail _ => None
  end.

(** The state after the events, and the answers given. *)
Example run_events :
  (fun s => (fst s, out (snd s))) <$> run events =
    Some (Operational_St, [RpcCall "cb" (Some rsp_env)]).
Proof. vm_compute. reflexivity. Qed.

Definition operational : Br :=
  match run [Start_Signal; LinkUp_Signal 0; AllSubAcked_Signal] with
  | Some (_, b) => b
  | None => boot
  end.

Definition waiting : Br :=
  match run [Start_Signal; LinkUp_Signal 0; AllSubAcked_Signal; SendReq_Signal request] with
  | Some (_, b) => b
  | None => boot
  end.

Definition obj : Hsm bridge_state Ev Br :=
  mkHsm (st Disconnected_St) (st Disconnected_St) false false [] false [] boot.

Definition schedule : list (action (E := Ev)) :=
  [APost (Fifo Start_Signal); AWait; ADispatch; AOwnPost; APost (Fifo (LinkUp_Signal 0));
   AWait; ADispatch; AOwnPost; AOwnPost; AWait; ADispatch].

Definition running : (AOBridge (json := jval) (C := string)) :=
  default (started obj)
    (run_schedule demo_handler false outbox flush schedule (started obj)).

Lemma bridge_schedule_reach (l : list action) (c c' : (AOBridge (json := jval) (C := string))) :
  run_schedule demo_handler false outbox flush l c = Some c' ->
  rtc (steps demo_handler false outbox flush) c c'.
Proof. apply run_schedule_reach. Qed.
End BridgeDemo.

Lemma bridge_is_table_witness :
  chart_step BridgeDemo.demo_handler lineage Operational_St (LinkDown_Signal (-1)) BridgeDemo.waiting =
    bridge_step BridgeDemo.parse_ BridgeDemo.dump_ BridgeDemo.check_ BridgeDemo.rc_
      "/run/mqtt.sock" BridgeDemo.clock_ service_token Operational_St (LinkDown_Signal (-1))
      BridgeDemo.waiting.
Proof. apply bridge_is_table. reflexivity. Defined.

Lemma bridge_reachable_witness :
  exists leaf, state_ (hsm BridgeDemo.running) = st leaf /\ is_leaf leaf = true /\
    (leaf <> Operational_St -> in_flight_ (self (hsm BridgeDemo.running)) = ∅) /\
    Forall (fun e => deferrable e = true) (deferred_ (self (hsm BridgeDemo.running))) /\
    (leaf ∈ [Disconnected_St; Operational_St; ShuttingDown_St] ->
     deferred_ (self (hsm BridgeDemo.running)) = []) /\
    (is_Some (conn_tok (self (hsm BridgeDemo.running))) <-> leaf = Connecting_St).
Proof.
  apply (bridge_reachable BridgeDemo.parse_ BridgeDemo.dump_ BridgeDemo.check_ BridgeDemo.rc_
    "/run/mqtt.sock" BridgeDemo.clock_ service_token false BridgeDemo.obj);
    try reflexivity.
  apply (BridgeDemo.bridge_schedule_reach BridgeDemo.schedule). vm_compute. reflexivity.
Defined.
