(* ===== verification/BridgeRpc.v ===== *)
(** * Requests and responses through the bridge

    Every request's callback is invoked exactly once, responses reach the
    request they answer, and each outcome of sending a request. *)

From S2P Require Import Prelude Hsm HsmSpec HsmProps ActiveObject Defer Json Envelope.
From S2P Require Import ModemBridge BridgeSpec BridgeProps.

Local Open Scope Z_scope.

Section BridgeRpc.
Context {json : Type} `{Json json} {C : Type}.
Context (parse : string -> option json) (dump : json -> option string).
Context (schema_check : string -> json -> option bool).
Context (rc_of : list mosq_call -> mosq_call -> Z) (uds_socket : string).
Context (clock_at token_at : nat -> Z).

Local Notation Bridge := (Bridge (json := json) (C := C)).
Local Notation bridge_event := (bridge_event (json := json) (C := C)).
Local Notation handler :=
  (handler parse dump schema_check rc_of uds_socket clock_at token_at (C := C)).
Local Notation bridge_step :=
  (bridge_step parse dump schema_check rc_of uds_socket clock_at token_at (C := C)).

(** ** The ledger of a step *)

Lemma ledger_response env (b : Bridge) : ledger (on_response schema_check env b) ≡ₚ ledger b.
Proof.
  unfold on_response. destruct (in_flight_ b !! corrId env) as [i|] eqn:Hi; [|done].
  rewrite cancel_timer_eq.
  pose proof (ledger_take (corrId env) i (add_ops (cancel_ops (if_timer_token i)) b) Hi) as Ht.
  case_goal; rewrite ledger_call; exact Ht.
Qed.

Lemma ledger_message topic body (b : Bridge) :
  ledger (on_message parse schema_check topic body b) ≡ₚ ledger b.
Proof.
  unfold on_message, on_indication, call_event.
  repeat (case_goal; try reflexivity); [apply ledger_response|].
  unfold ledger. rewrite called_add. simpl. by rewrite app_nil_r.
Qed.

Lemma ledger_timeout cid (b : Bridge) : ledger (on_rsp_timeout cid b) ≡ₚ ledger b.
Proof.
  unfold on_rsp_timeout. destruct (in_flight_ b !! cid) as [i|] eqn:Hi; [|done].
  by rewrite ledger_call, ledger_take.
Qed.

(** ** Sending *)

(** The clock was read once more. *)
Definition tick (b : Bridge) : Bridge :=
  set_timer (conn_tok b) (S (reads b)) (timer_ops b) b.

Definition request_key (p : SendReqPld (json := json) (C := C)) : string := corrId (sr_envelope p).

(** The payload is checked against the schema the topic names, if it names one. *)
Definition outbound_valid (p : SendReqPld (json := json) (C := C)) : bool :=
  bool_decide (resolveReqSchemaId_ (sr_topic p) = EmptyString) ||
  data_valid schema_check (resolveReqSchemaId_ (sr_topic p)) (sr_envelope p).

(** The token of the next schedule. *)
Definition next_token (b : Bridge) : Z := token_at (length (timer_ops b)).

(** The bridge after a request was registered, its timer armed and its body
    handed to libmosquitto. *)
Definition sent (p : SendReqPld) (body : string) (b : Bridge) : Bridge :=
  add_wire (MPublish (sr_topic p) body)
    (set_in_flight
       (<[request_key p := mkInFlight (sr_topic p) (sr_rsp_schema_id p) (sr_cb p) (next_token b)]>
          (in_flight_ b))
       (set_timer (conn_tok b) (S (S (reads b)))
          (timer_ops b ++
           [Scheduled (RspTimer (request_key p))
              (clock_at (S (reads b)) + (sr_deadline p - clock_at (reads b))) (next_token b)]) b)).

(** The outcomes of [doSendRequest_] for a correlation id not in use. *)
Definition send_outcome (p : SendReqPld) (b : Bridge) : outcome Bridge :=
  if decide (sr_deadline p <= clock_at (reads b)) then Done (call_rpc (sr_cb p) None (tick b))
  else if negb (outbound_valid p) then Done (call_rpc (sr_cb p) None (tick b))
  else
    match dump (toJson (sr_envelope p)) with
    | None => Fail Terminate
    | Some body =>
        if decide (rc_of (wire b) (MPublish (sr_topic p) body) = MOSQ_ERR_SUCCESS)
        then Done (sent p body b)
        else Done (call_rpc (sr_cb p) None
                     (set_in_flight (in_flight_ b) (cancel_timer (next_token b) (sent p body b))))
    end.

Lemma doSend_fresh p (b : Bridge) :
  in_flight_ b !! request_key p = None ->
  doSendRequest_ dump schema_check rc_of clock_at token_at p b = send_outcome p b.
Proof.
  intros Hfr. unfold doSendRequest_, send_outcome, outbound_valid, request_key in *. simpl.
  case_decide; [done|]. rewrite negb_orb.
  destruct (_ && _); [done|]. destruct (dump _) as [body|]; [|done].
  rewrite (decide_False (P := is_Some (in_flight_ b !! _))) by (rewrite Hfr; apply is_Some_None).
  simpl. destruct (decide (rc_of _ _ = _)) as [Hrc|Hrc].
  - rewrite decide_False by (intros Hn; by apply Hn). done.
  - rewrite decide_True by done. rewrite lookup_insert_eq. simpl. f_equal. f_equal.
    rewrite !cancel_timer_eq. destruct b as [b1 b2 b3 b4 b5 b6 b7 b8 b9 b10 b11 b12 b13 b14 b15]. simpl in Hfr.
    cbv [sent next_token request_key add_ops set_in_flight set_timer add_wire cfg_ pa_id_ client_
      in_flight_ subscriptions_ connectivity_observers_ consecutive_failures_ conn_tok deferred_
      reads timer_ops outbox wire out drained].
    by rewrite delete_insert_id.
Qed.

Lemma ledger_send p (b b' : Bridge) :
  doSendRequest_ dump schema_check rc_of clock_at token_at p b = Done b' ->
  in_flight_ b !! request_key p = None ->
  ledger b' ≡ₚ ledger b ++ option_list (sr_cb p).
Proof.
  intros Hd Hfr. rewrite doSend_fresh in Hd by done. revert Hd. unfold send_outcome.
  case_decide; [intros [= <-]; by rewrite ledger_call|].
  case_goal; [intros [= <-]; by rewrite ledger_call|].
  destruct (dump _) as [body|]; [|done]. case_decide; intros [= <-].
  - unfold ledger, called, held. simpl. rewrite flight_cbs_insert by done. simpl. solve_Permutation.
  - by rewrite ledger_call, cancel_timer_eq.
Qed.

(** The other effects of a step, on the ledger. *)
Lemma ledger_put_off e (b : Bridge) : ledger (put_off e b) ≡ₚ ledger b ++ send_cb e.
Proof.
  unfold ledger, called, held. simpl. unfold defer, defer_push. rewrite bind_app. simpl.
  rewrite app_nil_r. solve_Permutation.
Qed.

Lemma ledger_outbox (l : list (post bridge_event)) (b : Bridge) :
  ledger (set_outbox (outbox b ++ l) b) ≡ₚ ledger b ++ (l ≫= fun p => send_cb (payload p)).
Proof. unfold ledger, called, held. simpl. rewrite bind_app. solve_Permutation. Qed.

Lemma ledger_set_timer t n ops (b : Bridge) : ledger (set_timer t n ops b) = ledger b.
Proof. done. Qed.

Lemma ledger_self_post e (b : Bridge) : ledger (self_post e b) ≡ₚ ledger b ++ send_cb e.
Proof. unfold self_post. rewrite ledger_outbox. simpl. by rewrite app_nil_r. Qed.

Lemma send_cb_recalled (l : list bridge_event) :
  ((Fifo <$> l) ≫= fun p => send_cb (payload p)) = (l ≫= send_cb).
Proof. induction l as [|e l IH]; [done|]. by rewrite fmap_cons, !bind_cons, IH. Qed.

Lemma ledger_recall (b : Bridge) : ledger (recall_deferred b) ≡ₚ ledger b.
Proof.
  rewrite recall_eq. unfold ledger, called, held.
  cbn [set_deferred set_outbox out in_flight_ deferred_ outbox].
  rewrite bind_app, send_cb_recalled. simpl. solve_Permutation.
Qed.

Lemma ledger_notify op (b : Bridge) : ledger (notifyConnectivity_ op b) ≡ₚ ledger b.
Proof.
  rewrite notify_eq. unfold ledger. by rewrite called_add, rpc_cb_conns, app_nil_r.
Qed.

Lemma ledger_subscribing (b : Bridge) : ledger (enter_subscribing rc_of b) ≡ₚ ledger b.
Proof.
  unfold enter_subscribing. rewrite ledger_self_post. simpl. rewrite app_nil_r.
  by rewrite issue_eq, add_wires_fields.
Qed.

Lemma ledger_connecting (b : Bridge) :
  ledger (enter_connecting rc_of uds_socket clock_at token_at b) ≡ₚ ledger b.
Proof.
  unfold enter_connecting, connecting_entry.
  destruct (use_uds (cfg_ b)); simpl; unfold arm_watchdog; rewrite disarm_fields; case_decide;
    simpl; rewrite ?ledger_set_timer, ?ledger_self_post; simpl; by rewrite ?app_nil_r.
Qed.

Lemma ledger_observer tok cb (b : Bridge) :
  ledger (add_observer tok cb (call_conn tok cb true b)) ≡ₚ ledger b.
Proof.
  destruct cb; [|done]. unfold ledger, called, held. simpl. by rewrite omap_app, app_nil_r.
Qed.

Lemma ledger_publish p (b b' : Bridge) :
  doPublishOneway_ dump schema_check rc_of p b = Done b' -> ledger b' ≡ₚ ledger b.
Proof.
  intros Hp. apply doPublish_core in Hp as (Hc & Hi & Ho & _). injection Hc as Hd _ Hx _ _.
  by rewrite (ledger_same b).
Qed.

Lemma ledger_step leaf e (b b' : Bridge) leaf' :
  bridge_step leaf e b = Done (leaf', b') -> is_leaf leaf = true -> leaf <> ShuttingDown_St ->
  (forall p, e = SendReq_Signal p -> leaf = Operational_St ->
     in_flight_ b !! request_key p = None) ->
  ledger b' ≡ₚ ledger b ++ send_cb e.
Proof.
  intros Hs Hl Hsd Hfr.
  assert (Hp : forall c, Done (parent_step rc_of c leaf e b) = Done (leaf', b') ->
    ledger b' ≡ₚ ledger b).
  { intros c [= Heq].
    assert (Hb : snd (parent_step rc_of c leaf e b) = b') by by rewrite Heq. rewrite <- Hb.
    destruct e; simpl; try (by destruct c).
    destruct (fulfil_core fence b) as (F1 & F2 & _ & F3 & F4 & _). by rewrite (ledger_same b). }
  destruct leaf; try discriminate Hl; try done; destruct e; step_cbn Hs;
    try (rewrite app_nil_r; by apply Hp in Hs); try case_decide; try (injection Hs as <- <-);
    cbn [send_cb]; rewrite ?app_nil_r, ?ledger_tear_down, ?ledger_shutdown,
      ?ledger_subscribing, ?ledger_connecting, ?ledger_recall, ?ledger_notify, ?ledger_observer,
      ?ledger_timeout, ?ledger_message, ?disarm_fields;
    try reflexivity; try (by rewrite ledger_put_off, ?app_nil_r); try (by rewrite ledger_call).
  - by rewrite ledger_tear_down.
  - destruct (doSendRequest_ _ _ _ _ _ _ _) as [b1|] eqn:Hd; simplify_eq/=.
    apply (ledger_send p); auto.
  - destruct (doPublishOneway_ _ _ _ _ _) as [b1|] eqn:Hd; simplify_eq/=.
    by apply (ledger_publish p).
Qed.

(** ** The answers given *)

Definition rpc_answer (c : call (json := json) (C := C)) : option (C * option (Envelope json)) :=
  match c with RpcCall cb r => Some (cb, r) | _ => None end.
Definition answers (b : Bridge) : list (C * option (Envelope json)) := omap rpc_answer (out b).

Lemma answers_conns op m : omap rpc_answer (conn_calls op m) = [].
Proof. unfold conn_calls. induction (token_items m) as [|[t [c|]] l IH]; simpl; done. Qed.

Lemma answers_call cb r :
  omap rpc_answer (rpc_call cb r) = (fun c => (c, r)) <$> option_list cb.
Proof. by destruct cb. Qed.

Lemma fmap_bind {A B B'} (f : B -> B') (g : A -> list B) (l : list A) :
  f <$> (l ≫= g) = l ≫= (fun a => f <$> g a).
Proof. induction l as [|a l IH]; [done|]. by rewrite !bind_cons, fmap_app, IH. Qed.

Lemma answers_fail (b : Bridge) :
  omap rpc_answer (fail_calls b) =
    (fun c => (c, None)) <$> (flight_cbs (in_flight_ b) ++ (deferred_ b ≫= send_cb)).
Proof.
  unfold fail_calls, flight_cbs. rewrite omap_app, fmap_app, !fmap_bind. f_equal; apply omap_bind.
  - intros kv. apply answers_call.
  - intros e. destruct e; try done. apply answers_call.
Qed.

Lemma answers_tear_down (b : Bridge) :
  answers (tear_down b) =
    answers b ++ ((fun c => (c, None)) <$> (flight_cbs (in_flight_ b) ++ (deferred_ b ≫= send_cb))).
Proof.
  rewrite tear_down_eq. unfold answers. simpl. by rewrite !omap_app, answers_conns, answers_fail.
Qed.

Lemma answers_shutdown (b : Bridge) : answers (shutdown_entry rc_of b) = answers (tear_down b).
Proof. destruct (shutdown_fields rc_of b) as (_ & _ & Ho & _). unfold answers. by rewrite Ho. Qed.

Lemma shutdown_cleared (b : Bridge) :
  in_flight_ (shutdown_entry rc_of b) = ∅ /\ deferred_ (shutdown_entry rc_of b) = [].
Proof.
  destruct (shutdown_fields rc_of b) as (H1 & H2 & _). by rewrite H1, H2, tear_down_eq.
Qed.

(** ** Properties *)

(** Every request is answered exactly once. In every step of the bridge
    outside ShuttingDown, for any event, the callbacks invoked so far together
    with those of the requests the bridge holds (in flight, deferred, or
    recalled and on their way back to the queue) change by exactly the
    callback of the request the event brings: none is lost, none is invoked
    twice. The one condition is that a request sent while Operational does not
    reuse the correlation id of a request in flight. *)
Theorem rpc_conserved (leaf leaf' : bridge_state) (e : bridge_event) (b b' : Bridge) :
  chart_step handler lineage leaf e b = Done (leaf', b') ->
  is_leaf leaf = true -> leaf <> ShuttingDown_St ->
  (forall p, e = SendReq_Signal p -> leaf = Operational_St ->
     in_flight_ b !! request_key p = None) ->
  called b' ++ held b' ≡ₚ (called b ++ held b) ++ send_cb e.
Proof.
  intros Hs Hl. rewrite bridge_chart_step in Hs by done. intros Hsd Hfr.
  by apply (ledger_step leaf e b b' leaf').
Qed.

(** C12: stopping answers everything. From every state but ShuttingDown,
    [Stop_Signal] leads to ShuttingDown, with nothing in flight and nothing
    deferred, and every request that was in flight or deferred has been
    answered with no envelope, once. *)
Theorem stop_answers_all (leaf : bridge_state) (b : Bridge) :
  is_leaf leaf = true -> leaf <> ShuttingDown_St ->
  exists b', chart_step handler lineage leaf Stop_Signal b = Done (ShuttingDown_St, b') /\
    in_flight_ b' = ∅ /\ deferred_ b' = [] /\
    answers b' =
      answers b ++ ((fun c => (c, None)) <$> (flight_cbs (in_flight_ b) ++ (deferred_ b ≫= send_cb))).
Proof.
  intros Hl Hsd. rewrite bridge_chart_step by done.
  destruct leaf; try discriminate Hl; try done; eexists; (split; [reflexivity|]);
    rewrite answers_shutdown; (split; [apply shutdown_cleared|]);
    (split; [apply shutdown_cleared|]); rewrite ?answers_tear_down, ?disarm_fields; try done.
  rewrite (tear_down_eq b). simpl. rewrite flight_cbs_empty. simpl. by rewrite app_nil_r.
Qed.

(** C13: a response resolves the request it answers and nothing else. A
    message carrying [dest] is ignored unless [dest] is this process's id and
    the correlation id is in flight; otherwise the request's timer is
    cancelled, the request leaves the table, and its callback receives the
    envelope, or no envelope when the data does not match the response schema.
    A response timeout takes the request out in the same way. *)
Theorem response_resolves (topic body : string) (j : json) (env : Envelope json) (d : string)
    (b : Bridge) :
  parse body = Some j -> fromJson j = inr env -> dest env = Some d ->
  (d <> pa_id_ b \/ in_flight_ b !! corrId env = None ->
   chart_step handler lineage Operational_St (EvtRecv_Signal topic body) b =
     Done (Operational_St, b)) /\
  (forall i, d = pa_id_ b -> in_flight_ b !! corrId env = Some i ->
   exists b', chart_step handler lineage Operational_St (EvtRecv_Signal topic body) b =
       Done (Operational_St, b') /\
     in_flight_ b' = delete (corrId env) (in_flight_ b) /\
     timer_ops b' = timer_ops b ++ cancel_ops (if_timer_token i) /\
     out b' = out b ++ rpc_call (if_cb i)
       (if data_valid schema_check (if_rsp_schema_id i) env then Some env else None)) /\
  (forall cid i, in_flight_ b !! cid = Some i ->
   exists b', chart_step handler lineage Operational_St (RspTimeout_Signal cid) b =
       Done (Operational_St, b') /\
     in_flight_ b' = delete cid (in_flight_ b) /\ out b' = out b ++ rpc_call (if_cb i) None).
Proof.
  intros Hp Hj Hd. rewrite bridge_chart_step by done. cbn [BridgeSpec.bridge_step].
  unfold on_message. rewrite Hp, Hj, Hd. split; [|split].
  - intros [Hne|Hn]; [by rewrite decide_True by done|].
    unfold on_response. rewrite Hn. by case_decide.
  - intros i Heq Hi. rewrite decide_False by (intros Hn; by apply Hn).
    unfold on_response. rewrite Hi, cancel_timer_eq. eexists. split; [reflexivity|].
    destruct (data_valid _ _ _); simpl; rewrite call_rpc_eq; done.
  - intros cid i Hi. rewrite bridge_chart_step by done. cbn [BridgeSpec.bridge_step].
    unfold on_rsp_timeout. rewrite Hi, call_rpc_eq. eexists. split; [reflexivity|done].
Qed.

End BridgeRpc.

(** *** Witnesses *)

Import BridgeDemo.

Lemma rpc_conserved_witness :
  exists b', chart_step demo_handler lineage Operational_St (SendReq_Signal request) operational
      = Done (Operational_St, b') /\
    called b' ++ held b' ≡ₚ (called operational ++ held operational) ++ ["cb"].
Proof.
  eexists. split; [vm_compute; reflexivity|].
  refine (rpc_conserved parse_ dump_ check_ rc_ "/run/mqtt.sock" clock_ service_token
    Operational_St Operational_St (SendReq_Signal request) operational _ _ _ _ _).
  - vm_compute. reflexivity.
  - reflexivity.
  - discriminate.
  - intros p _ _. vm_compute. reflexivity.
Defined.

Lemma stop_answers_all_witness :
  exists b', chart_step demo_handler lineage Operational_St Stop_Signal waiting
      = Done (ShuttingDown_St, b') /\
    in_flight_ b' = ∅ /\ deferred_ b' = [] /\
    answers b' = answers waiting ++
      ((fun c => (c, None)) <$> (flight_cbs (in_flight_ waiting) ++ (deferred_ waiting ≫= send_cb))).
Proof.
  apply (stop_answers_all parse_ dump_ check_ rc_ "/run/mqtt.sock" clock_ service_token
    Operational_St waiting); [reflexivity|discriminate].
Defined.

(** The request in flight is the one answered. *)
Example waiting_answered :
  flight_cbs (in_flight_ waiting) = ["cb"] /\ answers waiting = [].
Proof. split; vm_compute; reflexivity. Qed.

Lemma response_resolves_witness :
  exists b', chart_step demo_handler lineage Operational_St
      (EvtRecv_Signal "mp/rsp/data/start" "rsp") waiting = Done (Operational_St, b') /\
    in_flight_ b' = delete "0000000a" (in_flight_ waiting) /\
    timer_ops b' = timer_ops waiting ++ cancel_ops 3 /\
    out b' = out waiting ++ rpc_call (Some "cb") (Some rsp_env).
Proof.
  refine (proj1 (proj2 (response_resolves parse_ dump_ check_ rc_ "/run/mqtt.sock" clock_
    service_token "mp/rsp/data/start" "rsp" (toJson rsp_env) rsp_env "pa-test-0001" waiting
    _ _ _)) (mkInFlight "mp/req/data/start" "data.start.rsp" (Some "cb") 3) _ _);
    vm_compute; reflexivity.
Defined.


(** ** Where a callback is lost *)

(** After [stop] has begun, a request that was still queued is swallowed: its
    callback is neither invoked nor kept. *)
Lemma shutdown_drops_request {json} `{Json json} {C} parse dump check rc uds clock token
    (p : SendReqPld (json := json) (C := C)) (b : Bridge) :
  chart_step (handler parse dump check rc uds clock token (C := C)) lineage ShuttingDown_St
    (SendReq_Signal p) b = Done (ShuttingDown_St, b).
Proof. by rewrite bridge_chart_step. Qed.

(** A second request with a correlation id in flight is published, but its
    callback is dropped: the table keeps the first one. *)
Example duplicate_corr_id :
  let second := mkSendReq "mp/req/data/start" "data.start.rsp" req_env (Some "cb2") 5000 in
  match chart_step demo_handler lineage Operational_St (SendReq_Signal second) waiting with
  | Done (_, b') => flight_cbs (in_flight_ b') = ["cb"] /\ called b' = [] /\
                    length (wire b') = S (length (wire waiting))
  | Fail _ => False
  end.
Proof. vm_compute. auto. Qed.
