(* ===== verification/BridgeFence.v ===== *)
(** * Subscriptions, connectivity observers and the drain fence

    What IModemBridge.hpp promises a manager that withdraws its callbacks before
    it is destroyed, and what observers of the connection see. *)

From S2P Require Import Prelude Hsm HsmSpec HsmProps ActiveObject Defer Json Envelope.
From S2P Require Import ModemBridge BridgeSpec BridgeProps.

Local Open Scope Z_scope.

Section BridgeFence.
Context {json : Type} `{Json json} {C : Type}.
Context (parse : string -> option json) (dump : json -> option string).
Context (schema_check : string -> json -> option bool).
Context (rc_of : list mosq_call -> mosq_call -> Z) (uds_socket : string).
Context (clock_at token_at : nat -> Z).

Local Notation Bridge := (Bridge (json := json) (C := C)).
Local Notation bridge_event := (bridge_event (json := json) (C := C)).
Local Notation call := (call (json := json) (C := C)).
Local Notation handler :=
  (handler parse dump schema_check rc_of uds_socket clock_at token_at (C := C)).
Local Notation bridge_step :=
  (bridge_step parse dump schema_check rc_of uds_socket clock_at token_at (C := C)).

(** ** What one step adds to the callbacks invoked *)

(** Whether a call is one of an event subscription to [topic], or one of the
    connectivity observer [tok]. *)
Definition event_call (topic : string) (c : call) : Prop :=
  match c with EventCall _ t _ => t = topic | _ => False end.
Definition conn_call_of (tok : Z) (c : call) : Prop :=
  match c with ConnCall t _ _ => t = tok | _ => False end.

#[global] Instance event_call_dec topic c : Decision (event_call topic c).
Proof. destruct c; simpl; apply _. Defined.
#[global] Instance conn_call_dec tok c : Decision (conn_call_of tok c).
Proof. destruct c; simpl; apply _. Defined.

Lemma rpc_call_no_event topic cb r : filter (event_call topic) (rpc_call cb r) = [].
Proof. by destruct cb. Qed.
Lemma rpc_call_no_conn tok cb r : filter (conn_call_of tok) (rpc_call cb r) = [].
Proof. by destruct cb. Qed.

Lemma filter_bind_nil {A} (P : call -> Prop) `{forall c, Decision (P c)} (f : A -> list call) l :
  (forall a, a ∈ l -> filter P (f a) = []) -> filter P (l ≫= f) = [].
Proof.
  induction l as [|a l IH]; intros Hf; [done|].
  rewrite bind_cons, filter_app, Hf by by left. apply IH. intros x Hx. apply Hf. by right.
Qed.

Lemma conn_calls_no_event topic op m : filter (event_call topic) (conn_calls op m) = [].
Proof. apply filter_bind_nil. intros [t [c|]] _; done. Qed.

Lemma fail_calls_no_event topic (b : Bridge) : filter (event_call topic) (fail_calls b) = [].
Proof.
  unfold fail_calls. rewrite filter_app, !filter_bind_nil; [done| |].
  - intros e _. destruct e; try done. apply rpc_call_no_event.
  - intros kv _. apply rpc_call_no_event.
Qed.

Lemma fail_calls_no_conn tok (b : Bridge) : filter (conn_call_of tok) (fail_calls b) = [].
Proof.
  unfold fail_calls. rewrite filter_app, !filter_bind_nil; [done| |].
  - intros e _. destruct e; try done. apply rpc_call_no_conn.
  - intros kv _. apply rpc_call_no_conn.
Qed.

(** The calls for one observer in a round of notifications: one, if it is
    registered with a callback. *)
Lemma conn_calls_of tok op m :
  filter (conn_call_of tok) (conn_calls op m) =
    match m !! tok with Some (Some c) => [ConnCall tok c op] | _ => [] end.
Proof.
  unfold conn_calls.
  assert (Hnd : NoDup (token_items m).*1) by (rewrite token_items_perm; apply NoDup_fst_map_to_list).
  assert (Hin : forall x, (tok, x) ∈ token_items m <-> m !! tok = Some x)
    by (intros x; rewrite token_items_perm; apply elem_of_map_to_list).
  destruct (m !! tok) as [x|] eqn:Hm.
  - assert (Hx : (tok, x) ∈ token_items m) by by apply Hin.
    apply list_elem_of_split in Hx as (l1 & l2 & Hl). rewrite Hl in *.
    rewrite fmap_app, NoDup_app in Hnd. destruct Hnd as (_ & Hd1 & Hd2). simpl in *.
    apply NoDup_cons in Hd2 as [Hd2 _].
    assert (Hother : forall l, tok ∉ l.*1 -> filter (conn_call_of tok) (l ≫= conn_call op) = []).
    { intros l Hl'. apply filter_bind_nil. intros [t [c|]] Ht; [|done].
      change (conn_call op (t, Some c)) with [ConnCall (json := json) t c op].
      rewrite filter_cons_False; [done|]. simpl. intros ->. apply Hl'.
      by apply (list_elem_of_fmap_2 fst) in Ht. }
    rewrite bind_app, bind_cons, !filter_app, (Hother l1), (Hother l2), app_nil_r; [|done|].
    + destruct x as [c|]; [|done].
      change (conn_call op (tok, Some c)) with [ConnCall (json := json) tok c op].
      by rewrite filter_cons_True.
    + intros Hl1. apply (Hd1 tok Hl1). by left.
  - apply filter_bind_nil. intros [t [c|]] Ht; [|done].
    change (conn_call op (t, Some c)) with [ConnCall (json := json) t c op].
    rewrite filter_cons_False; [done|]. simpl. intros ->. apply Hin in Ht. congruence.
Qed.

(** The output, the subscriptions and the observers after a step: closed forms
    of the composed actions. *)
Lemma tear_down_out (b : Bridge) :
  out (tear_down b) = out b ++ conn_calls false (connectivity_observers_ b) ++ fail_calls b /\
  subscriptions_ (tear_down b) = subscriptions_ b /\
  connectivity_observers_ (tear_down b) = connectivity_observers_ b.
Proof. by rewrite tear_down_eq. Qed.

(** Output that concerns no subscription and no observer. *)
Definition quiet (b b' : Bridge) : Prop :=
  (exists l, out b' = out b ++ l /\ (forall topic, filter (event_call topic) l = []) /\
     (forall tok, filter (conn_call_of tok) l = [])) /\
  subscriptions_ b' = subscriptions_ b /\ connectivity_observers_ b' = connectivity_observers_ b.

Lemma quiet_refl (b b' : Bridge) :
  out b' = out b -> subscriptions_ b' = subscriptions_ b ->
  connectivity_observers_ b' = connectivity_observers_ b -> quiet b b'.
Proof. intros Ho Hs Hc. split; [|done]. exists []. by rewrite app_nil_r. Qed.

Lemma quiet_call cb r (b b1 : Bridge) :
  out b1 = out b -> subscriptions_ b1 = subscriptions_ b ->
  connectivity_observers_ b1 = connectivity_observers_ b -> quiet b (call_rpc cb r b1).
Proof.
  intros Ho Hs Hc. rewrite call_rpc_eq. split; [|done]. exists (rpc_call cb r). simpl.
  rewrite Ho. split; [done|]. split; intros; [apply rpc_call_no_event|apply rpc_call_no_conn].
Qed.

Lemma doSend_quiet p (b b' : Bridge) :
  doSendRequest_ dump schema_check rc_of clock_at token_at p b = Done b' -> quiet b b'.
Proof.
  unfold doSendRequest_. simpl.
  case_decide; [intros [= <-]; by apply quiet_call|].
  destruct (_ && _); [intros [= <-]; by apply quiet_call|].
  destruct (dump _) as [body|]; [|done].
  repeat case_decide; try case_goal; intros [= <-]; rewrite ?cancel_timer_eq;
    first [by apply quiet_call | by apply quiet_refl].
Qed.

Lemma on_rsp_timeout_quiet cid (b : Bridge) : quiet b (on_rsp_timeout cid b).
Proof.
  unfold on_rsp_timeout. case_goal; [by apply quiet_call|by apply quiet_refl].
Qed.

Lemma on_message_out topic body (b : Bridge) :
  let b' := on_message parse schema_check topic body b in
  quiet b b' \/
  exists c env, out b' = out b ++ [EventCall c topic env] /\ is_Some (subscriptions_ b !! topic) /\
    subscriptions_ b' = subscriptions_ b /\
    connectivity_observers_ b' = connectivity_observers_ b.
Proof.
  unfold on_message. destruct (parse body) as [j|]; [|left; by apply quiet_refl].
  destruct (fromJson j) as [m|env]; [left; by apply quiet_refl|].
  destruct (dest env) as [d|].
  - left. case_decide; [by apply quiet_refl|]. unfold on_response.
    case_goal; [|by apply quiet_refl]. rewrite cancel_timer_eq. case_goal; by apply quiet_call.
  - unfold on_indication. destruct (subscriptions_ b !! topic) as [s|] eqn:Hs;
      [|left; by apply quiet_refl].
    case_goal; [left; by apply quiet_refl|].
    destruct (sub_cb s) as [c|]; simpl; [right|left; by apply quiet_refl].
    exists c, env. repeat split; eauto.
Qed.

(** ** What a step does to subscriptions, observers and their callbacks *)

Definition sub_update (leaf : bridge_state) (e : bridge_event) (m : gmap string Subscription) :=
  match leaf, e with
  | ShuttingDown_St, _ => m
  | _, SubscribeEvent_Signal topic sid cb => <[topic := mkSubscription sid cb]> m
  | _, UnsubscribeEvent_Signal topic => delete topic m
  | _, _ => m
  end.

Definition obs_update (leaf : bridge_state) (e : bridge_event) (m : gmap Z (option C)) :=
  match leaf, e with
  | ShuttingDown_St, _ => m
  | _, SubscribeConnectivity_Signal tok cb => <[tok := cb]> m
  | _, UnsubscribeConnectivity_Signal tok => delete tok m
  | _, _ => m
  end.

(** The rounds of notifications of a step. *)
Definition rounds (leaf : bridge_state) (e : bridge_event) : list bool :=
  match leaf, e with
  | Subscribing_St, AllSubAcked_Signal => [true]
  | Operational_St, (LinkDown_Signal _ | Stop_Signal) => [false; false]
  | Connecting_St, LinkUp_Signal rc => if decide (rc = 0) then [] else [false]
  | Connecting_St, (ConnectTimeout_Signal | LinkDown_Signal _) => [false]
  | Subscribing_St, LinkDown_Signal _ => [false]
  | (Disconnected_St | Connecting_St | Subscribing_St | Backoff_St), Stop_Signal => [false]
  | _, _ => []
  end.

Definition observer_calls (tok : Z) (leaf : bridge_state) (e : bridge_event)
    (m : gmap Z (option C)) : list call :=
  match leaf, e with
  | Operational_St, SubscribeConnectivity_Signal t (Some c) =>
      if decide (t = tok) then [ConnCall tok c true] else []
  | _, _ => match m !! tok with Some (Some c) => ConnCall tok c <$> rounds leaf e | _ => [] end
  end.

Record step_frame (leaf : bridge_state) (e : bridge_event) (b b' : Bridge) : Prop := {
  sf_subs : subscriptions_ b' = sub_update leaf e (subscriptions_ b);
  sf_obs : connectivity_observers_ b' = obs_update leaf e (connectivity_observers_ b);
  sf_out : exists l, out b' = out b ++ l /\
    (forall topic, filter (event_call topic) l <> [] ->
       leaf = Operational_St /\ is_Some (subscriptions_ b !! topic)) /\
    (forall tok, filter (conn_call_of tok) l =
       observer_calls tok leaf e (connectivity_observers_ b)) }.

Lemma frame_quiet leaf e (b b' : Bridge) :
  quiet b b' -> sub_update leaf e (subscriptions_ b) = subscriptions_ b ->
  obs_update leaf e (connectivity_observers_ b) = connectivity_observers_ b ->
  (forall tok, observer_calls tok leaf e (connectivity_observers_ b) = []) ->
  step_frame leaf e b b'.
Proof.
  intros [(l & Ho & Hl1 & Hl2) [Hs Hc]] Hsu Hou Hoc. split; [congruence|congruence|].
  exists l. split; [done|]. split; [intros topic Hne; by destruct Hne|].
  intros tok. by rewrite Hl2, Hoc.
Qed.

(** A step whose only output is a number of rounds and RPC failures. *)
Lemma frame_rounds leaf e (b b' : Bridge) l :
  out b' = out b ++ l ->
  (forall topic, filter (event_call topic) l = []) ->
  (forall tok, filter (conn_call_of tok) l =
     match connectivity_observers_ b !! tok with
     | Some (Some c) => ConnCall tok c <$> rounds leaf e | _ => [] end) ->
  subscriptions_ b' = subscriptions_ b -> connectivity_observers_ b' = connectivity_observers_ b ->
  match e with
  | Start_Signal | Stop_Signal | LinkUp_Signal _ | LinkDown_Signal _ | ConnectTimeout_Signal
  | AllSubAcked_Signal => True | _ => False
  end ->
  step_frame leaf e b b'.
Proof.
  intros Ho Hl1 Hl2 Hs Hc He.
  assert (Hsu : sub_update leaf e (subscriptions_ b) = subscriptions_ b) by by destruct leaf, e.
  assert (Hou : obs_update leaf e (connectivity_observers_ b) = connectivity_observers_ b)
    by by destruct leaf, e.
  split; [congruence|congruence|]. exists l. split; [done|].
  split; [intros topic Hne; by destruct (Hne (Hl1 topic))|].
  intros tok. rewrite Hl2. by destruct leaf, e.
Qed.

Lemma tear_down_frame leaf e (b b1 : Bridge) :
  out b1 = out b -> subscriptions_ b1 = subscriptions_ b ->
  connectivity_observers_ b1 = connectivity_observers_ b ->
  rounds leaf e = [false] ->
  match e with
  | Start_Signal | Stop_Signal | LinkUp_Signal _ | LinkDown_Signal _ | ConnectTimeout_Signal
  | AllSubAcked_Signal => True | _ => False
  end ->
  step_frame leaf e b (tear_down b1).
Proof.
  intros Ho Hs Hc Hr He. destruct (tear_down_out b1) as (Ho1 & Hs1 & Hc1).
  apply (frame_rounds leaf e b _ (conn_calls false (connectivity_observers_ b) ++ fail_calls b1)).
  - by rewrite Ho1, Ho, Hc.
  - intros topic. by rewrite filter_app, conn_calls_no_event, fail_calls_no_event.
  - intros tok. rewrite filter_app, conn_calls_of, fail_calls_no_conn, app_nil_r, Hr. done.
  - by rewrite Hs1.
  - by rewrite Hc1.
  - done.
Qed.

Lemma step_frame_ext leaf e (b b1 b2 : Bridge) :
  step_frame leaf e b b1 -> out b2 = out b1 -> subscriptions_ b2 = subscriptions_ b1 ->
  connectivity_observers_ b2 = connectivity_observers_ b1 -> step_frame leaf e b b2.
Proof.
  intros [H1 H2 (l & H3 & H4)] Ho Hs Hc. split; [congruence|congruence|].
  exists l. split; [congruence|done].
Qed.

Lemma shutdown_frame leaf e (b b1 : Bridge) :
  step_frame leaf e b (tear_down b1) -> step_frame leaf e b (shutdown_entry rc_of b1).
Proof.
  intros Hf. destruct (shutdown_fields rc_of b1) as (_ & _ & Ho & _ & _ & _ & Hs & Hc).
  by apply (step_frame_ext _ _ _ _ _ Hf).
Qed.

Lemma tear_down_twice_frame e (b b1 : Bridge) :
  out b1 = out b -> subscriptions_ b1 = subscriptions_ b ->
  connectivity_observers_ b1 = connectivity_observers_ b ->
  match e with Stop_Signal | LinkDown_Signal _ => True | _ => False end ->
  step_frame Operational_St e b (tear_down (tear_down b1)).
Proof.
  intros Ho Hs Hc He.
  destruct (tear_down_out b1) as (Ho1 & Hs1 & Hc1).
  destruct (tear_down_out (tear_down b1)) as (Ho2 & Hs2 & Hc2).
  apply (frame_rounds _ _ _ _
    ((conn_calls false (connectivity_observers_ b) ++ fail_calls b1) ++
     conn_calls false (connectivity_observers_ b) ++ fail_calls (tear_down b1))).
  - by rewrite Ho2, Ho1, Hc1, Ho, Hc, <- (assoc_L (++)).
  - intros topic. by rewrite !filter_app, !conn_calls_no_event, !fail_calls_no_event.
  - intros tok. rewrite !filter_app, !conn_calls_of, !fail_calls_no_conn, !app_nil_r.
    destruct (_ !! tok) as [[c|]|]; by destruct e.
  - congruence.
  - congruence.
  - by destruct e.
Qed.

Lemma parent_frame c leaf e (b b' : Bridge) leaf' :
  parent_step rc_of c leaf e b = (leaf', b') -> leaf <> ShuttingDown_St -> rounds leaf e = [] ->
  (leaf = Operational_St -> forall tok cb, e <> SubscribeConnectivity_Signal tok cb) ->
  step_frame leaf e b b'.
Proof.
  intros Heq Hsd Hr Hop.
  assert (Hb : b' = snd (parent_step rc_of c leaf e b)) by by rewrite Heq. subst b'.
  assert (Hobs : forall m tok, observer_calls tok leaf e m = []).
  { intros m tok. unfold observer_calls. rewrite Hr.
    destruct leaf, e; try (by destruct (m !! tok) as [[?|]|]).
    by destruct (Hop eq_refl token cb). }
  assert (Hout : out (snd (parent_step rc_of c leaf e b)) = out b).
  { destruct e; simpl; try done; try (by destruct c).
    by destruct (fulfil_core fence b) as (_ & _ & _ & -> & _). }
  split.
  - destruct leaf; try done; destruct e; simpl; try done; try (by destruct c);
      by destruct (fulfil_core fence b) as (_ & _ & _ & _ & _ & -> & _).
  - destruct leaf; try done; destruct e; simpl; try done; try (by destruct c);
      by destruct (fulfil_core fence b) as (_ & _ & _ & _ & _ & _ & ->).
  - exists []. rewrite app_nil_r. split; [done|]. split; [done|].
    intros tok. by rewrite Hobs.
Qed.

(** A step without rounds whose output is quiet. *)
Lemma frame_quiet_noround leaf e (b b' : Bridge) :
  quiet b b' -> rounds leaf e = [] ->
  match leaf, e with
  | ShuttingDown_St, _ => True
  | _, (SubscribeEvent_Signal _ _ _ | UnsubscribeEvent_Signal _ | SubscribeConnectivity_Signal _ _
       | UnsubscribeConnectivity_Signal _) => False
  | _, _ => True
  end ->
  step_frame leaf e b b'.
Proof.
  intros Hq Hr He. apply frame_quiet; [done|by destruct leaf, e..|].
  intros tok. unfold observer_calls. rewrite Hr.
  destruct leaf, e; try done; by destruct (_ !! tok) as [[?|]|].
Qed.

Lemma subscribing_quiet (b b1 : Bridge) :
  out b1 = out b -> subscriptions_ b1 = subscriptions_ b ->
  connectivity_observers_ b1 = connectivity_observers_ b -> quiet b (enter_subscribing rc_of b1).
Proof.
  intros Ho Hs Hc. unfold enter_subscribing. rewrite issue_eq, add_wires_fields. by apply quiet_refl.
Qed.

Lemma operational_frame (b : Bridge) :
  step_frame Subscribing_St AllSubAcked_Signal b (recall_deferred (notifyConnectivity_ true b)).
Proof.
  rewrite recall_eq, notify_eq.
  apply (frame_rounds _ _ _ _ (conn_calls true (connectivity_observers_ b))); try done.
  - intros topic. apply conn_calls_no_event.
  - intros tok. rewrite conn_calls_of. done.
Qed.

Lemma subscribe_conn_frame tok cb (b : Bridge) :
  step_frame Operational_St (SubscribeConnectivity_Signal tok cb) b
    (add_observer tok cb (call_conn tok cb true b)).
Proof.
  destruct cb as [c|].
  - split; simpl; try done. exists [ConnCall tok c true]. split; [done|]. split; [done|].
    intros t. unfold observer_calls.
    destruct (decide (tok = t)) as [->|Hne]; [by rewrite filter_cons_True|].
    by rewrite filter_cons_False.
  - split; simpl; try done. exists []. rewrite app_nil_r. split; [done|]. split; [done|].
    intros t. unfold observer_calls. simpl. by destruct (_ !! t) as [[?|]|].
Qed.

Lemma message_frame topic body (b : Bridge) :
  step_frame Operational_St (EvtRecv_Signal topic body) b
    (on_message parse schema_check topic body b).
Proof.
  destruct (on_message_out topic body b) as [Hq|(c & env & Ho & Hsome & Hs & Hc)].
  - by apply frame_quiet_noround.
  - split; [done|done|]. exists [EventCall c topic env]. split; [done|]. split.
    + intros t Hne. split; [done|]. destruct (decide (topic = t)) as [->|Hd]; [done|].
      destruct Hne. by rewrite filter_cons_False.
    + intros tok. rewrite filter_cons_False by by intros []. unfold observer_calls. simpl.
      by destruct (_ !! tok) as [[?|]|].
Qed.

Lemma terminal_frame e (b b' : Bridge) leaf' :
  bridge_step ShuttingDown_St e b = Done (leaf', b') -> step_frame ShuttingDown_St e b b'.
Proof.
  intros Hs. apply frame_quiet_noround; [|by destruct e|done].
  destruct e; injection Hs as <- <-; try (by apply quiet_refl).
  destruct (fulfil_core fence b) as (_ & _ & _ & Ho & _ & Hsu & Hc). by apply quiet_refl.
Qed.

Lemma bridge_step_frame leaf e (b b' : Bridge) leaf' :
  bridge_step leaf e b = Done (leaf', b') -> is_leaf leaf = true -> step_frame leaf e b b'.
Proof.
  intros Hs Hl.
  destruct (decide (leaf = ShuttingDown_St)) as [->|Hsd]; [by eapply terminal_frame|].
  assert (Hp : forall c, Done (parent_step rc_of c leaf e b) = Done (leaf', b') ->
    rounds leaf e = [] ->
    (leaf = Operational_St -> forall tok cb, e <> SubscribeConnectivity_Signal tok cb) ->
    step_frame leaf e b b').
  { intros c [= Heq]. by eapply parent_frame. }
  destruct leaf; try discriminate Hl; try done; destruct e; step_cbn Hs;
    try (apply Hp in Hs; [exact Hs|done|intros; discriminate]); clear Hp;
    try case_decide; try (injection Hs as <- <-);
    try (apply tear_down_frame; rewrite ?disarm_fields; simpl; rewrite ?decide_False by done; done);
    try (apply tear_down_twice_frame; done);
    try (apply shutdown_frame, tear_down_frame; rewrite ?disarm_fields; done);
    try (apply shutdown_frame, tear_down_twice_frame; done);
    try (apply frame_quiet_noround; [by apply quiet_refl|done|done]);
    try (apply frame_quiet_noround; [by apply quiet_call|done|done]).
  - apply frame_quiet_noround; [|done|done].
    destruct (connecting_fields rc_of uds_socket clock_at token_at b) as (_ & _ & Ho & Hs & Hc & _).
    by apply quiet_refl.
  - apply frame_quiet_noround; [|simpl; by rewrite decide_True|done].
    apply subscribing_quiet; by rewrite disarm_fields.
  - apply operational_frame.
  - destruct (doSendRequest_ _ _ _ _ _ _ _) as [b1|] eqn:Hd; [|done]. injection Hs as <- <-.
    apply frame_quiet_noround; [by eapply doSend_quiet|done|done].
  - apply frame_quiet_noround; [apply on_rsp_timeout_quiet|done|done].
  - apply message_frame.
  - apply subscribe_conn_frame.
  - destruct (doPublishOneway_ _ _ _ _ _) as [b1|] eqn:Hd; [|done]. injection Hs as <- <-.
    apply doPublish_core in Hd as (_ & _ & Ho & Hsu & Hc).
    apply frame_quiet_noround; [by apply quiet_refl|done|done].
  - apply frame_quiet_noround; [by apply subscribing_quiet|done|done].
Qed.

Lemma bridge_step_leaf leaf e (b b' : Bridge) leaf' :
  bridge_step leaf e b = Done (leaf', b') -> is_leaf leaf = true -> is_leaf leaf' = true.
Proof.
  intros Hs Hl. destruct leaf; try discriminate Hl; destruct e; step_cbn Hs;
    try case_decide; try (injection Hs as <- _); try done.
  - destruct (doSendRequest_ _ _ _ _ _ _ _); [|done]. by injection Hs as <- _.
  - destruct (doPublishOneway_ _ _ _ _ _); [|done]. by injection Hs as <- _.
Qed.

Lemma bridge_step_terminal e (b b' : Bridge) leaf' :
  bridge_step ShuttingDown_St e b = Done (leaf', b') -> leaf' = ShuttingDown_St /\ out b' = out b.
Proof.
  destruct e; intros [= <- <-]; try done. by destruct (fulfil_core fence b) as (_ & _ & _ & -> & _).
Qed.

(** ** Withdrawn callbacks *)

Definition subscribes_topic (topic : string) (e : bridge_event) : bool :=
  match e with SubscribeEvent_Signal t _ _ => bool_decide (t = topic) | _ => false end.
Definition subscribes_token (tok : Z) (e : bridge_event) : bool :=
  match e with SubscribeConnectivity_Signal t _ => bool_decide (t = tok) | _ => false end.

Definition event_calls (topic : string) (b : Bridge) : list call := filter (event_call topic) (out b).
Definition conn_calls_to (tok : Z) (b : Bridge) : list call := filter (conn_call_of tok) (out b).

(** A topic, a token that can trigger no callback any more. *)
Definition topic_off (topic : string) (leaf : bridge_state) (b : Bridge) : Prop :=
  leaf = ShuttingDown_St \/ subscriptions_ b !! topic = None.
Definition token_off (tok : Z) (leaf : bridge_state) (b : Bridge) : Prop :=
  leaf = ShuttingDown_St \/ connectivity_observers_ b !! tok = None.

Lemma topic_off_step topic leaf e (b b' : Bridge) leaf' :
  bridge_step leaf e b = Done (leaf', b') -> is_leaf leaf = true ->
  subscribes_topic topic e = false -> topic_off topic leaf b ->
  topic_off topic leaf' b' /\ event_calls topic b' = event_calls topic b.
Proof.
  intros Hs Hl Hn [->|Ht]; unfold event_calls.
  - apply bridge_step_terminal in Hs as [-> ->]. split; [by left|done].
  - destruct (bridge_step_frame _ _ _ _ _ Hs Hl) as [Hsu _ (l & -> & Hev & _)]. split.
    + right. rewrite Hsu. unfold subscribes_topic, sub_update in *.
      destruct leaf, e; try done; try (apply bool_decide_eq_false in Hn;
        by rewrite lookup_insert_ne by done);
        match goal with |- delete ?t _ !! _ = _ => destruct (decide (t = topic)) as [->|Hne];
          [by rewrite lookup_delete_eq|by rewrite lookup_delete_ne] end.
    + rewrite filter_app. destruct (filter (event_call topic) l) eqn:Hf; [apply app_nil_r|].
      destruct (Hev topic) as [_ Hsome]; [by rewrite Hf|]. rewrite Ht in Hsome.
      by apply is_Some_None in Hsome.
Qed.

Lemma token_off_step tok leaf e (b b' : Bridge) leaf' :
  bridge_step leaf e b = Done (leaf', b') -> is_leaf leaf = true ->
  subscribes_token tok e = false -> token_off tok leaf b ->
  token_off tok leaf' b' /\ conn_calls_to tok b' = conn_calls_to tok b.
Proof.
  intros Hs Hl Hn [->|Ht]; unfold conn_calls_to.
  - apply bridge_step_terminal in Hs as [-> ->]. split; [by left|done].
  - destruct (bridge_step_frame _ _ _ _ _ Hs Hl) as [_ Hou (l & -> & _ & Hcv)]. split.
    + right. rewrite Hou. unfold subscribes_token, obs_update in *.
      destruct leaf, e; try done; try (apply bool_decide_eq_false in Hn;
        by rewrite lookup_insert_ne by done);
        match goal with |- delete ?t _ !! _ = _ => destruct (decide (t = tok)) as [->|Hne];
          [by rewrite lookup_delete_eq|by rewrite lookup_delete_ne] end.
    + rewrite filter_app, Hcv. unfold observer_calls, subscribes_token in *. rewrite Ht.
      destruct leaf, e; try apply app_nil_r. apply bool_decide_eq_false in Hn.
      destruct cb; [by rewrite decide_False, app_nil_r by done|apply app_nil_r].
Qed.

(** Running on from a state where the topic (token) is off. *)
Lemma off_run (Off : bridge_state -> Bridge -> Prop) (calls_ : Bridge -> list call)
    (sub : bridge_event -> bool) ps leaf (b : Bridge) leaf' b' :
  (forall leaf e b b' leaf', bridge_step leaf e b = Done (leaf', b') -> is_leaf leaf = true ->
     sub e = false -> Off leaf b -> Off leaf' b' /\ calls_ b' = calls_ b) ->
  (forall leaf b, Off leaf b -> Off leaf (flush b)) -> (forall b, calls_ (flush b) = calls_ b) ->
  is_leaf leaf = true -> Off leaf b -> Forall (fun p => sub (payload p) = false) ps ->
  chart_run handler flush lineage ps (leaf, b) = Done (leaf', b') ->
  calls_ b' = calls_ b.
Proof.
  intros Hstep Hfl Hcf Hl Ho Hps Hrun.
  assert (Hr : calls_ b' = calls_ b /\ Off leaf' b' /\ is_leaf leaf' = true); [|by destruct Hr].
  revert Hrun. apply (run_stable parse dump schema_check rc_of uds_socket clock_at token_at
    (fun l x => calls_ x = calls_ b /\ Off l x /\ is_leaf l = true)); [by intros ? ? (_ & _ & ?)|..|done].
  - intros l x (H1 & H2 & H3). by rewrite Hcf; auto.
  - intros p l x l1 x1 Hp (H1 & H2 & H3) Hs. rewrite Forall_forall in Hps.
    destruct (Hstep _ _ _ _ _ Hs H3 (Hps p Hp) H2) as [Ho1 Hc1].
    split; [congruence|]. split; [done|]. by eapply bridge_step_leaf.
Qed.

(** ** What an observer last saw *)

Definition conn_flag (c : call) : option bool :=
  match c with ConnCall _ _ op => Some op | _ => None end.

(** The last notification of an observer; none counts as "not operational". *)
Definition last_seen (tok : Z) (b : Bridge) : bool :=
  default false (last (omap conn_flag (conn_calls_to tok b))).

Definition observers_ok (leaf : bridge_state) (b : Bridge) : Prop :=
  forall tok c, connectivity_observers_ b !! tok = Some (Some c) ->
    last_seen tok b = bool_decide (leaf = Operational_St).

Definition token_of (e : bridge_event) : option Z :=
  match e with SubscribeConnectivity_Signal tok _ => Some tok | _ => None end.

(** A token no callback was ever invoked for. *)
Definition unseen (tok : Z) (b : Bridge) : Prop :=
  conn_calls_to tok b = [] /\ connectivity_observers_ b !! tok = None.

Lemma last_seen_app tok (b b' : Bridge) l :
  out b' = out b ++ l -> filter (conn_call_of tok) l = [] -> last_seen tok b' = last_seen tok b.
Proof.
  intros Ho Hl. unfold last_seen, conn_calls_to. by rewrite Ho, filter_app, Hl, app_nil_r.
Qed.

Lemma last_seen_new tok (b b' : Bridge) l l1 c op :
  out b' = out b ++ l -> filter (conn_call_of tok) l = l1 ++ [ConnCall tok c op] ->
  last_seen tok b' = op.
Proof.
  intros Ho Hl. unfold last_seen, conn_calls_to.
  rewrite Ho, filter_app, Hl, (assoc_L (++)), omap_app. simpl. by rewrite last_snoc.
Qed.

(** The last round of a step tells whether the state entered is Operational. *)
Lemma rounds_leaf leaf e (b b' : Bridge) leaf' :
  bridge_step leaf e b = Done (leaf', b') -> is_leaf leaf = true ->
  default (bool_decide (leaf = Operational_St)) (last (rounds leaf e)) =
    bool_decide (leaf' = Operational_St).
Proof.
  intros Hs Hl. destruct leaf; try discriminate Hl; destruct e; step_cbn Hs;
    try case_decide; try (injection Hs as <- _); try done.
  - simpl. by rewrite decide_True.
  - simpl. by rewrite decide_False.
  - destruct (doSendRequest_ _ _ _ _ _ _ _); [|done]. by injection Hs as <- _.
  - destruct (doPublishOneway_ _ _ _ _ _); [|done]. by injection Hs as <- _.
Qed.

(** Calls of one observer that comes through a step registered. *)
Lemma observer_calls_kept tok leaf e (m : gmap Z (option C)) c :
  token_of e <> Some tok -> m !! tok = Some (Some c) ->
  observer_calls tok leaf e m = ConnCall tok c <$> rounds leaf e.
Proof.
  intros Ht Hm. unfold observer_calls. rewrite Hm.
  destruct leaf, e; try done. destruct cb; [|done].
  rewrite decide_False; [done|]. intros ->. by apply Ht.
Qed.

Lemma obs_kept tok leaf e (m : gmap Z (option C)) x :
  token_of e <> Some tok -> obs_update leaf e m !! tok = Some x -> m !! tok = Some x.
Proof.
  intros Ht. unfold obs_update.
  destruct leaf, e; try done; intros Hm;
    try (by rewrite lookup_insert_ne in Hm by (intros ->; by apply Ht));
    by apply lookup_delete_Some in Hm as [_ Hm].
Qed.

Lemma observers_step leaf e (b b' : Bridge) leaf' :
  bridge_step leaf e b = Done (leaf', b') -> is_leaf leaf = true ->
  (forall tok, token_of e = Some tok -> unseen tok b) ->
  observers_ok leaf b -> observers_ok leaf' b'.
Proof.
  intros Hs Hl Hfr Hok tok c Hc.
  pose proof (rounds_leaf _ _ _ _ _ Hs Hl) as Hrl.
  destruct (bridge_step_frame _ _ _ _ _ Hs Hl) as [_ Hou (l & Ho & _ & Hcv)].
  specialize (Hcv tok). rewrite Hou in Hc.
  destruct (decide (token_of e = Some tok)) as [Ht|Ht].
  - destruct (Hfr tok Ht) as [Hun Hm]. destruct e; try discriminate Ht. injection Ht as ->.
    assert (Hlast : last_seen tok b = false) by (unfold last_seen; by rewrite Hun).
    destruct leaf; try discriminate Hl; simpl in Hc, Hcv, Hrl; rewrite Hm in *; try discriminate Hc;
      try (rewrite lookup_insert_eq in Hc; injection Hc as ->);
      try (by rewrite (last_seen_app tok b b' l Ho Hcv), Hlast, <- Hrl).
    rewrite decide_True in Hcv by done. by rewrite (last_seen_new tok b b' l [] c true Ho Hcv), <- Hrl.
  - pose proof (obs_kept _ _ _ _ _ Ht Hc) as Hm.
    rewrite (observer_calls_kept _ _ _ _ _ Ht Hm) in Hcv. rewrite <- Hrl.
    destruct (rounds leaf e) as [|r rs _] eqn:Hr using rev_ind.
    + rewrite (last_seen_app tok b b' l Ho Hcv). simpl. by apply Hok in Hm.
    + rewrite fmap_app in Hcv. rewrite last_snoc. by eapply last_seen_new.
Qed.

Lemma unseen_step tok leaf e (b b' : Bridge) leaf' :
  bridge_step leaf e b = Done (leaf', b') -> is_leaf leaf = true ->
  token_of e <> Some tok -> unseen tok b -> unseen tok b'.
Proof.
  intros Hs Hl Ht [Hun Hm].
  destruct (bridge_step_frame _ _ _ _ _ Hs Hl) as [_ Hou (l & Ho & _ & Hcv)]. split.
  - unfold conn_calls_to in *. rewrite Ho, filter_app, Hun, Hcv. unfold observer_calls. rewrite Hm.
    destruct leaf, e; try done. destruct cb; [|done].
    rewrite decide_False; [done|]. intros ->. by apply Ht.
  - destruct (connectivity_observers_ b' !! tok) as [x|] eqn:Hx; [|done].
    rewrite Hou in Hx. apply (obs_kept _ _ _ _ _ Ht) in Hx. congruence.
Qed.

Lemma observers_run ps leaf (b : Bridge) leaf' b' :
  is_leaf leaf = true -> observers_ok leaf b ->
  NoDup (omap (token_of ∘ payload) ps) ->
  (forall tok, tok ∈ omap (token_of ∘ payload) ps -> unseen tok b) ->
  chart_run handler flush lineage ps (leaf, b) = Done (leaf', b') -> observers_ok leaf' b'.
Proof.
  revert leaf b. induction ps as [|p ps IH]; intros leaf b Hl Hok Hnd Hun.
  - by intros [= <- <-].
  - rewrite chart_run_step by done.
    destruct (bridge_step leaf (payload p) b) as [[leaf1 b1]|f] eqn:Hs; [|done].
    cbn [mbind outcome_bind].
    assert (Hok1 : observers_ok leaf1 b1).
    { eapply observers_step; [done..| |done]. intros tok Ht. apply Hun. simpl. rewrite Ht. left. }
    assert (Hnd' : NoDup (omap (token_of ∘ payload) ps) /\
      forall tok, token_of (payload p) = Some tok -> tok ∉ omap (token_of ∘ payload) ps).
    { simpl in Hnd. destruct (token_of (payload p)) as [t|]; [|done].
      apply NoDup_cons in Hnd as [Hn Hnd]. split; [done|]. by intros tok [= <-]. }
    apply IH; [by eapply bridge_step_leaf|exact Hok1|apply Hnd'|].
    intros tok Hin. apply (unseen_step tok leaf (payload p) b b1 leaf1 Hs Hl).
    + intros Ht. by apply (proj2 Hnd' tok Ht).
    + apply Hun. simpl. destruct (token_of (payload p)); [by right|done].
Qed.

(** ** The fence *)

Definition fence_of (e : bridge_event) : option positive :=
  match e with Drain_Signal n => Some n | _ => None end.

Lemma fulfil_drained n (b : Bridge) m :
  m ∈ drained (fulfil n b) <-> m = n \/ m ∈ drained b.
Proof.
  unfold fulfil. case_decide; simpl; [set_solver|].
  rewrite elem_of_app, list_elem_of_singleton. tauto.
Qed.

Lemma fence_none (m : positive) (P : Prop) : P <-> None = Some m \/ P.
Proof. split; [by right|by intros [|]]. Qed.

Lemma fence_fulfil n (b : Bridge) m :
  m ∈ drained (fulfil n b) <-> Some n = Some m \/ m ∈ drained b.
Proof.
  rewrite fulfil_drained. split; (intros [Heq|]; [left|by right]); congruence.
Qed.

Lemma connecting_drained (b : Bridge) :
  drained (enter_connecting rc_of uds_socket clock_at token_at b) = drained b.
Proof. by destruct (connecting_fields rc_of uds_socket clock_at token_at b) as (_&_&_&_&_&_&_&?). Qed.

Lemma shutdown_drained (b : Bridge) : drained (shutdown_entry rc_of b) = drained (tear_down b).
Proof. by destruct (shutdown_fields rc_of b) as (_&_&_&_&_&?&_). Qed.

(** Only a [Drain_Signal] fulfils a fence, and it does so in every leaf state. *)
Lemma drained_step leaf e (b b' : Bridge) leaf' m :
  bridge_step leaf e b = Done (leaf', b') -> is_leaf leaf = true ->
  m ∈ drained b' <-> fence_of e = Some m \/ m ∈ drained b.
Proof.
  intros Hs Hl.
  assert (Hcore : forall b1, core b1 = core b -> drained b1 = drained b) by (by intros b1 [=]).
  assert (Hp : forall c, Done (parent_step rc_of c leaf e b) = Done (leaf', b') ->
    m ∈ drained b' <-> fence_of e = Some m \/ m ∈ drained b).
  { intros c [= Heq].
    assert (Hb : b' = snd (parent_step rc_of c leaf e b)) by by rewrite Heq. subst b'.
    destruct e; simpl; try apply fence_none; try (destruct c; apply fence_none).
    apply fence_fulfil. }
  destruct leaf; try discriminate Hl; destruct e; step_cbn Hs; try (by apply Hp in Hs);
    clear Hp; try case_decide; try (injection Hs as <- <-); cbn [fence_of];
    try apply fence_fulfil; try apply fence_none;
    rewrite ?connecting_drained, ?shutdown_drained, ?tear_down_eq, ?disarm_fields,
      ?recall_eq, ?notify_eq, ?call_rpc_eq; unfold enter_subscribing;
    rewrite ?issue_eq, ?add_wires_fields; simpl; rewrite ?disarm_fields; simpl;
    try apply fence_none.
  - destruct (doSendRequest_ _ _ _ _ _ _ _) as [b1|] eqn:Hd; [|done]. injection Hs as <- <-.
    apply doSend_core, Hcore in Hd. rewrite Hd. apply fence_none.
  - rewrite (Hcore _ (on_rsp_timeout_core corrId b)). apply fence_none.
  - rewrite (Hcore _ (on_message_core parse schema_check topic body b)). apply fence_none.
  - destruct cb; apply fence_none.
  - destruct (doPublishOneway_ _ _ _ _ _) as [b1|] eqn:Hd; [|done]. injection Hs as <- <-.
    apply doPublish_core in Hd as [Hd%Hcore _]. rewrite Hd. apply fence_none.
Qed.

Lemma drained_run ps leaf (b : Bridge) leaf' b' m :
  is_leaf leaf = true -> chart_run handler flush lineage ps (leaf, b) = Done (leaf', b') ->
  m ∈ drained b' -> m ∈ drained b \/ Drain_Signal m ∈ payload <$> ps.
Proof.
  revert leaf b. induction ps as [|p ps IH]; intros leaf b Hl.
  - intros [= <- <-]. by left.
  - rewrite chart_run_step by done.
    destruct (bridge_step leaf (payload p) b) as [[leaf1 b1]|f] eqn:Hs; [|done].
    cbn [mbind outcome_bind]. intros Hr Hm. rewrite fmap_cons, elem_of_cons.
    destruct (IH leaf1 (flush b1)) as [Hd|Hd]; [by eapply bridge_step_leaf|done|done| |auto].
    apply (drained_step _ _ _ _ _ _ Hs Hl) in Hd as [Hf|Hd]; [|by left].
    right. left. destruct (payload p); try discriminate Hf. by injection Hf as ->.
Qed.

(** ** Properties *)

(** A withdrawn callback stays silent. Once the bridge has processed the
    removal of an event subscription (of a connectivity observer), no callback
    for that topic (that observer) is invoked by anything it processes later,
    unless the topic (token) is subscribed again. *)
Theorem withdrawn_silent (ps1 ps2 : list (post bridge_event)) (topic : string) (tok : Z)
    (leaf leaf1 leaf2 : bridge_state) (b b1 b2 : Bridge) (r : bridge_event) :
  is_leaf leaf = true ->
  chart_run handler flush lineage (ps1 ++ [Fifo r]) (leaf, b) = Done (leaf1, b1) ->
  chart_run handler flush lineage ps2 (leaf1, b1) = Done (leaf2, b2) ->
  (r = UnsubscribeEvent_Signal topic ->
   Forall (fun p => subscribes_topic topic (payload p) = false) ps2 ->
   event_calls topic b2 = event_calls topic b1) /\
  (r = UnsubscribeConnectivity_Signal tok ->
   Forall (fun p => subscribes_token tok (payload p) = false) ps2 ->
   conn_calls_to tok b2 = conn_calls_to tok b1).
Proof.
  intros Hl Hr1 Hr2.
  assert (Hmid : exists leaf0 b0, is_leaf leaf0 = true /\
    exists b1', bridge_step leaf0 r b0 = Done (leaf1, b1') /\ b1 = flush b1').
  { clear Hr2. revert leaf b Hl Hr1. induction ps1 as [|p ps1 IH]; intros leaf b Hl.
    - simpl app. rewrite chart_run_step by done. simpl payload.
      destruct (bridge_step leaf r b) as [[l x]|] eqn:Hs; [|done]. cbn.
      intros [= <- <-]. eauto 10.
    - simpl app. rewrite chart_run_step by done.
      destruct (bridge_step leaf (payload p) b) as [[l x]|] eqn:Hs; [|done].
      cbn [mbind outcome_bind]. apply IH. by eapply bridge_step_leaf. }
  destruct Hmid as (leaf0 & b0 & Hl0 & b1' & Hs & ->).
  pose proof (bridge_step_leaf _ _ _ _ _ Hs Hl0) as Hl1.
  destruct (bridge_step_frame _ _ _ _ _ Hs Hl0) as [Hsu Hou _]. split; intros -> Hps.
  - eapply (off_run (topic_off topic) (event_calls topic)); eauto using topic_off_step.
    destruct (decide (leaf0 = ShuttingDown_St)) as [->|Hne].
    + left. by apply bridge_step_terminal in Hs as [-> _].
    + right. simpl. rewrite Hsu. destruct leaf0; try done; apply lookup_delete_eq.
  - eapply (off_run (token_off tok) (conn_calls_to tok)); eauto using token_off_step.
    destruct (decide (leaf0 = ShuttingDown_St)) as [->|Hne].
    + left. by apply bridge_step_terminal in Hs as [-> _].
    + right. simpl. rewrite Hou. destruct leaf0; try done; apply lookup_delete_eq.
Qed.

(** C15: [drain] is a fence. When a posted fence has been fulfilled, every event
    accepted before it has been completely processed, whatever the threads did
    in between (the bridge posts with [post_fifo] only). *)
Theorem drain_is_fence (ndebug : bool) (h : Hsm bridge_state bridge_event Bridge) (c : AOBridge)
    (m : positive) :
  state_ h = st Disconnected_St -> m ∉ drained (self h) ->
  rtc (steps handler ndebug outbox flush) (started h) c ->
  Forall (fun p => is_fifo p = true) (accepted c) ->
  m ∈ drained (self (hsm c)) ->
  exists before after, accepted c = before ++ Fifo (Drain_Signal m) :: after /\
    (before ++ [Fifo (Drain_Signal m)]) `prefix_of` done c.
Proof.
  intros Hst Hm Hr Hfifo Hd.
  destruct (reach_chart handler ndebug outbox flush parent lineage swallow _ h c Hst Hr)
    as (leaf & Hc & _).
  apply reach_inv in Hr as [Hperm Hord _ _ _ _ _].
  assert (Hall : forall l : list (post bridge_event), Forall (fun p => is_fifo p = true) l ->
    filter (fun p => is_fifo p = true) l = l).
  { intros l. induction 1; [done|]. rewrite filter_cons_True by done. by f_equal. }
  assert (Hf2 : Forall (fun p => is_fifo p = true) (done c ++ in_hand (worker_ c) ++ q_ c))
    by by rewrite Hperm.
  rewrite (Hall _ Hfifo), (Hall _ Hf2) in Hord.
  destruct (drained_run (done c) Disconnected_St (self h) leaf _ m eq_refl Hc Hd) as [Hd0|Hin];
    [done|].
  apply list_elem_of_fmap in Hin as (p & Hp & Hin).
  apply Forall_app in Hf2 as [Hf2 _]. rewrite Forall_forall in Hf2. specialize (Hf2 p Hin).
  assert (p = Fifo (Drain_Signal m)) as -> by (destruct p; simpl in *; congruence).
  apply list_elem_of_split in Hin as (l1 & l2 & Hdone). rewrite Hdone in *.
  exists l1, (l2 ++ in_hand (worker_ c) ++ q_ c). split.
  - by rewrite <- Hord, <- (assoc_L (++)).
  - exists l2. by rewrite <- (assoc_L (++)).
Qed.

(** Observers are told the truth. After any events in which every
    connectivity token is subscribed at most once (they come from an atomic
    counter), for every registered observer the last notification it received
    (none counting as "not operational") says whether the bridge is
    Operational. *)
Theorem observers_truthful (ps : list (post bridge_event)) (leaf : bridge_state) (b b' : Bridge) :
  connectivity_observers_ b = ∅ -> out b = [] ->
  NoDup (omap (token_of ∘ payload) ps) ->
  chart_run handler flush lineage ps (Disconnected_St, b) = Done (leaf, b') ->
  forall tok c, connectivity_observers_ b' !! tok = Some (Some c) ->
    last_seen tok b' = bool_decide (leaf = Operational_St).
Proof.
  intros Hobs Hout Hnd Hr.
  refine (observers_run ps Disconnected_St b leaf b' eq_refl _ Hnd _ Hr).
  - intros tok c. by rewrite Hobs.
  - intros tok _. split; [|by rewrite Hobs]. unfold conn_calls_to. by rewrite Hout.
Qed.

(** The fence is reached in every state. A [Drain_Signal] is fulfilled in
    every leaf state, ShuttingDown included, and changes nothing else; no other
    event fulfils a fence. *)
Theorem drain_always_fulfilled (leaf : bridge_state) (m : positive) (b : Bridge) :
  is_leaf leaf = true ->
  (exists b', chart_step handler lineage leaf (Drain_Signal m) b = Done (leaf, b') /\
     m ∈ drained b' /\ out b' = out b /\ in_flight_ b' = in_flight_ b /\
     subscriptions_ b' = subscriptions_ b /\ deferred_ b' = deferred_ b) /\
  (forall e leaf' b', chart_step handler lineage leaf e b = Done (leaf', b') ->
     m ∈ drained b' -> m ∈ drained b \/ e = Drain_Signal m).
Proof.
  intros Hl. split.
  - exists (fulfil m b). rewrite bridge_chart_step by done.
    destruct (fulfil_core m b) as (H1 & H2 & _ & H3 & _ & H4 & _).
    split; [by destruct leaf|]. split; [apply fulfil_drained; by left|done].
  - intros e leaf' b' Hs Hm. rewrite bridge_chart_step in Hs by done.
    apply (drained_step _ _ _ _ _ _ Hs Hl) in Hm as [Hf|]; [right|by left].
    destruct e; try discriminate Hf. by injection Hf as ->.
Qed.
End BridgeFence.

(** *** Witnesses *)

Import BridgeDemo.

Definition watch : list Ev :=
  [Start_Signal; SubscribeEvent_Signal "mp/ind/x" "x.ind" (Some "onX");
   SubscribeConnectivity_Signal 7 (Some "onConn"); LinkUp_Signal 0; AllSubAcked_Signal].

Definition watched (l : list Ev) : bridge_state * Br :=
  default (Disconnected_St, boot) (run (watch ++ l)).

Lemma withdrawn_silent_witness :
  event_calls "mp/ind/x" (snd (watched [UnsubscribeEvent_Signal "mp/ind/x"; LinkDown_Signal (-1)])) =
  event_calls "mp/ind/x" (snd (watched [UnsubscribeEvent_Signal "mp/ind/x"])).
Proof.
  refine (proj1 (withdrawn_silent parse_ dump_ check_ rc_ "/run/mqtt.sock" clock_ service_token
    (Fifo <$> watch) [Fifo (LinkDown_Signal (-1))] "mp/ind/x" 7
    Disconnected_St Operational_St Backoff_St boot _ _ (UnsubscribeEvent_Signal "mp/ind/x")
    _ _ _) _ _); try (vm_compute; reflexivity).
  apply Forall_singleton. reflexivity.
Defined.

(** Start the bridge, post a fence behind it, run the worker over both. *)
Definition fence_schedule : list (action (E := Ev)) :=
  [APost (Fifo Start_Signal); APost (Fifo (Drain_Signal 9)); AWait; ADispatch; AOwnPost; AWait;
   ADispatch].

Definition fenced : AOBridge (json := jval) (C := string) :=
  default (started obj) (run_schedule demo_handler false outbox flush fence_schedule (started obj)).

Lemma drain_is_fence_witness :
  exists before after, accepted fenced = before ++ Fifo (Drain_Signal 9) :: after /\
    (before ++ [Fifo (Drain_Signal 9)]) `prefix_of` done fenced.
Proof.
  apply (drain_is_fence parse_ dump_ check_ rc_ "/run/mqtt.sock" clock_ service_token false obj
    fenced 9).
  - reflexivity.
  - apply not_elem_of_nil.
  - apply (bridge_schedule_reach fence_schedule). vm_compute. reflexivity.
  - repeat constructor.
  - apply (bool_decide_unpack _). vm_compute. reflexivity.
Defined.

Lemma observers_truthful_witness :
  last_seen 7 (snd (watched [])) = bool_decide (fst (watched []) = Operational_St).
Proof.
  refine (observers_truthful parse_ dump_ check_ rc_ "/run/mqtt.sock" clock_ service_token
    (Fifo <$> watch) (fst (watched [])) boot (snd (watched [])) _ _ _ _ 7 "onConn" _).
  - reflexivity.
  - reflexivity.
  - apply (bool_decide_unpack _). vm_compute. reflexivity.
  - vm_compute. reflexivity.
  - vm_compute. reflexivity.
Defined.

Lemma drain_always_fulfilled_witness :
  exists b', chart_step demo_handler lineage ShuttingDown_St (Drain_Signal 3) boot
      = Done (ShuttingDown_St, b') /\
    3%positive ∈ drained b' /\ out b' = out boot /\ in_flight_ b' = in_flight_ boot /\
    subscriptions_ b' = subscriptions_ boot /\ deferred_ b' = deferred_ boot.
Proof.
  apply (drain_always_fulfilled parse_ dump_ check_ rc_ "/run/mqtt.sock" clock_ service_token
    ShuttingDown_St 3 boot).
  reflexivity.
Defined.

(** ** Behaviours the documentation describes otherwise *)

(** Losing the link notifies every observer twice: on leaving Operational and on
    entering Backoff. *)
Example link_down_notifies_twice :
  out (snd (watched [LinkDown_Signal (-1)])) =
    [ConnCall 7 "onConn" true; ConnCall 7 "onConn" false; ConnCall 7 "onConn" false].
Proof. vm_compute. reflexivity. Qed.

(** A one-way message posted while the bridge is in Backoff is dropped, not
    deferred. *)
Example backoff_drops_oneway :
  let s := watched [LinkDown_Signal (-1); PublishOneway_Signal (mkOneway "t" "s" req_env)] in
  fst s = Backoff_St /\ deferred_ (snd s) = [].
Proof. vm_compute. auto. Qed.

(** A failed connection attempt answers the requests deferred so far instead of
    keeping them for the next attempt. *)
Example failed_attempt_fails_deferred :
  match run [Start_Signal; SendReq_Signal request; LinkDown_Signal (-1)] with
  | Some (Backoff_St, b) => out b = [RpcCall "cb" None] /\ deferred_ b = []
  | _ => False
  end.
Proof. vm_compute. auto. Qed.
