(* ===== verification/BridgeRun.v ===== *)
(** * The bridge's requests, in the whole object

    BridgeRpc.v follows the callbacks through one step of the bridge's chart; here
    they are followed through the bridge as an active object: its queue, the event in
    the worker's hand, the events on their way back to the queue, and what the chart
    keeps.  [rpc_inv] is the invariant, for a bridge that is not told to stop and
    correlation ids that do not come back (the counter they are drawn from has not
    gone round); the condition of BridgeRpc's theorems, that no request is sent with an
    id in flight, is a consequence.

    Before that, in [Section BridgeTimers], the response timers: every request in flight
    has its timer, scheduled under the request's correlation id and not cancelled, so
    that the timer service (Timer.v) will post the timeout that answers the request if
    nothing else does.  The service gives each schedule a token of its own ([token_at]
    is injective, and never zero). *)

From S2P Require Import Prelude Hsm HsmSpec HsmProps ActiveObject Defer Json Envelope.
From S2P Require Import ModemBridge BridgeSpec BridgeProps BridgeRpc BridgeFence.

Local Open Scope Z_scope.

Section BridgeTimers.
Context {json : Type} `{Json json} {C : Type}.
Context (parse : string -> option json) (dump : json -> option string).
Context (schema_check : string -> json -> option bool).
Context (rc_of : list mosq_call -> mosq_call -> Z) (uds_socket : string).
Context (clock_at token_at : nat -> Z).

Local Notation Bridge := (Bridge (json := json) (C := C)).
Local Notation bridge_event := (bridge_event (json := json) (C := C)).
Local Notation InFlight := (InFlight (C := C)).
Local Notation bridge_step :=
  (bridge_step parse dump schema_check rc_of uds_socket clock_at token_at (C := C)).

Definition op_token (o : timer_op) : Z := match o with Scheduled _ _ t | Cancelled t => t end.

(** Scheduled for [f] and not cancelled. *)
Definition timer_armed (f : timer_fn) (t : Z) (ops : list timer_op) : Prop :=
  (exists due, Scheduled f due t ∈ ops) /\ Cancelled t ∉ ops.

(** Of the table, the watchdog's token, and what the timer service was told. *)
Record timers_ok (m : gmap string InFlight) (w : option Z) (ops : list timer_op) : Prop := {
  t_known o : o ∈ ops -> exists j, op_token o = token_at j /\ (j < length ops)%nat;
  t_one f d f' d' t : Scheduled f d t ∈ ops -> Scheduled f' d' t ∈ ops -> f = f';
  t_flight k i : m !! k = Some i -> timer_armed (RspTimer k) (if_timer_token i) ops;
  t_watch t : w = Some t -> exists due, Scheduled ConnectTimer due t ∈ ops }.

Definition bridge_timers (b : Bridge) : Prop := timers_ok (in_flight_ b) (conn_tok b) (timer_ops b).

Lemma timers_less (m m' : gmap string InFlight) w w' ops :
  timers_ok m w ops -> m' ⊆ m -> (w' = w \/ w' = None) -> timers_ok m' w' ops.
Proof.
  intros [H1 H2 H3 H4] Hm Hw. split; [done|done| |].
  - intros k i Hk. by apply H3, (lookup_weaken m' m).
  - intros t Ht. apply H4. destruct Hw; congruence.
Qed.

(** Cancelling what no request in flight waits for. *)
Lemma timers_cancel (m : gmap string InFlight) w ops t :
  timers_ok m w ops -> (exists f due, Scheduled f due t ∈ ops) ->
  (forall k i, m !! k = Some i -> if_timer_token i <> t) -> timers_ok m w (ops ++ [Cancelled t]).
Proof.
  intros [H1 H2 H3 H4] (f & due & Hs) Hm. split.
  - intros o. rewrite elem_of_app, list_elem_of_singleton, length_app. intros Ho.
    assert (exists j, op_token o = token_at j /\ (j < length ops)%nat) as (j & Hj & Hl); [|exists j; split; [done|lia]].
    destruct Ho as [Ho| ->]; [by apply H1|]. by destruct (H1 _ Hs) as (j & ? & ?); exists j.
  - intros f1 d1 f2 d2 t1. rewrite !elem_of_app, !list_elem_of_singleton. intros [?|[=]] [?|[=]]. by eapply H2.
  - intros k i Hk. destruct (H3 _ _ Hk) as [[d Hd] Hc]. split; [exists d; set_solver|].
    rewrite elem_of_app, list_elem_of_singleton. intros [?|[= Ht]]; [done|]. by destruct (Hm _ _ Hk).
  - intros t1 Ht1. destruct (H4 _ Ht1) as [d ?]. exists d. set_solver.
Qed.

Lemma timers_cancel_all w ops l :
  timers_ok ∅ w ops -> (forall t, t ∈ l -> exists f due, Scheduled f due t ∈ ops) ->
  timers_ok (∅ : gmap string InFlight) w (ops ++ (Cancelled <$> l)).
Proof.
  revert ops. induction l as [|t l IH]; intros ops Hok Hl; simpl; [by rewrite app_nil_r|].
  rewrite cons_middle, (assoc_L (++)). apply IH.
  - apply timers_cancel; [done|by apply Hl; left|]. intros k i. by rewrite lookup_empty.
  - intros t' Ht'. destruct (Hl t') as (f & d & ?); [by right|]. exists f, d. set_solver.
Qed.

Context `{!TimerTokens token_at}.

Lemma known_nonzero m w ops o : timers_ok m w ops -> o ∈ ops -> op_token o <> 0.
Proof. intros Hok Ho. destruct (t_known _ _ _ Hok _ Ho) as (j & -> & _). apply token_nonzero. Qed.

Lemma next_fresh m w ops o : timers_ok m w ops -> o ∈ ops -> op_token o <> token_at (length ops).
Proof. intros Hok Ho Ht. destruct (t_known _ _ _ Hok _ Ho) as (j & Hj & Hl). rewrite Hj in Ht. apply token_inj in Ht. lia. Qed.

Lemma timers_schedule m w ops f due :
  timers_ok m w ops ->
  timers_ok m w (ops ++ [Scheduled f due (token_at (length ops))]) /\
  timer_armed f (token_at (length ops)) (ops ++ [Scheduled f due (token_at (length ops))]).
Proof.
  intros Hok. pose proof (fun o => next_fresh _ _ _ o Hok) as Hfr. destruct Hok as [H1 H2 H3 H4]. split.
  2: { split; [exists due; set_solver|]. rewrite elem_of_app, list_elem_of_singleton. intros [Hc|[=]]. by apply Hfr in Hc. }
  split.
  - intros o. rewrite elem_of_app, list_elem_of_singleton, length_app. simpl.
    intros [Ho| ->]; [destruct (H1 _ Ho) as (j & ? & ?); exists j; split; [done|lia]|]. exists (length ops). split; [done|lia].
  - intros f1 d1 f2 d2 t. rewrite !elem_of_app, !list_elem_of_singleton.
    intros [Ha|Ha] [Hb|Hb]; [by eapply H2| | |by simplify_eq]; simplify_eq; [by apply Hfr in Ha|by apply Hfr in Hb].
  - intros k i Hk. destruct (H3 _ _ Hk) as [[d Hd] Hc]. split; [exists d; set_solver|].
    rewrite elem_of_app, list_elem_of_singleton. by intros [?|[=]].
  - intros t Ht. destruct (H4 _ Ht) as [d ?]. exists d. set_solver.
Qed.

Lemma timers_insert m w ops k i :
  timers_ok m w ops -> timer_armed (RspTimer k) (if_timer_token i) ops -> timers_ok (<[k := i]> m) w ops.
Proof.
  intros [H1 H2 H3 H4] Ha. split; [done|done| |done]. intros k' i' [[<- <-]|[_ ?]]%lookup_insert_Some; [done|by apply H3].
Qed.

(** A request in flight, its timer cancelled and taken out. *)
Lemma timers_take m w ops k i :
  timers_ok m w ops -> m !! k = Some i ->
  timers_ok (delete k m) w (ops ++ cancel_ops (if_timer_token i)) /\ timers_ok (delete k m) w ops.
Proof.
  intros Hok Hk. assert (Hdel : timers_ok (delete k m) w ops) by (eapply timers_less; [done|apply delete_subseteq|by left]).
  split; [|done]. destruct (t_flight _ _ _ Hok _ _ Hk) as [[d Hd] _].
  unfold cancel_ops. rewrite decide_True by apply (known_nonzero _ _ _ _ Hok Hd).
  apply timers_cancel; [done|by eexists _, _|]. intros k' i' [Hne Hk']%lookup_delete_Some Ht.
  destruct (t_flight _ _ _ Hok _ _ Hk') as [[d' Hd'] _]. rewrite Ht in Hd'.
  by pose proof (t_one _ _ _ Hok _ _ _ _ _ Hd Hd') as [= ->].
Qed.

(** ** Steps *)

Lemma same_timers (b b' : Bridge) :
  in_flight_ b' = in_flight_ b -> conn_tok b' = conn_tok b -> timer_ops b' = timer_ops b ->
  bridge_timers b -> bridge_timers b'.
Proof. unfold bridge_timers. by intros -> -> ->. Qed.

Lemma disarm_timers (b : Bridge) : bridge_timers b -> bridge_timers (disarm_watchdog b).
Proof.
  intros Hok. rewrite disarm_fields. unfold bridge_timers. simpl.
  destruct (conn_tok b) as [t|] eqn:Ht; [|rewrite app_nil_r; eapply timers_less; eauto].
  destruct (t_watch _ _ _ Hok _ Ht) as [d Hd]. eapply timers_less; [|done|by right].
  apply timers_cancel; [exact Hok|by eexists _, _|]. intros k i Hk He.
  destruct (t_flight _ _ _ Hok _ _ Hk) as [[d' Hd'] _]. rewrite He in Hd'.
  by pose proof (t_one _ _ _ Hok _ _ _ _ _ Hd Hd').
Qed.

Lemma tear_down_timers (b : Bridge) : bridge_timers b -> bridge_timers (tear_down b).
Proof.
  intros Hok. rewrite tear_down_eq. unfold bridge_timers. simpl.
  assert (Hc : fail_cancels b = Cancelled <$> ((fun kv : string * InFlight => if_timer_token (snd kv)) <$> map_to_list (in_flight_ b))).
  { unfold fail_cancels. assert (Hall : forall kv, kv ∈ map_to_list (in_flight_ b) -> if_timer_token (snd kv) <> 0).
    { intros [k i] Hk%elem_of_map_to_list. destruct (t_flight _ _ _ Hok _ _ Hk) as [[d Hd] _].
      apply (known_nonzero _ _ _ _ Hok Hd). }
    revert Hall. generalize (map_to_list (in_flight_ b)). intros l. induction l as [|kv l IH]; intros Hall; [done|].
    rewrite bind_cons, IH by (intros ? ?; apply Hall; by right). simpl. unfold cancel_ops.
    by rewrite decide_True by (apply Hall; left). }
  rewrite Hc. apply timers_cancel_all; [eapply timers_less; [done|apply map_empty_subseteq|by left]|].
  intros t ([k i] & -> & Hk%elem_of_map_to_list)%list_elem_of_fmap.
  destruct (t_flight _ _ _ Hok _ _ Hk) as [[d Hd] _]. by eexists _, _.
Qed.

Lemma shutdown_timers (b : Bridge) : bridge_timers b -> bridge_timers (shutdown_entry rc_of b).
Proof.
  intros Hok%tear_down_timers. unfold shutdown_entry. fold (tear_down b). destruct (client_ (tear_down b)); [|done].
  by apply (same_timers (tear_down b)).
Qed.

Lemma connecting_timers (b : Bridge) : bridge_timers b -> bridge_timers (enter_connecting rc_of uds_socket clock_at token_at b).
Proof.
  intros Hok. unfold enter_connecting, connecting_entry.
  assert (Harm : forall b0 : Bridge, bridge_timers b0 ->
    bridge_timers (arm_watchdog clock_at token_at (connect_timeout (cfg_ b0)) b0)).
  { intros b0 H0'%disarm_timers. unfold arm_watchdog, bridge_timers. simpl.
    destruct (timers_schedule _ _ _ ConnectTimer (clock_at (reads (disarm_watchdog b0)) + connect_timeout (cfg_ b0)) H0') as [[H1 H2 H3 H4] [Hd _]].
    split; [done|done|done|]. by intros t [= <-]. }
  destruct (use_uds (cfg_ b)); simpl; apply Harm; case_decide; by apply (same_timers b).
Qed.

Lemma send_timers p (b b' : Bridge) :
  doSendRequest_ dump schema_check rc_of clock_at token_at p b = Done b' -> bridge_timers b -> bridge_timers b'.
Proof.
  intros Hd Hok. revert Hd. unfold doSendRequest_. simpl.
  case_decide; [intros [= <-]; rewrite call_rpc_eq; by apply (same_timers b)|].
  destruct (_ && _); [intros [= <-]; rewrite call_rpc_eq; by apply (same_timers b)|].
  destruct (dump _) as [body|]; [|done].
  set (cid := corrId (sr_envelope p)). set (due := _ + (_ - _)).
  destruct (timers_schedule _ _ _ (RspTimer cid) due Hok) as [Hs Ha].
  assert (Htake : forall (b1 : Bridge) i, bridge_timers b1 -> in_flight_ b1 !! cid = Some i ->
    bridge_timers (call_rpc (if_cb i) None (set_in_flight (delete cid (in_flight_ (cancel_timer (if_timer_token i) b1)))
      (cancel_timer (if_timer_token i) b1)))).
  { intros b1 i H1 Hi. rewrite call_rpc_eq, cancel_timer_eq. apply (timers_take _ _ _ _ _ H1 Hi). }
  destruct (decide (is_Some (in_flight_ b !! cid))) as [Hin|Hin]; simpl; case_decide.
  2: { by intros [= <-]. }
  3: { intros [= <-]. by apply timers_insert. }
  - destruct (in_flight_ b !! cid) as [i|] eqn:Hi; intros [= <-]; [|done]. by apply Htake.
  - rewrite lookup_insert_eq. intros [= <-].
    refine (Htake _ (mkInFlight (sr_topic p) (sr_rsp_schema_id p) (sr_cb p) (token_at (length (timer_ops b)))) _ _);
      [|apply lookup_insert_eq]. by apply timers_insert.
Qed.

Lemma message_timers topic body (b : Bridge) :
  bridge_timers b -> bridge_timers (on_message parse schema_check topic body b).
Proof.
  intros Hok. unfold on_message, on_response, on_indication, call_event.
  destruct (parse body) as [j|]; [|done]. destruct (fromJson j) as [|env]; [done|].
  destruct (dest env) as [d|].
  - case_decide; [done|]. destruct (in_flight_ b !! corrId env) as [i|] eqn:Hi; [|done].
    rewrite cancel_timer_eq. destruct (timers_take _ _ _ _ _ Hok Hi) as [Ht _].
    by destruct (negb _); rewrite call_rpc_eq.
  - destruct (subscriptions_ b !! topic) as [s|]; [|done]. destruct (negb _); [done|]. by destruct (sub_cb s).
Qed.

Lemma timeout_timers cid (b : Bridge) : bridge_timers b -> bridge_timers (on_rsp_timeout cid b).
Proof.
  intros Hok. unfold on_rsp_timeout. destruct (in_flight_ b !! cid) as [i|] eqn:Hi; [|done].
  rewrite call_rpc_eq. by destruct (timers_take _ _ _ _ _ Hok Hi) as [_ Ht].
Qed.

Lemma subscribing_timers (b : Bridge) : bridge_timers b -> bridge_timers (enter_subscribing rc_of b).
Proof. intros Hok. unfold enter_subscribing. rewrite issue_eq, add_wires_fields. exact Hok. Qed.

Lemma bridge_step_timers leaf e (b b' : Bridge) leaf' :
  bridge_step leaf e b = Done (leaf', b') -> is_leaf leaf = true -> bridge_timers b -> bridge_timers b'.
Proof.
  intros Hs Hl Hok.
  assert (Hp : forall c, Done (parent_step rc_of c leaf e b) = Done (leaf', b') -> bridge_timers b').
  { intros c [= Heq]. replace b' with (snd (parent_step rc_of c leaf e b)) by by rewrite Heq.
    destruct e; simpl; try (by destruct c). unfold fulfil. by case_decide. }
  assert (Hdis : forall b1 : Bridge, in_flight_ b1 = in_flight_ b -> conn_tok b1 = conn_tok b -> timer_ops b1 = timer_ops b ->
    bridge_timers (disarm_watchdog b1)).
  { intros b1 H1 H2 H3. apply disarm_timers. by apply (same_timers b). }
  destruct leaf; try discriminate Hl; destruct e; step_cbn Hs; try (by apply Hp in Hs);
    try case_decide; try (injection Hs as <- <-); try exact Hok;
    try (apply tear_down_timers; by first [apply Hdis | apply (same_timers b)]);
    try (apply shutdown_timers; by first [apply Hdis | exact Hok]);
    try (by apply shutdown_timers, tear_down_timers);
    try (apply subscribing_timers; by first [apply Hdis | apply (same_timers b)]).
  - by apply connecting_timers.
  - by rewrite call_rpc_eq.
  - rewrite recall_eq, notify_eq. exact Hok.
  - apply tear_down_timers, tear_down_timers. exact Hok.
  - destruct (doSendRequest_ _ _ _ _ _ _ _) as [b1|] eqn:Hd; [|done]. injection Hs as <- <-. by eapply send_timers.
  - by apply timeout_timers.
  - by apply message_timers.
  - by destruct cb.
  - destruct (doPublishOneway_ _ _ _ _ _) as [b1|] eqn:Hd; [|done]. injection Hs as <- <-.
    revert Hd. unfold doPublishOneway_. destruct (_ && _); [by intros [= <-]|]. destruct (dump _); [|done]. by intros [= <-].
  - unfold fulfil. by case_decide.
Qed.
End BridgeTimers.

Section Bridged.
Context {json : Type} `{Json json} {C : Type}.
Context (parse : string -> option json) (dump : json -> option string).
Context (schema_check : string -> json -> option bool).
Context (rc_of : list mosq_call -> mosq_call -> Z) (uds_socket : string).
Context (clock_at token_at : nat -> Z) (ndebug : bool).
(** The correlation id a callback was handed in with. *)
Context (tag : C -> string).

Local Notation Bridge := (Bridge (json := json) (C := C)).
Local Notation bridge_event := (bridge_event (json := json) (C := C)).
Local Notation AOBridge := (AOBridge (json := json) (C := C)).
Local Notation handler :=
  (handler parse dump schema_check rc_of uds_socket clock_at token_at (C := C)).
Local Notation bridge_step :=
  (bridge_step parse dump schema_check rc_of uds_socket clock_at token_at (C := C)).

(** ** What one step of the chart puts where *)

Lemma flight_send p k i (b b' : Bridge) :
  doSendRequest_ dump schema_check rc_of clock_at token_at p b = Done b' ->
  in_flight_ b' !! k = Some i ->
  in_flight_ b !! k = Some i \/ (k = request_key p /\ if_cb i = sr_cb p).
Proof.
  unfold doSendRequest_, request_key. simpl. case_decide; [intros [= <-]; rewrite call_rpc_eq; auto|].
  destruct (_ && _); [intros [= <-]; rewrite call_rpc_eq; auto|]. destruct (dump _) as [body|]; [|done].
  assert (Hin : forall m : gmap string InFlight, m = in_flight_ b \/
    m = <[corrId (sr_envelope p) := mkInFlight (sr_topic p) (sr_rsp_schema_id p) (sr_cb p) (token_at (length (timer_ops b)))]> (in_flight_ b) ->
    m !! k = Some i -> in_flight_ b !! k = Some i \/ k = corrId (sr_envelope p) /\ if_cb i = sr_cb p).
  { intros m [-> | ->]; [auto|]. intros [[<- <-]|[_ ?]]%lookup_insert_Some; auto. }
  repeat case_decide; simpl; try (intros [= <-]; apply Hin; auto);
    case_goal; intros [= <-]; rewrite ?call_rpc_eq, ?cancel_timer_eq; simpl;
    try (intros [_ Hk]%lookup_delete_Some; revert Hk); apply Hin; auto.
Qed.

(** The events the bridge keeps, to be queued again or already on the way. *)
Definition kept_events (b : Bridge) : list bridge_event := deferred_ b ++ (payload <$> outbox b).

(** Events without a callback that do not stop the bridge. *)
Definition plain (e : bridge_event) : bool :=
  match e with SendReq_Signal _ | Stop_Signal => false | _ => true end.

Record step_holds (leaf : bridge_state) (e : bridge_event) (b : Bridge) (leaf' : bridge_state) (b' : Bridge) : Prop := {
  sh_flight k i : in_flight_ b' !! k = Some i ->
    in_flight_ b !! k = Some i \/ exists p, e = SendReq_Signal p /\ k = request_key p /\ if_cb i = sr_cb p;
  sh_events x : x ∈ kept_events b' -> x ∈ kept_events b \/ x = e \/ plain x = true;
  sh_leaf : leaf' = ShuttingDown_St -> leaf = ShuttingDown_St \/ e = Stop_Signal }.

Lemma holds_fields leaf e leaf' (b b' : Bridge) :
  in_flight_ b' = in_flight_ b \/ in_flight_ b' = ∅ \/ (exists k, in_flight_ b' = delete k (in_flight_ b)) ->
  deferred_ b' = deferred_ b \/ deferred_ b' = [] ->
  (forall x, x ∈ outbox b' -> x ∈ outbox b \/ plain (payload x) = true) ->
  (leaf' = ShuttingDown_St -> leaf = ShuttingDown_St \/ e = Stop_Signal) ->
  step_holds leaf e b leaf' b'.
Proof.
  intros Hf Hd Ho Hl. split; [| |done].
  - intros k i Hk. left. destruct Hf as [Hf|[Hf|[k' Hf]]]; rewrite Hf in Hk; [done|by rewrite lookup_empty in Hk|].
    by apply lookup_delete_Some in Hk as [_ ?].
  - intros x. unfold kept_events. rewrite !elem_of_app, !list_elem_of_fmap.
    intros [Hx|(y & -> & [Hy|Hy]%Ho)]; [|by eauto|by eauto].
    left. left. destruct Hd as [Hd|Hd]; rewrite Hd in Hx; [done|by apply not_elem_of_nil in Hx].
Qed.

Lemma connecting_outbox (b : Bridge) x :
  x ∈ outbox (enter_connecting rc_of uds_socket clock_at token_at b) -> x ∈ outbox b \/ plain (payload x) = true.
Proof.
  unfold enter_connecting, connecting_entry. destruct (use_uds (cfg_ b)); simpl; unfold arm_watchdog;
    rewrite disarm_fields; case_decide; simpl; rewrite ?elem_of_app, ?list_elem_of_singleton; try tauto;
    intros [?| ->]; auto.
Qed.

Lemma holds_put_off leaf e (b : Bridge) : leaf <> ShuttingDown_St -> step_holds leaf e b leaf (put_off e b).
Proof.
  intros Hl. split; [auto| |done]. intros x. unfold kept_events, put_off, defer, defer_push. simpl.
  rewrite !elem_of_app, list_elem_of_singleton. tauto.
Qed.

Lemma holds_shutdown leaf (b b1 : Bridge) :
  outbox b1 = outbox b -> step_holds leaf Stop_Signal b ShuttingDown_St (shutdown_entry rc_of b1).
Proof.
  intros Ho. destruct (shutdown_fields rc_of b1) as (H1 & H2 & _ & _ & H3 & _).
  apply holds_fields; rewrite ?H1, ?H2, ?H3, ?tear_down_eq; simpl; auto. rewrite Ho. auto.
Qed.

Lemma holds_subscribing leaf e (b b1 : Bridge) :
  in_flight_ b1 = in_flight_ b -> deferred_ b1 = deferred_ b -> outbox b1 = outbox b ->
  step_holds leaf e b Subscribing_St (enter_subscribing rc_of b1).
Proof.
  intros H1 H2 H3. unfold enter_subscribing. rewrite issue_eq, add_wires_fields.
  apply holds_fields; simpl; rewrite ?H1, ?H2, ?H3; auto; try done.
  intros x. rewrite elem_of_app, list_elem_of_singleton. intros [?| ->]; auto.
Qed.

Lemma holds_core leaf e (b b' : Bridge) :
  core b' = core b -> (exists k, in_flight_ b' = delete k (in_flight_ b)) \/ in_flight_ b' = in_flight_ b ->
  leaf <> ShuttingDown_St -> step_holds leaf e b leaf b'.
Proof. intros [= H1 _ H2 _ _] Hf Hl. apply holds_fields; rewrite ?H1, ?H2; naive_solver. Qed.

Lemma message_flight topic body (b : Bridge) :
  (exists k, in_flight_ (on_message parse schema_check topic body b) = delete k (in_flight_ b)) \/
  in_flight_ (on_message parse schema_check topic body b) = in_flight_ b.
Proof.
  unfold on_message, on_response, on_indication, call_event.
  repeat (case_goal; try (by right)); rewrite ?call_rpc_eq, ?cancel_timer_eq; simpl; eauto.
Qed.

Lemma timeout_flight cid (b : Bridge) :
  (exists k, in_flight_ (on_rsp_timeout cid b) = delete k (in_flight_ b)) \/ in_flight_ (on_rsp_timeout cid b) = in_flight_ b.
Proof. unfold on_rsp_timeout. case_goal; [|by right]. rewrite call_rpc_eq. simpl. eauto. Qed.

Lemma bridge_step_holds leaf e (b b' : Bridge) leaf' :
  bridge_step leaf e b = Done (leaf', b') -> is_leaf leaf = true -> step_holds leaf e b leaf' b'.
Proof.
  intros Hs Hl.
  assert (Hp : forall c, Done (parent_step rc_of c leaf e b) = Done (leaf', b') -> step_holds leaf e b leaf' b').
  { intros c [= Heq].
    assert (leaf' = leaf /\ in_flight_ b' = in_flight_ b /\ deferred_ b' = deferred_ b /\ outbox b' = outbox b)
      as (-> & H1 & H2 & H3); [|apply holds_fields; rewrite ?H1, ?H2, ?H3; auto].
    assert (leaf' = fst (parent_step rc_of c leaf e b) /\ b' = snd (parent_step rc_of c leaf e b)) as [-> ->]
      by by rewrite Heq.
    destruct e; simpl; try (by destruct c). destruct (fulfil_core fence b) as (? & ? & _ & _ & ? & _). done. }
  destruct leaf; try discriminate Hl; destruct e; step_cbn Hs; try (by apply Hp in Hs);
    try case_decide; try (injection Hs as <- <-);
    try (apply holds_fields; rewrite ?tear_down_eq, ?disarm_fields; by auto).
  - apply holds_fields; [| |apply connecting_outbox|done];
      destruct (connecting_fields rc_of uds_socket clock_at token_at b) as (F1 & F2 & _); auto.
  - by apply holds_shutdown.
  - apply holds_fields; rewrite ?call_rpc_eq; auto.
  - apply holds_shutdown. by rewrite disarm_fields.
  - apply holds_subscribing; by rewrite disarm_fields.
  - by apply holds_put_off.
  - by apply holds_put_off.
  - by apply holds_shutdown.
  - rewrite recall_eq, notify_eq. split; [simpl; auto| |done]. intros x. unfold kept_events. simpl.
    rewrite fmap_app, <- list_fmap_compose, !elem_of_app. intros [?|Hx]; [by left; right|].
    apply list_elem_of_fmap in Hx as (y & -> & Hy). by left; left.
  - by apply holds_put_off.
  - by apply holds_put_off.
  - apply holds_shutdown. by rewrite tear_down_eq.
  - destruct (doSendRequest_ _ _ _ _ _ _ _) as [b1|] eqn:Hd; [|done]. injection Hs as <- <-.
    pose proof (doSend_core _ _ _ _ _ _ _ _ Hd) as [= H1 _ H2 _ _]. split; [| |done].
    + intros k i Hk. destruct (flight_send _ _ _ _ _ Hd Hk) as [?|[-> ?]]; eauto.
    + unfold kept_events. rewrite H1, H2. auto.
  - apply holds_core; [apply on_rsp_timeout_core|apply timeout_flight|done].
  - apply holds_core; [apply on_message_core|apply message_flight|done].
  - apply holds_core; [by destruct cb|right; by destruct cb|done].
  - destruct (doPublishOneway_ _ _ _ _ _) as [b1|] eqn:Hd; [|done]. injection Hs as <- <-.
    apply doPublish_core in Hd as (Hc & Hi & _). apply holds_core; auto.
  - by apply holds_shutdown.
  - by apply holds_subscribing.
  - by apply holds_put_off.
Qed.

(** The answers that are envelopes, with the callbacks they went to. *)
Definition given_call (c : call (json := json) (C := C)) : option (C * Envelope json) :=
  match c with RpcCall cb (Some env) => Some (cb, env) | _ => None end.
Definition given (b : Bridge) : list (C * Envelope json) := omap given_call (out b).

Lemma given_rpc cb : omap given_call (rpc_call cb None) = [].
Proof. by destruct cb. Qed.
Lemma given_conns op m : omap given_call (conn_calls op m) = [].
Proof. unfold conn_calls. induction (token_items m) as [|[t [c|]] l IH]; simpl; done. Qed.
Lemma given_fail (b : Bridge) : omap given_call (fail_calls b) = [].
Proof.
  unfold fail_calls. rewrite omap_app. assert (Hb : forall A (f : A -> list (call (json := json) (C := C))) l,
    (forall a, omap given_call (f a) = []) -> omap given_call (l ≫= f) = []).
  { intros A f l Hf. induction l as [|a l IH]; [done|]. by rewrite bind_cons, omap_app, Hf, IH. }
  rewrite !Hb; [done| |]; intros x; [destruct x; try done|]; apply given_rpc.
Qed.
Lemma given_tear_down (b : Bridge) : given (tear_down b) = given b.
Proof.
  rewrite tear_down_eq. unfold given. simpl. by rewrite !omap_app, given_conns, given_fail, app_nil_r.
Qed.
Lemma given_call_none cb (b : Bridge) : given (call_rpc cb None b) = given b.
Proof. rewrite call_rpc_eq. unfold given. simpl. by rewrite omap_app, given_rpc, app_nil_r. Qed.
Lemma given_out (b b' : Bridge) : out b' = out b -> given b' = given b.
Proof. unfold given. by intros ->. Qed.

Definition gives (b b' : Bridge) : Prop :=
  given b' = given b \/
  exists cb env i, in_flight_ b !! corrId env = Some i /\ if_cb i = Some cb /\ given b' = given b ++ [(cb, env)].

Lemma message_gives topic body (b : Bridge) : gives b (on_message parse schema_check topic body b).
Proof.
  unfold on_message. destruct (parse body) as [j|]; [|by left]. destruct (fromJson j) as [|env]; [by left|].
  destruct (dest env).
  - case_decide; [by left|]. unfold on_response. destruct (in_flight_ b !! corrId env) as [i|] eqn:Hi; [|by left].
    rewrite cancel_timer_eq. destruct (negb _); [left; by rewrite given_call_none|].
    rewrite call_rpc_eq. destruct (if_cb i) as [cb|] eqn:Hcb; [|left; unfold given; simpl; by rewrite app_nil_r].
    right. exists cb, env, i. split_and!; [done|done|]. unfold given. simpl. by rewrite omap_app.
  - unfold on_indication, call_event. left. repeat (case_goal; try done). unfold given. simpl. by rewrite omap_app, app_nil_r.
Qed.

Lemma send_given p (b b' : Bridge) :
  doSendRequest_ dump schema_check rc_of clock_at token_at p b = Done b' -> given b' = given b.
Proof.
  unfold doSendRequest_. simpl. case_decide; [intros [= <-]; by rewrite given_call_none|].
  destruct (_ && _); [intros [= <-]; by rewrite given_call_none|]. destruct (dump _) as [body|]; [|done].
  repeat case_decide; simpl; try (by intros [= <-]);
    case_goal; intros [= <-]; rewrite ?given_call_none, ?cancel_timer_eq; done.
Qed.

Lemma bridge_step_gives leaf e (b b' : Bridge) leaf' :
  bridge_step leaf e b = Done (leaf', b') -> is_leaf leaf = true -> gives b b'.
Proof.
  intros Hs Hl.
  assert (Hp : forall c, Done (parent_step rc_of c leaf e b) = Done (leaf', b') -> gives b b').
  { intros c [= Heq]. left. apply given_out. replace b' with (snd (parent_step rc_of c leaf e b)) by by rewrite Heq.
    destruct e; simpl; try (by destruct c). apply fulfil_core. }
  assert (Hsh : forall b1 : Bridge, given b1 = given b -> gives b (shutdown_entry rc_of b1)).
  { intros b1 H1. left. destruct (shutdown_fields rc_of b1) as (_ & _ & Ho & _). rewrite (given_out _ _ Ho). by rewrite given_tear_down. }
  assert (Hsub : forall b1 : Bridge, out b1 = out b -> gives b (enter_subscribing rc_of b1)).
  { intros b1 H1. left. apply given_out. unfold enter_subscribing. by rewrite issue_eq, add_wires_fields. }
  destruct leaf; try discriminate Hl; destruct e; step_cbn Hs; try (by apply Hp in Hs);
    try case_decide; try (injection Hs as <- <-); try (by left);
    try (apply Hsh; by rewrite ?given_tear_down, ?disarm_fields); try (apply Hsub; by rewrite ?disarm_fields);
    try (left; by rewrite !given_tear_down, ?disarm_fields); try (left; apply given_call_none).
  - left. apply given_out. apply (connecting_fields rc_of uds_socket clock_at token_at b).
  - left. rewrite recall_eq, notify_eq. unfold given. simpl. by rewrite omap_app, given_conns, app_nil_r.
  - destruct (doSendRequest_ _ _ _ _ _ _ _) as [b1|] eqn:Hd; [|done]. injection Hs as <- <-. left. by eapply send_given.
  - left. unfold on_rsp_timeout. case_goal; [by rewrite given_call_none|done].
  - apply message_gives.
  - left. destruct cb; [|done]. unfold given. simpl. by rewrite omap_app, app_nil_r.
  - destruct (doPublishOneway_ _ _ _ _ _) as [b1|] eqn:Hd; [|done]. injection Hs as <- <-.
    apply doPublish_core in Hd as (_ & _ & Ho & _). left. by apply given_out.
Qed.

(** ** The whole object *)

Definition own_posts (w : worker_phase bridge_event) : list (post bridge_event) :=
  match w with WPosting l => l | _ => [] end.
(** Events in the worker's hand, on their way back to the queue, in the queue. *)
Definition pending_events (c : AOBridge) : list bridge_event :=
  payload <$> in_hand (worker_ c) ++ own_posts (worker_ c) ++ q_ c.
(** Callbacks the bridge has been given and has not called. *)
Definition pending (c : AOBridge) : list C :=
  held (self (hsm c)) ++ (pending_events c ≫= send_cb).
Definition handed_in (a : action (E := bridge_event)) : list C :=
  match a with APost p => send_cb (payload p) | _ => [] end.

(** A request comes with a callback, under the correlation id of its envelope. *)
Definition event_ok (e : bridge_event) : Prop :=
  match e with
  | Stop_Signal => False
  | SendReq_Signal p => exists cb, sr_cb p = Some cb /\ tag cb = request_key p
  | _ => True
  end.
Definition action_ok (a : action (E := bridge_event)) : Prop :=
  match a with APost p => event_ok (payload p) | AStop => False | _ => True end.

Record rpc_inv (asked : list C) (c : AOBridge) : Prop := {
  ri_ledger : called (self (hsm c)) ++ pending c ≡ₚ asked;
  ri_flight k i : in_flight_ (self (hsm c)) !! k = Some i -> exists cb, if_cb i = Some cb /\ tag cb = k;
  ri_events e : e ∈ kept_events (self (hsm c)) ++ pending_events c -> event_ok e;
  ri_outbox : outbox (self (hsm c)) = [];
  ri_given cb env : (cb, env) ∈ given (self (hsm c)) -> tag cb = corrId env;
  ri_timers : bridge_timers token_at (self (hsm c));
  ri_leaf : exists leaf, state_ (hsm c) = st leaf /\ is_leaf leaf = true /\ leaf <> ShuttingDown_St;
  ri_running : running_ c = true /\ stopper c = NotStopped }.

(** What the worker does with an event. *)
Lemma send_cbs_payload (l : list (post bridge_event)) : (l ≫= fun p => send_cb (payload p)) = ((payload <$> l) ≫= send_cb).
Proof. induction l as [|p l IH]; [done|]. by rewrite fmap_cons, !bind_cons, IH. Qed.

Context `{!TimerTokens token_at}.

Lemma pending_move asked (c c' : AOBridge) :
  rpc_inv asked c -> hsm c' = hsm c -> running_ c' = running_ c -> stopper c' = stopper c ->
  pending_events c' ≡ₚ pending_events c -> rpc_inv asked c'.
Proof.
  intros [H1 H2 H3 H4 HG HT H5 H6] Hh Hr Hs Hp. split; rewrite ?Hh, ?Hr, ?Hs; try done.
  - unfold pending in *. by rewrite Hh, Hp.
  - intros e. rewrite Hp. apply H3.
Qed.

Lemma pending_post p asked (c : AOBridge) :
  rpc_inv asked c -> event_ok (payload p) -> rpc_inv (asked ++ send_cb (payload p)) (post_event p c).
Proof.
  intros [H1 H2 H3 H4 HG HT H5 [H6 H7]] Hp. unfold post_event. rewrite H6.
  assert (Hpe : forall q', q' ≡ₚ q_ c ++ [p] -> forall n acc,
    pending_events (mkAO (hsm c) q' true (worker_ c) (stopper c) n acc (done c)) ≡ₚ pending_events c ++ [payload p]).
  { intros q' Hq n acc. unfold pending_events. simpl. rewrite Hq, !fmap_app. simpl. by rewrite !app_assoc. }
  specialize (Hpe (push p (q_ c)) (push_perm p (q_ c)) (S (notifies c)) (accepted c ++ [p])).
  split; try done.
  - unfold pending in *. rewrite Hpe. simpl. rewrite bind_app. simpl. rewrite app_nil_r, <- H1. solve_Permutation.
  - intros e. rewrite Hpe. rewrite app_assoc, elem_of_app, list_elem_of_singleton. intros [?| ->]; [|done]. by apply H3.
Qed.

(** The event in the worker's hand is not one whose correlation id is in flight. *)
Lemma hand_fresh p q asked (c : AOBridge) :
  rpc_inv asked c -> NoDup (tag <$> asked) -> pending_events c = SendReq_Signal p :: q ->
  in_flight_ (self (hsm c)) !! request_key p = None.
Proof.
  intros Hi Hnd Hq. destruct (in_flight_ (self (hsm c)) !! request_key p) as [i|] eqn:Hf; [exfalso|done].
  destruct (ri_flight _ _ Hi _ _ Hf) as (cb & Hcb & Ht).
  destruct (ri_events _ _ Hi (SendReq_Signal p)) as (cb' & Hcb' & Ht').
  { rewrite Hq. set_solver. }
  revert Hnd. rewrite <- (ri_ledger _ _ Hi). unfold pending, held. rewrite Hq.
  assert (Hfl : exists l, flight_cbs (in_flight_ (self (hsm c))) ≡ₚ cb :: l).
  { exists (flight_cbs (delete (request_key p) (in_flight_ (self (hsm c))))). by rewrite <- (flight_cbs_delete _ _ _ Hf), Hcb. }
  destruct Hfl as [l ->]. rewrite bind_cons. simpl send_cb. rewrite Hcb'. simpl.
  rewrite !fmap_app. simpl. rewrite Ht. intros (_ & _ & Hnd)%NoDup_app.
  rewrite <- !app_assoc in Hnd. simpl in Hnd. apply NoDup_cons in Hnd as [Hnd _]. apply Hnd.
  apply list_elem_of_fmap. exists cb'. split; [done|]. rewrite !elem_of_app. do 3 right. by left.
Qed.

Lemma dispatch_pending p asked (c : AOBridge) :
  rpc_inv asked c -> NoDup (tag <$> asked) -> worker_ c = WBusy p ->
  rpc_inv asked (run_dispatch handler ndebug outbox flush p c) /\
  exists l, out (self (hsm (run_dispatch handler ndebug outbox flush p c))) = out (self (hsm c)) ++ l.
Proof.
  intros Hi Hnd Hw. destruct (ri_leaf _ _ Hi) as (leaf & Hst & Hl & Hsd). unfold run_dispatch.
  pose proof (dispatch_step handler parent lineage swallow ndebug dispatch_fuel leaf (payload p) (hsm c) Hst) as Hd.
  rewrite bridge_chart_step in Hd by done.
  assert (Hq : pending_events c = payload p :: (payload <$> q_ c)) by (unfold pending_events; by rewrite Hw).
  assert (Hok : event_ok (payload p)) by (apply (ri_events _ _ Hi); rewrite Hq; set_solver).
  destruct (bridge_step leaf (payload p) (self (hsm c))) as [[leaf1 b1]|f] eqn:Hs.
  2: { rewrite Hd by (unfold dispatch_fuel; lia). split; [|exists []; by rewrite app_nil_r].
       apply (pending_move asked c); try done. unfold pending_events. by rewrite Hw. }
  destruct Hd as (h1 & -> & Hst1 & <-); [unfold dispatch_fuel; lia|].
  pose proof (bridge_step_holds _ _ _ _ _ Hs Hl) as [Hf He Hlf].
  destruct (sf_out _ _ _ _ (bridge_step_frame _ _ _ _ _ _ _ _ _ _ _ _ Hs Hl)) as (l & Hout & _).
  split; [|by exists l].
  assert (Hfr : forall p', payload p = SendReq_Signal p' -> leaf = Operational_St ->
    in_flight_ (self (hsm c)) !! request_key p' = None).
  { intros p' Hp' _. eapply hand_fresh; [done|done|]. by rewrite Hq, Hp'. }
  pose proof (ledger_step _ _ _ _ _ _ _ leaf (payload p) _ _ _ Hs Hl Hsd Hfr) as Hled.
  destruct Hi as [H1 H2 H3 H4 HG HT H5 H6]. rewrite Hq in H3. unfold pending in H1. rewrite Hq in H1.
  split; try done; simpl.
  - unfold pending, pending_events. simpl. unfold ledger in Hled.
    rewrite bind_cons, !(assoc_L (++)) in H1. rewrite <- H1, <- Hled.
    unfold held. simpl. rewrite fmap_app, bind_app, <- send_cbs_payload. unfold called. simpl. solve_Permutation.
  - intros k i Hk. destruct (Hf k i Hk) as [?|(p' & Hp' & -> & ->)]; [by apply H2|].
    by rewrite Hp' in Hok.
  - intros e. unfold kept_events, pending_events. simpl. rewrite app_nil_r, fmap_app, (assoc_L (++)), elem_of_app.
    intros [Hx|Hx]; [|apply H3; set_solver]. destruct (He e) as [?|[-> |Hpl]]; [exact Hx| |done|].
    + apply H3. set_solver.
    + by destruct e.
  - intros cb env. change (given (flush (self h1))) with (given (self h1)).
    destruct (bridge_step_gives _ _ _ _ _ Hs Hl) as [-> |(cb' & env' & i & Hi' & Hcb & ->)]; [apply HG|].
    rewrite elem_of_app, list_elem_of_singleton. intros [?|[= -> ->]]; [by apply HG|].
    destruct (H2 _ _ Hi') as (cb & Hcb' & Ht). congruence.
  - exact (bridge_step_timers _ _ _ _ _ _ _ _ _ _ _ _ Hs Hl HT).
  - exists leaf1. split_and!; [done|by eapply bridge_step_leaf|]. intros ->.
    destruct (Hlf eq_refl) as [?|Hx]; [done|]. by rewrite Hx in Hok.
Qed.

Lemma bridged_step a asked (c c' : AOBridge) :
  rpc_inv asked c -> action_ok a -> NoDup (tag <$> asked) -> step handler ndebug outbox flush a c = Some c' ->
  rpc_inv (asked ++ handed_in a) c' /\ exists l, out (self (hsm c')) = out (self (hsm c)) ++ l.
Proof.
  intros Hi Ha Hnd. pose proof (ri_running _ _ Hi) as [Hr Hst].
  assert (Hquiet : forall c1 : AOBridge, hsm c1 = hsm c -> running_ c1 = running_ c -> stopper c1 = stopper c ->
    pending_events c1 ≡ₚ pending_events c ->
    rpc_inv (asked ++ []) c1 /\ exists l, out (self (hsm c1)) = out (self (hsm c)) ++ l).
  { intros c1 Hh H1 H2 Hp. rewrite app_nil_r. split; [by apply (pending_move asked c)|].
    exists []. by rewrite Hh, app_nil_r. }
  unfold step. destruct a as [p| | | | | | | | |]; simpl in Ha; try done.
  - intros [= <-]. split; [by apply pending_post|]. exists []. rewrite app_nil_r. unfold post_event. by rewrite Hr.
  - destruct (notifies c); [done|]. intros [= <-]. apply Hquiet; try done.
    unfold pending_events. simpl. rewrite wake_in_hand. by destruct (worker_ c).
  - destruct (worker_ c) eqn:Hw; try done. intros [= <-]. apply Hquiet; try done.
    unfold pending_events. by rewrite Hw.
  - destruct (worker_ c) eqn:Hw; try done. intros [= <-]. unfold run_wait. rewrite Hr. simpl.
    destruct (q_ c) as [|p q] eqn:Hq; cbn [bool_decide negb orb handed_in];
      (match goal with |- rpc_inv _ ?c1 /\ _ => apply (Hquiet c1) end); try done;
      unfold pending_events; simpl; by rewrite Hw, Hq.
  - destruct (worker_ c) as [| |p| | |] eqn:Hw; try done. intros [= <-]. simpl. rewrite app_nil_r.
    by apply dispatch_pending.
  - destruct (worker_ c) as [| | |[|p l]| |] eqn:Hw; try done; intros [= <-].
    { apply Hquiet; try done. unfold pending_events. by rewrite Hw. }
    unfold post_event. simpl running_. rewrite Hr. cbn [handed_in].
    match goal with |- rpc_inv _ ?c1 /\ _ => apply (Hquiet c1) end; try done; unfold pending_events.
    rewrite Hw. simpl. rewrite push_perm, !fmap_app. simpl. by rewrite (assoc_L (++)), <- Permutation_cons_append.
  - rewrite Hst. by destruct (worker_ c).
  - rewrite Hst. by destruct (worker_ c).
  - rewrite Hst. by destruct (worker_ c).
Qed.

Lemma rpc_inv_start (h : Hsm bridge_state bridge_event Bridge) :
  state_ h = st Disconnected_St -> in_flight_ (self h) = ∅ -> kept_events (self h) = [] -> out (self h) = [] ->
  conn_tok (self h) = None -> timer_ops (self h) = [] -> rpc_inv [] (started h).
Proof.
  intros Hst Hf Hk Ho Hw Ht. apply app_nil in Hk as Hk'. destruct Hk' as [Hd Hb].
  assert (Hob : outbox (self h) = []) by (by destruct (outbox (self h))).
  split; simpl; try done.
  - unfold pending, held, called. simpl. by rewrite Ho, Hf, Hd, Hob.
  - intros k i. by rewrite Hf, lookup_empty.
  - intros e. rewrite Hk. intros Hx. by apply not_elem_of_nil in Hx.
  - intros cb env. unfold given. rewrite Ho. intros Hx. by apply not_elem_of_nil in Hx.
  - unfold bridge_timers. rewrite Hf, Hw, Ht.
    split; [intros ? Hx; by apply not_elem_of_nil in Hx|intros ? ? ? ? ? Hx; by apply not_elem_of_nil in Hx| |done].
    intros k i. by rewrite lookup_empty.
  - by exists Disconnected_St.
Qed.
End Bridged.
