(* ===== verification/DataCall.v ===== *)
(** * Data calls and their wire encoding (data/DataConnectionManager.cpp, first part)

    The value object [SimulaDataCall] that clients hold while its session
    updates it, and the decoders of the modem's JSON payloads.  A decoder
    returns [None] where [json::value] or [json::get] throws.  [inet_pton] of
    the C library is a parameter: the [s_addr] of a valid dotted quad.  The
    names of the schemas are literals of the source; the MQTT topics come from
    the generated header topics.h and are given by a function of the message
    name. *)

From S2P Require Import Prelude Json Envelope Manager.

Local Open Scope Z_scope.

(** ** Enumerations of the SDK headers *)

Inductive IpFamilyType := IPF_UNKNOWN | IPV4 | IPV6 | IPV4V6.
Inductive OperationType := DATA_LOCAL | DATA_REMOTE.
Inductive TechPreference := TP_UNKNOWN | TP_3GPP | TP_3GPP2 | TP_ANY.

Inductive DataCallStatus :=
  | INVALID | NET_CONNECTED | NET_NO_NET | NET_IDLE | NET_CONNECTING | NET_DISCONNECTING
  | NET_RECONFIGURED | NET_NEWADDR | NET_DELADDR.

Inductive DataBearerTechnology :=
  | BT_UNKNOWN | CDMA_1X | EVDO_REV0 | EVDO_REVA | EVDO_REVB | EHRPD | FMC | HRPD
  | BEARER_TECH_3GPP2_WLAN | WCDMA | GPRS | HSDPA | HSUPA | EDGE | LTE | HSDPA_PLUS
  | DC_HSDPA_PLUS | HSPA | BEARER_TECH_64_QAM | TDSCDMA | GSM | BEARER_TECH_3GPP_WLAN
  | BEARER_TECH_5G.

Inductive QosFlowStateChangeEvent := QOS_UNKNOWN | ACTIVATED | MODIFIED | DELETED.

#[export] Instance IpFamilyType_eq_dec : EqDecision IpFamilyType.
Proof. solve_decision. Defined.
#[export] Instance OperationType_eq_dec : EqDecision OperationType.
Proof. solve_decision. Defined.
#[export] Instance DataCallStatus_eq_dec : EqDecision DataCallStatus.
Proof. solve_decision. Defined.

(** Values of [EndReasonType]. *)
Definition CE_UNKNOWN : Z := 0xFF.
Definition CE_INTERNAL : Z := 2.
Definition CE_3GPP_SPEC_DEFINED : Z := 6.

(** ** Data *)

(** The union of [DataCallEndReason]: the member that was written, if any. *)
Inductive reason_code := NoCode | SpecCode (n : Z) | InternalCode (n : Z).

Record DataCallEndReason := mkReason { reason_type : Z; reason_union : reason_code }.
Definition no_reason : DataCallEndReason := mkReason CE_UNKNOWN NoCode.

Record IpAddrInfo := mkAddr {
  ifAddress : string;
  ifMask : Z;
  gwAddress : string;
  gwMask : Z;
  primaryDnsAddress : string;
  secondaryDnsAddress : string }.

Record IpFamilyInfo := mkFamily { family_status : DataCallStatus; addr : IpAddrInfo }.

(** [IpFamilyInfo info{}]. *)
Definition no_family : IpFamilyInfo := mkFamily INVALID (mkAddr "" 0 "" 0 "" "").

Record DataCall := mkCall {
  profileId_ : Z;
  slotId_ : Z;
  ipFamilyType_ : IpFamilyType;
  operationType_ : OperationType;
  interfaceName_ : string;
  techPreference_ : TechPreference;
  bearerTech_ : DataBearerTechnology;
  status_ : DataCallStatus;
  endReason_ : DataCallEndReason;
  ipv4_ : IpFamilyInfo;
  ipv6_ : IpFamilyInfo }.

(** The constructor. *)
Definition SimulaDataCall (profileId slotId : Z) (f : IpFamilyType) (op : OperationType)
    (ifname : string) : DataCall :=
  mkCall profileId slotId f op ifname TP_UNKNOWN BT_UNKNOWN NET_IDLE no_reason no_family no_family.

Definition set_family_status (s : DataCallStatus) (i : IpFamilyInfo) : IpFamilyInfo :=
  mkFamily s (addr i).

Definition going_down (s : DataCallStatus) : bool :=
  bool_decide (s = NET_DISCONNECTING \/ s = NET_NO_NET).

Definition setStatus (s : DataCallStatus) (c : DataCall) : DataCall :=
  mkCall (profileId_ c) (slotId_ c) (ipFamilyType_ c) (operationType_ c) (interfaceName_ c)
    (techPreference_ c)
    (if decide (s = NET_NO_NET) then BT_UNKNOWN else bearerTech_ c)
    s (endReason_ c)
    (if going_down s then set_family_status s (ipv4_ c) else ipv4_ c)
    (if going_down s then set_family_status s (ipv6_ c) else ipv6_ c).

Definition setEndReason (r : DataCallEndReason) (c : DataCall) : DataCall :=
  mkCall (profileId_ c) (slotId_ c) (ipFamilyType_ c) (operationType_ c) (interfaceName_ c)
    (techPreference_ c) (bearerTech_ c) (status_ c) r (ipv4_ c) (ipv6_ c).
Definition setIpv4 (i : IpFamilyInfo) (c : DataCall) : DataCall :=
  mkCall (profileId_ c) (slotId_ c) (ipFamilyType_ c) (operationType_ c) (interfaceName_ c)
    (techPreference_ c) (bearerTech_ c) (status_ c) (endReason_ c) i (ipv6_ c).
Definition setIpv6 (i : IpFamilyInfo) (c : DataCall) : DataCall :=
  mkCall (profileId_ c) (slotId_ c) (ipFamilyType_ c) (operationType_ c) (interfaceName_ c)
    (techPreference_ c) (bearerTech_ c) (status_ c) (endReason_ c) (ipv4_ c) i.
Definition setInterfaceName (n : string) (c : DataCall) : DataCall :=
  mkCall (profileId_ c) (slotId_ c) (ipFamilyType_ c) (operationType_ c) n
    (techPreference_ c) (bearerTech_ c) (status_ c) (endReason_ c) (ipv4_ c) (ipv6_ c).
Definition setTechPreference (t : TechPreference) (c : DataCall) : DataCall :=
  mkCall (profileId_ c) (slotId_ c) (ipFamilyType_ c) (operationType_ c) (interfaceName_ c)
    t (bearerTech_ c) (status_ c) (endReason_ c) (ipv4_ c) (ipv6_ c).
Definition setBearerTech (b : DataBearerTechnology) (c : DataCall) : DataCall :=
  mkCall (profileId_ c) (slotId_ c) (ipFamilyType_ c) (operationType_ c) (interfaceName_ c)
    (techPreference_ c) b (status_ c) (endReason_ c) (ipv4_ c) (ipv6_ c).

Definition getIpAddressInfo (c : DataCall) : list IpAddrInfo :=
  (if decide (ipFamilyType_ c = IPV4 \/ ipFamilyType_ c = IPV4V6) then [addr (ipv4_ c)] else []) ++
  (if decide (ipFamilyType_ c = IPV6 \/ ipFamilyType_ c = IPV4V6) then [addr (ipv6_ c)] else []).

(** ** Encoders and decoders *)

Definition ipFamilyToWire (f : IpFamilyType) : string :=
  match f with IPV4 => "IPV4" | IPV6 => "IPV6" | _ => "IPV4V6" end.

Definition opTypeToWire (t : OperationType) : string :=
  match t with DATA_REMOTE => "DATA_REMOTE" | DATA_LOCAL => "DATA_LOCAL" end.

Definition wireToCallStatus (s : string) : DataCallStatus :=
  if decide (s = "CONNECTED") then NET_CONNECTED
  else if decide (s = "NO_NET") then NET_NO_NET
  else if decide (s = "CONNECTING") then NET_CONNECTING
  else if decide (s = "DISCONNECTING") then NET_DISCONNECTING
  else if decide (s = "RECONFIGURED") then NET_RECONFIGURED
  else if decide (s = "NEWADDR") then NET_NEWADDR
  else if decide (s = "DELADDR") then NET_DELADDR
  else NET_IDLE.

Definition wireToBearerTech (s : string) : DataBearerTechnology :=
  if decide (s = "GSM") then GSM
  else if decide (s = "WCDMA") then WCDMA
  else if decide (s = "LTE") then LTE
  else if decide (s = "BEARER_TECH_5G") then BEARER_TECH_5G
  else if decide (s = "CDMA_1X") then CDMA_1X
  else if decide (s = "EVDO_REV0") then EVDO_REV0
  else BT_UNKNOWN.

Definition wireToQosStateChange (s : string) : QosFlowStateChangeEvent :=
  if decide (s = "ACTIVATED") then ACTIVATED
  else if decide (s = "MODIFIED") then MODIFIED
  else if decide (s = "DEACTIVATED") then DELETED
  else QOS_UNKNOWN.

Record ThroughputInfo := mkThroughput {
  ti_slot : Z;
  ti_profileId : Z;
  ul_throughput : Z;
  ul_maxThroughput : Z;
  ul_queueSize : Z;
  dl_throughput : Z }.

Record APNThrottleInfo := mkThrottle {
  apn : string;
  profileIds : list Z;
  ipv4Time : Z;
  ipv6Time : Z;
  isBlocked : bool;
  mcc : string;
  mnc : string }.

(** The fields of [TrafficFlowTemplate] the decoder writes; the filter arrays
    stay empty, everything else zero. *)
Record TrafficFlowTemplate := mkTft {
  qosId : Z;
  tft_stateChange : QosFlowStateChangeEvent;
  tft_mask : Z;
  tx_maxRate : Z;
  tx_minRate : Z;
  rx_maxRate : Z;
  rx_minRate : Z }.

Record BitRateInfo := mkBitRate { maxTxRate : Z; maxRxRate : Z }.

Section Wire.
Context {json : Type} `{Json json, JsonValues json}.
Context (inet_pton : string -> option Z).

Definition decodeEndReason (obj : json) : option DataCallEndReason :=
  type ← value_int "type" 0xFF obj;
  code ← value_int "code" 0 obj;
  Some (mkReason type
    (if decide (type = CE_3GPP_SPEC_DEFINED) then SpecCode code
     else if decide (type = CE_INTERNAL) then InternalCode code else NoCode)).

Definition subnetMaskToIfMask (s : string) : Z := default 0 (inet_pton s).

(** The four strings both address blocks carry. *)
Definition decode_addr (a : json) : option IpAddrInfo :=
  i ← value_string "if_address" "" a;
  g ← value_string "gw_address" "" a;
  p ← value_string "primary_dns_address" "" a;
  s ← value_string "secondary_dns_address" "" a;
  Some (mkAddr i 0 g 0 p s).

Definition with_mask (m : Z) (i : IpAddrInfo) : IpAddrInfo :=
  mkAddr (ifAddress i) m (gwAddress i) (gwMask i) (primaryDnsAddress i) (secondaryDnsAddress i).

Definition apply_ipv4 (data : json) (status : DataCallStatus) (c : DataCall) : option DataCall :=
  match jfind "ipv4" data with
  | None => Some c
  | Some a =>
      i ← decode_addr a;
      i ← (if contains "subnet_mask" a then
             m ← value_string "subnet_mask" "" a; Some (with_mask (subnetMaskToIfMask m) i)
           else Some i);
      Some (setIpv4 (mkFamily status i) c)
  end.

Definition apply_ipv6 (data : json) (status : DataCallStatus) (c : DataCall) : option DataCall :=
  match jfind "ipv6" data with
  | None => Some c
  | Some a => i ← decode_addr a; Some (setIpv6 (mkFamily status i) c)
  end.

Definition applyAddrInfo (data : json) (status : DataCallStatus) (c : DataCall) : option DataCall :=
  c ← apply_ipv4 data status c; apply_ipv6 data status c.

(** [a.value(k, "") != cur || rest]. *)
Definition differs_at (k : string) (a : json) (cur : string) (rest : option bool) : option bool :=
  s ← value_string k "" a; if decide (s <> cur) then Some true else rest.

Definition differs (a : json) (cur : IpAddrInfo) : option bool :=
  differs_at "if_address" a (ifAddress cur)
    (differs_at "gw_address" a (gwAddress cur)
       (differs_at "primary_dns_address" a (primaryDnsAddress cur)
          (differs_at "secondary_dns_address" a (secondaryDnsAddress cur) (Some false)))).

Definition addrInfoDiffers (c : DataCall) (data : json) : option bool :=
  d4 ← (match jfind "ipv4" data with Some a => differs a (addr (ipv4_ c)) | None => Some false end);
  if d4 : bool then Some true
  else match jfind "ipv6" data with Some a => differs a (addr (ipv6_ c)) | None => Some false end.

Definition decode_throughput (item : json) : option ThroughputInfo :=
  slot ← value_int "slot" 0 item;
  pid ← value_int "profileId" 0 item;
  '(t, m, q) ← (match jfind "ul" item with
                | Some ul =>
                    t ← value_int "throughput" 0 ul;
                    m ← value_int "maxThroughput" 0 ul;
                    q ← value_int "queueSize" 0 ul;
                    Some (t, m, q)
                | None => Some (0, 0, 0)
                end);
  d ← (match jfind "dl" item with Some dl => value_int "throughput" 0 dl | None => Some 0 end);
  Some (mkThroughput slot pid (to_unsigned 32 t) (to_unsigned 32 m) (to_unsigned 32 q)
          (to_unsigned 32 d)).

Definition decodeThroughputInfos (infos : json) : option (list ThroughputInfo) :=
  mapM decode_throughput (elements infos).

Definition decodeThrottleInfo (data : json) : option APNThrottleInfo :=
  a ← value_string "apn" "" data;
  pids ← (match jfind "profileIds" data with
          | Some l => mapM as_int (elements l)
          | None => Some []
          end);
  t4 ← value_int "ipv4Time" 0 data;
  t6 ← value_int "ipv6Time" 0 data;
  b ← value_bool "isBlocked" false data;
  mc ← value_string "mcc" "" data;
  mn ← value_string "mnc" "" data;
  Some (mkThrottle a pids (to_unsigned 32 t4) (to_unsigned 32 t6) b mc mn).

(** The [dataRate] of an optional granted flow: maximum, minimum. *)
Definition granted (k : string) (data : json) : option (Z * Z) :=
  match jfind k data with
  | Some g =>
      mx ← value_int "maxRate" 0 g;
      mn ← value_int "minRate" 0 g;
      Some (to_unsigned 64 mx, to_unsigned 64 mn)
  | None => Some (0, 0)
  end.

Definition decodeTrafficFlowTemplate (data : json) : option TrafficFlowTemplate :=
  q ← value_int "qosId" 0 data;
  s ← value_string "stateChange" "" data;
  m ← value_int "mask" 0 data;
  '(txx, txn) ← granted "txGranted" data;
  '(rxx, rxn) ← granted "rxGranted" data;
  (* unsigned long to bitset<16> keeps the low 16 bits *)
  Some (mkTft (to_unsigned 32 q) (wireToQosStateChange s) (to_unsigned 16 m) txx txn rxx rxn).

(** ** Bit rate requests *)

(** What [requestDataCallBitRate] does besides its return value. *)
Inductive bitrate_action :=
  | BitRateNow (info : BitRateInfo) (code : Z)          (* the callback is called *)
  | BitRateNone                                         (* no callback to call *)
  | BitRateRpc (schema : string) (data : json) (timeout : Z).

Definition requestDataCallBitRate (has_cb : bool) (c : DataCall) : Status * bitrate_action :=
  if decide (status_ c <> NET_CONNECTED) then
    (SUCCESS_, if has_cb then BitRateNow (mkBitRate 0 0) INVALID_STATE else BitRateNone)
  else
    (SUCCESS_, BitRateRpc "data.request_data_call_bitrate.rsp"
                 (jset "profileId" (of_int (profileId_ c)) jobject) kRpcTimeout).

(** The callback given to [send_request]: what it tells the client, [None] when
    it throws (into the bridge, which swallows it). *)
Definition bitrate_reply (has_cb : bool) (rsp : option (Envelope json)) :
    option (option (BitRateInfo * Z)) :=
  if negb has_cb then Some None
  else
    match rsp with
    | Some (mkEnvelope _ _ _ _ _ (Some data) None) =>
        tx ← value_int "maxTxRate" 0 data;
        rx ← value_int "maxRxRate" 0 data;
        Some (Some (mkBitRate (to_unsigned 64 tx) (to_unsigned 64 rx), SUCCESS))
    | _ => Some (Some (mkBitRate 0 0, OPERATION_TIMEOUT))
    end.
End Wire.

(** ** Lemmas *)

Section WireProps.
Context {json : Type} `{Json json, JsonValues json}.
Context (inet_pton : string -> option Z).

(** What the address comparison looks at. *)
Definition addr_strings (i : IpAddrInfo) : string * string * string * string :=
  (ifAddress i, gwAddress i, primaryDnsAddress i, secondaryDnsAddress i).

Lemma differs_at_false k (a : json) cur rest :
  differs_at k a cur rest = Some false -> value_string k "" a = Some cur /\ rest = Some false.
Proof.
  unfold differs_at. destruct (value_string k "" a) as [s|]; simpl; [|done].
  case_decide; [done|]. by subst.
Qed.

Lemma differs_at_same k (a : json) cur rest :
  value_string k "" a = Some cur -> differs_at k a cur rest = rest.
Proof. unfold differs_at. intros ->. simpl. by rewrite decide_False by naive_solver. Qed.

Lemma decode_addr_strings (a : json) i :
  decode_addr a = Some i ->
  value_string "if_address" "" a = Some (ifAddress i) /\
  value_string "gw_address" "" a = Some (gwAddress i) /\
  value_string "primary_dns_address" "" a = Some (primaryDnsAddress i) /\
  value_string "secondary_dns_address" "" a = Some (secondaryDnsAddress i).
Proof.
  unfold decode_addr. intros (s1 & ? & (s2 & ? & (s3 & ? & (s4 & ? & [= <-])%bind_Some)%bind_Some)
    %bind_Some)%bind_Some. done.
Qed.

(** The comparison says "same" exactly when decoding gives the same strings. *)
Lemma differs_decode (a : json) i cur :
  decode_addr a = Some i -> differs a cur = Some (bool_decide (addr_strings i <> addr_strings cur)).
Proof.
  intros (H1 & H2 & H3 & H4)%decode_addr_strings. unfold differs, differs_at.
  rewrite H1, H2, H3, H4. simpl. destruct i, cur. unfold addr_strings. simpl in *.
  repeat case_decide; f_equal; symmetry; subst;
    first [apply bool_decide_eq_true; naive_solver | apply bool_decide_eq_false; naive_solver].
Qed.

Lemma differs_decode_false (a : json) i cur :
  decode_addr a = Some i -> differs a cur = Some false -> addr_strings i = addr_strings cur.
Proof.
  intros Hd. rewrite (differs_decode a i cur Hd). intros [= Hb].
  apply bool_decide_eq_false in Hb. by apply dec_stable in Hb.
Qed.

Lemma differs_decode_same (a : json) i cur :
  decode_addr a = Some i -> addr_strings i = addr_strings cur -> differs a cur = Some false.
Proof.
  intros Hd Hs. rewrite (differs_decode a i cur Hd). f_equal. apply bool_decide_eq_false. by intros [].
Qed.

Lemma apply_ipv4_spec (data : json) s c c' :
  apply_ipv4 inet_pton data s c = Some c' ->
  match jfind "ipv4" data with
  | None => c' = c
  | Some a => exists i j, decode_addr a = Some i /\ addr_strings j = addr_strings i /\
                gwMask j = gwMask i /\ c' = setIpv4 (mkFamily s j) c
  end.
Proof.
  unfold apply_ipv4. destruct (jfind "ipv4" data) as [a|]; [|by intros [= ->]].
  intros (i & Hi & (j & Hj & [= <-])%bind_Some)%bind_Some. exists i, j.
  destruct (contains _ _).
  - apply bind_Some in Hj as (m & _ & [= <-]). done.
  - by injection Hj as <-.
Qed.

Lemma apply_ipv6_spec (data : json) s c c' :
  apply_ipv6 data s c = Some c' ->
  match jfind "ipv6" data with
  | None => c' = c
  | Some a => exists i, decode_addr a = Some i /\ c' = setIpv6 (mkFamily s i) c
  end.
Proof.
  unfold apply_ipv6. destruct (jfind "ipv6" data) as [a|]; [|by intros [= ->]].
  intros (i & Hi & [= <-])%bind_Some. eauto.
Qed.

Lemma addrInfoDiffers_false (data : json) c :
  addrInfoDiffers c data = Some false <->
  (forall a, jfind "ipv4" data = Some a -> differs a (addr (ipv4_ c)) = Some false) /\
  (forall a, jfind "ipv6" data = Some a -> differs a (addr (ipv6_ c)) = Some false).
Proof.
  unfold addrInfoDiffers.
  destruct (jfind "ipv4" data) as [a4|]; [destruct (differs a4 _) as [[]|] eqn:?|];
    destruct (jfind "ipv6" data) as [a6|]; simpl; naive_solver.
Qed.

(** Address updates settle. When the address blocks of an indication have
    been applied to a call, comparing the same indication with the call finds no
    difference, so a modem that repeats it causes one notification and not one
    per repetition; status, bearer and interface name are not touched, a family
    without a block keeps its record, and a family with a block takes the given
    status. Conversely, when the comparison finds no difference, applying the
    indication would not change any address. *)
Theorem addresses_settle (data : json) (s : DataCallStatus) (c c' : DataCall) :
  applyAddrInfo inet_pton data s c = Some c' ->
  addrInfoDiffers c' data = Some false /\
  status_ c' = status_ c /\ bearerTech_ c' = bearerTech_ c /\
  interfaceName_ c' = interfaceName_ c /\
  (jfind "ipv4" data = None -> ipv4_ c' = ipv4_ c) /\
  (jfind "ipv6" data = None -> ipv6_ c' = ipv6_ c) /\
  (is_Some (jfind "ipv4" data) -> family_status (ipv4_ c') = s) /\
  (is_Some (jfind "ipv6" data) -> family_status (ipv6_ c') = s) /\
  (addrInfoDiffers c data = Some false ->
   addr_strings (addr (ipv4_ c')) = addr_strings (addr (ipv4_ c)) /\
   addr_strings (addr (ipv6_ c')) = addr_strings (addr (ipv6_ c))).
Proof.
  unfold applyAddrInfo. intros (c1 & H4%apply_ipv4_spec & H6%apply_ipv6_spec)%bind_Some.
  rewrite !addrInfoDiffers_false.
  destruct (jfind "ipv4" data) as [a4|]; [destruct H4 as (i & j & Hi & Hj & _ & ->)|subst c1];
    (destruct (jfind "ipv6" data) as [a6|]; [destruct H6 as (i6 & Hi6 & ->)|subst c']);
    simpl; repeat split; try done; try (intros a [= <-]; by eapply differs_decode_same);
    try (by intros [? [=]]); try (intros a [= <-]; by eapply differs_decode_same);
    match goal with H : _ /\ _ |- _ => destruct H as [Hd4 Hd6] end;
    try specialize (Hd4 _ eq_refl); try specialize (Hd6 _ eq_refl);
    rewrite ?Hj; by eapply differs_decode_false.
Qed.

(** What the decoders of measurements produce. Decoding the [infos] array
    gives one record per element, in order, and every number of a record fits the
    unsigned field it is stored in, also when the modem sent a negative one; the
    flow template's mask keeps 16 bits; and a status string is understood as a
    status other than "idle" only if it is that status's own name, so no two
    strings are taken for the same status. *)
Theorem decoders_bounded (infos data : json) (l : list ThroughputInfo) (t : TrafficFlowTemplate)
    (th : APNThrottleInfo) :
  decodeThroughputInfos infos = Some l -> decodeTrafficFlowTemplate data = Some t ->
  decodeThrottleInfo data = Some th ->
  Forall2 (fun item r => decode_throughput item = Some r) (elements infos) l /\
  Forall (fun r => Forall (fun n => 0 <= n < 2 ^ 32)
            [ul_throughput r; ul_maxThroughput r; ul_queueSize r; dl_throughput r]) l /\
  0 <= tft_mask t < 2 ^ 16 /\ 0 <= qosId t < 2 ^ 32 /\
  Forall (fun n => 0 <= n < 2 ^ 64) [tx_maxRate t; tx_minRate t; rx_maxRate t; rx_minRate t] /\
  0 <= ipv4Time th < 2 ^ 32 /\ 0 <= ipv6Time th < 2 ^ 32 /\
  (forall s1 s2, wireToCallStatus s1 = wireToCallStatus s2 ->
     wireToCallStatus s1 <> NET_IDLE -> s1 = s2).
Proof.
  assert (Hu : forall w n, 0 <= w -> 0 <= to_unsigned w n < 2 ^ w)
    by (intros w n Hw; apply Z.mod_pos_bound; lia).
  assert (Hg : forall k x y, granted k data = Some (x, y) -> 0 <= x < 2 ^ 64 /\ 0 <= y < 2 ^ 64).
  { intros k x y. unfold granted. destruct (jfind k data) as [g|]; [|intros [= <- <-]; lia].
    intros (mx & _ & (mn & _ & [= <- <-])%bind_Some)%bind_Some. split; apply Hu; lia. }
  unfold decodeThroughputInfos, decodeTrafficFlowTemplate, decodeThrottleInfo.
  intros Hl%mapM_Some Ht Hth.
  apply bind_Some in Ht as (q & _ & (sc & _ & (m & _ & ([x1 x2] & G1%Hg & ([y1 y2] & G2%Hg &
    [= <-])%bind_Some)%bind_Some)%bind_Some)%bind_Some).
  apply bind_Some in Hth as (a & _ & (p & _ & (t4 & _ & (t6 & _ & (b & _ & (mc & _ & (mn & _ &
    [= <-])%bind_Some)%bind_Some)%bind_Some)%bind_Some)%bind_Some)%bind_Some).
  simpl. split; [done|]. split; [|repeat split; try (apply Hu; lia)].
  - apply Forall_forall. intros r Hr. apply list_elem_of_lookup in Hr as [i Hr].
    destruct (Forall2_lookup_r _ _ _ _ _ Hl Hr) as (item & _ & Hd). clear -Hd Hu.
    unfold decode_throughput in Hd.
    apply bind_Some in Hd as (sl & _ & (pid & _ & ([[t m] q] & _ & (d & _ & [= <-])%bind_Some)
      %bind_Some)%bind_Some). simpl. repeat constructor; apply Hu; lia.
  - repeat constructor; lia.
  - intros s1 s2. unfold wireToCallStatus. repeat case_decide; congruence.
Qed.
End WireProps.

(** ** Concrete payloads *)

Module CallDemo.
Definition addr_block : jval :=
  JObject [("gw_address", JString "10.0.0.1"); ("if_address", JString "10.0.0.2");
           ("subnet_mask", JString "255.255.255.0")].
Definition up : jval := JObject [("ipv4", addr_block); ("status", JString "CONNECTED")].
Definition pton (s : string) : option Z :=
  if decide (s = "255.255.255.0") then Some 0x00FFFFFF else None.
Definition fresh : DataCall := SimulaDataCall 1 1 IPV4V6 DATA_LOCAL "".
Definition applied : DataCall := default fresh (applyAddrInfo pton up NET_CONNECTED fresh).
Definition infos : jval :=
  JArray [JObject [("slot", JInt 1); ("ul", JObject [("throughput", JInt (-1))])]].
Definition qos : jval :=
  JObject [("mask", JInt 65543); ("txGranted", JObject [("maxRate", JInt 9)])].
Definition info : ThroughputInfo := mkThroughput 1 0 (2 ^ 32 - 1) 0 0 0.
Definition tft : TrafficFlowTemplate := mkTft 0 QOS_UNKNOWN 7 9 0 0 0.
Definition throttle : APNThrottleInfo := mkThrottle "" [] 0 0 false "" "".
End CallDemo.

Lemma addresses_settle_witness :
  addrInfoDiffers CallDemo.applied CallDemo.up = Some false /\
  status_ CallDemo.applied = status_ CallDemo.fresh /\
  bearerTech_ CallDemo.applied = bearerTech_ CallDemo.fresh /\
  interfaceName_ CallDemo.applied = interfaceName_ CallDemo.fresh /\
  (jfind "ipv4" CallDemo.up = None -> ipv4_ CallDemo.applied = ipv4_ CallDemo.fresh) /\
  (jfind "ipv6" CallDemo.up = None -> ipv6_ CallDemo.applied = ipv6_ CallDemo.fresh) /\
  (is_Some (jfind "ipv4" CallDemo.up) ->
   family_status (ipv4_ CallDemo.applied) = NET_CONNECTED) /\
  (is_Some (jfind "ipv6" CallDemo.up) ->
   family_status (ipv6_ CallDemo.applied) = NET_CONNECTED) /\
  (addrInfoDiffers CallDemo.fresh CallDemo.up = Some false ->
   addr_strings (addr (ipv4_ CallDemo.applied)) = addr_strings (addr (ipv4_ CallDemo.fresh)) /\
   addr_strings (addr (ipv6_ CallDemo.applied)) = addr_strings (addr (ipv6_ CallDemo.fresh))).
Proof. apply (addresses_settle CallDemo.pton). vm_compute. reflexivity. Defined.

Lemma decoders_bounded_witness :
  let l := [CallDemo.info] in let t := CallDemo.tft in let th := CallDemo.throttle in
  Forall2 (fun item r => decode_throughput item = Some r) (elements CallDemo.infos) l /\
  Forall (fun r => Forall (fun n => 0 <= n < 2 ^ 32)
            [ul_throughput r; ul_maxThroughput r; ul_queueSize r; dl_throughput r]) l /\
  0 <= tft_mask t < 2 ^ 16 /\ 0 <= qosId t < 2 ^ 32 /\
  Forall (fun n => 0 <= n < 2 ^ 64) [tx_maxRate t; tx_minRate t; rx_maxRate t; rx_minRate t] /\
  0 <= ipv4Time th < 2 ^ 32 /\ 0 <= ipv6Time th < 2 ^ 32 /\
  (forall s1 s2, wireToCallStatus s1 = wireToCallStatus s2 ->
     wireToCallStatus s1 <> NET_IDLE -> s1 = s2).
Proof. apply (decoders_bounded CallDemo.infos CallDemo.qos); vm_compute; reflexivity. Defined.

(** The comparison ignores the subnet mask: an indication that changes only the
    mask is not applied to a connected call. *)
Example mask_change_ignored :
  let old := default CallDemo.fresh (applyAddrInfo CallDemo.pton
    (JObject [("ipv4", JObject [("subnet_mask", JString "255.0.0.0")])]) NET_CONNECTED
    CallDemo.fresh) in
  let new := JObject [("ipv4", JObject [("subnet_mask", JString "255.255.255.0")])] in
  addrInfoDiffers old new = Some false /\
  (forall c, applyAddrInfo CallDemo.pton new NET_CONNECTED old = Some c ->
     ifMask (addr (ipv4_ c)) <> ifMask (addr (ipv4_ old))).
Proof. vm_compute. split; [done|]. by intros c [= <-]. Qed.
