(* ===== verification/DataCallSession.v ===== *)
(** * The life of one data call (data/DataConnectionManager.cpp, SimulaDataCallSession)

    One active object per call: it asks the modem to start the call, follows
    the modem's indications, stops the call on request and verifies with the
    modem when a stop fails.  One definition per state handler.

    Effects the session has on others are recorded in [log]: requests handed to
    the bridge (with the event its answer is posted as), client callbacks with
    the call as it is at that moment, listener notifications, the report to the
    manager, and the arming of its two TimeEvents. *)

From S2P Require Import Prelude Hsm HsmSpec ActiveObject Defer Json Envelope Manager DataCall.

Local Open Scope Z_scope.

Section Session.
Context {json : Type} `{Json json, JsonValues json}.
(** Clients' callbacks; a null [std::function] is [None]. *)
Context {C : Type}.
Context (inet_pton : string -> option Z) (topic : string -> string).
(** [bridge_.currentPaId()]; clock and correlation counter at the [n]-th request. *)
Context (paId : string) (now_at counter_at : nat -> Z).

Definition kBringupTimeout : Z := 30000.      (* ms *)
Definition kTeardownTimeout : Z := 30000.     (* ms *)

(** Which answer a request handed to the bridge is posted back as. *)
Inductive rpc := StartRpc | StopRpc | ListRpc.

Inductive session_event :=
  | Start_Signal
  | Stop_Signal (cb : option C)
  | StartRsp_Signal (rsp : option (Envelope json))
  | StopRsp_Signal (rsp : option (Envelope json))
  | StateInd_Signal (env : Envelope json)
  | BringupTimeout_Signal
  | TeardownTimeout_Signal
  | ListRsp_Signal (rsp : option (Envelope json)).

Definition reply_event (r : rpc) (rsp : option (Envelope json)) : session_event :=
  match r with
  | StartRpc => StartRsp_Signal rsp
  | StopRpc => StopRsp_Signal rsp
  | ListRpc => ListRsp_Signal rsp
  end.

Inductive watchdog := Bringup | Teardown.

Inductive effect :=
  | Request (r : rpc) (topic schema : string) (env : Envelope json) (timeout : Z)
  | StartCb (cb : C) (call : option DataCall) (code : Z)
  | StopCb (cb : C) (call : option DataCall) (code : Z)
  | Notify (call : DataCall)
  | Finished (profileId : Z)
  | Arm (w : watchdog) (delay : Z)
  | Disarm (w : watchdog).

Inductive session_state :=
  | Idle_St | Active_St | SendingStartReq_St | WaitingForUp_St | Connected_St
  | SendingStopReq_St | WaitingForDown_St | Reconciling_St | Terminal_St.

#[global] Instance session_state_eq_dec : EqDecision session_state.
Proof. solve_decision. Defined.

(** The members of [SimulaDataCallSession]; the slot, profile and operation
    type it was constructed with are those of [call_].  [up_timer] and
    [down_timer]: the TimeEvent was armed and not disarmed since. *)
Record Session := mkSession {
  call_ : DataCall;
  startCb_ : option C;
  stopCb_ : option C;
  up_timer : bool;
  down_timer : bool;
  deferred_ : DeferQueue session_event;
  outbox : list (post session_event);
  log : list effect }.

Definition set_call c (s : Session) := mkSession c (startCb_ s) (stopCb_ s) (up_timer s)
  (down_timer s) (deferred_ s) (outbox s) (log s).
Definition set_stopCb cb (s : Session) := mkSession (call_ s) (startCb_ s) cb (up_timer s)
  (down_timer s) (deferred_ s) (outbox s) (log s).
Definition set_deferred q (s : Session) := mkSession (call_ s) (startCb_ s) (stopCb_ s)
  (up_timer s) (down_timer s) q (outbox s) (log s).
Definition set_outbox l (s : Session) := mkSession (call_ s) (startCb_ s) (stopCb_ s)
  (up_timer s) (down_timer s) (deferred_ s) l (log s).
Definition emit l (s : Session) := mkSession (call_ s) (startCb_ s) (stopCb_ s)
  (up_timer s) (down_timer s) (deferred_ s) (outbox s) (log s ++ l).
Definition set_timers u d (s : Session) := mkSession (call_ s) (startCb_ s) (stopCb_ s)
  u d (deferred_ s) (outbox s) (log s).

Definition flush (s : Session) : Session := set_outbox [] s.

(** The constructor and the part of [start] before the worker runs. *)
Definition new_session (profileId slotId : Z) (f : IpFamilyType) (op : OperationType)
    (ifname : string) : Session :=
  mkSession (SimulaDataCall profileId slotId f op ifname) None None false false [] [] [].

(** ** Helpers *)

Definition arm (w : watchdog) (s : Session) : Session :=
  match w with
  | Bringup => emit [Arm Bringup kBringupTimeout] (set_timers true (down_timer s) s)
  | Teardown => emit [Arm Teardown kTeardownTimeout] (set_timers (up_timer s) true s)
  end.

Definition disarm (w : watchdog) (s : Session) : Session :=
  match w with
  | Bringup => emit [Disarm Bringup] (set_timers false (down_timer s) s)
  | Teardown => emit [Disarm Teardown] (set_timers (up_timer s) false s)
  end.

Definition call_start (call : option DataCall) (code : Z) (s : Session) : Session :=
  match startCb_ s with Some cb => emit [StartCb cb call code] s | None => s end.
Definition call_stop (cb : option C) (call : option DataCall) (code : Z) (s : Session) : Session :=
  match cb with Some c => emit [StopCb c call code] s | None => s end.
Definition notifyListeners_ (s : Session) : Session := emit [Notify (call_ s)] s.
Definition onFinished_ (s : Session) : Session := emit [Finished (profileId_ (call_ s))] s.
Definition set_status st s := set_call (setStatus st (call_ s)) s.

Definition rpcs_of (l : list effect) : list rpc :=
  omap (fun e => match e with Request r _ _ _ _ => Some r | _ => None end) l.

(** [bridge_.send_request] of a payload. *)
Definition send_rpc (r : rpc) (req schema : string) (payload : json) (s : Session) : Session :=
  let n := length (rpcs_of (log s)) in
  let env := fst (makeRequestEnvelope (now_at n) (counter_at n) paId payload) in
  emit [Request r (topic req) schema env kRpcTimeout] s.

(** The payload of the start and stop requests. *)
Definition call_request (s : Session) : json :=
  let d := jobject in
  let d := jset "profileId" (of_int (profileId_ (call_ s))) d in
  let d := jset "ipFamily" (of_string (ipFamilyToWire (ipFamilyType_ (call_ s)))) d in
  let d := jset "ifname" (of_string (interfaceName_ (call_ s))) d in
  let d := jset "opType" (of_string (opTypeToWire (operationType_ (call_ s)))) d in
  jset "slot" (of_int (slotId_ (call_ s))) d.

Definition list_request (s : Session) : json :=
  let d := jobject in
  let d := jset "opType" (of_string (opTypeToWire (operationType_ (call_ s)))) d in
  jset "slot" (of_int (slotId_ (call_ s))) d.

(** [chart::recall_all(deferred_, *self)]. *)
Definition recall_deferred (s : Session) : Session :=
  set_deferred [] (set_outbox (outbox s ++ (Fifo <$> deferred_ s)) s).

(** Adopt a non-empty interface name. *)
Definition adopt_ifname (d : json) (c : DataCall) : option DataCall :=
  n ← value_string "ifname" "" d;
  Some (if decide (n = EmptyString) then c else setInterfaceName n c).

Definition restamp_bearer (d : json) (c : DataCall) : option DataCall :=
  if contains "bearer_tech" d then
    b ← value_string "bearer_tech" "" d; Some (setBearerTech (wireToBearerTech b) c)
  else Some c.

Definition take_end_reason (d : json) (c : DataCall) : option DataCall :=
  match jfind "end_reason" d with
  | Some r => r ← decodeEndReason r; Some (setEndReason r c)
  | None => Some c
  end.

(** ** State handlers *)

Definition result : Type := outcome (verdict session_state * Session).
Definition handled (s : Session) : result := Done (Handled, s).
Definition goto (t : session_state) (s : Session) : result := Done (To (st t), s).
Definition super (p : StateFn session_state) (s : Session) : result := Done (Super p, s).

Definition on_Idle (e : Event session_event) (s : Session) : result :=
  match e with
  | Entry_Signal | Exit_Signal => handled s
  | User Start_Signal => goto SendingStartReq_St s
  | _ => super top s
  end.

Definition on_Active (e : Event session_event) (s : Session) : result :=
  match e with
  | Entry_Signal | Exit_Signal => handled s
  | User (Stop_Signal cb) => handled (call_stop cb (Some (call_ s)) OP_IN_PROGRESS s)
  | _ => super top s
  end.

Definition start_failed (code : Z) (s : Session) : Session :=
  onFinished_ (call_start None code s).

Definition on_start_rsp (rsp : option (Envelope json)) (s : Session) : result :=
  match rsp with
  | None => goto Terminal_St (start_failed OPERATION_TIMEOUT s)
  | Some env =>
      match error env with
      | Some err =>
          code ← or_die (value_string "code" "" err);
          goto Terminal_St (start_failed (parseErrorCode code) s)
      | None =>
          let c := setStatus NET_CONNECTING (call_ s) in
          c ← or_die (match data env with Some d => adopt_ifname d c | None => Some c end);
          goto WaitingForUp_St (call_start (Some c) SUCCESS (set_call c s))
      end
  end.

Definition on_SendingStartReq (e : Event session_event) (s : Session) : result :=
  match e with
  | Entry_Signal =>
      handled (send_rpc StartRpc "data.start_data_call.req" "data.start_data_call.rsp"
                 (call_request s) s)
  | User (Stop_Signal cb) => handled (set_deferred (defer (deferred_ s) (Stop_Signal cb)) s)
  | User (StartRsp_Signal rsp) => on_start_rsp rsp s
  | _ => super (st Active_St) s
  end.

(** The call is reported down by the modem. *)
Definition lost_call (d : json) (s : Session) : result :=
  c ← or_die (take_end_reason d (setStatus NET_NO_NET (call_ s)));
  goto Terminal_St (notifyListeners_ (set_call c s)).

Definition came_up (d : json) (c : DataCall) : option DataCall :=
  c ← adopt_ifname d (setStatus NET_CONNECTED c);
  c ← applyAddrInfo inet_pton d NET_CONNECTED c;
  restamp_bearer d c.

Definition up_ind (env : Envelope json) (s : Session) : result :=
  match data env with
  | None => handled s
  | Some d =>
      w ← or_die (value_string "status" "" d);
      match wireToCallStatus w with
      | NET_CONNECTED =>
          c ← or_die (came_up d (call_ s)); goto Connected_St (set_call c s)
      | NET_NO_NET => lost_call d s
      | _ => handled s
      end
  end.

Definition on_WaitingForUp (e : Event session_event) (s : Session) : result :=
  match e with
  | Entry_Signal => handled (recall_deferred (arm Bringup s))
  | Exit_Signal => handled (disarm Bringup s)
  | User (StateInd_Signal env) => up_ind env s
  | User BringupTimeout_Signal =>
      goto Terminal_St
        (notifyListeners_ (set_call (setStatus NET_NO_NET (setEndReason no_reason (call_ s))) s))
  | User (Stop_Signal cb) => goto SendingStopReq_St (set_stopCb cb s)
  | _ => super (st Active_St) s
  end.

(** A repeated CONNECTED: new bearer, and new addresses if they differ. *)
Definition refresh (d : json) (s : Session) : outcome Session :=
  c ← or_die (restamp_bearer d (call_ s));
  differ ← or_die (addrInfoDiffers c d);
  if differ : bool then
    c ← or_die (applyAddrInfo inet_pton d NET_CONNECTED c);
    Done (notifyListeners_ (set_call c s))
  else Done (set_call c s).

Definition readdress (status : DataCallStatus) (d : json) (s : Session) : outcome Session :=
  c ← or_die (applyAddrInfo inet_pton d status (setStatus status (call_ s)));
  Done (notifyListeners_ (set_call c s)).

Definition connected_ind (env : Envelope json) (s : Session) : result :=
  match data env with
  | None => handled s
  | Some d =>
      w ← or_die (value_string "status" "" d);
      match wireToCallStatus w with
      | NET_RECONFIGURED => s ← readdress NET_RECONFIGURED d s; handled s
      | NET_NEWADDR => s ← readdress NET_NEWADDR d s; handled s
      | NET_DELADDR => s ← readdress NET_DELADDR d s; handled s
      | NET_CONNECTED => s ← refresh d s; handled s
      | NET_NO_NET => lost_call d s
      | _ => handled s
      end
  end.

Definition on_Connected (e : Event session_event) (s : Session) : result :=
  match e with
  | Entry_Signal => handled (notifyListeners_ s)
  | User (StateInd_Signal env) => connected_ind env s
  | User (Stop_Signal cb) => goto SendingStopReq_St (set_stopCb cb s)
  | _ => super (st Active_St) s
  end.

Definition refused (rsp : option (Envelope json)) : bool :=
  match rsp with Some env => bool_decide (is_Some (error env)) | None => true end.

Definition on_SendingStopReq (e : Event session_event) (s : Session) : result :=
  match e with
  | Entry_Signal =>
      handled (send_rpc StopRpc "data.stop_data_call.req" "data.stop_data_call.rsp"
                 (call_request s) s)
  | User (StopRsp_Signal rsp) =>
      if refused rsp then goto Reconciling_St s
      else
        let s := set_status NET_DISCONNECTING s in
        goto WaitingForDown_St (call_stop (stopCb_ s) (Some (call_ s)) SUCCESS s)
  | _ => super (st Active_St) s
  end.

Definition down_ind (env : Envelope json) (s : Session) : result :=
  match data env with
  | None => handled s
  | Some d =>
      w ← or_die (value_string "status" "" d);
      match wireToCallStatus w with
      | NET_NO_NET => lost_call d s
      | _ => handled s
      end
  end.

Definition on_WaitingForDown (e : Event session_event) (s : Session) : result :=
  match e with
  | Entry_Signal => handled (arm Teardown s)
  | Exit_Signal => handled (disarm Teardown s)
  | User (StateInd_Signal env) => down_ind env s
  | User TeardownTimeout_Signal =>
      goto Terminal_St (notifyListeners_ (set_status NET_NO_NET s))
  | _ => super (st Active_St) s
  end.

(** The loop over the listed calls: is ours among those up?  It stops at the
    first match; the operands of [&&] are evaluated left to right. *)
Fixpoint still_up (pid : Z) (calls : list json) : option bool :=
  match calls with
  | [] => Some false
  | c :: calls' =>
      p ← value_int "profileId" (-1) c;
      if decide (p = pid) then
        w ← value_string "status" "" c;
        if decide (wireToCallStatus w = NET_CONNECTED) then Some true else still_up pid calls'
      else still_up pid calls'
  end.

Definition on_list_rsp (rsp : option (Envelope json)) (s : Session) : result :=
  if refused rsp then
    let s := set_status NET_NO_NET s in
    goto Terminal_St (notifyListeners_ (call_stop (stopCb_ s) None GENERIC_FAILURE s))
  else
    up ← or_die (match rsp ≫= data with
                 | Some d => match jfind "calls" d with
                             | Some l => still_up (profileId_ (call_ s)) (elements l)
                             | None => Some false
                             end
                 | None => Some false
                 end);
    if up : bool then
      let s := set_status NET_CONNECTED s in
      goto Connected_St (call_stop (stopCb_ s) None GENERIC_FAILURE s)
    else
      let s := set_status NET_NO_NET s in
      goto Terminal_St (notifyListeners_ (call_stop (stopCb_ s) (Some (call_ s)) SUCCESS s)).

Definition on_Reconciling (e : Event session_event) (s : Session) : result :=
  match e with
  | Entry_Signal =>
      handled (send_rpc ListRpc "data.list_data_call.req" "data.list_data_call.rsp"
                 (list_request s) s)
  | User (ListRsp_Signal rsp) => on_list_rsp rsp s
  | _ => super (st Active_St) s
  end.

Definition on_Terminal (e : Event session_event) (s : Session) : result :=
  match e with
  | Entry_Signal => handled (onFinished_ s)
  | _ => handled s
  end.

Definition handler (x : session_state) : Event session_event -> Session -> result :=
  match x with
  | Idle_St => on_Idle
  | Active_St => on_Active
  | SendingStartReq_St => on_SendingStartReq
  | WaitingForUp_St => on_WaitingForUp
  | Connected_St => on_Connected
  | SendingStopReq_St => on_SendingStopReq
  | WaitingForDown_St => on_WaitingForDown
  | Reconciling_St => on_Reconciling
  | Terminal_St => on_Terminal
  end.

(** ** Hierarchy *)

Definition parent (x : session_state) : option session_state :=
  match x with
  | Idle_St | Active_St | Terminal_St => None
  | _ => Some Active_St
  end.

Definition lineage (x : session_state) : list session_state := x :: option_list (parent x).

Definition swallow (x : session_state) : bool := bool_decide (x = Terminal_St).

(** Handlers of the modem's messages end in HANDLED or in a transition to one of
    a few states. *)
Definition ends_in (ts : list session_state) (r : result) : Prop :=
  match r with
  | Done (Handled, _) | Fail _ => True
  | Done (To (st t), _) => t ∈ ts
  | _ => False
  end.

Lemma ends_bind {A} ts (o : outcome A) (k : A -> result) :
  (forall a, ends_in ts (k a)) -> ends_in ts (o ≫= k).
Proof. intros Hk. destruct o; [apply Hk|exact I]. Qed.

Lemma ends_goto ts t s : t ∈ ts -> ends_in ts (goto t s).
Proof. done. Qed.

Ltac ends_tac :=
  repeat first [ apply ends_bind; intros ? | exact I | apply ends_goto; set_solver
               | progress case_decide | case_goal ].

Lemma lost_ends ts d s : Terminal_St ∈ ts -> ends_in ts (lost_call d s).
Proof. intros Ht. unfold lost_call. ends_tac. Qed.

Lemma start_rsp_ends rsp s : ends_in [Terminal_St; WaitingForUp_St] (on_start_rsp rsp s).
Proof. unfold on_start_rsp. ends_tac. Qed.

Lemma up_ind_ends env s : ends_in [Connected_St; Terminal_St] (up_ind env s).
Proof. unfold up_ind. ends_tac; apply lost_ends; set_solver. Qed.

Lemma connected_ind_ends env s : ends_in [Terminal_St] (connected_ind env s).
Proof. unfold connected_ind. ends_tac; apply lost_ends; set_solver. Qed.

Lemma down_ind_ends env s : ends_in [Terminal_St] (down_ind env s).
Proof. unfold down_ind. ends_tac; apply lost_ends; set_solver. Qed.

Lemma stop_rsp_ends rsp s :
  ends_in [Reconciling_St; WaitingForDown_St] (on_SendingStopReq (User (StopRsp_Signal rsp)) s).
Proof. simpl. ends_tac. Qed.

Lemma list_rsp_ends rsp s : ends_in [Terminal_St; Connected_St] (on_list_rsp rsp s).
Proof. unfold on_list_rsp. ends_tac. Qed.

Lemma ends_user ts r v s x :
  ends_in ts r -> swallow x = false -> r = Done (v, s) ->
  match v with
  | Handled | IgnoredV => True
  | Unhandled => swallow x = false
  | Super p => swallow x = false /\ p = up parent x
  | To t => swallow x = false /\ exists s', t = st s'
  end.
Proof. intros Hp Hx ->. destruct v as [| | |t|p]; try destruct t; simpl in Hp; naive_solver. Qed.

#[global] Instance wf_session : wf_chart handler parent lineage swallow.
Proof.
  constructor.
  - by intros [].
  - intros []; unfold lineage, kMaxNest; simpl; lia.
  - by intros [].
  - by intros [] ? [= <-].
  - by intros [] ?.
  - intros [] b v b'; simpl; intros [= <- _]; auto.
  - intros x e s v s'.
    destruct x, e; simpl; try (eapply ends_user; [|done]; first
      [ apply start_rsp_ends | apply up_ind_ends | apply connected_ind_ends
      | apply down_ind_ends | apply list_rsp_ends ]);
      try (destruct (refused rsp)); intros [= <- _]; simpl; eauto.
  - intros [] b t b'; simpl; by intros [=].
Qed.

(** ** The public interface *)

Definition AOSession : Type := AO session_state session_event Session.

Definition with_startCb (cb : option C) (s : Session) : Session :=
  mkSession (call_ s) cb (stopCb_ s) (up_timer s) (down_timer s) (deferred_ s) (outbox s) (log s).

Definition start (ndebug : bool) (cb : option C) (c : AOSession) : outcome AOSession :=
  let c := mkAO (set_self (with_startCb cb (self (hsm c))) (hsm c)) (q_ c) (running_ c) (worker_ c)
             (stopper c) (notifies c) (accepted c) (done c) in
  c ← start_at handler ndebug true (st Idle_St) c;
  Done (post_fifo Start_Signal c).

Definition requestStop (cb : option C) (c : AOSession) : AOSession := post_fifo (Stop_Signal cb) c.
Definition deliverStateInd (env : Envelope json) (c : AOSession) : AOSession :=
  post_fifo (StateInd_Signal env) c.

(** What the bridge's answer to a request and a firing TimeEvent post. *)
Definition deliver_reply (r : rpc) (rsp : option (Envelope json)) (c : AOSession) : AOSession :=
  post_fifo (reply_event r rsp) c.
Definition timer_fires (w : watchdog) (c : AOSession) : AOSession :=
  post_fifo (match w with Bringup => BringupTimeout_Signal | Teardown => TeardownTimeout_Signal end) c.
End Session.
