(* ===== verification/SessionProps.v ===== *)
(** * Correctness of the data call session

    [session_step] is the session as a transition table over its leaf states;
    [session_chart_step] shows that the state handlers run by the dispatcher
    compute it.  The theorems then follow a call through its life: which
    states it can be in, what its client and the listeners are told, that every
    accepted stop is answered once, and that the session always has a deadline
    that ends it. *)

From S2P Require Import Prelude Hsm HsmSpec HsmProps ActiveObject Defer Json Envelope Manager DataCall.
From S2P Require Import DataCallSession.

Local Open Scope Z_scope.

Section SessionSpec.
Context {json : Type} `{Json json, JsonValues json} {C : Type}.
Context (inet_pton : string -> option Z) (topic : string -> string).
Context (paId : string) (now_at counter_at : nat -> Z).

Local Notation Session := (Session (json := json) (C := C)).
Local Notation session_event := (session_event (json := json) (C := C)).
Local Notation result := (result (json := json) (C := C)).
Local Notation effect := (effect (json := json) (C := C)).
Local Notation handler := (handler inet_pton topic paId now_at counter_at (C := C)).

(** What entering and leaving a leaf does. *)
Definition enter (x : session_state) (s : Session) : Session :=
  match x with
  | SendingStartReq_St =>
      send_rpc topic paId now_at counter_at StartRpc "data.start_data_call.req"
        "data.start_data_call.rsp" (call_request s) s
  | WaitingForUp_St => recall_deferred (arm Bringup s)
  | Connected_St => notifyListeners_ s
  | SendingStopReq_St =>
      send_rpc topic paId now_at counter_at StopRpc "data.stop_data_call.req"
        "data.stop_data_call.rsp" (call_request s) s
  | WaitingForDown_St => arm Teardown s
  | Reconciling_St =>
      send_rpc topic paId now_at counter_at ListRpc "data.list_data_call.req"
        "data.list_data_call.rsp" (list_request s) s
  | Terminal_St => onFinished_ s
  | _ => s
  end.

Definition leave (x : session_state) (s : Session) : Session :=
  match x with
  | WaitingForUp_St => disarm Bringup s
  | WaitingForDown_St => disarm Teardown s
  | _ => s
  end.

Definition land (from : session_state) (r : result) : outcome (session_state * Session) :=
  match r with
  | Done (To (st t), s) => Done (t, enter t (leave from s))
  | Done (_, s) => Done (from, s)
  | Fail f => Fail f
  end.

Definition session_step (leaf : session_state) (e : session_event) (s : Session) :
    outcome (session_state * Session) :=
  match leaf, e with
  | Idle_St, Start_Signal => Done (SendingStartReq_St, enter SendingStartReq_St s)
  | SendingStartReq_St, Stop_Signal cb =>
      Done (leaf, set_deferred (defer (deferred_ s) (Stop_Signal cb)) s)
  | SendingStartReq_St, StartRsp_Signal rsp => land leaf (on_start_rsp rsp s)
  | WaitingForUp_St, StateInd_Signal env => land leaf (up_ind inet_pton env s)
  | WaitingForUp_St, BringupTimeout_Signal =>
      land leaf (goto Terminal_St (notifyListeners_
        (set_call (setStatus NET_NO_NET (setEndReason no_reason (call_ s))) s)))
  | (WaitingForUp_St | Connected_St), Stop_Signal cb =>
      land leaf (goto SendingStopReq_St (set_stopCb cb s))
  | Connected_St, StateInd_Signal env => land leaf (connected_ind inet_pton env s)
  | SendingStopReq_St, StopRsp_Signal rsp =>
      land leaf (on_SendingStopReq topic paId now_at counter_at (User (StopRsp_Signal rsp)) s)
  | WaitingForDown_St, StateInd_Signal env => land leaf (down_ind env s)
  | WaitingForDown_St, TeardownTimeout_Signal =>
      land leaf (goto Terminal_St (notifyListeners_ (set_status NET_NO_NET s)))
  | Reconciling_St, ListRsp_Signal rsp => land leaf (on_list_rsp rsp s)
  | (SendingStopReq_St | WaitingForDown_St | Reconciling_St), Stop_Signal cb =>
      Done (leaf, call_stop cb (Some (call_ s)) OP_IN_PROGRESS s)
  | _, _ => Done (leaf, s)
  end.

(** A transition between leaves under the dispatcher. *)
Lemma chart_land ts leaf e (s : Session) r :
  leaf <> Active_St -> leaf <> Terminal_St -> ends_in ts r ->
  handler leaf (User e) s = r -> leaf ∉ ts -> Active_St ∉ ts ->
  chart_step handler lineage leaf e s = land leaf r.
Proof.
  intros Ha Ht Hp Hr Hne Hna. unfold chart_step, offer.
  change (lineage leaf) with (leaf :: option_list (parent leaf)). cbv beta iota fix.
  rewrite Hr. destruct r as [[[| | |[| |t]|] s1]|f]; try done. simpl in Hp.
  assert (Hl : t <> leaf) by (by intros ->). assert (Hta : t <> Active_St) by (by intros ->).
  clear -Hl Hta Ha Ht. destruct leaf, t; try done; reflexivity.
Qed.

Lemma session_chart_step leaf e (s : Session) :
  leaf <> Active_St -> chart_step handler lineage leaf e s = session_step leaf e s.
Proof.
  intros Hl. destruct leaf, e; try done;
    try (eapply chart_land; [done|done| |reflexivity| |]; first
      [ apply start_rsp_ends | apply up_ind_ends | apply connected_ind_ends | apply down_ind_ends
      | apply stop_rsp_ends | apply list_rsp_ends | set_solver]).
  all: assumption.
Qed.

(** *** What the helpers do to the call *)

(** The constructor's arguments the session's requests name. *)
Definition ident (c : DataCall) : Z * Z * IpFamilyType * OperationType :=
  (profileId_ c, slotId_ c, ipFamilyType_ c, operationType_ c).

Definition same_call (c c' : DataCall) : Prop := ident c' = ident c /\ status_ c' = status_ c.

(** A call reported gone: the overall status, both families, no bearer. *)
Definition down_call (c : DataCall) : Prop :=
  status_ c = NET_NO_NET /\ family_status (ipv4_ c) = NET_NO_NET /\
  family_status (ipv6_ c) = NET_NO_NET /\ bearerTech_ c = BT_UNKNOWN.

Lemma adopt_same (d : json) c c' : adopt_ifname d c = Some c' -> same_call c c'.
Proof. unfold adopt_ifname. intros (n & _ & [= <-])%bind_Some. by case_decide. Qed.

Lemma restamp_same (d : json) c c' : restamp_bearer d c = Some c' -> same_call c c'.
Proof.
  unfold restamp_bearer. destruct (contains _ _); [|by intros [= <-]].
  by intros (n & _ & [= <-])%bind_Some.
Qed.

Lemma apply_same (d : json) st c c' : applyAddrInfo inet_pton d st c = Some c' -> same_call c c'.
Proof.
  unfold applyAddrInfo. intros (c1 & H4%apply_ipv4_spec & H6%apply_ipv6_spec)%bind_Some.
  destruct (jfind "ipv4" d); [destruct H4 as (? & ? & _ & _ & _ & ->)|subst c1];
    (destruct (jfind "ipv6" d); [destruct H6 as (? & _ & ->)|subst c']); done.
Qed.

Lemma end_reason_keeps (d : json) c c' :
  take_end_reason d c = Some c' -> c' = c \/ exists r, c' = setEndReason r c.
Proof.
  unfold take_end_reason. destruct (jfind _ _) as [r|]; [|intros [= <-]; by left].
  intros (r' & _ & [= <-])%bind_Some. eauto.
Qed.

Lemma setStatus_down c : down_call (setStatus NET_NO_NET c).
Proof. done. Qed.

Lemma came_up_call (d : json) c c' :
  came_up inet_pton d c = Some c' -> ident c' = ident c /\ status_ c' = NET_CONNECTED.
Proof.
  unfold came_up. intros (c1 & [H1 H2]%adopt_same & (c2 & [H3 H4]%apply_same &
    [H5 H6]%restamp_same)%bind_Some)%bind_Some. split.
  - by rewrite H5, H3, H1.
  - by rewrite H6, H4, H2.
Qed.

Lemma bind_done {A B} (o : outcome A) (k : A -> outcome B) b :
  o ≫= k = Done b -> exists a, o = Done a /\ k a = Done b.
Proof. destruct o as [a|]; simpl; [eauto|done]. Qed.

Lemma land_bind {A} from (o : outcome A)
    (k : A -> outcome (verdict session_state * Session)) x :
  land from (mbind (M := outcome) k o) = Done x -> exists a, o = Done a /\ land from (k a) = Done x.
Proof. destruct o as [a|]; simpl; [eauto|done]. Qed.

Lemma lost_lands from (d : json) (s : Session) leaf' s' :
  land from (lost_call d s) = Done (leaf', s') ->
  leaf' = Terminal_St /\ exists c, down_call c /\ ident c = ident (call_ s) /\
    s' = onFinished_ (leave from (notifyListeners_ (set_call c s))).
Proof.
  unfold lost_call. intros (c & Hc%or_die_done & [= <- <-])%land_bind. split; [done|].
  exists c. apply end_reason_keeps in Hc as [->|[r ->]]; done.
Qed.

Lemma refresh_lands (d : json) (s s' : Session) :
  refresh inet_pton d s = Done s' ->
  exists c l, same_call (call_ s) c /\ (l = [] \/ l = [c]) /\
    s' = emit (Notify <$> l) (set_call c s).
Proof.
  unfold refresh. intros (c & [H1 H2]%or_die_done%restamp_same & (b & _ & Hb)%bind_done)%bind_done.
  destruct b.
  - apply bind_done in Hb as (c' & [H3 H4]%or_die_done%apply_same & [= <-]).
    exists c', [c']. repeat split; try congruence. by right.
  - injection Hb as <-. exists c, []. repeat split; try done; [by left|].
    unfold emit, set_call. simpl. by rewrite app_nil_r.
Qed.

Lemma readdress_lands status (d : json) (s s' : Session) :
  readdress inet_pton status d s = Done s' ->
  exists c, ident c = ident (call_ s) /\ status_ c = status /\ s' = notifyListeners_ (set_call c s).
Proof.
  unfold readdress. intros (c & [H1 H2]%or_die_done%apply_same & [= <-])%bind_done. by exists c.
Qed.

(** *** What the log says about the call

    The answer to the client's start, the listener notifications, the reports
    to the manager, the requests sent. *)
Definition start_of (e : effect) : option (C * bool) :=
  match e with StartCb cb call _ => Some (cb, bool_decide (is_Some call)) | _ => None end.
Definition note_of (e : effect) : option DataCall :=
  match e with Notify c => Some c | _ => None end.
Definition finished_of (e : effect) : option Z :=
  match e with Finished p => Some p | _ => None end.

Definition starts (s : Session) : list (C * bool) := omap start_of (log s).
Definition notes (s : Session) : list DataCall := omap note_of (log s).
Definition finishes (s : Session) : list Z := omap finished_of (log s).

Definition up_status (st : DataCallStatus) : Prop :=
  st ∈ [NET_CONNECTED; NET_RECONFIGURED; NET_NEWADDR; NET_DELADDR].

Definition status_ok (leaf : session_state) (st : DataCallStatus) : Prop :=
  match leaf with
  | Idle_St | SendingStartReq_St => st = NET_IDLE
  | WaitingForUp_St => st = NET_CONNECTING
  | Connected_St => up_status st
  | SendingStopReq_St | Reconciling_St => st = NET_CONNECTING \/ up_status st
  | WaitingForDown_St => st = NET_DISCONNECTING
  | Terminal_St => st = NET_IDLE \/ st = NET_NO_NET
  | Active_St => False
  end.

Definition answered (ok : bool) (s : Session) : Prop :=
  starts s = (fun cb => (cb, ok)) <$> option_list (startCb_ s).

(** The call started, was lived and is over; or it never started. *)
Definition ended (s : Session) : Prop :=
  answered true s /\ down_call (call_ s) /\ finishes s = [profileId_ (call_ s)] /\
  exists l, notes s = l ++ [call_ s] /\ Forall (fun c => up_status (status_ c)) l.

Definition never_started (s : Session) : Prop :=
  answered false s /\ status_ (call_ s) = NET_IDLE /\ notes s = [] /\
  finishes s = [profileId_ (call_ s); profileId_ (call_ s)].

Definition told (leaf : session_state) (s : Session) : Prop :=
  match leaf with
  | Idle_St | SendingStartReq_St => starts s = [] /\ notes s = [] /\ finishes s = []
  | Terminal_St => ended s \/ never_started s
  | _ => answered true s /\ Forall (fun c => up_status (status_ c)) (notes s) /\ finishes s = []
  end.

(** The deadline the session waits for, and that it was set up. *)
Definition owed (leaf : session_state) (s : Session) : Prop :=
  match leaf with
  | SendingStartReq_St => last (rpcs_of (log s)) = Some StartRpc
  | SendingStopReq_St => last (rpcs_of (log s)) = Some StopRpc
  | Reconciling_St => last (rpcs_of (log s)) = Some ListRpc
  | _ => True
  end.

Definition is_stop (e : session_event) : Prop := exists cb, e = Stop_Signal cb.

Record session_inv (id : Z * Z * IpFamilyType * OperationType) (leaf : session_state)
    (s : Session) : Prop := {
  si_leaf : leaf <> Active_St;
  si_ident : ident (call_ s) = id;
  si_up : up_timer s = bool_decide (leaf = WaitingForUp_St);
  si_down : down_timer s = bool_decide (leaf = WaitingForDown_St);
  si_stops : Forall is_stop (deferred_ s);
  si_deferred : leaf ∉ [SendingStartReq_St; Terminal_St] -> deferred_ s = [];
  si_status : status_ok leaf (status_ (call_ s));
  si_told : told leaf s;
  si_owed : owed leaf s }.

(** *** Preservation *)

Lemma emit_nil (s : Session) : emit [] s = s.
Proof. destruct s. unfold emit. simpl. by rewrite app_nil_r. Qed.

Lemma call_start_eq call code (s : Session) :
  call_start call code s = emit ((fun cb => StartCb cb call code) <$> option_list (startCb_ s)) s.
Proof. unfold call_start. destruct (startCb_ s); simpl; [done|by rewrite emit_nil]. Qed.

Lemma call_stop_eq cb call code (s : Session) :
  call_stop cb call code s = emit ((fun cb => StopCb cb call code) <$> option_list cb) s.
Proof. unfold call_stop. destruct cb; simpl; [done|by rewrite emit_nil]. Qed.

Lemma omap_const {A B D} (f : B -> option D) (g : A -> B) (l : list A) (h : A -> D) :
  (forall a, f (g a) = Some (h a)) -> omap f (g <$> l) = h <$> l.
Proof. intros Hf. induction l as [|a l IH]; csimpl; [done|]. rewrite Hf. by f_equal. Qed.

Lemma omap_none {A B D} (f : B -> option D) (g : A -> B) (l : list A) :
  (forall a, f (g a) = None) -> omap f (g <$> l) = [].
Proof. intros Hf. induction l as [|a l IH]; csimpl; [done|]. by rewrite Hf. Qed.

Lemma omap_option_none {B D} (f : B -> option D) (g : C -> B) (o : option C) :
  (forall a, f (g a) = None) -> omap f (g <$> option_list o) = [].
Proof. apply omap_none. Qed.

Lemma send_rpc_eq r req schema payload (s : Session) :
  exists env, send_rpc topic paId now_at counter_at r req schema payload s =
    emit [Request r (topic req) schema env kRpcTimeout] s.
Proof. by eexists. Qed.

(** The log-derived fields after an extension of the log. *)
Ltac summarize :=
  simpl; unfold answered, starts, notes, finishes, rpcs_of in *; simpl;
  rewrite ?omap_app; simpl;
  rewrite ?(omap_option_none _ (fun cb => StopCb cb _ _)) by done;
  rewrite ?(omap_option_none note_of (fun cb => StartCb cb _ _)) by done;
  rewrite ?(omap_option_none finished_of (fun cb => StartCb cb _ _)) by done;
  rewrite ?app_nil_r.

Lemma step_idle id e (s s' : Session) leaf' :
  session_inv id Idle_St s -> session_step Idle_St e s = Done (leaf', s') ->
  session_inv id leaf' s'.
Proof.
  intros Hi. destruct e; intros [= <- <-]; try exact Hi.
  destruct Hi as [H1 H2 H3 H4 H5 H6 H7 (T1 & T2 & T3) H9].
  edestruct send_rpc_eq as [env ->].
  split; try done; summarize; rewrite ?T1, ?T2, ?T3, ?last_snoc; set_solver.
Qed.

Lemma start_rsp_lands rsp (s : Session) leaf' s' :
  land SendingStartReq_St (on_start_rsp rsp s) = Done (leaf', s') ->
  (leaf' = Terminal_St /\ exists code, s' = onFinished_ (start_failed code s)) \/
  (leaf' = WaitingForUp_St /\ exists c, ident c = ident (call_ s) /\ status_ c = NET_CONNECTING /\
     s' = recall_deferred (arm Bringup (call_start (Some c) SUCCESS (set_call c s)))).
Proof.
  unfold on_start_rsp. destruct rsp as [env|]; [destruct (error env) as [err|]|].
  - intros (w & _ & [= <- <-])%land_bind. left. eauto.
  - intros (c & Hc%or_die_done & [= <- <-])%land_bind. right. split; [done|]. exists c.
    destruct (data env) as [d|]; [apply adopt_same in Hc as [Hc1 Hc2]|injection Hc as <-]; done.
  - intros [= <- <-]. left. eauto.
Qed.

Lemma step_starting id e (s s' : Session) leaf' :
  session_inv id SendingStartReq_St s ->
  session_step SendingStartReq_St e s = Done (leaf', s') -> session_inv id leaf' s'.
Proof.
  intros Hi Hs. pose proof Hi as [H1 H2 H3 H4 H5 H6 H7 (T1 & T2 & T3) H9].
  destruct e; try (injection Hs as <- <-; exact Hi).
  - injection Hs as <- <-. split; try done; simpl; [|set_solver].
    apply Forall_app. split; [done|]. constructor; [by eexists|constructor].
  - cbn [session_step] in Hs.
    apply start_rsp_lands in Hs as [(-> & code & ->)|(-> & c & Hid & Hst & ->)];
      unfold start_failed; rewrite call_start_eq.
    + split; try done; [set_solver|simpl; by left|right]. unfold never_started. summarize.
      rewrite T1, T2, T3. repeat split; try done. by destruct (startCb_ s).
    + split; simpl; try done; [congruence|]. summarize.
      rewrite T1, T2, T3. repeat split; try constructor. by destruct (startCb_ s).
Qed.

(** Reporting the end of a started call. *)
Lemma inv_end id from c (s : Session) :
  session_inv id from s -> from ∈ [WaitingForUp_St; Connected_St; WaitingForDown_St] ->
  down_call c -> ident c = ident (call_ s) ->
  session_inv id Terminal_St (onFinished_ (leave from (notifyListeners_ (set_call c s)))).
Proof.
  intros [H1 H2 H3 H4 H5 H6 H7 H8 H9] Hfrom Hd Hid.
  assert (Hlog : log (onFinished_ (leave from (notifyListeners_ (set_call c s)))) =
    log s ++ [Notify c] ++
      match from with
      | WaitingForUp_St => [Disarm Bringup]
      | WaitingForDown_St => [Disarm Teardown]
      | _ => []
      end ++ [Finished (profileId_ c)]).
  { destruct from; simpl; by rewrite <- ?(assoc_L (++)). }
  assert (Hc : call_ (onFinished_ (leave from (notifyListeners_ (set_call c s)))) = c)
    by (by destruct from).
  assert (Hsc : startCb_ (onFinished_ (leave from (notifyListeners_ (set_call c s)))) = startCb_ s)
    by (by destruct from).
  assert (Ht : answered true s /\ Forall (fun c => up_status (status_ c)) (notes s) /\
    finishes s = []) by (destruct from; set_solver).
  destruct Ht as (T1 & T2 & T3).
  split; rewrite ?Hc; try done; [congruence|..].
  - destruct from; try done; by rewrite H3.
  - destruct from; try done; by rewrite H4.
  - by destruct from.
  - set_solver.
  - destruct Hd as [-> _]. by right.
  - left. unfold ended, answered, starts, notes, finishes. rewrite Hlog, Hc, Hsc, !omap_app.
    unfold answered, starts, notes, finishes in T1, T2, T3. rewrite T1, T3.
    repeat split; try (by apply Hd); try (destruct from; simpl; by rewrite ?app_nil_r).
    exists (omap note_of (log s)). split; [|done]. by destruct from.
Qed.

(** Entering Connected. *)
Lemma inv_connect id from c l (s : Session) :
  session_inv id from s -> from ∈ [WaitingForUp_St; Reconciling_St] ->
  ident c = ident (call_ s) -> up_status (status_ c) ->
  omap start_of l = [] -> omap note_of l = [] -> omap finished_of l = [] ->
  session_inv id Connected_St (enter Connected_St (leave from (emit l (set_call c s)))).
Proof.
  intros [H1 H2 H3 H4 H5 H6 H7 H8 H9] Hfrom Hid Hc L1 L2 L3.
  assert (Ht : answered true s /\ Forall (fun c => up_status (status_ c)) (notes s) /\
    finishes s = []) by (destruct from; set_solver).
  destruct Ht as (T1 & T2 & T3).
  assert (Hd : deferred_ s = []) by (apply H6; set_solver).
  split; try done; try (destruct from; try done; simpl; congruence).
  destruct from; try set_solver; summarize; rewrite L1, L2, L3, T1, T3, ?app_nil_r;
    (split; [done|]; split; [|done]);
    rewrite ?Forall_app, ?Forall_singleton, ?Forall_nil; auto.
Qed.

Lemma up_ind_lands env (s : Session) leaf' s' :
  land WaitingForUp_St (up_ind inet_pton env s) = Done (leaf', s') ->
  (leaf' = WaitingForUp_St /\ s' = s) \/
  (leaf' = Connected_St /\ exists c, ident c = ident (call_ s) /\ status_ c = NET_CONNECTED /\
     s' = enter Connected_St (leave WaitingForUp_St (emit [] (set_call c s)))) \/
  (leaf' = Terminal_St /\ exists c, down_call c /\ ident c = ident (call_ s) /\
     s' = onFinished_ (leave WaitingForUp_St (notifyListeners_ (set_call c s)))).
Proof.
  unfold up_ind. destruct (data env) as [d|]; [|intros [= <- <-]; by left].
  intros (w & _ & Hl)%land_bind.
  destruct (wireToCallStatus w); try (injection Hl as <- <-; by left).
  - apply land_bind in Hl as (c & [Hid Hst]%or_die_done%came_up_call & [= <- <-]).
    right; left. split; [done|]. exists c. by rewrite emit_nil.
  - apply lost_lands in Hl as [-> Hc]. by right; right.
Qed.

(** Taking a stop. *)
Lemma inv_stop id from cb (s : Session) :
  session_inv id from s -> from ∈ [WaitingForUp_St; Connected_St] ->
  session_inv id SendingStopReq_St (enter SendingStopReq_St (leave from (set_stopCb cb s))).
Proof.
  intros [H1 H2 H3 H4 H5 H6 H7 H8 H9] Hfrom. simpl.
  edestruct send_rpc_eq as [env ->].
  assert (Ht : answered true s /\ Forall (fun c => up_status (status_ c)) (notes s) /\
    finishes s = []) by (destruct from; set_solver).
  destruct Ht as (T1 & T2 & T3).
  assert (Hd : deferred_ s = []) by (apply H6; set_solver).
  destruct from; try set_solver; split; try done; try (simpl in *; by auto);
    summarize; rewrite ?app_nil_r, ?last_snoc; done.
Qed.

Lemma step_waiting_up id e (s s' : Session) leaf' :
  session_inv id WaitingForUp_St s ->
  session_step WaitingForUp_St e s = Done (leaf', s') -> session_inv id leaf' s'.
Proof.
  intros Hi Hs. destruct e; try (injection Hs as <- <-; exact Hi); cbn [session_step] in Hs.
  - injection Hs as <- <-. apply (inv_stop id WaitingForUp_St); [done|set_solver].
  - apply up_ind_lands in Hs as [[-> ->]|[(-> & c & Hid & Hst & ->)|(-> & c & Hd & Hid & ->)]].
    + done.
    + apply inv_connect; try done; [set_solver|]. rewrite Hst. unfold up_status. set_solver.
    + apply inv_end; [done|set_solver|done..].
  - injection Hs as <- <-. apply (inv_end id WaitingForUp_St); [done|set_solver|done..].
Qed.

Lemma connected_ind_lands env (s : Session) leaf' s' :
  land Connected_St (connected_ind inet_pton env s) = Done (leaf', s') ->
  (leaf' = Connected_St /\ exists c l, ident c = ident (call_ s) /\
     (status_ c = status_ (call_ s) \/ up_status (status_ c)) /\ (l = [] \/ l = [c]) /\
     s' = emit (Notify <$> l) (set_call c s)) \/
  (leaf' = Terminal_St /\ exists c, down_call c /\ ident c = ident (call_ s) /\
     s' = onFinished_ (leave Connected_St (notifyListeners_ (set_call c s)))).
Proof.
  assert (Hsame : exists c l, ident c = ident (call_ s) /\
    (status_ c = status_ (call_ s) \/ up_status (status_ c)) /\ (l = [] \/ l = [c]) /\
     s = emit (Notify <$> l) (set_call c s)).
  { exists (call_ s), []. repeat split; [by left|by left|]. destruct s. unfold emit, set_call.
    simpl. by rewrite app_nil_r. }
  unfold connected_ind. destruct (data env) as [d|]; [|intros [= <- <-]; by left].
  intros (w & _ & Hl)%land_bind.
  destruct (wireToCallStatus w); try (injection Hl as <- <-; by left).
  - apply land_bind in Hl as (s1 & (c & l & [Hid Hst] & Hl & ->)%refresh_lands & [= <- <-]).
    left. split; [done|]. exists c, l. auto.
  - apply lost_lands in Hl as [-> Hc]. by right.
  - apply land_bind in Hl as (s1 & (c & Hid & Hst & ->)%readdress_lands & [= <- <-]).
    left. split; [done|]. exists c, [c]. rewrite Hst. repeat split; auto; right; unfold up_status; set_solver.
  - apply land_bind in Hl as (s1 & (c & Hid & Hst & ->)%readdress_lands & [= <- <-]).
    left. split; [done|]. exists c, [c]. rewrite Hst. repeat split; auto; right; unfold up_status; set_solver.
  - apply land_bind in Hl as (s1 & (c & Hid & Hst & ->)%readdress_lands & [= <- <-]).
    left. split; [done|]. exists c, [c]. rewrite Hst. repeat split; auto; right; unfold up_status; set_solver.
Qed.

Lemma step_connected id e (s s' : Session) leaf' :
  session_inv id Connected_St s ->
  session_step Connected_St e s = Done (leaf', s') -> session_inv id leaf' s'.
Proof.
  intros Hi Hs. destruct e; try (injection Hs as <- <-; exact Hi); cbn [session_step] in Hs.
  - injection Hs as <- <-. apply (inv_stop id Connected_St); [done|set_solver].
  - apply connected_ind_lands in Hs as [(-> & c & l & Hid & Hst & Hl & ->)|(-> & c & Hd & Hid & ->)].
    + destruct Hi as [H1 H2 H3 H4 H5 H6 H7 (T1 & T2 & T3) H9].
      assert (Hup : up_status (status_ c)) by (destruct Hst as [->|]; done).
      split; try done; [simpl; congruence|].
      destruct Hl as [->| ->]; summarize; repeat split; try done.
      rewrite Forall_app, Forall_singleton. done.
    + apply inv_end; [done|set_solver|done..].
Qed.

(** The states in which a stop is under way. *)
Lemma inv_in_progress id leaf cb call code (s : Session) :
  leaf ∈ [SendingStopReq_St; WaitingForDown_St; Reconciling_St] ->
  session_inv id leaf s -> session_inv id leaf (call_stop cb call code s).
Proof.
  intros Hl [H1 H2 H3 H4 H5 H6 H7 H8 H9]. rewrite call_stop_eq.
  destruct leaf; try set_solver; destruct H8 as (T1 & T2 & T3); split; try done; summarize; auto.
Qed.

Lemma step_stopping id e (s s' : Session) leaf' :
  session_inv id SendingStopReq_St s ->
  session_step SendingStopReq_St e s = Done (leaf', s') -> session_inv id leaf' s'.
Proof.
  intros Hi Hs. pose proof Hi as [H1 H2 H3 H4 H5 H6 H7 (T1 & T2 & T3) H9].
  destruct e; try (injection Hs as <- <-; try exact Hi); [|cbn in Hs; destruct (refused rsp)].
  - apply inv_in_progress; [set_solver|done].
  - injection Hs as <- <-. edestruct send_rpc_eq as [env Heq]. unfold enter, leave. rewrite Heq.
    split; try done; summarize; rewrite ?last_snoc; auto. intros _. apply H6. set_solver.
  - injection Hs as <- <-. rewrite call_stop_eq.
    split; try done; summarize; auto. intros _. apply H6. set_solver.
Qed.

Lemma down_ind_lands env (s : Session) leaf' s' :
  land WaitingForDown_St (down_ind env s) = Done (leaf', s') ->
  (leaf' = WaitingForDown_St /\ s' = s) \/
  (leaf' = Terminal_St /\ exists c, down_call c /\ ident c = ident (call_ s) /\
     s' = onFinished_ (leave WaitingForDown_St (notifyListeners_ (set_call c s)))).
Proof.
  unfold down_ind. destruct (data env) as [d|]; [|intros [= <- <-]; by left].
  intros (w & _ & Hl)%land_bind.
  destruct (wireToCallStatus w); try (injection Hl as <- <-; by left).
  apply lost_lands in Hl as [-> Hc]. by right.
Qed.

Lemma step_waiting_down id e (s s' : Session) leaf' :
  session_inv id WaitingForDown_St s ->
  session_step WaitingForDown_St e s = Done (leaf', s') -> session_inv id leaf' s'.
Proof.
  intros Hi Hs. destruct e; try (injection Hs as <- <-; exact Hi); cbn [session_step] in Hs.
  - injection Hs as <- <-. apply inv_in_progress; [set_solver|done].
  - apply down_ind_lands in Hs as [[-> ->]|(-> & c & Hd & Hid & ->)]; [done|].
    apply inv_end; [done|set_solver|done..].
  - injection Hs as <- <-. apply (inv_end id WaitingForDown_St); [done|set_solver|done..].
Qed.

Lemma list_rsp_lands rsp (s : Session) leaf' s' :
  land Reconciling_St (on_list_rsp rsp s) = Done (leaf', s') ->
  (leaf' = Connected_St /\ exists c, ident c = ident (call_ s) /\ status_ c = NET_CONNECTED /\
     s' = notifyListeners_ (call_stop (stopCb_ s) None GENERIC_FAILURE (set_call c s))) \/
  (leaf' = Terminal_St /\ exists c call code, down_call c /\ ident c = ident (call_ s) /\
     code <> OP_IN_PROGRESS /\
     s' = onFinished_ (notifyListeners_ (call_stop (stopCb_ s) call code (set_call c s)))).
Proof.
  unfold on_list_rsp. destruct (refused rsp).
  - intros [= <- <-]. right. split; [done|].
    exists (setStatus NET_NO_NET (call_ s)), None, GENERIC_FAILURE. repeat split; discriminate.
  - intros ([|] & _ & [= <- <-])%land_bind.
    + left. split; [done|]. by exists (setStatus NET_CONNECTED (call_ s)).
    + right. split; [done|].
      exists (setStatus NET_NO_NET (call_ s)), (Some (setStatus NET_NO_NET (call_ s))), SUCCESS.
      repeat split; discriminate.
Qed.

Lemma step_reconciling id e (s s' : Session) leaf' :
  session_inv id Reconciling_St s ->
  session_step Reconciling_St e s = Done (leaf', s') -> session_inv id leaf' s'.
Proof.
  intros Hi Hs. destruct e; try (injection Hs as <- <-; exact Hi); cbn [session_step] in Hs.
  - injection Hs as <- <-. apply inv_in_progress; [set_solver|done].
  - apply list_rsp_lands in Hs as [(-> & c & Hid & Hst & ->)|(-> & c & call & code & Hd & Hid & _ & ->)];
      rewrite call_stop_eq; simpl.
    + apply (inv_connect id Reconciling_St); try done; [set_solver| | | |].
      * rewrite Hst. unfold up_status. set_solver.
      * by apply omap_option_none.
      * by apply omap_option_none.
      * by apply omap_option_none.
    + destruct Hi as [H1 H2 H3 H4 H5 H6 H7 (T1 & T2 & T3) H9].
      split; simpl; try done; [congruence|intros _; apply H6; set_solver| |].
      * destruct Hd as [-> _]. by right.
      * left. unfold ended. summarize. rewrite T1, T3. repeat split; try (by apply Hd).
        by exists (omap note_of (log s)).
Qed.

Lemma session_step_inv id leaf e (s s' : Session) leaf' :
  session_inv id leaf s -> session_step leaf e s = Done (leaf', s') -> session_inv id leaf' s'.
Proof.
  intros Hi. destruct leaf.
  - by apply step_idle.
  - by destruct (si_leaf _ _ _ Hi).
  - by apply step_starting.
  - by apply step_waiting_up.
  - by apply step_connected.
  - by apply step_stopping.
  - by apply step_waiting_down.
  - by apply step_reconciling.
  - destruct e; intros [= <- <-]; exact Hi.
Qed.

(** A session as its manager constructed it. *)
Definition fresh_session (s : Session) : Prop :=
  status_ (call_ s) = NET_IDLE /\ up_timer s = false /\ down_timer s = false /\
  deferred_ s = [] /\ log s = [].

Lemma fresh_session_inv (s : Session) :
  fresh_session s -> session_inv (ident (call_ s)) Idle_St s.
Proof.
  intros (H1 & H2 & H3 & H4 & H5). split; try done.
  - by rewrite H4.
  - simpl. unfold starts, notes, finishes. by rewrite H5.
Qed.

Lemma session_reach ndebug (h : Hsm session_state session_event Session)
    (c : AOSession (json := json) (C := C)) :
  state_ h = st Idle_St -> fresh_session (self h) ->
  rtc (steps handler ndebug outbox flush) (started h) c ->
  exists leaf, state_ (hsm c) = st leaf /\
    session_inv (ident (call_ (self h))) leaf (self (hsm c)).
Proof.
  intros Hst Hf Hr.
  eapply (reach_stable handler ndebug outbox flush parent lineage swallow
    (session_inv (ident (call_ (self h)))) (fun _ => True) Idle_St h c); try done.
  - intros leaf d [H1 H2 H3 H4 H5 H6 H7 H8 H9]. by split.
  - intros u leaf d leaf1 d1 _ Hi. rewrite session_chart_step by apply (si_leaf _ _ _ Hi).
    by apply session_step_inv.
  - by apply Forall_true.
  - by apply fresh_session_inv.
Qed.
End SessionSpec.
