(* ===== verification/SessionLife.v ===== *)
(** * The life of a data call: theorems

    The session is its transition table; its reachable states; what the client
    and the listeners are told; every accepted stop is answered once; the
    session cannot wait for ever. *)

From S2P Require Import Prelude Hsm HsmSpec HsmProps ActiveObject Defer Json Envelope Manager DataCall.
From S2P Require Import DataCallSession SessionProps.

Local Open Scope Z_scope.

Section SessionLife.
Context {json : Type} `{Json json, JsonValues json} {C : Type}.
Context (inet_pton : string -> option Z) (topic : string -> string).
Context (paId : string) (now_at counter_at : nat -> Z).

Local Notation Session := (Session (json := json) (C := C)).
Local Notation session_event := (session_event (json := json) (C := C)).
Local Notation effect := (effect (json := json) (C := C)).
Local Notation handler := (handler inet_pton topic paId now_at counter_at (C := C)).
Local Notation session_step := (session_step inet_pton topic paId now_at counter_at (C := C)).

(** C16: the session is its transition table. For every leaf state and event,
    running the state handlers of DataConnectionManager.cpp through the
    dispatcher gives the state and effects listed in [session_step]: the
    handler's own effects, then the exit action of the leaf left, then the entry
    action of the leaf entered; the composite parent only answers stops. *)
Theorem session_is_table (leaf : session_state) (e : session_event) (s : Session) :
  leaf <> Active_St -> chart_step handler lineage leaf e s = session_step leaf e s.
Proof. apply session_chart_step. Qed.

(** C17: the reachable states of a session. Under every interleaving of its
    worker with the threads that post to it, the session rests in a leaf state;
    the bring-up timer is armed exactly while it waits for the call to come up
    and the tear-down timer exactly while it waits for it to go down; only stops
    are ever deferred, and none is outside SendingStartReq and Terminal; the
    call's status agrees with the state, and the call keeps the identity it was
    constructed with. *)
Theorem session_reachable (ndebug : bool) (h : Hsm session_state session_event Session)
    (c : AOSession) :
  state_ h = st Idle_St -> fresh_session (self h) ->
  rtc (steps handler ndebug outbox flush) (started h) c ->
  exists leaf, state_ (hsm c) = st leaf /\ leaf <> Active_St /\
    up_timer (self (hsm c)) = bool_decide (leaf = WaitingForUp_St) /\
    down_timer (self (hsm c)) = bool_decide (leaf = WaitingForDown_St) /\
    Forall is_stop (deferred_ (self (hsm c))) /\
    (leaf ∉ [SendingStartReq_St; Terminal_St] -> deferred_ (self (hsm c)) = []) /\
    status_ok leaf (status_ (call_ (self (hsm c)))) /\
    ident (call_ (self (hsm c))) = ident (call_ (self h)).
Proof.
  intros Hst Hf Hr.
  destruct (session_reach inet_pton topic paId now_at counter_at ndebug h c Hst Hf Hr)
    as (leaf & Hl & []).
  by exists leaf.
Qed.


(** ** Stops *)

(** What becomes of a stop, by the state it arrives in. *)
Inductive fate := Dropped | PutOff | Accepted | Busy.

#[global] Instance fate_eq_dec : EqDecision fate.
Proof. solve_decision. Defined.

Definition fate_in (leaf : session_state) : fate :=
  match leaf with
  | SendingStartReq_St => PutOff
  | WaitingForUp_St | Connected_St => Accepted
  | SendingStopReq_St | WaitingForDown_St | Reconciling_St => Busy
  | Idle_St | Active_St | Terminal_St => Dropped
  end.

(** The callbacks of the stops that met a given fate in a run. *)
Definition met (f : fate) (leaf : session_state) (e : session_event) : list C :=
  match e with
  | Stop_Signal cb => if decide (fate_in leaf = f) then option_list cb else []
  | _ => []
  end.

Fixpoint stops_with (f : fate) (ps : list (post session_event)) (x : session_state * Session) :
    list C :=
  match ps with
  | [] => []
  | p :: ps' =>
      met f (fst x) (payload p) ++
      match session_step (fst x) (payload p) (snd x) with
      | Done (leaf, s) => stops_with f ps' (leaf, flush s)
      | Fail _ => []
      end
  end.

(** Stop callbacks called with the outcome of the stop, and with "in progress". *)
Definition final_of (e : effect) : option C :=
  match e with
  | StopCb cb _ code => if decide (code = OP_IN_PROGRESS) then None else Some cb
  | _ => None
  end.
Definition busy_of (e : effect) : option C :=
  match e with
  | StopCb cb _ code => if decide (code = OP_IN_PROGRESS) then Some cb else None
  | _ => None
  end.
Definition finals (s : Session) : list C := omap final_of (log s).
Definition busies (s : Session) : list C := omap busy_of (log s).

(** The stop whose outcome is not known yet. *)
Definition pending (leaf : session_state) (s : Session) : list C :=
  match leaf with
  | SendingStopReq_St | Reconciling_St => option_list (stopCb_ s)
  | _ => []
  end.

Definition balance (leaf : session_state) (s : Session) : list C * list C :=
  (finals s ++ pending leaf s, busies s).

Lemma option_list_id (o : option C) : (fun x => x) <$> option_list o = option_list o.
Proof. by destruct o. Qed.

(** Log extensions without stop answers. *)
Lemma balance_emit leaf l (s : Session) :
  omap final_of l = [] -> omap busy_of l = [] -> balance leaf (emit l s) = balance leaf s.
Proof.
  intros H1 H2. unfold balance, finals, busies, pending. simpl.
  by rewrite !omap_app, H1, H2, !app_nil_r.
Qed.

Lemma balance_call_start leaf call code (s : Session) :
  balance leaf (call_start call code s) = balance leaf s.
Proof. rewrite call_start_eq. apply balance_emit; by destruct (startCb_ s). Qed.

(** A final answer. *)
Lemma balance_final leaf leaf' call code (s : Session) :
  pending leaf s = option_list (stopCb_ s) -> pending leaf' s = [] -> code <> OP_IN_PROGRESS ->
  balance leaf' (call_stop (stopCb_ s) call code s) = balance leaf s.
Proof.
  intros Hp Hp' Hc. rewrite call_stop_eq.
  assert (Hp2 : pending leaf' (emit ((fun cb => StopCb cb call code) <$> option_list (stopCb_ s)) s)
    = []) by done.
  unfold balance. rewrite Hp2, Hp. unfold finals, busies. simpl. rewrite !omap_app.
  destruct (stopCb_ s); simpl; rewrite ?app_nil_r; [|done].
  rewrite decide_False, decide_False by done. by rewrite app_nil_r.
Qed.

Definition add_pair (x y : list C * list C) : list C * list C := (x.1 ++ y.1, x.2 ++ y.2).

Lemma balance_still leaf leaf' (s s' : Session) e :
  met Accepted leaf e = [] -> met Busy leaf e = [] -> balance leaf' s' = balance leaf s ->
  balance leaf' s' = add_pair (balance leaf s) (met Accepted leaf e, met Busy leaf e).
Proof.
  intros -> -> ->. unfold add_pair, balance. simpl. by rewrite !app_nil_r.
Qed.

Local Notation enter := (enter topic paId now_at counter_at (C := C)).

Lemma balance_enter leaf x (s : Session) : balance leaf (enter x s) = balance leaf s.
Proof.
  unfold balance, finals, busies, pending.
  destruct x; simpl; rewrite ?omap_app; simpl; by rewrite ?app_nil_r.
Qed.

Lemma balance_leave leaf x (s : Session) : balance leaf (leave x s) = balance leaf s.
Proof.
  unfold balance, finals, busies, pending.
  destruct x; simpl; rewrite ?omap_app; simpl; by rewrite ?app_nil_r.
Qed.

Lemma balance_notify leaf (s : Session) : balance leaf (notifyListeners_ s) = balance leaf s.
Proof. by apply balance_emit. Qed.

Lemma balance_call leaf c (s : Session) : balance leaf (set_call c s) = balance leaf s.
Proof. done. Qed.

Lemma balance_lost from c (s : Session) :
  pending from s = [] ->
  balance Terminal_St (onFinished_ (leave from (notifyListeners_ (set_call c s)))) = balance from s.
Proof.
  intros Hp. unfold onFinished_. rewrite balance_emit by done.
  rewrite balance_leave, balance_notify, balance_call. unfold balance. by rewrite Hp.
Qed.

(** Taking a stop, and answering "in progress". *)
Lemma balance_accept from cb (s : Session) :
  pending from s = [] ->
  balance SendingStopReq_St (enter SendingStopReq_St (leave from (set_stopCb cb s))) =
    add_pair (balance from s) (option_list cb, []).
Proof.
  intros Hp. rewrite balance_enter, balance_leave. unfold balance, add_pair. simpl.
  by rewrite Hp, !app_nil_r.
Qed.

Lemma balance_busy leaf cb call (s : Session) :
  balance leaf (call_stop cb call OP_IN_PROGRESS s) = add_pair (balance leaf s) ([], option_list cb).
Proof.
  rewrite call_stop_eq. unfold balance, add_pair, finals, busies, pending. simpl.
  rewrite !omap_app. destruct cb; simpl; by rewrite !app_nil_r.
Qed.

(** Every step but an accepted stop and one that finds another under way. *)
Ltac still :=
  apply balance_still; [done|done|];
  rewrite ?balance_enter, ?balance_leave, ?balance_notify, ?balance_call.

Lemma balance_step leaf e (s s' : Session) leaf' :
  leaf <> Active_St -> session_step leaf e s = Done (leaf', s') ->
  balance leaf' s' = add_pair (balance leaf s) (met Accepted leaf e, met Busy leaf e).
Proof.
  intros Ha Hs.
  destruct leaf; [| done | | | | | | |]; destruct e;
    try (injection Hs as <- <-; still; done); cbn [SessionProps.session_step] in Hs;
    try (injection Hs as <- <-; apply balance_busy);
    try (injection Hs as <- <-; by apply (balance_accept WaitingForUp_St));
    try (injection Hs as <- <-; by apply (balance_accept Connected_St)).
  - injection Hs as <- <-. apply balance_still; [done|done|].
    transitivity (balance SendingStartReq_St s); [apply (balance_enter _ SendingStartReq_St s)|done].
  - apply start_rsp_lands in Hs as [(-> & code & ->)|(-> & c & _ & _ & ->)]; still.
    + unfold start_failed, onFinished_. rewrite !balance_emit by done.
      transitivity (balance Terminal_St s); [apply balance_call_start|done].
    + transitivity (balance WaitingForUp_St (enter WaitingForUp_St
        (call_start (Some c) SUCCESS (set_call c s)))); [done|].
      by rewrite balance_enter, balance_call_start.
  - apply up_ind_lands in Hs as [[-> ->]|[(-> & c & _ & _ & ->)|(-> & c & _ & _ & ->)]];
      still; [done| |].
    + by rewrite balance_emit by done.
    + by apply balance_lost.
  - injection Hs as <- <-. still. by apply (balance_lost WaitingForUp_St).
  - apply connected_ind_lands in Hs as [(-> & c & l & _ & _ & Hl & ->)|(-> & c & _ & _ & ->)]; still.
    + rewrite balance_emit; [done| |]; by destruct Hl as [->| ->].
    + by apply balance_lost.
  - cbn in Hs. destruct (refused rsp); injection Hs as <- <-; still.
    + transitivity (balance Reconciling_St s); [apply (balance_enter _ Reconciling_St s)|done].
    + transitivity (balance WaitingForDown_St (call_stop (stopCb_ s)
        (Some (call_ (set_status NET_DISCONNECTING s))) SUCCESS (set_status NET_DISCONNECTING s))).
      * by apply (balance_enter _ WaitingForDown_St).
      * by apply (balance_final SendingStopReq_St WaitingForDown_St _ _ (set_status NET_DISCONNECTING s)).
  - apply down_ind_lands in Hs as [[-> ->]|(-> & c & _ & _ & ->)]; still; [done|].
    by apply balance_lost.
  - injection Hs as <- <-. still. by apply (balance_lost WaitingForDown_St).
  - apply list_rsp_lands in Hs as [(-> & c & _ & _ & ->)|(-> & c & call & code & _ & _ & Hc & ->)];
      still.
    + by apply (balance_final Reconciling_St Connected_St _ _ (set_call c s)).
    + unfold onFinished_. rewrite balance_emit by done. rewrite balance_notify.
      by apply (balance_final Reconciling_St Terminal_St _ _ (set_call c s)).
Qed.

Lemma flush_session_inv id leaf (s : Session) : session_inv id leaf s -> session_inv id leaf (flush s).
Proof. intros [H1 H2 H3 H4 H5 H6 H7 H8 H9]. by split. Qed.

Lemma balance_run id ps leaf (s : Session) leaf' s' :
  session_inv id leaf s ->
  chart_run handler flush lineage ps (leaf, s) = Done (leaf', s') ->
  balance leaf' s' =
    add_pair (balance leaf s) (stops_with Accepted ps (leaf, s), stops_with Busy ps (leaf, s)).
Proof.
  revert leaf s. induction ps as [|p ps IH]; intros leaf s Hi; simpl.
  - intros [= <- <-]. unfold add_pair, balance. simpl. by rewrite !app_nil_r.
  - rewrite session_chart_step by apply (si_leaf _ _ _ Hi).
    destruct (session_step leaf (payload p) s) as [[leaf1 s1]|f] eqn:Hs; [|done].
    cbn [mbind outcome_bind]. intros Hr.
    rewrite (IH leaf1 (flush s1)); [|by eapply flush_session_inv, session_step_inv|done].
    change (balance leaf1 (flush s1)) with (balance leaf1 s1).
    rewrite (balance_step leaf (payload p) s s1 leaf1) by (done || apply (si_leaf _ _ _ Hi)).
    unfold add_pair. simpl. by rewrite <- !(assoc_L (++)).
Qed.

(** C19: every accepted stop is answered once. Along any run of a session, the
    callbacks of the stops that arrived while the call was coming up or up are, in
    order, those called with the outcome of the stop and then the one whose outcome
    is being waited for, which there is only while the stop request or its
    verification is out; the callbacks of the stops that arrived while another was
    under way are, in order, those called with OP_IN_PROGRESS. A stop put off while
    the start request was out is posted again, in order, when the modem accepts
    the call; when it refuses, the deferred stops stay in the queue for ever. *)
Theorem stops_answered (s : Session) (ps : list (post session_event)) (leaf' : session_state)
    (s' : Session) :
  fresh_session s -> chart_run handler flush lineage ps (Idle_St, s) = Done (leaf', s') ->
  finals s' ++ pending leaf' s' = stops_with Accepted ps (Idle_St, s) /\
  busies s' = stops_with Busy ps (Idle_St, s) /\
  (forall rsp s1, leaf' = SendingStartReq_St ->
     session_step leaf' (StartRsp_Signal rsp) s' = Done (WaitingForUp_St, s1) ->
     outbox s1 = outbox s' ++ (Fifo <$> deferred_ s') /\ deferred_ s1 = []) /\
  (forall rsp s1, leaf' = SendingStartReq_St ->
     session_step leaf' (StartRsp_Signal rsp) s' = Done (Terminal_St, s1) ->
     outbox s1 = outbox s' /\ deferred_ s1 = deferred_ s').
Proof.
  intros Hf Hr. pose proof (balance_run _ ps Idle_St s leaf' s' (fresh_session_inv s Hf) Hr) as Hb.
  destruct Hf as (_ & _ & _ & _ & Hlog).
  unfold balance, add_pair, finals, busies in Hb. rewrite Hlog in Hb. injection Hb as Hb1 Hb2.
  split; [done|]. split; [done|].
  split; intros rsp s1 -> Hs; cbn [SessionProps.session_step] in Hs;
    apply start_rsp_lands in Hs as [(Hl & code & ->)|(Hl & c & _ & _ & ->)]; try done;
    unfold start_failed; by rewrite call_start_eq.
Qed.

(** ** Deadlines *)

(** What the session gets at the latest: the bridge answers every request,
    with nothing if need be, and an armed timer fires. *)
Definition deadline (leaf : session_state) : option session_event :=
  match leaf with
  | SendingStartReq_St => Some (StartRsp_Signal None)
  | WaitingForUp_St => Some BringupTimeout_Signal
  | SendingStopReq_St => Some (StopRsp_Signal None)
  | WaitingForDown_St => Some TeardownTimeout_Signal
  | Reconciling_St => Some (ListRsp_Signal None)
  | Idle_St | Active_St | Connected_St | Terminal_St => None
  end.

(** The request is out, or the timer armed. *)
Definition due (leaf : session_state) (s : Session) : Prop :=
  match leaf with
  | SendingStartReq_St => last (rpcs_of (log s)) = Some StartRpc
  | WaitingForUp_St => up_timer s = true
  | SendingStopReq_St => last (rpcs_of (log s)) = Some StopRpc
  | WaitingForDown_St => down_timer s = true
  | Reconciling_St => last (rpcs_of (log s)) = Some ListRpc
  | Idle_St | Active_St | Connected_St | Terminal_St => False
  end.

(** C20: a session cannot wait for ever. In every reachable state but Idle,
    Connected and Terminal the session has a deadline that is really set up (the
    last request it handed to the bridge is the one whose answer it waits for, or
    the timer of the state is armed), and when the deadline passes the session
    ends: at once, or, after an unanswered stop request, by asking the modem for
    its calls and then, if that goes unanswered too, at that second deadline. *)
Theorem session_ends (ndebug : bool) (h : Hsm session_state session_event Session)
    (c : AOSession) :
  state_ h = st Idle_St -> fresh_session (self h) ->
  rtc (steps handler ndebug outbox flush) (started h) c ->
  let s := self (hsm c) in
  exists leaf, state_ (hsm c) = st leaf /\
    (leaf ∉ [Idle_St; Connected_St; Terminal_St] ->
     due leaf s /\
     exists e leaf1 s1, deadline leaf = Some e /\
       chart_step handler lineage leaf e s = Done (leaf1, s1) /\
       (leaf1 = Terminal_St \/
        leaf = SendingStopReq_St /\ leaf1 = Reconciling_St /\ due leaf1 s1 /\
        exists e2 s2, deadline leaf1 = Some e2 /\
          chart_step handler lineage leaf1 e2 (flush s1) = Done (Terminal_St, s2))).
Proof.
  intros Hst Hf Hr s.
  destruct (session_reach inet_pton topic paId now_at counter_at ndebug h c Hst Hf Hr)
    as (leaf & Hl & Hi).
  exists leaf. split; [done|]. intros Hleaf.
  fold s in Hi. destruct Hi as [Ha _ Hup Hdown _ _ _ _ Ho].
  split; [destruct leaf; set_solver|].
  destruct leaf; try (clear -Hleaf; set_solver); try done;
    eexists _, _, _; (split; [reflexivity|]); rewrite session_chart_step by done;
    (split; [reflexivity|]); try (by left).
  right. repeat split; [|eexists _, _; split; [reflexivity|];
    by rewrite session_chart_step by done].
  simpl. unfold rpcs_of. rewrite omap_app. simpl. apply last_snoc.
Qed.
End SessionLife.

(** ** A concrete call *)

Module SessionDemo.
Notation Ev := (session_event (json := jval) (C := string)).
Notation Se := (Session (json := jval) (C := string)).

Definition topic_ (m : string) : string := "mp/req/" +:+ m.
Definition clock_ (n : nat) : Z := Z.of_nat n.
Definition boot : Se := with_startCb (Some "start") (new_session 1 1 IPV4V6 DATA_LOCAL "").
Definition obj : Hsm session_state Ev Se :=
  mkHsm (st Idle_St) (st Idle_St) false false [] false [] boot.
Definition demo_handler :=
  handler CallDemo.pton topic_ "pa-test-0001" clock_ clock_ (json := jval) (C := string).

Definition env (d : jval) : Envelope jval := mkEnvelope 1 "0000000a" 7 "mpss" None (Some d) None.
Definition refusal : Envelope jval :=
  mkEnvelope 1 "0000000a" 7 "mpss" None None (Some (JObject [("code", JString "NO_RESOURCES")])).
Definition ok_rsp : Envelope jval := env (JObject [("ifname", JString "rmnet0")]).
Definition down : jval := JObject [("status", JString "NO_NET")].

(** Up, stopped twice, down. *)
Definition life : list Ev :=
  [Start_Signal; StartRsp_Signal (Some ok_rsp); StateInd_Signal (env CallDemo.up);
   Stop_Signal (Some "stop1"); Stop_Signal (Some "stop2"); StopRsp_Signal (Some (env (JObject [])));
   StateInd_Signal (env down)].

Definition run (l : list Ev) : option (session_state * Se) :=
  match chart_run demo_handler flush lineage (Fifo <$> l) (Idle_St, boot) with
  | Done x => Some x
  | Fail _ => None
  end.

Definition after (l : list Ev) : session_state * Se := default (Terminal_St, boot) (run l).

(** The callbacks and notifications of the run. *)
Definition brief (e : effect (json := jval) (C := string)) : option (string * DataCallStatus * Z) :=
  match e with
  | StartCb cb (Some c) code | StopCb cb (Some c) code => Some (cb, status_ c, code)
  | StartCb cb None code | StopCb cb None code => Some (cb, INVALID, code)
  | Notify c => Some ("listeners", status_ c, 0)
  | _ => None
  end.

Example run_life :
  (fun x => (fst x, omap brief (log (snd x)))) <$> run life =
    Some (Terminal_St,
      [("start", NET_CONNECTING, SUCCESS); ("listeners", NET_CONNECTED, 0);
       ("stop2", NET_CONNECTED, OP_IN_PROGRESS); ("stop1", NET_DISCONNECTING, SUCCESS);
       ("listeners", NET_NO_NET, 0)]).
Proof. vm_compute. reflexivity. Qed.

(** The same under the active object, up to the stop request. *)
Definition schedule : list (action (E := Ev)) :=
  [APost (Fifo Start_Signal); AWait; ADispatch; APost (Fifo (StartRsp_Signal (Some ok_rsp)));
   AOwnPost; AWait; ADispatch; APost (Fifo (Stop_Signal (Some "stop1"))); AOwnPost; AWait; ADispatch].

Definition stopping : AOSession (json := jval) (C := string) :=
  default (started obj) (run_schedule demo_handler false outbox flush schedule (started obj)).

Lemma stopping_reach : rtc (steps demo_handler false outbox flush) (started obj) stopping.
Proof. apply (run_schedule_reach _ _ _ _ schedule). vm_compute. reflexivity. Qed.

Lemma boot_fresh : fresh_session boot.
Proof. by repeat split. Qed.
End SessionDemo.

Import SessionDemo.

Lemma session_is_table_witness :
  chart_step demo_handler lineage Connected_St (Stop_Signal (Some "s")) boot =
    SessionProps.session_step CallDemo.pton topic_ "pa-test-0001" clock_ clock_ Connected_St
      (Stop_Signal (Some "s")) boot.
Proof. apply session_is_table. discriminate. Defined.

Lemma session_reachable_witness :
  exists leaf, state_ (hsm stopping) = st leaf /\ leaf <> Active_St /\
    up_timer (self (hsm stopping)) = bool_decide (leaf = WaitingForUp_St) /\
    down_timer (self (hsm stopping)) = bool_decide (leaf = WaitingForDown_St) /\
    Forall is_stop (deferred_ (self (hsm stopping))) /\
    (leaf ∉ [SendingStartReq_St; Terminal_St] -> deferred_ (self (hsm stopping)) = []) /\
    status_ok leaf (status_ (call_ (self (hsm stopping)))) /\
    ident (call_ (self (hsm stopping))) = ident (call_ (self obj)).
Proof.
  apply (session_reachable CallDemo.pton topic_ "pa-test-0001" clock_ clock_ false obj);
    [reflexivity|apply boot_fresh|apply stopping_reach].
Defined.


Lemma stops_answered_witness :
  let s' := snd (after life) in
  finals s' ++ pending Terminal_St s' =
    stops_with CallDemo.pton topic_ "pa-test-0001" clock_ clock_ Accepted (Fifo <$> life)
      (Idle_St, boot) /\
  busies s' =
    stops_with CallDemo.pton topic_ "pa-test-0001" clock_ clock_ Busy (Fifo <$> life)
      (Idle_St, boot).
Proof.
  destruct (stops_answered CallDemo.pton topic_ "pa-test-0001" clock_ clock_ boot (Fifo <$> life)
    Terminal_St (snd (after life))) as (H1 & H2 & _);
    [apply boot_fresh|vm_compute; reflexivity|].
  split; [exact H1|exact H2].
Defined.

Lemma session_ends_witness :
  let s := self (hsm stopping) in
  exists leaf, state_ (hsm stopping) = st leaf /\
    (leaf ∉ [Idle_St; Connected_St; Terminal_St] ->
     due leaf s /\
     exists e leaf1 s1, deadline leaf = Some e /\
       chart_step demo_handler lineage leaf e s = Done (leaf1, s1) /\
       (leaf1 = Terminal_St \/
        leaf = SendingStopReq_St /\ leaf1 = Reconciling_St /\ due leaf1 s1 /\
        exists e2 s2, deadline leaf1 = Some e2 /\
          chart_step demo_handler lineage leaf1 e2 (flush s1) = Done (Terminal_St, s2))).
Proof.
  apply (session_ends CallDemo.pton topic_ "pa-test-0001" clock_ clock_ false obj);
    [reflexivity|apply boot_fresh|apply stopping_reach].
Defined.

(** When the modem refuses the call, a stop put off meanwhile is never answered,
    and the manager is told twice that the session finished. *)
Example refused_start_loses_stop :
  let '(leaf, s) := after [Start_Signal; Stop_Signal (Some "stop1"); StartRsp_Signal (Some refusal)] in
  leaf = Terminal_St /\ deferred_ s = [Stop_Signal (Some "stop1")] /\
  finals s = [] /\ busies s = [] /\ finishes s = [1; 1] /\
  omap brief (log s) = [("start", INVALID, NO_RESOURCES)].
Proof. vm_compute. repeat split. Qed.
