(* ===== verification/DataConnection.v ===== *)
(** * The data connection manager (data/DataConnectionManager.cpp, SimulaDataConnectionManager)

    One active object per SIM slot: it tracks whether the modem's data service
    is ready, owns the sessions of the calls this process started, one per
    profile, hands each indication of the modem to the session it is about, and
    relays the other requests and indications.

    A session is another active object; it is named by the number of its
    creation, and what the manager does to it is recorded in [log] together with
    everything else the manager does to others.  The call of a session and the
    lifetime of a listener change under other threads: what the manager sees of
    them comes from functions of the number of looks taken so far.  The order of
    iteration of [std::unordered_map] is a parameter. *)

From S2P Require Import Prelude Hsm HsmSpec ActiveObject Json Envelope InitGate Manager DataCall.

Local Open Scope Z_scope.

(** ** Listeners

    [listeners_]: weak listeners with their indication bits. *)

Definition DEFAULT_BIT : Z := 0.
Definition THROUGHPUT_BIT : Z := 1.

Section Listeners.
Context {L : Type} `{EqDecision L}.

Definition Listeners : Type := list (L * Z).

Definition registerListener (l : L) (bits : Z) (ls : Listeners) : Listeners := ls ++ [(l, bits)].

(** [alive l]: [weak.lock()] succeeds; two locked pointers are the same object
    when the listeners are equal. *)
Fixpoint deregisterListener (alive : L -> bool) (l : L) (bits : Z) (ls : Listeners) : Listeners :=
  match ls with
  | [] => []
  | (x, b) :: ls' =>
      let rest := deregisterListener alive l bits ls' in
      if negb (alive x) || (alive l && bool_decide (x = l)) then
        let b' := Z.ldiff b bits in
        if negb (alive x) || bool_decide (b' = 0) then rest else (x, b') :: rest
      else (x, b) :: rest
  end.

(** The task [broadcastToListeners_] builds. *)
Definition recipients (alive : L -> bool) (bit : Z) (ls : Listeners) : list L :=
  fst <$> filter (fun p => Z.testbit (snd p) bit = true /\ alive (fst p) = true) ls.
End Listeners.

Arguments Listeners : clear implicits.

(** ** The manager *)

Record DataCallParams := mkParams {
  dp_profileId : Z;
  dp_interfaceName : string;
  dp_ipFamilyType : IpFamilyType;
  dp_operationType : OperationType }.

Section Manager.
Context {json : Type} `{Json json, JsonValues json}.
(** Clients' callbacks, listeners, promises. *)
Context {C L P : Type}.
Context (topic : string -> string) (paId : string) (now_at counter_at : nat -> Z).
(** The call of a session, and the life of a listener, at the [n]-th look. *)
Context (call_at : nat -> nat -> DataCall) (alive_at : nat -> L -> bool).
Context (items : gmap Z nat -> list (Z * nat)).

Inductive manager_event :=
  | ReadinessEvt_Signal (env : Envelope json)
  | BridgeConnectivityChanged_Signal (operational : bool)
  | StartDataCall_Signal (params : DataCallParams) (cb : option C)
  | StopDataCall_Signal (params : DataCallParams) (cb : option C)
  | RequestDataCallList_Signal (op : OperationType) (cb : option C)
  | SessionFinished_Signal (profileId : Z)
  | GetDefaultProfile_Signal (op : OperationType) (cb : option C)
  | SetDefaultProfile_Signal (op : OperationType) (profileId : Z) (cb : option C)
  | RequestThrottledApnInfo_Signal (cb : option C)
  | SetThroughputInterval_Signal (interval : Z) (result : P)
  | GetLastThroughputInfo_Signal (result : P)
  | ThroughputInfoEvt_Signal (env : Envelope json)
  | QosStatusEvt_Signal (env : Envelope json)
  | HwAccelEvt_Signal (env : Envelope json)
  | ThrottleStatusEvt_Signal (env : Envelope json)
  | StateInd_Signal (env : Envelope json).

(** What listeners are told; a call is named by its session. *)
Inductive notification :=
  | DataCallInfoChanged (session : nat)
  | ServiceStatusChange (s : ServiceStatus)
  | ThroughputInfoAvailable (infos : list ThroughputInfo)
  | HwAccelerationChanged (active : bool)
  | ThrottledApnInfoChanged (l : list APNThrottleInfo)
  | TrafficFlowTemplateChange (session : nat) (tft : TrafficFlowTemplate).

(** The function given to [send_request], by what it captures; the requests of
    one throttle query share a counter and a result list, named by the number of
    requests the manager had sent before. *)
Inductive manager_rpc :=
  | GetDefaultRpc (cb : option C)
  | SetDefaultRpc (cb : option C)
  | ThrottleRpc (batch : nat) (cb : option C)
  | SetIntervalRpc (result : P)
  | LastThroughputRpc (result : P).

Inductive manager_effect :=
  | Request (r : manager_rpc) (topic schema : string) (env : Envelope json) (timeout : Z)
  | NewSession (id : nat) (params : DataCallParams) (slot : Z) (startCb : option C)
  | StopSession (id : nat) (cb : option C)
  | SessionInd (id : nat) (env : Envelope json)
  | CallCb (cb : C) (session : option nat) (code : Z)
  | ListCb (cb : C) (sessions : list nat) (code : Z)
  | ThrottleCb (cb : C) (infos : list APNThrottleInfo) (code : Z)
  | SetValue (result : P) (code : Z)
  | Enqueue (listeners : list L) (n : notification).

Inductive manager_state := Operating_St | NotReady_St | Ready_St.

#[global] Instance manager_state_eq_dec : EqDecision manager_state.
Proof. solve_decision. Defined.

(** The members; [created] counts the sessions made, [looks] the looks taken at
    shared objects. *)
Record Manager := mkManager {
  slotId_m : Z;
  init_gate_ : Gate C;
  last_status_ : ServiceStatus;
  active_sessions_ : gmap Z nat;
  listeners_ : Listeners L;
  created : nat;
  looks : nat;
  log : list manager_effect }.

Definition set_gate g (m : Manager) := mkManager (slotId_m m) g (last_status_ m)
  (active_sessions_ m) (listeners_ m) (created m) (looks m) (log m).
Definition publishStatus_ s (m : Manager) := mkManager (slotId_m m) (init_gate_ m) s
  (active_sessions_ m) (listeners_ m) (created m) (looks m) (log m).
Definition set_sessions a n (m : Manager) := mkManager (slotId_m m) (init_gate_ m)
  (last_status_ m) a (listeners_ m) n (looks m) (log m).
Definition set_listeners ls (m : Manager) := mkManager (slotId_m m) (init_gate_ m)
  (last_status_ m) (active_sessions_ m) ls (created m) (looks m) (log m).
Definition look (m : Manager) := mkManager (slotId_m m) (init_gate_ m) (last_status_ m)
  (active_sessions_ m) (listeners_ m) (created m) (S (looks m)) (log m).
Definition emit l (m : Manager) := mkManager (slotId_m m) (init_gate_ m) (last_status_ m)
  (active_sessions_ m) (listeners_ m) (created m) (looks m) (log m ++ l).

(** No handler of the manager posts to the manager itself. *)
Definition outbox (m : Manager) : list (post manager_event) := [].
Definition flush (m : Manager) : Manager := m.

Definition new_manager (slot : Z) (initCb : option C) : Manager :=
  mkManager slot (new_gate initCb) SERVICE_UNAVAILABLE ∅ [] 0 0 [].

(** ** Helpers *)

Definition broadcastToListeners_ (bit : Z) (n : notification) (m : Manager) : Manager :=
  let ls := recipients (alive_at (looks m)) bit (listeners_ m) in
  if decide (ls = []) then look m else emit [Enqueue ls n] (look m).

Definition broadcastDataCallInfoChanged (session : nat) : Manager -> Manager :=
  broadcastToListeners_ DEFAULT_BIT (DataCallInfoChanged session).

Definition call_cb (cb : option C) (session : option nat) (code : Z) (m : Manager) : Manager :=
  match cb with Some c => emit [CallCb c session code] m | None => m end.

Definition requests_sent (m : Manager) : nat :=
  length (omap (fun e => match e with Request r _ _ _ _ => Some r | _ => None end) (log m)).

Definition send_rpc (r : manager_rpc) (req schema : string) (payload : json) (m : Manager) : Manager :=
  let n := requests_sent m in
  let env := fst (makeRequestEnvelope (now_at n) (counter_at n) paId payload) in
  emit [Request r (topic req) schema env kRpcTimeout] m.

(** ** Requests *)

Definition start_call (p : DataCallParams) (cb : option C) (m : Manager) : Manager :=
  match active_sessions_ m !! dp_profileId p with
  | Some id =>
      if decide (status_ (call_at (looks m) id) = NET_CONNECTED)
      then call_cb cb (Some id) SUCCESS (look m)
      else call_cb cb None OP_IN_PROGRESS (look m)
  | None =>
      let id := created m in
      emit [NewSession id p (slotId_m m) cb]
        (set_sessions (<[dp_profileId p := id]> (active_sessions_ m)) (S id) m)
  end.

Definition stop_call (p : DataCallParams) (cb : option C) (m : Manager) : Manager :=
  match active_sessions_ m !! dp_profileId p with
  | None => call_cb cb None INVALID_STATE m
  | Some id => emit [StopSession id cb] m
  end.

Definition list_calls (op : OperationType) (cb : option C) (m : Manager) : Manager :=
  let out := filter (fun id => operationType_ (call_at (looks m) id) = op)
               (snd <$> items (active_sessions_ m)) in
  match cb with Some c => emit [ListCb c out SUCCESS] (look m) | None => look m end.

Definition get_default_profile (op : OperationType) (cb : option C) (m : Manager) : Manager :=
  let d := jset "slot" (of_int (slotId_m m)) jobject in
  let d := jset "opType" (of_string (opTypeToWire op)) d in
  send_rpc (GetDefaultRpc cb) "data.get_default_profile.req" "data.get_default_profile.rsp" d m.

Definition set_default_profile (op : OperationType) (pid : Z) (cb : option C) (m : Manager) : Manager :=
  let d := jset "slot" (of_int (slotId_m m)) jobject in
  let d := jset "opType" (of_string (opTypeToWire op)) d in
  let d := jset "profileId" (of_int pid) d in
  send_rpc (SetDefaultRpc cb) "data.set_default_profile.req" "data.set_default_profile.rsp" d m.

Definition request_throttled (cb : option C) (m : Manager) : Manager :=
  let pids := fst <$> items (active_sessions_ m) in
  match pids with
  | [] => match cb with Some c => emit [ThrottleCb c [] SUCCESS] m | None => m end
  | _ =>
      let batch := requests_sent m in
      foldl (fun m pid =>
               send_rpc (ThrottleRpc batch cb) "data.request_throttle_status.req"
                 "data.request_throttle_status.rsp" (jset "profileId" (of_int pid) jobject) m)
        m pids
  end.

(** [static_cast<int>] of a [uint32_t]. *)
Definition set_interval (interval : Z) (result : P) (m : Manager) : Manager :=
  send_rpc (SetIntervalRpc result) "data.set_throughput_interval.req"
    "data.set_throughput_interval.rsp" (jset "intervalMs" (of_int (wrap 32 interval)) jobject) m.

Definition last_throughput (result : P) (m : Manager) : Manager :=
  send_rpc (LastThroughputRpc result) "data.request_throughput_info.req"
    "data.request_throughput_info.rsp" jobject m.

(** ** Indications *)

Definition deliver_state (d : json) (env : Envelope json) (m : Manager) : outcome Manager :=
  pid ← or_die (value_int "profileId" (-1) d);
  Done (match active_sessions_ m !! pid with
        | Some id => emit [SessionInd id env] m
        | None => m
        end).

Definition deliver_throughput (d : json) (m : Manager) : outcome Manager :=
  infos ← or_die (value_json "infos" jarray d);
  l ← or_die (decodeThroughputInfos infos);
  Done (broadcastToListeners_ THROUGHPUT_BIT (ThroughputInfoAvailable l) m).

Definition deliver_hw_accel (d : json) (m : Manager) : outcome Manager :=
  s ← or_die (value_string "state" "" d);
  Done (broadcastToListeners_ DEFAULT_BIT (HwAccelerationChanged (bool_decide (s = "ACTIVE"))) m).

Definition deliver_throttle (d : json) (m : Manager) : outcome Manager :=
  t ← or_die (decodeThrottleInfo d);
  Done (broadcastToListeners_ DEFAULT_BIT (ThrottledApnInfoChanged [t]) m).

Definition deliver_qos (d : json) (m : Manager) : outcome Manager :=
  pid ← or_die (value_int "profileId" (-1) d);
  match active_sessions_ m !! pid with
  | None => Done m
  | Some id =>
      t ← or_die (decodeTrafficFlowTemplate d);
      Done (broadcastToListeners_ DEFAULT_BIT (TrafficFlowTemplateChange id t) m)
  end.

(** ** State handlers *)

Definition result : Type := outcome (verdict manager_state * Manager).
Definition handled (m : Manager) : result := Done (Handled, m).
Definition goto (t : manager_state) (m : Manager) : result := Done (To (st t), m).
Definition super (p : StateFn manager_state) (m : Manager) : result := Done (Super p, m).

Definition on_Operating (e : Event manager_event) (m : Manager) : result :=
  match e with
  | Entry_Signal | Exit_Signal => handled m
  | User (SessionFinished_Signal pid) =>
      handled (set_sessions (delete pid (active_sessions_ m)) (created m) m)
  | _ => super top m
  end.

Definition on_NotReady (e : Event manager_event) (m : Manager) : result :=
  match e with
  | Entry_Signal | Exit_Signal => handled m
  | User (ReadinessEvt_Signal env) =>
      match data env with
      | None => handled m
      | Some d =>
          s ← or_die (value_string "status" "" d);
          if decide (s = "AVAILABLE") then goto Ready_St m else handled m
      end
  | User (BridgeConnectivityChanged_Signal _) => handled m
  | User (StartDataCall_Signal _ _) | User (StopDataCall_Signal _ _)
  | User (RequestDataCallList_Signal _ _) | User (GetDefaultProfile_Signal _ _)
  | User (SetDefaultProfile_Signal _ _ _) | User (RequestThrottledApnInfo_Signal _) => handled m
  | User (SetThroughputInterval_Signal _ r) | User (GetLastThroughputInfo_Signal r) =>
      handled (emit [SetValue r SUBSYSTEM_UNAVAILABLE] m)
  | User (SessionFinished_Signal _) => Done (Unhandled, m)
  | _ => super (st Operating_St) m
  end.

(** Entering Ready: the init callbacks the first time, the listeners later. *)
Definition ready_entry (m : Manager) : Manager :=
  let m := publishStatus_ SERVICE_AVAILABLE m in
  let '(first, g) := markReadyAndFire SERVICE_AVAILABLE (init_gate_ m) in
  let m := set_gate g m in
  if first then m
  else broadcastToListeners_ DEFAULT_BIT (ServiceStatusChange SERVICE_AVAILABLE) m.

(** A message without data is ignored. *)
Definition with_data (env : Envelope json) (f : json -> Manager -> outcome Manager) (m : Manager) :
    result :=
  match data env with
  | None => handled m
  | Some d => m ← f d m; handled m
  end.

Definition on_Ready (e : Event manager_event) (m : Manager) : result :=
  match e with
  | Entry_Signal => handled (ready_entry m)
  | Exit_Signal =>
      handled (broadcastToListeners_ DEFAULT_BIT (ServiceStatusChange SERVICE_UNAVAILABLE) m)
  | User (ReadinessEvt_Signal env) =>
      match data env with
      | None => handled m
      | Some d =>
          s ← or_die (value_string "status" "" d);
          if decide (s = "UNAVAILABLE") then
            goto NotReady_St (publishStatus_ SERVICE_UNAVAILABLE m)
          else if decide (s = "FAILED") then goto NotReady_St (publishStatus_ SERVICE_FAILED m)
          else handled m
      end
  | User (BridgeConnectivityChanged_Signal operational) =>
      if negb operational then goto NotReady_St (publishStatus_ SERVICE_UNAVAILABLE m)
      else handled m
  | User (StartDataCall_Signal p cb) => handled (start_call p cb m)
  | User (StopDataCall_Signal p cb) => handled (stop_call p cb m)
  | User (StateInd_Signal env) => with_data env (fun d => deliver_state d env) m
  | User (SessionFinished_Signal _) => Done (Unhandled, m)
  | User (RequestDataCallList_Signal op cb) => handled (list_calls op cb m)
  | User (GetDefaultProfile_Signal op cb) => handled (get_default_profile op cb m)
  | User (SetDefaultProfile_Signal op pid cb) => handled (set_default_profile op pid cb m)
  | User (RequestThrottledApnInfo_Signal cb) => handled (request_throttled cb m)
  | User (SetThroughputInterval_Signal i r) => handled (set_interval i r m)
  | User (GetLastThroughputInfo_Signal r) => handled (last_throughput r m)
  | User (ThroughputInfoEvt_Signal env) => with_data env deliver_throughput m
  | User (HwAccelEvt_Signal env) => with_data env deliver_hw_accel m
  | User (ThrottleStatusEvt_Signal env) => with_data env deliver_throttle m
  | User (QosStatusEvt_Signal env) => with_data env deliver_qos m
  | _ => super (st Operating_St) m
  end.

Definition handler (x : manager_state) : Event manager_event -> Manager -> result :=
  match x with
  | Operating_St => on_Operating
  | NotReady_St => on_NotReady
  | Ready_St => on_Ready
  end.

Definition parent (x : manager_state) : option manager_state :=
  match x with Operating_St => None | _ => Some Operating_St end.
Definition lineage (x : manager_state) : list manager_state := x :: option_list (parent x).
Definition swallow (x : manager_state) : bool := false.

Lemma with_data_verdict env f (m m' : Manager) v :
  with_data env f m = Done (v, m') -> v = Handled.
Proof.
  unfold with_data. destruct (data env) as [d|]; [|by intros [= <- _]].
  destruct (f d m) as [m1|]; simpl; [|done]. by intros [= <- _].
Qed.

#[global] Instance wf_manager : wf_chart handler parent lineage swallow.
Proof.
  constructor.
  - by intros [].
  - intros []; unfold lineage, kMaxNest; simpl; lia.
  - by intros [].
  - by intros [].
  - by intros [] ?.
  - intros [] b v b'; simpl; intros [= <- _]; auto.
  - intros [] e m v m'.
    + destruct e; simpl; intros [= <- _]; simpl; eauto.
    + destruct e; simpl; try (intros [= <- _]; simpl; by eauto).
      destruct (data env) as [d|]; [|by intros [= <- _]].
      destruct (value_string _ _ _); simpl; [|done]. case_decide; intros [= <- _]; eauto.
    + destruct e; try (by intros ->%with_data_verdict); simpl;
        try (intros [= <- _]; simpl; by eauto).
      * destruct (data env) as [d|]; [|by intros [= <- _]].
        destruct (value_string _ _ _); simpl; [|done].
        repeat case_decide; intros [= <- _]; eauto.
      * destruct operational; intros [= <- _]; simpl; eauto.
  - intros [] b t b'; simpl; by intros [=].
Qed.

(** ** The public interface *)

Definition AOManager : Type := AO manager_state manager_event Manager.

Definition isReadyDerived_ (c : AOManager) : bool := bool_decide (state_ (hsm c) = st Ready_St).
Definition getServiceStatus (c : AOManager) : ServiceStatus := last_status_ (self (hsm c)).

(** The guard of every asynchronous call. *)
Definition post_if_ready (e : manager_event) (c : AOManager) : Status * AOManager :=
  if isReadyDerived_ c then (SUCCESS_, post_fifo e c) else (NOTREADY, c).

Definition startDataCall (p : DataCallParams) (cb : option C) : AOManager -> Status * AOManager :=
  post_if_ready (StartDataCall_Signal p cb).
Definition stopDataCall (p : DataCallParams) (cb : option C) : AOManager -> Status * AOManager :=
  post_if_ready (StopDataCall_Signal p cb).
Definition requestDataCallList (op : OperationType) (cb : option C) :=
  post_if_ready (RequestDataCallList_Signal op cb).
Definition getDefaultProfile (op : OperationType) (cb : option C) :=
  post_if_ready (GetDefaultProfile_Signal op cb).
Definition setDefaultProfile (op : OperationType) (pid : Z) (cb : option C) :=
  post_if_ready (SetDefaultProfile_Signal op pid cb).
Definition requestThrottledApnInfo (cb : option C) :=
  post_if_ready (RequestThrottledApnInfo_Signal cb).

(** The deprecated overloads. *)
Definition startDataCall_ids (pid : Z) (f : IpFamilyType) (cb : option C) (op : OperationType) :=
  startDataCall (mkParams pid "" f op) cb.
Definition stopDataCall_ids (pid : Z) (f : IpFamilyType) (cb : option C) (op : OperationType) :=
  stopDataCall (mkParams pid "" f op) cb.

(** The blocking calls up to the wait: [inl] the code returned at once, [inr] the
    object with the request posted. *)
Definition setThroughputInterval (interval : Z) (promise : P) (c : AOManager) : Z + AOManager :=
  if isReadyDerived_ c then inr (post_fifo (SetThroughputInterval_Signal interval promise) c)
  else inl SUBSYSTEM_UNAVAILABLE.
Definition getLastThroughputInfo (promise : P) (c : AOManager) : Z + AOManager :=
  if isReadyDerived_ c then inr (post_fifo (GetLastThroughputInfo_Signal promise) c)
  else inl SUBSYSTEM_UNAVAILABLE.

(** After the wait: the code returned, [None] when [future.get()] throws; and the
    caller's vector, overwritten on success only. *)
Definition interval_result (f : future Z) : option Z :=
  match f with Ready code => Some code | NotInTime => Some OPERATION_TIMEOUT | Broken => None end.
Definition throughput_result (f : future (Z * list ThroughputInfo)) (info : list ThroughputInfo) :
    option (Z * list ThroughputInfo) :=
  match f with
  | Ready (code, infos) => Some (code, if decide (code = SUCCESS) then infos else info)
  | NotInTime => Some (OPERATION_TIMEOUT, info)
  | Broken => None
  end.

(** ** Answers of the modem

    The functions given to [send_request], run by the bridge: what they tell
    the client, [None] when they throw (the bridge swallows it). *)

Definition PROFILE_ID_INVALID : Z := -1.

(** [cb(profileId, slotId, code)]. *)
Definition get_default_reply (cb : option C) (rsp : option (Envelope json)) :
    option (list (C * Z * Z)) :=
  match cb with
  | None => Some []
  | Some c =>
      match rsp with
      | Some (mkEnvelope _ _ _ _ _ (Some d) None) =>
          pid ← value_int "profileId" PROFILE_ID_INVALID d; Some [(c, pid, SUCCESS)]
      | _ => Some [(c, PROFILE_ID_INVALID, OPERATION_TIMEOUT)]
      end
  end.

Definition set_default_reply (cb : option C) (rsp : option (Envelope json)) : option (list (C * Z)) :=
  match cb with
  | None => Some []
  | Some c =>
      match rsp with
      | None => Some [(c, OPERATION_TIMEOUT)]
      | Some env =>
          match error env with
          | Some err => code ← value_string "code" "" err; Some [(c, parseErrorCode code)]
          | None => Some [(c, SUCCESS)]
          end
      end
  end.

Definition set_interval_reply (rsp : option (Envelope json)) : Z :=
  match rsp with
  | Some env => if decide (is_Some (error env)) then OPERATION_TIMEOUT else SUCCESS
  | None => OPERATION_TIMEOUT
  end.

Definition last_throughput_reply (rsp : option (Envelope json)) : option (Z * list ThroughputInfo) :=
  match rsp with
  | Some (mkEnvelope _ _ _ _ _ (Some d) None) =>
      infos ← value_json "infos" jarray d;
      l ← decodeThroughputInfos infos;
      Some (SUCCESS, l)
  | _ => Some (OPERATION_TIMEOUT, [])
  end.

(** What the requests of one throttle query share. *)
Record throttle_batch := mkBatch {
  results : list APNThrottleInfo;
  remaining : Z;
  answers : list (C * list APNThrottleInfo * Z) }.

Definition new_batch (n : nat) : throttle_batch := mkBatch [] (Z.of_nat n) [].

Definition throttle_reply (cb : option C) (rsp : option (Envelope json)) (b : throttle_batch) :
    option throttle_batch :=
  res ← (match rsp with
         | Some (mkEnvelope _ _ _ _ _ (Some d) None) =>
             t ← decodeThrottleInfo d; Some (results b ++ [t])
         | _ => Some (results b)
         end);
  Some (mkBatch res (remaining b - 1)
          (answers b ++
           if decide (remaining b = 1) then (fun c => (c, res, SUCCESS)) <$> option_list cb else [])).

(** The bridge goes on with the next answer when one throws. *)
Definition throttle_answer (cb : option C) (b : throttle_batch) (rsp : option (Envelope json)) :
    throttle_batch :=
  default b (throttle_reply cb rsp b).

(** ** Wiring to the bridge *)

Definition indications : list string :=
  ["data.subsys_ready_data.ind"; "data.call_state.ind"; "data.throughput_info.ind";
   "data.qos_status.ind"; "data.hw_accel_state.ind"; "data.throttle_status.ind"].

(** What [start] subscribes: topic and schema. *)
Definition subscriptions : list (string * string) := (fun i => (topic i, i)) <$> indications.
Definition unsubscribeFromBridge_ : list string := topic <$> indications.

Definition handleCallStateInd_ (t : string) (env : Envelope json) : manager_event :=
  if decide (t = topic "data.subsys_ready_data.ind") then ReadinessEvt_Signal env
  else if decide (t = topic "data.throughput_info.ind") then ThroughputInfoEvt_Signal env
  else if decide (t = topic "data.qos_status.ind") then QosStatusEvt_Signal env
  else if decide (t = topic "data.hw_accel_state.ind") then HwAccelEvt_Signal env
  else if decide (t = topic "data.throttle_status.ind") then ThrottleStatusEvt_Signal env
  else StateInd_Signal env.

Definition start (ndebug : bool) (c : AOManager) : outcome AOManager :=
  if running_ c then Done c else start_at handler ndebug true (st NotReady_St) c.
End Manager.
