(* ===== verification/DataConnectionProps.v ===== *)
(** * Correctness of the data connection manager

    [manager_step] is the manager as a table over its two leaf states.  The
    theorems: what its reachable states are; that every call accepted while
    ready is handed to a session or answered, and every indication goes to the
    session of its profile; and that a throttle query is answered once. *)

From S2P Require Import Prelude Hsm HsmSpec HsmProps ActiveObject Json Envelope InitGate Manager DataCall.
From S2P Require Import DataConnection.

Local Open Scope Z_scope.

(** ** Listeners *)

Section ListenerProps.
Context {L : Type} `{EqDecision L}.
Context (alive : L -> bool).

(** What one deregistration leaves of a registration. *)
Definition after_deregister (l : L) (bits : Z) (p : L * Z) : option (L * Z) :=
  if negb (alive (fst p)) then None
  else if alive l && bool_decide (fst p = l) then
    if bool_decide (Z.ldiff (snd p) bits = 0) then None else Some (fst p, Z.ldiff (snd p) bits)
  else Some p.

Lemma deregister_eq (l : L) bits (ls : Listeners L) :
  deregisterListener alive l bits ls = omap (after_deregister l bits) ls.
Proof.
  induction ls as [|[x b] ls IH]; [done|]. csimpl. rewrite IH. unfold after_deregister. simpl.
  destruct (alive x); simpl; [|done]. destruct (alive l && bool_decide (x = l)); [|done].
  by destruct (bool_decide (Z.ldiff b bits = 0)).
Qed.

(** A deregistered indication reaches the listener no more; the other
    indications and listeners are not affected. *)
Lemma deregister_recipients (l : L) bits bit (ls : Listeners L) :
  0 <= bit -> alive l = true ->
  recipients alive bit (deregisterListener alive l bits ls) =
    filter (fun x => x <> l \/ Z.testbit bits bit = false) (recipients alive bit ls).
Proof.
  intros Hb Hl. rewrite deregister_eq. unfold recipients.
  induction ls as [|[x b] ls IH]; [done|]. csimpl. unfold after_deregister at 1. simpl. rewrite Hl.
  rewrite (filter_cons _ (x, b)). simpl.
  destruct (alive x) eqn:Hx; simpl.
  - case_bool_decide as Hxl.
    + subst x. assert (Hbit : Z.testbit (Z.ldiff b bits) bit =
        Z.testbit b bit && negb (Z.testbit bits bit)) by (by rewrite Z.ldiff_spec).
      destruct (bool_decide_reflect (Z.ldiff b bits = 0)) as [Hz|Hz].
      * rewrite Hz, Z.testbit_0_l in Hbit. rewrite IH.
        destruct (decide (Z.testbit b bit = true /\ true = true)) as [[Hbb _]|]; [|done].
        rewrite Hbb in Hbit. simpl in Hbit. symmetry in Hbit. apply negb_false_iff in Hbit.
        csimpl. rewrite (filter_cons _ l), decide_False; [done|]. rewrite Hbit. naive_solver.
      * rewrite (filter_cons _ (l, Z.ldiff b bits)). simpl. rewrite Hbit, Hx.
        destruct (Z.testbit b bit) eqn:Hbb, (Z.testbit bits bit) eqn:Hdb; cbn [andb negb]; rewrite ?Hdb in IH.
        -- rewrite decide_False, decide_True by naive_solver. csimpl.
           rewrite (filter_cons _ l), decide_False by naive_solver. exact IH.
        -- rewrite !decide_True by naive_solver. csimpl.
           rewrite (filter_cons _ l), decide_True by naive_solver. f_equal. exact IH.
        -- rewrite !decide_False by naive_solver. exact IH.
        -- rewrite !decide_False by naive_solver. exact IH.
    + rewrite (filter_cons _ (x, b)). simpl. rewrite Hx.
      destruct (decide (Z.testbit b bit = true /\ true = true)); csimpl; [|exact IH].
      rewrite (filter_cons _ x), decide_True by (by left). f_equal. exact IH.
  - rewrite decide_False by naive_solver. exact IH.
Qed.
End ListenerProps.

Section ManagerSpec.
Context {json : Type} `{Json json, JsonValues json} {C L P : Type}.
Context (topic : string -> string) (paId : string) (now_at counter_at : nat -> Z).
Context (call_at : nat -> nat -> DataCall) (alive_at : nat -> L -> bool).
Context (items : gmap Z nat -> list (Z * nat)).

Local Notation Manager := (Manager (json := json) (C := C) (L := L) (P := P)).
Local Notation manager_event := (manager_event (json := json) (C := C) (P := P)).
Local Notation manager_effect := (manager_effect (json := json) (C := C) (L := L) (P := P)).
Local Notation handler :=
  (handler topic paId now_at counter_at call_at alive_at items (C := C) (L := L) (P := P)).

(** ** The manager as a table *)

Definition ready_exit (m : Manager) : Manager :=
  broadcastToListeners_ alive_at DEFAULT_BIT (ServiceStatusChange SERVICE_UNAVAILABLE) m.

(** Losing readiness, with the status to publish. *)
Definition degrade (s : ServiceStatus) (m : Manager) : manager_state * Manager :=
  (NotReady_St, ready_exit (publishStatus_ s m)).

Definition finish (pid : Z) (m : Manager) : Manager :=
  set_sessions (delete pid (active_sessions_ m)) (created m) m.

Definition stay (leaf : manager_state) (o : outcome Manager) : outcome (manager_state * Manager) :=
  m ← o; Done (leaf, m).

Definition on_data (env : Envelope json) (f : json -> Manager -> outcome Manager) (m : Manager) :
    outcome Manager :=
  match data env with None => Done m | Some d => f d m end.

Definition manager_step (leaf : manager_state) (e : manager_event) (m : Manager) :
    outcome (manager_state * Manager) :=
  match leaf, e with
  | Operating_St, SessionFinished_Signal pid => Done (leaf, finish pid m)
  | Operating_St, _ => Done (leaf, m)
  | NotReady_St, ReadinessEvt_Signal env =>
      match data env with
      | None => Done (leaf, m)
      | Some d =>
          s ← or_die (value_string "status" "" d);
          Done (if decide (s = "AVAILABLE") then (Ready_St, ready_entry alive_at m) else (leaf, m))
      end
  | NotReady_St, (SetThroughputInterval_Signal _ r | GetLastThroughputInfo_Signal r) =>
      Done (leaf, emit [SetValue r SUBSYSTEM_UNAVAILABLE] m)
  | _, SessionFinished_Signal pid => Done (leaf, finish pid m)
  | NotReady_St, _ => Done (leaf, m)
  | Ready_St, ReadinessEvt_Signal env =>
      match data env with
      | None => Done (leaf, m)
      | Some d =>
          s ← or_die (value_string "status" "" d);
          Done (if decide (s = "UNAVAILABLE") then degrade SERVICE_UNAVAILABLE m
                else if decide (s = "FAILED") then degrade SERVICE_FAILED m else (leaf, m))
      end
  | Ready_St, BridgeConnectivityChanged_Signal operational =>
      Done (if negb operational then degrade SERVICE_UNAVAILABLE m else (leaf, m))
  | Ready_St, StartDataCall_Signal p cb => Done (leaf, start_call call_at p cb m)
  | Ready_St, StopDataCall_Signal p cb => Done (leaf, stop_call p cb m)
  | Ready_St, StateInd_Signal env => stay leaf (on_data env (fun d => deliver_state d env) m)
  | Ready_St, RequestDataCallList_Signal op cb => Done (leaf, list_calls call_at items op cb m)
  | Ready_St, GetDefaultProfile_Signal op cb =>
      Done (leaf, get_default_profile topic paId now_at counter_at op cb m)
  | Ready_St, SetDefaultProfile_Signal op pid cb =>
      Done (leaf, set_default_profile topic paId now_at counter_at op pid cb m)
  | Ready_St, RequestThrottledApnInfo_Signal cb =>
      Done (leaf, request_throttled topic paId now_at counter_at items cb m)
  | Ready_St, SetThroughputInterval_Signal i r =>
      Done (leaf, set_interval topic paId now_at counter_at i r m)
  | Ready_St, GetLastThroughputInfo_Signal r =>
      Done (leaf, last_throughput topic paId now_at counter_at r m)
  | Ready_St, ThroughputInfoEvt_Signal env => stay leaf (on_data env (deliver_throughput alive_at) m)
  | Ready_St, HwAccelEvt_Signal env => stay leaf (on_data env (deliver_hw_accel alive_at) m)
  | Ready_St, ThrottleStatusEvt_Signal env => stay leaf (on_data env (deliver_throttle alive_at) m)
  | Ready_St, QosStatusEvt_Signal env => stay leaf (on_data env (deliver_qos alive_at) m)
  end.

Lemma with_data_step leaf env f (m : Manager) u :
  handler leaf (User u) m = with_data env f m ->
  chart_step handler lineage leaf u m = stay leaf (on_data env f m).
Proof.
  intros Hh. unfold chart_step, offer. change (lineage leaf) with (leaf :: option_list (parent leaf)).
  cbv beta iota fix. rewrite Hh. unfold with_data, on_data, stay.
  destruct (data env) as [d|]; [|done]. by destruct (f d m).
Qed.

Lemma manager_chart_step leaf e (m : Manager) :
  leaf <> Operating_St -> chart_step handler lineage leaf e m = manager_step leaf e m.
Proof.
  intros Hl. destruct leaf; [done| |]; destruct e; try reflexivity;
    try (by apply with_data_step); unfold chart_step; simpl; try (by destruct operational);
    destruct (data env) as [d|]; try done;
    destruct (value_string "status" "" d); simpl; try done; repeat case_decide; done.
Qed.

(** ** What the log says *)

(** Sessions created, with their profile; callbacks handed to a session or
    called with a result. *)
Definition new_of (e : manager_effect) : option (nat * Z) :=
  match e with NewSession id p _ _ => Some (id, dp_profileId p) | _ => None end.
Definition ind_of (e : manager_effect) : option (nat * Envelope json) :=
  match e with SessionInd id env => Some (id, env) | _ => None end.
Definition handed_of (e : manager_effect) : option C :=
  match e with
  | NewSession _ _ _ cb | StopSession _ cb => cb
  | CallCb cb _ _ => Some cb
  | _ => None
  end.

Definition news (m : Manager) : list (nat * Z) := omap new_of (log m).
Definition inds (m : Manager) : list (nat * Envelope json) := omap ind_of (log m).
Definition handed (m : Manager) : list C := omap handed_of (log m).

(** The same manager but for effects on clients, listeners and the modem. *)
Record quiet (cbs : list C) (m m' : Manager) : Prop := {
  q_status : last_status_ m' = last_status_ m;
  q_gate : init_gate_ m' = init_gate_ m;
  q_sessions : active_sessions_ m' = active_sessions_ m;
  q_created : created m' = created m;
  q_news : news m' = news m;
  q_inds : inds m' = inds m;
  q_handed : handed m' = handed m ++ cbs }.

Lemma manager_quiet_refl (m : Manager) : quiet [] m m.
Proof. split; try done. by rewrite app_nil_r. Qed.

Lemma quiet_trans cbs (m1 m2 m3 : Manager) : quiet [] m1 m2 -> quiet cbs m2 m3 -> quiet cbs m1 m3.
Proof.
  intros [] []. split; try congruence. rewrite app_nil_r in *. congruence.
Qed.

Lemma quiet_emit l cbs (m : Manager) :
  omap new_of l = [] -> omap ind_of l = [] -> omap handed_of l = cbs -> quiet cbs m (emit l m).
Proof.
  intros H1 H2 H3. split; try done; unfold news, inds, handed; simpl;
    rewrite omap_app, ?H1, ?H2, ?H3; by rewrite ?app_nil_r.
Qed.

Lemma quiet_look cbs (m m' : Manager) : quiet cbs (look m) m' -> quiet cbs m m'.
Proof. intros []. by split. Qed.

Lemma broadcast_quiet bit n (m : Manager) : quiet [] m (broadcastToListeners_ alive_at bit n m).
Proof.
  apply quiet_look. unfold broadcastToListeners_. case_decide; [apply manager_quiet_refl|by apply quiet_emit].
Qed.

Lemma call_cb_quiet cb id code (m : Manager) : quiet (option_list cb) m (call_cb cb id code m).
Proof. destruct cb; [by apply quiet_emit|apply manager_quiet_refl]. Qed.

Lemma send_quiet r req schema d (m : Manager) :
  quiet [] m (send_rpc topic paId now_at counter_at r req schema d m).
Proof. by apply quiet_emit. Qed.

Lemma sends_quiet {A} (r : manager_rpc) req schema (d : A -> json) (l : list A) (m : Manager) :
  quiet [] m (foldl (fun m a => send_rpc topic paId now_at counter_at r req schema (d a) m) m l).
Proof.
  revert m. induction l as [|a l IH]; intros m; simpl; [apply manager_quiet_refl|].
  eapply quiet_trans; [apply send_quiet|apply IH].
Qed.

Lemma throttled_quiet cb (m : Manager) :
  quiet [] m (request_throttled topic paId now_at counter_at items cb m).
Proof.
  unfold request_throttled. destruct (fst <$> _) as [|p l].
  - destruct cb; [by apply quiet_emit|apply manager_quiet_refl].
  - apply (sends_quiet _ _ _ _ (p :: l)).
Qed.

Lemma list_quiet op cb (m : Manager) : quiet [] m (list_calls call_at items op cb m).
Proof. apply quiet_look. unfold list_calls. destruct cb; [by apply quiet_emit|apply manager_quiet_refl]. Qed.

Lemma deliver_quiet (d : json) (m m' : Manager) :
  deliver_throughput alive_at d m = Done m' \/ deliver_hw_accel alive_at d m = Done m' \/
  deliver_throttle alive_at d m = Done m' \/ deliver_qos alive_at d m = Done m' ->
  quiet [] m m'.
Proof.
  intros [Hd|[Hd|[Hd|Hd]]].
  - apply bind_done' in Hd as (i & _ & (l & _ & [= <-])%bind_done'). apply broadcast_quiet.
  - apply bind_done' in Hd as (i & _ & [= <-]). apply broadcast_quiet.
  - apply bind_done' in Hd as (i & _ & [= <-]). apply broadcast_quiet.
  - apply bind_done' in Hd as (i & _ & Hd). destruct (active_sessions_ m !! i); simpl in Hd.
    + apply bind_done' in Hd as (t & _ & [= <-]). apply broadcast_quiet.
    + injection Hd as <-. apply manager_quiet_refl.
Qed.

(** ** The invariant *)

Record manager_inv (leaf : manager_state) (m : Manager) : Prop := {
  mi_leaf : leaf <> Operating_St;
  mi_status : last_status_ m = SERVICE_AVAILABLE <-> leaf = Ready_St;
  mi_gate : leaf = Ready_St -> fired_ (init_gate_ m) = true;
  mi_ids : (news m).*1 = seq 0 (created m);
  mi_active p id : active_sessions_ m !! p = Some id -> (id, p) ∈ news m;
  mi_inds id env : (id, env) ∈ inds m -> exists d p, data env = Some d /\
    value_int "profileId" (-1) d = Some p /\ (id, p) ∈ news m }.

Lemma quiet_inv cbs leaf (m m' : Manager) :
  quiet cbs m m' -> manager_inv leaf m -> manager_inv leaf m'.
Proof.
  intros [Q1 Q2 Q3 Q4 Q5 Q6 Q7] [H1 H2 H3 H4 H5 H6].
  split; rewrite ?Q1, ?Q2, ?Q4, ?Q5, ?Q6; auto. intros p id. rewrite Q3. apply H5.
Qed.

Lemma finish_inv leaf pid (m : Manager) : manager_inv leaf m -> manager_inv leaf (finish pid m).
Proof.
  intros [H1 H2 H3 H4 H5 H6]. split; try done. simpl.
  intros p id [_ Hp]%lookup_delete_Some. by apply H5.
Qed.

Lemma degrade_inv s (m : Manager) :
  s <> SERVICE_AVAILABLE -> manager_inv Ready_St m ->
  manager_inv (fst (degrade s m)) (snd (degrade s m)).
Proof.
  intros Hs [H1 H2 H3 H4 H5 H6]. unfold degrade, ready_exit. simpl.
  eapply quiet_inv; [apply broadcast_quiet|]. by split.
Qed.

Lemma ready_inv (m : Manager) : manager_inv NotReady_St m -> manager_inv Ready_St (ready_entry alive_at m).
Proof.
  intros [H1 H2 H3 H4 H5 H6]. unfold ready_entry, markReadyAndFire. simpl.
  destruct (fired_ (init_gate_ m)) eqn:Hf.
  - eapply quiet_inv; [apply broadcast_quiet|]. by split.
  - by split.
Qed.

Lemma start_inv p cb (m : Manager) :
  manager_inv Ready_St m -> manager_inv Ready_St (start_call call_at p cb m).
Proof.
  intros Hi. unfold start_call. destruct (active_sessions_ m !! dp_profileId p) as [id|].
  - case_decide; (eapply quiet_inv; [apply quiet_look, call_cb_quiet|done]).
  - destruct Hi as [H1 H2 H3 H4 H5 H6].
    assert (Hn : news (emit [NewSession (created m) p (slotId_m m) cb]
      (set_sessions (<[dp_profileId p := created m]> (active_sessions_ m)) (S (created m)) m)) =
      news m ++ [(created m, dp_profileId p)]) by (unfold news; simpl; by rewrite omap_app).
    split; try done; rewrite ?Hn.
    + rewrite fmap_app, H4. simpl. by rewrite <- seq_S.
    + simpl. intros q id [[<- <-]|[_ Hq]]%lookup_insert_Some; apply elem_of_app;
        [right; by apply list_elem_of_singleton|left; by apply H5].
    + intros id env Hin. assert (Hin' : (id, env) ∈ inds m).
      { revert Hin. unfold inds. simpl. rewrite omap_app. simpl. by rewrite app_nil_r. }
      destruct (H6 id env Hin') as (d & q & ? & ? & ?). exists d, q.
      repeat split; try done. apply elem_of_app. by left.
Qed.

Lemma state_ind_inv env (d : json) (m m' : Manager) :
  data env = Some d -> deliver_state d env m = Done m' -> manager_inv Ready_St m ->
  manager_inv Ready_St m' /\ handed m' = handed m.
Proof.
  intros Hd Hs Hi. unfold deliver_state in Hs. apply bind_done' in Hs as (pid & Hp & [= <-]).
  destruct (value_int "profileId" (-1) d) as [pid'|] eqn:Hv; [|done]. injection Hp as ->.
  destruct (active_sessions_ m !! pid) as [id|] eqn:Ha; [|done].
  destruct Hi as [H1 H2 H3 H4 H5 H6].
  assert (Hn : news (emit [SessionInd id env] m) = news m)
    by (unfold news; simpl; rewrite omap_app; simpl; by rewrite app_nil_r).
  assert (Hin : inds (emit [SessionInd id env] m) = inds m ++ [(id, env)])
    by (unfold inds; simpl; by rewrite omap_app).
  split; [|unfold handed; simpl; rewrite omap_app; simpl; by rewrite app_nil_r].
  split; try done; rewrite ?Hn; try done.
  intros id' env'. rewrite Hin, elem_of_app, list_elem_of_singleton. intros [Hx|[= -> ->]].
  - by apply H6.
  - exists d, pid. repeat split; try done. by apply H5.
Qed.

(** The callbacks of the calls accepted by a step. *)
Definition asked (leaf : manager_state) (e : manager_event) : list C :=
  match leaf, e with
  | Ready_St, (StartDataCall_Signal _ cb | StopDataCall_Signal _ cb) => option_list cb
  | _, _ => []
  end.

Lemma handed_broadcast bit n (m : Manager) :
  handed (broadcastToListeners_ alive_at bit n m) = handed m.
Proof. rewrite (q_handed _ _ _ (broadcast_quiet bit n m)). apply app_nil_r. Qed.

Lemma handed_ready (m : Manager) : handed (ready_entry alive_at m) = handed m.
Proof.
  unfold ready_entry. destruct (markReadyAndFire _ _) as [[] g]; [done|].
  by rewrite handed_broadcast.
Qed.

Lemma handed_start p cb (m : Manager) :
  handed (start_call call_at p cb m) = handed m ++ option_list cb.
Proof.
  unfold start_call. destruct (active_sessions_ m !! dp_profileId p) as [id|].
  - case_decide; apply (q_handed _ (look m)), call_cb_quiet.
  - unfold handed. simpl. rewrite omap_app. by destruct cb.
Qed.

Lemma stop_quiet p cb (m : Manager) : quiet (option_list cb) m (stop_call p cb m).
Proof.
  unfold stop_call. destruct (active_sessions_ m !! dp_profileId p) as [id|].
  - by apply quiet_emit; destruct cb.
  - apply call_cb_quiet.
Qed.

(** A step that only makes quiet effects. *)
Lemma quiet_step leaf cbs (m m' : Manager) :
  quiet cbs m m' -> manager_inv leaf m -> manager_inv leaf m' /\ handed m' = handed m ++ cbs.
Proof. intros Hq Hi. split; [by eapply quiet_inv|apply Hq]. Qed.

Lemma degrade_step s (m : Manager) leaf' m' :
  s <> SERVICE_AVAILABLE -> manager_inv Ready_St m -> degrade s m = (leaf', m') ->
  manager_inv leaf' m' /\ handed m' = handed m ++ [].
Proof.
  intros Hs Hi Hd. pose proof (degrade_inv s m Hs Hi) as Hp. rewrite Hd in Hp. split; [done|].
  injection Hd as <- <-. unfold ready_exit. by rewrite handed_broadcast, app_nil_r.
Qed.

Lemma on_data_quiet env f (m m' : Manager) leaf leaf' :
  (forall d, f d m = Done m' -> quiet [] m m') -> stay leaf (on_data env f m) = Done (leaf', m') ->
  leaf' = leaf /\ quiet [] m m'.
Proof.
  intros Hf. unfold stay, on_data. destruct (data env) as [d|].
  - intros (m1 & Hd & [= <- <-])%bind_done'. split; [done|by eapply Hf].
  - intros [= <- <-]. split; [done|apply manager_quiet_refl].
Qed.

Lemma manager_step_inv leaf e (m : Manager) leaf' m' :
  manager_inv leaf m -> manager_step leaf e m = Done (leaf', m') ->
  manager_inv leaf' m' /\ handed m' = handed m ++ asked leaf e.
Proof.
  intros Hi Hs. pose proof (mi_leaf _ _ Hi) as Hl.
  assert (Hsame : manager_inv leaf m /\ handed m = handed m ++ []) by (by rewrite app_nil_r).
  assert (Hfin : forall pid, manager_inv leaf (finish pid m) /\ handed (finish pid m) = handed m ++ [])
    by (intros pid; split; [by apply finish_inv|by rewrite app_nil_r]).
  destruct leaf; [done| |]; destruct e; cbn [manager_step] in Hs;
    try (injection Hs as <- <-; done);
    try (injection Hs as <- <-; apply quiet_step; [|done]; first
      [ apply list_quiet | apply send_quiet | apply throttled_quiet | by apply quiet_emit
      | apply stop_quiet ]);
    try (apply on_data_quiet in Hs as [-> Hq];
         [by apply quiet_step|intros d Hd; apply (deliver_quiet d); tauto]).
  - destruct (data env) as [d|]; [|by injection Hs as <- <-].
    apply bind_done' in Hs as (s & _ & Hs). case_decide; injection Hs as <- <-; [|done].
    split; [by apply ready_inv|]. by rewrite handed_ready, app_nil_r.
  - destruct (data env) as [d|]; [|by injection Hs as <- <-].
    apply bind_done' in Hs as (s & _ & [= Hs]).
    repeat case_decide; [by apply (degrade_step SERVICE_UNAVAILABLE m)
      |by apply (degrade_step SERVICE_FAILED m)|by injection Hs as <- <-].
  - injection Hs as Hs. destruct operational; simpl in Hs; [by injection Hs as <- <-|].
    by apply (degrade_step SERVICE_UNAVAILABLE m).
  - injection Hs as <- <-. split; [by apply start_inv|apply handed_start].
  - unfold stay, on_data in Hs. destruct (data env) as [d|] eqn:Hd.
    + apply bind_done' in Hs as (m1 & Hm & [= <- <-]). simpl asked. rewrite app_nil_r.
      by eapply state_ind_inv.
    + by injection Hs as <- <-.
Qed.

Lemma manager_run_inv ps leaf (m : Manager) leaf' m' :
  manager_inv leaf m ->
  chart_run handler flush lineage ps (leaf, m) = Done (leaf', m') -> manager_inv leaf' m'.
Proof.
  intros Hi Hr. eapply (chart_run_stable handler flush lineage manager_inv (fun _ => True));
    [done| |by apply Forall_true|exact Hi|exact Hr].
  intros u l d l1 d1 _ Hd Hs. rewrite manager_chart_step in Hs by apply (mi_leaf _ _ Hd).
  by eapply manager_step_inv.
Qed.

Lemma new_manager_inv slot cb : manager_inv NotReady_St (new_manager slot cb : Manager).
Proof. split; try done. intros id env Hin. by apply not_elem_of_nil in Hin. Qed.


(** The callbacks of the calls accepted along a run. *)
Fixpoint asked_in (ps : list (post manager_event)) (x : manager_state * Manager) : list C :=
  match ps with
  | [] => []
  | p :: ps' =>
      asked (fst x) (payload p) ++
      match manager_step (fst x) (payload p) (snd x) with
      | Done x' => asked_in ps' x'
      | Fail _ => []
      end
  end.

(** Calls are routed. Along any run of a manager, the callbacks of the start
    and stop requests it took up while Ready are, in order and once each, those it
    handed to a session or called itself. In Ready, a start for a profile without
    a session creates a session, the next in number, and records it; a start for a
    profile with one is answered SUCCESS with that session's call when the call is
    connected and OP_IN_PROGRESS otherwise, and creates nothing; a stop goes to
    the profile's session, or is answered INVALID_STATE; and in both states a
    finished session is forgotten, so the profile can be started again. *)
Theorem calls_routed (ps : list (post manager_event)) (slot : Z) (initCb : option C)
    (leaf : manager_state) (m : Manager) (p : DataCallParams) (cb : option C) :
  chart_run handler flush lineage ps (NotReady_St, new_manager slot initCb) = Done (leaf, m) ->
  handed m = asked_in ps (NotReady_St, new_manager slot initCb) /\
  (leaf = Ready_St -> active_sessions_ m !! dp_profileId p = None ->
   exists m', chart_step handler lineage leaf (StartDataCall_Signal p cb) m = Done (leaf, m') /\
     log m' = log m ++ [NewSession (created m) p (slotId_m m) cb] /\
     active_sessions_ m' = <[dp_profileId p := created m]> (active_sessions_ m) /\
     created m' = S (created m)) /\
  (forall id, leaf = Ready_St -> active_sessions_ m !! dp_profileId p = Some id ->
   (exists m', chart_step handler lineage leaf (StartDataCall_Signal p cb) m = Done (leaf, m') /\
      log m' = log m ++
        (if decide (status_ (call_at (looks m) id) = NET_CONNECTED)
         then (fun c => CallCb c (Some id) SUCCESS) <$> option_list cb
         else (fun c => CallCb c None OP_IN_PROGRESS) <$> option_list cb) /\
      active_sessions_ m' = active_sessions_ m /\ created m' = created m) /\
   (exists m', chart_step handler lineage leaf (StopDataCall_Signal p cb) m = Done (leaf, m') /\
      log m' = log m ++ [StopSession id cb])) /\
  (leaf = Ready_St -> active_sessions_ m !! dp_profileId p = None ->
   exists m', chart_step handler lineage leaf (StopDataCall_Signal p cb) m = Done (leaf, m') /\
     log m' = log m ++ ((fun c => CallCb c None INVALID_STATE) <$> option_list cb)) /\
  (exists m', chart_step handler lineage leaf (SessionFinished_Signal (dp_profileId p)) m =
     Done (leaf, m') /\ active_sessions_ m' = delete (dp_profileId p) (active_sessions_ m)).
Proof.
  intros Hr. assert (Hi : manager_inv leaf m) by (eapply manager_run_inv; [apply new_manager_inv|done]).
  split.
  - assert (Hgen : forall leaf0 (m0 : Manager), manager_inv leaf0 m0 ->
      chart_run handler flush lineage ps (leaf0, m0) = Done (leaf, m) ->
      handed m = handed m0 ++ asked_in ps (leaf0, m0)).
    { clear Hr Hi. induction ps as [|q ps IH]; intros leaf0 m0 Hi; simpl.
      - intros [= -> ->]. by rewrite app_nil_r.
      - rewrite manager_chart_step by apply (mi_leaf _ _ Hi).
        destruct (manager_step leaf0 (payload q) m0) as [[leaf1 m1]|] eqn:Hs; [|done].
        destruct (manager_step_inv _ _ _ _ _ Hi Hs) as [Hi1 Hh]. simpl. intros Hr.
        rewrite (IH leaf1 m1 Hi1 Hr), Hh. by rewrite <- (assoc_L (++)). }
    apply (Hgen _ _ (new_manager_inv slot initCb) Hr).
  - assert (Hc : forall id code, log (call_cb cb id code m) =
      log m ++ ((fun c => CallCb c id code) <$> option_list cb))
      by (intros; destruct cb; simpl; [done|by rewrite app_nil_r]).
    assert (Hc' : forall id code, log (call_cb cb id code (look m)) =
      log m ++ ((fun c => CallCb c id code) <$> option_list cb))
      by (intros; destruct cb; simpl; [done|by rewrite app_nil_r]).
    split; [intros -> Hn|split; [intros id -> Hn; split|split; [intros -> Hn|]]];
      rewrite manager_chart_step by (done || apply (mi_leaf _ _ Hi)).
    + eexists. split; [reflexivity|]. unfold start_call. by rewrite Hn.
    + eexists. split; [reflexivity|]. unfold start_call. rewrite Hn.
      case_decide; rewrite Hc'; (split; [done|]); by destruct cb.
    + eexists. split; [reflexivity|]. unfold stop_call. by rewrite Hn.
    + eexists. split; [reflexivity|]. unfold stop_call. by rewrite Hn, Hc.
    + pose proof (mi_leaf _ _ Hi). exists (finish (dp_profileId p) m). by destruct leaf.
Qed.

(** ** Throttle queries *)

(** What one answer contributes: a result or nothing; [None] when decoding it
    throws. *)
Definition contribution (rsp : option (Envelope json)) : option (option APNThrottleInfo) :=
  match rsp with
  | Some (mkEnvelope _ _ _ _ _ (Some d) None) => Some <$> decodeThrottleInfo d
  | _ => Some None
  end.

Lemma throttle_answer_eq (cb : option C) rsp (b : throttle_batch) :
  throttle_answer cb b rsp =
    match contribution rsp with
    | None => b
    | Some t =>
        mkBatch (results b ++ option_list t) (remaining b - 1)
          (answers b ++ if decide (remaining b = 1)
             then (fun c => (c, results b ++ option_list t, SUCCESS)) <$> option_list cb else [])
    end.
Proof.
  unfold throttle_answer, throttle_reply, contribution.
  destruct rsp as [[? ? ? ? ? [d|] [e|]]|]; simpl; rewrite ?app_nil_r; try done.
  destruct (decodeThrottleInfo d); done.
Qed.

Lemma throttle_fold (cb : option C) rsps (b : throttle_batch) :
  let got := omap contribution rsps in
  Z.of_nat (length got) <= remaining b ->
  foldl (throttle_answer cb) b rsps =
    mkBatch (results b ++ (got ≫= option_list)) (remaining b - Z.of_nat (length got))
      (answers b ++
       if decide (0 < remaining b /\ Z.of_nat (length got) = remaining b)
       then (fun c => (c, results b ++ (got ≫= option_list), SUCCESS)) <$> option_list cb else []).
Proof.
  revert b. induction rsps as [|rsp rsps IH]; intros b; csimpl.
  - intros Hr. rewrite decide_False by lia. rewrite Z.sub_0_r, !app_nil_r. by destruct b.
  - rewrite throttle_answer_eq. destruct (contribution rsp) as [t|]; [|apply IH].
    csimpl. intros Hle. rewrite IH by (csimpl; lia). csimpl.
    f_equal; [by rewrite <- (assoc_L (++))|lia|]. rewrite <- !(assoc_L (++)). f_equal.
    destruct (decide (remaining b = 1)) as [H1|H1].
    + rewrite decide_False by lia. rewrite app_nil_r.
      assert (Hn : length (omap contribution rsps) = 0%nat) by lia.
      apply nil_length_inv in Hn. rewrite Hn. rewrite decide_True by (simpl; lia). simpl.
      by rewrite app_nil_r.
    + simpl. match goal with |- context [decide ?P] => destruct (decide P) as [Hd|Hd] end.
      * by rewrite decide_True by lia.
      * by rewrite decide_False by lia.
Qed.

(** The throttle requests among the effects: what they share, what they ask. *)
Definition throttle_of (e : manager_effect) : option (nat * option C * option json) :=
  match e with Request (ThrottleRpc b cb) _ _ env _ => Some (b, cb, data env) | _ => None end.

Lemma throttle_sends batch (cb : option C) (pids : list Z) (m : Manager) :
  exists l, log (foldl (fun m pid => send_rpc topic paId now_at counter_at (ThrottleRpc batch cb)
      "data.request_throttle_status.req" "data.request_throttle_status.rsp"
      (jset "profileId" (of_int pid) jobject) m) m pids) = log m ++ l /\
    length l = length pids /\
    omap throttle_of l =
      (fun pid => (batch, cb, Some (jset "profileId" (of_int pid) jobject))) <$> pids.
Proof.
  revert m. induction pids as [|p pids IH]; intros m; simpl.
  - exists []. by rewrite app_nil_r.
  - edestruct IH as (l & -> & Hn & Hl). eexists (_ :: l). simpl.
    rewrite <- (assoc_L (++)). split; [reflexivity|]. split; [by f_equal|]. by f_equal.
Qed.

(** A throttle query is answered once. A query taken up while Ready asks the
    modem about every profile that has a session, each once, and the answers to
    these requests, whatever their order and whether the modem sent them or the
    bridge gave up on them, lead to exactly one call of the client's callback: with
    the last of them, SUCCESS, and the results of those that carried one, in the
    order of arrival. The callback is never called if an answer cannot be decoded.
    With no session it is called at once with an empty list. *)
Theorem throttle_answered_once (cb : option C) (m : Manager) :
  exists m', chart_step handler lineage Ready_St (RequestThrottledApnInfo_Signal cb) m =
      Done (Ready_St, m') /\
    (items (active_sessions_ m) = [] ->
     log m' = log m ++ ((fun c => ThrottleCb c [] SUCCESS) <$> option_list cb)) /\
    (items (active_sessions_ m) <> [] ->
     exists l, log m' = log m ++ l /\ length l = length (items (active_sessions_ m)) /\
       omap throttle_of l =
         (fun pid => (requests_sent m, cb, Some (jset "profileId" (of_int pid) jobject))) <$>
           (items (active_sessions_ m)).*1 /\
       forall rsps, (length rsps <= length l)%nat ->
         let got := omap contribution rsps in
         answers (foldl (throttle_answer cb) (new_batch (length l)) rsps) =
           if decide (length got = length l)
           then (fun c => (c, got ≫= option_list, SUCCESS)) <$> option_list cb else []).
Proof.
  exists (request_throttled topic paId now_at counter_at items cb m). split; [done|].
  unfold request_throttled. destruct (items (active_sessions_ m)) as [|[p i] its]; simpl.
  - split; [|done]. intros _. destruct cb; simpl; [done|by rewrite app_nil_r].
  - split; [done|]. intros _.
    destruct (throttle_sends (requests_sent m) cb (p :: its.*1) m) as (l & Hl & Hn & Ho).
    exists l. split; [exact Hl|]. split; [by rewrite Hn; simpl; rewrite length_fmap|].
    split; [exact Ho|]. intros rsps Hle.
    assert (Hg : (length (omap contribution rsps) <= length rsps)%nat).
    { clear. induction rsps as [|r rsps IH]; csimpl; [lia|].
      destruct (contribution r); csimpl; lia. }
    rewrite throttle_fold by (simpl; lia). unfold new_batch. simpl.
    simpl in Hn. repeat case_decide; try done; lia.
Qed.
End ManagerSpec.

(** ** A concrete manager *)

Module ManagerDemo.
Notation Ev := (manager_event (json := jval) (C := string) (P := nat)).
Notation Ma := (Manager (json := jval) (C := string) (L := nat) (P := nat)).

Definition topic_ (m : string) : string := "mp/" +:+ m.
Definition clock_ (n : nat) : Z := Z.of_nat n.
(** Calls are connected from the second look on; listeners live. *)
Definition call_at_ (n id : nat) : DataCall :=
  if decide (n = 0)%nat then CallDemo.fresh else setStatus NET_CONNECTED CallDemo.fresh.
Definition alive_ (n l : nat) : bool := true.
Definition items_ (m : gmap Z nat) : list (Z * nat) := map_to_list m.
Definition boot : Ma := new_manager 1 (Some "init").
Definition obj : Hsm manager_state Ev Ma :=
  mkHsm (st NotReady_St) (st NotReady_St) false false [] false [] boot.
Definition demo_handler :=
  handler topic_ "pa-test-0001" clock_ clock_ call_at_ alive_ items_ (json := jval) (C := string)
    (L := nat) (P := nat).

Definition env (d : jval) : Envelope jval := mkEnvelope 1 "0000000a" 7 "mpss" None (Some d) None.
Definition available : jval := JObject [("status", JString "AVAILABLE")].
Definition params : DataCallParams := mkParams 1 "" IPV4V6 DATA_LOCAL.

(** Dropped start; ready; started, in progress, connected; stopped; indication. *)
Definition life : list Ev :=
  [StartDataCall_Signal params (Some "a"); ReadinessEvt_Signal (env available);
   StartDataCall_Signal params (Some "b"); StartDataCall_Signal params (Some "c");
   StartDataCall_Signal params (Some "d"); StopDataCall_Signal params (Some "e");
   StateInd_Signal (env (JObject [("profileId", JInt 1)]))].

Definition run (l : list Ev) : option (manager_state * Ma) :=
  match chart_run demo_handler flush lineage (Fifo <$> l) (NotReady_St, boot) with
  | Done x => Some x
  | Fail _ => None
  end.

Definition after (l : list Ev) : Ma := snd (default (NotReady_St, boot) (run l)).

Example run_manager_life :
  (fun x => (fst x, log (snd x))) <$> run life =
    Some (Ready_St,
      [NewSession 0 params 1 (Some "b"); CallCb "c" None OP_IN_PROGRESS;
       CallCb "d" (Some 0%nat) SUCCESS; StopSession 0 (Some "e");
       SessionInd 0 (env (JObject [("profileId", JInt 1)]))]).
Proof. vm_compute. reflexivity. Qed.

Definition schedule : list (action (E := Ev)) :=
  [APost (Fifo (ReadinessEvt_Signal (env available))); AWait; ADispatch;
   APost (Fifo (StartDataCall_Signal params (Some "b"))); AOwnPost; AWait; ADispatch].

Definition started_one : AOManager (json := jval) (C := string) (L := nat) (P := nat) :=
  default (started obj) (run_schedule demo_handler false outbox flush schedule (started obj)).

Lemma started_reach : rtc (steps demo_handler false outbox flush) (started obj) started_one.
Proof. apply (run_schedule_reach _ _ _ _ schedule). vm_compute. reflexivity. Qed.
End ManagerDemo.


Lemma calls_routed_witness :
  handed (ManagerDemo.after ManagerDemo.life) = ["b"; "c"; "d"; "e"].
Proof.
  destruct (calls_routed ManagerDemo.topic_ "pa-test-0001" ManagerDemo.clock_
    ManagerDemo.clock_ ManagerDemo.call_at_ ManagerDemo.alive_ ManagerDemo.items_
    (Fifo <$> ManagerDemo.life) 1 (Some "init") Ready_St (ManagerDemo.after ManagerDemo.life)
    ManagerDemo.params None) as [Hc _]; [vm_compute; reflexivity|].
  rewrite Hc. vm_compute. reflexivity.
Defined.

Lemma throttle_answered_once_witness :
  exists m', chart_step ManagerDemo.demo_handler lineage Ready_St
      (RequestThrottledApnInfo_Signal (Some "t")) (ManagerDemo.after ManagerDemo.life) =
      Done (Ready_St, m') /\
    exists l, log m' = log (ManagerDemo.after ManagerDemo.life) ++ l /\ length l = 1%nat.
Proof.
  destruct (throttle_answered_once ManagerDemo.topic_ "pa-test-0001" ManagerDemo.clock_
    ManagerDemo.clock_ ManagerDemo.call_at_ ManagerDemo.alive_ ManagerDemo.items_ (Some "t")
    (ManagerDemo.after ManagerDemo.life)) as (m' & H1 & _ & H2).
  exists m'. split; [exact H1|].
  destruct H2 as (l & H3 & H4 & _); [vm_compute; discriminate|].
  exists l. split; [exact H3|]. rewrite H4. vm_compute. reflexivity.
Defined.

(** A connected call whose addresses were reconfigured no longer has the status
    CONNECTED, and nothing sets it again: starting its profile is answered
    OP_IN_PROGRESS, and its bit rate cannot be asked for. *)
Example reconfigured_call_not_connected (cb : string) (m : ManagerDemo.Ma) :
  active_sessions_ m !! 1 = Some 0%nat ->
  let call := setStatus NET_RECONFIGURED CallDemo.fresh in
  log (start_call (fun _ _ => call) ManagerDemo.params (Some cb) m) =
    log m ++ [CallCb cb None OP_IN_PROGRESS] /\
  requestDataCallBitRate (json := jval) true call =
    (SUCCESS_, BitRateNow (mkBitRate 0 0) INVALID_STATE).
Proof. intros Ha. unfold start_call. simpl. rewrite Ha. by split. Qed.

(** An answer whose [infos] cannot be decoded makes the reply function throw
    inside the bridge, and the blocked caller's [future.get()] throws. *)
Example malformed_throughput_breaks_promise :
  last_throughput_reply (Some (ManagerDemo.env (JObject [("infos", JArray [JInt 1])]))) = None /\
  throughput_result Broken [] = None.
Proof. by vm_compute. Qed.

(** Listeners are told UNAVAILABLE when the service failed. *)
Example failed_is_told_unavailable :
  let m := set_listeners [(7%nat, 1)] (ManagerDemo.after [ReadinessEvt_Signal (ManagerDemo.env ManagerDemo.available)]) in
  let '(leaf, m') := degrade ManagerDemo.alive_ SERVICE_FAILED m in
  last_status_ m' = SERVICE_FAILED /\
  log m' = [Enqueue [7%nat] (ServiceStatusChange SERVICE_UNAVAILABLE)].
Proof. by vm_compute. Qed.

(** A session that never started reports twice; a session of the same profile
    created between the two reports is forgotten while it lives. *)
Example second_report_forgets_session :
  let m := ManagerDemo.after [ReadinessEvt_Signal (ManagerDemo.env ManagerDemo.available);
    StartDataCall_Signal ManagerDemo.params (Some "a"); SessionFinished_Signal 1;
    StartDataCall_Signal ManagerDemo.params (Some "b"); SessionFinished_Signal 1] in
  (news m).*1 = [0; 1]%nat /\ active_sessions_ m = ∅.
Proof. by vm_compute. Qed.
