(* ===== verification/Ecall.v ===== *)
(** * Emergency calls: values and wire forms (tel/CallManager.cpp, tel/Call.cpp)

    The SDK's eCall enumerations with their wire names, the eCall configuration
    with its encoding and decoding, and the call object.  The manager that uses
    them is in EcallManager.v. *)

From S2P Require Import Prelude Json Envelope Manager.

Local Open Scope Z_scope.

(** ** Enumerations (telux/tel/ECallDefines.hpp, PhoneDefines.hpp) *)

Inductive ECallMode := MODE_NORMAL | ECALL_ONLY | MODE_NONE.
Inductive HlapTimerType :=
  | UNKNOWN_TIMER | T2_TIMER | T5_TIMER | T6_TIMER | T7_TIMER | T9_TIMER | T10_TIMER.
Inductive HlapTimerStatus := TS_UNKNOWN | TS_INACTIVE | TS_ACTIVE.
Inductive HlapTimerEvent :=
  | TE_UNKNOWN | TE_UNCHANGED | TE_STARTED | TE_STOPPED | TE_EXPIRED | TE_RESUMED.
(** The members the conversion yields. *)
Inductive ECallMsdTransmissionStatus :=
  | MSD_SUCCESS | MSD_FAILURE | MSD_STARTED | MSD_START_RECEIVED.
Inductive CallState :=
  | CALL_IDLE | CALL_ACTIVE | CALL_ON_HOLD | CALL_DIALING | CALL_INCOMING | CALL_WAITING
  | CALL_ALERTING | CALL_ENDED.
Inductive CallDirection := DIR_INCOMING | DIR_OUTGOING | DIR_NONE.
Inductive ReasonType :=
  | REDIAL_NONE | CALL_ORIG_FAILURE | CALL_DROPPED | MAX_REDIAL_ATTEMPTED | CALL_CONNECTED.
Inductive RedialConfigType := CALL_DROP | CALL_ORIG.
Inductive ECallNumType := NUM_DEFAULT | NUM_OVERRIDDEN.

#[export] Instance CallState_eq_dec : EqDecision CallState.
Proof. solve_decision. Defined.
#[export] Instance HlapTimerType_eq_dec : EqDecision HlapTimerType.
Proof. solve_decision. Defined.
#[export] Instance ECallNumType_eq_dec : EqDecision ECallNumType.
Proof. solve_decision. Defined.

Definition ecallModeToWire (mode : ECallMode) : string :=
  match mode with MODE_NORMAL => "NORMAL" | ECALL_ONLY => "ECALL_ONLY" | _ => "NONE" end.

Definition hlapTimerTypeToWire (type : HlapTimerType) : string :=
  match type with
  | T2_TIMER => "T2" | T5_TIMER => "T5" | T6_TIMER => "T6" | T7_TIMER => "T7" | T9_TIMER => "T9"
  | T10_TIMER => "T10" | _ => "UNKNOWN_TIMER"
  end.

Definition wireToHlapTimerStatus (s : string) : HlapTimerStatus :=
  if decide (s = "ACTIVE") then TS_ACTIVE
  else if decide (s = "INACTIVE") then TS_INACTIVE
  else TS_UNKNOWN.

Definition wireToHlapTimerEvent (s : string) : HlapTimerEvent :=
  if decide (s = "STARTED") then TE_STARTED
  else if decide (s = "STOPPED") then TE_STOPPED
  else if decide (s = "EXPIRED") then TE_EXPIRED
  else if decide (s = "RESUMED") then TE_RESUMED
  else if decide (s = "UNCHANGED") then TE_UNCHANGED
  else TE_UNKNOWN.

Definition wireToMsdTransmissionStatus (s : string) : ECallMsdTransmissionStatus :=
  if decide (s = "MSD_TRANSMISSION_SUCCESS" \/ s = "OUTBAND_MSD_TRANSMISSION_SUCCESS")
  then MSD_SUCCESS
  else if decide (s = "MSD_TRANSMISSION_FAILURE" \/ s = "OUTBAND_MSD_TRANSMISSION_FAILURE")
  then MSD_FAILURE
  else if decide (s = "MSD_TRANSMISSION_STARTED" \/ s = "OUTBAND_MSD_TRANSMISSION_STARTED")
  then MSD_STARTED
  else if decide (s = "START_RECEIVED") then MSD_START_RECEIVED
  else MSD_SUCCESS.

Definition wireToCallState (s : string) : CallState :=
  if decide (s = "DIALING") then CALL_DIALING
  else if decide (s = "ALERTING") then CALL_ALERTING
  else if decide (s = "ACTIVE") then CALL_ACTIVE
  else if decide (s = "INCOMING") then CALL_INCOMING
  else if decide (s = "WAITING") then CALL_WAITING
  else if decide (s = "HOLD") then CALL_ON_HOLD
  else if decide (s = "ENDED") then CALL_ENDED
  else CALL_IDLE.

Definition wireToCallDirection (s : string) : CallDirection :=
  if decide (s = "MT") then DIR_INCOMING else DIR_OUTGOING.

Definition wireToRedialReason (s : string) : ReasonType :=
  if decide (s = "CALL_ORIG_FAILURE") then CALL_ORIG_FAILURE
  else if decide (s = "CALL_DROP") then CALL_DROPPED
  else if decide (s = "MAX_REDIAL_ATTEMPTED") then MAX_REDIAL_ATTEMPTED
  else if decide (s = "CALL_CONNECTED") then CALL_CONNECTED
  else REDIAL_NONE.

Definition redialConfigToWire (c : RedialConfigType) : string :=
  match c with CALL_ORIG => "CALLORIG" | CALL_DROP => "CALLDROP" end.

(** ** The eCall configuration *)

(** [EcallConfigType]: the bits of the validity mask. *)
Definition ECALL_CONFIG_MUTE_RX_AUDIO : Z := 0.
Definition ECALL_CONFIG_NUM_TYPE : Z := 1.
Definition ECALL_CONFIG_OVERRIDDEN_NUM : Z := 2.
Definition ECALL_CONFIG_USE_CANNED_MSD : Z := 3.
Definition ECALL_CONFIG_GNSS_UPDATE_INTERVAL : Z := 4.
Definition ECALL_CONFIG_T2_TIMER : Z := 5.
Definition ECALL_CONFIG_T7_TIMER : Z := 6.
Definition ECALL_CONFIG_T9_TIMER : Z := 7.
Definition ECALL_CONFIG_MSD_VERSION : Z := 8.

Record EcallConfig := mkConfig {
  configValidityMask : Z;
  muteRxAudio : bool;
  numType : ECallNumType;
  overriddenNum : string;
  useCannedMsd : bool;
  gnssUpdateInterval : Z;
  t2Timer : Z;
  t7Timer : Z;
  t9Timer : Z;
  msdVersion : Z }.

(** [EcallConfig config{}]. *)
Definition zero_config : EcallConfig := mkConfig 0 false NUM_DEFAULT EmptyString false 0 0 0 0 0.

(** [configValidityMask.test(i)] and [.set(i)]. *)
Definition test (i : Z) (c : EcallConfig) : bool := Z.testbit (configValidityMask c) i.

(** [configValidityMask.set(i)] followed by the assignment of the field. *)
Definition set_mask (i : Z) (c : EcallConfig) := mkConfig (Z.setbit (configValidityMask c) i)
  (muteRxAudio c) (numType c) (overriddenNum c) (useCannedMsd c) (gnssUpdateInterval c) (t2Timer c)
  (t7Timer c) (t9Timer c) (msdVersion c).
Definition set_muteRxAudio x (c : EcallConfig) := mkConfig (configValidityMask c) x (numType c)
  (overriddenNum c) (useCannedMsd c) (gnssUpdateInterval c) (t2Timer c) (t7Timer c) (t9Timer c)
  (msdVersion c).
Definition set_numType x (c : EcallConfig) := mkConfig (configValidityMask c) (muteRxAudio c) x
  (overriddenNum c) (useCannedMsd c) (gnssUpdateInterval c) (t2Timer c) (t7Timer c) (t9Timer c)
  (msdVersion c).
Definition set_overriddenNum x (c : EcallConfig) := mkConfig (configValidityMask c) (muteRxAudio c)
  (numType c) x (useCannedMsd c) (gnssUpdateInterval c) (t2Timer c) (t7Timer c) (t9Timer c)
  (msdVersion c).
Definition set_useCannedMsd x (c : EcallConfig) := mkConfig (configValidityMask c) (muteRxAudio c)
  (numType c) (overriddenNum c) x (gnssUpdateInterval c) (t2Timer c) (t7Timer c) (t9Timer c)
  (msdVersion c).
Definition set_gnss x (c : EcallConfig) := mkConfig (configValidityMask c) (muteRxAudio c)
  (numType c) (overriddenNum c) (useCannedMsd c) x (t2Timer c) (t7Timer c) (t9Timer c)
  (msdVersion c).
Definition set_t2Timer x (c : EcallConfig) := mkConfig (configValidityMask c) (muteRxAudio c)
  (numType c) (overriddenNum c) (useCannedMsd c) (gnssUpdateInterval c) x (t7Timer c) (t9Timer c)
  (msdVersion c).
Definition set_t7Timer x (c : EcallConfig) := mkConfig (configValidityMask c) (muteRxAudio c)
  (numType c) (overriddenNum c) (useCannedMsd c) (gnssUpdateInterval c) (t2Timer c) x (t9Timer c)
  (msdVersion c).
Definition set_t9Timer x (c : EcallConfig) := mkConfig (configValidityMask c) (muteRxAudio c)
  (numType c) (overriddenNum c) (useCannedMsd c) (gnssUpdateInterval c) (t2Timer c) (t7Timer c) x
  (msdVersion c).
Definition set_msdVersion x (c : EcallConfig) := mkConfig (configValidityMask c) (muteRxAudio c)
  (numType c) (overriddenNum c) (useCannedMsd c) (gnssUpdateInterval c) (t2Timer c) (t7Timer c)
  (t9Timer c) x.

Section EcallWire.
Context {json : Type} `{Json json, JsonValues json}.

(** [if (mask.test(i)) { data[flag] = true; data[key] = v; }] *)
Definition put_valid (i : Z) (flag key : string) (v : json) (c : EcallConfig) (data : json) : json :=
  if test i c then jset key v (jset flag (of_bool true) data) else data.

Definition ecallConfigToWire (c : EcallConfig) : json :=
  let data := jobject in
  let data := put_valid ECALL_CONFIG_MUTE_RX_AUDIO "isMuteRxAudioValid" "muteRxAudio"
                (of_bool (muteRxAudio c)) c data in
  let data := put_valid ECALL_CONFIG_NUM_TYPE "isNumTypeValid" "numType"
                (of_string (if decide (numType c = NUM_OVERRIDDEN) then "OVERRIDDEN" else "DEFAULT"))
                c data in
  let data := put_valid ECALL_CONFIG_OVERRIDDEN_NUM "isOverriddenNumValid" "overriddenNum"
                (of_string (overriddenNum c)) c data in
  let data := put_valid ECALL_CONFIG_USE_CANNED_MSD "isUseCannedMsdValid" "useCannedMsd"
                (of_bool (useCannedMsd c)) c data in
  let data := put_valid ECALL_CONFIG_GNSS_UPDATE_INTERVAL "isGnssUpdateIntervalValid"
                "gnssUpdateInterval" (of_int (gnssUpdateInterval c)) c data in
  let data := put_valid ECALL_CONFIG_T2_TIMER "isT2TimerValid" "t2Timer" (of_int (t2Timer c)) c data in
  let data := put_valid ECALL_CONFIG_T7_TIMER "isT7TimerValid" "t7Timer" (of_int (t7Timer c)) c data in
  let data := put_valid ECALL_CONFIG_T9_TIMER "isT9TimerValid" "t9Timer" (of_int (t9Timer c)) c data in
  put_valid ECALL_CONFIG_MSD_VERSION "isMsdVersionValid" "msdVersion" (of_int (msdVersion c)) c data.

(** [if (data.value(flag, false)) { mask.set(i); field = ...; }], [read] giving
    the value of the field and [put] storing it. *)
Definition take_valid {A} (i : Z) (flag : string) (read : json -> option A)
    (put : A -> EcallConfig -> EcallConfig) (data : json) (c : EcallConfig) : option EcallConfig :=
  v ← value_bool flag false data;
  if v : bool then a ← read data; Some (put a (set_mask i c)) else Some c.

(** An [int] member stored in an unsigned field. *)
Definition read_unsigned (w : Z) (key : string) (data : json) : option Z :=
  n ← value_int key 0 data; Some (to_unsigned w n).

Definition read_numType (data : json) : option ECallNumType :=
  s ← value_string "numType" "" data;
  Some (if decide (s = "OVERRIDDEN") then NUM_OVERRIDDEN else NUM_DEFAULT).

Definition wireToEcallConfig (data : json) : option EcallConfig :=
  let c := zero_config in
  c ← take_valid ECALL_CONFIG_MUTE_RX_AUDIO "isMuteRxAudioValid" (value_bool "muteRxAudio" false)
        set_muteRxAudio data c;
  c ← take_valid ECALL_CONFIG_NUM_TYPE "isNumTypeValid" read_numType set_numType data c;
  c ← take_valid ECALL_CONFIG_OVERRIDDEN_NUM "isOverriddenNumValid"
        (value_string "overriddenNum" "") set_overriddenNum data c;
  c ← take_valid ECALL_CONFIG_USE_CANNED_MSD "isUseCannedMsdValid" (value_bool "useCannedMsd" false)
        set_useCannedMsd data c;
  c ← take_valid ECALL_CONFIG_GNSS_UPDATE_INTERVAL "isGnssUpdateIntervalValid"
        (read_unsigned 32 "gnssUpdateInterval") set_gnss data c;
  c ← take_valid ECALL_CONFIG_T2_TIMER "isT2TimerValid" (read_unsigned 32 "t2Timer") set_t2Timer data c;
  c ← take_valid ECALL_CONFIG_T7_TIMER "isT7TimerValid" (read_unsigned 32 "t7Timer") set_t7Timer data c;
  c ← take_valid ECALL_CONFIG_T9_TIMER "isT9TimerValid" (read_unsigned 32 "t9Timer") set_t9Timer data c;
  take_valid ECALL_CONFIG_MSD_VERSION "isMsdVersionValid" (read_unsigned 8 "msdVersion")
    set_msdVersion data c.

(** ** HLAP timers *)

Record ECallHlapTimerStatus := mkTimerStatus {
  ts_t2 : HlapTimerStatus; ts_t5 : HlapTimerStatus; ts_t6 : HlapTimerStatus;
  ts_t7 : HlapTimerStatus; ts_t9 : HlapTimerStatus; ts_t10 : HlapTimerStatus }.

(** [ECallHlapTimerStatus{}]: every member is the enumerator of value 0. *)
Definition zero_timer_status : ECallHlapTimerStatus :=
  mkTimerStatus TS_INACTIVE TS_INACTIVE TS_INACTIVE TS_INACTIVE TS_INACTIVE TS_INACTIVE.

Definition wireToTimerStatus (d : json) : option ECallHlapTimerStatus :=
  t2 ← value_string "t2" "" d;
  t5 ← value_string "t5" "" d;
  t6 ← value_string "t6" "" d;
  t7 ← value_string "t7" "" d;
  t9 ← value_string "t9" "" d;
  t10 ← value_string "t10" "" d;
  Some (mkTimerStatus (wireToHlapTimerStatus t2) (wireToHlapTimerStatus t5)
          (wireToHlapTimerStatus t6) (wireToHlapTimerStatus t7) (wireToHlapTimerStatus t9)
          (wireToHlapTimerStatus t10)).
End EcallWire.

Record ECallHlapTimerEvents := mkTimerEvents {
  te_t2 : HlapTimerEvent; te_t5 : HlapTimerEvent; te_t6 : HlapTimerEvent;
  te_t7 : HlapTimerEvent; te_t9 : HlapTimerEvent; te_t10 : HlapTimerEvent }.

(** What [std::map::operator[]] creates: the enumerators of value 0. *)
Definition zero_timer_events : ECallHlapTimerEvents :=
  mkTimerEvents TE_UNCHANGED TE_UNCHANGED TE_UNCHANGED TE_UNCHANGED TE_UNCHANGED TE_UNCHANGED.

(** The if-else chain of [HlapTimerEventEvt_Signal]. *)
Definition set_timer_event (timer : string) (a : HlapTimerEvent) (e : ECallHlapTimerEvents) :
    ECallHlapTimerEvents :=
  if decide (timer = "T2") then mkTimerEvents a (te_t5 e) (te_t6 e) (te_t7 e) (te_t9 e) (te_t10 e)
  else if decide (timer = "T5") then mkTimerEvents (te_t2 e) a (te_t6 e) (te_t7 e) (te_t9 e) (te_t10 e)
  else if decide (timer = "T6") then mkTimerEvents (te_t2 e) (te_t5 e) a (te_t7 e) (te_t9 e) (te_t10 e)
  else if decide (timer = "T7") then mkTimerEvents (te_t2 e) (te_t5 e) (te_t6 e) a (te_t9 e) (te_t10 e)
  else if decide (timer = "T9") then mkTimerEvents (te_t2 e) (te_t5 e) (te_t6 e) (te_t7 e) a (te_t10 e)
  else if decide (timer = "T10") then mkTimerEvents (te_t2 e) (te_t5 e) (te_t6 e) (te_t7 e) (te_t9 e) a
  else e.

(** The member of a timer type. *)
Definition timer_event (t : HlapTimerType) (e : ECallHlapTimerEvents) : HlapTimerEvent :=
  match t with
  | T2_TIMER => te_t2 e | T5_TIMER => te_t5 e | T6_TIMER => te_t6 e | T7_TIMER => te_t7 e
  | T9_TIMER => te_t9 e | T10_TIMER => te_t10 e | UNKNOWN_TIMER => TE_UNCHANGED
  end.

(** ** Correctness of the configuration codec *)

(** What survives: the fields whose bit is set; the others are not sent. *)
Definition sent_fields (c : EcallConfig) : EcallConfig :=
  mkConfig (configValidityMask c)
    (if test ECALL_CONFIG_MUTE_RX_AUDIO c then muteRxAudio c else false)
    (if test ECALL_CONFIG_NUM_TYPE c then numType c else NUM_DEFAULT)
    (if test ECALL_CONFIG_OVERRIDDEN_NUM c then overriddenNum c else EmptyString)
    (if test ECALL_CONFIG_USE_CANNED_MSD c then useCannedMsd c else false)
    (if test ECALL_CONFIG_GNSS_UPDATE_INTERVAL c then gnssUpdateInterval c else 0)
    (if test ECALL_CONFIG_T2_TIMER c then t2Timer c else 0)
    (if test ECALL_CONFIG_T7_TIMER c then t7Timer c else 0)
    (if test ECALL_CONFIG_T9_TIMER c then t9Timer c else 0)
    (if test ECALL_CONFIG_MSD_VERSION c then msdVersion c else 0).

(** The widths of the C++ types. *)
Record config_ok (c : EcallConfig) : Prop := {
  ok_mask : 0 <= configValidityMask c < 2 ^ 9;
  ok_gnss : 0 <= gnssUpdateInterval c < 2 ^ 32;
  ok_t2 : 0 <= t2Timer c < 2 ^ 32;
  ok_t7 : 0 <= t7Timer c < 2 ^ 32;
  ok_t9 : 0 <= t9Timer c < 2 ^ 32;
  ok_version : 0 <= msdVersion c < 2 ^ 8 }.

Section EcallCodec.
Context {json : Type} `{JsonSpec json, !JsonValues json, !JsonValuesSpec json}.

Lemma put_valid_object i flag key v c (data : json) :
  is_object data = true -> is_object (put_valid i flag key v c data) = true.
Proof. intros Ho. unfold put_valid. destruct (test i c); [|done]. by repeat apply jset_is_object. Qed.

Lemma put_valid_find i flag key v c (data : json) k :
  is_object data = true ->
  jfind k (put_valid i flag key v c data) =
    if decide (k = key \/ k = flag)
    then if test i c then Some (if decide (k = key) then v else of_bool true) else jfind k data
    else jfind k data.
Proof.
  intros Ho. unfold put_valid. destruct (test i c); [|by case_decide].
  rewrite !jset_find by (try apply jset_is_object; done).
  repeat case_decide; naive_solver.
Qed.

Lemma to_wire_object c : is_object (ecallConfigToWire c : json) = true.
Proof. unfold ecallConfigToWire. repeat apply put_valid_object. apply jobject_is_object. Qed.

(** Looking a member up in an encoded configuration. *)
Ltac find_in_config :=
  unfold ecallConfigToWire;
  repeat (rewrite put_valid_find by (repeat apply put_valid_object; apply jobject_is_object);
          match goal with |- context [decide ?P] =>
            first [ rewrite (decide_True (P := P)) by (first [by left|by right])
                  | rewrite (decide_False (P := P)) by (by intros [?|?]) ] end);
  repeat case_decide; try done; by rewrite jobject_find.

(** A member is present exactly when its bit is set. *)
Definition field_sent (i : Z) (flag key : string) (v : json) (c : EcallConfig) : Prop :=
  jfind flag (ecallConfigToWire c) = (if test i c then Some (of_bool true) else None) /\
  jfind key (ecallConfigToWire c) = (if test i c then Some v else None).

Lemma take_sent {A} i flag key v (read : json -> option A) put a c cfg :
  field_sent i flag key v c ->
  (jfind key (ecallConfigToWire c) = Some v -> read (ecallConfigToWire c) = Some a) ->
  take_valid i flag read put (ecallConfigToWire c) cfg =
    Some (if test i c then put a (set_mask i cfg) else cfg).
Proof.
  intros [Hf Hk] Hr. unfold take_valid, value_bool, value_as. rewrite to_wire_object, Hf.
  destruct (test i c); simpl; [|done].
  rewrite as_bool_boolean, of_bool_get by apply of_bool_is. simpl. by rewrite Hr.
Qed.

Lemma read_bool_sent key b c :
  jfind key (ecallConfigToWire c : json) = Some (of_bool b) ->
  value_bool key false (ecallConfigToWire c : json) = Some b.
Proof.
  intros Hk. unfold value_bool, value_as. rewrite to_wire_object, Hk.
  by rewrite as_bool_boolean, of_bool_get by apply of_bool_is.
Qed.

Lemma read_string_sent key def s c :
  jfind key (ecallConfigToWire c : json) = Some (of_string s) ->
  value_string key def (ecallConfigToWire c : json) = Some s.
Proof.
  intros Hk. unfold value_string. by rewrite to_wire_object, Hk, of_string_is, of_string_get.
Qed.

Lemma read_unsigned_sent w key n c :
  0 < w <= 32 -> 0 <= n < 2 ^ w ->
  jfind key (ecallConfigToWire c : json) = Some (of_int n) ->
  read_unsigned w key (ecallConfigToWire c : json) = Some n.
Proof.
  intros Hw Hn Hk. unfold read_unsigned, value_int, value_as. rewrite to_wire_object, Hk.
  assert (2 ^ w <= 2 ^ 32) by (apply Z.pow_le_mono_r; lia).
  rewrite as_int_integer, get_int_cast, of_int_get by (try apply of_int_is; unfold in_i64; lia).
  simpl. f_equal. apply to_unsigned_low; lia.
Qed.

Lemma read_numType_sent t c :
  jfind "numType" (ecallConfigToWire c : json) =
    Some (of_string (if decide (t = NUM_OVERRIDDEN) then "OVERRIDDEN" else "DEFAULT")) ->
  read_numType (ecallConfigToWire c : json) = Some t.
Proof.
  intros Hk. unfold read_numType. rewrite (read_string_sent _ _ _ _ Hk). simpl.
  by destruct t.
Qed.

(** The bits of a mask of nine bits determine it. *)
Lemma mask_bits (m : Z) :
  0 <= m < 2 ^ 9 ->
  m = foldl (fun k i => if Z.testbit m i then Z.setbit k i else k) 0 [0; 1; 2; 3; 4; 5; 6; 7; 8].
Proof.
  intros Hm.
  assert (Hall : Forall (fun m => m = foldl (fun k i => if Z.testbit m i then Z.setbit k i else k) 0
    [0; 1; 2; 3; 4; 5; 6; 7; 8]) (seqZ 0 512)) by (apply (bool_decide_unpack _); by vm_compute).
  rewrite Forall_forall in Hall. apply Hall, elem_of_seqZ. simpl in Hm. lia.
Qed.

(** Every field of an encoded configuration, where the decoder looks for it. *)
Lemma fields_sent c :
  field_sent ECALL_CONFIG_MUTE_RX_AUDIO "isMuteRxAudioValid" "muteRxAudio"
    (of_bool (muteRxAudio c)) c /\
  field_sent ECALL_CONFIG_NUM_TYPE "isNumTypeValid" "numType"
    (of_string (if decide (numType c = NUM_OVERRIDDEN) then "OVERRIDDEN" else "DEFAULT")) c /\
  field_sent ECALL_CONFIG_OVERRIDDEN_NUM "isOverriddenNumValid" "overriddenNum"
    (of_string (overriddenNum c)) c /\
  field_sent ECALL_CONFIG_USE_CANNED_MSD "isUseCannedMsdValid" "useCannedMsd"
    (of_bool (useCannedMsd c)) c /\
  field_sent ECALL_CONFIG_GNSS_UPDATE_INTERVAL "isGnssUpdateIntervalValid" "gnssUpdateInterval"
    (of_int (gnssUpdateInterval c)) c /\
  field_sent ECALL_CONFIG_T2_TIMER "isT2TimerValid" "t2Timer" (of_int (t2Timer c)) c /\
  field_sent ECALL_CONFIG_T7_TIMER "isT7TimerValid" "t7Timer" (of_int (t7Timer c)) c /\
  field_sent ECALL_CONFIG_T9_TIMER "isT9TimerValid" "t9Timer" (of_int (t9Timer c)) c /\
  field_sent ECALL_CONFIG_MSD_VERSION "isMsdVersionValid" "msdVersion" (of_int (msdVersion c)) c.
Proof. repeat split; find_in_config. Qed.

Lemma decode_config c :
  config_ok c -> wireToEcallConfig (ecallConfigToWire c : json) = Some (sent_fields c).
Proof.
  intros [Hm Hg H2 H7 H9 Hv]. unfold wireToEcallConfig.
  destruct (fields_sent c) as (F0 & F1 & F2 & F3 & F4 & F5 & F6 & F7 & F8).
  rewrite (take_sent _ _ _ _ _ _ _ _ _ F0 (read_bool_sent _ _ _)). cbn [mbind option_bind].
  rewrite (take_sent _ _ _ _ _ _ _ _ _ F1 (read_numType_sent _ _)). cbn [mbind option_bind].
  rewrite (take_sent _ _ _ _ _ _ _ _ _ F2 (read_string_sent _ _ _ _)). cbn [mbind option_bind].
  rewrite (take_sent _ _ _ _ _ _ _ _ _ F3 (read_bool_sent _ _ _)). cbn [mbind option_bind].
  rewrite (take_sent _ _ _ _ _ _ _ _ _ F4 (read_unsigned_sent 32 _ _ _ ltac:(lia) Hg)).
  cbn [mbind option_bind].
  rewrite (take_sent _ _ _ _ _ _ _ _ _ F5 (read_unsigned_sent 32 _ _ _ ltac:(lia) H2)).
  cbn [mbind option_bind].
  rewrite (take_sent _ _ _ _ _ _ _ _ _ F6 (read_unsigned_sent 32 _ _ _ ltac:(lia) H7)).
  cbn [mbind option_bind].
  rewrite (take_sent _ _ _ _ _ _ _ _ _ F7 (read_unsigned_sent 32 _ _ _ ltac:(lia) H9)).
  cbn [mbind option_bind].
  rewrite (take_sent _ _ _ _ _ _ _ _ _ F8 (read_unsigned_sent 8 _ _ _ ltac:(lia) Hv)).
  f_equal. clear -Hm. unfold sent_fields.
  rewrite (mask_bits (configValidityMask c) Hm) at 1.
  unfold test, ECALL_CONFIG_MUTE_RX_AUDIO, ECALL_CONFIG_NUM_TYPE, ECALL_CONFIG_OVERRIDDEN_NUM,
    ECALL_CONFIG_USE_CANNED_MSD, ECALL_CONFIG_GNSS_UPDATE_INTERVAL, ECALL_CONFIG_T2_TIMER,
    ECALL_CONFIG_T7_TIMER, ECALL_CONFIG_T9_TIMER, ECALL_CONFIG_MSD_VERSION. cbn [foldl].
  repeat match goal with |- context [Z.testbit ?m ?i] => destruct (Z.testbit m i) end; reflexivity.
Qed.
Lemma setbit_mask m i : 0 <= m < 2 ^ 9 -> 0 <= i < 9 -> 0 <= Z.setbit m i < 2 ^ 9.
Proof.
  intros Hm Hi.
  assert (Hall : Forall (fun m => Forall (fun i => 0 <= Z.setbit m i < 512) (seqZ 0 9)) (seqZ 0 512))
    by (apply (bool_decide_unpack _); by vm_compute).
  rewrite Forall_forall in Hall. specialize (Hall m ltac:(apply elem_of_seqZ; simpl in Hm; lia)).
  rewrite Forall_forall in Hall. apply (Hall i), elem_of_seqZ. lia.
Qed.

Lemma take_valid_ok {A} i flag (read : json -> option A) put data c c' :
  0 <= i < 9 -> config_ok c ->
  (forall a, read data = Some a -> config_ok (set_mask i c) -> config_ok (put a (set_mask i c))) ->
  take_valid i flag read put data c = Some c' -> config_ok c'.
Proof.
  intros Hi Hc Hput Ht. unfold take_valid in Ht.
  destruct (value_bool flag false data) as [v|]; simpl in Ht; [|done].
  destruct v; [|by simplify_eq]. destruct (read data) as [a|]; simplify_eq/=.
  apply Hput; [done|]. destruct Hc. split; simpl; try done. by apply setbit_mask.
Qed.

Lemma read_unsigned_range w key (data : json) n :
  0 < w -> read_unsigned w key data = Some n -> 0 <= n < 2 ^ w.
Proof.
  intros Hw. unfold read_unsigned. destruct (value_int key 0 data); simpl; [|done].
  intros [= <-]. unfold to_unsigned. apply Z.mod_pos_bound. lia.
Qed.

Lemma decoded_ok (d : json) c : wireToEcallConfig d = Some c -> config_ok c.
Proof.
  unfold wireToEcallConfig. intros Hd.
  assert (Hz : config_ok zero_config) by (split; simpl; lia).
  assert (Hbool : forall x c, config_ok c -> config_ok (set_muteRxAudio x c)) by (by intros ? ? []).
  assert (Hu : forall x c, config_ok c -> config_ok (set_useCannedMsd x c)) by (by intros ? ? []).
  assert (Hn : forall x c, config_ok c -> config_ok (set_numType x c)) by (by intros ? ? []).
  assert (Ho : forall x c, config_ok c -> config_ok (set_overriddenNum x c)) by (by intros ? ? []).
  repeat (apply bind_Some in Hd as (? & Hx & Hd);
    apply take_valid_ok in Hx;
      [clear Hz; rename Hx into Hz|done|done|
       intros a Ha Hm; first [ by auto | apply read_unsigned_range in Ha; [by destruct Hm|lia] ]]).
  apply take_valid_ok in Hd; [done|done|done|].
  intros a Ha Hm. apply read_unsigned_range in Ha; [by destruct Hm|lia].
Qed.

(** The encoding only depends on the fields that are sent. *)
Lemma put_valid_sent i flag key v v' c c' (data data' : json) :
  test i c' = test i c -> (test i c = true -> v' = v) -> data' = data ->
  put_valid i flag key v' c' data' = put_valid i flag key v c data.
Proof. intros Ht Hv ->. unfold put_valid. rewrite Ht. destruct (test i c); [by rewrite Hv|done]. Qed.

Lemma encode_sent c : ecallConfigToWire (sent_fields c) = (ecallConfigToWire c : json).
Proof.
  unfold ecallConfigToWire.
  repeat (apply put_valid_sent; [done|intros Ht; unfold sent_fields;
    cbn [muteRxAudio numType overriddenNum useCannedMsd gnssUpdateInterval t2Timer t7Timer t9Timer
      msdVersion]; by rewrite Ht|]). done.
Qed.
End EcallCodec.

(** The eCall configuration survives the wire. Decoding an encoded
    configuration whose fields are in the range of their C++ types gives back the
    validity mask and every field the mask declares valid, and the zero value for
    the others, which are not sent; encoding does not depend on those. Whatever
    the modem sends, a configuration that is decoded at all has its fields within
    the widths of their types. *)
Theorem ecall_config_roundtrip {json} `{JsonSpec json, !JsonValues json, !JsonValuesSpec json}
    (c : EcallConfig) :
  config_ok c ->
  wireToEcallConfig (ecallConfigToWire c : json) = Some (sent_fields c) /\
  ecallConfigToWire (sent_fields c) = (ecallConfigToWire c : json) /\
  (forall (d : json) c', wireToEcallConfig d = Some c' -> config_ok c').
Proof.
  intros Hc. split; [by apply decode_config|]. split; [apply encode_sent|exact decoded_ok].
Qed.

Module ConfigDemo.
Definition config : EcallConfig :=
  mkConfig 0x1A1 true NUM_OVERRIDDEN "112" true 5000 4000000000 7000 3600000 2.
Lemma config_fits : config_ok config.
Proof. split; simpl; lia. Qed.
End ConfigDemo.

Lemma ecall_config_roundtrip_witness :
  wireToEcallConfig (ecallConfigToWire ConfigDemo.config : jval) =
    Some (mkConfig 0x1A1 true NUM_DEFAULT "" false 0 4000000000 0 3600000 2).
Proof. exact (proj1 (ecall_config_roundtrip ConfigDemo.config ConfigDemo.config_fits)). Defined.

(** ** The call object (tel/Call.cpp) *)

Record Call := mkCall {
  phoneId_ : Z;
  callIndex_ : Z;
  direction_ : CallDirection;
  remotePartyNumber_ : string;
  callState_ : CallState;
  endCause_ : Z }.

(** [CallEndCause::NORMAL]. *)
Definition END_NORMAL : Z := 16.

Definition SimulaCall (phoneId callIndex : Z) (dir : CallDirection) (number : string) : Call :=
  mkCall phoneId callIndex dir number CALL_IDLE END_NORMAL.

Definition setCallState (s : CallState) (c : Call) : Call :=
  mkCall (phoneId_ c) (callIndex_ c) (direction_ c) (remotePartyNumber_ c) s (endCause_ c).
Definition setCallEndCause (cause : Z) (c : Call) : Call :=
  mkCall (phoneId_ c) (callIndex_ c) (direction_ c) (remotePartyNumber_ c) (callState_ c) cause.

(** [answer], [hangup] and [reject] send one request each and return SUCCESS;
    the modem's answer is passed to the callback. *)
Inductive call_control := Answer | Hangup | Reject.

Definition control_topic (k : call_control) : string :=
  match k with
  | Answer => "ecall.answer_ecall.req"
  | Hangup | Reject => "ecall.end_ecall.req"
  end.
Definition control_schema (k : call_control) : string :=
  match k with
  | Answer => "ecall.answer_ecall.rsp"
  | Hangup | Reject => "ecall.end_ecall.rsp"
  end.

Section CallControl.
Context {json : Type} `{Json json, JsonValues json} {C : Type}.

(** Topic, response schema and payload of the request; the status returned. *)
Definition sendCallControlRequest (k : call_control) (c : Call) : Status * (string * string * json) :=
  let data := jset "phoneId" (of_int (phoneId_ c)) jobject in
  let data := jset "callIndex" (of_int (callIndex_ c)) data in
  (SUCCESS_, (control_topic k, control_schema k, data)).

(** The code a response stands for: the error's own, [OPERATION_TIMEOUT]
    without a response; [None]: the conversion throws. *)
Definition response_code (rsp : option (Envelope json)) : option Z :=
  match rsp with
  | None => Some OPERATION_TIMEOUT
  | Some env =>
      match error env with
      | Some err => code ← value_string "code" "" err; Some (parseErrorCode code)
      | None => Some SUCCESS
      end
  end.

(** The function given to [send_request]: what it tells the callback. *)
Definition control_reply (cb : option C) (rsp : option (Envelope json)) : option (list (C * Z)) :=
  match cb with
  | None => Some []
  | Some c => code ← response_code rsp; Some [(c, code)]
  end.
End CallControl.

(** The operations the simulation does not support answer at once. *)
Definition unsupported {C} (cb : option C) : Status * list (C * Z) :=
  (NOTSUPPORTED, (fun c => (c, NOT_SUPPORTED)) <$> option_list cb).
Definition hold {C} : option C -> _ := @unsupported C.
Definition resume {C} : option C -> _ := @unsupported C.
Definition playDtmfTone {C} : option C -> _ := @unsupported C.
Definition startDtmfTone {C} : option C -> _ := @unsupported C.
Definition stopDtmfTone {C} : option C -> _ := @unsupported C.
