(* ===== verification/EcallManager.v ===== *)
(** * The eCall manager (tel/CallManager.cpp)

    One active object for all phones.  Clients' operations are posted to it as
    functions ([RunOnAoPld]); here they are the constructors of [ecall_op], by
    what the function captures, and the same constructors stand for the function
    given to [send_request].  Answers of the modem run on the bridge's thread:
    [reply] is what they do to the shared state and to the clients.

    Calls are objects the clients keep pointers to: [heap] holds every call ever
    made, and a pointer is an index into it.  [std::map] iterates by key
    ([token_items]). *)

From S2P Require Import Prelude Hsm HsmSpec ActiveObject Json Envelope InitGate Manager Ecall.

Local Open Scope Z_scope.

Section EcallManager.
Context {json : Type} `{Json json, JsonValues json}.
(** Clients' callbacks, listeners, promises. *)
Context {C L P : Type} `{EqDecision L}.
Context (topic : string -> string) (paId : string) (now_at counter_at : nat -> Z).

Inductive ecall_op :=
  | OpMakeECall (phoneId : Z) (type : string) (isMsdTransmitted : bool)
      (remotePartyNumber dialNumber : string) (notify : option C)
  | OpUpdateMsd (phoneId : Z) (cb : option C)
  | OpTimerStatus (phoneId : Z) (cb : option C)
  | OpDeregister (phoneId : Z) (cb : option C)
  | OpUpdateTimer (phoneId : Z) (type : HlapTimerType) (timeDuration : Z) (cb : option C)
  | OpRequestTimer (phoneId : Z) (type : HlapTimerType) (cb : option C)
  | OpSetConfig (config : EcallConfig) (promise : P)
  | OpGetConfig (promise : P)
  | OpConfigureRedial (config : RedialConfigType) (timeGap : list Z) (cb : option C)
  | OpGetRedial (promise : P).

Inductive ecall_event :=
  | ReadinessEvt_Signal (env : Envelope json)
  | BridgeConnectivityChanged_Signal (operational : bool)
  | RunEcallOp_Signal (op : ecall_op)
  | CallStateEvt_Signal (env : Envelope json)
  | MsdStatusEvt_Signal (env : Envelope json)
  | HlapTimerEventEvt_Signal (env : Envelope json)
  | RedialEvt_Signal (env : Envelope json)
  | SetInitCb_Signal (cb : option C).

(** What listeners are told; a call is a pointer. *)
Inductive call_notification :=
  | onCallInfoChange (call : nat)
  | onECallMsdTransmissionStatus (phoneId : Z) (status : ECallMsdTransmissionStatus)
  | onECallRedial (phoneId : Z) (willECallRedial : bool) (reason : ReasonType)
  | onECallHlapTimerEvent (phoneId : Z) (events : ECallHlapTimerEvents).

Inductive ecall_effect :=
  | Request (op : ecall_op) (topic schema : string) (env : Envelope json) (timeout : Z)
  | CallResponse (cb : C) (code : Z) (call : option nat)
  | Response (cb : C) (code : Z)
  | TimerStatusResponse (cb : C) (code phoneId : Z) (status : ECallHlapTimerStatus)
  | TimerResponse (cb : C) (code timeDuration : Z)
  | InitResponse (cb : C) (s : ServiceStatus)
  | SetCode (promise : P) (code : Z)
  | SetConfigResult (promise : P) (code : Z) (config : EcallConfig)
  | SetRedialResult (promise : P) (code : Z) (callOrig callDrop : list Z)
  | BreakPromise (promise : P)         (* destroyed without a value *)
  | Enqueue (listeners : list L) (n : call_notification).

Inductive ecall_state := CallMgrNotReady_St | CallMgrReady_St.

#[global] Instance ecall_state_eq_dec : EqDecision ecall_state.
Proof. solve_decision. Defined.

Record CallManager := mkCallManager {
  init_cbs_ : list C;
  calls_ : gmap Z nat;
  heap : list Call;
  hlapEvents_ : gmap Z ECallHlapTimerEvents;
  listeners_ : list L;
  log : list ecall_effect }.

Definition set_init_cbs l (m : CallManager) :=
  mkCallManager l (calls_ m) (heap m) (hlapEvents_ m) (listeners_ m) (log m).
Definition set_calls cs h (m : CallManager) :=
  mkCallManager (init_cbs_ m) cs h (hlapEvents_ m) (listeners_ m) (log m).
Definition set_hlap e (m : CallManager) :=
  mkCallManager (init_cbs_ m) (calls_ m) (heap m) e (listeners_ m) (log m).
Definition set_listeners ls (m : CallManager) :=
  mkCallManager (init_cbs_ m) (calls_ m) (heap m) (hlapEvents_ m) ls (log m).
Definition emit l (m : CallManager) :=
  mkCallManager (init_cbs_ m) (calls_ m) (heap m) (hlapEvents_ m) (listeners_ m) (log m ++ l).

(** No handler of the manager posts to the manager itself. *)
Definition outbox (m : CallManager) : list (post ecall_event) := [].
Definition flush (m : CallManager) : CallManager := m.

Definition SimulaCallManager (initCb : option C) : CallManager :=
  mkCallManager (option_list initCb) ∅ [] ∅ [] [].

(** ** Helpers *)

Definition broadcastToListeners_ (n : call_notification) (m : CallManager) : CallManager :=
  if decide (listeners_ m = []) then m else emit [Enqueue (listeners_ m) n] m.

(** The object behind a pointer; pointers never dangle. *)
Definition deref (id : nat) (m : CallManager) : Call :=
  default (SimulaCall 0 0 DIR_NONE EmptyString) (heap m !! id).

Definition set_call_state (s : CallState) (id : nat) (m : CallManager) : CallManager :=
  set_calls (calls_ m) (alter (setCallState s) id (heap m)) m.

(** The critical section of [findOrCreateCall_]: the call, and the call it
    replaced if that had not ended. *)
Definition find_or_create (phoneId callIndex : Z) (dir : CallDirection) (number : string)
    (m : CallManager) : nat * option nat * CallManager :=
  let fresh stale :=
    let id := length (heap m) in
    (id, stale, set_calls (<[phoneId := id]> (calls_ m))
                  (heap m ++ [SimulaCall phoneId callIndex dir number]) m) in
  match calls_ m !! phoneId with
  | None => fresh None
  | Some id =>
      if decide (callIndex_ (deref id m) = callIndex) then (id, None, m)
      else fresh (if decide (callState_ (deref id m) <> CALL_ENDED) then Some id else None)
  end.

(** The rest of it, outside the mutex. *)
Definition end_stale (stale : option nat) (m : CallManager) : CallManager :=
  match stale with
  | Some id => broadcastToListeners_ (onCallInfoChange id) (set_call_state CALL_ENDED id m)
  | None => m
  end.

Definition findOrCreateCall_ (phoneId callIndex : Z) (dir : CallDirection) (number : string)
    (m : CallManager) : nat * CallManager :=
  let '(id, stale, m) := find_or_create phoneId callIndex dir number m in
  (id, end_stale stale m).

(** ** Requests *)

Definition requests_sent (m : CallManager) : nat :=
  length (omap (fun e => match e with Request o _ _ _ _ => Some o | _ => None end) (log m)).

Definition send_op (op : ecall_op) (name : string) (payload : json) (m : CallManager) : CallManager :=
  let n := requests_sent m in
  let env := fst (makeRequestEnvelope (now_at n) (counter_at n) paId payload) in
  emit [Request op (topic (name +:+ ".req")) (name +:+ ".rsp") env kRpcTimeout] m.

Definition phone_request (phoneId : Z) : json := jset "phoneId" (of_int phoneId) jobject.

Definition make_ecall_request (phoneId : Z) (type : string) (isMsdTransmitted : bool)
    (remotePartyNumber dialNumber : string) : json :=
  let data := phone_request phoneId in
  let data := jset "type" (of_string type) data in
  let data := jset "isMsdTransmitted" (of_bool isMsdTransmitted) data in
  let data := if decide (remotePartyNumber = EmptyString) then data
              else jset "remotePartyNumber" (of_string remotePartyNumber) data in
  if decide (dialNumber = EmptyString) then data
  else jset "dialNumber" (of_string dialNumber) data.

(** The function an operation posts, run on the worker. *)
Definition run_op (op : ecall_op) (m : CallManager) : CallManager :=
  match op with
  | OpMakeECall phoneId type msd remote dial _ =>
      send_op op "ecall.start_ecall" (make_ecall_request phoneId type msd remote dial) m
  | OpUpdateMsd phoneId _ => send_op op "ecall.send_msd" (phone_request phoneId) m
  | OpTimerStatus phoneId _ =>
      send_op op "ecall.request_hlap_timer_status" (phone_request phoneId) m
  | OpDeregister phoneId _ =>
      send_op op "ecall.request_network_deregistration" (phone_request phoneId) m
  | OpUpdateTimer phoneId type dur _ =>
      send_op op "ecall.update_hlap_timer"
        (jset "timeDuration" (of_int dur)
           (jset "type" (of_string (hlapTimerTypeToWire type)) (phone_request phoneId))) m
  | OpRequestTimer phoneId type _ =>
      send_op op "ecall.request_hlap_timer"
        (jset "type" (of_string (hlapTimerTypeToWire type)) (phone_request phoneId)) m
  | OpSetConfig config _ => send_op op "ecall.set_config" (ecallConfigToWire config) m
  | OpGetConfig _ => send_op op "ecall.get_config" jobject m
  | OpConfigureRedial config timeGap _ =>
      send_op op "ecall.configure_ecall_redial"
        (jset "timeGap" (of_array (of_int <$> timeGap))
           (jset "config" (of_string (redialConfigToWire config)) jobject)) m
  | OpGetRedial _ => send_op op "ecall.get_ecall_redial_config" jobject m
  end.

(** An operation that is dropped: its event is destroyed, and with it the
    promise of a blocking call. *)
Definition drop_op (op : ecall_op) (m : CallManager) : CallManager :=
  match op with
  | OpSetConfig _ p | OpGetConfig p | OpGetRedial p => emit [BreakPromise p] m
  | _ => m
  end.

(** ** Answers of the modem

    The function given to [send_request], run by the bridge.  What throws in it
    is swallowed by the bridge: what was done before stays done, and a promise it
    captured is destroyed. *)

Definition tell (cb : option C) (f : C -> ecall_effect) (m : CallManager) : CallManager :=
  match cb with Some c => emit [f c] m | None => m end.

(** The data of a response without error. *)
Definition rsp_data (rsp : option (Envelope json)) : option json :=
  match rsp with
  | Some env => match error env with Some _ => None | None => data env end
  | None => None
  end.

(** The code of a response that failed: its error's, or [OPERATION_TIMEOUT];
    [None]: it throws. *)
Definition failure_code (rsp : option (Envelope json)) : option Z :=
  match rsp ≫= error with
  | Some err => code ← value_string "code" "" err; Some (parseErrorCode code)
  | None => Some OPERATION_TIMEOUT
  end.

Definition failed (rsp : option (Envelope json)) : bool :=
  match rsp with Some env => bool_decide (is_Some (error env)) | None => true end.

(** [or_lost o k m]: go on with the value of [o], or lose the rest when it throws. *)
Definition or_lost {A} (o : option A) (k : A -> CallManager) (m : CallManager) : CallManager :=
  match o with Some a => k a | None => m end.

(** The members of a reported call: index, direction, number. *)
Definition call_members (call : json) : option (Z * CallDirection * string) :=
  i ← value_int "callIndex" 0 call;
  d ← value_string "direction" "" call;
  n ← value_string "remotePartyNumber" "" call;
  Some (i, wireToCallDirection d, n).

Definition make_ecall_reply (phoneId : Z) (notify : option C) (rsp : option (Envelope json))
    (m : CallManager) : CallManager :=
  match rsp_data rsp with
  | None =>
      or_lost (failure_code rsp) (fun code => tell notify (fun c => CallResponse c code None) m) m
  | Some d =>
      or_lost (call ← jat "call" d; ms ← call_members call; Some (call, ms))
        (fun '(call, (callIndex, dir, number)) =>
           let '(id, m) := findOrCreateCall_ phoneId callIndex dir number m in
           or_lost (value_string "callState" "" call)
             (fun s => tell notify (fun c => CallResponse c SUCCESS (Some id))
                         (set_call_state (wireToCallState s) id m)) m) m
  end.

(** [sent_msd]: any failure is reported as [OPERATION_TIMEOUT]. *)
Definition msd_reply (cb : option C) (rsp : option (Envelope json)) (m : CallManager) : CallManager :=
  tell cb (fun c => Response c (if failed rsp then OPERATION_TIMEOUT else SUCCESS)) m.

Definition command_reply (cb : option C) (rsp : option (Envelope json)) (m : CallManager) :
    CallManager :=
  match cb with
  | None => m
  | Some c =>
      or_lost (if failed rsp then failure_code rsp else Some SUCCESS)
        (fun code => emit [Response c code] m) m
  end.

Definition timer_status_reply (phoneId : Z) (cb : option C) (rsp : option (Envelope json))
    (m : CallManager) : CallManager :=
  match cb with
  | None => m
  | Some c =>
      match rsp_data rsp with
      | None => emit [TimerStatusResponse c OPERATION_TIMEOUT phoneId zero_timer_status] m
      | Some d =>
          or_lost (wireToTimerStatus d)
            (fun status => emit [TimerStatusResponse c SUCCESS phoneId status] m) m
      end
  end.

(** An [int] passed where an [uint32_t] is expected. *)
Definition request_timer_reply (cb : option C) (rsp : option (Envelope json)) (m : CallManager) :
    CallManager :=
  match cb with
  | None => m
  | Some c =>
      match rsp_data rsp with
      | None => or_lost (failure_code rsp) (fun code => emit [TimerResponse c code 0] m) m
      | Some d =>
          or_lost (value_int "timeDuration" 0 d)
            (fun n => emit [TimerResponse c SUCCESS (to_unsigned 32 n)] m) m
      end
  end.

Definition set_config_reply (p : P) (rsp : option (Envelope json)) (m : CallManager) : CallManager :=
  emit [SetCode p (if failed rsp then OPERATION_TIMEOUT else SUCCESS)] m.

Definition get_config_reply (p : P) (rsp : option (Envelope json)) (m : CallManager) : CallManager :=
  match rsp_data rsp with
  | None => emit [SetConfigResult p OPERATION_TIMEOUT zero_config] m
  | Some d =>
      or_lost (wireToEcallConfig d) (fun config => emit [SetConfigResult p SUCCESS config] m)
        (emit [BreakPromise p] m)
  end.

Definition get_redial_reply (p : P) (rsp : option (Envelope json)) (m : CallManager) : CallManager :=
  match rsp_data rsp with
  | None => emit [SetRedialResult p OPERATION_TIMEOUT [] []] m
  | Some d =>
      or_lost (o ← value_ints "callOrigTimeGap" d; r ← value_ints "callDropTimeGap" d; Some (o, r))
        (fun '(o, r) => emit [SetRedialResult p SUCCESS o r] m)
        (emit [BreakPromise p] m)
  end.

Definition reply (op : ecall_op) (rsp : option (Envelope json)) (m : CallManager) : CallManager :=
  match op with
  | OpMakeECall phoneId _ _ _ _ notify => make_ecall_reply phoneId notify rsp m
  | OpUpdateMsd _ cb => msd_reply cb rsp m
  | OpTimerStatus phoneId cb => timer_status_reply phoneId cb rsp m
  | OpDeregister _ cb | OpUpdateTimer _ _ _ cb | OpConfigureRedial _ _ cb => command_reply cb rsp m
  | OpRequestTimer _ _ cb => request_timer_reply cb rsp m
  | OpSetConfig _ p => set_config_reply p rsp m
  | OpGetConfig p => get_config_reply p rsp m
  | OpGetRedial p => get_redial_reply p rsp m
  end.

(** ** Indications *)

Definition call_state_evt (d : json) (m : CallManager) : outcome CallManager :=
  phoneId ← or_die (value_int "phoneId" 0 d);
  '(callIndex, dir, number) ← or_die (call_members d);
  let '(id, m) := findOrCreateCall_ phoneId callIndex dir number m in
  s ← or_die (value_string "callState" "" d);
  Done (broadcastToListeners_ (onCallInfoChange id) (set_call_state (wireToCallState s) id m)).

Definition msd_status_evt (d : json) (m : CallManager) : outcome CallManager :=
  phoneId ← or_die (value_int "phoneId" 0 d);
  s ← or_die (value_string "status" "" d);
  Done (broadcastToListeners_
          (onECallMsdTransmissionStatus phoneId (wireToMsdTransmissionStatus s)) m).

Definition redial_evt (d : json) (m : CallManager) : outcome CallManager :=
  phoneId ← or_die (value_int "phoneId" 0 d);
  w ← or_die (value_bool "willRedial" false d);
  r ← or_die (value_string "reason" "" d);
  Done (broadcastToListeners_ (onECallRedial phoneId w (wireToRedialReason r)) m).

Definition hlap_timer_evt (d : json) (m : CallManager) : outcome CallManager :=
  phoneId ← or_die (value_int "phoneId" 0 d);
  timer ← or_die (value_string "timer" "" d);
  a ← or_die (value_string "action" "" d);
  let events := set_timer_event timer (wireToHlapTimerEvent a)
                  (default zero_timer_events (hlapEvents_ m !! phoneId)) in
  let m := set_hlap (<[phoneId := events]> (hlapEvents_ m)) m in
  Done (broadcastToListeners_ (onECallHlapTimerEvent phoneId events) m).

(** ** State handlers *)

Definition result : Type := outcome (verdict ecall_state * CallManager).
Definition handled (m : CallManager) : result := Done (Handled, m).
Definition goto (t : ecall_state) (m : CallManager) : result := Done (To (st t), m).
Definition super (m : CallManager) : result := Done (Super top, m).

(** [env.data ? env.data->value("status", "") : ""]. *)
Definition status_of (env : Envelope json) : outcome string :=
  match data env with Some d => or_die (value_string "status" "" d) | None => Done EmptyString end.

Definition with_data (env : Envelope json) (f : json -> CallManager -> outcome CallManager)
    (m : CallManager) : result :=
  match data env with None => handled m | Some d => m ← f d m; handled m end.

Definition on_NotReady (e : Event ecall_event) (m : CallManager) : result :=
  match e with
  | Entry_Signal | Exit_Signal => handled m
  | User (ReadinessEvt_Signal env) =>
      s ← status_of env;
      if decide (s = "AVAILABLE") then goto CallMgrReady_St m else handled m
  | User (BridgeConnectivityChanged_Signal _) => handled m
  | User (CallStateEvt_Signal _) | User (MsdStatusEvt_Signal _)
  | User (HlapTimerEventEvt_Signal _) | User (RedialEvt_Signal _) => handled m
  | User (SetInitCb_Signal cb) => handled (set_init_cbs (init_cbs_ m ++ option_list cb) m)
  | User (RunEcallOp_Signal op) => handled (drop_op op m)
  | _ => super m
  end.

(** The init callbacks, once. *)
Definition ready_entry (m : CallManager) : CallManager :=
  emit ((fun c => InitResponse c SERVICE_AVAILABLE) <$> init_cbs_ m) (set_init_cbs [] m).

Definition on_Ready (e : Event ecall_event) (m : CallManager) : result :=
  match e with
  | Entry_Signal => handled (ready_entry m)
  | Exit_Signal => handled m
  | User (SetInitCb_Signal cb) =>
      handled (tell cb (fun c => InitResponse c SERVICE_AVAILABLE) m)
  | User (ReadinessEvt_Signal env) =>
      s ← status_of env;
      if decide (s = "UNAVAILABLE") then goto CallMgrNotReady_St m else handled m
  | User (BridgeConnectivityChanged_Signal operational) =>
      if negb operational then goto CallMgrNotReady_St m else handled m
  | User (RunEcallOp_Signal op) => handled (run_op op m)
  | User (CallStateEvt_Signal env) => with_data env call_state_evt m
  | User (MsdStatusEvt_Signal env) => with_data env msd_status_evt m
  | User (RedialEvt_Signal env) => with_data env redial_evt m
  | User (HlapTimerEventEvt_Signal env) => with_data env hlap_timer_evt m
  | _ => super m
  end.

Definition handler (x : ecall_state) : Event ecall_event -> CallManager -> result :=
  match x with CallMgrNotReady_St => on_NotReady | CallMgrReady_St => on_Ready end.

Definition parent (x : ecall_state) : option ecall_state := None.
Definition lineage (x : ecall_state) : list ecall_state := [x].
Definition swallow (x : ecall_state) : bool := false.

Lemma ecall_data_verdict env f (m m' : CallManager) v :
  with_data env f m = Done (v, m') -> v = Handled.
Proof.
  unfold with_data. destruct (data env) as [d|]; [|by intros [= <- _]].
  destruct (f d m) as [m1|]; simpl; [|done]. by intros [= <- _].
Qed.

#[global] Instance wf_ecall : wf_chart handler parent lineage swallow.
Proof.
  constructor; try done.
  - intros s. unfold lineage, kMaxNest. simpl. lia.
  - by intros [].
  - intros [] b v b'; simpl; intros [= <- _]; auto.
  - intros [] e m v m'; destruct e; try (by intros ->%ecall_data_verdict); simpl;
      try (by intros [= <- _]); try (destruct (status_of env); simpl; [|done]);
      try case_decide; try destruct operational; intros [= <- _]; eauto.
  - intros [] b t b'; simpl; by intros [=].
Qed.

(** ** The public interface *)

Definition AOCallManager : Type := AO ecall_state ecall_event CallManager.

Definition isReadyDerived_ (c : AOCallManager) : bool :=
  bool_decide (Hsm.state_ (hsm c) = st CallMgrReady_St).
Definition getServiceStatus (c : AOCallManager) : ServiceStatus :=
  if isReadyDerived_ c then SERVICE_AVAILABLE else SERVICE_UNAVAILABLE.

Definition start (ndebug : bool) (c : AOCallManager) : outcome AOCallManager :=
  if running_ c then Done c else start_at handler ndebug true (st CallMgrNotReady_St) c.
Definition ensureStarted_ (ndebug : bool) (c : AOCallManager) : outcome AOCallManager :=
  if running_ c then Done c else start ndebug c.

(** The callback is called at once when ready, later otherwise. *)
Definition setInitCallback (ndebug : bool) (cb : option C) (c : AOCallManager) :
    outcome (list ecall_effect * AOCallManager) :=
  match cb with
  | None => Done ([], c)
  | Some k =>
      c ← ensureStarted_ ndebug c;
      if isReadyDerived_ c then Done ([InitResponse k SERVICE_AVAILABLE], c)
      else Done ([], post_fifo (SetInitCb_Signal cb) c)
  end.

(** Every asynchronous operation: refused at once, with its callback, unless
    ready. *)
Definition request (ndebug : bool) (op : ecall_op) (refusal : list ecall_effect)
    (c : AOCallManager) : outcome (Status * list ecall_effect * AOCallManager) :=
  c ← ensureStarted_ ndebug c;
  if isReadyDerived_ c then Done (SUCCESS_, [], post_fifo (RunEcallOp_Signal op) c)
  else Done (NOTREADY, refusal, c).

Definition refuse (cb : option C) (f : C -> ecall_effect) : list ecall_effect := f <$> option_list cb.
Definition no_call (c : C) : ecall_effect := CallResponse c SUBSYSTEM_UNAVAILABLE None.

(** The eight overloads of [makeECall]; [pdu] is the encoded MSD. *)
Definition make_ecall ndebug phoneId type msd remote dial cb :=
  request ndebug (OpMakeECall phoneId type msd remote dial cb) (refuse cb no_call).
Definition has_msd (pdu : list Z) : bool := match pdu with [] => false | _ => true end.

Definition makeECall_data ndebug phoneId cb := make_ecall ndebug phoneId "AUTOMATIC" true "" "" cb.
Definition makeECall_dial_data ndebug phoneId dial cb :=
  make_ecall ndebug phoneId "AUTOMATIC" true dial "" cb.
Definition makeECall_private_header ndebug phoneId dial pdu cb :=
  make_ecall ndebug phoneId "PRIVATE" (has_msd pdu) "" dial cb.
Definition makeECall_pdu ndebug phoneId pdu cb :=
  make_ecall ndebug phoneId "AUTOMATIC" (has_msd pdu) "" "" cb.
Definition makeECall_dial_pdu ndebug phoneId dial pdu cb :=
  make_ecall ndebug phoneId "AUTOMATIC" (has_msd pdu) dial "" cb.
Definition makeECall_plain ndebug phoneId cb := make_ecall ndebug phoneId "AUTOMATIC" false "" "" cb.
Definition makeECall_dial ndebug phoneId dial cb :=
  make_ecall ndebug phoneId "AUTOMATIC" false dial "" cb.
Definition makeECall_private ndebug phoneId dial pdu cb :=
  make_ecall ndebug phoneId "PRIVATE" (has_msd pdu) "" dial cb.

Definition unavailable (c : C) : ecall_effect := Response c SUBSYSTEM_UNAVAILABLE.
Definition updateECallMsd ndebug phoneId cb :=
  request ndebug (OpUpdateMsd phoneId cb) (refuse cb unavailable).
Definition requestECallHlapTimerStatus ndebug phoneId cb :=
  request ndebug (OpTimerStatus phoneId cb)
    (refuse cb (fun c => TimerStatusResponse c SUBSYSTEM_UNAVAILABLE phoneId zero_timer_status)).
Definition requestNetworkDeregistration ndebug phoneId cb :=
  request ndebug (OpDeregister phoneId cb) (refuse cb unavailable).
Definition updateEcallHlapTimer ndebug phoneId type dur cb :=
  request ndebug (OpUpdateTimer phoneId type dur cb) (refuse cb unavailable).
Definition requestEcallHlapTimer ndebug phoneId type cb :=
  request ndebug (OpRequestTimer phoneId type cb)
    (refuse cb (fun c => TimerResponse c SUBSYSTEM_UNAVAILABLE 0)).

(** The time gaps are checked before anything else. *)
Definition max_attempts (config : RedialConfigType) : nat :=
  match config with CALL_ORIG => 10 | CALL_DROP => 2 end.

Definition configureECallRedial ndebug (config : RedialConfigType) (timeGap : list Z)
    (cb : option C) (c : AOCallManager) : outcome (Status * list ecall_effect * AOCallManager) :=
  if decide (timeGap = [] \/ (max_attempts config < length timeGap)%nat)
  then Done (INVALIDPARAM, refuse cb (fun c => Response c INVALID_ARGUMENTS), c)
  else request ndebug (OpConfigureRedial config timeGap cb) (refuse cb unavailable) c.

(** The blocking calls up to the wait: whether the operation was posted; if not,
    the call returns at once. *)
Definition blocking (ndebug : bool) (op : ecall_op) (c : AOCallManager) :
    outcome (bool * AOCallManager) :=
  c ← ensureStarted_ ndebug c;
  if isReadyDerived_ c then Done (true, post_fifo (RunEcallOp_Signal op) c) else Done (false, c).

Definition setECallConfig ndebug config p := blocking ndebug (OpSetConfig config p).
Definition getECallConfig ndebug p := blocking ndebug (OpGetConfig p).
Definition getECallRedialConfig ndebug p := blocking ndebug (OpGetRedial p).

(** After the wait: what is returned, [None] when [future.get()] throws, and the
    caller's variables, overwritten on success only. *)
Definition set_config_result (f : future Z) : option Status :=
  match f with
  | Ready code => Some (if decide (code = SUCCESS) then SUCCESS_ else FAILED)
  | NotInTime => Some FAILED
  | Broken => None
  end.
Definition get_config_result (f : future (Z * EcallConfig)) (config : EcallConfig) :
    option (Status * EcallConfig) :=
  match f with
  | Ready (code, r) => Some (if decide (code = SUCCESS) then (SUCCESS_, r) else (FAILED, config))
  | NotInTime => Some (FAILED, config)
  | Broken => None
  end.
Definition get_redial_result (f : future (Z * list Z * list Z)) (gaps : list Z * list Z) :
    option (Z * (list Z * list Z)) :=
  match f with
  | Ready (code, o, d) => Some (code, if decide (code = SUCCESS) then (o, d) else gaps)
  | NotInTime => Some (OPERATION_TIMEOUT, gaps)
  | Broken => None
  end.

Definition getInProgressCalls (m : CallManager) : list nat := snd <$> token_items (calls_ m).

Definition registerListener (l : option L) (m : CallManager) : Status * CallManager :=
  match l with
  | None => (INVALIDPARAM, m)
  | Some l => (SUCCESS_, set_listeners (listeners_ m ++ [l]) m)
  end.
Definition removeListener (l : option L) (m : CallManager) : Status * CallManager :=
  (SUCCESS_, match l with
             | Some l => set_listeners (filter (fun x => x <> l) (listeners_ m)) m
             | None => m
             end).

(** Voice calls and the rest of the interface are out of the simulation's
    scope. *)
Definition makeCall (cb : option C) : Status * list ecall_effect :=
  (NOTSUPPORTED, refuse cb (fun c => CallResponse c NOT_SUPPORTED None)).
Definition not_supported (cb : option C) : Status * list ecall_effect :=
  (NOTSUPPORTED, refuse cb (fun c => Response c NOT_SUPPORTED)).

(** ** Wiring to the bridge *)

Definition indications : list string :=
  ["ecall.subsys_ready_call.ind"; "ecall.call_state.ind"; "ecall.msd_transmission_status.ind";
   "ecall.hlap_timer_event.ind"; "ecall.redial.ind"].
Definition subscriptions : list (string * string) := (fun i => (topic i, i)) <$> indications.
Definition unsubscribeFromBridge_ : list string := topic <$> indications.

(** The functions subscribed, in the same order. *)
Definition indication_handlers : list (Envelope json -> ecall_event) :=
  [ReadinessEvt_Signal; CallStateEvt_Signal; MsdStatusEvt_Signal; HlapTimerEventEvt_Signal;
   RedialEvt_Signal].
End EcallManager.
