(* ===== verification/EcallProps.v ===== *)
(** * Correctness of the eCall manager

    The cache of calls refines a table of what the modem last reported per
    phone; a call that is replaced has ended; the timer events kept per phone are
    the last ones reported; every operation gets one answer; init callbacks are
    invoked once. *)

From S2P Require Import Prelude Hsm HsmSpec HsmProps ActiveObject Json Envelope InitGate Manager.
From S2P Require Import Ecall EcallManager.

Local Open Scope Z_scope.

Section EcallProps.
Context {json : Type} `{Json json, JsonValues json}.
Context {C L P : Type} `{EqDecision L}.
Context (topic : string -> string) (paId : string) (now_at counter_at : nat -> Z).

Local Notation CallManager := (CallManager (json := json) (C := C) (L := L) (P := P)).
Local Notation ecall_event := (ecall_event (json := json) (C := C) (P := P)).
Local Notation ecall_op := (ecall_op (C := C) (P := P)).
Local Notation ecall_effect := (ecall_effect (json := json) (C := C) (L := L) (P := P)).
Local Notation handler :=
  (handler topic paId now_at counter_at (json := json) (C := C) (L := L) (P := P)).

(** ** The manager as a table *)

Definition report (e : ecall_event) : option bool :=
  match e with
  | ReadinessEvt_Signal env => status_report ["UNAVAILABLE"] env
  | BridgeConnectivityChanged_Signal false => Some false
  | _ => None
  end.

Definition on_data (env : Envelope json) (f : json -> CallManager -> outcome CallManager)
    (m : CallManager) : outcome CallManager :=
  match data env with None => Done m | Some d => f d m end.

(** What an event does besides moving the manager. *)
Definition ready_act (e : ecall_event) (m : CallManager) : outcome CallManager :=
  match e with
  | SetInitCb_Signal cb => Done (tell cb (fun c => InitResponse c SERVICE_AVAILABLE) m)
  | RunEcallOp_Signal op => Done (run_op topic paId now_at counter_at op m)
  | CallStateEvt_Signal env => on_data env call_state_evt m
  | MsdStatusEvt_Signal env => on_data env msd_status_evt m
  | RedialEvt_Signal env => on_data env redial_evt m
  | HlapTimerEventEvt_Signal env => on_data env hlap_timer_evt m
  | _ => Done m
  end.

Definition not_ready_act (e : ecall_event) (m : CallManager) : CallManager :=
  match e with
  | SetInitCb_Signal cb => set_init_cbs (init_cbs_ m ++ option_list cb) m
  | RunEcallOp_Signal op => drop_op op m
  | _ => m
  end.

(** A readiness indication whose status is not a string stops the process. *)
Definition readable (e : ecall_event) : outcome unit :=
  match e with ReadinessEvt_Signal env => status_of env ;; Done tt | _ => Done tt end.

Definition ecall_step (leaf : ecall_state) (e : ecall_event) (m : CallManager) :
    outcome (ecall_state * CallManager) :=
  readable e ;;
  match leaf with
  | CallMgrNotReady_St =>
      let m := not_ready_act e m in
      Done (match report e with Some true => (CallMgrReady_St, ready_entry m) | _ => (leaf, m) end)
  | CallMgrReady_St =>
      m ← ready_act e m;
      Done (match report e with Some false => CallMgrNotReady_St | _ => leaf end, m)
  end.

Lemma with_data_eq env f (m : CallManager) :
  with_data env f m = (m ← on_data env f m; Done (Handled, m)).
Proof. unfold with_data, on_data. by destruct (data env). Qed.

Lemma status_report_of downs env s :
  status_of env = Done s -> "" ∉ downs -> "AVAILABLE" ∉ downs ->
  status_report downs env =
    if decide (s = "AVAILABLE") then Some true else if decide (s ∈ downs) then Some false else None.
Proof.
  unfold status_of, status_report. intros Hs He Ha. destruct (data env) as [d|]; simpl.
  - apply or_die_done in Hs. by rewrite Hs.
  - injection Hs as <-. by rewrite decide_False, decide_False.
Qed.

Lemma ecall_chart_step leaf e (m : CallManager) :
  chart_step handler lineage leaf e m = ecall_step leaf e m.
Proof.
  destruct leaf, e; try reflexivity;
    try (apply (chart_step_here handler parent lineage swallow), with_data_eq);
    try (destruct operational; reflexivity).
  all: unfold ecall_step;
    change (readable (ReadinessEvt_Signal env)) with (status_of env ;; Done tt);
    change (report (ReadinessEvt_Signal env)) with (status_report ["UNAVAILABLE"] env);
    unfold chart_step, offer, lineage; cbv beta iota fix; simpl;
    destruct (status_of env) as [s|] eqn:Hs; [|reflexivity];
    rewrite (status_report_of _ _ _ Hs) by (rewrite list_elem_of_singleton; done); simpl.
  - destruct (decide (s = "AVAILABLE")); [done|]. by destruct (decide (s ∈ ["UNAVAILABLE"])).
  - destruct (decide (s = "AVAILABLE")) as [->|]; [done|].
    destruct (decide (s = "UNAVAILABLE")) as [->|]; [done|].
    by rewrite decide_False by (by rewrite list_elem_of_singleton).
Qed.

#[local] Instance ecall_shell :
  ReadyShell handler lineage CallMgrNotReady_St CallMgrReady_St report.
Proof.
  split; [done|]. intros leaf u m leaf' m' _. rewrite ecall_chart_step. unfold ecall_step.
  intros (_ & _ & Hs)%bind_done'. destruct leaf.
  - destruct (report u) as [[]|]; by injection Hs as <- _.
  - apply bind_done' in Hs as (m1 & _ & [= Hs _]). rewrite <- Hs. by destruct (report u) as [[]|].
Qed.

(** ** Runs

    What can touch the manager's shared state: its worker processing an event,
    the bridge's thread delivering the answer of a request, and clients that
    register and remove listeners. *)

Inductive move :=
  | Process (e : ecall_event)
  | Answer (op : ecall_op) (rsp : option (Envelope json))
  | Register (l : option L)
  | Remove (l : option L).

Definition move_step (mv : move) (s : ecall_state * CallManager) :
    outcome (ecall_state * CallManager) :=
  let '(leaf, m) := s in
  match mv with
  | Process e => chart_step handler lineage leaf e m
  | Answer op rsp => Done (leaf, reply op rsp m)
  | Register l => Done (leaf, snd (registerListener l m))
  | Remove l => Done (leaf, snd (removeListener l m))
  end.

Definition ecall_run := run move_step.

Definition ready_of (s : ecall_state * CallManager) : bool := bool_decide (fst s = CallMgrReady_St).
Definition ready_after (ready : bool) (mv : move) : bool :=
  match mv with Process e => default ready (report e) | _ => ready end.
Local Notation heard := (heard ready_after).

Lemma ready_step mv s s' : move_step mv s = Done s' -> ready_of s' = ready_after (ready_of s) mv.
Proof.
  destruct s as [leaf m], s' as [leaf' m'].
  destruct mv as [e| | |]; [|by intros [= <- _]..]. intros Hs.
  apply (shell_step handler lineage (ReadyShell := ecall_shell)) in Hs; [|by destruct leaf; auto].
  rewrite Hs. simpl. by destruct (report e) as [[]|].
Qed.

(** ** Calls

    The calls as values: per phone, the call last reported.  [hear] is one
    report: the call of that index is updated, or another one takes its place. *)

Definition call_report : Type := Z * (Z * CallDirection * string) * option CallState.

Definition hear (r : call_report) (t : gmap Z Call) : gmap Z Call :=
  let '(phoneId, (callIndex, dir, number), s) := r in
  let fresh := SimulaCall phoneId callIndex dir number in
  let c := match t !! phoneId with
           | Some c => if decide (callIndex_ c = callIndex) then c else fresh
           | None => fresh
           end in
  <[phoneId := match s with Some s => setCallState s c | None => c end]> t.

(** What a JSON object says of a call; the state may be unreadable. *)
Definition call_said (phoneId : Z) (call : json) : option call_report :=
  ms ← call_members call;
  Some (phoneId, ms, wireToCallState <$> value_string "callState" "" call).

Definition call_heard (ready : bool) (mv : move) : option call_report :=
  match mv with
  | Process (CallStateEvt_Signal env) =>
      if ready then d ← data env; p ← value_int "phoneId" 0 d; call_said p d else None
  | Answer (OpMakeECall phoneId _ _ _ _ _) rsp =>
      d ← rsp_data rsp; call ← jat "call" d; call_said phoneId call
  | _ => None
  end.

Definition call_table (mvs : list move) : gmap Z Call :=
  fold_left (fun t r => hear r t) (heard call_heard false mvs) ∅.

(** The manager's calls, its pointers followed. *)
Definition calls_view (m : CallManager) : gmap Z Call := (fun id => deref id m) <$> calls_ m.

Record calls_ok (m : CallManager) : Prop := {
  calls_valid p id : calls_ m !! p = Some id -> exists c, heap m !! id = Some c /\ phoneId_ c = p;
  calls_ended id c :
    heap m !! id = Some c -> calls_ m !! phoneId_ c = Some id \/ callState_ c = CALL_ENDED }.

(** Moves that leave the calls alone. *)
Definition same_calls (m m' : CallManager) : Prop := calls_ m' = calls_ m /\ heap m' = heap m.

Lemma same_calls_ok m m' : same_calls m m' -> calls_ok m -> calls_ok m'.
Proof. intros [Hc Hh] [H1 H2]. split; rewrite Hc, Hh; done. Qed.

Lemma same_calls_view m m' : same_calls m m' -> calls_view m' = calls_view m.
Proof. intros [Hc Hh]. unfold calls_view, deref. by rewrite Hc, Hh. Qed.

#[local] Instance same_calls_refl : Reflexive same_calls.
Proof. by split. Qed.
#[local] Instance same_calls_trans : Transitive same_calls.
Proof. intros ??? [] []. split; congruence. Qed.

Lemma same_calls_broadcast n m : same_calls m (broadcastToListeners_ n m).
Proof. unfold broadcastToListeners_. by case_decide. Qed.

Lemma same_calls_tell cb f m : same_calls m (tell cb f m).
Proof. by destruct cb. Qed.

Lemma view_lookup m p : calls_view m !! p = (fun id => deref id m) <$> calls_ m !! p.
Proof. apply lookup_fmap. Qed.

Lemma set_call_state_ok s p id m :
  calls_ok m -> calls_ m !! p = Some id ->
  calls_ok (set_call_state s id m) /\
  calls_view (set_call_state s id m) = alter (setCallState s) p (calls_view m).
Proof.
  intros [H1 H2] Hp. split; [split; simpl|].
  - intros q id' Hq. destruct (H1 _ _ Hq) as (c & Hc & Hph).
    destruct (decide (id' = id)) as [->|Hne].
    + exists (setCallState s c). by rewrite list_lookup_alter_eq, Hc.
    + exists c. by rewrite list_lookup_alter_ne.
  - intros id' c. destruct (decide (id' = id)) as [->|Hne].
    + rewrite list_lookup_alter_eq. destruct (H1 _ _ Hp) as (c0 & -> & Hph).
      intros [= <-]. left. simpl. by rewrite Hph.
    + rewrite list_lookup_alter_ne by done. apply H2.
  - apply map_eq. intros q. rewrite view_lookup. simpl.
    destruct (decide (q = p)) as [->|Hne].
    + rewrite lookup_alter_eq, view_lookup, Hp. simpl. unfold deref. simpl.
      destruct (H1 _ _ Hp) as (c & Hc & _). by rewrite list_lookup_alter_eq, Hc.
    + rewrite lookup_alter_ne, view_lookup by done. destruct (calls_ m !! q) as [id'|] eqn:Hq; [|done].
      simpl. unfold deref. simpl. rewrite list_lookup_alter_ne; [done|].
      intros ->. destruct (H1 _ _ Hp) as (c & Hc & Hph), (H1 _ _ Hq) as (c' & Hc' & Hph').
      simplify_eq.
Qed.

(** A new call for a phone, the one it replaces ended. *)
Definition end_previous (p : Z) (m : CallManager) : list Call :=
  match calls_ m !! p with
  | Some id => alter (setCallState CALL_ENDED) id (heap m)
  | None => heap m
  end.

Lemma fresh_call_ok p c m m' :
  calls_ok m -> phoneId_ c = p ->
  calls_ m' = <[p := length (heap m)]> (calls_ m) -> heap m' = end_previous p m ++ [c] ->
  calls_ok m' /\ calls_view m' = <[p := c]> (calls_view m).
Proof.
  intros [H1 H2] Hc Hcs Hh.
  assert (Hlen : length (end_previous p m) = length (heap m))
    by (unfold end_previous; case_match; [apply length_alter|done]).
  assert (Hother : forall q id, q <> p -> calls_ m !! q = Some id -> heap m' !! id = heap m !! id).
  { intros q id Hq Hid. destruct (H1 _ _ Hid) as (c' & Hc' & Hph).
    rewrite Hh, lookup_app_l by (rewrite Hlen; by eapply lookup_lt_Some).
    unfold end_previous. destruct (calls_ m !! p) as [id'|] eqn:Hp; [|done].
    apply list_lookup_alter_ne. intros ->. destruct (H1 _ _ Hp) as (? & ? & ?). congruence. }
  assert (Hnew : heap m' !! length (heap m) = Some c).
  { rewrite Hh, <- Hlen, lookup_app_r, Nat.sub_diag by lia. done. }
  split; [split|].
  - intros q id. rewrite Hcs. intros [[<- <-]|[Hne Hq]]%lookup_insert_Some; [eauto|].
    rewrite (Hother q id) by done. by apply H1.
  - intros id c'. rewrite Hh. intros [Hid|[Hge Hid]]%lookup_app_Some.
    + revert Hid. unfold end_previous. destruct (calls_ m !! p) as [id0|] eqn:Hp.
      * destruct (decide (id = id0)) as [->|Hne].
        -- rewrite list_lookup_alter_eq. destruct (heap m !! id0); [|done].
           intros [= <-]. by right.
        -- rewrite list_lookup_alter_ne by done. intros Hid.
           destruct (H2 _ _ Hid) as [Hcur|]; [left|by right].
           rewrite Hcs, lookup_insert_ne; [done|]. intros ->. congruence.
      * intros Hid. destruct (H2 _ _ Hid) as [Hcur|]; [left|by right].
        rewrite Hcs, lookup_insert_ne; [done|]. intros ->. congruence.
    + apply list_lookup_singleton_Some in Hid as [Hid <-]. left.
      rewrite Hcs, Hc, lookup_insert_eq. f_equal. lia.
  - apply map_eq. intros q. rewrite view_lookup, Hcs. destruct (decide (q = p)) as [->|Hne].
    + rewrite !lookup_insert_eq. simpl. unfold deref. by rewrite Hnew.
    + rewrite !lookup_insert_ne, view_lookup by done. destruct (calls_ m !! q) as [id|] eqn:Hq; [|done].
      simpl. unfold deref. by rewrite (Hother q id).
Qed.

Lemma end_stale_eq id c m :
  heap m !! id = Some c ->
  same_calls (set_call_state CALL_ENDED id m)
    (end_stale (if decide (callState_ c <> CALL_ENDED) then Some id else None) m).
Proof.
  intros Hc. case_decide as Hs; simpl; [apply same_calls_broadcast|]. split; [done|]. simpl.
  apply list_eq. intros i. destruct (decide (i = id)) as [->|].
  - rewrite list_lookup_alter_eq, Hc. simpl. destruct c. simpl in Hs. by subst.
  - by rewrite list_lookup_alter_ne.
Qed.

Lemma find_or_create_ok p i d n m :
  calls_ok m ->
  let '(id, m') := findOrCreateCall_ p i d n m in
  calls_ok m' /\ calls_ m' !! p = Some id /\ calls_view m' = hear (p, (i, d, n), None) (calls_view m).
Proof.
  intros Hok. unfold findOrCreateCall_, find_or_create, hear. rewrite view_lookup.
  destruct (calls_ m !! p) as [id|] eqn:Hp; simpl.
  2: { destruct (fresh_call_ok p (SimulaCall p i d n) m
         (set_calls (<[p:=length (heap m)]> (calls_ m)) (heap m ++ [SimulaCall p i d n]) m))
         as [H1 H2]; [done..| |by rewrite H2, lookup_insert_eq].
       simpl. unfold end_previous. by rewrite Hp. }
  destruct (calls_valid _ Hok _ _ Hp) as (c & Hc & Hph).
  assert (Hd : deref id m = c) by (unfold deref; by rewrite Hc).
  rewrite Hd. destruct (decide (callIndex_ c = i)) as [Hi|Hi].
  { simpl. split; [done|]. split; [done|]. symmetry. apply insert_id.
    by rewrite view_lookup, Hp, <- Hd. }
  set (m1 := set_calls _ _ m). pose proof (end_stale_eq id c m1) as Hsame.
  assert (Hid : heap m1 !! id = Some c).
  { simpl. rewrite lookup_app_l; [done|]. by eapply lookup_lt_Some. }
  specialize (Hsame Hid). destruct (decide (callState_ c <> CALL_ENDED)) as [Hs|Hs];
  destruct Hsame as [Hcs Hh];
  match goal with |- calls_ok ?m' /\ _ =>
    destruct (fresh_call_ok p (SimulaCall p i d n) m m') as [H1 H2];
      [done|done|by rewrite Hcs| |by rewrite H2, Hcs; simpl; rewrite lookup_insert_eq] end;
  rewrite Hh; simpl; unfold end_previous; rewrite Hp, alter_app_l; try done; by eapply lookup_lt_Some.
Qed.

Lemma hear_state s p ms t :
  hear (p, ms, Some s) t = alter (setCallState s) p (hear (p, ms, None) t).
Proof.
  destruct ms as [[i d] n]. simpl. apply map_eq. intros q.
  destruct (decide (q = p)) as [->|]; [by rewrite lookup_alter_eq, !lookup_insert_eq|].
  by rewrite lookup_alter_ne, !lookup_insert_ne.
Qed.

(** The two steps of a report, as the indication and the answer make them. *)
Lemma report_call_ok p i d n s m :
  calls_ok m ->
  let '(id, m') := findOrCreateCall_ p i d n m in
  calls_ok (set_call_state s id m') /\
  calls_view (set_call_state s id m') = hear (p, (i, d, n), Some s) (calls_view m).
Proof.
  intros Hok. pose proof (find_or_create_ok p i d n m Hok) as Hf.
  destruct (findOrCreateCall_ p i d n m) as [id m']. destruct Hf as (H1 & H2 & H3).
  destruct (set_call_state_ok s p id m' H1 H2) as [H4 H5]. split; [done|].
  by rewrite H5, H3, <- hear_state.
Qed.

Definition hears (o : option call_report) (t : gmap Z Call) : gmap Z Call :=
  match o with Some r => hear r t | None => t end.

Lemma same_calls_reply op rsp m :
  (forall p ty msd r d notify, op <> OpMakeECall p ty msd r d notify) -> same_calls m (reply op rsp m).
Proof.
  intros Hop. destruct op; [by destruct (Hop phoneId type isMsdTransmitted remotePartyNumber dialNumber notify)|..];
    simpl; unfold msd_reply, timer_status_reply, command_reply, request_timer_reply,
      set_config_reply, get_config_reply, get_redial_reply, or_lost, tell;
    repeat (case_match; try done).
Qed.

Lemma make_ecall_reply_calls p notify rsp m :
  calls_ok m ->
  let m' := make_ecall_reply p notify rsp m in
  calls_ok m' /\
  calls_view m' =
    hears (d ← rsp_data rsp; call ← jat "call" d; call_said p call) (calls_view m).
Proof.
  intros Hok. unfold make_ecall_reply. destruct (rsp_data rsp) as [d|]; simpl.
  2: { assert (Hs : same_calls m (or_lost (failure_code rsp)
         (fun code => tell notify (fun c => CallResponse c code None) m) m)).
       { unfold or_lost. case_match; [apply same_calls_tell|done]. }
       split; [by eapply same_calls_ok|by apply same_calls_view]. }
  destruct (jat "call" d) as [call|]; simpl; [|done]. unfold call_said.
  destruct (call_members call) as [[[i dir] n]|]; simpl; [|done].
  destruct (value_string "callState" "" call) as [s|]; simpl.
  - pose proof (report_call_ok p i dir n (wireToCallState s) m Hok) as Hr.
    destruct (findOrCreateCall_ p i dir n m) as [id m']. destruct Hr as [H1 H2].
    split; [by eapply same_calls_ok; [apply same_calls_tell|]|].
    by rewrite (same_calls_view _ _ (same_calls_tell _ _ _)), H2.
  - pose proof (find_or_create_ok p i dir n m Hok) as Hr.
    destruct (findOrCreateCall_ p i dir n m) as [id m']. by destruct Hr as (H1 & _ & H2).
Qed.

Lemma call_state_evt_calls d m m' :
  calls_ok m -> call_state_evt d m = Done m' ->
  calls_ok m' /\
  calls_view m' = hears (p ← value_int "phoneId" 0 d; call_said p d) (calls_view m).
Proof.
  intros Hok. unfold call_state_evt. intros (p & Hp%or_die_done & Hk)%bind_done'. rewrite Hp.
  apply bind_done' in Hk as ([[i dir] n] & Hms%or_die_done & Hk). simpl. unfold call_said.
  rewrite Hms. simpl. destruct (findOrCreateCall_ p i dir n m) as [id m1] eqn:Hf.
  apply bind_done' in Hk as (s & Hs%or_die_done & [= <-]). rewrite Hs. simpl.
  pose proof (report_call_ok p i dir n (wireToCallState s) m Hok) as Hr. rewrite Hf in Hr.
  destruct Hr as [H1 H2].
  split; [by eapply same_calls_ok; [apply same_calls_broadcast|]|].
  by rewrite (same_calls_view _ _ (same_calls_broadcast _ _)).
Qed.

(** Indications that tell the listeners of something else. *)
Lemma same_calls_evt (e : ecall_event) m m' :
  (forall env, e <> CallStateEvt_Signal env) -> ready_act e m = Done m' -> same_calls m m'.
Proof.
  intros He. destruct e; simpl; try (by intros [= <-]).
  - intros [= <-]. by destruct op.
  - by destruct (He env).
  - unfold on_data, msd_status_evt. destruct (data env); [|by intros [= <-]].
    intros (? & _ & (? & _ & [= <-])%bind_done')%bind_done'. apply same_calls_broadcast.
  - unfold on_data, hlap_timer_evt. destruct (data env); [|by intros [= <-]].
    intros (? & _ & (? & _ & (? & _ & [= <-])%bind_done')%bind_done')%bind_done'.
    by etransitivity; [|apply same_calls_broadcast].
  - unfold on_data, redial_evt. destruct (data env); [|by intros [= <-]].
    intros (? & _ & (? & _ & (? & _ & [= <-])%bind_done')%bind_done')%bind_done'.
    apply same_calls_broadcast.
  - intros [= <-]. apply same_calls_tell.
Qed.

Lemma call_move leaf mv m leaf' m' :
  calls_ok m -> move_step mv (leaf, m) = Done (leaf', m') ->
  calls_ok m' /\ calls_view m' = hears (call_heard (ready_of (leaf, m)) mv) (calls_view m).
Proof.
  intros Hok. assert (Hkeep : same_calls m m' -> calls_ok m' /\ calls_view m' = calls_view m).
  { intros Hs. split; [by eapply same_calls_ok|by apply same_calls_view]. }
  destruct mv as [e|op rsp|[]|[]]; intros Hs; cbn [move_step] in Hs.
  3-6: injection Hs as _ <-; by apply Hkeep.
  - rewrite ecall_chart_step in Hs. apply bind_done' in Hs as (_ & _ & Hs). destruct leaf.
    + replace (call_heard (ready_of (CallMgrNotReady_St, m)) (Process e)) with (@None call_report)
        by (by destruct e).
      apply Hkeep. destruct (report e) as [[]|]; injection Hs as _ <-;
        destruct e; try done; by destruct op.
    + apply bind_done' in Hs as (m1 & Ha & [= _ <-]).
      destruct e; try (eapply Hkeep, same_calls_evt; [|exact Ha]; discriminate).
      simpl in *. unfold on_data in Ha. destruct (data env) as [d|]; simpl.
      * by apply call_state_evt_calls.
      * injection Ha as <-. done.
  - injection Hs as _ <-. destruct op; try (by apply Hkeep, same_calls_reply).
    by apply make_ecall_reply_calls.
Qed.


(** ** Clients *)

Definition sent (e : ecall_effect) : option ecall_op :=
  match e with Request op _ _ _ _ => Some op | _ => None end.

(** Whom an effect answers and with what code; no code: a promise that is
    destroyed. *)
Definition told (e : ecall_effect) : option ((C + P) * option Z) :=
  match e with
  | CallResponse c code _ | Response c code | TimerStatusResponse c code _ _
  | TimerResponse c code _ => Some (inl c, Some code)
  | SetCode p code | SetConfigResult p code _ | SetRedialResult p code _ _ => Some (inr p, Some code)
  | BreakPromise p => Some (inr p, None)
  | _ => None
  end.

Definition inited (e : ecall_effect) : option C :=
  match e with InitResponse c SERVICE_AVAILABLE => Some c | _ => None end.

(** Who waits for an operation. *)
Definition owner (op : ecall_op) : option (C + P) :=
  match op with
  | OpMakeECall _ _ _ _ _ cb | OpUpdateMsd _ cb | OpTimerStatus _ cb | OpDeregister _ cb
  | OpUpdateTimer _ _ _ cb | OpRequestTimer _ _ cb | OpConfigureRedial _ _ cb => inl <$> cb
  | OpSetConfig _ p | OpGetConfig p | OpGetRedial p => Some (inr p)
  end.

(** The code an answer deserves; [None]: it cannot be decoded. *)
Definition answer_code (op : ecall_op) (rsp : option (Envelope json)) : option Z :=
  let decoded {A} (bad : option Z) (f : json -> option A) : option Z :=
    match rsp_data rsp with None => bad | Some d => f d ;; Some SUCCESS end in
  match op with
  | OpMakeECall _ _ _ _ _ _ =>
      decoded (failure_code rsp)
        (fun d => call ← jat "call" d; call_members call ;; value_string "callState" "" call)
  | OpUpdateMsd _ _ | OpSetConfig _ _ => Some (if failed rsp then OPERATION_TIMEOUT else SUCCESS)
  | OpTimerStatus _ _ => decoded (Some OPERATION_TIMEOUT) wireToTimerStatus
  | OpDeregister _ _ | OpUpdateTimer _ _ _ _ | OpConfigureRedial _ _ _ =>
      if failed rsp then failure_code rsp else Some SUCCESS
  | OpRequestTimer _ _ _ => decoded (failure_code rsp) (value_int "timeDuration" 0)
  | OpGetConfig _ => decoded (Some OPERATION_TIMEOUT) wireToEcallConfig
  | OpGetRedial _ =>
      decoded (Some OPERATION_TIMEOUT)
        (fun d => value_ints "callOrigTimeGap" d ;; value_ints "callDropTimeGap" d)
  end.

(** Without an answer a callback is forgotten, a promise broken. *)
Definition unanswered (o : C + P) : option ((C + P) * option Z) :=
  match o with inl _ => None | inr _ => Some (o, None) end.

Definition verdict_heard (ready : bool) (mv : move) : option ((C + P) * option Z) :=
  match mv with
  | Answer op rsp =>
      o ← owner op;
      match answer_code op rsp with Some code => Some (o, Some code) | None => unanswered o end
  | Process (RunEcallOp_Signal op) => if ready then None else owner op ≫= unanswered
  | _ => None
  end.

Definition op_heard (ready : bool) (mv : move) : option ecall_op :=
  match mv with Process (RunEcallOp_Signal op) => if ready then Some op else None | _ => None end.

Definition cb_heard (ready : bool) (mv : move) : option C :=
  match mv with Process (SetInitCb_Signal cb) => cb | _ => None end.

Record adds (m m' : CallManager) (s : list ecall_op) (t : list ((C + P) * option Z)) (i : list C) :
    Prop := {
  adds_cbs : init_cbs_ m' = init_cbs_ m;
  adds_sent : omap sent (log m') = omap sent (log m) ++ s;
  adds_told : omap told (log m') = omap told (log m) ++ t;
  adds_inited : omap inited (log m') = omap inited (log m) ++ i }.

Lemma adds_refl m : adds m m [] [] [].
Proof. split; by rewrite ?app_nil_r. Qed.

Lemma adds_trans m1 m2 m3 s t i : adds m1 m2 [] [] [] -> adds m2 m3 s t i -> adds m1 m3 s t i.
Proof. intros [? H2 H3 H4] [? H6 H7 H8]. rewrite app_nil_r in *. split; congruence. Qed.

Lemma adds_quiet m1 m2 m3 s t i : adds m1 m2 s t i -> adds m2 m3 [] [] [] -> adds m1 m3 s t i.
Proof. intros [? H2 H3 H4] [? H6 H7 H8]. rewrite app_nil_r in *. split; congruence. Qed.

Lemma adds_emit l m : adds m (emit l m) (omap sent l) (omap told l) (omap inited l).
Proof. split; simpl; by rewrite ?omap_app. Qed.

Lemma adds_broadcast n m : adds m (broadcastToListeners_ n m) [] [] [].
Proof. unfold broadcastToListeners_. case_decide; [apply adds_refl|apply adds_emit]. Qed.

Lemma adds_state s id m : adds m (set_call_state s id m) [] [] [].
Proof. split; by rewrite ?app_nil_r. Qed.

Lemma adds_find p i d n m id m' : findOrCreateCall_ p i d n m = (id, m') -> adds m m' [] [] [].
Proof.
  unfold findOrCreateCall_. destruct (find_or_create p i d n m) as [[id0 stale] m0] eqn:Hf.
  intros [= _ <-]. assert (H0' : adds m m0 [] [] []).
  { revert Hf. unfold find_or_create. repeat case_match; intros [= _ _ <-]; split;
      by rewrite ?app_nil_r. }
  destruct stale as [id1|]; simpl; [|done].
  eapply adds_trans; [exact H0'|]. eapply adds_trans; [apply adds_state|apply adds_broadcast].
Qed.

Ltac emits :=
  first [apply adds_refl | match goal with |- adds _ (emit ?l _) _ _ _ => exact (adds_emit l _) end].

Lemma reply_adds r op rsp m :
  adds m (reply op rsp m) [] (option_list (verdict_heard r (Answer op rsp))) [].
Proof.
  destruct op; simpl; unfold msd_reply, timer_status_reply, command_reply, request_timer_reply,
    set_config_reply, get_config_reply, get_redial_reply, or_lost, answer_code.
  1: { unfold make_ecall_reply, or_lost. destruct (rsp_data rsp) as [d|]; simpl.
    2: { destruct (failure_code rsp), notify; simpl; emits. }
    destruct (jat "call" d) as [call|]; simpl; [|destruct notify; emits].
    destruct (call_members call) as [[[i dir] n]|]; simpl; [|destruct notify; emits].
    destruct (findOrCreateCall_ phoneId i dir n m) as [id m'] eqn:Hf. apply adds_find in Hf.
    eapply adds_trans; [exact Hf|].
    destruct (value_string "callState" "" call) as [s|]; simpl;
      [|destruct notify; emits].
    eapply adds_trans; [apply (adds_state (wireToCallState s) id)|]. destruct notify; simpl; emits. }
  all: try (destruct cb as [c|]; [|emits]); simpl; unfold tell;
    repeat match goal with
      | |- context [value_ints ?k ?j] => destruct (value_ints k j); simpl
      | |- adds _ (match ?o with _ => _ end) _ _ _ => destruct o; simpl
      end;
    try emits.
Qed.

Lemma evt_adds (e : ecall_event) m m' :
  (forall op, e <> RunEcallOp_Signal op) -> (forall cb, e <> SetInitCb_Signal cb) ->
  ready_act e m = Done m' -> adds m m' [] [] [].
Proof.
  intros Hop Hcb. destruct e; simpl; try (by intros [= <-]; apply adds_refl);
    try (by destruct (Hop op)); try (by destruct (Hcb cb));
    unfold on_data; (destruct (data env) as [d|]; [|by intros [= <-]; apply adds_refl]).
  - intros (p & _ & ([[i dir] n] & _ & Hk)%bind_done')%bind_done'.
    destruct (findOrCreateCall_ p i dir n m) as [id m1] eqn:Hf. apply adds_find in Hf.
    apply bind_done' in Hk as (s & _ & [= <-]).
    eapply adds_trans; [exact Hf|]. eapply adds_trans; [|apply adds_broadcast]. apply adds_state.
  - intros (? & _ & (? & _ & [= <-])%bind_done')%bind_done'. apply adds_broadcast.
  - intros (? & _ & (? & _ & (? & _ & [= <-])%bind_done')%bind_done')%bind_done'.
    eapply adds_trans; [|apply adds_broadcast]. split; by rewrite ?app_nil_r.
  - intros (? & _ & (? & _ & (? & _ & [= <-])%bind_done')%bind_done')%bind_done'.
    apply adds_broadcast.
Qed.

Lemma run_op_adds op m : adds m (run_op topic paId now_at counter_at op m) [op] [] [].
Proof. destruct op; cbn [run_op]; unfold send_op; emits. Qed.

Lemma drop_op_adds op m : adds m (drop_op op m) [] (option_list (owner op ≫= unanswered)) [].
Proof.
  destruct op; simpl; try match goal with |- context [inl <$> ?cb] => destruct cb end; simpl; emits.
Qed.

(** What a manager owes its init callbacks: each is called in turn when it is
    ready, and none waits while it is. *)
Definition inits_ok (cb : option C) (ready : bool) (l : list C) (m : CallManager) : Prop :=
  omap inited (log m) ++ init_cbs_ m = option_list cb ++ l /\ (ready = true -> init_cbs_ m = []).

Definition clients_ok (cb : option C) (ready : bool)
    (l : list (option ecall_op * option ((C + P) * option Z) * option C)) (m : CallManager) : Prop :=
  omap sent (log m) = omap (fun x => x.1.1) l /\ omap told (log m) = omap (fun x => x.1.2) l /\
  inits_ok cb ready (omap snd l) m.

Definition clients_heard (ready : bool) (mv : move) :
    option (option ecall_op * option ((C + P) * option Z) * option C) :=
  Some (op_heard ready mv, verdict_heard ready mv, cb_heard ready mv).

Lemma adds_clients cb r r' l m m' s t :
  clients_ok cb r l m -> (r' = true -> r = true) -> adds m m' (option_list s) (option_list t) [] ->
  clients_ok cb r' (l ++ [(s, t, None)]) m'.
Proof.
  intros (H1 & H2 & H3 & H4) Hr [A1 A2 A3 A4]. rewrite app_nil_r in A4. unfold clients_ok, inits_ok.
  rewrite !omap_app, A1, A2, A3, A4, H1, H2, H3. simpl. rewrite app_nil_r. repeat split. auto.
Qed.

Lemma clients_move cb l leaf mv m leaf' m' :
  clients_ok cb (ready_of (leaf, m)) l m -> move_step mv (leaf, m) = Done (leaf', m') ->
  clients_ok cb (ready_after (ready_of (leaf, m)) mv)
    (l ++ option_list (clients_heard (ready_of (leaf, m)) mv)) m'.
Proof.
  intros Hok. destruct mv as [e|op rsp|[]|[]]; intros Hs; cbn [move_step] in Hs.
  3-6: injection Hs as _ <-; eapply adds_clients; [exact Hok|done|]; split; by rewrite ?app_nil_r.
  2: { injection Hs as _ <-. eapply adds_clients; [exact Hok|done|]. apply reply_adds. }
  rewrite ecall_chart_step in Hs. apply bind_done' in Hs as (_ & _ & Hs). destruct leaf.
  - destruct (decide (report e = Some true)) as [Hr|Hr].
    { assert (He : not_ready_act e m = m) by (by destruct e). rewrite Hr, He in Hs.
      injection Hs as _ <-. destruct Hok as (H1 & H2 & H3 & _). unfold clients_ok, inits_ok.
      assert (Hh : clients_heard false (Process e) = Some (None, None, None)) by (by destruct e).
      change (ready_of (CallMgrNotReady_St, m)) with false. rewrite Hh. simpl.
      rewrite !omap_app, H1, H2. simpl. rewrite !app_nil_r. rewrite <- H3.
      assert (Hi : forall cbs, omap inited ((fun c => InitResponse c SERVICE_AVAILABLE) <$> cbs) = cbs /\
        omap sent ((fun c => InitResponse c SERVICE_AVAILABLE) <$> cbs) = [] /\
        omap told ((fun c => InitResponse c SERVICE_AVAILABLE) <$> cbs) = []).
      { intros cbs. induction cbs as [|c cbs (IH1 & IH2 & IH3)]; [done|]. csimpl. by rewrite IH1. }
      destruct (Hi (init_cbs_ m)) as (-> & -> & ->). by rewrite !app_nil_r. }
    assert (Hf : ready_after (ready_of (CallMgrNotReady_St, m)) (Process e) = false)
      by (simpl; by destruct (report e) as [[]|]).
    rewrite Hf. assert (Hm : m' = not_ready_act e m)
      by (cbv zeta in Hs; destruct (report e) as [[]|]; by simplify_eq).
    subst m'.
    destruct e; try (eapply adds_clients; [exact Hok|done|apply adds_refl]).
    + eapply adds_clients; [exact Hok|done|apply drop_op_adds].
    + destruct Hok as (H1 & H2 & H3 & _). unfold clients_ok, inits_ok. simpl.
      rewrite !omap_app, H1, H2, !app_assoc, H3. simpl. rewrite !app_nil_r. by destruct cb0.
  - apply bind_done' in Hs as (m1 & Ha & [= _ <-]).
    destruct e; try (eapply adds_clients; [exact Hok|done|]; eapply evt_adds; [| |exact Ha]; discriminate).
    + injection Ha as <-. eapply adds_clients; [exact Hok|done|apply run_op_adds].
    + injection Ha as <-. destruct Hok as (H1 & H2 & H3 & H4). specialize (H4 eq_refl).
      rewrite H4, app_nil_r in H3. unfold clients_ok, inits_ok. simpl. rewrite !omap_app.
      destruct cb0 as [c|]; cbn [tell emit log init_cbs_]; rewrite ?omap_app, H1, H2, H3, H4; simpl;
        by rewrite ?app_nil_r, <- ?app_assoc.
Qed.

Lemma run_clients cb mvs leaf (m : CallManager) :
  ecall_run mvs (CallMgrNotReady_St, SimulaCallManager cb) = Done (leaf, m) ->
  clients_ok cb (ready_of (leaf, m)) (heard clients_heard false mvs) m.
Proof.
  intros Hr.
  refine (run_hears move_step ready_of ready_after ready_step clients_heard
    (fun l s => clients_ok cb (ready_of s) l s.2) _ _ _ mvs (leaf, m) Hr).
  - repeat split; simpl; by rewrite ?app_nil_r.
  - intros l mv [leaf1 m1] [leaf2 m2] Hok Hs. rewrite (ready_step _ _ _ Hs).
    by eapply clients_move.
Qed.

(** C23: every client of the eCall manager hears exactly what it should. After
    any sequence of moves from construction: the requests sent to the modem are
    the operations processed while ready, each sent once and in order; the
    answers given are one per answer delivered by the bridge, in order, to the
    callback or promise of that operation and with the code the answer deserves,
    a callback being forgotten and a promise broken only when the answer cannot be
    decoded, or when the operation reaches the worker while the manager is not
    ready; and the init callbacks, called and waiting, are the ones registered, in
    order, none waiting while the manager is ready. *)
Theorem ecall_clients cb mvs leaf (m : CallManager) :
  ecall_run mvs (CallMgrNotReady_St, SimulaCallManager cb) = Done (leaf, m) ->
  omap sent (log m) = heard op_heard false mvs /\
  omap told (log m) = heard verdict_heard false mvs /\
  omap inited (log m) ++ init_cbs_ m = option_list cb ++ heard cb_heard false mvs /\
  (leaf = CallMgrReady_St -> init_cbs_ m = []).
Proof.
  intros (H1 & H2 & H3 & H4)%run_clients. rewrite H1, H2, H3.
  rewrite !(heard_omap ready_after clients_heard _ op_heard),
    !(heard_omap ready_after clients_heard _ verdict_heard),
    !(heard_omap ready_after clients_heard _ cb_heard) by done.
  repeat split. intros ->. by apply H4.
Qed.

(** ** Timer events *)

(** What a timer event says of timer [t] of phone [p]. *)
Definition timer_said (p : Z) (t : HlapTimerType) (d : json) : option HlapTimerEvent :=
  q ← value_int "phoneId" 0 d;
  s ← value_string "timer" "" d;
  a ← value_string "action" "" d;
  if decide (q = p /\ s = hlapTimerTypeToWire t) then Some (wireToHlapTimerEvent a) else None.

Definition timer_heard (p : Z) (t : HlapTimerType) (ready : bool) (mv : move) : option HlapTimerEvent :=
  match mv with
  | Process (HlapTimerEventEvt_Signal env) => if ready then data env ≫= timer_said p t else None
  | _ => None
  end.

Definition timer_of (p : Z) (t : HlapTimerType) (m : CallManager) : HlapTimerEvent :=
  timer_event t (default zero_timer_events (hlapEvents_ m !! p)).

Lemma timer_event_set t s a e :
  t <> UNKNOWN_TIMER ->
  timer_event t (set_timer_event s a e) =
    if decide (s = hlapTimerTypeToWire t) then a else timer_event t e.
Proof.
  intros Ht. unfold set_timer_event. destruct t; try done; simpl; repeat case_decide; by simplify_eq.
Qed.

Lemma hlap_broadcast n (m : CallManager) : hlapEvents_ (broadcastToListeners_ n m) = hlapEvents_ m.
Proof. unfold broadcastToListeners_. by case_decide. Qed.

Lemma hlap_find p i d n (m : CallManager) : hlapEvents_ (snd (findOrCreateCall_ p i d n m)) = hlapEvents_ m.
Proof.
  unfold findOrCreateCall_, find_or_create. repeat case_match; simplify_eq; simpl; try done;
    by rewrite hlap_broadcast.
Qed.

Lemma hlap_reply op rsp (m : CallManager) : hlapEvents_ (reply op rsp m) = hlapEvents_ m.
Proof.
  destruct op; simpl; unfold make_ecall_reply, msd_reply, timer_status_reply, command_reply,
    request_timer_reply, set_config_reply, get_config_reply, get_redial_reply, or_lost, tell;
    repeat case_match; try done; simpl;
    match goal with E : findOrCreateCall_ ?p ?i ?d ?n ?m = _ |- _ =>
      pose proof (hlap_find p i d n m) as Hf; by rewrite E in Hf end.
Qed.

Lemma hlap_evt (e : ecall_event) (m m' : CallManager) :
  (forall env, e <> HlapTimerEventEvt_Signal env) -> ready_act e m = Done m' ->
  hlapEvents_ m' = hlapEvents_ m.
Proof.
  intros He. destruct e; simpl; try (by intros [= <-]); try (by destruct (He env)).
  - intros [= <-]. by destruct op.
  - unfold on_data, call_state_evt. destruct (data env); [|by intros [= <-]].
    intros (p & _ & ([[i dir] n] & _ & Hk)%bind_done')%bind_done'.
    destruct (findOrCreateCall_ p i dir n m) as [id m1] eqn:Hf.
    apply bind_done' in Hk as (s & _ & [= <-]). rewrite hlap_broadcast. simpl.
    pose proof (hlap_find p i dir n m) as H'. by rewrite Hf in H'.
  - unfold on_data, msd_status_evt. destruct (data env); [|by intros [= <-]].
    intros (? & _ & (? & _ & [= <-])%bind_done')%bind_done'. apply hlap_broadcast.
  - unfold on_data, redial_evt. destruct (data env); [|by intros [= <-]].
    intros (? & _ & (? & _ & (? & _ & [= <-])%bind_done')%bind_done')%bind_done'.
    apply hlap_broadcast.
  - intros [= <-]. by destruct cb.
Qed.

Lemma timer_move p t leaf mv (m : CallManager) leaf' m' :
  t <> UNKNOWN_TIMER -> move_step mv (leaf, m) = Done (leaf', m') ->
  timer_of p t m' = default (timer_of p t m) (timer_heard p t (ready_of (leaf, m)) mv).
Proof.
  intros Ht. assert (Hkeep : hlapEvents_ m' = hlapEvents_ m -> timer_of p t m' = timer_of p t m).
  { unfold timer_of. by intros ->. }
  destruct mv as [e|op rsp|[]|[]]; intros Hs; cbn [move_step] in Hs.
  3-6: injection Hs as _ <-; by apply Hkeep.
  2: { injection Hs as _ <-. apply Hkeep, hlap_reply. }
  rewrite ecall_chart_step in Hs. apply bind_done' in Hs as (_ & _ & Hs). destruct leaf.
  - assert (Hm : hlapEvents_ m' = hlapEvents_ m).
    { assert (He : hlapEvents_ (not_ready_act e m) = hlapEvents_ m) by (destruct e; try done; by destruct op).
      cbv zeta in Hs. destruct (report e) as [[]|]; injection Hs as _ <-; done. }
    rewrite (Hkeep Hm). by destruct e.
  - apply bind_done' in Hs as (m1 & Ha & [= _ <-]).
    destruct e; try (apply Hkeep; eapply hlap_evt; [|exact Ha]; discriminate).
    revert Ha. simpl. unfold on_data, hlap_timer_evt. destruct (data env) as [d|]; [|by intros [= <-]].
    intros (q & Hq%or_die_done & (s & Hs%or_die_done & (a & Ha%or_die_done & [= <-])%bind_done')%bind_done')%bind_done'.
    cbn [mbind option_bind]. unfold timer_said. rewrite Hq, Hs, Ha. simpl.
    unfold timer_of. rewrite hlap_broadcast. simpl. destruct (decide (q = p)) as [->|Hne].
    + rewrite lookup_insert_eq. simpl. rewrite timer_event_set by done.
      destruct (decide (s = hlapTimerTypeToWire t)) as [Hst|Hst].
      * by rewrite decide_True.
      * rewrite decide_False; [done|]. naive_solver.
    + rewrite lookup_insert_ne, decide_False by naive_solver. done.
Qed.

(** The timer events the manager announces are cumulative: for every
    phone and timer, what it keeps and sends to the listeners is the action of
    the last event heard for that timer while ready, and UNCHANGED as long as
    there was none (an event of one timer repeats the old actions of the
    others). *)
Theorem timer_events_last cb mvs leaf (m : CallManager) p t :
  t <> UNKNOWN_TIMER -> ecall_run mvs (CallMgrNotReady_St, SimulaCallManager cb) = Done (leaf, m) ->
  timer_of p t m = default TE_UNCHANGED (last (heard (timer_heard p t) false mvs)).
Proof.
  intros Ht Hr.
  refine (run_hears move_step ready_of ready_after ready_step (timer_heard p t)
    (fun l s => timer_of p t s.2 = default TE_UNCHANGED (last l)) _ _ _ mvs (leaf, m) Hr).
  - by destruct t.
  - intros l mv [leaf1 m1] [leaf2 m2] HR Hs. cbn [snd] in *. rewrite (timer_move p t _ _ _ _ _ Ht Hs).
    destruct (timer_heard p t (ready_of (leaf1, m1)) mv); simpl; [by rewrite last_snoc|by rewrite app_nil_r].
Qed.
End EcallProps.

Module EcallDemo.
Definition topic_ (name : string) : string := "telaf/" +:+ name.
Definition clock_ (n : nat) : Z := 1000 + Z.of_nat n.
Definition Ma : Type := CallManager (json := jval) (C := string) (L := nat) (P := nat).
Definition Ev : Type := ecall_event (json := jval) (C := string) (P := nat).
Definition Mv : Type := move (json := jval) (C := string) (L := nat) (P := nat).

Definition env (l : list (string * jval)) : Envelope jval :=
  mkEnvelope 1 "0000000a" 7 "mpss" None (Some (JObject l)) None.
Definition available : Ev := ReadinessEvt_Signal (env [("status", JString "AVAILABLE")]).
Definition call (index : Z) (s : string) : list (string * jval) :=
  [("callIndex", JInt index); ("callState", JString s); ("direction", JString "OUTGOING");
   ("remotePartyNumber", JString "112")].
Definition call_ind (p index : Z) (s : string) : Ev :=
  CallStateEvt_Signal (env (("phoneId", JInt p) :: call index s)).
Definition timer_ind (p : Z) (t a : string) : Ev :=
  HlapTimerEventEvt_Signal (env [("phoneId", JInt p); ("timer", JString t); ("action", JString a)]).
Definition ecall : ecall_op (C := string) (P := nat) := OpMakeECall 1 "AUTOMATIC" true "" "" (Some "call").

(** A dropped query; ready; an emergency call, answered, connected; another call
    takes its place; timers; an answer that cannot be decoded. *)
Definition life : list Mv :=
  [Register (Some 3%nat); Process (RunEcallOp_Signal (OpGetConfig 9%nat)); Process available;
   Process (RunEcallOp_Signal ecall);
   Answer ecall (Some (env [("call", JObject (call 1 "DIALING"))]));
   Process (call_ind 1 1 "ACTIVE"); Process (timer_ind 1 "T2" "STARTED");
   Process (call_ind 1 2 "DIALING"); Process (timer_ind 1 "T5" "STARTED");
   Process (RunEcallOp_Signal (OpUpdateMsd 1 (Some "msd"))); Answer (OpUpdateMsd 1 (Some "msd")) None;
   Answer ecall (Some (env []))].

Definition at_end : ecall_state * Ma :=
  match ecall_run topic_ "pa-test-0001" clock_ clock_ life
          (CallMgrNotReady_St, SimulaCallManager (Some "init")) with
  | Done x => x
  | Fail _ => (CallMgrNotReady_St, SimulaCallManager None)
  end.

Lemma life_runs :
  ecall_run topic_ "pa-test-0001" clock_ clock_ life (CallMgrNotReady_St, SimulaCallManager (Some "init")) =
    Done at_end.
Proof. vm_compute. reflexivity. Qed.
End EcallDemo.


Lemma ecall_clients_witness :
  omap told (log (snd EcallDemo.at_end)) =
    [(inr 9%nat, None); (inl "call", Some SUCCESS); (inl "msd", Some OPERATION_TIMEOUT)] /\
  omap inited (log (snd EcallDemo.at_end)) = ["init"].
Proof.
  destruct (ecall_clients EcallDemo.topic_ "pa-test-0001" EcallDemo.clock_ EcallDemo.clock_ (Some "init")
    EcallDemo.life (fst EcallDemo.at_end) (snd EcallDemo.at_end)) as (_ & Ht & Hi & Hn).
  - rewrite EcallDemo.life_runs. by destruct EcallDemo.at_end.
  - split; [rewrite Ht; vm_compute; reflexivity|].
    rewrite Hn, app_nil_r in Hi by reflexivity. rewrite Hi. vm_compute. reflexivity.
Defined.

Lemma timer_events_last_witness :
  timer_of 1 T2_TIMER (snd EcallDemo.at_end) = TE_STARTED /\
  timer_of 1 T9_TIMER (snd EcallDemo.at_end) = TE_UNCHANGED.
Proof.
  assert (Hr : ecall_run EcallDemo.topic_ "pa-test-0001" EcallDemo.clock_ EcallDemo.clock_ EcallDemo.life
    (CallMgrNotReady_St, SimulaCallManager (Some "init")) =
    Done (fst EcallDemo.at_end, snd EcallDemo.at_end)) by (vm_compute; reflexivity).
  split.
  - refine (eq_trans (timer_events_last EcallDemo.topic_ "pa-test-0001" EcallDemo.clock_ EcallDemo.clock_
      (Some "init") EcallDemo.life (fst EcallDemo.at_end) (snd EcallDemo.at_end) 1 T2_TIMER _ Hr) _);
      [discriminate|vm_compute; reflexivity].
  - refine (eq_trans (timer_events_last EcallDemo.topic_ "pa-test-0001" EcallDemo.clock_ EcallDemo.clock_
      (Some "init") EcallDemo.life (fst EcallDemo.at_end) (snd EcallDemo.at_end) 1 T9_TIMER _ Hr) _);
      [discriminate|vm_compute; reflexivity].
Defined.

(** The steps of a report are not one critical section.  The worker has found
    call 1, about to be reported ACTIVE, when the bridge's thread reports call 2:
    the late [setCallState] revives the ended call 1, which is no longer the
    phone's call, and no indication will end it again. *)
Example superseded_call_revived :
  let m0 : EcallDemo.Ma := snd (findOrCreateCall_ 1 1 DIR_OUTGOING "112" (SimulaCallManager None)) in
  let '(id, _, m1) := find_or_create 1 1 DIR_OUTGOING "112" m0 in
  let m2 := make_ecall_reply 1 None
              (Some (EcallDemo.env [("call", JObject (EcallDemo.call 2 "DIALING"))])) m1 in
  let m3 := set_call_state CALL_ACTIVE id m2 in
  calls_ m3 !! 1 = Some 1%nat /\ callState_ <$> heap m3 = [CALL_ACTIVE; CALL_DIALING].
Proof. by vm_compute. Qed.

(** A call that ended stays in the list of calls in progress. *)
Example ended_call_in_progress :
  let m : EcallDemo.Ma := snd (findOrCreateCall_ 1 1 DIR_OUTGOING "112" (SimulaCallManager None)) in
  let m := set_call_state CALL_ENDED 0%nat m in
  (fun id => callState_ (deref id m)) <$> getInProgressCalls m = [CALL_ENDED].
Proof. by vm_compute. Qed.

(** An answer without [call] leaves the caller without any word. *)
Example undecodable_answer_is_silence (m : EcallDemo.Ma) :
  reply EcallDemo.ecall (Some (EcallDemo.env [])) m = m.
Proof. done. Qed.
