(* ===== verification/NetWire.v ===== *)
(** * Wire forms the network managers share (net/WireEnums.hpp)

    The SDK's enumerations of interfaces, backhauls and address families with
    their wire names, and the description of a backhaul. *)

From S2P Require Import Prelude Json Manager DataCall.

Local Open Scope Z_scope.

(** ** Enumerations (telux/data/DataDefines.hpp) *)

Inductive InterfaceType :=
  | IF_UNKNOWN | WLAN | ETH | ECM | RNDIS | MHI | VMTAP0 | VMTAP1 | ETH2 | AP_PRIMARY
  | AP_SECONDARY | AP_TERTIARY | AP_QUATERNARY.
Inductive BackhaulType := BH_ETH | BH_USB | BH_WLAN | BH_WWAN | BH_BLE | MAX_SUPPORTED.

#[export] Instance InterfaceType_eq_dec : EqDecision InterfaceType.
Proof. solve_decision. Defined.
#[export] Instance BackhaulType_eq_dec : EqDecision BackhaulType.
Proof. solve_decision. Defined.

(** The members' values. *)
Definition iface_value (t : InterfaceType) : Z :=
  match t with
  | IF_UNKNOWN => 0 | WLAN => 1 | ETH => 2 | ECM => 3 | RNDIS => 4 | MHI => 5 | VMTAP0 => 6
  | VMTAP1 => 7 | ETH2 => 8 | AP_PRIMARY => 9 | AP_SECONDARY => 10 | AP_TERTIARY => 11
  | AP_QUATERNARY => 12
  end.
Definition ip_family_value (t : IpFamilyType) : Z :=
  match t with IPF_UNKNOWN => -1 | IPV4 => 4 | IPV6 => 6 | IPV4V6 => 10 end.

Definition fromIfaceType (t : InterfaceType) : string :=
  match t with
  | WLAN => "WLAN" | ETH => "ETH" | ECM => "ECM" | RNDIS => "RNDIS" | MHI => "MHI"
  | VMTAP0 => "VMTAP0" | VMTAP1 => "VMTAP1" | ETH2 => "ETH2" | AP_PRIMARY => "AP_PRIMARY"
  | AP_SECONDARY => "AP_SECONDARY" | AP_TERTIARY => "AP_TERTIARY"
  | AP_QUATERNARY => "AP_QUATERNARY" | _ => "UNKNOWN"
  end.

Definition toIfaceType (s : string) : InterfaceType :=
  if decide (s = "WLAN") then WLAN
  else if decide (s = "ETH") then ETH
  else if decide (s = "ECM") then ECM
  else if decide (s = "RNDIS") then RNDIS
  else if decide (s = "MHI") then MHI
  else if decide (s = "VMTAP0") then VMTAP0
  else if decide (s = "VMTAP1") then VMTAP1
  else if decide (s = "ETH2") then ETH2
  else if decide (s = "AP_PRIMARY") then AP_PRIMARY
  else if decide (s = "AP_SECONDARY") then AP_SECONDARY
  else if decide (s = "AP_TERTIARY") then AP_TERTIARY
  else if decide (s = "AP_QUATERNARY") then AP_QUATERNARY
  else IF_UNKNOWN.

Definition fromBackhaul (t : BackhaulType) : string :=
  match t with
  | BH_ETH => "ETH" | BH_USB => "USB" | BH_WLAN => "WLAN" | BH_WWAN => "WWAN" | BH_BLE => "BLE"
  | _ => ""
  end.

Definition toBackhaul (s : string) : BackhaulType :=
  if decide (s = "USB") then BH_USB
  else if decide (s = "WLAN") then BH_WLAN
  else if decide (s = "WWAN") then BH_WWAN
  else if decide (s = "BLE") then BH_BLE
  else BH_ETH.

Definition fromIpFamily (t : IpFamilyType) : string :=
  match t with IPV4 => "IPV4" | IPV6 => "IPV6" | IPV4V6 => "IPV4V6" | _ => "UNKNOWN" end.

Definition toIpFamily (s : string) : IpFamilyType :=
  if decide (s = "IPV4") then IPV4
  else if decide (s = "IPV6") then IPV6
  else if decide (s = "IPV4V6") then IPV4V6
  else IPF_UNKNOWN.

#[export] Instance iface_wire : WireEnum InterfaceType :=
  {| to_wire := fromIfaceType; of_wire := toIfaceType |}.
#[export] Instance iface_wire_spec : WireEnumSpec InterfaceType (fun _ => True).
Proof. split. by intros []. Qed.

#[export] Instance backhaul_wire : WireEnum BackhaulType :=
  {| to_wire := fromBackhaul; of_wire := toBackhaul |}.
(** [MAX_SUPPORTED], a count, has no name. *)
#[export] Instance backhaul_wire_spec : WireEnumSpec BackhaulType (fun t => t <> MAX_SUPPORTED).
Proof. split. by intros []. Qed.

#[export] Instance ip_family_wire : WireEnum IpFamilyType :=
  {| to_wire := fromIpFamily; of_wire := toIpFamily |}.
#[export] Instance ip_family_wire_spec : WireEnumSpec IpFamilyType (fun _ => True).
Proof. split. by intros []. Qed.

(** ** Backhauls *)

(** [SlotId] is an unscoped enumeration the code casts any [int] to. *)
Definition DEFAULT_SLOT_ID : Z := 1.

Record BackhaulInfo := mkBackhaul {
  backhaul : BackhaulType;
  bh_slotId : Z;
  bh_profileId : Z;
  bh_vlanId : Z }.

(** [BackhaulInfo bh{}]. *)
Definition zero_backhaul : BackhaulInfo := mkBackhaul BH_ETH DEFAULT_SLOT_ID (-1) (-1).

Section BackhaulCodec.
Context {json : Type} `{Json json, JsonValues json}.

Definition backhaul_members (bh : BackhaulInfo) : list (string * json) :=
  let wwan := bool_decide (backhaul bh = BH_WWAN) in
  opt_member (bool_decide (fromBackhaul (backhaul bh) <> "")) "backhaul"
    (of_string (fromBackhaul (backhaul bh))) ++
  opt_member wwan "slot" (of_int (bh_slotId bh)) ++
  opt_member wwan "profileId" (of_int (bh_profileId bh)) ++
  opt_member (bool_decide (0 <= bh_vlanId bh)) "bhVlanId" (of_int (bh_vlanId bh)).

Definition fromBackhaulInfo (bh : BackhaulInfo) : json := jobj (backhaul_members bh).

(** [if (j.contains(k)) ... j.value(k, def)]. *)
Definition int_if_present (k : string) (def unset : Z) (j : json) : option Z :=
  if contains k j then value_int k def j else Some unset.

Definition toBackhaulInfo (j : json) : option BackhaulInfo :=
  b ← value_string "backhaul" "" j;
  s ← int_if_present "slot" DEFAULT_SLOT_ID (bh_slotId zero_backhaul) j;
  p ← int_if_present "profileId" (-1) (bh_profileId zero_backhaul) j;
  v ← int_if_present "bhVlanId" (-1) (bh_vlanId zero_backhaul) j;
  Some (mkBackhaul (toBackhaul b) s p v).
End BackhaulCodec.

(** ** Correctness of the codec *)

(** What the wire keeps of a backhaul: the SIM and profile for WWAN only, no
    negative VLAN id. *)
Definition on_wire (bh : BackhaulInfo) : BackhaulInfo :=
  let wwan := bool_decide (backhaul bh = BH_WWAN) in
  mkBackhaul (backhaul bh) (if wwan then bh_slotId bh else DEFAULT_SLOT_ID)
    (if wwan then bh_profileId bh else -1)
    (if bool_decide (0 <= bh_vlanId bh) then bh_vlanId bh else -1).

Record backhaul_ok (bh : BackhaulInfo) : Prop := {
  bh_named : backhaul bh <> MAX_SUPPORTED;
  bh_slot_int : is_int (bh_slotId bh);
  bh_profile_int : is_int (bh_profileId bh);
  bh_vlan_int : is_int (bh_vlanId bh) }.

(** The codec on any object that starts with the members of a backhaul. *)
Lemma backhaul_read {json} `{JsonSpec json, !JsonValues json, !JsonValuesSpec json}
    (bh : BackhaulInfo) (ms : list (string * json)) :
  backhaul_ok bh ->
  Forall (fun kv => kv.1 ∉ ["backhaul"; "slot"; "profileId"; "bhVlanId"]) ms ->
  toBackhaulInfo (jobj (backhaul_members bh ++ ms)) = Some (on_wire bh).
Proof.
  intros [Hn Hs Hp Hv] Hms.
  assert (Hm : forall k, k ∈ ["backhaul"; "slot"; "profileId"; "bhVlanId"] ->
    member k (backhaul_members bh ++ ms) = member k (backhaul_members bh)).
  { intros k Hk. rewrite member_app. replace (member k ms) with (@None json); [done|].
    symmetry. induction Hms as [|[k' v] ms Hkv _ IH]; [done|]. simpl. rewrite IH.
    rewrite decide_False; [done|]. intros ->. by apply Hkv. }
  unfold toBackhaulInfo, int_if_present, is_int in *. rewrite !jobj_contains, !Hm by set_solver.
  unfold value_string, value_int, value_as.
  rewrite !jobj_object, !jobj_find, !Hm by set_solver.
  destruct bh as [b s p v]; simpl in *. unfold backhaul_members, on_wire; simpl.
  destruct (bool_decide_reflect (0 <= v)), b; try done; simpl;
    rewrite ?of_string_is, ?of_string_get, ?as_int_of by lia; try done; simpl;
    rewrite ?as_int_of by lia; try done; simpl; rewrite ?as_int_of by lia; done.
Qed.
