(* ===== verification/Answers.v ===== *)
(** * Answers the managers share

    A manager hands the bridge a function for the modem's answer, which calls its
    client's callback: with the data decoded, with an error, or with a timeout.
    What throws in it is swallowed by the bridge and the callback is not called.
    This file has the forms these functions take and the laws managers' answers
    obey. *)

From S2P Require Import Prelude Json Envelope Manager.

Local Open Scope Z_scope.

Section Answers.
Context {json : Type} `{Json json, JsonValues json} {C V : Type}.

(** [completeResponseCb] ([complete] in DataSettingsManager), for a callback
    that takes an error code only. *)
Definition completeResponseCb (v : V) (cb : option C) (rsp : option (Envelope json)) : list (C * V * Z) :=
  match cb with
  | None => []
  | Some c =>
      match rsp with
      | None => [(c, v, OPERATION_TIMEOUT)]
      | Some env =>
          match error env with
          | Some err =>
              match value_string "code" "" err with
              | Some code => [(c, v, parseErrorCode code)]
              | None => []
              end
          | None => [(c, v, SUCCESS)]
          end
      end
  end.

(** A query's failure, or its data. *)
Definition query_data (rsp : option (Envelope json)) : Z + json :=
  match rsp with
  | None => inl OPERATION_TIMEOUT
  | Some env =>
      match error env, data env with
      | None, Some d => inr d
      | _, _ => inl GENERIC_FAILURE
      end
  end.

(** A query's answer: [bad] with the failure's code, or what is decoded. *)
Definition completeQuery (bad : V) (decode : json -> option V) (cb : option C)
    (rsp : option (Envelope json)) : list (C * V * Z) :=
  match cb with
  | None => []
  | Some c =>
      match query_data rsp with
      | inl code => [(c, bad, code)]
      | inr d => match decode d with Some v => [(c, v, SUCCESS)] | None => [] end
      end
  end.

(** Answers of the data managers: whatever goes wrong is a timeout. *)
Definition completeOrTimeout (v : V) (cb : option C) (rsp : option (Envelope json)) : list (C * V * Z) :=
  match cb with
  | None => []
  | Some c =>
      let ok := match rsp with Some env => match error env with None => true | _ => false end | None => false end in
      [(c, v, if ok then SUCCESS else OPERATION_TIMEOUT)]
  end.

Definition completeData (bad : V) (decode : json -> option V) (cb : option C)
    (rsp : option (Envelope json)) : list (C * V * Z) :=
  match cb with
  | None => []
  | Some c =>
      match query_data rsp with
      | inl _ => [(c, bad, OPERATION_TIMEOUT)]
      | inr d => match decode d with Some v => [(c, v, SUCCESS)] | None => [] end
      end
  end.

Definition clients_of (v : V) (cb : option C) : list (C * V) := (fun c => (c, v)) <$> option_list cb.

(** Answers to at most one client, the timeout among them. *)
Record one_answer (bad : V) (cb : option C) (f : option (Envelope json) -> list (C * V * Z)) : Prop := {
  one_clients rsp : exists n, (fun x : C * V * Z => fst (fst x)) <$> f rsp = take n (option_list cb);
  one_timeout : f None = (fun c => (c, bad, OPERATION_TIMEOUT)) <$> option_list cb;
  one_length rsp : (length (f rsp) <= 1)%nat }.

Lemma complete_one v cb : one_answer v cb (completeResponseCb v cb).
Proof.
  destruct cb as [c|]; split; simpl; try done; try (intros rsp; by exists 0%nat); intros rsp;
    destruct rsp as [env|]; try (by exists 1%nat); try (simpl; lia);
    destruct (error env) as [err|]; try (by exists 1%nat); try (simpl; lia);
    destruct (value_string "code" "" err); simpl; try lia; try (by exists 1%nat); by exists 0%nat.
Qed.

Lemma query_one bad decode cb : one_answer bad cb (completeQuery bad decode cb).
Proof.
  destruct cb as [c|]; split; simpl; try done; try (intros rsp; by exists 0%nat); intros rsp;
    destruct (query_data rsp) as [code|d]; try (by exists 1%nat); try (simpl; lia);
    destruct (decode d); simpl; try lia; try (by exists 1%nat); by exists 0%nat.
Qed.

Lemma or_timeout_one v cb : one_answer v cb (completeOrTimeout v cb).
Proof.
  destruct cb as [c|]; split; simpl; try done; intros rsp; try (simpl; lia); [by exists 1%nat|by exists 0%nat].
Qed.

Lemma data_one bad decode cb : one_answer bad cb (completeData bad decode cb).
Proof.
  destruct cb as [c|]; split; simpl; try done; try (intros rsp; by exists 0%nat); intros rsp;
    destruct (query_data rsp) as [code|d]; try (by exists 1%nat); try (simpl; lia);
    destruct (decode d); simpl; try lia; try (by exists 1%nat); by exists 0%nat.
Qed.

(** The laws of [NetSpec] for an operation with one client. *)
Definition op_laws (clients : list (C * V)) (f : option (Envelope json) -> list (C * V * Z)) : Prop :=
  (forall rsp, exists n, (fun x : C * V * Z => fst (fst x)) <$> f rsp = take n clients.*1) /\
  f None = (fun '(c, v) => (c, v, OPERATION_TIMEOUT)) <$> clients /\
  (forall rsp x y, x ∈ f rsp -> y ∈ f rsp -> x.2 = y.2).

Lemma one_answer_laws bad cb f : one_answer bad cb f -> op_laws (clients_of bad cb) f.
Proof.
  intros [Hc Ht Hl]. split; [|split].
  - intros rsp. destruct (Hc rsp) as [n Hn]. exists n. rewrite Hn. f_equal. by destruct cb.
  - rewrite Ht. by destruct cb.
  - intros rsp x y. specialize (Hl rsp). destruct (f rsp) as [|z [|]]; simpl in Hl; [set_solver|set_solver|lia].
Qed.

Lemma complete_laws v cb : op_laws (clients_of v cb) (completeResponseCb v cb).
Proof. apply one_answer_laws, complete_one. Qed.

Lemma query_laws bad decode cb : op_laws (clients_of bad cb) (completeQuery bad decode cb).
Proof. apply one_answer_laws, query_one. Qed.

Lemma or_timeout_laws v cb : op_laws (clients_of v cb) (completeOrTimeout v cb).
Proof. apply one_answer_laws, or_timeout_one. Qed.

Lemma data_laws bad decode cb : op_laws (clients_of bad cb) (completeData bad decode cb).
Proof. apply one_answer_laws, data_one. Qed.
End Answers.

