(* ===== verification/NetShell.v ===== *)
(** * The shell of the network managers (net/)

    VlanManager, L2tpManager, NatManager, SocksManager and DataSettingsManager
    are the same active object around different operations: a composite state
    with the leaves NotReady and Ready, an init gate, a published status and weak
    listeners; every operation is one request to the modem, answered by one
    callback.  The shell is written once, over the class [NetOps] of what the
    managers differ in; [NetSpec] states what each of them promises.  Vlan.v,
    L2tp.v, Nat.v, Socks.v and DataSettings.v give the instances, and DataProfile.v
    and DataServing.v those of two managers of component/data of the same form. *)

From S2P Require Import Prelude Hsm HsmSpec ActiveObject Json Envelope InitGate Manager Answers.

Local Open Scope Z_scope.

Inductive net_state := NetOperating_St | NetNotReady_St | NetReady_St.

#[export] Instance net_state_eq_dec : EqDecision net_state.
Proof. solve_decision. Defined.

Section NetTypes.
(** Clients' callbacks, the listeners. *)
Context {json C L : Type}.
(** Per manager: operations with what their payloads carry, values handed to
    callbacks, notifications, members of its own, events other than the shell's. *)
Context {Op V Note X Ev : Type}.

Inductive net_event :=
  | ReadinessEvt_Signal (env : Envelope json)
  | BridgeConnectivityChanged_Signal (operational : bool)
  | Other (e : Ev).

Inductive net_notification :=
  | onServiceStatusChange (s : ServiceStatus)
  | Notify (n : Note).

(** [Request op]: the function given to [send_request] captures [op]. *)
Inductive net_effect :=
  | Request (op : Op) (topic schema : string) (env : Envelope json) (timeout : Z)
  | Answer (cb : C) (value : V) (code : Z)
  | Enqueue (listeners : list L) (n : net_notification).

Record NetManager := mkNet {
  init_gate_ : Gate C;
  last_status_ : ServiceStatus;
  listeners_ : list L;
  own : X;
  looks : nat;
  log : list net_effect }.
End NetTypes.

Arguments net_event : clear implicits.
Arguments NetManager : clear implicits.
Arguments net_effect : clear implicits.

Section Members.
Context {json C L Op V Note X : Type}.
Local Notation NetManager := (NetManager json C L Op V Note X).

Definition set_gate g (m : NetManager) : NetManager :=
  mkNet g (last_status_ m) (listeners_ m) (own m) (looks m) (log m).
Definition publishStatus_ s (m : NetManager) : NetManager :=
  mkNet (init_gate_ m) s (listeners_ m) (own m) (looks m) (log m).
Definition set_listeners ls (m : NetManager) : NetManager :=
  mkNet (init_gate_ m) (last_status_ m) ls (own m) (looks m) (log m).
Definition set_own x (m : NetManager) : NetManager :=
  mkNet (init_gate_ m) (last_status_ m) (listeners_ m) x (looks m) (log m).
Definition look (m : NetManager) : NetManager :=
  mkNet (init_gate_ m) (last_status_ m) (listeners_ m) (own m) (S (looks m)) (log m).
Definition emit l (m : NetManager) : NetManager :=
  mkNet (init_gate_ m) (last_status_ m) (listeners_ m) (own m) (looks m) (log m ++ l).

Definition new_net (x : X) (initCb : option C) : NetManager :=
  mkNet (new_gate initCb) SERVICE_UNAVAILABLE [] x 0 [].

Definition addInitCallback (cb : option C) (m : NetManager) : NetManager :=
  set_gate (add cb (init_gate_ m)) m.

Definition requests_sent (m : NetManager) : nat :=
  length (omap (fun e => match e with Request op _ _ _ _ => Some op | _ => None end) (log m)).

(** The calls a reply makes. *)
Definition answer (l : list (C * V * Z)) (m : NetManager) : NetManager :=
  emit ((fun '(c, v, code) => Answer c v code) <$> l) m.
End Members.

(** ** What the managers differ in *)

Class NetOps (json C L Op V Note X Ev : Type) := {
  (** Names of the request and of its answer's schema, and the payload. *)
  op_request : Op -> string * string * json;
  (** The callbacks of an operation with the values of a failure. *)
  op_clients : Op -> list (C * V);
  (** The calls made by the function given to [send_request]; what throws in it
      is swallowed by the bridge and the rest is lost. *)
  op_answer : Op -> option (Envelope json) -> list (C * V * Z);
  (** An event as the handler of NotReady, or of Ready, treats it: an operation,
      or else what becomes of the manager's own members and whom it tells. *)
  asks : Ev -> option Op;
  indicates : bool -> Ev -> X -> outcome (X * list Note);
  (** Broadcasting erases the listeners found expired. *)
  reaps : bool;
  (** The leaves have a composite parent; if not they are roots. *)
  nested : bool;
  (** An operation that NotReady finds in its queue is answered; if not it is
      dropped. *)
  refuses : bool;
  (** Indications NotReady has no case for. *)
  passes : Ev -> bool }.

Arguments op_request {json C L Op V Note X Ev _}.
Arguments op_clients {json C L Op V Note X Ev _}.
Arguments op_answer {json C L Op V Note X Ev _}.
Arguments asks {json C L Op V Note X Ev _}.
Arguments indicates {json C L Op V Note X Ev _}.
Arguments passes {json C L Op V Note X Ev _}.

(** What each manager promises of its answers: clients are called in order and
    at most once each, all with one code, and none is left out of a timeout or of
    an answer in which nothing throws; a timeout is reported as one. *)
Class NetSpec (json C L Op V Note X Ev : Type) `{NetOps json C L Op V Note X Ev} : Prop := {
  answer_clients op rsp :
    exists n, (fun x : C * V * Z => fst (fst x)) <$> op_answer op rsp = take n ((op_clients op).*1);
  answer_timeout op :
    op_answer op None = (fun '(c, v) => (c, v, OPERATION_TIMEOUT)) <$> op_clients op;
  answer_code op rsp x y : x ∈ op_answer op rsp -> y ∈ op_answer op rsp -> x.2 = y.2 }.

(** ** The chart *)

Section Shell.
Context {json : Type} `{Json json, JsonValues json}.
Context {C L Op V Note X Ev : Type} `{EqDecision L} `{!NetOps json C L Op V Note X Ev}.
Context (topic : string -> string) (paId : string) (now_at counter_at : nat -> Z).
(** Whether a listener is alive at the [n]-th look. *)
Context (alive_at : nat -> L -> bool).

Local Notation NetManager := (NetManager json C L Op V Note X).
Local Notation net_event := (net_event json Ev).

(** No handler of the managers posts to the manager itself. *)
Definition outbox (m : NetManager) : list (post net_event) := [].
Definition flush (m : NetManager) : NetManager := m.

Definition broadcastToListeners_ (n : net_notification (Note := Note)) (m : NetManager) : NetManager :=
  let ls := locked (alive_at (looks m)) (listeners_ m) in
  let m := if reaps then set_listeners ls m else m in
  if decide (ls = []) then look m else emit [Enqueue ls n] (look m).

Definition registerListener (l : L) (m : NetManager) : Status * NetManager :=
  (SUCCESS_, set_listeners (listeners_ m ++ [l]) m).
Definition deregisterListener (l : L) (m : NetManager) : Status * NetManager :=
  (SUCCESS_, look (set_listeners (reap (alive_at (looks m)) l (listeners_ m)) m)).

Definition send_op (op : Op) (m : NetManager) : NetManager :=
  let n := requests_sent m in
  let '(req, schema, payload) := op_request op in
  let env := fst (makeRequestEnvelope (now_at n) (counter_at n) paId payload) in
  emit [Request op (topic req) schema env kRpcTimeout] m.

(** An operation that reaches the worker after readiness was lost. *)
Definition refuse (op : Op) (m : NetManager) : NetManager :=
  if refuses then answer ((fun '(c, v) => (c, v, DEVICE_NOT_READY)) <$> op_clients op) m else m.

(** What the bridge's thread does with the answer. *)
Definition reply (op : Op) (rsp : option (Envelope json)) (m : NetManager) : NetManager :=
  answer (op_answer op rsp) m.

Definition tell (ns : list Note) (m : NetManager) : NetManager :=
  foldl (fun m n => broadcastToListeners_ (Notify n) m) m ns.

Definition indicate (ready : bool) (e : Ev) (m : NetManager) : outcome NetManager :=
  '(x, ns) ← indicates ready e (own m); Done (tell ns (set_own x m)).

Definition ready_entry (m : NetManager) : NetManager :=
  let m := publishStatus_ SERVICE_AVAILABLE m in
  let '(first, g) := markReadyAndFire SERVICE_AVAILABLE (init_gate_ m) in
  let m := set_gate g m in
  if first then m else broadcastToListeners_ (onServiceStatusChange SERVICE_AVAILABLE) m.

Definition result : Type := outcome (verdict net_state * NetManager).
Definition handled (m : NetManager) : result := Done (Handled, m).
Definition goto (t : net_state) (m : NetManager) : result := Done (To (st t), m).
Definition super (p : StateFn net_state) (m : NetManager) : result := Done (Super p, m).
(** [super] of a leaf. *)
Definition super_of_leaf : NetManager -> result := super (if nested then st NetOperating_St else top).

Definition on_Operating (e : Event net_event) (m : NetManager) : result :=
  match e with Entry_Signal | Exit_Signal => handled m | _ => super top m end.

Definition on_NotReady (e : Event net_event) (m : NetManager) : result :=
  match e with
  | Entry_Signal | Exit_Signal => handled m
  | User (ReadinessEvt_Signal env) =>
      match data env with
      | None => handled m
      | Some d =>
          s ← or_die (value_string "status" "" d);
          if decide (s = "AVAILABLE") then goto NetReady_St m else handled m
      end
  | User (BridgeConnectivityChanged_Signal _) => handled m
  | User (Other e) =>
      match asks e with
      | Some op => handled (refuse op m)
      | None => if passes e then super_of_leaf m else m ← indicate false e m; handled m
      end
  | _ => super_of_leaf m
  end.

Definition on_Ready (e : Event net_event) (m : NetManager) : result :=
  match e with
  | Entry_Signal => handled (ready_entry m)
  | Exit_Signal => handled (broadcastToListeners_ (onServiceStatusChange SERVICE_UNAVAILABLE) m)
  | User (ReadinessEvt_Signal env) =>
      match data env with
      | None => handled m
      | Some d =>
          s ← or_die (value_string "status" "" d);
          if decide (s = "UNAVAILABLE") then goto NetNotReady_St (publishStatus_ SERVICE_UNAVAILABLE m)
          else if decide (s = "FAILED") then goto NetNotReady_St (publishStatus_ SERVICE_FAILED m)
          else handled m
      end
  | User (BridgeConnectivityChanged_Signal operational) =>
      if negb operational then goto NetNotReady_St (publishStatus_ SERVICE_UNAVAILABLE m) else handled m
  | User (Other e) =>
      match asks e with
      | Some op => handled (send_op op m)
      | None => m ← indicate true e m; handled m
      end
  | _ => super_of_leaf m
  end.

Definition handler (x : net_state) : Event net_event -> NetManager -> result :=
  match x with
  | NetOperating_St => on_Operating
  | NetNotReady_St => on_NotReady
  | NetReady_St => on_Ready
  end.

Definition parent (x : net_state) : option net_state :=
  match x with NetOperating_St => None | _ => if nested then Some NetOperating_St else None end.
Definition lineage (x : net_state) : list net_state := x :: option_list (parent x).
Definition swallow (x : net_state) : bool := false.

#[global] Instance wf_net : wf_chart handler parent lineage swallow.
Proof.
  constructor.
  - intros []; unfold lineage, parent; by destruct nested.
  - intros []; unfold lineage, parent, kMaxNest; destruct nested; simpl; lia.
  - by intros [].
  - by intros [].
  - intros [] ?; simpl; unfold super_of_leaf, up, parent; by destruct nested.
  - intros [] b v b'; simpl; intros [= <- _]; auto.
  - assert (Hind : forall r e m v m', (m1 ← indicate r e m; handled m1) = Done (v, m') -> v = Handled).
    { intros r e m v m' (m1 & _ & [= <- _])%bind_done'. done. }
    intros [] e m v m'; destruct e as [env|b|e]; simpl; try (intros [= <- _]; simpl; by eauto).
    + destruct (data env) as [d|]; [|by intros [= <- _]].
      destruct (value_string _ _ _); simpl; [|done]. case_decide; intros [= <- _]; eauto.
    + destruct (asks e); [by intros [= <- _]|]. destruct (passes e); [|by intros ->%Hind].
      intros [= <- _]. unfold up, parent. by destruct nested.
    + destruct (data env) as [d|]; [|by intros [= <- _]].
      destruct (value_string _ _ _); simpl; [|done]. repeat case_decide; intros [= <- _]; eauto.
    + destruct b; intros [= <- _]; simpl; eauto.
    + destruct (asks e); [by intros [= <- _]|by intros ->%Hind].
  - intros [] b t b'; simpl; by intros [=].
Qed.

(** ** The public interface *)

Definition AONet : Type := AO net_state net_event NetManager.

Definition isReadyDerived_ (c : AONet) : bool := bool_decide (state_ (hsm c) = st NetReady_St).
Definition getServiceStatus (c : AONet) : ServiceStatus := last_status_ (self (hsm c)).
Definition isSubsystemReady : AONet -> bool := isReadyDerived_.
Definition onSubsystemReady : AONet -> bool := isReadyDerived_.

(** The guard of every asynchronous operation. *)
Definition post_if_ready (e : Ev) (c : AONet) : Status * AONet :=
  if isReadyDerived_ c then (SUCCESS_, post_fifo (Other e) c) else (NOTREADY, c).

Definition start (ndebug : bool) (c : AONet) : outcome AONet :=
  if running_ c then Done c else start_at handler ndebug true (st NetNotReady_St) c.
End Shell.

(** The laws, operation by operation. *)
Lemma net_spec_of {json C L Op V Note X Ev} `{NetOps json C L Op V Note X Ev} :
  (forall op, op_laws (op_clients op) (op_answer op)) -> NetSpec json C L Op V Note X Ev.
Proof.
  intros Hops. split.
  - intros op. apply (Hops op).
  - intros op. apply (Hops op).
  - intros op. apply (Hops op).
Qed.
