(* ===== verification/Socks.v ===== *)
(** * The SOCKS manager (net/SocksManager.cpp)

    The shell of NetShell.v with one operation: enabling the proxy. *)

From S2P Require Import Prelude Hsm HsmSpec ActiveObject Json Envelope InitGate Manager Answers NetShell.

Local Open Scope Z_scope.

Section Socks.
Context {json : Type} `{Json json, JsonValues json} {C L : Type} `{EqDecision L}.

Inductive socks_op := EnableSocks (enable : bool) (cb : option C).

#[global] Instance socks_ops : NetOps json C L socks_op unit Empty_set unit socks_op := {|
  op_request := fun '(EnableSocks e _) =>
    ("net_socks.enable_socks.req", "net_socks.enable_socks.rsp", jobj [("enable", of_bool e)]);
  op_clients := fun '(EnableSocks _ cb) => clients_of tt cb;
  op_answer := fun '(EnableSocks _ cb) rsp => completeResponseCb tt cb rsp;
  asks := Some;
  indicates _ _ x := Done (x, []);
  reaps := false; nested := true; refuses := true; passes _ := false |}.

Local Notation AOSocks := (AONet (json := json) (C := C) (L := L) (Op := socks_op) (V := unit)
  (Note := Empty_set) (X := unit) (Ev := socks_op)).

Definition SimulaSocksManager (initCb : option C) :
    NetManager json C L socks_op unit Empty_set unit := new_net tt initCb.

Definition enableSocks (enable : bool) (cb : option C) : AOSocks -> Status * AOSocks :=
  post_if_ready (EnableSocks enable cb).

(** The states: those of the shell, with the operations above. *)
Section States.
Context (topic : string -> string) (paId : string) (now_at counter_at : nat -> Z).
Context (alive_at : nat -> L -> bool).

Local Notation state_fn := (Event (net_event json socks_op) -> NetManager json C L socks_op unit Empty_set unit -> result).

Definition SocksOperating_St : state_fn := on_Operating.
Definition SocksNotReady_St : state_fn := on_NotReady alive_at.
Definition SocksReady_St : state_fn := on_Ready topic paId now_at counter_at alive_at.
End States.

Definition socks_subscriptions : list (string * (Envelope json -> net_event json socks_op)) :=
  [("net_socks.subsys_ready_net_socks.ind", ReadinessEvt_Signal)].

#[global] Instance socks_spec : NetSpec json C L socks_op unit Empty_set unit socks_op.
Proof. apply net_spec_of. intros []. apply complete_laws. Qed.
End Socks.
