(* ===== verification/NetShellProps.v ===== *)
(** * Correctness of the network managers' shell

    [net_step] is the shell as a table over its two leaf states.  The theorems
    hold for every manager that meets [NetSpec]: its readiness and status are the
    last the modem reported, under every interleaving; every accepted operation is
    one request, and its clients are answered once; init callbacks are called
    once. *)

From S2P Require Import Prelude Hsm HsmSpec HsmProps ActiveObject Json Envelope InitGate Manager Answers.
From S2P Require Import NetShell Socks.

Local Open Scope Z_scope.

Section NetProps.
Context {json : Type} `{Json json, JsonValues json}.
Context {C L Op V Note X Ev : Type} `{EqDecision L} `{!NetOps json C L Op V Note X Ev}.
Context (topic : string -> string) (paId : string) (now_at counter_at : nat -> Z).
Context (alive_at : nat -> L -> bool).

Local Notation NetManager := (NetManager json C L Op V Note X).
Local Notation net_event := (net_event json Ev).
Local Notation net_effect := (net_effect json C L Op V Note).
Local Notation handler := (handler topic paId now_at counter_at alive_at (Note := Note) (X := X)).
Local Notation broadcast := (broadcastToListeners_ alive_at (V := V) (X := X)).

(** ** The shell as a table *)

(** The status an event reports. *)
Definition status_said (e : net_event) : option ServiceStatus :=
  match e with
  | ReadinessEvt_Signal env =>
      s ← (d ← data env; value_string "status" "" d);
      if decide (s = "AVAILABLE") then Some SERVICE_AVAILABLE
      else if decide (s = "UNAVAILABLE") then Some SERVICE_UNAVAILABLE
      else if decide (s = "FAILED") then Some SERVICE_FAILED else None
  | BridgeConnectivityChanged_Signal false => Some SERVICE_UNAVAILABLE
  | _ => None
  end.

Definition report (e : net_event) : option bool :=
  (fun s => bool_decide (s = SERVICE_AVAILABLE)) <$> status_said e.

(** A readiness indication whose status is not a string stops the process. *)
Definition readable (e : net_event) : outcome unit :=
  match e with
  | ReadinessEvt_Signal env =>
      match data env with Some d => or_die (value_string "status" "" d) ;; Done tt | None => Done tt end
  | _ => Done tt
  end.

Definition degrade (s : ServiceStatus) (m : NetManager) : net_state * NetManager :=
  (NetNotReady_St, broadcast (onServiceStatusChange SERVICE_UNAVAILABLE) (publishStatus_ s m)).

Definition is_ready (leaf : net_state) : bool := match leaf with NetReady_St => true | _ => false end.

(** An indication nobody handles. *)
Definition passed (leaf : net_state) (x : Ev) : bool := negb (is_ready leaf) && passes x.

(** Where a report takes the manager. *)
Definition net_report (leaf : net_state) (s : option ServiceStatus) (m : NetManager) :
    net_state * NetManager :=
  match is_ready leaf, s with
  | false, Some SERVICE_AVAILABLE => (NetReady_St, ready_entry alive_at m)
  | true, Some SERVICE_UNAVAILABLE => degrade SERVICE_UNAVAILABLE m
  | true, Some SERVICE_FAILED => degrade SERVICE_FAILED m
  | _, _ => (leaf, m)
  end.

Definition net_step (leaf : net_state) (e : net_event) (m : NetManager) :
    outcome (net_state * NetManager) :=
  readable e ;;
  match e with
  | Other x =>
      m ← match asks x with
          | Some op =>
              Done (if is_ready leaf then send_op topic paId now_at counter_at op m else refuse op m)
          | None => if passed leaf x then Done m else indicate alive_at (is_ready leaf) x m
          end;
      Done (leaf, m)
  | _ =>
      Done (net_report leaf (status_said e) m)
  end.

Lemma net_chart_step leaf e (m : NetManager) :
  leaf <> NetOperating_St -> chart_step handler lineage leaf e m = net_step leaf e m.
Proof.
  intros Hl. destruct leaf; [done| |]; destruct e as [env|b|x].
  1,4: unfold net_step, readable, status_said; unfold chart_step, lineage, parent; destruct nested; simpl;
    (destruct (data env) as [d|]; [|done]); simpl;
    (destruct (value_string "status" "" d) as [s|]; simpl; [|done]);
    repeat case_decide; by simplify_eq.
  1,3: unfold chart_step, lineage, parent; destruct nested; by destruct b.
  all: unfold net_step, passed; cbn [readable mbind outcome_bind is_ready negb andb];
    unfold chart_step, lineage, parent; destruct nested eqn:Hn; simpl; unfold super_of_leaf; rewrite ?Hn;
    destruct (asks x); simpl; try done; try destruct (passes x); simpl; try done;
    by destruct (indicate _ _ _ _).
Qed.

#[local] Instance net_shell : ReadyShell handler lineage NetNotReady_St NetReady_St report.
Proof.
  split; [done|]. intros leaf u m leaf' m' Hl. rewrite net_chart_step by (by destruct Hl; subst).
  unfold net_step, report. intros (_ & _ & Hs)%bind_done'.
  assert (Hr : forall s, net_report leaf s m = (leaf', m') ->
    leaf' = match (fun s => bool_decide (s = SERVICE_AVAILABLE)) <$> s with
            | Some true => NetReady_St | Some false => NetNotReady_St | None => leaf end).
  { intros [[]|]; destruct Hl as [-> | ->]; by intros [= <- _]. }
  destruct u as [env|b|x]; [| |apply bind_done' in Hs as (m1 & _ & [= <- _]); done];
    injection Hs as Hs; by apply Hr.
Qed.

(** ** Status *)

(** Effects that leave the status and the gate alone. *)
Definition same_status (m m' : NetManager) : Prop :=
  last_status_ m' = last_status_ m /\ init_gate_ m' = init_gate_ m.

#[local] Instance same_status_refl : Reflexive same_status.
Proof. by split. Qed.
#[local] Instance same_status_trans : Transitive same_status.
Proof. intros ??? [] []. split; congruence. Qed.

Lemma broadcast_status n m : same_status m (broadcast n m).
Proof. unfold broadcastToListeners_. destruct reaps; case_decide; by split. Qed.

Lemma tell_status ns (m : NetManager) : same_status m (tell alive_at ns m).
Proof.
  revert m. induction ns as [|n ns IH]; intros m; [done|]. simpl.
  etransitivity; [apply broadcast_status|apply IH].
Qed.

Lemma indicate_status r x (m m' : NetManager) : indicate alive_at r x m = Done m' -> same_status m m'.
Proof.
  unfold indicate. intros ([x' ns] & _ & [= <-])%bind_done'.
  etransitivity; [|apply tell_status]. by split.
Qed.

Lemma send_status op (m : NetManager) : same_status m (send_op topic paId now_at counter_at op m).
Proof. unfold send_op. by destruct (op_request op) as [[req schema] payload]. Qed.

Lemma refuse_status op (m : NetManager) : same_status m (refuse op m).
Proof. unfold refuse. by destruct refuses. Qed.

(** A report takes the status to AVAILABLE, or away from it; while the service
    is down the first reason stands. *)
Definition next_status (s : ServiceStatus) (r : option ServiceStatus) : ServiceStatus :=
  match r with
  | Some SERVICE_AVAILABLE => SERVICE_AVAILABLE
  | Some s' => if decide (s = SERVICE_AVAILABLE) then s' else s
  | None => s
  end.

Definition status_after (us : list net_event) : ServiceStatus :=
  fold_left (fun s u => next_status s (status_said u)) us SERVICE_UNAVAILABLE.

Record shell_ok (us : list net_event) (leaf : net_state) (m : NetManager) : Prop := {
  so_leaf : leaf <> NetOperating_St;
  so_status : last_status_ m = status_after us;
  so_ready : is_ready leaf = bool_decide (status_after us = SERVICE_AVAILABLE);
  so_gate : fired_ (init_gate_ m) = bool_decide (Some SERVICE_AVAILABLE ∈ status_said <$> us);
  so_fired : status_after us = SERVICE_AVAILABLE -> fired_ (init_gate_ m) = true }.

Lemma status_after_snoc us u : status_after (us ++ [u]) = next_status (status_after us) (status_said u).
Proof. unfold status_after. by rewrite fold_left_app. Qed.

Lemma said_snoc us u :
  bool_decide (Some SERVICE_AVAILABLE ∈ status_said <$> us ++ [u]) =
    bool_decide (Some SERVICE_AVAILABLE ∈ status_said <$> us) ||
    bool_decide (status_said u = Some SERVICE_AVAILABLE).
Proof.
  rewrite fmap_app. rewrite <- bool_decide_or. apply bool_decide_ext.
  rewrite elem_of_app. simpl. rewrite list_elem_of_singleton. naive_solver.
Qed.

Lemma shell_same us u leaf m m' :
  status_said u = None -> same_status m m' -> shell_ok us leaf m -> shell_ok (us ++ [u]) leaf m'.
Proof.
  intros Hu [H1 H2] [S1 S2 S3 S4 S5]. split; rewrite ?status_after_snoc, ?said_snoc, ?Hu; simpl;
    rewrite ?H1, ?H2, ?orb_false_r; done.
Qed.

Lemma ready_entry_status (m : NetManager) :
  last_status_ (ready_entry alive_at m) = SERVICE_AVAILABLE /\
  fired_ (init_gate_ (ready_entry alive_at m)) = true.
Proof.
  unfold ready_entry, markReadyAndFire. simpl. destruct (fired_ (init_gate_ m)) eqn:Hf; [|done].
  match goal with |- context [broadcastToListeners_ _ ?n ?x] => destruct (broadcast_status n x) as [-> ->] end.
  done.
Qed.

Lemma shell_report us u leaf m leaf' m' :
  shell_ok us leaf m -> net_report leaf (status_said u) m = (leaf', m') -> shell_ok (us ++ [u]) leaf' m'.
Proof.
  intros Hok. assert (Hdown : forall s, is_ready leaf = true -> status_said u = Some s ->
      s <> SERVICE_AVAILABLE -> degrade s m = (leaf', m') -> shell_ok (us ++ [u]) leaf' m').
  { destruct Hok as [S1 S2 S3 S4 S5]. intros s Hr Hu Hs [= <- <-].
    rewrite S3 in Hr. apply bool_decide_eq_true in Hr.
    destruct (broadcast_status (onServiceStatusChange SERVICE_UNAVAILABLE) (publishStatus_ s m)) as [B1 B2].
    split; rewrite ?status_after_snoc, ?said_snoc, ?Hu, ?B1, ?B2; simpl; rewrite ?Hr; destruct s; try done;
      rewrite ?orb_false_r; done. }
  assert (Hstay : next_status (status_after us) (status_said u) = status_after us ->
      (status_said u = Some SERVICE_AVAILABLE -> is_ready leaf = true) ->
      shell_ok (us ++ [u]) leaf m).
  { destruct Hok as [S1 S2 S3 S4 S5]. intros Hn Ha.
    split; rewrite ?status_after_snoc, ?said_snoc, ?Hn; try done.
    rewrite S4. destruct (bool_decide_reflect (status_said u = Some SERVICE_AVAILABLE)) as [Hu|];
      [|by rewrite orb_false_r]. rewrite orb_true_r, <- S4. apply S5.
    specialize (Ha Hu). rewrite S3 in Ha. by apply bool_decide_eq_true in Ha. }
  pose proof (so_ready _ _ _ Hok) as Hrd. unfold net_report.
  destruct (is_ready leaf) eqn:Hr, (status_said u) as [[]|] eqn:Hu; try (by apply Hdown);
    symmetry in Hrd; rewrite ?bool_decide_eq_true, ?bool_decide_eq_false in Hrd;
    intros [= <- <-]; try (apply Hstay; [|done]; simpl; by rewrite ?decide_False).
  destruct (ready_entry_status m) as [E1 E2]. split; rewrite ?status_after_snoc, ?said_snoc, ?Hu; simpl;
    rewrite ?E1, ?E2, ?orb_true_r; done.
Qed.

Lemma shell_step_ok us u leaf m leaf' m' :
  shell_ok us leaf m -> net_step leaf u m = Done (leaf', m') -> shell_ok (us ++ [u]) leaf' m'.
Proof.
  intros Hok. unfold net_step. intros (_ & _ & Hs)%bind_done'. destruct u as [env|b|x].
  1,2: injection Hs as Hs; by eapply shell_report.
  apply bind_done' in Hs as (m1 & Hm & [= <- <-]). eapply shell_same; [done| |exact Hok].
  destruct (asks x) as [op|]; [|destruct (passed leaf x); [by injection Hm as <-|by eapply indicate_status]].
  injection Hm as <-. destruct (is_ready leaf); [apply send_status|apply refuse_status].
Qed.

Lemma shell_run_ok ps us leaf m leaf' m' :
  shell_ok us leaf m -> chart_run handler flush lineage ps (leaf, m) = Done (leaf', m') ->
  shell_ok (us ++ (payload <$> ps)) leaf' m'.
Proof.
  revert us leaf m. induction ps as [|p ps IH]; intros us leaf m Hok; simpl.
  { intros [= <- <-]. by rewrite app_nil_r. }
  intros ([leaf1 m1] & Hs & Hr)%bind_done'. simpl in Hs.
  rewrite net_chart_step in Hs by apply (so_leaf _ _ _ Hok).
  rewrite cons_middle, app_assoc. eapply IH; [by eapply shell_step_ok|exact Hr].
Qed.

Lemma new_shell_ok x cb : shell_ok [] NetNotReady_St (new_net x cb).
Proof. by split. Qed.
(** ** Clients

    The moves that touch a manager: its worker, the bridge's thread with an
    answer, and clients' threads, [Direct] being a request they send themselves. *)

Inductive net_move :=
  | Process (e : net_event)
  | Reply (op : Op) (rsp : option (Envelope json))
  | Direct (op : Op)
  | AddInit (cb : option C)
  | Register (l : L)
  | Deregister (l : L).

Definition move_step (mv : net_move) (s : net_state * NetManager) : outcome (net_state * NetManager) :=
  let '(leaf, m) := s in
  match mv with
  | Process e => chart_step handler lineage leaf e m
  | Reply op rsp => Done (leaf, reply op rsp m)
  | Direct op => Done (leaf, if is_ready leaf then send_op topic paId now_at counter_at op m else m)
  | AddInit cb => Done (leaf, addInitCallback cb m)
  | Register l => Done (leaf, snd (registerListener l m))
  | Deregister l => Done (leaf, snd (deregisterListener alive_at l m))
  end.

Definition ready_after (ready : bool) (mv : net_move) : bool :=
  match mv with Process e => default ready (report e) | _ => ready end.
Local Notation heard := (heard ready_after).

(** What a move asks for, and of that what is sent and what is refused. *)
Definition asked_op (ready : bool) (mv : net_move) : option Op :=
  match mv with
  | Process (Other x) => asks x
  | Direct op => if ready then Some op else None
  | _ => None
  end.
Definition sent_op (ready : bool) (mv : net_move) : option Op :=
  if ready then asked_op ready mv else None.
Definition refused_op (ready : bool) (mv : net_move) : option Op :=
  if ready then None else asked_op ready mv.
Definition replied (ready : bool) (mv : net_move) : option (Op * option (Envelope json)) :=
  match mv with Reply op rsp => Some (op, rsp) | _ => None end.
Definition added (ready : bool) (mv : net_move) : option C :=
  match mv with AddInit cb => cb | _ => None end.

Definition clients (op : Op) : list C := (op_clients op).*1.
Definition answered (p : Op * option (Envelope json)) : list C :=
  (fun x : C * V * Z => fst (fst x)) <$> op_answer (fst p) (snd p).

(** The clients of an operation that NotReady found. *)
Definition turned_away (op : Op) : list C := if refuses then clients op else [].

Definition told_by (ready : bool) (mv : net_move) : option (list C) :=
  Some (match refused_op ready mv with Some op => turned_away op | None => [] end ++
        match replied ready mv with Some p => answered p | None => [] end).

Definition sent (e : net_effect) : option Op :=
  match e with Request op _ _ _ _ => Some op | _ => None end.
Definition told (e : net_effect) : option C := match e with Answer c _ _ => Some c | _ => None end.

Lemma broadcast_log n m :
  omap sent (log (broadcast n m)) = omap sent (log m) /\
  omap told (log (broadcast n m)) = omap told (log m).
Proof.
  unfold broadcastToListeners_. destruct reaps; case_decide; simpl; rewrite ?omap_app; simpl;
    by rewrite ?app_nil_r.
Qed.

Lemma tell_log ns (m : NetManager) :
  omap sent (log (tell alive_at ns m)) = omap sent (log m) /\
  omap told (log (tell alive_at ns m)) = omap told (log m).
Proof.
  revert m. induction ns as [|n ns IH]; intros m; [done|]. simpl.
  destruct (IH (broadcast (Notify n) m)) as [-> ->]. apply broadcast_log.
Qed.

Lemma answer_log l (m : NetManager) :
  omap sent (log (answer l m)) = omap sent (log m) /\
  omap told (log (answer l m)) = omap told (log m) ++ ((fun x : C * V * Z => fst (fst x)) <$> l).
Proof.
  unfold answer. simpl. rewrite !omap_app. split.
  - induction l as [|[[c v] code] l IH]; [by rewrite app_nil_r|]. done.
  - f_equal. induction l as [|[[c v] code] l IH]; [done|]. csimpl. by f_equal.
Qed.

Lemma send_log op (m : NetManager) :
  omap sent (log (send_op topic paId now_at counter_at op m)) = omap sent (log m) ++ [op] /\
  omap told (log (send_op topic paId now_at counter_at op m)) = omap told (log m).
Proof.
  unfold send_op. destruct (op_request op) as [[req schema] payload]. simpl.
  rewrite !omap_app. simpl. by rewrite app_nil_r.
Qed.

Lemma refuse_log op (m : NetManager) :
  omap sent (log (refuse op m)) = omap sent (log m) /\
  omap told (log (refuse op m)) = omap told (log m) ++ turned_away op.
Proof.
  unfold refuse, turned_away. destruct refuses; [|by rewrite app_nil_r].
  match goal with |- context [answer ?l m] => destruct (answer_log l m) as [-> ->] end.
  split; [done|]. f_equal. unfold clients. rewrite <- list_fmap_compose. apply list_fmap_ext.
  by intros _ [c v] _.
Qed.

(** What the bookkeeping of a move is, the leaf being one of the two. *)
Record move_ok (leaf : net_state) (mv : net_move) (m m' : NetManager) : Prop := {
  mo_sent : omap sent (log m') = omap sent (log m) ++ option_list (sent_op (is_ready leaf) mv);
  mo_told : omap told (log m') = omap told (log m) ++ default [] (told_by (is_ready leaf) mv) }.

Lemma move_quiet leaf mv m m' :
  asked_op (is_ready leaf) mv = None -> replied (is_ready leaf) mv = None ->
  omap sent (log m') = omap sent (log m) /\ omap told (log m') = omap told (log m) ->
  move_ok leaf mv m m'.
Proof.
  intros Ha Hr [H1 H2]. split; unfold told_by, sent_op, refused_op; rewrite Ha, ?Hr, ?H1, ?H2;
    by destruct (is_ready leaf); rewrite app_nil_r.
Qed.

Lemma degrade_log s m : 
  omap sent (log (snd (degrade s m))) = omap sent (log m) /\
  omap told (log (snd (degrade s m))) = omap told (log m).
Proof. apply (broadcast_log _ (publishStatus_ s m)). Qed.

Lemma ready_entry_log m :
  omap sent (log (ready_entry alive_at m)) = omap sent (log m) /\
  omap told (log (ready_entry alive_at m)) = omap told (log m).
Proof.
  unfold ready_entry. destruct (markReadyAndFire _ _) as [[] g]; [done|].
  match goal with |- context [broadcastToListeners_ _ ?n ?x] => destruct (broadcast_log n x) as [-> ->] end.
  done.
Qed.

Lemma report_log leaf s m :
  omap sent (log (snd (net_report leaf s m))) = omap sent (log m) /\
  omap told (log (snd (net_report leaf s m))) = omap told (log m).
Proof.
  unfold net_report. destruct (is_ready leaf), s as [[]|]; try done;
    first [apply degrade_log|apply ready_entry_log].
Qed.

Lemma move_log leaf mv m leaf' m' :
  leaf <> NetOperating_St -> move_step mv (leaf, m) = Done (leaf', m') ->
  leaf' <> NetOperating_St /\ is_ready leaf' = ready_after (is_ready leaf) mv /\ move_ok leaf mv m m'.
Proof.
  intros Hl Hs. destruct mv as [e|op rsp|op|cb|l|l]; cbn [move_step] in Hs.
  2-6: injection Hs as <- <-; split; [done|]; split; [done|].
  - assert (Hleaf : leaf' = match report e with
      Some true => NetReady_St | Some false => NetNotReady_St | None => leaf end).
    { eapply (shell_step handler lineage (ReadyShell := net_shell)); [|exact Hs]. destruct leaf; [done|by left|by right]. }
    split; [by subst leaf'; destruct (report e) as [[]|]|].
    split; [subst leaf'; simpl; by destruct (report e) as [[]|]|].
    rewrite net_chart_step in Hs by done. unfold net_step in Hs. apply bind_done' in Hs as (_ & _ & Hs).
    destruct e as [env|b|x].
    1,2: apply move_quiet; [done|done|]; injection Hs as Hs;
      match type of Hs with ?r = _ => replace m' with (snd r) by (by rewrite Hs) end; apply report_log.
    apply bind_done' in Hs as (m1 & Hm & [= _ ->]).
    destruct (asks x) as [op|] eqn:Ha.
    + injection Hm as <-. split; unfold sent_op, told_by, refused_op; cbn [asked_op replied]; rewrite Ha;
        destruct (is_ready leaf); simpl; rewrite ?app_nil_r.
      * apply send_log.
      * apply refuse_log.
      * apply send_log.
      * apply refuse_log.
    + apply move_quiet; [done|done|]. destruct (passed leaf x); [by injection Hm as <-|].
      unfold indicate in Hm.
      apply bind_done' in Hm as ([x' ns] & _ & [= <-]). apply (tell_log ns (set_own x' m)).
  - split; unfold sent_op, told_by, refused_op; cbn [asked_op replied]; destruct (is_ready leaf); simpl;
      rewrite ?app_nil_r; apply answer_log.
  - split; unfold sent_op, told_by, refused_op; cbn [asked_op replied]; destruct (is_ready leaf); simpl;
      rewrite ?app_nil_r; try done; apply send_log.
  - by apply move_quiet.
  - by apply move_quiet.
  - by apply move_quiet.
Qed.

(** The init gate of a run: what clients handed in is waiting or released. *)
Definition gate_ok (cb : option C) (l : list C) (leaf : net_state) (m : NetManager) : Prop :=
  gate_inv (init_gate_ m) /\ registered (init_gate_ m) = option_list cb ++ l /\
  called (init_gate_ m) = [] /\ (is_ready leaf = true -> fired_ (init_gate_ m) = true).

Lemma gate_same cb l leaf leaf' m m' :
  gate_ok cb l leaf m -> init_gate_ m' = init_gate_ m ->
  (is_ready leaf' = true -> is_ready leaf = true) -> gate_ok cb l leaf' m'.
Proof. intros (H1 & H2 & H3 & H4) Hg Hr. unfold gate_ok. rewrite Hg. split_and!; auto. Qed.

Lemma gate_report cb l leaf s m leaf' m' :
  gate_ok cb l leaf m -> net_report leaf s m = (leaf', m') -> gate_ok cb l leaf' m'.
Proof.
  intros Hok. assert (Hd : forall s, degrade s m = (leaf', m') -> gate_ok cb l leaf' m').
  { intros s' [= <- <-]. eapply gate_same; [exact Hok| |done].
    by rewrite (proj2 (broadcast_status _ _)). }
  assert (Hstay : (leaf, m) = (leaf', m') -> gate_ok cb l leaf' m') by (by intros [= <- <-]).
  unfold net_report. destruct (is_ready leaf), s as [[]|]; eauto. intros [= <- <-].
  destruct Hok as (H1 & H2 & H3 & _).
  assert (Hg : init_gate_ (ready_entry alive_at m) = snd (markReadyAndFire SERVICE_AVAILABLE (init_gate_ m))).
  { unfold ready_entry. simpl. unfold markReadyAndFire. destruct (fired_ (init_gate_ m)); [|done].
    match goal with |- context [broadcastToListeners_ _ ?n ?x] => by rewrite (proj2 (broadcast_status n x)) end. }
  unfold gate_ok. rewrite Hg. split; [by apply mark_inv|]. unfold markReadyAndFire.
  destruct (fired_ (init_gate_ m)) eqn:Hf; split_and!; auto.
Qed.

Lemma move_gate cb l leaf mv m leaf' m' :
  leaf <> NetOperating_St -> move_step mv (leaf, m) = Done (leaf', m') -> gate_ok cb l leaf m ->
  gate_ok cb (l ++ option_list (added (is_ready leaf) mv)) leaf' m'.
Proof.
  intros Hl Hs Hok. destruct mv as [e|op rsp|op|c|x|x]; cbn [move_step added option_list] in *;
    rewrite ?app_nil_r.
  - rewrite net_chart_step in Hs by done. unfold net_step in Hs. apply bind_done' in Hs as (_ & _ & Hs).
    destruct e as [env|b|x].
    1,2: injection Hs as Hs; by eapply gate_report.
    apply bind_done' in Hs as (m1 & Hm & [= <- ->]). eapply gate_same; [exact Hok| |done].
    destruct (asks x) as [op|].
    2: { destruct (passed leaf x); [by injection Hm as <-|by apply indicate_status in Hm as [_ ->]]. }
    injection Hm as <-. destruct (is_ready leaf); [apply (send_status op m)|apply (refuse_status op m)].
  - injection Hs as <- <-. by eapply gate_same.
  - injection Hs as <- <-. eapply gate_same; [exact Hok| |done].
    destruct (is_ready leaf); [apply (send_status op m)|done].
  - injection Hs as <- <-. destruct Hok as (H1 & H2 & H3 & H4). unfold gate_ok. simpl.
    split; [by apply add_inv|]. destruct c as [c|]; simpl; rewrite ?app_nil_r; [|done].
    destruct (fired_ (init_gate_ m)) eqn:Hf; simpl; rewrite H2, <- app_assoc; split; try done; split; try done.
  - injection Hs as <- <-. by eapply gate_same.
  - injection Hs as <- <-. by eapply gate_same.
Qed.

(** The manager's own members change by its indications only. *)
Lemma broadcast_own n m : own (broadcast n m) = own m.
Proof. unfold broadcastToListeners_. destruct reaps; by case_decide. Qed.

Lemma tell_own ns (m : NetManager) : own (tell alive_at ns m) = own m.
Proof. revert m. induction ns as [|n ns IH]; intros m; [done|]. simpl. by rewrite IH, broadcast_own. Qed.

Lemma report_own leaf s m : own (snd (net_report leaf s m)) = own m.
Proof.
  unfold net_report. destruct (is_ready leaf), s as [[]|]; simpl; rewrite ?broadcast_own; try done.
  unfold ready_entry. destruct (markReadyAndFire _ _) as [[] g]; [done|]. by rewrite broadcast_own.
Qed.

Lemma move_own leaf mv m leaf' m' :
  leaf <> NetOperating_St -> move_step mv (leaf, m) = Done (leaf', m') ->
  match mv with
  | Process (Other x) =>
      match asks x with
      | Some _ => own m' = own m
      | None =>
          if passed leaf x then own m' = own m
          else exists ns, indicates (is_ready leaf) x (own m) = Done (own m', ns)
      end
  | _ => own m' = own m
  end.
Proof.
  intros Hl Hs.
  assert (Hsend : forall op, own (send_op topic paId now_at counter_at op m) = own m).
  { intros op. unfold send_op. by destruct (op_request op) as [[req schema] payload]. }
  destruct mv as [e|op rsp|op|c|x|x]; cbn [move_step] in Hs.
  2-6: injection Hs as _ <-; try done; by destruct (is_ready leaf).
  rewrite net_chart_step in Hs by done. unfold net_step in Hs. apply bind_done' in Hs as (_ & _ & Hs).
  destruct e as [env|b|x].
  1,2: injection Hs as Hs;
    match type of Hs with ?r = _ => replace m' with (snd r) by (by rewrite Hs) end; apply report_own.
  apply bind_done' in Hs as (m1 & Hm & [= _ ->]). destruct (asks x) as [op|].
  - injection Hm as <-. destruct (is_ready leaf); [apply Hsend|].
    unfold refuse. by destruct refuses.
  - destruct (passed leaf x); [by injection Hm as <-|].
    unfold indicate in Hm. apply bind_done' in Hm as ([x' ns] & Hi & [= <-]).
    exists ns. by rewrite tell_own.
Qed.

Definition ready_of (s : net_state * NetManager) : bool := is_ready (fst s).
Definition net_run := run move_step.

(** Runs only visit the two leaves; [net_run] keeps a relation that single moves
    from them keep. *)
Lemma net_run_hears {A} (f : bool -> net_move -> option A) (R : list A -> net_state -> NetManager -> Prop)
    mvs leaf m x cb :
  R [] NetNotReady_St (new_net x cb) ->
  (forall l leaf mv m leaf' m', leaf <> NetOperating_St -> R l leaf m ->
     move_step mv (leaf, m) = Done (leaf', m') -> R (l ++ option_list (f (is_ready leaf) mv)) leaf' m') ->
  net_run mvs (NetNotReady_St, new_net x cb) = Done (leaf, m) -> R (heard f false mvs) leaf m.
Proof.
  intros H0' Hstep Hr.
  assert (Hgen : forall mvs leaf m l leaf' m', leaf <> NetOperating_St -> R l leaf m ->
    net_run mvs (leaf, m) = Done (leaf', m') -> R (l ++ heard f (is_ready leaf) mvs) leaf' m').
  { clear mvs leaf m Hr. induction mvs as [|mv mvs IH]; intros leaf m l leaf' m' Hl HR; simpl.
    { intros [= <- <-]. by rewrite app_nil_r. }
    intros ([leaf1 m1] & Hs & Hr)%bind_done'. destruct (move_log _ _ _ _ _ Hl Hs) as (Hl1 & Hr1 & _).
    rewrite app_assoc, <- Hr1. apply (IH leaf1 m1); [done| |done]. by eapply Hstep. }
  by apply (Hgen mvs NetNotReady_St (new_net x cb) []).
Qed.

(** What was told, by who asked and what was answered. *)
Lemma told_split ready mvs :
  concat (heard told_by ready mvs) ≡ₚ
    (heard refused_op ready mvs ≫= turned_away) ++ (heard replied ready mvs ≫= answered).
Proof.
  revert ready. induction mvs as [|mv mvs IH]; intros ready; [done|]. simpl.
  rewrite !bind_app, IH. destruct (refused_op ready mv), (replied ready mv); simpl;
    rewrite ?app_nil_r; solve_Permutation.
Qed.

Lemma asked_split ready mvs :
  heard asked_op ready mvs ≡ₚ heard refused_op ready mvs ++ heard sent_op ready mvs.
Proof.
  revert ready. induction mvs as [|mv mvs IH]; intros ready; [done|]. simpl. rewrite IH.
  unfold refused_op, sent_op. destruct ready; simpl; solve_Permutation.
Qed.

(** Once each request sent has been answered, with nothing that fails to decode, the
    callbacks called are those of all that was asked for. *)
Lemma all_told ready mvs :
  refuses = true -> (heard replied ready mvs).*1 ≡ₚ heard sent_op ready mvs ->
  Forall (fun p => answered p = clients (fst p)) (heard replied ready mvs) ->
  (heard refused_op ready mvs ≫= turned_away) ++ (heard replied ready mvs ≫= answered) ≡ₚ
    heard asked_op ready mvs ≫= clients.
Proof.
  intros Href Hall Hdec. rewrite asked_split, bind_app.
  assert (Hturn : turned_away = clients) by (unfold turned_away; by rewrite Href).
  rewrite Hturn. f_equiv. rewrite <- Hall. clear -Hdec. induction Hdec as [|p l Hp _ IH]; [done|]. csimpl. by rewrite IH, Hp.
Qed.

(** What a run leaves in the manager's log. *)
Lemma net_log x cb mvs leaf m :
  net_run mvs (NetNotReady_St, new_net x cb) = Done (leaf, m) ->
  omap sent (log m) = heard sent_op false mvs /\
  omap told (log m) ≡ₚ (heard refused_op false mvs ≫= turned_away) ++ (heard replied false mvs ≫= answered).
Proof.
  intros Hr. split.
  - refine (net_run_hears sent_op (fun l _ m => omap sent (log m) = l) mvs leaf m x cb _ _ Hr); [done|].
    intros l leaf1 mv m1 leaf2 m2 Hl <- Hs. apply move_log in Hs as (_ & _ & Hok); [|done]. apply Hok.
  - rewrite <- told_split.
    assert (Ht : omap told (log m) = concat (heard told_by false mvs)); [|by rewrite Ht].
    refine (net_run_hears told_by (fun l _ m => omap told (log m) = concat l) mvs leaf m x cb _ _ Hr); [done|].
    intros l leaf1 mv m1 leaf2 m2 Hl HR Hs. apply move_log in Hs as (_ & _ & Hok); [|done].
    rewrite (mo_told _ _ _ _ Hok), HR, concat_app. simpl. by rewrite app_nil_r.
Qed.

(** The init callbacks handed in are waiting or released. *)
Lemma net_gate x cb mvs leaf m :
  net_run mvs (NetNotReady_St, new_net x cb) = Done (leaf, m) ->
  cbs_ (init_gate_ m) ++ (todo (init_gate_ m)).*1 ≡ₚ option_list cb ++ heard added false mvs /\
  (leaf = NetReady_St -> cbs_ (init_gate_ m) = []).
Proof.
  intros Hr. assert (Hgate : gate_ok cb (heard added false mvs) leaf m).
  { refine (net_run_hears added (gate_ok cb) mvs leaf m x cb _ _ Hr).
    - split; [apply new_gate_inv|]. simpl. by rewrite app_nil_r.
    - intros l leaf1 mv m1 leaf2 m2 Hl HR Hs. by eapply move_gate. }
  destruct Hgate as ([H1' _ H1''] & H2' & H3' & H4'). split.
  - rewrite H3', app_nil_r, H2' in H1'. done.
  - intros ->. by rewrite H4' in H1''.
Qed.
End NetProps.

(** Readiness and status of the network managers (VLAN, L2TP, NAT, SOCKS,
    data settings, data profiles, data serving system). Under every interleaving of the worker with the threads that
    post to it, the manager is in NotReady or Ready, and is ready exactly when the
    last report it processed (a readiness indication, or the loss of the bridge's
    connection) said that the modem's service is available; the status it
    publishes is the fold of the reports, "available" exactly when it is ready,
    and the reason given when it was lost otherwise (a later reason does not
    replace an earlier one); and the init callbacks have been released exactly when
    the service has been available once. *)
Theorem net_status {json} `{Json json, JsonValues json} {C L Op V Note X Ev}
    `{EqDecision L} `{!NetOps json C L Op V Note X Ev}
    (topic : string -> string) (paId : string) (now_at counter_at : nat -> Z)
    (alive_at : nat -> L -> bool) (ndebug : bool)
    (h : Hsm net_state (net_event json Ev) (NetManager json C L Op V Note X))
    (c : AO net_state (net_event json Ev) (NetManager json C L Op V Note X)) (x : X) (cb : option C) :
  state_ h = st NetNotReady_St -> self h = new_net x cb ->
  rtc (steps (handler topic paId now_at counter_at alive_at) ndebug outbox flush) (started h) c ->
  let us := payload <$> done c in
  exists leaf, state_ (hsm c) = st leaf /\ leaf <> NetOperating_St /\
    isReadyDerived_ c = last_report report us /\
    getServiceStatus c = status_after us /\
    isReadyDerived_ c = bool_decide (getServiceStatus c = SERVICE_AVAILABLE) /\
    fired_ (init_gate_ (self (hsm c))) = bool_decide (Some SERVICE_AVAILABLE ∈ status_said <$> us).
Proof.
  intros Hst Hm Hr us.
  destruct (reach_chart _ ndebug outbox flush parent lineage swallow _ h c Hst Hr) as (leaf & Hc & Hst').
  rewrite Hm in Hc. apply shell_run_ok with (us := []) in Hc; [|apply new_shell_ok].
  destruct Hc as [S1 S2 S3 S4 S5]. rewrite app_nil_l in *. fold us in S2, S3, S4.
  assert (Hready : isReadyDerived_ c = is_ready leaf).
  { unfold isReadyDerived_. rewrite Hst'. by destruct leaf. }
  exists leaf. repeat split; try done.
  - pose proof (net_shell topic paId now_at counter_at alive_at) as Hsh.
    pose proof (shell_reach _ lineage ndebug outbox flush (parent := parent) (swallow := swallow)
      NetNotReady_St NetReady_St report h c Hst Hr) as Hleaf.
    rewrite Hst' in Hleaf. fold us in Hleaf. rewrite Hready.
    destruct (last_report report us); simpl in Hleaf; by simplify_eq.
  - rewrite Hready, S3. unfold getServiceStatus. by rewrite S2.
Qed.

(** C24: every client of the network managers is answered once. For every
    manager that meets [NetSpec] and every sequence of moves of its worker, the
    bridge's thread and clients' threads: the requests sent are exactly the
    operations accepted while ready, each once and in order; the callbacks called
    are those of the operations that found the manager not ready, where it answers
    these and does not drop them, and those called by the answers the bridge
    delivered; so once the bridge has answered each request once, with nothing that
    fails to decode (a timeout never does), the callbacks called by a manager that
    drops nothing are exactly those of all the operations asked for, as often as
    asked, none twice and none forgotten. Init callbacks, waiting and released, are
    those handed in, and none waits while the manager is ready. *)
Theorem net_clients {json} `{Json json, JsonValues json} {C L Op V Note X Ev}
    `{EqDecision L} `{NetSpec json C L Op V Note X Ev}
    (topic : string -> string) (paId : string) (now_at counter_at : nat -> Z)
    (alive_at : nat -> L -> bool) (x : X) (cb : option C) (mvs : list net_move) (leaf : net_state)
    (m : NetManager json C L Op V Note X) :
  net_run topic paId now_at counter_at alive_at mvs (NetNotReady_St, new_net x cb) = Done (leaf, m) ->
  let heard {A} f := heard ready_after (A := A) f false mvs in
  omap sent (log m) = heard sent_op /\
  omap told (log m) ≡ₚ (heard refused_op ≫= turned_away) ++ (heard replied ≫= answered) /\
  (refuses = true -> (heard replied).*1 ≡ₚ heard sent_op ->
   Forall (fun p => answered p = clients (fst p)) (heard replied) ->
   omap told (log m) ≡ₚ heard asked_op ≫= clients) /\
  (forall op, answered (op, None) = clients op) /\
  (forall op rsp, exists n, answered (op, rsp) = take n (clients op)) /\
  cbs_ (init_gate_ m) ++ (todo (init_gate_ m)).*1 ≡ₚ option_list cb ++ heard added /\
  (leaf = NetReady_St -> cbs_ (init_gate_ m) = []).
Proof.
  intros Hr heard.
  destruct (net_log topic paId now_at counter_at alive_at x cb mvs leaf m Hr) as [Hsent Htold].
  destruct (net_gate topic paId now_at counter_at alive_at x cb mvs leaf m Hr) as [Hg1 Hg2].
  split; [done|]. split; [done|].
  split; [intros Href Hall Hdec|split; [intros op|split; [intros op rsp|done]]].
  - rewrite Htold. by apply all_told.
  - unfold answered, clients. simpl. rewrite answer_timeout, <- list_fmap_compose.
    apply list_fmap_ext. by intros _ [c v] _.
  - apply answer_clients.
Qed.

(** ** The SOCKS manager at work *)

Module NetDemo.
Definition topic_ (name : string) : string := "telaf/" +:+ name.
Definition clock_ (n : nat) : Z := 1000 + Z.of_nat n.
Definition alive_ (n : nat) (l : nat) : bool := true.
Definition Ma : Type := NetManager jval string nat (socks_op (C := string)) unit Empty_set unit.
Definition Ev : Type := net_event jval (socks_op (C := string)).
Definition Mv : Type := net_move (json := jval) (C := string) (L := nat) (Op := socks_op (C := string))
  (Ev := socks_op (C := string)).

Definition status (s : string) : Ev :=
  ReadinessEvt_Signal (mkEnvelope 1 "0000000a" 7 "mpss" None (Some (JObject [("status", JString s)])) None).

(** Refused; ready; accepted and answered; lost; refused again; a late callback. *)
Definition life : list Mv :=
  [Register 3%nat; Process (Other (EnableSocks true (Some "a"))); Process (status "AVAILABLE");
   Process (Other (EnableSocks true (Some "b"))); Process (Other (EnableSocks false (Some "c")));
   Reply (EnableSocks false (Some "c")) None;
   Reply (EnableSocks true (Some "b"))
     (Some (mkEnvelope 1 "0000000a" 7 "mpss" None (Some (JObject [])) None));
   Process (status "FAILED"); Process (BridgeConnectivityChanged_Signal false);
   Process (Other (EnableSocks true (Some "d"))); AddInit (Some "late")].

Definition boot : Ma := new_net tt (Some "init").
Definition at_end : net_state * Ma :=
  match net_run topic_ "pa-test-0001" clock_ clock_ alive_ life (NetNotReady_St, boot) with
  | Done x => x
  | Fail _ => (NetOperating_St, boot)
  end.

Definition obj : Hsm net_state Ev Ma := mkHsm (st NetNotReady_St) (st NetNotReady_St) false false [] false [] boot.
Definition demo_handler := handler topic_ "pa-test-0001" clock_ clock_ alive_ (json := jval) (C := string)
  (L := nat) (Op := socks_op (C := string)) (V := unit) (Note := Empty_set) (X := unit) (Ev := socks_op (C := string)).
Definition schedule : list (action (E := Ev)) :=
  [APost (Fifo (status "AVAILABLE")); AWait; ADispatch; AOwnPost;
   APost (Fifo (status "FAILED")); AWait; ADispatch; AOwnPost;
   APost (Fifo (BridgeConnectivityChanged_Signal false)); AWait; ADispatch].
Definition lost : AO net_state Ev Ma :=
  default (started obj) (run_schedule demo_handler false outbox flush schedule (started obj)).

Lemma lost_reach : rtc (steps demo_handler false outbox flush) (started obj) lost.
Proof. apply (run_schedule_reach _ _ _ _ schedule). vm_compute. reflexivity. Qed.
End NetDemo.

Lemma net_status_witness :
  getServiceStatus NetDemo.lost = SERVICE_FAILED /\ isReadyDerived_ NetDemo.lost = false.
Proof.
  destruct (net_status NetDemo.topic_ "pa-test-0001" NetDemo.clock_ NetDemo.clock_ NetDemo.alive_ false
    NetDemo.obj NetDemo.lost tt (Some "init")) as (leaf & _ & _ & Hr & Hs & _);
    [reflexivity|reflexivity|apply NetDemo.lost_reach|].
  split; [rewrite Hs|rewrite Hr]; vm_compute; reflexivity.
Defined.

Lemma net_clients_witness :
  omap told (log (snd NetDemo.at_end)) ≡ₚ ["a"; "b"; "c"; "d"] /\
  omap sent (log (snd NetDemo.at_end)) = [EnableSocks true (Some "b"); EnableSocks false (Some "c")].
Proof.
  destruct (net_clients NetDemo.topic_ "pa-test-0001" NetDemo.clock_ NetDemo.clock_ NetDemo.alive_ tt
    (Some "init") NetDemo.life (fst NetDemo.at_end) (snd NetDemo.at_end)) as (Hs & _ & Ht & _).
  - vm_compute. reflexivity.
  - split; [|rewrite Hs; vm_compute; reflexivity].
    rewrite Ht; [vm_compute; reflexivity|done| |vm_compute; repeat constructor].
    vm_compute. apply Permutation_swap.
Defined.

(** Whoever registers an init callback after the service was lost is told that
    it is available: the gate keeps the first status. *)
Example late_callback_told_available :
  todo (init_gate_ (snd NetDemo.at_end)) = [("init", SERVICE_AVAILABLE); ("late", SERVICE_AVAILABLE)] /\
  last_status_ (snd NetDemo.at_end) = SERVICE_FAILED.
Proof. by vm_compute. Qed.
