(* ===== verification/NetListeners.v ===== *)
(** * What listeners of the network managers hear

    A specification of the notifications as a function of the moves, over a view
    of the manager that has its readiness, whether its init callbacks were
    released, and its own members; and the theorem that a live listener is told
    exactly these, in order, by whichever manager of the class [NetOps]. *)

From S2P Require Import Prelude Hsm HsmSpec HsmProps ActiveObject Json Envelope InitGate Manager Answers.
From S2P Require Import NetShell Socks NetShellProps.

Local Open Scope Z_scope.

Section NetListeners.
Context {json : Type} `{Json json, JsonValues json}.
Context {C L Op V Note X Ev : Type} `{EqDecision L} `{!NetOps json C L Op V Note X Ev}.
Context (topic : string -> string) (paId : string) (now_at counter_at : nat -> Z).
Context (alive_at : nat -> L -> bool).

Local Notation NetManager := (NetManager json C L Op V Note X).
Local Notation net_event := (net_event json Ev).
Local Notation net_move := (net_move (json := json) (C := C) (L := L) (Op := Op) (Ev := Ev)).
Local Notation notification := (net_notification (Note := Note)).
Local Notation move_step := (move_step topic paId now_at counter_at alive_at (json := json) (C := C)
  (L := L) (Op := Op) (V := V) (Note := Note) (X := X) (Ev := Ev)).
Local Notation net_run := (net_run topic paId now_at counter_at alive_at (json := json) (C := C)
  (L := L) (Op := Op) (V := V) (Note := Note) (X := X) (Ev := Ev)).

Record view := mkView { v_ready : bool; v_fired : bool; v_own : X }.
Definition view_of (leaf : net_state) (m : NetManager) : view :=
  mkView (is_ready leaf) (fired_ (init_gate_ m)) (own m).

(** A report: the first time the service is available only the init callbacks
    are told; whatever the reason it is lost, it is unavailable. *)
Definition report_notice (s : option ServiceStatus) (v : view) : list notification * view :=
  match s, v_ready v with
  | Some SERVICE_AVAILABLE, false =>
      (if v_fired v then [onServiceStatusChange SERVICE_AVAILABLE] else [], mkView true true (v_own v))
  | Some SERVICE_UNAVAILABLE, true | Some SERVICE_FAILED, true =>
      ([onServiceStatusChange SERVICE_UNAVAILABLE], mkView false (v_fired v) (v_own v))
  | _, _ => ([], v)
  end.

Definition event_notice (e : net_event) (v : view) : list notification * view :=
  match e with
  | Other x =>
      match asks x, negb (v_ready v) && passes x with
      | None, false =>
          match indicates (v_ready v) x (v_own v) with
          | Done (o, ns) => (Notify <$> ns, mkView (v_ready v) (v_fired v) o)
          | Fail _ => ([], v)
          end
      | _, _ => ([], v)
      end
  | _ => report_notice (status_said e) v
  end.

Definition notice (mv : net_move) (v : view) : list notification * view :=
  match mv with Process e => event_notice e v | _ => ([], v) end.

Fixpoint notices (v : view) (mvs : list net_move) : list notification * view :=
  match mvs with
  | [] => ([], v)
  | mv :: mvs =>
      let '(ns, v) := notice mv v in
      let '(ns', v) := notices v mvs in
      (ns ++ ns', v)
  end.

(** Reports bear on the status only. *)
Lemma report_notice_omap {B} (f : notification -> option B) s v :
  (forall st, f (onServiceStatusChange st) = None) -> omap f (fst (report_notice s v)) = [].
Proof.
  intros Hf. unfold report_notice. destruct s as [[]|], (v_ready v); simpl; try done; rewrite ?Hf; try done.
  destruct (v_fired v); simpl; by rewrite ?Hf.
Qed.

(** The tasks built for a listener. *)
Definition heard_by (l : L) (e : net_effect json C L Op V Note) : option notification :=
  match e with Enqueue ls n => if decide (l ∈ ls) then Some n else None | _ => None end.

Context (l : L) (alive : forall n, alive_at n l = true).

(** What a step does to a registered listener. *)
Record tells (m m' : NetManager) (ns : list notification) : Prop := {
  t_listed : l ∈ listeners_ m -> l ∈ listeners_ m';
  t_told : l ∈ listeners_ m -> omap (heard_by l) (log m') = omap (heard_by l) (log m) ++ ns }.

Lemma tells_nil m m' : listeners_ m' = listeners_ m -> log m' = log m -> tells m m' [].
Proof. intros Hl Hg. split; [by rewrite Hl|]. intros _. by rewrite Hg, app_nil_r. Qed.

Lemma tells_trans m1 m2 m3 ns ns' : tells m1 m2 ns -> tells m2 m3 ns' -> tells m1 m3 (ns ++ ns').
Proof.
  intros [L1 T1] [L2 T2]. split; [auto|]. intros Hl. rewrite T2, T1 by auto. by rewrite app_assoc.
Qed.

Lemma tells_emit m es : omap (heard_by l) es = [] -> tells m (emit es m) [].
Proof. intros He. split; [done|]. intros _. simpl. by rewrite omap_app, He. Qed.

Lemma broadcast_tells n m : tells m (broadcastToListeners_ alive_at n m) [n].
Proof.
  assert (Hin : l ∈ listeners_ m -> l ∈ locked (alive_at (looks m)) (listeners_ m)).
  { intros Hl. unfold locked. rewrite list_elem_of_filter. auto. }
  unfold broadcastToListeners_. split.
  - intros Hl. destruct reaps; case_decide; simpl; auto.
  - intros Hl. specialize (Hin Hl). destruct (decide _) as [He|]; [rewrite He in Hin; by apply not_elem_of_nil in Hin|].
    destruct reaps; simpl; rewrite omap_app; simpl; by rewrite decide_True.
Qed.

Lemma tell_tells ns m : tells m (tell alive_at ns m) (Notify <$> ns).
Proof.
  revert m. induction ns as [|n ns IH]; intros m; [by apply tells_nil|]. simpl.
  apply (tells_trans _ _ _ [Notify n] _ (broadcast_tells _ _)), IH.
Qed.

Lemma answer_tells a m : tells m (answer a m) [].
Proof. apply tells_emit. induction a as [|[[c v] code] a IH]; [done|]. exact IH. Qed.

Lemma send_tells op m : tells m (send_op topic paId now_at counter_at op m) [].
Proof. unfold send_op. destruct (op_request op) as [[req schema] payload]. by apply tells_emit. Qed.

Lemma refuse_tells op m : tells m (refuse op m) [].
Proof. unfold refuse. destruct refuses; [apply answer_tells|by apply tells_nil]. Qed.

Lemma own_send op m : view_of NetReady_St (send_op topic paId now_at counter_at op m) = view_of NetReady_St m.
Proof. unfold send_op. by destruct (op_request op) as [[req schema] payload]. Qed.

Lemma ready_tells (m : NetManager) :
  tells m (ready_entry alive_at m)
    (if fired_ (init_gate_ m) then [onServiceStatusChange SERVICE_AVAILABLE] else []).
Proof.
  unfold ready_entry, markReadyAndFire. simpl. destruct (fired_ (init_gate_ m)); [|by apply tells_nil].
  match goal with |- tells _ (broadcastToListeners_ _ ?n ?x) _ =>
    apply (tells_trans m x _ [] _); [by apply tells_nil|apply broadcast_tells] end.
Qed.

Lemma report_tells leaf s m leaf' m' :
  leaf <> NetOperating_St -> net_report alive_at leaf s m = (leaf', m') ->
  let '(ns, v) := report_notice s (view_of leaf m) in tells m m' ns /\ view_of leaf' m' = v.
Proof.
  intros Hl Hs.
  assert (Hown : own m' = own m) by (by rewrite <- (report_own alive_at leaf s m), Hs).
  assert (Hdown : forall r, degrade alive_at r m = (leaf', m') ->
    tells m m' [onServiceStatusChange SERVICE_UNAVAILABLE] /\
    view_of leaf' m' = mkView false (fired_ (init_gate_ m)) (own m)).
  { intros r [= <- <-]. split.
    - apply (tells_trans m (publishStatus_ r m) _ [] _); [by apply tells_nil|apply broadcast_tells].
    - unfold view_of. rewrite broadcast_own. by rewrite (proj2 (broadcast_status alive_at _ _)). }
  unfold net_report in Hs. unfold report_notice, view_of at 1. cbn [v_ready v_fired v_own].
  destruct leaf; [done| |]; cbn [is_ready] in *; destruct s as [[]|];
    try (injection Hs as <- <-; split; [by apply tells_nil|done]); try (by eapply Hdown).
  - injection Hs as <- <-. split; [apply ready_tells|].
    unfold view_of. by rewrite (proj2 (ready_entry_status alive_at m)), Hown.
Qed.

Lemma move_tells leaf mv m leaf' m' :
  leaf <> NetOperating_St -> mv <> Deregister l -> move_step mv (leaf, m) = Done (leaf', m') ->
  leaf' <> NetOperating_St /\
  let '(ns, v) := notice mv (view_of leaf m) in tells m m' ns /\ view_of leaf' m' = v.
Proof.
  intros Hl Hne Hs. split; [by apply move_log in Hs as (? & _)|].
  destruct mv as [e|op rsp|op|c|l'|l']; cbn [notice NetShellProps.move_step] in *.
  - rewrite net_chart_step in Hs by done. unfold net_step in Hs. apply bind_done' in Hs as (_ & _ & Hs).
    destruct e as [env|b|x]; cbn [event_notice].
    1,2: injection Hs as Hs; by apply report_tells.
    apply bind_done' in Hs as (m1 & Hm & [= <- <-]). unfold view_of at 1 2 3 4. cbn [v_ready v_own v_fired].
    destruct (asks x) as [op|] eqn:Hop; simpl in *.
    + injection Hm as <-. destruct leaf; [done| |].
      * split; [apply refuse_tells|]. unfold view_of. simpl. unfold refuse. by destruct refuses.
      * split; [apply send_tells|apply own_send].
    + unfold passed in Hm. destruct (negb (is_ready leaf) && passes x).
      { injection Hm as <-. split; [by apply tells_nil|done]. }
      unfold indicate in Hm. apply bind_done' in Hm as ([o ns] & -> & [= <-]). split.
      * apply (tells_trans m (set_own o m) _ [] _); [by apply tells_nil|apply tell_tells].
      * unfold view_of. rewrite tell_own. by rewrite (proj2 (tell_status alive_at ns (set_own o m))).
  - injection Hs as <- <-. split; [apply answer_tells|done].
  - injection Hs as <- <-. destruct leaf; [done| |]; simpl; [split; [by apply tells_nil|done]|].
    split; [apply send_tells|apply own_send].
  - injection Hs as <- <-. split; [by apply tells_nil|]. unfold view_of, addInitCallback. simpl.
    destruct c; [|done]. simpl. by destruct (fired_ (init_gate_ m)) eqn:Hf; rewrite ?Hf.
  - injection Hs as <- <-. split; [|done]. split; simpl; [set_solver|]. intros _. by rewrite app_nil_r.
  - injection Hs as <- <-. split; [|done]. split; simpl; [|intros _; by rewrite app_nil_r].
    unfold reap. rewrite list_elem_of_filter. intros Hin. split; [|done]. split; [apply alive|].
    intros [_ ->]. by apply Hne.
Qed.

Lemma run_tells mvs leaf m leaf' m' :
  leaf <> NetOperating_St -> Deregister l ∉ mvs -> net_run mvs (leaf, m) = Done (leaf', m') ->
  let '(ns, v) := notices (view_of leaf m) mvs in tells m m' ns /\ view_of leaf' m' = v.
Proof.
  revert leaf m. induction mvs as [|mv mvs IH]; intros leaf m Hl Hni Hr; simpl in *.
  { injection Hr as <- <-. split; [by apply tells_nil|done]. }
  apply not_elem_of_cons in Hni as [Hne Hni]. apply bind_done' in Hr as ([leaf1 m1] & Hs & Hr).
  apply move_tells in Hs as (Hl1 & Hmv); [|done|by apply not_eq_sym].
  destruct (notice mv (view_of leaf m)) as [ns v] eqn:Hn. destruct Hmv as [Ht <-].
  specialize (IH leaf1 m1 Hl1 Hni Hr). destruct (notices (view_of leaf1 m1) mvs) as [ns' v'].
  destruct IH as [Ht' <-]. split; [|done]. by eapply tells_trans.
Qed.

Lemma run_leaf mvs leaf m x cb :
  net_run mvs (NetNotReady_St, new_net x cb) = Done (leaf, m) -> leaf <> NetOperating_St.
Proof.
  intros Hr. refine (net_run_hears topic paId now_at counter_at alive_at (fun _ _ => None (A := unit))
    (fun _ leaf _ => leaf <> NetOperating_St) mvs leaf m x cb _ _ Hr); [done|].
  intros _ leaf1 mv m1 leaf2 m2 Hl _ Hs. by apply move_log in Hs as (? & _).
Qed.
End NetListeners.


Module ListenerDemo.
Import NetDemo.
(** Lost, refused, back, another listener, lost with the link. *)
Definition post : list Mv :=
  [Process (status "FAILED"); Process (Other (EnableSocks true (Some "d"))); Process (status "AVAILABLE");
   Register 4%nat; Deregister 4%nat; Process (BridgeConnectivityChanged_Signal false)].
Definition pre : list Mv := [Process (status "AVAILABLE")].
Definition run_from (mvs : list Mv) (s : net_state * Ma) : net_state * Ma :=
  match net_run topic_ "pa-test-0001" clock_ clock_ alive_ mvs s with
  | Done x => x
  | Fail _ => (NetOperating_St, boot)
  end.
Definition at1 := run_from pre (NetNotReady_St, boot).
Definition at2 := run_from (Register 3%nat :: post) at1.
End ListenerDemo.

