(* ===== verification/Vlan.v ===== *)
(** * The VLAN manager (net/VlanManager.cpp)

    The shell of NetShell.v with the operations on VLANs and their bindings to
    backhauls.  The VLAN table is the modem's: the manager keeps none. *)

From S2P Require Import Prelude Hsm HsmSpec ActiveObject Json Envelope InitGate Manager Answers DataCall.
From S2P Require Import NetWire NetShell.

Local Open Scope Z_scope.

(** ** Values and wire forms *)

Inductive NetworkType := NW_UNKNOWN | LAN | WAN.

(** The manager's own copies of the tables of WireEnums.hpp. *)
Definition ifaceTypeToWire : InterfaceType -> string := fromIfaceType.
Definition wireToIfaceType : string -> InterfaceType := toIfaceType.
Definition backhaulToWire : BackhaulType -> string := fromBackhaul.
Definition wireToBackhaul : string -> BackhaulType := toBackhaul.

Definition nwTypeToWire (t : NetworkType) : string :=
  match t with LAN => "LAN" | WAN => "WAN" | _ => "UNKNOWN" end.
Definition wireToNwType (s : string) : NetworkType :=
  if decide (s = "WAN") then WAN else if decide (s = "LAN") then LAN else NW_UNKNOWN.

#[export] Instance nw_wire : WireEnum NetworkType :=
  {| to_wire := nwTypeToWire; of_wire := wireToNwType |}.
#[export] Instance nw_wire_spec : WireEnumSpec NetworkType (fun _ => True).
Proof. split. by intros []. Qed.

Record VlanConfig := mkVlan {
  iface : InterfaceType;
  vlanId : Z;                (* int16_t *)
  isAccelerated : bool;
  priority : Z;              (* uint8_t *)
  nwType : NetworkType;
  createBridge : bool }.

Record VlanBindConfig := mkBind { bind_vlanId : Z; bhInfo : BackhaulInfo }.

Section VlanWire.
Context {json : Type} `{Json json, JsonValues json}.

Definition bindConfigToJson (cfg : VlanBindConfig) : json :=
  let bh := bhInfo cfg in
  let wwan := bool_decide (backhaul bh = BH_WWAN) in
  jobj ([("vlanId", of_int (bind_vlanId cfg)); ("backhaul", of_string (backhaulToWire (backhaul bh)))] ++
        opt_member wwan "slot" (of_int (bh_slotId bh)) ++
        opt_member wwan "profileId" (of_int (bh_profileId bh)) ++
        opt_member (bool_decide (0 <= bh_vlanId bh)) "bhVlanId" (of_int (bh_vlanId bh))).

Definition jsonToVlanConfig (j : json) : option VlanConfig :=
  v ← value_int "vlanId" 0 j;
  i ← value_string "ifaceType" "" j;
  a ← value_bool "isAccelerated" false j;
  p ← value_int "priority" 0 j;
  n ← value_string "nwType" "LAN" j;
  b ← value_bool "createBridge" true j;
  Some (mkVlan (wireToIfaceType i) (wrap 16 v) a (to_unsigned 8 p) (wireToNwType n) b).

Definition jsonToBindConfig (j : json) : option VlanBindConfig :=
  v ← value_int "vlanId" 0 j;
  b ← value_string "backhaul" "" j;
  s ← int_if_present "slot" 1 (bh_slotId zero_backhaul) j;
  p ← int_if_present "profileId" (-1) (bh_profileId zero_backhaul) j;
  w ← int_if_present "bhVlanId" (-1) (bh_vlanId zero_backhaul) j;
  Some (mkBind v (mkBackhaul (wireToBackhaul b) s p w)).

(** The payload of a creation. *)
Definition vlanConfigToJson (c : VlanConfig) : json :=
  jobj [("vlanId", of_int (vlanId c)); ("ifaceType", of_string (ifaceTypeToWire (iface c)));
        ("isAccelerated", of_bool (isAccelerated c)); ("priority", of_int (priority c));
        ("nwType", of_string (nwTypeToWire (nwType c))); ("createBridge", of_bool (createBridge c))].

(** One binding as [queryVlanMappingList] sees it: skipped without a profile. *)
Definition binding_mapping (b : json) : option (list (Z * Z)) :=
  if contains "profileId" b then
    p ← value_int "profileId" (-1) b; v ← value_int "vlanId" 0 b; Some [(p, v)]
  else Some [].
End VlanWire.

(** ** Operations *)

Section Vlan.
Context {json : Type} `{Json json, JsonValues json} {C L : Type} `{EqDecision L}.

Inductive vlan_op :=
  | CreateVlan (config : VlanConfig) (cb : option C)
  | RemoveVlan (vlanId : Z) (ifaceType : InterfaceType) (cb : option C)
  | QueryVlanInfo (cb : option C)
  | BindVlan (bind : bool) (config : VlanBindConfig) (cb : option C)
  | QueryVlanBindings (bh : option BackhaulType) (slotId : Z) (bindingsCb mappingCb : option C).

Inductive vlan_event :=
  | Ask (op : vlan_op)
  | VlanHwAccelEvt_Signal (env : Envelope json).

(** What callbacks are given besides the code. *)
Inductive vlan_value :=
  | NoValue
  | Accelerated (b : bool)
  | Vlans (l : list VlanConfig)
  | Bindings (l : list VlanBindConfig)
  | Mapping (l : list (Z * Z)).

Inductive vlan_note := onHwAccelerationChanged (active : bool).

Definition vlan_request (op : vlan_op) : string * string * json :=
  match op with
  | CreateVlan c _ => ("net_vlan.create_vlan.req", "net_vlan.create_vlan.rsp", vlanConfigToJson c)
  | RemoveVlan v i _ =>
      ("net_vlan.remove_vlan.req", "net_vlan.remove_vlan.rsp",
       jobj [("vlanId", of_int v); ("ifaceType", of_string (ifaceTypeToWire i))])
  | QueryVlanInfo _ => ("net_vlan.query_vlan_info.req", "net_vlan.query_vlan_info.rsp", jobject)
  | BindVlan true c _ => ("net_vlan.bind_vlan.req", "net_vlan.bind_vlan.rsp", bindConfigToJson c)
  | BindVlan false c _ => ("net_vlan.unbind_vlan.req", "net_vlan.unbind_vlan.rsp", bindConfigToJson c)
  | QueryVlanBindings bh slot _ _ =>
      ("net_vlan.query_vlan_bindings.req", "net_vlan.query_vlan_bindings.rsp",
       jobj (match bh with
             | Some b => opt_member (bool_decide (backhaulToWire b <> "")) "backhaul"
                           (of_string (backhaulToWire b))
             | None => []
             end ++ [("slot", of_int slot)]))
  end.

Definition vlan_clients (op : vlan_op) : list (C * vlan_value) :=
  match op with
  | CreateVlan _ cb => clients_of (Accelerated false) cb
  | RemoveVlan _ _ cb | BindVlan _ _ cb => clients_of NoValue cb
  | QueryVlanInfo cb => clients_of (Vlans []) cb
  | QueryVlanBindings _ _ b m => clients_of (Bindings []) b ++ clients_of (Mapping []) m
  end.

(** The offload the modem applied; without data, none. *)
Definition create_answer (cb : option C) (rsp : option (Envelope json)) : list (C * vlan_value * Z) :=
  match cb with
  | None => []
  | Some c =>
      match rsp with
      | None => [(c, Accelerated false, OPERATION_TIMEOUT)]
      | Some env =>
          match error env with
          | Some err =>
              match value_string "code" "" err with
              | Some code => [(c, Accelerated false, parseErrorCode code)]
              | None => []
              end
          | None =>
              match data env with
              | None => [(c, Accelerated false, SUCCESS)]
              | Some d =>
                  match value_bool "isAccelerated" false d with
                  | Some b => [(c, Accelerated b, SUCCESS)]
                  | None => []
                  end
              end
          end
      end
  end.

(** Both callbacks in turn; the one a call did not give is empty. *)
Definition bindings_answer (b m : option C) (rsp : option (Envelope json)) :
    list (C * vlan_value * Z) :=
  match query_data rsp with
  | inl code => (fun '(c, v) => (c, v, code)) <$> (clients_of (Bindings []) b ++ clients_of (Mapping []) m)
  | inr d =>
      match value_json "bindings" jarray d with
      | None => []
      | Some arr =>
          let mapping :=
            match m, mapM binding_mapping (elements arr) with
            | Some c, Some ls => [(c, Mapping (concat ls), SUCCESS)]
            | _, _ => []
            end in
          match b with
          | None => mapping
          | Some c =>
              match mapM jsonToBindConfig (elements arr) with
              | Some l => (c, Bindings l, SUCCESS) :: mapping
              | None => []
              end
          end
      end
  end.

Definition vlan_answer (op : vlan_op) (rsp : option (Envelope json)) : list (C * vlan_value * Z) :=
  match op with
  | CreateVlan _ cb => create_answer cb rsp
  | RemoveVlan _ _ cb | BindVlan _ _ cb => completeResponseCb NoValue cb rsp
  | QueryVlanInfo cb =>
      completeQuery (Vlans []) (fun d => Vlans <$> decode_list "vlans" jsonToVlanConfig d) cb rsp
  | QueryVlanBindings _ _ b m => bindings_answer b m rsp
  end.

(** Offload changes reach the listeners while ready only. *)
Definition vlan_indicates (ready : bool) (e : vlan_event) (x : unit) : outcome (unit * list vlan_note) :=
  match ready, e with
  | true, VlanHwAccelEvt_Signal env =>
      match data env with
      | None => Done (x, [])
      | Some d =>
          s ← or_die (value_string "state" "" d);
          Done (x, [onHwAccelerationChanged (bool_decide (s = "ACTIVE"))])
      end
  | _, _ => Done (x, [])
  end.

#[global] Instance vlan_ops : NetOps json C L vlan_op vlan_value vlan_note unit vlan_event := {|
  op_request := vlan_request;
  op_clients := vlan_clients;
  op_answer := vlan_answer;
  asks e := match e with Ask op => Some op | _ => None end;
  indicates := vlan_indicates;
  reaps := false; nested := true; refuses := true; passes _ := false |}.

(** ** The public interface *)

Local Notation AOVlan := (AONet (json := json) (C := C) (L := L) (Op := vlan_op) (V := vlan_value)
  (Note := vlan_note) (X := unit) (Ev := vlan_event)).

Definition SimulaVlanManager (initCb : option C) :
    NetManager json C L vlan_op vlan_value vlan_note unit := new_net tt initCb.

Definition post_op (op : vlan_op) : AOVlan -> Status * AOVlan := post_if_ready (Ask op).

(** A priority that does not fit its three bits is rejected here. *)
Definition createVlan (c : VlanConfig) (cb : option C) (o : AOVlan) : Status * AOVlan :=
  if negb (isReadyDerived_ o) then (NOTREADY, o)
  else if decide (7 < priority c) then (INVALIDPARAM, o)
  else post_op (CreateVlan c cb) o.
Definition removeVlan (v : Z) (i : InterfaceType) (cb : option C) := post_op (RemoveVlan v i cb).
Definition queryVlanInfo (cb : option C) := post_op (QueryVlanInfo cb).
Definition bindToBackhaul (c : VlanBindConfig) (cb : option C) := post_op (BindVlan true c cb).
Definition unbindFromBackhaul (c : VlanBindConfig) (cb : option C) := post_op (BindVlan false c cb).
Definition queryVlanToBackhaulBindings (bh : BackhaulType) (cb : option C) (slot : Z) :=
  post_op (QueryVlanBindings (Some bh) slot cb None).

(** The deprecated calls: the backhaul is WWAN. *)
Definition wwan_binding (profileId v slot : Z) : VlanBindConfig :=
  mkBind v (mkBackhaul BH_WWAN slot profileId (-1)).
Definition bindWithProfile (p v : Z) (cb : option C) (slot : Z) :=
  bindToBackhaul (wwan_binding p v slot) cb.
Definition unbindFromProfile (p v : Z) (cb : option C) (slot : Z) :=
  unbindFromBackhaul (wwan_binding p v slot) cb.
Definition queryVlanMappingList (cb : option C) (slot : Z) :=
  post_op (QueryVlanBindings (Some BH_WWAN) slot None cb).

(** ** Wiring to the bridge *)

(** The states: those of the shell, with the operations above. *)
Section States.
Context (topic : string -> string) (paId : string) (now_at counter_at : nat -> Z).
Context (alive_at : nat -> L -> bool).

Local Notation state_fn := (Event (net_event json vlan_event) -> NetManager json C L vlan_op vlan_value vlan_note unit -> result).

Definition VlanOperating_St : state_fn := on_Operating.
Definition VlanNotReady_St : state_fn := on_NotReady alive_at.
Definition VlanReady_St : state_fn := on_Ready topic paId now_at counter_at alive_at.
End States.

Definition vlan_subscriptions : list (string * (Envelope json -> net_event json vlan_event)) :=
  [("net_vlan.subsys_ready_net_vlan.ind", ReadinessEvt_Signal);
   ("net_vlan.hw_accel_state.ind", fun env => Other (VlanHwAccelEvt_Signal env))].
End Vlan.

(** ** Correctness *)

Section VlanProps.
Context {json : Type} `{Json json, JsonValues json} {C L : Type} `{EqDecision L}.

Lemma create_one (cb : option C) : one_answer (Accelerated false) cb (create_answer (json := json) cb).
Proof.
  destruct cb as [c|]; split; simpl; try done; try (intros rsp; by exists 0%nat); intros rsp;
    repeat case_match; simpl; try lia; try (by exists 1%nat); by exists 0%nat.
Qed.

Lemma bindings_codes (b m : option C) (rsp : option (Envelope json)) z :
  z ∈ bindings_answer b m rsp ->
  z.2 = match query_data rsp with inl code => code | inr _ => SUCCESS end.
Proof.
  unfold bindings_answer. destruct (query_data rsp) as [code|d].
  - rewrite list_elem_of_fmap. by intros ([? ?] & -> & _).
  - intros Hz. repeat (case_match; simplify_eq/=; try set_solver).
Qed.

Lemma bindings_laws (b m : option C) :
  op_laws (json := json) (clients_of (Bindings []) b ++ clients_of (Mapping []) m) (bindings_answer b m).
Proof.
  split; [|split]; [|done|].
  - intros rsp. unfold bindings_answer. destruct (query_data rsp) as [code|d].
    + exists 2%nat. by destruct b, m.
    + repeat case_match; simpl; try (by exists 0%nat); destruct m; simpl;
        try (by exists 0%nat); try (by exists 1%nat); by exists 2%nat.
  - intros rsp x y Hx%bindings_codes Hy%bindings_codes. congruence.
Qed.

#[global] Instance vlan_spec : NetSpec json C L vlan_op vlan_value vlan_note unit vlan_event.
Proof.
  apply net_spec_of. intros [c cb|v i cb|cb|bind c cb|bh slot b m]; simpl.
  - apply one_answer_laws, create_one.
  - apply complete_laws.
  - apply query_laws.
  - apply complete_laws.
  - apply bindings_laws.
Qed.
End VlanProps.

Section VlanCodec.
Context {json : Type} `{JsonSpec json, !JsonValues json, !JsonValuesSpec json}.

Record vlan_ok (c : VlanConfig) : Prop := {
  vlan_id_16 : - 2 ^ 15 <= vlanId c < 2 ^ 15;
  vlan_priority_8 : 0 <= priority c < 2 ^ 8 }.

(** What a creation sends is what a query of the same VLAN reads. *)
Lemma vlan_config_read (c : VlanConfig) :
  vlan_ok c -> jsonToVlanConfig (vlanConfigToJson c : json) = Some c.
Proof.
  intros [Hv Hp]. unfold jsonToVlanConfig, vlanConfigToJson. read_members.
  destruct c as [i v a p n b]. simpl in *. rewrite wrap_small by (simpl; lia).
  unfold to_unsigned. rewrite Z.mod_small by lia. repeat f_equal; [by destruct i|by destruct n].
Qed.

(** A binding keeps what the wire keeps of its backhaul. *)
Lemma bind_config_read (c : VlanBindConfig) :
  is_int (bind_vlanId c) -> backhaul_ok (bhInfo c) ->
  jsonToBindConfig (bindConfigToJson c : json) = Some (mkBind (bind_vlanId c) (on_wire (bhInfo c))).
Proof.
  intros Hv [Hn Hs Hp Hw]. unfold is_int in *. destruct c as [v [b s p w]]. simpl in *.
  unfold jsonToBindConfig, bindConfigToJson, int_if_present, on_wire. simpl.
  destruct b; try done; simpl; destruct (bool_decide_reflect (0 <= w)); simpl; read_members; done.
Qed.

(** The mapping of a binding: its profile and VLAN for WWAN, nothing else. *)
Lemma binding_mapping_read (c : VlanBindConfig) :
  is_int (bind_vlanId c) -> backhaul_ok (bhInfo c) ->
  binding_mapping (bindConfigToJson c : json) =
    Some (if decide (backhaul (bhInfo c) = BH_WWAN)
          then [(bh_profileId (bhInfo c), bind_vlanId c)] else []).
Proof.
  intros Hv [Hn Hs Hp Hw]. unfold is_int in *. destruct c as [v [b s p w]]. simpl in *.
  unfold binding_mapping, bindConfigToJson. simpl.
  destruct b; try done; simpl; destruct (bool_decide_reflect (0 <= w)); simpl; read_members; done.
Qed.
End VlanCodec.

(** What the modem's table gives a client, [table] being the bindings it holds:
    an answer that lists them all. *)
Definition bindings_response {json} `{Json json, JsonValues json} (table : list VlanBindConfig) :
    Envelope json :=
  mkEnvelope 1 EmptyString 0 EmptyString None
    (Some (jobj [("bindings", of_array (bindConfigToJson <$> table))])) None.

(** C26: what a client learns of VLANs is what was configured. A VLAN
    configuration within the widths of its C++ types and a binding to any backhaul
    that has a name survive encoding and decoding (a binding keeps SIM and profile
    for WWAN only, and no negative VLAN id); and when the modem's answer lists a
    table of such bindings, the callback of queryVlanToBackhaulBindings is given
    exactly these bindings in order, and that of queryVlanMappingList exactly the
    (profile, VLAN) pairs of those bound to WWAN, both with SUCCESS. *)
Theorem vlan_tables_faithful {json} `{JsonSpec json, !JsonValues json, !JsonValuesSpec json}
    {C : Type} (config : VlanConfig) (table : list VlanBindConfig) (b m : option C) :
  vlan_ok config -> Forall (fun c => is_int (bind_vlanId c) /\ backhaul_ok (bhInfo c)) table ->
  jsonToVlanConfig (vlanConfigToJson config : json) = Some config /\
  bindings_answer b m (Some (bindings_response table : Envelope json)) =
    ((fun c => (c, Bindings ((fun x => mkBind (bind_vlanId x) (on_wire (bhInfo x))) <$> table), SUCCESS))
       <$> option_list b) ++
    ((fun c => (c, Mapping ((fun x => (bh_profileId (bhInfo x), bind_vlanId x)) <$>
                              filter (fun x => backhaul (bhInfo x) = BH_WWAN) table), SUCCESS))
       <$> option_list m).
Proof.
  intros Hc Ht. split; [by apply vlan_config_read|].
  unfold bindings_answer, bindings_response, query_data. cbn [error data]. read_members.
  rewrite of_array_elements.
  assert (H1 : mapM jsonToBindConfig (bindConfigToJson <$> table : list json) =
    Some ((fun x => mkBind (bind_vlanId x) (on_wire (bhInfo x))) <$> table)).
  { apply mapM_Some. rewrite Forall2_fmap. apply Forall_Forall2_diag.
    eapply Forall_impl; [exact Ht|]. intros x [Hv Hb]. by apply bind_config_read. }
  assert (H2 : exists ls, mapM binding_mapping (bindConfigToJson <$> table : list json) = Some ls /\
    concat ls = (fun x => (bh_profileId (bhInfo x), bind_vlanId x)) <$>
      filter (fun x => backhaul (bhInfo x) = BH_WWAN) table).
  { exists ((fun x => if decide (backhaul (bhInfo x) = BH_WWAN)
      then [(bh_profileId (bhInfo x), bind_vlanId x)] else []) <$> table). split.
    - apply mapM_Some. rewrite Forall2_fmap. apply Forall_Forall2_diag.
      eapply Forall_impl; [exact Ht|]. intros x [Hv Hb]. by apply binding_mapping_read.
    - clear Ht H1. induction table as [|x l IH]; [done|]. rewrite fmap_cons. simpl.
      rewrite filter_cons, IH. by case_decide. }
  destruct H2 as (ls & -> & Hls). rewrite H1. destruct b, m; simpl; by rewrite ?Hls.
Qed.

Lemma vlan_tables_faithful_witness :
  let table := [mkBind 5 (mkBackhaul BH_WWAN 2 3 (-1)); mkBind 6 (mkBackhaul BH_ETH 1 7 4)] in
  jsonToVlanConfig (vlanConfigToJson (mkVlan ETH 4094 true 7 WAN false) : jval) =
    Some (mkVlan ETH 4094 true 7 WAN false) /\
  bindings_answer (Some "b") (Some "m") (Some (bindings_response table : Envelope jval)) =
    [("b", Bindings [mkBind 5 (mkBackhaul BH_WWAN 2 3 (-1)); mkBind 6 (mkBackhaul BH_ETH 1 (-1) 4)],
      SUCCESS);
     ("m", Mapping [(3, 5)], SUCCESS)].
Proof.
  apply (vlan_tables_faithful (json := jval) (mkVlan ETH 4094 true 7 WAN false)
    [mkBind 5 (mkBackhaul BH_WWAN 2 3 (-1)); mkBind 6 (mkBackhaul BH_ETH 1 7 4)] (Some "b") (Some "m")).
  - split; simpl; lia.
  - repeat constructor; try (unfold is_int; simpl; lia); done.
Defined.
