(* ===== verification/L2tp.v ===== *)
(** * The L2TP manager (net/L2tpManager.cpp)

    The shell of NetShell.v with the operations on L2TP tunnels, sessions and
    their bindings to backhauls; the tables are the modem's. *)

From S2P Require Import Prelude Hsm HsmSpec ActiveObject Json Envelope InitGate Manager Answers DataCall.
From S2P Require Import NetWire NetShell.

Local Open Scope Z_scope.

(** ** Values and wire forms *)

Inductive L2tpProtocol := PROT_NONE | PROT_IP | PROT_UDP.

Definition fromProtocol (p : L2tpProtocol) : string :=
  match p with PROT_IP => "IP" | PROT_UDP => "UDP" | _ => "NONE" end.
Definition toProtocol (s : string) : L2tpProtocol :=
  if decide (s = "IP") then PROT_IP else if decide (s = "UDP") then PROT_UDP else PROT_NONE.

#[export] Instance protocol_wire : WireEnum L2tpProtocol :=
  {| to_wire := fromProtocol; of_wire := toProtocol |}.
#[export] Instance protocol_wire_spec : WireEnumSpec L2tpProtocol (fun _ => True).
Proof. split. by intros []. Qed.

(** The numbers are [uint32_t]. *)
Record L2tpSessionConfig := mkSession { s_locId : Z; s_peerId : Z }.

Record L2tpTunnelConfig := mkTunnel {
  prot : L2tpProtocol;
  locId : Z;
  peerId : Z;
  localUdpPort : Z;
  peerUdpPort : Z;
  peerIpv6Addr : string;
  peerIpv6GwAddr : string;
  peerIpv4Addr : string;
  peerIpv4GwAddr : string;
  locIface : string;
  ipType : IpFamilyType;
  sessionConfig : list L2tpSessionConfig }.

Record L2tpSysConfig := mkSys {
  configList : list L2tpTunnelConfig;
  enableMtu : bool;
  enableTcpMss : bool;
  mtuSize : Z }.

(** [L2tpSysConfig{}]. *)
Definition zero_sys : L2tpSysConfig := mkSys [] false false 0.

Record L2tpSessionBindConfig := mkSessionBind { b_locId : Z; b_bhInfo : BackhaulInfo }.

Section L2tpWire.
Context {json : Type} `{Json json, JsonValues json}.

Definition session_json (s : L2tpSessionConfig) : json :=
  jobj [("locId", of_int (s_locId s)); ("peerId", of_int (s_peerId s))].

Definition fromTunnelConfig (c : L2tpTunnelConfig) : json :=
  jobj [("locId", of_int (locId c)); ("peerId", of_int (peerId c));
        ("prot", of_string (fromProtocol (prot c)));
        ("localUdpPort", of_int (localUdpPort c)); ("peerUdpPort", of_int (peerUdpPort c));
        ("peerIpv6Addr", of_string (peerIpv6Addr c)); ("peerIpv6GwAddr", of_string (peerIpv6GwAddr c));
        ("peerIpv4Addr", of_string (peerIpv4Addr c)); ("peerIpv4GwAddr", of_string (peerIpv4GwAddr c));
        ("locIface", of_string (locIface c)); ("ipType", of_string (fromIpFamily (ipType c)));
        ("sessions", of_array (session_json <$> sessionConfig c))].

Definition to_session (s : json) : option L2tpSessionConfig :=
  l ← value_uint "locId" 0 s; p ← value_uint "peerId" 0 s; Some (mkSession l p).

Definition toTunnelConfig (j : json) : option L2tpTunnelConfig :=
  l ← value_uint "locId" 0 j;
  p ← value_uint "peerId" 0 j;
  prot ← value_string "prot" "" j;
  lu ← value_uint "localUdpPort" 0 j;
  pu ← value_uint "peerUdpPort" 0 j;
  a6 ← value_string "peerIpv6Addr" "" j;
  g6 ← value_string "peerIpv6GwAddr" "" j;
  a4 ← value_string "peerIpv4Addr" "" j;
  g4 ← value_string "peerIpv4GwAddr" "" j;
  i ← value_string "locIface" "" j;
  f ← value_string "ipType" "" j;
  ss ← decode_list "sessions" to_session j;
  Some (mkTunnel (toProtocol prot) l p lu pu a6 g6 a4 g4 i (toIpFamily f) ss).

Definition fromBindConfig (c : L2tpSessionBindConfig) : json :=
  jobj (backhaul_members (b_bhInfo c) ++ [("locId", of_int (b_locId c))]).

Definition toBindConfig (j : json) : option L2tpSessionBindConfig :=
  l ← value_uint "locId" 0 j; bh ← toBackhaulInfo j; Some (mkSessionBind l bh).

(** What [requestConfig] makes of an answer. *)
Definition toSysConfig (d : json) : option L2tpSysConfig :=
  mtu ← value_bool "enableMtu" false d;
  mss ← value_bool "enableTcpMss" false d;
  size ← value_uint "mtuSize" 0 d;
  ts ← decode_list "tunnels" toTunnelConfig d;
  Some (mkSys ts mtu mss size).
End L2tpWire.

(** ** Operations *)

Section L2tp.
Context {json : Type} `{Json json, JsonValues json} {C L : Type} `{EqDecision L}.

Inductive l2tp_op :=
  | SetL2tpConfig (enable enableMss enableMtu : bool) (mtuSize : Z) (cb : option C)
  | RequestL2tpConfig (cb : option C)
  | AddTunnel (config : L2tpTunnelConfig) (cb : option C)
  | RemoveTunnel (tunnelId : Z) (cb : option C)
  | AddSession (tunnelId sessionId peerId : Z) (cb : option C)
  | RemoveSession (tunnelId sessionId : Z) (cb : option C)
  | BindSession (bind : bool) (config : L2tpSessionBindConfig) (cb : option C)
  | QuerySessionBindings (bh : BackhaulType) (cb : option C).

Inductive l2tp_value :=
  | L2tpNoValue
  | SysConfig (c : L2tpSysConfig)
  | SessionBindings (l : list L2tpSessionBindConfig).

Definition l2tp_request (op : l2tp_op) : string * string * json :=
  match op with
  | SetL2tpConfig e mss mtu size _ =>
      ("net_l2tp.set_l2tp_config.req", "net_l2tp.set_l2tp_config.rsp",
       jobj [("enable", of_bool e); ("enableMss", of_bool mss); ("enableMtu", of_bool mtu);
             ("mtuSize", of_int size)])
  | RequestL2tpConfig _ =>
      ("net_l2tp.request_l2tp_config.req", "net_l2tp.request_l2tp_config.rsp", jobject)
  | AddTunnel c _ => ("net_l2tp.add_tunnel.req", "net_l2tp.add_tunnel.rsp", fromTunnelConfig c)
  | RemoveTunnel t _ =>
      ("net_l2tp.remove_tunnel.req", "net_l2tp.remove_tunnel.rsp", jobj [("tunnelId", of_int t)])
  | AddSession t s p _ =>
      ("net_l2tp.add_session.req", "net_l2tp.add_session.rsp",
       jobj [("tunnelId", of_int t); ("locId", of_int s); ("peerId", of_int p)])
  | RemoveSession t s _ =>
      ("net_l2tp.remove_session.req", "net_l2tp.remove_session.rsp",
       jobj [("tunnelId", of_int t); ("sessionId", of_int s)])
  | BindSession true c _ =>
      ("net_l2tp.bind_session.req", "net_l2tp.bind_session.rsp", fromBindConfig c)
  | BindSession false c _ =>
      ("net_l2tp.unbind_session.req", "net_l2tp.unbind_session.rsp", fromBindConfig c)
  | QuerySessionBindings bh _ =>
      ("net_l2tp.query_session_bindings.req", "net_l2tp.query_session_bindings.rsp",
       jobj (opt_member (bool_decide (fromBackhaul bh <> "")) "backhaul" (of_string (fromBackhaul bh))))
  end.

Definition l2tp_clients (op : l2tp_op) : list (C * l2tp_value) :=
  match op with
  | SetL2tpConfig _ _ _ _ cb | AddTunnel _ cb | RemoveTunnel _ cb | AddSession _ _ _ cb
  | RemoveSession _ _ cb | BindSession _ _ cb => clients_of L2tpNoValue cb
  | RequestL2tpConfig cb => clients_of (SysConfig zero_sys) cb
  | QuerySessionBindings _ cb => clients_of (SessionBindings []) cb
  end.

Definition l2tp_answer (op : l2tp_op) (rsp : option (Envelope json)) : list (C * l2tp_value * Z) :=
  match op with
  | SetL2tpConfig _ _ _ _ cb | AddTunnel _ cb | RemoveTunnel _ cb | AddSession _ _ _ cb
  | RemoveSession _ _ cb | BindSession _ _ cb => completeResponseCb L2tpNoValue cb rsp
  | RequestL2tpConfig cb => completeQuery (SysConfig zero_sys) (fun d => SysConfig <$> toSysConfig d) cb rsp
  | QuerySessionBindings _ cb =>
      completeQuery (SessionBindings [])
        (fun d => SessionBindings <$> decode_list "bindings" toBindConfig d) cb rsp
  end.

(** Every event but the shell's is an operation; nothing is announced. *)
#[global] Instance l2tp_ops : NetOps json C L l2tp_op l2tp_value Empty_set unit l2tp_op := {|
  op_request := l2tp_request;
  op_clients := l2tp_clients;
  op_answer := l2tp_answer;
  asks := Some;
  indicates _ _ x := Done (x, []);
  reaps := false; nested := true; refuses := true; passes _ := false |}.

(** ** The public interface *)

Local Notation AOL2tp := (AONet (json := json) (C := C) (L := L) (Op := l2tp_op) (V := l2tp_value)
  (Note := Empty_set) (X := unit) (Ev := l2tp_op)).

Definition SimulaL2tpManager (initCb : option C) :
    NetManager json C L l2tp_op l2tp_value Empty_set unit := new_net tt initCb.

Definition post_l2tp (op : l2tp_op) : AOL2tp -> Status * AOL2tp := post_if_ready op.

Definition setConfig (e mss mtu : bool) (cb : option C) (size : Z) :=
  post_l2tp (SetL2tpConfig e mss mtu size cb).
Definition addTunnel (c : L2tpTunnelConfig) (cb : option C) := post_l2tp (AddTunnel c cb).
Definition requestConfig (cb : option C) := post_l2tp (RequestL2tpConfig cb).
Definition removeTunnel (t : Z) (cb : option C) := post_l2tp (RemoveTunnel t cb).
Definition addSession (t : Z) (s : L2tpSessionConfig) (cb : option C) :=
  post_l2tp (AddSession t (s_locId s) (s_peerId s) cb).
Definition removeSession (t s : Z) (cb : option C) := post_l2tp (RemoveSession t s cb).
Definition bindSessionToBackhaul (c : L2tpSessionBindConfig) (cb : option C) :=
  post_l2tp (BindSession true c cb).
Definition unbindSessionFromBackhaul (c : L2tpSessionBindConfig) (cb : option C) :=
  post_l2tp (BindSession false c cb).
Definition querySessionToBackhaulBindings (bh : BackhaulType) (cb : option C) :=
  post_l2tp (QuerySessionBindings bh cb).

(** The states: those of the shell, with the operations above. *)
Section States.
Context (topic : string -> string) (paId : string) (now_at counter_at : nat -> Z).
Context (alive_at : nat -> L -> bool).

Local Notation state_fn := (Event (net_event json l2tp_op) -> NetManager json C L l2tp_op l2tp_value Empty_set unit -> result).

Definition L2tpOperating_St : state_fn := on_Operating.
Definition L2tpNotReady_St : state_fn := on_NotReady alive_at.
Definition L2tpReady_St : state_fn := on_Ready topic paId now_at counter_at alive_at.
End States.

Definition l2tp_subscriptions : list (string * (Envelope json -> net_event json l2tp_op)) :=
  [("net_l2tp.subsys_ready_net_l2tp.ind", ReadinessEvt_Signal)].

#[global] Instance l2tp_spec : NetSpec json C L l2tp_op l2tp_value Empty_set unit l2tp_op.
Proof. apply net_spec_of. intros []; first [apply complete_laws|apply query_laws]. Qed.
End L2tp.

(** ** Correctness of the codec *)

Section L2tpCodec.
Context {json : Type} `{JsonSpec json, !JsonValues json, !JsonValuesSpec json}.

Definition session_ok (s : L2tpSessionConfig) : Prop := is_uint32 (s_locId s) /\ is_uint32 (s_peerId s).

Record tunnel_ok (c : L2tpTunnelConfig) : Prop := {
  tunnel_loc : is_uint32 (locId c);
  tunnel_peer : is_uint32 (peerId c);
  tunnel_local_port : is_uint32 (localUdpPort c);
  tunnel_peer_port : is_uint32 (peerUdpPort c);
  tunnel_sessions : Forall session_ok (sessionConfig c) }.

Lemma session_read (s : L2tpSessionConfig) :
  session_ok s -> to_session (session_json s : json) = Some s.
Proof.
  unfold session_ok, is_uint32. intros [Hl Hp]. unfold to_session, session_json. read_members.
  by destruct s.
Qed.

Lemma tunnel_read (c : L2tpTunnelConfig) :
  tunnel_ok c -> toTunnelConfig (fromTunnelConfig c : json) = Some c.
Proof.
  intros [H1 H2 H3 H4 H5]. unfold is_uint32 in *. unfold toTunnelConfig, fromTunnelConfig.
  rewrite (decode_list_read "sessions" to_session session_json (sessionConfig c)).
  - read_members. destruct c as [p l pe lu pu a6 g6 a4 g4 i f ss]. by destruct p, f.
  - by read_members.
  - eapply Forall_impl; [exact H5|]. apply session_read.
Qed.

Lemma session_bind_read (c : L2tpSessionBindConfig) :
  is_uint32 (b_locId c) -> backhaul_ok (b_bhInfo c) ->
  toBindConfig (fromBindConfig c : json) = Some (mkSessionBind (b_locId c) (on_wire (b_bhInfo c))).
Proof.
  intros Hl Hb. unfold toBindConfig, fromBindConfig.
  rewrite backhaul_read; [|done|by repeat constructor; set_solver].
  unfold value_uint. rewrite (read_as as_uint "locId" _ _ (of_int (b_locId c))).
  - by rewrite as_uint_of.
  - by rewrite member_app.
Qed.
End L2tpCodec.

(** L2TP configurations survive the wire. A tunnel with its sessions, all
    numbers unsigned 32-bit ones (beyond the range of a signed int), is decoded as
    it was encoded, sessions in order; so is the binding of a session to a backhaul
    that has a name, with what the wire keeps of the backhaul; and a client that
    asks for the configuration is given the modem's tunnels exactly, with SUCCESS. *)
Theorem tunnels_faithful {json} `{JsonSpec json, !JsonValues json, !JsonValuesSpec json} {C : Type}
    (c : L2tpSysConfig) (b : L2tpSessionBindConfig) (cb : C) (env : Envelope json) :
  Forall tunnel_ok (configList c) -> is_uint32 (mtuSize c) ->
  is_uint32 (b_locId b) -> backhaul_ok (b_bhInfo b) ->
  error env = None ->
  data env = Some (jobj [("enableMtu", of_bool (enableMtu c)); ("enableTcpMss", of_bool (enableTcpMss c));
                         ("mtuSize", of_int (mtuSize c));
                         ("tunnels", of_array (fromTunnelConfig <$> configList c))]) ->
  l2tp_answer (RequestL2tpConfig (Some cb)) (Some env) = [(cb, SysConfig c, SUCCESS)] /\
  toBindConfig (fromBindConfig b : json) = Some (mkSessionBind (b_locId b) (on_wire (b_bhInfo b))).
Proof.
  intros Ht Hm Hl Hb He Hd. split; [|by apply session_bind_read].
  unfold l2tp_answer, completeQuery, query_data. rewrite He, Hd. unfold toSysConfig, is_uint32 in *.
  rewrite (decode_list_read "tunnels" toTunnelConfig fromTunnelConfig (configList c)).
  - read_members. by destruct c.
  - by read_members.
  - eapply Forall_impl; [exact Ht|]. apply tunnel_read.
Qed.

Module L2tpDemo.
Definition tunnel : L2tpTunnelConfig :=
  mkTunnel PROT_UDP 4294967295 2 1701 1702 "2001:db8::2" "" "192.0.2.7" "192.0.2.1" "eth0" IPV4V6
    [mkSession 1 4000000000; mkSession 2 3].
Definition sys : L2tpSysConfig := mkSys [tunnel] true false 1422.
Definition bound : L2tpSessionBindConfig := mkSessionBind 3000000000 (mkBackhaul BH_WWAN 2 7 (-1)).
Definition env : Envelope jval :=
  mkEnvelope 1 "0000000a" 7 "mpss" None
    (Some (jobj [("enableMtu", of_bool true); ("enableTcpMss", of_bool false); ("mtuSize", of_int 1422);
                 ("tunnels", of_array [fromTunnelConfig tunnel])])) None.
End L2tpDemo.

Lemma tunnels_faithful_witness :
  l2tp_answer (RequestL2tpConfig (Some "c")) (Some L2tpDemo.env) =
    [("c", SysConfig L2tpDemo.sys, SUCCESS)] /\
  toBindConfig (fromBindConfig L2tpDemo.bound : jval) = Some L2tpDemo.bound.
Proof.
  apply (tunnels_faithful L2tpDemo.sys L2tpDemo.bound "c" L2tpDemo.env); try done;
    try (unfold is_uint32; simpl; lia).
  - repeat constructor; simpl; lia.
Defined.
