(* ===== verification/Nat.v ===== *)
(** * The NAT manager (net/NatManager.cpp)

    The shell of NetShell.v with the operations on static NAT entries. *)

From S2P Require Import Prelude Hsm HsmSpec ActiveObject Json Envelope InitGate Manager Answers DataCall.
From S2P Require Import NetWire NetShell.

Local Open Scope Z_scope.

Record NatConfig := mkNat {
  nat_addr : string;
  port : Z;          (* uint16_t *)
  globalPort : Z;    (* uint16_t *)
  proto : Z }.       (* uint8_t, an IANA number *)

Section NatWire.
Context {json : Type} `{Json json, JsonValues json}.

Definition fromNatConfig (bh : BackhaulInfo) (c : NatConfig) : json :=
  jobj (backhaul_members bh ++
        [("addr", of_string (nat_addr c)); ("port", of_int (port c));
         ("globalPort", of_int (globalPort c)); ("proto", of_int (proto c))]).

Definition toNatConfig (j : json) : option NatConfig :=
  a ← value_string "addr" "" j;
  p ← value_int "port" 0 j;
  g ← value_int "globalPort" 0 j;
  n ← value_int "proto" 0xFF j;
  Some (mkNat a (to_unsigned 16 p) (to_unsigned 16 g) (to_unsigned 8 n)).
End NatWire.

Definition backhaulFromProfileId (profileId slotId : Z) : BackhaulInfo :=
  mkBackhaul BH_WWAN slotId profileId (-1).

Section Nat.
Context {json : Type} `{Json json, JsonValues json} {C L : Type} `{EqDecision L}.

Inductive nat_op :=
  | EntryOp (add : bool) (bh : BackhaulInfo) (cfg : NatConfig) (cb : option C)
  | RequestNatEntries (bh : BackhaulInfo) (cb : option C).

Inductive nat_value := NatNoValue | Entries (l : list NatConfig).

Definition nat_request (op : nat_op) : string * string * json :=
  match op with
  | EntryOp true bh cfg _ =>
      ("net_nat.add_nat_entry.req", "net_nat.add_nat_entry.rsp", fromNatConfig bh cfg)
  | EntryOp false bh cfg _ =>
      ("net_nat.remove_nat_entry.req", "net_nat.remove_nat_entry.rsp", fromNatConfig bh cfg)
  | RequestNatEntries bh _ =>
      ("net_nat.request_nat_entries.req", "net_nat.request_nat_entries.rsp", fromBackhaulInfo bh)
  end.

Definition nat_clients (op : nat_op) : list (C * nat_value) :=
  match op with
  | EntryOp _ _ _ cb => clients_of NatNoValue cb
  | RequestNatEntries _ cb => clients_of (Entries []) cb
  end.

Definition nat_answer (op : nat_op) (rsp : option (Envelope json)) : list (C * nat_value * Z) :=
  match op with
  | EntryOp _ _ _ cb => completeResponseCb NatNoValue cb rsp
  | RequestNatEntries _ cb =>
      completeQuery (Entries []) (fun d => Entries <$> decode_list "entries" toNatConfig d) cb rsp
  end.

#[global] Instance nat_ops : NetOps json C L nat_op nat_value Empty_set unit nat_op := {|
  op_request := nat_request;
  op_clients := nat_clients;
  op_answer := nat_answer;
  asks := Some;
  indicates _ _ x := Done (x, []);
  reaps := false; nested := true; refuses := true; passes _ := false |}.

Local Notation AONat := (AONet (json := json) (C := C) (L := L) (Op := nat_op) (V := nat_value)
  (Note := Empty_set) (X := unit) (Ev := nat_op)).

Definition SimulaNatManager (initCb : option C) :
    NetManager json C L nat_op nat_value Empty_set unit := new_net tt initCb.

Definition postEntryOp_ (add : bool) (bh : BackhaulInfo) (cfg : NatConfig) (cb : option C) :
    AONat -> Status * AONat := post_if_ready (EntryOp add bh cfg cb).
Definition addStaticNatEntry := postEntryOp_ true.
Definition removeStaticNatEntry := postEntryOp_ false.
Definition addStaticNatEntry_profile (profileId : Z) (cfg : NatConfig) (cb : option C) (slot : Z) :=
  postEntryOp_ true (backhaulFromProfileId profileId slot) cfg cb.
Definition removeStaticNatEntry_profile (profileId : Z) (cfg : NatConfig) (cb : option C) (slot : Z) :=
  postEntryOp_ false (backhaulFromProfileId profileId slot) cfg cb.
Definition requestStaticNatEntries (bh : BackhaulInfo) (cb : option C) : AONat -> Status * AONat :=
  post_if_ready (RequestNatEntries bh cb).
Definition requestStaticNatEntries_profile (profileId : Z) (cb : option C) (slot : Z) :=
  requestStaticNatEntries (backhaulFromProfileId profileId slot) cb.

(** The states: those of the shell, with the operations above. *)
Section States.
Context (topic : string -> string) (paId : string) (now_at counter_at : nat -> Z).
Context (alive_at : nat -> L -> bool).

Local Notation state_fn := (Event (net_event json nat_op) -> NetManager json C L nat_op nat_value Empty_set unit -> result).

Definition NatOperating_St : state_fn := on_Operating.
Definition NatNotReady_St : state_fn := on_NotReady alive_at.
Definition NatReady_St : state_fn := on_Ready topic paId now_at counter_at alive_at.
End States.

Definition nat_subscriptions : list (string * (Envelope json -> net_event json nat_op)) :=
  [("net_nat.subsys_ready_net_nat.ind", ReadinessEvt_Signal)].

#[global] Instance nat_spec : NetSpec json C L nat_op nat_value Empty_set unit nat_op.
Proof. apply net_spec_of. intros []; first [apply complete_laws|apply query_laws]. Qed.
End Nat.

(** ** Correctness of the codec *)

Section NatCodec.
Context {json : Type} `{JsonSpec json, !JsonValues json, !JsonValuesSpec json}.

Record nat_ok (c : NatConfig) : Prop := {
  nat_port_16 : 0 <= port c < 2 ^ 16;
  nat_global_16 : 0 <= globalPort c < 2 ^ 16;
  nat_proto_8 : 0 <= proto c < 2 ^ 8 }.

(** An entry survives encoding with any backhaul, and the backhaul with any
    entry, although both share one object. *)
Lemma nat_read (bh : BackhaulInfo) (c : NatConfig) :
  backhaul_ok bh -> nat_ok c ->
  toNatConfig (fromNatConfig bh c : json) = Some c /\
  toBackhaulInfo (fromNatConfig bh c : json) = Some (on_wire bh).
Proof.
  intros Hb [Hp Hg Hn]. unfold fromNatConfig. split; [|apply backhaul_read; [done|by repeat constructor; set_solver]].
  assert (Hm : forall k v, member k [("addr", of_string (nat_addr c)); ("port", of_int (port c));
      ("globalPort", of_int (globalPort c)); ("proto", of_int (proto c))] = Some v ->
    member k (backhaul_members bh ++ [("addr", of_string (nat_addr c)); ("port", of_int (port c));
      ("globalPort", of_int (globalPort c)); ("proto", of_int (proto c))]) = Some (v : json)).
  { intros k v Hv. by rewrite member_app, Hv. }
  unfold toNatConfig, value_int.
  rewrite (read_string _ _ _ (nat_addr c)) by (by apply Hm).
  rewrite (read_as as_int "port" _ _ (of_int (port c))) by (by apply Hm).
  rewrite (read_as as_int "globalPort" _ _ (of_int (globalPort c))) by (by apply Hm).
  rewrite (read_as as_int "proto" _ _ (of_int (proto c))) by (by apply Hm).
  rewrite !as_int_of by lia. simpl. unfold to_unsigned. rewrite !Z.mod_small by lia. by destruct c.
Qed.
End NatCodec.
