(* ===== verification/DataSettings.v ===== *)
(** * The data settings manager (net/DataSettingsManager.cpp)

    The shell of NetShell.v, with two differences from the other managers: the
    clients' threads send the requests themselves, and the manager keeps mirrors
    of the IP pass-through and IP configurations the modem publishes, which the
    synchronous calls read. *)

From S2P Require Import Prelude Hsm HsmSpec ActiveObject Json Envelope InitGate Manager Answers DataCall.
From S2P Require Import NetWire NetShell NetShellProps.

Local Open Scope Z_scope.

(** ** Values and wire forms *)

Inductive DdsType := PERMANENT | TEMPORARY.
Inductive Operation := OP_UNKNOWN | DISABLE | ENABLE.
Inductive IpAssignType := IPA_UNKNOWN | STATIC_IP | DYNAMIC_IP.
Inductive IpAssignOperation := IPO_UNKNOWN | IPO_DISABLE | IPO_ENABLE | RECONFIGURE.
Inductive BandPriority := PRIO_N79 | PRIO_WLAN.

Definition REQUEST_NOT_SUPPORTED : Z := 6.

Definition fromDds (t : DdsType) : string :=
  match t with TEMPORARY => "TEMPORARY" | _ => "PERMANENT" end.
Definition toDds (s : string) : DdsType := if decide (s = "TEMPORARY") then TEMPORARY else PERMANENT.
Definition fromOperation (op : Operation) : string :=
  match op with ENABLE => "ENABLE" | DISABLE => "DISABLE" | _ => "UNKNOWN" end.
Definition toOperation (s : string) : Operation :=
  if decide (s = "ENABLE") then ENABLE else if decide (s = "DISABLE") then DISABLE else OP_UNKNOWN.
Definition fromIpType (t : IpAssignType) : string :=
  match t with STATIC_IP => "STATIC_IP" | DYNAMIC_IP => "DYNAMIC_IP" | _ => "UNKNOWN" end.
Definition toIpType (s : string) : IpAssignType :=
  if decide (s = "STATIC_IP") then STATIC_IP
  else if decide (s = "DYNAMIC_IP") then DYNAMIC_IP else IPA_UNKNOWN.
Definition fromIpOperation (op : IpAssignOperation) : string :=
  match op with
  | IPO_ENABLE => "ENABLE" | IPO_DISABLE => "DISABLE" | RECONFIGURE => "RECONFIGURE" | _ => "UNKNOWN"
  end.
Definition toIpOperation (s : string) : IpAssignOperation :=
  if decide (s = "ENABLE") then IPO_ENABLE
  else if decide (s = "DISABLE") then IPO_DISABLE
  else if decide (s = "RECONFIGURE") then RECONFIGURE else IPO_UNKNOWN.

#[export] Instance dds_wire : WireEnum DdsType := {| to_wire := fromDds; of_wire := toDds |}.
#[export] Instance dds_wire_spec : WireEnumSpec DdsType (fun _ => True).
Proof. split. by intros []. Qed.
#[export] Instance operation_wire : WireEnum Operation :=
  {| to_wire := fromOperation; of_wire := toOperation |}.
#[export] Instance operation_wire_spec : WireEnumSpec Operation (fun _ => True).
Proof. split. by intros []. Qed.
#[export] Instance ip_type_wire : WireEnum IpAssignType := {| to_wire := fromIpType; of_wire := toIpType |}.
#[export] Instance ip_type_wire_spec : WireEnumSpec IpAssignType (fun _ => True).
Proof. split. by intros []. Qed.
#[export] Instance ip_operation_wire : WireEnum IpAssignOperation :=
  {| to_wire := fromIpOperation; of_wire := toIpOperation |}.
#[export] Instance ip_operation_wire_spec : WireEnumSpec IpAssignOperation (fun _ => True).
Proof. split. by intros []. Qed.

Record IpptParams := mkIpptParams { ippt_profileId : Z; ippt_vlanId : Z; ippt_slotId : Z }.
Record IpptConfig := mkIppt { ipptOpr : Operation; nwInterface : InterfaceType; macAddr : string }.
Record IpConfigParams := mkIpParams { ifType : InterfaceType; ipFamily : IpFamilyType; ip_vlanId : Z }.
Record IpConfig := mkIp { ip_type : IpAssignType; ip_opr : IpAssignOperation; ip_addr : IpAddrInfo }.
Record BandInterferenceConfig := mkBand { band : BandPriority; wlanWait : Z; n79Wait : Z }.
Record DdsInfo := mkDds { dds_type : DdsType; dds_slot : Z }.

(** The interface's value of an unset VLAN id, an [uint32_t]. *)
Definition no_vlan : Z := 2 ^ 32 - 1.

Section SettingsWire.
Context {json : Type} `{Json json, JsonValues json}.

Definition set_string (k s : string) : list (string * json) :=
  opt_member (bool_decide (s <> "")) k (of_string s).

Definition fromIppt (p : IpptParams) (c : IpptConfig) : json :=
  jobj ([("profileId", of_int (ippt_profileId p)); ("vlanId", of_int (ippt_vlanId p));
         ("slot", of_int (ippt_slotId p)); ("ipptOpr", of_string (fromOperation (ipptOpr c)))] ++
        opt_member (bool_decide (nwInterface c <> IF_UNKNOWN)) "nwInterface"
          (of_string (fromIfaceType (nwInterface c))) ++
        set_string "macAddr" (macAddr c)).

Definition toIppt (j : json) : option IpptConfig :=
  o ← value_string "ipptOpr" "" j;
  i ← value_string "nwInterface" "" j;
  m ← value_string "macAddr" "" j;
  Some (mkIppt (toOperation o) (toIfaceType i) m).

Definition fromIpConfig (p : IpConfigParams) (c : IpConfig) : json :=
  let a := ip_addr c in
  jobj ([("ifType", of_string (fromIfaceType (ifType p))); ("ipFamily", of_string (fromIpFamily (ipFamily p)));
         ("ipType", of_string (fromIpType (ip_type c))); ("ipOpr", of_string (fromIpOperation (ip_opr c)))] ++
        opt_member (bool_decide (ip_vlanId p <> no_vlan)) "vlanId" (of_int (ip_vlanId p)) ++
        set_string "ifAddress" (ifAddress a) ++
        opt_member (bool_decide (ifMask a <> 0)) "ifMask" (of_int (ifMask a)) ++
        set_string "gwAddress" (gwAddress a) ++
        set_string "primaryDnsAddress" (primaryDnsAddress a) ++
        set_string "secondaryDnsAddress" (secondaryDnsAddress a)).

Definition toIpConfig (j : json) : option IpConfig :=
  t ← value_string "ipType" "" j;
  o ← value_string "ipOpr" "" j;
  a ← value_string "ifAddress" "" j;
  m ← value_uint "ifMask" 0 j;
  g ← value_string "gwAddress" "" j;
  d ← value_string "primaryDnsAddress" "" j;
  d2 ← value_string "secondaryDnsAddress" "" j;
  Some (mkIp (toIpType t) (toIpOperation o) (mkAddr a m g 0 d d2)).

Definition toBand (d : json) : option (bool * option BandInterferenceConfig) :=
  value_bool "isEnabled" false d ≫= fun e : bool =>
  match (if e then jfind "config" d else None) with
  | None => Some (e, None)
  | Some q =>
      p ← value_string "priority" "" q;
      w ← value_uint "wlanWaitTimeInSec" 30 q;
      n ← value_uint "n79WaitTimeInSec" 30 q;
      Some (e, Some (mkBand (if decide (p = "WLAN") then PRIO_WLAN else PRIO_N79) w n))
  end.

(** An element of a preference list; anything that is not a string counts as
    the empty one. *)
Definition toPreference (v : json) : option BackhaulType :=
  Some (toBackhaul (if is_string v then get_string v else "")).

Definition toDdsInfo (d : json) : option DdsInfo :=
  t ← value_string "ddsType" "" d; s ← value_int "slot" 1 d; Some (mkDds (toDds t) s).
End SettingsWire.

(** ** Operations *)

Section DataSettings.
Context {json : Type} `{Json json, JsonValues json} {C L : Type} `{EqDecision L}.

Inductive settings_op :=
  | RestoreFactorySettings (op : OperationType) (reboot : bool) (cb : option C)
  | SetBackhaulPref (p : list BackhaulType) (cb : option C)
  | RequestBackhaulPref (cb : option C)
  | SetBandInterference (enable : bool) (config : option BandInterferenceConfig) (cb : option C)
  | RequestBandInterference (cb : option C)
  | SetWwanConnectivity (slot : Z) (allow : bool) (cb : option C)
  | RequestWwanConnectivity (slot : Z) (cb : option C)
  | SetMacSecState (enable : bool) (cb : option C)
  | RequestMacSecState (cb : option C)
  | SwitchBackhaul (source dest : BackhaulInfo) (all : bool) (cb : option C)
  | RequestDdsSwitch (d : DdsInfo) (cb : option C)
  | RequestCurrentDds (cb : option C)
  (* the synchronous writes, whose answers are only logged *)
  | SetIpptConfig (p : IpptParams) (c : IpptConfig)
  | SetIpptNatConfig (enable : bool)
  | SetIpConfig (p : IpConfigParams) (c : IpConfig).

Inductive settings_event :=
  | WwanConnectivityEvt_Signal (env : Envelope json)
  | DdsChangedEvt_Signal (env : Envelope json)
  | IpptConfigSyncEvt_Signal (env : Envelope json)
  | IpConfigSyncEvt_Signal (env : Envelope json).

Inductive settings_value :=
  | SetNoValue
  | Preference (l : list BackhaulType)
  | Band (enabled : bool) (c : option BandInterferenceConfig)
  | Wwan (slot : Z) (allowed : bool)
  | MacSec (enabled : bool)
  | Dds (d : DdsInfo).

Inductive settings_note :=
  | onWwanConnectivityConfigChange (slot : Z) (allowed : bool)
  | onDdsChange (d : DdsInfo).

Definition band_json (c : BandInterferenceConfig) : json :=
  jobj [("priority", of_string (match band c with PRIO_WLAN => "WLAN" | _ => "N79" end));
        ("wlanWaitTimeInSec", of_int (wlanWait c)); ("n79WaitTimeInSec", of_int (n79Wait c))].

Definition settings_payload (op : settings_op) : json :=
  match op with
  | RestoreFactorySettings o reboot _ =>
      jobj [("opType", of_string (opTypeToWire o)); ("isRebootNeeded", of_bool reboot)]
  | SetBackhaulPref p _ => jobj [("backhaulPref", of_array ((fun b => of_string (fromBackhaul b)) <$> p))]
  | SetBandInterference e c _ =>
      jobj (("enable", of_bool e) :: match c with Some c => [("config", band_json c)] | None => [] end)
  | SetWwanConnectivity s a _ => jobj [("slot", of_int s); ("allow", of_bool a)]
  | RequestWwanConnectivity s _ => jobj [("slot", of_int s)]
  | SetMacSecState e _ => jobj [("enable", of_bool e)]
  | SwitchBackhaul s d all _ =>
      jobj [("source", fromBackhaulInfo s); ("dest", fromBackhaulInfo d); ("applyToAll", of_bool all)]
  | RequestDdsSwitch d _ =>
      jobj [("slot", of_int (dds_slot d)); ("ddsType", of_string (fromDds (dds_type d)))]
  | RequestBackhaulPref _ | RequestBandInterference _ | RequestMacSecState _ | RequestCurrentDds _ => jobject
  | SetIpptConfig p c => fromIppt p c
  | SetIpptNatConfig e => jobj [("enableNat", of_bool e)]
  | SetIpConfig p c => fromIpConfig p c
  end.

Definition settings_method (op : settings_op) : string :=
  match op with
  | RestoreFactorySettings _ _ _ => "restore_factory_settings"
  | SetBackhaulPref _ _ => "set_backhaul_pref"
  | RequestBackhaulPref _ => "request_backhaul_pref"
  | SetBandInterference _ _ _ => "set_band_interference"
  | RequestBandInterference _ => "request_band_interference"
  | SetWwanConnectivity _ _ _ => "set_wwan_connectivity"
  | RequestWwanConnectivity _ _ => "request_wwan_connectivity"
  | SetMacSecState _ _ => "set_macsec_state"
  | RequestMacSecState _ => "request_macsec_state"
  | SwitchBackhaul _ _ _ _ => "switch_backhaul"
  | RequestDdsSwitch _ _ => "request_dds_switch"
  | RequestCurrentDds _ => "request_current_dds"
  | SetIpptConfig _ _ => "set_ippt_config"
  | SetIpptNatConfig _ => "set_ippt_nat_config"
  | SetIpConfig _ _ => "set_ip_config"
  end.

Definition settings_request (op : settings_op) : string * string * json :=
  let name := "net_settings." +:+ settings_method op in
  (name +:+ ".req", name +:+ ".rsp", settings_payload op).

(** What a query's callback is given on failure. *)
Definition settings_bad (op : settings_op) : settings_value :=
  match op with
  | RequestBackhaulPref _ => Preference []
  | RequestBandInterference _ => Band false None
  | RequestWwanConnectivity s _ => Wwan s false
  | RequestMacSecState _ => MacSec false
  | RequestCurrentDds _ => Dds (mkDds PERMANENT 0)
  | _ => SetNoValue
  end.

Definition settings_cb (op : settings_op) : option C :=
  match op with
  | RestoreFactorySettings _ _ cb | SetBackhaulPref _ cb | RequestBackhaulPref cb
  | SetBandInterference _ _ cb | RequestBandInterference cb | SetWwanConnectivity _ _ cb
  | RequestWwanConnectivity _ cb | SetMacSecState _ cb | RequestMacSecState cb
  | SwitchBackhaul _ _ _ cb | RequestDdsSwitch _ cb | RequestCurrentDds cb => cb
  | SetIpptConfig _ _ | SetIpptNatConfig _ | SetIpConfig _ _ => None
  end.

Definition settings_answer (op : settings_op) (rsp : option (Envelope json)) :
    list (C * settings_value * Z) :=
  let query decode := completeQuery (settings_bad op) decode (settings_cb op) rsp in
  match op with
  | RequestBackhaulPref _ => query (fun d => Preference <$> decode_list "backhaulPref" toPreference d)
  | RequestBandInterference _ => query (fun d => (fun r => Band (fst r) (snd r)) <$> toBand d)
  | RequestWwanConnectivity s _ =>
      query (fun d => s ← value_int "slot" s d; a ← value_bool "isAllowed" false d; Some (Wwan s a))
  | RequestMacSecState _ => query (fun d => MacSec <$> value_bool "enabled" false d)
  | RequestCurrentDds _ => query (fun d => Dds <$> toDdsInfo d)
  | _ => completeResponseCb (settings_bad op) (settings_cb op) rsp
  end.

(** ** The mirrors *)

Record Mirrors := mkMirrors {
  ippt_nat_enabled_ : bool;
  ippt_mirror_ : gmap (Z * Z * Z) IpptConfig;
  ip_config_mirror_ : gmap (Z * Z * Z) IpConfig }.

Definition zero_mirrors : Mirrors := mkMirrors true ∅ ∅.

(** The entries of a table, the last of a key winning; the first that cannot be
    read stops the process. *)
Definition read_entries {K A} `{Countable K} (entry : json -> option (K * A)) (d : json) :
    option (gmap K A) :=
  l ← decode_list "entries" entry d;
  Some (foldl (fun t kv => <[fst kv := snd kv]> t) ∅ l).

Definition ippt_entry (e : json) : option (Z * Z * Z * IpptConfig) :=
  p ← value_int "profileId" (-1) e;
  v ← value_int "vlanId" (-1) e;
  s ← value_int "slot" 1 e;
  c ← toIppt e;
  Some ((p, v, s), c).

Definition ip_entry (e : json) : option (Z * Z * Z * IpConfig) :=
  i ← value_string "ifType" "" e;
  f ← value_string "ipFamily" "" e;
  v ← value_int "vlanId" (-1) e;
  c ← toIpConfig e;
  Some ((iface_value (toIfaceType i), ip_family_value (toIpFamily f), v), c).

Definition applyIpptSync_ (d : json) (x : Mirrors) : outcome Mirrors :=
  n ← or_die (value_bool "natEnabled" true d);
  t ← or_die (read_entries ippt_entry d);
  Done (mkMirrors n t (ip_config_mirror_ x)).

Definition applyIpConfigSync_ (d : json) (x : Mirrors) : outcome Mirrors :=
  t ← or_die (read_entries ip_entry d);
  Done (mkMirrors (ippt_nat_enabled_ x) (ippt_mirror_ x) t).

(** Both states apply the retained tables; only Ready tells the listeners. *)
Definition settings_indicates (ready : bool) (e : settings_event) (x : Mirrors) :
    outcome (Mirrors * list settings_note) :=
  match e with
  | IpptConfigSyncEvt_Signal env =>
      match data env with
      | None => Done (x, [])
      | Some d => x ← applyIpptSync_ d x; Done (x, [])
      end
  | IpConfigSyncEvt_Signal env =>
      match data env with
      | None => Done (x, [])
      | Some d => x ← applyIpConfigSync_ d x; Done (x, [])
      end
  | WwanConnectivityEvt_Signal env =>
      match ready, data env with
      | true, Some d =>
          s ← or_die (value_int "slot" 1 d);
          a ← or_die (value_bool "isConnectivityAllowed" true d);
          Done (x, [onWwanConnectivityConfigChange s a])
      | _, _ => Done (x, [])
      end
  | DdsChangedEvt_Signal env =>
      match ready, data env with
      | true, Some d => i ← or_die (toDdsInfo d); Done (x, [onDdsChange i])
      | _, _ => Done (x, [])
      end
  end.

#[global] Instance settings_ops :
  NetOps json C L settings_op settings_value settings_note Mirrors settings_event := {|
  op_request := settings_request;
  op_clients op := clients_of (settings_bad op) (settings_cb op);
  op_answer := settings_answer;
  asks _ := None;
  indicates := settings_indicates;
  reaps := true; nested := true; refuses := true; passes _ := false |}.

#[global] Instance settings_spec :
  NetSpec json C L settings_op settings_value settings_note Mirrors settings_event.
Proof. apply net_spec_of. intros []; first [apply complete_laws|apply query_laws]. Qed.

(** ** The public interface *)

Local Notation AOSettings := (AONet (json := json) (C := C) (L := L) (Op := settings_op)
  (V := settings_value) (Note := settings_note) (X := Mirrors) (Ev := settings_event)).
Local Notation Settings := (NetManager json C L settings_op settings_value settings_note Mirrors).

Definition SimulaDataSettingsManager (initCb : option C) : Settings := new_net zero_mirrors initCb.

Section Api.
Context (topic : string -> string) (paId : string) (now_at counter_at : nat -> Z).

(** Every asynchronous call: the request is sent by the client's thread. *)
Definition direct_if_ready (op : settings_op) (ready : bool) (m : Settings) : Status * Settings :=
  if ready then (SUCCESS_, send_op topic paId now_at counter_at op m) else (NOTREADY, m).

Definition publishMirrorWrite_ (op : settings_op) (ready : bool) (m : Settings) : Z * Settings :=
  if ready then (SUCCESS, send_op topic paId now_at counter_at op m) else (DEVICE_NOT_READY, m).

Definition setIpPassThroughConfig (p : IpptParams) (c : IpptConfig) := publishMirrorWrite_ (SetIpptConfig p c).
Definition setIpPassThroughNatConfig (e : bool) := publishMirrorWrite_ (SetIpptNatConfig e).
(** One family at a time. *)
Definition setIpConfig (p : IpConfigParams) (c : IpConfig) (ready : bool) (m : Settings) : Z * Settings :=
  match ipFamily p with
  | IPV4V6 => (REQUEST_NOT_SUPPORTED, m)
  | _ => publishMirrorWrite_ (SetIpConfig p c) ready m
  end.
End Api.

(** The synchronous reads: a code, and the caller's variable. *)
Definition getIpPassThroughNatConfig (ready : bool) (m : Settings) (e : bool) : Z * bool :=
  if ready then (SUCCESS, ippt_nat_enabled_ (own m)) else (DEVICE_NOT_READY, e).

Definition ippt_key (p : IpptParams) : Z * Z * Z := (ippt_profileId p, ippt_vlanId p, ippt_slotId p).
Definition ip_key (p : IpConfigParams) : Z * Z * Z :=
  (iface_value (ifType p), ip_family_value (ipFamily p), wrap 32 (ip_vlanId p)).

Definition mirrored {A} (o : option A) (ready : bool) (c : A) : Z * A :=
  if ready then match o with Some c => (SUCCESS, c) | None => (INVALID_ARGUMENTS, c) end
  else (DEVICE_NOT_READY, c).

Definition getIpPassThroughConfig (p : IpptParams) (ready : bool) (m : Settings) : IpptConfig -> Z * IpptConfig :=
  mirrored (ippt_mirror_ (own m) !! ippt_key p) ready.
Definition getIpConfig (p : IpConfigParams) (ready : bool) (m : Settings) : IpConfig -> Z * IpConfig :=
  mirrored (ip_config_mirror_ (own m) !! ip_key p) ready.

Definition isDeviceDataUsageMonitoringEnabled : bool := false.

(** The states: those of the shell, with the operations above. *)
Section States.
Context (topic : string -> string) (paId : string) (now_at counter_at : nat -> Z).
Context (alive_at : nat -> L -> bool).

Local Notation state_fn := (Event (net_event json settings_event) -> NetManager json C L settings_op settings_value settings_note Mirrors -> result).

Definition SetOperating_St : state_fn := on_Operating.
Definition SetNotReady_St : state_fn := on_NotReady alive_at.
Definition SetReady_St : state_fn := on_Ready topic paId now_at counter_at alive_at.
End States.

Definition settings_subscriptions : list (string * (Envelope json -> net_event json settings_event)) :=
  [("net_settings.subsys_ready_net_settings.ind", ReadinessEvt_Signal);
   ("net_settings.wwan_connectivity_changed.ind", fun env => Other (WwanConnectivityEvt_Signal env));
   ("net_settings.dds_changed.ind", fun env => Other (DdsChangedEvt_Signal env));
   ("net_settings.ippt_config_sync.ind", fun env => Other (IpptConfigSyncEvt_Signal env));
   ("net_settings.ip_config_sync.ind", fun env => Other (IpConfigSyncEvt_Signal env))].
End DataSettings.

(** ** Correctness of the mirrors *)

Section MirrorCodec.
Context {json : Type} `{JsonSpec json, !JsonValues json, !JsonValuesSpec json}.

Record ippt_params_ok (p : IpptParams) : Prop := {
  ippt_profile_int : is_int (ippt_profileId p);
  ippt_vlan_int : is_int (ippt_vlanId p);
  ippt_slot_int : is_int (ippt_slotId p) }.

Record ip_params_ok (p : IpConfigParams) (c : IpConfig) : Prop := {
  ip_vlan_uint : is_uint32 (ip_vlanId p);
  ip_mask_uint : is_uint32 (ifMask (ip_addr c));
  ip_no_gw_mask : gwMask (ip_addr c) = 0 }.

(** A setting as the modem publishes it back: with the members of the request
    that made it. *)
Lemma ippt_entry_read p c :
  ippt_params_ok p -> ippt_entry (fromIppt p c : json) = Some (ippt_key p, c).
Proof.
  intros [Hp Hv Hs]. unfold is_int in *. unfold ippt_entry, toIppt, fromIppt, set_string, ippt_key.
  destruct p as [p v s], c as [o i m]. simpl in *.
  destruct (bool_decide_reflect (i <> IF_UNKNOWN)) as [Hi|Hi], (bool_decide_reflect (m <> "")) as [Hm|Hm];
    simpl; read_members; repeat f_equal; try (by destruct o); try (by destruct i);
    try (by apply dec_stable in Hm); by apply dec_stable in Hi as ->.
Qed.

Lemma get_int_of_uint n : 0 <= n < 2 ^ 32 -> as_int (of_int n : json) = Some (wrap 32 n).
Proof.
  intros Hn. by rewrite as_int_integer, get_int_cast, of_int_get
    by (try apply of_int_is; unfold in_i64; lia).
Qed.

(** The members of an object with optional ones. *)
Lemma member_opt k b k' v ms :
  member k (opt_member b k' v ++ ms) =
    (match member k ms with
     | Some w => Some w
     | None => if bool_decide (k' = k) && b then Some v else None
     end : option json).
Proof.
  rewrite member_app. destruct (member k ms); [done|]. unfold opt_member.
  destruct b; simpl; [|by rewrite andb_false_r]. rewrite andb_true_r. by repeat case_decide.
Qed.

Lemma read_set_string k s ms :
  member k ms = (if bool_decide (s <> "") then Some (of_string s) else None) ->
  value_string k "" (jobj ms : json) = Some s.
Proof.
  intros Hm. destruct (bool_decide_reflect (s <> "")) as [Hs|Hs]; [by apply read_string|].
  apply dec_stable in Hs as ->. by apply read_absent_string.
Qed.

Ltac decide_names :=
  repeat match goal with
    | |- context [bool_decide (String ?a ?s = ?t)] =>
        first [ rewrite (bool_decide_eq_false_2 (String a s = t)) by discriminate
              | rewrite (bool_decide_eq_true_2 (String a s = t)) by reflexivity ]
    | |- context [decide (String ?a ?s = ?t)] =>
        first [ rewrite (decide_False (P := String a s = t)) by discriminate
              | rewrite (decide_True (P := String a s = t)) by reflexivity ]
    end.

Ltac find_member :=
  match goal with ms := _ |- _ => subst ms end;
  rewrite <- (app_nil_r (set_string "secondaryDnsAddress" _));
  unfold set_string; rewrite <- ?app_assoc; cbn [app member]; rewrite ?member_opt; cbn [member];
  decide_names; cbn [andb];
  by repeat match goal with |- context [bool_decide (?x <> ?y)] => destruct (bool_decide (x <> y)) end.

Lemma ip_entry_read p c :
  ip_params_ok p c -> ip_entry (fromIpConfig p c : json) = Some (ip_key p, c).
Proof.
  intros [Hv Hm Hg]. unfold is_uint32 in *. unfold ip_entry, toIpConfig, fromIpConfig, ip_key.
  destruct p as [i f v], c as [t o [a m g gm d d2]]. cbn [ip_addr ifType ipFamily ip_vlanId ip_type ip_opr
    ifAddress ifMask gwAddress gwMask primaryDnsAddress secondaryDnsAddress] in *. subst gm.
  match goal with |- context [jobj ?l] => set (ms := l) end.
  rewrite (read_string "ifType" "" ms (fromIfaceType i)) by find_member.
  rewrite (read_string "ipFamily" "" ms (fromIpFamily f)) by find_member.
  rewrite (read_string "ipType" "" ms (fromIpType t)) by find_member.
  rewrite (read_string "ipOpr" "" ms (fromIpOperation o)) by find_member.
  rewrite (read_set_string "ifAddress" a ms), (read_set_string "gwAddress" g ms),
    (read_set_string "primaryDnsAddress" d ms), (read_set_string "secondaryDnsAddress" d2 ms) by find_member.
  assert (H1 : value_int "vlanId" (-1) (jobj ms) = Some (wrap 32 v)).
  { assert (Hk : member "vlanId" ms = if bool_decide (v <> no_vlan) then Some (of_int v) else None) by find_member.
    unfold value_int. destruct (bool_decide_reflect (v <> no_vlan)) as [Hn|Hn].
    - rewrite (read_as as_int _ _ _ _ Hk). by apply get_int_of_uint.
    - rewrite (read_absent as_int _ _ _ Hk). by apply dec_stable in Hn as ->. }
  assert (H2 : value_uint "ifMask" 0 (jobj ms) = Some m).
  { assert (Hk : member "ifMask" ms = if bool_decide (m <> 0) then Some (of_int m) else None) by find_member.
    unfold value_uint. destruct (bool_decide_reflect (m <> 0)) as [Hn|Hn].
    - rewrite (read_as as_uint _ _ _ _ Hk). by apply as_uint_of.
    - rewrite (read_absent as_uint _ _ _ Hk). by apply dec_stable in Hn as ->. }
  rewrite H1, H2. simpl. by destruct i, f, t, o.
Qed.
End MirrorCodec.

(** The tables as the modem publishes them. *)
Definition ippt_table {json} `{Json json, JsonValues json} (nat_enabled : bool)
    (t : list (IpptParams * IpptConfig)) : json :=
  jobj [("natEnabled", of_bool nat_enabled); ("entries", of_array ((fun x => fromIppt (fst x) (snd x)) <$> t))].
Definition ip_table {json} `{Json json, JsonValues json} (t : list (IpConfigParams * IpConfig)) : json :=
  jobj [("entries", of_array ((fun x => fromIpConfig (fst x) (snd x)) <$> t))].

Section MirrorRuns.
Context {json : Type} `{JsonSpec json, !JsonValues json, !JsonValuesSpec json}.
Context {C L : Type} `{EqDecision L}.
Context (topic : string -> string) (paId : string) (now_at counter_at : nat -> Z).
Context (alive_at : nat -> L -> bool).

Local Notation Settings := (NetManager json C L (settings_op (C := C)) settings_value settings_note Mirrors).
Local Notation Mv := (net_move (json := json) (C := C) (L := L) (Op := settings_op (C := C))
  (Ev := settings_event (json := json))).

(** The tables a move publishes; either state applies them. *)
Definition ippt_said (ready : bool) (mv : Mv) : option json :=
  match mv with Process (Other (IpptConfigSyncEvt_Signal env)) => data env | _ => None end.
Definition ip_said (ready : bool) (mv : Mv) : option json :=
  match mv with Process (Other (IpConfigSyncEvt_Signal env)) => data env | _ => None end.

(** The mirrors hold what was last published. *)
Definition mirrors_of (ippt ip : list json) (x : Mirrors) : Prop :=
  match last ippt with
  | None => ippt_nat_enabled_ x = true /\ ippt_mirror_ x = ∅
  | Some d => value_bool "natEnabled" true d = Some (ippt_nat_enabled_ x) /\
              read_entries ippt_entry d = Some (ippt_mirror_ x)
  end /\
  match last ip with
  | None => ip_config_mirror_ x = ∅
  | Some d => read_entries ip_entry d = Some (ip_config_mirror_ x)
  end.

Lemma mirrors_move ippt ip leaf (mv : Mv) (m : Settings) leaf' m' :
  leaf <> NetOperating_St ->
  move_step topic paId now_at counter_at alive_at mv (leaf, m) = Done (leaf', m') ->
  mirrors_of ippt ip (own m) ->
  mirrors_of (ippt ++ option_list (ippt_said (is_ready leaf) mv))
    (ip ++ option_list (ip_said (is_ready leaf) mv)) (own m').
Proof.
  intros Hl Hs Hok. apply move_own in Hs; [|done].
  destruct mv as [[env|b|e]|op rsp|op|c|x|x]; cbn [ippt_said ip_said option_list];
    try (rewrite !app_nil_r, Hs; exact Hok).
  unfold passed in Hs. cbn [asks passes settings_ops] in Hs. rewrite andb_false_r in Hs.
  destruct Hs as [ns Hi].
  cbn [indicates settings_ops] in Hi.
  destruct e as [env|env|env|env]; cbn [settings_indicates ippt_said ip_said option_list] in *;
    rewrite ?app_nil_r.
  - replace (own m') with (own m); [exact Hok|]. destruct (is_ready leaf), (data env) as [d|];
      [|by injection Hi..]. by apply bind_done' in Hi as (s & _ & (a & _ & [= Hi _])%bind_done').
  - replace (own m') with (own m); [exact Hok|]. destruct (is_ready leaf), (data env) as [d|];
      [|by injection Hi..]. by apply bind_done' in Hi as (s & _ & [= Hi _]).
  - destruct (data env) as [d|]; simpl; rewrite ?app_nil_r; [|by injection Hi as <- _].
    apply bind_done' in Hi as (x' & Hx & [= <- _]).
    apply bind_done' in Hx as (n & Hn%or_die_done & (t & Ht%or_die_done & [= <-])%bind_done').
    destruct Hok as [_ H2]. split; [|exact H2]. by rewrite last_snoc.
  - destruct (data env) as [d|]; simpl; rewrite ?app_nil_r; [|by injection Hi as <- _].
    apply bind_done' in Hi as (x' & Hx & [= <- _]).
    apply bind_done' in Hx as (t & Ht%or_die_done & [= <-]).
    destruct Hok as [H1 _]. split; [exact H1|]. by rewrite last_snoc.
Qed.

(** Looking a key up in a table read from its entries. *)
Lemma read_entries_lookup {K A B} `{Countable K} (entry : json -> option (K * A)) (enc : B * A -> json)
    (key : B -> K) (t : list (B * A)) (ms : list (string * json)) :
  member "entries" ms = Some (of_array (enc <$> t)) ->
  Forall (fun x => entry (enc x) = Some (key (fst x), snd x)) t -> NoDup (key <$> t.*1) ->
  exists g, read_entries entry (jobj ms) = Some g /\
    (forall b a, (b, a) ∈ t -> g !! key b = Some a) /\
    (forall k, k ∉ key <$> t.*1 -> g !! k = None).
Proof.
  intros Hm Ht Hnd. set (l := (fun x : B * A => (key (fst x), snd x)) <$> t).
  exists (foldl (fun t kv => <[fst kv := snd kv]> t) ∅ l).
  assert (Hl : l.*1 = key <$> t.*1) by (unfold l; by rewrite <- !list_fmap_compose).
  assert (Hfold : forall (l : list (K * A)) (g : gmap K A), NoDup l.*1 ->
    (forall k a, (k, a) ∈ l -> foldl (fun t kv => <[fst kv := snd kv]> t) g l !! k = Some a) /\
    (forall k, k ∉ l.*1 -> foldl (fun t kv => <[fst kv := snd kv]> t) g l !! k = g !! k)).
  { clear. induction l as [|[k a] l IH]; intros g; simpl.
    - intros _. split; [by intros k a ?%not_elem_of_nil|done].
    - intros [Hk Hnd]%NoDup_cons. destruct (IH (<[k:=a]> g) Hnd) as [I1 I2]. split.
      + intros k' a' [[= -> ->]|Hin]%elem_of_cons; [|by apply I1]. by rewrite I2, lookup_insert_eq.
      + intros k' [Hne Hni]%not_elem_of_cons. by rewrite I2, lookup_insert_ne. }
  destruct (Hfold l ∅) as [F1 F2]; [by rewrite Hl|]. split.
  - unfold read_entries, decode_list, value_json. rewrite (read_as Some _ _ _ _ Hm). simpl.
    rewrite of_array_elements. replace (mapM entry (enc <$> t)) with (Some l); [done|]. symmetry.
    apply mapM_Some. unfold l. rewrite Forall2_fmap. by apply Forall_Forall2_diag.
  - split.
    + intros b a Hin. apply F1. unfold l. apply list_elem_of_fmap. by exists (b, a).
    + intros k Hk. rewrite F2; [done|by rewrite Hl].
Qed.

End MirrorRuns.

(** C25: the synchronous reads of the data settings answer from what the modem
    published last. After any sequence of events, requests (the synchronous writes
    among them), answers and registrations, if the last pass-through table
    published was [t] with NAT flag [n] and the last table of IP configurations was
    [u], then while the manager is ready every read returns exactly the entry of
    its key in these tables, or INVALID_ARGUMENTS when there is none, whatever was
    written or published before; a table is taken over whole even when it comes
    before readiness; and while the manager is not ready reads fail and leave the
    caller's variable alone. *)
Theorem settings_mirrored {json} `{JsonSpec json, !JsonValues json, !JsonValuesSpec json}
    {C L} `{EqDecision L} (topic : string -> string) (paId : string) (now_at counter_at : nat -> Z)
    (alive_at : nat -> L -> bool) (cb : option C)
    (mvs : list (net_move (json := json) (C := C) (L := L) (Op := settings_op (C := C))
                   (Ev := settings_event (json := json))))
    (leaf : net_state)
    (m : NetManager json C L (settings_op (C := C)) settings_value settings_note Mirrors)
    (n : bool) (t : list (IpptParams * IpptConfig)) (u : list (IpConfigParams * IpConfig)) :
  net_run topic paId now_at counter_at alive_at mvs
    (NetNotReady_St, SimulaDataSettingsManager cb) = Done (leaf, m) ->
  last (heard ready_after ippt_said false mvs) = Some (ippt_table n t) ->
  last (heard ready_after ip_said false mvs) = Some (ip_table u) ->
  Forall (fun x => ippt_params_ok (fst x)) t -> NoDup (ippt_key <$> t.*1) ->
  Forall (fun x => ip_params_ok (fst x) (snd x)) u -> NoDup (ip_key <$> u.*1) ->
  (forall e, getIpPassThroughNatConfig (is_ready leaf) m e =
     if is_ready leaf then (SUCCESS, n) else (DEVICE_NOT_READY, e)) /\
  (forall p c0, (is_ready leaf = false -> getIpPassThroughConfig p (is_ready leaf) m c0 = (DEVICE_NOT_READY, c0)) /\
     (is_ready leaf = true ->
      (forall c, (p, c) ∈ t -> getIpPassThroughConfig p (is_ready leaf) m c0 = (SUCCESS, c)) /\
      (ippt_key p ∉ ippt_key <$> t.*1 ->
       getIpPassThroughConfig p (is_ready leaf) m c0 = (INVALID_ARGUMENTS, c0)))) /\
  (forall p c0, (is_ready leaf = false -> getIpConfig p (is_ready leaf) m c0 = (DEVICE_NOT_READY, c0)) /\
     (is_ready leaf = true ->
      (forall c, (p, c) ∈ u -> getIpConfig p (is_ready leaf) m c0 = (SUCCESS, c)) /\
      (ip_key p ∉ ip_key <$> u.*1 -> getIpConfig p (is_ready leaf) m c0 = (INVALID_ARGUMENTS, c0)))).
Proof.
  intros Hr Ht Hu Hok1 Hnd1 Hok2 Hnd2.
  assert (Hm : mirrors_of (heard ready_after ippt_said false mvs) (heard ready_after ip_said false mvs) (own m)).
  { pose (f := fun r mv => Some (ippt_said (json := json) (C := C) (L := L) r mv, ip_said r mv)).
    rewrite <- (heard_omap ready_after f fst ippt_said), <- (heard_omap ready_after f snd ip_said) by done.
    refine (net_run_hears topic paId now_at counter_at alive_at f
      (fun l _ m => mirrors_of (omap fst l) (omap snd l) (own m)) mvs leaf m zero_mirrors cb _ _ Hr); [done|].
    intros l leaf1 mv m1 leaf2 m2 Hl HR Hs. rewrite !omap_app. eapply mirrors_move in Hs; [|done|exact HR].
    revert Hs. simpl. by destruct (ippt_said (is_ready leaf1) mv), (ip_said (is_ready leaf1) mv). }
  destruct Hm as [H1 H2]. rewrite Ht in H1. rewrite Hu in H2. destruct H1 as [Hn H1].
  destruct (read_entries_lookup ippt_entry (fun x => fromIppt (fst x) (snd x)) ippt_key t
    [("natEnabled", of_bool n); ("entries", of_array ((fun x => fromIppt (fst x) (snd x)) <$> t))])
    as (g1 & G1 & I1 & N1); [done| |done|].
  { eapply Forall_impl; [exact Hok1|]. intros [p c]. apply ippt_entry_read. }
  destruct (read_entries_lookup ip_entry (fun x => fromIpConfig (fst x) (snd x)) ip_key u
    [("entries", of_array ((fun x => fromIpConfig (fst x) (snd x)) <$> u))])
    as (g2 & G2 & I2 & N2); [done| |done|].
  { eapply Forall_impl; [exact Hok2|]. intros [p c]. apply ip_entry_read. }
  unfold ippt_table in H1, Hn. rewrite H1 in G1. injection G1 as G1. unfold ip_table in H2. rewrite H2 in G2.
  injection G2 as G2. revert Hn. read_members. intros [= Hn].
  unfold getIpPassThroughNatConfig, getIpPassThroughConfig, getIpConfig, mirrored. rewrite G1, G2, <- Hn.
  destruct (is_ready leaf); repeat split; try done.
  - intros c Hin. by rewrite (I1 _ _ Hin).
  - intros Hni. by rewrite (N1 _ Hni).
  - intros c Hin. by rewrite (I2 _ _ Hin).
  - intros Hni. by rewrite (N2 _ Hni).
Qed.

Module SettingsDemo.
Definition topic_ (name : string) : string := "telaf/" +:+ name.
Definition clock_ (n : nat) : Z := 1000 + Z.of_nat n.
Definition alive_ (n : nat) (l : nat) : bool := true.
Definition Mv : Type := net_move (json := jval) (C := string) (L := nat) (Op := settings_op (C := string))
  (Ev := settings_event (json := jval)).

Definition env (d : jval) : Envelope jval := mkEnvelope 1 "0000000a" 7 "mpss" None (Some d) None.
Definition p1 : IpptParams := mkIpptParams 3 (-1) 1.
Definition c1 : IpptConfig := mkIppt ENABLE ETH "00:11:22:33:44:55".
Definition p2 : IpConfigParams := mkIpParams ETH IPV4 no_vlan.
Definition c2 : IpConfig := mkIp STATIC_IP IPO_ENABLE (mkAddr "192.0.2.7" 24 "192.0.2.1" 0 "" "").

(** Tables before readiness; then a write the modem has not confirmed. *)
Definition life : list Mv :=
  [Process (Other (IpptConfigSyncEvt_Signal (env (ippt_table false [(p1, c1)]))));
   Process (Other (IpConfigSyncEvt_Signal (env (ip_table [(p2, c2)]))));
   Process (ReadinessEvt_Signal (env (JObject [("status", JString "AVAILABLE")])));
   Direct (SetIpptConfig p1 (mkIppt DISABLE IF_UNKNOWN "")); Reply (SetIpptConfig p1 c1) None].

Definition at_end := match net_run topic_ "pa-test-0001" clock_ clock_ alive_ life
    (NetNotReady_St, SimulaDataSettingsManager (json := jval) (Some "init")) with
  | Done x => x
  | Fail _ => (NetOperating_St, SimulaDataSettingsManager None)
  end.
End SettingsDemo.

Lemma settings_mirrored_witness :
  getIpPassThroughConfig SettingsDemo.p1 true (snd SettingsDemo.at_end) (mkIppt OP_UNKNOWN IF_UNKNOWN "") =
    (SUCCESS, SettingsDemo.c1).
Proof.
  destruct (settings_mirrored SettingsDemo.topic_ "pa-test-0001" SettingsDemo.clock_ SettingsDemo.clock_
    SettingsDemo.alive_ (Some "init") SettingsDemo.life (fst SettingsDemo.at_end) (snd SettingsDemo.at_end)
    false [(SettingsDemo.p1, SettingsDemo.c1)] [(SettingsDemo.p2, SettingsDemo.c2)]) as (_ & Hp & _).
  - vm_compute. reflexivity.
  - reflexivity.
  - reflexivity.
  - apply Forall_singleton. split; unfold is_int, is_uint32, SettingsDemo.p2, SettingsDemo.c2, no_vlan; simpl; lia.
  - apply NoDup_singleton.
  - apply Forall_singleton. split; unfold is_int, is_uint32, SettingsDemo.p2, SettingsDemo.c2, no_vlan; simpl; lia.
  - apply NoDup_singleton.
  - destruct (Hp SettingsDemo.p1 (mkIppt OP_UNKNOWN IF_UNKNOWN "")) as [_ Hready].
    destruct (Hready eq_refl) as [Hin _]. apply Hin. by left.
Defined.

(** A preference the modem does not spell as a string is reported as Ethernet,
    not as unknown. *)
Example odd_preference_is_ethernet :
  settings_answer (RequestBackhaulPref (Some "c"))
    (Some (SettingsDemo.env (JObject [("backhaulPref", JArray [JInt 7; JString "WWAN"])]))) =
    [("c", Preference [BH_ETH; BH_WWAN], SUCCESS)].
Proof. by vm_compute. Qed.
