(* ===== verification/DataProfile.v ===== *)
(** * The profile manager (data/DataProfileManager.cpp, DataProfile.cpp)

    The shell of NetShell.v with its leaves as roots, one manager for each SIM.
    The profiles are the modem's: the manager encodes what clients give and
    decodes what the modem lists.  Every failure is reported as a timeout, and a
    request that NotReady finds in its queue is dropped. *)

From S2P Require Import Prelude Hsm HsmSpec ActiveObject Json Envelope InitGate Manager Answers DataCall.
From S2P Require Import NetWire NetShell.

Local Open Scope Z_scope.

(** ** Values *)

Inductive AuthProtocolType := AUTH_NONE | AUTH_PAP | AUTH_CHAP | AUTH_PAP_CHAP.
Inductive EmergencyCapability := UNSPECIFIED | ALLOWED | NOT_ALLOWED.
Inductive ProfileChangeEvent := CREATE_PROFILE_EVENT | DELETE_PROFILE_EVENT | MODIFY_PROFILE_EVENT.

#[export] Instance TechPreference_eq_dec : EqDecision TechPreference.
Proof. solve_decision. Defined.

Definition PROFILE_ID_INVALID : Z := -1.

(** [std::bitset<16>] as the number [to_ulong] gives; built from an
    [unsigned long] it keeps the low bits. *)
Definition ApnTypes (n : Z) : Z := Z.land n (Z.ones 16).

Record ProfileParams := mkParams {
  pp_profileName : string;
  pp_apn : string;
  pp_userName : string;
  pp_password : string;
  pp_techPref : TechPreference;
  pp_authType : AuthProtocolType;
  pp_ipFamilyType : IpFamilyType;
  pp_apnTypes : Z;
  pp_emergencyAllowed : EmergencyCapability;
  pp_clatEnabled : bool }.

Record DataProfile := mkProfile {
  id_ : Z;
  name_ : string;
  apn_ : string;
  username_ : string;
  password_ : string;
  p_ipFamilyType_ : IpFamilyType;
  techPref_ : TechPreference;
  authType_ : AuthProtocolType;
  apnTypes_ : Z;
  emergencyAllowed_ : EmergencyCapability;
  clatEnabled_ : bool }.

(** ** Wire forms *)

Definition authTypeToWire (t : AuthProtocolType) : string :=
  match t with
  | AUTH_NONE => "AUTH_NONE" | AUTH_PAP => "AUTH_PAP" | AUTH_CHAP => "AUTH_CHAP"
  | AUTH_PAP_CHAP => "AUTH_PAP_CHAP"
  end.
Definition wireToAuthType (s : string) : AuthProtocolType :=
  if decide (s = "AUTH_PAP") then AUTH_PAP
  else if decide (s = "AUTH_CHAP") then AUTH_CHAP
  else if decide (s = "AUTH_PAP_CHAP") then AUTH_PAP_CHAP
  else AUTH_NONE.

(** Queries name no family when none is specified, unlike data calls. *)
Definition profileFamilyToWire (f : IpFamilyType) : string :=
  match f with IPV4 => "IPV4" | IPV6 => "IPV6" | IPV4V6 => "IPV4V6" | _ => "UNKNOWN" end.
Definition wireToIpFamily (s : string) : IpFamilyType :=
  if decide (s = "IPV4") then IPV4
  else if decide (s = "IPV6") then IPV6
  else if decide (s = "IPV4V6") then IPV4V6
  else IPF_UNKNOWN.

Definition techPrefToWire (t : TechPreference) : string :=
  match t with TP_3GPP => "TP_3GPP" | TP_3GPP2 => "TP_3GPP2" | TP_ANY => "TP_ANY" | _ => "UNKNOWN" end.
Definition wireToTechPref (s : string) : TechPreference :=
  if decide (s = "TP_3GPP") then TP_3GPP
  else if decide (s = "TP_3GPP2") then TP_3GPP2
  else if decide (s = "TP_ANY") then TP_ANY
  else TP_UNKNOWN.

Definition emergencyToWire (c : EmergencyCapability) : string :=
  match c with ALLOWED => "ALLOWED" | NOT_ALLOWED => "NOT_ALLOWED" | _ => "UNSPECIFIED" end.
Definition wireToEmergency (s : string) : EmergencyCapability :=
  if decide (s = "ALLOWED") then ALLOWED
  else if decide (s = "NOT_ALLOWED") then NOT_ALLOWED
  else UNSPECIFIED.

#[export] Instance auth_wire : WireEnum AuthProtocolType :=
  {| to_wire := authTypeToWire; of_wire := wireToAuthType |}.
#[export] Instance auth_wire_spec : WireEnumSpec AuthProtocolType (fun _ => True).
Proof. split. by intros []. Qed.
#[export] Instance tech_wire : WireEnum TechPreference :=
  {| to_wire := techPrefToWire; of_wire := wireToTechPref |}.
#[export] Instance tech_wire_spec : WireEnumSpec TechPreference (fun _ => True).
Proof. split. by intros []. Qed.
#[export] Instance emergency_wire : WireEnum EmergencyCapability :=
  {| to_wire := emergencyToWire; of_wire := wireToEmergency |}.
#[export] Instance emergency_wire_spec : WireEnumSpec EmergencyCapability (fun _ => True).
Proof. split. by intros []. Qed.

Section ProfileWire.
Context {json : Type} `{Json json, JsonValues json}.

Definition profile_members (p : ProfileParams) : list (string * json) :=
  [("profileName", of_string (pp_profileName p)); ("apn", of_string (pp_apn p));
   ("userName", of_string (pp_userName p)); ("password", of_string (pp_password p));
   ("techPref", of_string (techPrefToWire (pp_techPref p)));
   ("authType", of_string (authTypeToWire (pp_authType p)));
   ("ipFamilyType", of_string (profileFamilyToWire (pp_ipFamilyType p)));
   ("apnTypes", of_int (pp_apnTypes p));
   ("emergencyAllowed", of_string (emergencyToWire (pp_emergencyAllowed p)));
   ("clatEnabled", of_bool (pp_clatEnabled p))].

Definition profileParamsToWire (p : ProfileParams) : json := jobj (profile_members p).

Definition wireToDataProfile (j : json) : option DataProfile :=
  i ← value_int "id" PROFILE_ID_INVALID j;
  n ← value_string "profileName" "" j;
  a ← value_string "apn" "" j;
  u ← value_string "userName" "" j;
  p ← value_string "password" "" j;
  f ← value_string "ipFamilyType" "" j;
  t ← value_string "techPref" "" j;
  h ← value_string "authType" "" j;
  m ← value_ulong "apnTypes" 0 j;
  e ← value_string "emergencyAllowed" "" j;
  c ← value_bool "clatEnabled" false j;
  Some (mkProfile i n a u p (wireToIpFamily f) (wireToTechPref t) (wireToAuthType h) (ApnTypes m)
    (wireToEmergency e) c).

(** An answer without an array of profiles lists none. *)
Definition wireToDataProfileList (d : json) : option (list DataProfile) :=
  if is_object d then
    match jfind "profiles" d with
    | Some l => if is_array l then mapM wireToDataProfile (elements l) else Some []
    | None => Some []
    end
  else Some [].

(** The filter of a query: what the caller filled in, and nothing the request's
    schema does not know. *)
Definition query_members (p : ProfileParams) : list (string * json) :=
  opt_member (bool_decide (pp_profileName p <> "")) "profileName" (of_string (pp_profileName p)) ++
  opt_member (bool_decide (pp_apn p <> "")) "apn" (of_string (pp_apn p)) ++
  opt_member (bool_decide (pp_techPref p <> TP_UNKNOWN)) "techPref"
    (of_string (techPrefToWire (pp_techPref p))) ++
  opt_member (bool_decide (pp_ipFamilyType p <> IPF_UNKNOWN)) "ipFamilyType"
    (of_string (profileFamilyToWire (pp_ipFamilyType p))).
End ProfileWire.

(** ** Operations *)

Section Profile.
Context {json : Type} `{Json json, JsonValues json} {C L : Type} `{EqDecision L}.
Context (slotId_ : Z).

Inductive profile_op :=
  | RequestProfileList (cb : option C)
  | CreateProfile (params : ProfileParams) (cb : option C)
  | DeleteProfile (profileId : Z) (techPreference : TechPreference) (cb : option C)
  | ModifyProfile (profileId : Z) (params : ProfileParams) (cb : option C)
  | QueryProfile (params : ProfileParams) (cb : option C)
  | RequestProfile (profileId : Z) (techPreference : TechPreference) (cb : option C).

Inductive profile_event :=
  | AskProfile (op : profile_op)
  | ProfileChangedEvt_Signal (env : Envelope json).

(** What callbacks are given besides the code; a profile may be null. *)
Inductive profile_value :=
  | NoProfileValue
  | ProfileId (id : Z)
  | Profiles (l : list DataProfile)
  | OneProfile (p : option DataProfile).

Inductive profile_note := onProfileUpdate (profileId : Z) (t : TechPreference) (e : ProfileChangeEvent).

Definition profile_payload (op : profile_op) : json :=
  match op with
  | RequestProfileList _ => jobject
  | CreateProfile p _ => jset "slot" (of_int slotId_) (profileParamsToWire p)
  | DeleteProfile i t _ =>
      jobj [("profileId", of_int i); ("techPref", of_string (techPrefToWire t)); ("slot", of_int slotId_)]
  | ModifyProfile i p _ => jset "slot" (of_int slotId_) (jset "profileId" (of_int i) (profileParamsToWire p))
  | QueryProfile p _ => jobj (query_members p)
  | RequestProfile i t _ => jobj [("profileId", of_int i); ("techPref", of_string (techPrefToWire t))]
  end.

(** One profile is asked for with a query. *)
Definition profile_method (op : profile_op) : string :=
  match op with
  | RequestProfileList _ => "data.request_profile_list"
  | CreateProfile _ _ => "data.create_profile"
  | DeleteProfile _ _ _ => "data.delete_profile"
  | ModifyProfile _ _ _ => "data.modify_profile"
  | QueryProfile _ _ | RequestProfile _ _ _ => "data.query_profile"
  end.

Definition profile_request (op : profile_op) : string * string * json :=
  (profile_method op +:+ ".req", profile_method op +:+ ".rsp", profile_payload op).

Definition profile_clients (op : profile_op) : list (C * profile_value) :=
  match op with
  | RequestProfileList cb | QueryProfile _ cb => clients_of (Profiles []) cb
  | CreateProfile _ cb => clients_of (ProfileId PROFILE_ID_INVALID) cb
  | DeleteProfile _ _ cb | ModifyProfile _ _ cb => clients_of NoProfileValue cb
  | RequestProfile _ _ cb => clients_of (OneProfile None) cb
  end.

Definition profile_answer (op : profile_op) : option (Envelope json) -> list (C * profile_value * Z) :=
  match op with
  | RequestProfileList cb | QueryProfile _ cb =>
      completeData (Profiles []) (fun d => Profiles <$> wireToDataProfileList d) cb
  | CreateProfile _ cb =>
      completeData (ProfileId PROFILE_ID_INVALID)
        (fun d => ProfileId <$> value_int "profileId" PROFILE_ID_INVALID d) cb
  | DeleteProfile _ _ cb | ModifyProfile _ _ cb => completeOrTimeout NoProfileValue cb
  | RequestProfile _ _ cb =>
      completeData (OneProfile None) (fun d => (fun l => OneProfile (head l)) <$> wireToDataProfileList d) cb
  end.

(** A change that is not named is a modification. *)
Definition wireToChange (s : string) : ProfileChangeEvent :=
  if decide (s = "CREATE") then CREATE_PROFILE_EVENT
  else if decide (s = "DELETE") then DELETE_PROFILE_EVENT
  else MODIFY_PROFILE_EVENT.

Definition profile_indicates (ready : bool) (e : profile_event) (x : unit) :
    outcome (unit * list profile_note) :=
  match ready, e with
  | true, ProfileChangedEvt_Signal env =>
      match data env with
      | None => Done (x, [])
      | Some d =>
          i ← or_die (value_int "profileId" (-1) d);
          t ← or_die (value_string "techPref" "" d);
          n ← or_die (value_string "event" "" d);
          Done (x, [onProfileUpdate i (wireToTechPref t) (wireToChange n)])
      end
  | _, _ => Done (x, [])
  end.

#[local] Instance profile_ops : NetOps json C L profile_op profile_value profile_note unit profile_event := {|
  op_request := profile_request;
  op_clients := profile_clients;
  op_answer := profile_answer;
  asks e := match e with AskProfile op => Some op | _ => None end;
  indicates := profile_indicates;
  reaps := false; nested := false; refuses := false;
  passes e := match e with ProfileChangedEvt_Signal _ => true | _ => false end |}.

(** ** The public interface *)

Local Notation AOProfile := (AONet (json := json) (C := C) (L := L) (Op := profile_op) (V := profile_value)
  (Note := profile_note) (X := unit) (Ev := profile_event)).

Definition SimulaDataProfileManager (initCb : option C) :
    NetManager json C L profile_op profile_value profile_note unit := new_net tt initCb.

Definition post_profile_op (op : profile_op) : AOProfile -> Status * AOProfile := post_if_ready (AskProfile op).

Definition requestProfileList (cb : option C) := post_profile_op (RequestProfileList cb).
Definition createProfile (p : ProfileParams) (cb : option C) := post_profile_op (CreateProfile p cb).
Definition deleteProfile (i : Z) (t : TechPreference) (cb : option C) := post_profile_op (DeleteProfile i t cb).
Definition modifyProfile (i : Z) (p : ProfileParams) (cb : option C) := post_profile_op (ModifyProfile i p cb).
Definition queryProfile (p : ProfileParams) (cb : option C) := post_profile_op (QueryProfile p cb).
Definition requestProfile (i : Z) (t : TechPreference) (cb : option C) := post_profile_op (RequestProfile i t cb).
Definition getSlotId : Z := slotId_.

(** The states: those of the shell, with the operations above. *)
Section States.
Context (topic : string -> string) (paId : string) (now_at counter_at : nat -> Z).
Context (alive_at : nat -> L -> bool).

Local Notation state_fn := (Event (net_event json profile_event) -> NetManager json C L profile_op profile_value profile_note unit -> result).

Definition ProfileNotReady_St : state_fn := on_NotReady alive_at.
Definition ProfileReady_St : state_fn := on_Ready topic paId now_at counter_at alive_at.
End States.

Definition profile_subscriptions : list (string * (Envelope json -> net_event json profile_event)) :=
  [("data.subsys_ready_profile.ind", ReadinessEvt_Signal);
   ("data.profile_changed.ind", fun env => Other (ProfileChangedEvt_Signal env))].

#[local] Instance profile_spec : NetSpec json C L profile_op profile_value profile_note unit profile_event.
Proof.
  apply net_spec_of. intros [cb|p cb|i t cb|i p cb|p cb|i t cb]; simpl;
    first [apply or_timeout_laws|apply data_laws].
Qed.
End Profile.

(** ** Correctness *)

(** A profile as the modem lists it: what created or modified it, with its id. *)
Definition profile_record {json} `{Json json, JsonValues json} (i : Z) (p : ProfileParams) : json :=
  jobj (("id", of_int i) :: profile_members p).
Definition profiles_response {json} `{Json json, JsonValues json} (t : list (Z * ProfileParams)) :
    Envelope json :=
  mkEnvelope 1 EmptyString 0 EmptyString None
    (Some (jobj [("profiles", of_array ((fun x => profile_record (fst x) (snd x)) <$> t))])) None.

Definition profile_of (i : Z) (p : ProfileParams) : DataProfile :=
  mkProfile i (pp_profileName p) (pp_apn p) (pp_userName p) (pp_password p) (pp_ipFamilyType p)
    (pp_techPref p) (pp_authType p) (pp_apnTypes p) (pp_emergencyAllowed p) (pp_clatEnabled p).

(** [ProfileParams{}]. *)
Definition no_params : ProfileParams :=
  mkParams "" "" "" "" TP_UNKNOWN AUTH_NONE IPF_UNKNOWN 0 UNSPECIFIED false.

(** The members a query's schema knows. *)
Definition filter_names : list string := ["profileName"; "apn"; "techPref"; "ipFamilyType"].

Section ProfileCodec.
Context {json : Type} `{JsonSpec json, !JsonValues json, !JsonValuesSpec json}.

Lemma apn_types_small n : 0 <= n < 2 ^ 16 -> ApnTypes n = n.
Proof. intros Hn. unfold ApnTypes. rewrite Z.land_ones by lia. by apply Z.mod_small. Qed.

Lemma profile_record_read i p :
  is_int i -> 0 <= pp_apnTypes p < 2 ^ 16 ->
  wireToDataProfile (profile_record i p : json) = Some (profile_of i p).
Proof.
  intros Hi Hm. unfold is_int in Hi. unfold wireToDataProfile, profile_record, profile_members.
  destruct p as [n a u w t h f m e c]. cbn [pp_profileName pp_apn pp_userName pp_password pp_techPref pp_authType
    pp_ipFamilyType pp_apnTypes pp_emergencyAllowed pp_clatEnabled] in *.
  read_members. rewrite apn_types_small by done. unfold profile_of. simpl. by destruct t, h, f, e.
Qed.

Lemma profile_list_read (t : list (Z * ProfileParams)) :
  Forall (fun x => is_int (fst x) /\ 0 <= pp_apnTypes (snd x) < 2 ^ 16) t ->
  wireToDataProfileList (jobj [("profiles", of_array ((fun x => profile_record (fst x) (snd x)) <$> t))] : json) =
    Some ((fun x => profile_of (fst x) (snd x)) <$> t).
Proof.
  intros Ht. unfold wireToDataProfileList. rewrite jobj_object, jobj_find. simpl.
  rewrite of_array_is, of_array_elements. apply mapM_Some. rewrite Forall2_fmap. apply Forall_Forall2_diag.
  eapply Forall_impl; [exact Ht|]. intros [i p] [Hi Hm]. by apply profile_record_read.
Qed.

Lemma of_string_inj (s s' : string) : of_string s = (of_string s' : json) -> s = s'.
Proof. intros Heq. by rewrite <- (of_string_get (json := json) s), Heq, of_string_get. Qed.

(** The filter keeps what differs from an empty description, of the members the
    schema knows. *)
Lemma query_filter (p : ProfileParams) k :
  let find q := jfind k (q : json) in
  let full := profileParamsToWire p in
  if decide (k ∈ filter_names)
  then find full = find (profileParamsToWire no_params) /\ find (jobj (query_members p)) = None \/
       find full <> find (profileParamsToWire no_params) /\ find (jobj (query_members p)) = find full
  else find (jobj (query_members p)) = None.
Proof.
  unfold profileParamsToWire. cbv zeta. rewrite !jobj_find.
  destruct p as [n a u w t h f m e c].
  assert (Hs : forall s : string, bool_decide (s <> "") = false /\ s = "" \/
      bool_decide (s <> "") = true /\ Some (of_string s : json) <> Some (of_string "")).
  { intros s. destruct (decide (s = "")) as [->|Hs]; [by left|right]. split; [by apply bool_decide_eq_true|].
    by intros [= ?%of_string_inj]. }
  unfold query_members, profile_members. cbn [pp_profileName pp_apn pp_userName pp_password pp_techPref pp_authType
    pp_ipFamilyType pp_apnTypes pp_emergencyAllowed pp_clatEnabled no_params].
  assert (Ht : bool_decide (t <> TP_UNKNOWN) = false /\ t = TP_UNKNOWN \/
    bool_decide (t <> TP_UNKNOWN) = true /\ Some (of_string (techPrefToWire t) : json) <> Some (of_string "UNKNOWN")).
  { destruct t; [by left|right..]; (split; [done|]); by intros [= ?%of_string_inj]. }
  assert (Hf : bool_decide (f <> IPF_UNKNOWN) = false /\ f = IPF_UNKNOWN \/
    bool_decide (f <> IPF_UNKNOWN) = true /\ Some (of_string (profileFamilyToWire f) : json) <> Some (of_string "UNKNOWN")).
  { destruct f; [by left|right..]; (split; [done|]); by intros [= ?%of_string_inj]. }
  destruct (decide (k ∈ filter_names)) as [Hk|Hk].
  - unfold filter_names in Hk. rewrite !elem_of_cons in Hk.
    destruct (Hs n) as [[-> ->]|[-> Hn]], (Hs a) as [[-> ->]|[-> Ha]], Ht as [[-> ->]|[-> Ht]],
      Hf as [[-> ->]|[-> Hf]];
      (destruct Hk as [->|[->|[->|[->|Hk]]]]; [..|by inversion Hk]); simpl; first [by left|by right].
  - unfold filter_names in Hk. rewrite !not_elem_of_cons in Hk. destruct Hk as (H1 & H2 & H3 & H4 & _).
    destruct (Hs n) as [[-> ->]|[-> Hn]], (Hs a) as [[-> ->]|[-> Ha]], Ht as [[-> ->]|[-> Ht]],
      Hf as [[-> ->]|[-> Hf]]; simpl; repeat (rewrite decide_False by congruence); done.
Qed.
End ProfileCodec.

(** Profiles reach the client as they were configured. A profile described by
    createProfile or modifyProfile and listed by the modem with an id is decoded to
    that id and those members; an answer that lists a table of such profiles gives
    requestProfileList and queryProfile exactly these in order, requestProfile the
    first or null, all with SUCCESS; and the payload of a query has, of the members
    of a full description, those that its schema knows and that the caller filled
    in, with the same values, and no other. *)
Theorem profiles_faithful {json} `{JsonSpec json, !JsonValues json, !JsonValuesSpec json} {C : Type}
    (slotId : Z) (table : list (Z * ProfileParams)) (p : ProfileParams) (i : Z) (t : TechPreference) (cb : C)
    (k : string) :
  Forall (fun x => is_int (fst x) /\ 0 <= pp_apnTypes (snd x) < 2 ^ 16) table ->
  let listed := (fun x => profile_of (fst x) (snd x)) <$> table in
  let answer op := profile_answer (C := C) op (Some (profiles_response table : Envelope json)) in
  answer (RequestProfileList (Some cb)) = [(cb, Profiles listed, SUCCESS)] /\
  answer (QueryProfile p (Some cb)) = [(cb, Profiles listed, SUCCESS)] /\
  answer (RequestProfile i t (Some cb)) = [(cb, OneProfile (head listed), SUCCESS)] /\
  let find q := jfind k (q : json) in
  let full := profileParamsToWire p in
  let query := profile_payload (C := C) slotId (QueryProfile p (Some cb)) in
  if decide (k ∈ filter_names)
  then find full = find (profileParamsToWire no_params) /\ find query = None \/
       find full <> find (profileParamsToWire no_params) /\ find query = find full
  else find query = None.
Proof.
  intros Ht listed answer. subst answer. unfold profile_answer, completeData, query_data, profiles_response.
  cbn [error data]. rewrite profile_list_read by done.
  split; [done|]. split; [done|]. split; [done|]. apply query_filter.
Qed.

Lemma profiles_faithful_witness :
  let p := mkParams "internet" "apn.net" "u" "w" TP_3GPP AUTH_CHAP IPV4V6 3 ALLOWED true in
  profile_answer (QueryProfile p (Some "q")) (Some (profiles_response [(5, p)] : Envelope jval)) =
    [("q", Profiles [profile_of 5 p], SUCCESS)] /\
  jfind "userName" (profile_payload (C := string) 1 (QueryProfile p (Some "q")) : jval) = None.
Proof.
  intros p. destruct (profiles_faithful (json := jval) 1 [(5, p)] p 5 TP_ANY "q" "userName")
    as (_ & Hq & _ & Hk).
  - repeat constructor; simpl; lia.
  - split; [exact Hq|exact Hk].
Defined.
