(* ===== verification/DataServing.v ===== *)
(** * The data serving-system manager (data/ServingSystemManager.cpp)

    The shell of NetShell.v with its leaves as roots, one manager for each SIM.
    Of the modem's indications it keeps the last bearer status, which clients
    read without asking the modem. *)

From S2P Require Import Prelude Hsm HsmSpec ActiveObject Json Envelope InitGate Manager Answers NetShell.
From S2P Require Import NetShellProps NetListeners.

Local Open Scope Z_scope.

(** ** Values *)

Inductive DrbStatus := DRB_ACTIVE | DORMANT | DRB_UNKNOWN.
Inductive RoamingType := ROAMING_UNKNOWN | DOMESTIC | INTERNATIONAL.
Inductive DataServiceState := SERVICE_UNKNOWN | IN_SERVICE | OUT_OF_SERVICE.
Inductive NetworkRat :=
  | RAT_UNKNOWN | RAT_CDMA_1X | RAT_CDMA_EVDO | RAT_GSM | RAT_WCDMA | RAT_LTE | RAT_TDSCDMA | RAT_NR5G.
Inductive NrIconType := ICON_NONE | BASIC | UWB.

Record RoamingStatus := mkRoaming { isRoaming : bool; roaming_type : RoamingType }.
(** [telux::data::ServiceStatus]. *)
Record DataServiceStatus := mkDataStatus { serviceState : DataServiceState; networkRat : NetworkRat }.

(** [ServiceStatus status{}], [RoamingStatus roaming{}]. *)
Definition no_data_status : DataServiceStatus := mkDataStatus SERVICE_UNKNOWN RAT_UNKNOWN.
Definition no_roaming : RoamingStatus := mkRoaming false ROAMING_UNKNOWN.

Definition wireToServiceState (s : string) : DataServiceState :=
  if decide (s = "IN_SERVICE") then IN_SERVICE
  else if decide (s = "OUT_OF_SERVICE") then OUT_OF_SERVICE
  else SERVICE_UNKNOWN.
Definition wireToNetworkRat (s : string) : NetworkRat :=
  if decide (s = "GSM") then RAT_GSM
  else if decide (s = "WCDMA") then RAT_WCDMA
  else if decide (s = "LTE") then RAT_LTE
  else if decide (s = "CDMA_1X") then RAT_CDMA_1X
  else if decide (s = "CDMA_EVDO") then RAT_CDMA_EVDO
  else RAT_UNKNOWN.
Definition wireToDrbStatus (s : string) : DrbStatus :=
  if decide (s = "ACTIVE") then DRB_ACTIVE else if decide (s = "DORMANT") then DORMANT else DRB_UNKNOWN.
Definition wireToRoamingType (s : string) : RoamingType :=
  if decide (s = "DOMESTIC") then DOMESTIC
  else if decide (s = "INTERNATIONAL") then INTERNATIONAL
  else ROAMING_UNKNOWN.
Definition wireToNrIconType (s : string) : NrIconType :=
  if decide (s = "BASIC") then BASIC else if decide (s = "UWB") then UWB else ICON_NONE.

(** ** Operations *)

Section Serving.
Context {json : Type} `{Json json, JsonValues json} {C L : Type} `{EqDecision L}.
Context (slotId_ : Z).

Inductive serving_op :=
  | RequestServiceStatus (cb : option C)
  | RequestRoamingStatus (cb : option C)
  | RequestNrIconType (cb : option C)
  | MakeDormant (cb : option C).

Inductive serving_event :=
  | AskServing (op : serving_op)
  | ServStateEvt_Signal (env : Envelope json)
  | ServRoamingEvt_Signal (env : Envelope json).

Inductive serving_value :=
  | NoServingValue
  | ServiceValue (s : DataServiceStatus)
  | RoamingValue (r : RoamingStatus)
  | IconValue (t : NrIconType).

(** One task tells a listener of the bearer and of the service. *)
Inductive serving_note :=
  | onDrbStatusChanged_onServiceStateChanged (d : DrbStatus) (s : DataServiceStatus)
  | onRoamingStatusChanged (r : RoamingStatus).

Definition decode_status (d : json) : option DataServiceStatus :=
  s ← value_string "serviceState" "" d;
  r ← value_string "networkRat" "" d;
  Some (mkDataStatus (wireToServiceState s) (wireToNetworkRat r)).
Definition decode_roaming (d : json) : option RoamingStatus :=
  b ← value_bool "isRoaming" false d;
  t ← value_string "roamingType" "" d;
  Some (mkRoaming b (wireToRoamingType t)).

Definition serving_method (op : serving_op) : string :=
  match op with
  | RequestServiceStatus _ => "data.request_service_status"
  | RequestRoamingStatus _ => "data.request_roaming_status"
  | RequestNrIconType _ => "data.request_nr_icon_type"
  | MakeDormant _ => "data.make_dormant"
  end.

Definition serving_request (op : serving_op) : string * string * json :=
  (serving_method op +:+ ".req", serving_method op +:+ ".rsp", jobj [("slot", of_int slotId_)]).

Definition serving_clients (op : serving_op) : list (C * serving_value) :=
  match op with
  | RequestServiceStatus cb => clients_of (ServiceValue no_data_status) cb
  | RequestRoamingStatus cb => clients_of (RoamingValue no_roaming) cb
  | RequestNrIconType cb => clients_of (IconValue ICON_NONE) cb
  | MakeDormant cb => clients_of NoServingValue cb
  end.

Definition serving_answer (op : serving_op) : option (Envelope json) -> list (C * serving_value * Z) :=
  match op with
  | RequestServiceStatus cb =>
      completeData (ServiceValue no_data_status) (fun d => ServiceValue <$> decode_status d) cb
  | RequestRoamingStatus cb =>
      completeData (RoamingValue no_roaming) (fun d => RoamingValue <$> decode_roaming d) cb
  | RequestNrIconType cb =>
      completeData (IconValue ICON_NONE)
        (fun d => (fun s => IconValue (wireToNrIconType s)) <$> value_string "iconType" "" d) cb
  | MakeDormant cb => completeOrTimeout NoServingValue cb
  end.

(** [drb_status_] is the manager's own member; [publishDrb_] sets it. *)
Definition serving_indicates (ready : bool) (e : serving_event) (x : DrbStatus) :
    outcome (DrbStatus * list serving_note) :=
  match ready, e with
  | true, ServStateEvt_Signal env =>
      match data env with
      | None => Done (x, [])
      | Some d =>
          b ← or_die (value_string "drbStatus" "" d);
          let drb := wireToDrbStatus b in
          s ← or_die (decode_status d);
          Done (drb, [onDrbStatusChanged_onServiceStateChanged drb s])
      end
  | true, ServRoamingEvt_Signal env =>
      match data env with
      | None => Done (x, [])
      | Some d => r ← or_die (decode_roaming d); Done (x, [onRoamingStatusChanged r])
      end
  | _, _ => Done (x, [])
  end.

#[local] Instance serving_ops : NetOps json C L serving_op serving_value serving_note DrbStatus serving_event := {|
  op_request := serving_request;
  op_clients := serving_clients;
  op_answer := serving_answer;
  asks e := match e with AskServing op => Some op | _ => None end;
  indicates := serving_indicates;
  reaps := false; nested := false; refuses := false;
  passes e := match e with AskServing _ => false | _ => true end |}.

(** ** The public interface *)

Local Notation Serving := (NetManager json C L serving_op serving_value serving_note DrbStatus).
Local Notation AOServing := (AONet (json := json) (C := C) (L := L) (Op := serving_op) (V := serving_value)
  (Note := serving_note) (X := DrbStatus) (Ev := serving_event)).

Definition SimulaServingSystemManager (initCb : option C) : Serving := new_net DRB_UNKNOWN initCb.

Definition getDrbStatus (m : Serving) : DrbStatus := own m.

Definition post_serving_op (op : serving_op) : AOServing -> Status * AOServing := post_if_ready (AskServing op).
Definition requestServiceStatus (cb : option C) := post_serving_op (RequestServiceStatus cb).
Definition requestRoamingStatus (cb : option C) := post_serving_op (RequestRoamingStatus cb).
Definition requestNrIconType (cb : option C) := post_serving_op (RequestNrIconType cb).
Definition makeDormant (cb : option C) := post_serving_op (MakeDormant cb).
Definition serving_getSlotId : Z := slotId_.

(** The states: those of the shell, with the operations above. *)
Section States.
Context (topic : string -> string) (paId : string) (now_at counter_at : nat -> Z).
Context (alive_at : nat -> L -> bool).

Local Notation state_fn := (Event (net_event json serving_event) -> Serving -> result).

Definition ServNotReady_St : state_fn := on_NotReady alive_at.
Definition ServReady_St : state_fn := on_Ready topic paId now_at counter_at alive_at.
End States.

Definition serving_subscriptions : list (string * (Envelope json -> net_event json serving_event)) :=
  [("data.subsys_ready_serv.ind", ReadinessEvt_Signal);
   ("data.serv_state.ind", fun env => Other (ServStateEvt_Signal env));
   ("data.serv_roaming.ind", fun env => Other (ServRoamingEvt_Signal env))].

#[local] Instance serving_spec :
  NetSpec json C L serving_op serving_value serving_note DrbStatus serving_event.
Proof.
  apply net_spec_of. intros [cb|cb|cb|cb]; simpl; first [apply or_timeout_laws|apply data_laws].
Qed.
End Serving.

(** ** The bearer status *)

Section Bearer.
Context {json : Type} `{Json json, JsonValues json} {C L : Type} `{EqDecision L}.
Context (slotId_ : Z) (topic : string -> string) (paId : string) (now_at counter_at : nat -> Z).
Context (alive_at : nat -> L -> bool).

#[local] Existing Instance serving_ops.
Local Notation Serving := (NetManager json C L (serving_op (C := C)) serving_value serving_note DrbStatus).
Local Notation Mv := (net_move (json := json) (C := C) (L := L) (Op := serving_op (C := C))
  (Ev := serving_event (json := json) (C := C))).
Local Notation ops := (serving_ops slotId_ (json := json) (C := C) (L := L)).
Local Notation net_run := (net_run topic paId now_at counter_at alive_at (NetOps0 := ops)).

(** The bearer an indication reports while the manager is ready. *)
Definition drb_said (ready : bool) (mv : Mv) : option DrbStatus :=
  match mv with
  | Process (Other (ServStateEvt_Signal env)) =>
      if ready then d ← data env; wireToDrbStatus <$> value_string "drbStatus" "" d else None
  | _ => None
  end.
Definition drb_told (n : net_notification (Note := serving_note)) : option DrbStatus :=
  match n with Notify (onDrbStatusChanged_onServiceStateChanged d _) => Some d | _ => None end.

Local Notation move := (move_step topic paId now_at counter_at alive_at (NetOps0 := ops)).

Lemma serving_state_drb ready env x x' ns :
  serving_indicates (C := C) ready (ServStateEvt_Signal env) x = Done (x', ns) ->
  let said := if ready then d ← data env; wireToDrbStatus <$> value_string "drbStatus" "" d else None in
  omap drb_told (Notify <$> ns) = option_list said /\ x' = default x said.
Proof.
  unfold serving_indicates. destruct ready, (data env) as [d|]; simpl; try (by intros [= <- <-]).
  destruct (value_string "drbStatus" "" d); simpl; [|done]. destruct (decode_status d); simpl; [|done].
  by intros [= <- <-].
Qed.

Lemma serving_roaming_drb ready env x x' ns :
  serving_indicates (C := C) ready (ServRoamingEvt_Signal env) x = Done (x', ns) ->
  omap drb_told (Notify <$> ns) = [] /\ x' = x.
Proof.
  unfold serving_indicates. destruct ready, (data env) as [d|]; simpl; try (by intros [= <- <-]).
  destruct (decode_roaming d); simpl; [|done]. by intros [= <- <-].
Qed.

(** What a move tells of the bearer, and keeps. *)
Lemma move_drb leaf mv (m : Serving) leaf' m' :
  leaf <> NetOperating_St -> move mv (leaf, m) = Done (leaf', m') ->
  let said := drb_said (is_ready leaf) mv in
  omap drb_told (fst (notice (NetOps0 := ops) mv (view_of leaf m))) = option_list said /\
  own m' = default (own m) said.
Proof.
  intros Hl Hs. apply move_own in Hs; [|done].
  destruct mv as [[env|b|e]|op rsp|op|c|x|x]; cbn [notice event_notice drb_said option_list default]; try done.
  - split; [|done]. by apply report_notice_omap.
  - split; [|done]. by apply report_notice_omap.
  - unfold passed in Hs. cbn [asks passes serving_ops v_ready v_own view_of] in *.
    destruct e as [op|env|env]; [done| |]; destruct (is_ready leaf); cbn [negb andb] in *; try done;
      destruct Hs as [ns Hi]; cbn [indicates serving_ops] in *; rewrite Hi; cbn [fst].
    + by apply serving_state_drb in Hi.
    + by apply serving_roaming_drb in Hi.
Qed.

Lemma run_drb mvs leaf (m : Serving) leaf' m' :
  leaf <> NetOperating_St -> net_run mvs (leaf, m) = Done (leaf', m') ->
  own m' = default (own m) (last (heard ready_after drb_said (is_ready leaf) mvs)).
Proof.
  revert leaf m. induction mvs as [|mv mvs IH]; intros leaf m Hl Hr; simpl in *; [by injection Hr as _ <-|].
  apply bind_done' in Hr as ([leaf1 m1] & Hs & Hr). pose proof (move_drb _ _ _ _ _ Hl Hs) as [_ Ho].
  apply move_log in Hs as (Hl1 & Hr1 & _); [|done]. rewrite (IH leaf1 m1 Hl1 Hr), Ho, Hr1.
  destruct (drb_said (is_ready leaf) mv) as [d|]; [|done]. simpl.
  destruct (heard ready_after drb_said (ready_after (is_ready leaf) mv) mvs) as [|d' ds]; [done|].
  rewrite last_cons_cons. by destruct (last (d' :: ds)) eqn:Hd; [|by apply last_None in Hd].
Qed.

Lemma run_drb_told l mvs leaf (m : Serving) leaf' m' :
  (forall n, alive_at n l = true) -> leaf <> NetOperating_St -> Deregister l ∉ mvs ->
  net_run mvs (leaf, m) = Done (leaf', m') ->
  omap drb_told (fst (notices (NetOps0 := ops) (view_of leaf m) mvs)) =
    heard ready_after drb_said (is_ready leaf) mvs.
Proof.
  intros Ha. revert leaf m. induction mvs as [|mv mvs IH]; intros leaf m Hl Hni Hr; simpl in *; [done|].
  apply not_elem_of_cons in Hni as [Hne Hni].
  apply bind_done' in Hr as ([leaf1 m1] & Hs & Hr). pose proof (move_drb _ _ _ _ _ Hl Hs) as [Hd _].
  pose proof (move_log _ _ _ _ _ _ _ _ _ _ Hl Hs) as (Hl1 & Hr1 & _).
  eapply (move_tells topic paId now_at counter_at alive_at l Ha) in Hs as (_ & Hv); [|done|by apply not_eq_sym].
  destruct (notice mv (view_of leaf m)) as [ns v]. destruct Hv as [_ <-]. simpl in Hd.
  specialize (IH leaf1 m1 Hl1 Hni Hr). destruct (notices (view_of leaf1 m1) mvs) as [ns' v'].
  simpl in *. by rewrite omap_app, Hd, IH, Hr1.
Qed.
End Bearer.

(** The data bearer status clients read is the one they were told. In every
    execution of the data serving-system manager getDrbStatus is the bearer status
    of the last service-state indication processed while the manager was ready,
    "unknown" before there is one, whatever was asked or answered and however often
    the service was lost in between; and a listener that stays alive is told, from
    its registration to its withdrawal, exactly the bearer statuses of these
    indications, in order. *)
Theorem bearer_faithful {json} `{Json json, JsonValues json} {C L} `{EqDecision L} (slotId : Z)
    (topic : string -> string) (paId : string) (now_at counter_at : nat -> Z)
    (alive_at : nat -> L -> bool) (cb : option C) (l : L)
    (pre post : list (net_move (json := json) (C := C) (L := L) (Op := serving_op (C := C))
                        (Ev := serving_event (json := json) (C := C)))) (leaf1 leaf : net_state)
    (m1 m : NetManager json C L (serving_op (C := C)) serving_value serving_note DrbStatus) :
  let net_run := net_run topic paId now_at counter_at alive_at (NetOps0 := serving_ops slotId) in
  let said := heard ready_after drb_said in
  (forall n, alive_at n l = true) -> Deregister l ∉ post ->
  net_run pre (NetNotReady_St, SimulaServingSystemManager cb) = Done (leaf1, m1) ->
  net_run (Register l :: post) (leaf1, m1) = Done (leaf, m) ->
  getDrbStatus m1 = default DRB_UNKNOWN (last (said false pre)) /\
  getDrbStatus m = default (getDrbStatus m1) (last (said (is_ready leaf1) post)) /\
  omap drb_told (omap (heard_by l) (log m)) =
    omap drb_told (omap (heard_by l) (log m1)) ++ said (is_ready leaf1) post.
Proof.
  intros net_run0 said Ha Hni Hpre Hpost. pose proof Hpre as Hl. apply run_leaf in Hl.
  apply run_drb in Hpre as H1; [|done].
  apply run_drb in Hpost as H2; [|done].
  pose proof (run_tells topic paId now_at counter_at alive_at l Ha post leaf1
    (set_listeners (listeners_ m1 ++ [l]) m1) leaf m Hl Hni Hpost) as Ht.
  change (view_of leaf1 (set_listeners _ m1)) with (view_of leaf1 m1) in Ht.
  pose proof (run_drb_told slotId topic paId now_at counter_at alive_at l post leaf1
    (set_listeners (listeners_ m1 ++ [l]) m1) leaf m Ha Hl Hni Hpost) as Hd.
  change (view_of leaf1 (set_listeners _ m1)) with (view_of leaf1 m1) in Hd.
  destruct (notices (view_of leaf1 m1) post) as [ns v]. destruct Ht as [[_ Ht] _].
  split; [exact H1|]. split; [exact H2|]. rewrite Ht by (simpl; set_solver). rewrite omap_app. f_equal. exact Hd.
Qed.

Module ServingDemo.
Definition topic_ (name : string) : string := "telaf/" +:+ name.
Definition clock_ (n : nat) : Z := 1000 + Z.of_nat n.
Definition alive_ (n : nat) (l : nat) : bool := true.
Definition Mv : Type := net_move (json := jval) (C := string) (L := nat) (Op := serving_op (C := string))
  (Ev := serving_event (json := jval) (C := string)).
Definition Ma : Type := NetManager jval string nat (serving_op (C := string)) serving_value serving_note DrbStatus.

Definition env (ms : list (string * jval)) : Envelope jval :=
  mkEnvelope 1 "0000000a" 7 "mpss" None (Some (jobj ms)) None.
Definition status (s : string) : Mv := Process (ReadinessEvt_Signal (env [("status", JString s)])).
Definition bearer (s : string) : Mv := Process (Other (ServStateEvt_Signal (env [("drbStatus", JString s)]))).

Definition run_from (mvs : list Mv) (s : net_state * Ma) : net_state * Ma :=
  match net_run (NetOps0 := serving_ops 1) topic_ "pa-test-0001" clock_ clock_ alive_ mvs s with
  | Done x => x
  | Fail _ => s
  end.
(** A bearer while not ready is not heard; a stale request is forgotten. *)
Definition pre : list Mv := [bearer "ACTIVE"; status "AVAILABLE"; bearer "DORMANT"].
Definition post : list Mv :=
  [bearer "ACTIVE"; status "FAILED"; bearer "DORMANT"; Process (Other (AskServing (MakeDormant (Some "c"))))].
Definition at1 := run_from pre (NetNotReady_St, SimulaServingSystemManager (json := jval) (Some "init")).
Definition at2 := run_from (Register 3%nat :: post) at1.
End ServingDemo.

Lemma bearer_faithful_witness :
  getDrbStatus (snd ServingDemo.at1) = DORMANT /\ getDrbStatus (snd ServingDemo.at2) = DRB_ACTIVE /\
  omap drb_told (omap (heard_by 3%nat) (log (snd ServingDemo.at2))) = [DRB_ACTIVE].
Proof.
  destruct (bearer_faithful 1 ServingDemo.topic_ "pa-test-0001" ServingDemo.clock_ ServingDemo.clock_
    ServingDemo.alive_ (Some "init") 3%nat ServingDemo.pre ServingDemo.post (fst ServingDemo.at1)
    (fst ServingDemo.at2) (snd ServingDemo.at1) (snd ServingDemo.at2)) as (H1 & H2 & H3).
  - reflexivity.
  - unfold ServingDemo.post. rewrite !not_elem_of_cons. repeat split; try discriminate. apply not_elem_of_nil.
  - vm_compute. reflexivity.
  - vm_compute. reflexivity.
  - split; [rewrite H1; reflexivity|]. split; [rewrite H2; vm_compute; reflexivity|].
    rewrite H3. vm_compute. reflexivity.
Defined.

(** What a client asked for just before readiness was lost is never answered. *)
Example stale_request_forgotten : omap told (log (snd ServingDemo.at2)) = [].
Proof. by vm_compute. Qed.
