(* ===== verification/TelWire.v ===== *)
(** * Wire forms of the telephony managers (tel/ServingSystemManager.cpp, tel/Phone.cpp)

    Bit sets of radio technologies as the wire's lists of names, and the names of
    the RF bands, bandwidths and radio technologies. *)

From S2P Require Import Prelude Json Manager.

Local Open Scope Z_scope.

(** ** Lists of names and bit sets *)

(** A [std::bitset] as the number of its bits: [set] for each element in turn. *)
Definition mask_of (bits : list Z) : Z := foldl Z.setbit 0 bits.

Section Names.
Context {json : Type} `{Json json, JsonValues json}.

(** [get<std::string>()] *)
Definition as_string (j : json) : option string := if is_string j then Some (get_string j) else None.

(** A member that is a list of names, each decoded. *)
Definition value_names {A} (k : string) (of_wire : string -> A) (d : json) : option (list A) :=
  decode_list k (fun j => of_wire <$> as_string j) d.
End Names.

Lemma mask_snoc l b : mask_of (l ++ [b]) = Z.setbit (mask_of l) b.
Proof. unfold mask_of. by rewrite foldl_snoc. Qed.

Lemma mask_testbit l n :
  0 <= n -> Forall (fun b => 0 <= b) l -> Z.testbit (mask_of l) n = bool_decide (n ∈ l).
Proof.
  intros Hn. induction l as [|b l IH] using rev_ind; intros Hl.
  - by rewrite Z.testbit_0_l.
  - apply Forall_app in Hl as [Hl Hb]. rewrite Forall_singleton in Hb. rewrite mask_snoc, Z.setbit_eqb, IH by done.
    rewrite (bool_decide_ext (n ∈ l ++ [b]) (b = n \/ n ∈ l)).
    + rewrite bool_decide_or. f_equal. destruct (Z.eqb_spec b n); [by rewrite bool_decide_eq_true_2|by rewrite bool_decide_eq_false_2].
    + rewrite elem_of_app, list_elem_of_singleton. naive_solver.
Qed.

(** Bits below [w] make a set of [w] bits. *)
Lemma mask_bound l w : 0 <= w -> Forall (fun b => 0 <= b < w) l -> 0 <= mask_of l < 2 ^ w.
Proof.
  intros Hw Hl. assert (H0 : 0 <= mask_of l).
  { clear Hl. induction l as [|b l IH] using rev_ind; [done|]. rewrite mask_snoc, Z.setbit_spec'.
    destruct (Z.lt_ge_cases b 0); [by rewrite Z.pow_neg_r, Z.lor_0_r|].
    apply Z.lor_nonneg. split; [done|]. by apply Z.pow_nonneg. }
  split; [done|]. apply Z.nle_gt. intros Hge.
  assert (Hlog : w <= Z.log2 (mask_of l)) by (rewrite <- (Z.log2_pow2 w) by done; by apply Z.log2_le_mono).
  assert (Hbit : Z.testbit (mask_of l) (Z.log2 (mask_of l)) = true).
  { apply Z.bit_log2. pose proof (Z.pow_pos_nonneg 2 w). lia. }
  rewrite mask_testbit in Hbit by (apply Z.log2_nonneg || (eapply Forall_impl; [exact Hl|simpl; lia])).
  apply bool_decide_eq_true in Hbit. rewrite Forall_forall in Hl. apply Hl in Hbit. lia.
Qed.

(** A set of [w] bits is the mask of its bits. *)
Lemma mask_self w p :
  0 <= p < 2 ^ Z.of_nat w ->
  mask_of (filter (fun i => Z.testbit p i = true) (seqZ 0 (Z.of_nat w))) = p.
Proof.
  intros Hp. apply Z.bits_inj'. intros n Hn. rewrite mask_testbit; [|done|].
  - destruct (Z.testbit p n) eqn:Hb.
    + apply bool_decide_eq_true. rewrite list_elem_of_filter, elem_of_seqZ. split; [done|].
      split; [done|]. apply Z.nle_gt. intros Hle. rewrite <- (Z.mod_small p (2 ^ Z.of_nat w)), Z.mod_pow2_bits_high in Hb by lia. done.
    + apply bool_decide_eq_false. rewrite list_elem_of_filter, Hb. by intros [? _].
  - apply Forall_forall. intros i. rewrite list_elem_of_filter, elem_of_seqZ. lia.
Qed.

(** ** RF bands and bandwidths *)

Inductive RFBand :=
  | INVALID_BAND
  | BC_0 | BC_1 | BC_3 | BC_4 | BC_5 | BC_6 | BC_7 | BC_8 | BC_9 | BC_10 | BC_11 | BC_12 | BC_13
  | BC_14 | BC_15 | BC_16 | BC_17 | BC_18 | BC_19 | GSM_450 | GSM_480 | GSM_750 | GSM_850
  | GSM_900_EXTENDED | GSM_900_PRIMARY | GSM_900_RAILWAYS | GSM_1800 | GSM_1900 | WCDMA_2100
  | WCDMA_PCS_1900 | WCDMA_DCS_1800 | WCDMA_1700_US | WCDMA_850 | WCDMA_800 | WCDMA_2600
  | WCDMA_900 | WCDMA_1700_JAPAN | WCDMA_1500_JAPAN | WCDMA_850_JAPAN | E_UTRA_OPERATING_BAND_1
  | E_UTRA_OPERATING_BAND_2 | E_UTRA_OPERATING_BAND_3 | E_UTRA_OPERATING_BAND_4
  | E_UTRA_OPERATING_BAND_5 | E_UTRA_OPERATING_BAND_6 | E_UTRA_OPERATING_BAND_7
  | E_UTRA_OPERATING_BAND_8 | E_UTRA_OPERATING_BAND_9 | E_UTRA_OPERATING_BAND_10
  | E_UTRA_OPERATING_BAND_11 | E_UTRA_OPERATING_BAND_12 | E_UTRA_OPERATING_BAND_13
  | E_UTRA_OPERATING_BAND_14 | E_UTRA_OPERATING_BAND_17 | E_UTRA_OPERATING_BAND_33
  | E_UTRA_OPERATING_BAND_34 | E_UTRA_OPERATING_BAND_35 | E_UTRA_OPERATING_BAND_36
  | E_UTRA_OPERATING_BAND_37 | E_UTRA_OPERATING_BAND_38 | E_UTRA_OPERATING_BAND_39
  | E_UTRA_OPERATING_BAND_40 | E_UTRA_OPERATING_BAND_18 | E_UTRA_OPERATING_BAND_19
  | E_UTRA_OPERATING_BAND_20 | E_UTRA_OPERATING_BAND_21 | E_UTRA_OPERATING_BAND_24
  | E_UTRA_OPERATING_BAND_25 | E_UTRA_OPERATING_BAND_41 | E_UTRA_OPERATING_BAND_42
  | E_UTRA_OPERATING_BAND_43 | E_UTRA_OPERATING_BAND_23 | E_UTRA_OPERATING_BAND_26
  | E_UTRA_OPERATING_BAND_32 | E_UTRA_OPERATING_BAND_125 | E_UTRA_OPERATING_BAND_126
  | E_UTRA_OPERATING_BAND_127 | E_UTRA_OPERATING_BAND_28 | E_UTRA_OPERATING_BAND_29
  | E_UTRA_OPERATING_BAND_30 | E_UTRA_OPERATING_BAND_66 | E_UTRA_OPERATING_BAND_250
  | E_UTRA_OPERATING_BAND_46 | E_UTRA_OPERATING_BAND_27 | E_UTRA_OPERATING_BAND_31
  | E_UTRA_OPERATING_BAND_71 | E_UTRA_OPERATING_BAND_47 | E_UTRA_OPERATING_BAND_48
  | E_UTRA_OPERATING_BAND_67 | E_UTRA_OPERATING_BAND_68 | E_UTRA_OPERATING_BAND_49
  | E_UTRA_OPERATING_BAND_85 | E_UTRA_OPERATING_BAND_72 | E_UTRA_OPERATING_BAND_73
  | E_UTRA_OPERATING_BAND_86 | E_UTRA_OPERATING_BAND_53 | E_UTRA_OPERATING_BAND_87
  | E_UTRA_OPERATING_BAND_88 | E_UTRA_OPERATING_BAND_70 | TDSCDMA_BAND_A | TDSCDMA_BAND_B
  | TDSCDMA_BAND_C | TDSCDMA_BAND_D | TDSCDMA_BAND_E | TDSCDMA_BAND_F | NR5G_BAND_1 | NR5G_BAND_2
  | NR5G_BAND_3 | NR5G_BAND_5 | NR5G_BAND_7 | NR5G_BAND_8 | NR5G_BAND_20 | NR5G_BAND_28
  | NR5G_BAND_38 | NR5G_BAND_41 | NR5G_BAND_50 | NR5G_BAND_51 | NR5G_BAND_66 | NR5G_BAND_70
  | NR5G_BAND_71 | NR5G_BAND_74 | NR5G_BAND_75 | NR5G_BAND_76 | NR5G_BAND_77 | NR5G_BAND_78
  | NR5G_BAND_79 | NR5G_BAND_80 | NR5G_BAND_81 | NR5G_BAND_82 | NR5G_BAND_83 | NR5G_BAND_84
  | NR5G_BAND_85 | NR5G_BAND_257 | NR5G_BAND_258 | NR5G_BAND_259 | NR5G_BAND_260 | NR5G_BAND_261
  | NR5G_BAND_12 | NR5G_BAND_25 | NR5G_BAND_34 | NR5G_BAND_39 | NR5G_BAND_40 | NR5G_BAND_65
  | NR5G_BAND_86 | NR5G_BAND_48 | NR5G_BAND_14 | NR5G_BAND_13 | NR5G_BAND_18 | NR5G_BAND_26
  | NR5G_BAND_30 | NR5G_BAND_29 | NR5G_BAND_53 | NR5G_BAND_46 | NR5G_BAND_91 | NR5G_BAND_92
  | NR5G_BAND_93 | NR5G_BAND_94.

Inductive RFBandWidth :=
  | INVALID_BANDWIDTH
  | LTE_BW_NRB_6 | LTE_BW_NRB_15 | LTE_BW_NRB_25 | LTE_BW_NRB_50 | LTE_BW_NRB_75 | LTE_BW_NRB_100
  | NR5G_BW_NRB_5 | NR5G_BW_NRB_10 | NR5G_BW_NRB_15 | NR5G_BW_NRB_20 | NR5G_BW_NRB_25
  | NR5G_BW_NRB_30 | NR5G_BW_NRB_40 | NR5G_BW_NRB_50 | NR5G_BW_NRB_60 | NR5G_BW_NRB_80
  | NR5G_BW_NRB_90 | NR5G_BW_NRB_100 | NR5G_BW_NRB_200 | NR5G_BW_NRB_400 | GSM_BW_NRB_2
  | TDSCDMA_BW_NRB_2 | WCDMA_BW_NRB_5 | WCDMA_BW_NRB_10 | NR5G_BW_NRB_70.

(** A table of names is searched in order, like the chain of comparisons. *)
Fixpoint of_table {A} (def : A) (t : list (string * A)) (s : string) : A :=
  match t with
  | [] => def
  | (n, a) :: t => if decide (s = n) then a else of_table def t s
  end.

Definition rf_band_table : list (string * RFBand) :=
  [("BC_0", BC_0); ("BC_1", BC_1); ("BC_3", BC_3); ("BC_4", BC_4); ("BC_5", BC_5);
   ("BC_6", BC_6); ("BC_7", BC_7); ("BC_8", BC_8); ("BC_9", BC_9); ("BC_10", BC_10);
   ("BC_11", BC_11); ("BC_12", BC_12); ("BC_13", BC_13); ("BC_14", BC_14); ("BC_15", BC_15);
   ("BC_16", BC_16); ("BC_17", BC_17); ("BC_18", BC_18); ("BC_19", BC_19); ("GSM_450", GSM_450);
   ("GSM_480", GSM_480); ("GSM_750", GSM_750); ("GSM_850", GSM_850);
   ("GSM_900_EXTENDED", GSM_900_EXTENDED); ("GSM_900_PRIMARY", GSM_900_PRIMARY);
   ("GSM_900_RAILWAYS", GSM_900_RAILWAYS); ("GSM_1800", GSM_1800); ("GSM_1900", GSM_1900);
   ("WCDMA_2100", WCDMA_2100); ("WCDMA_PCS_1900", WCDMA_PCS_1900);
   ("WCDMA_DCS_1800", WCDMA_DCS_1800); ("WCDMA_1700_US", WCDMA_1700_US);
   ("WCDMA_850", WCDMA_850); ("WCDMA_800", WCDMA_800); ("WCDMA_2600", WCDMA_2600);
   ("WCDMA_900", WCDMA_900); ("WCDMA_1700_JAPAN", WCDMA_1700_JAPAN);
   ("WCDMA_1500_JAPAN", WCDMA_1500_JAPAN); ("WCDMA_850_JAPAN", WCDMA_850_JAPAN);
   ("E_UTRA_OPERATING_BAND_1", E_UTRA_OPERATING_BAND_1);
   ("E_UTRA_OPERATING_BAND_2", E_UTRA_OPERATING_BAND_2);
   ("E_UTRA_OPERATING_BAND_3", E_UTRA_OPERATING_BAND_3);
   ("E_UTRA_OPERATING_BAND_4", E_UTRA_OPERATING_BAND_4);
   ("E_UTRA_OPERATING_BAND_5", E_UTRA_OPERATING_BAND_5);
   ("E_UTRA_OPERATING_BAND_6", E_UTRA_OPERATING_BAND_6);
   ("E_UTRA_OPERATING_BAND_7", E_UTRA_OPERATING_BAND_7);
   ("E_UTRA_OPERATING_BAND_8", E_UTRA_OPERATING_BAND_8);
   ("E_UTRA_OPERATING_BAND_9", E_UTRA_OPERATING_BAND_9);
   ("E_UTRA_OPERATING_BAND_10", E_UTRA_OPERATING_BAND_10);
   ("E_UTRA_OPERATING_BAND_11", E_UTRA_OPERATING_BAND_11);
   ("E_UTRA_OPERATING_BAND_12", E_UTRA_OPERATING_BAND_12);
   ("E_UTRA_OPERATING_BAND_13", E_UTRA_OPERATING_BAND_13);
   ("E_UTRA_OPERATING_BAND_14", E_UTRA_OPERATING_BAND_14);
   ("E_UTRA_OPERATING_BAND_17", E_UTRA_OPERATING_BAND_17);
   ("E_UTRA_OPERATING_BAND_33", E_UTRA_OPERATING_BAND_33);
   ("E_UTRA_OPERATING_BAND_34", E_UTRA_OPERATING_BAND_34);
   ("E_UTRA_OPERATING_BAND_35", E_UTRA_OPERATING_BAND_35);
   ("E_UTRA_OPERATING_BAND_36", E_UTRA_OPERATING_BAND_36);
   ("E_UTRA_OPERATING_BAND_37", E_UTRA_OPERATING_BAND_37);
   ("E_UTRA_OPERATING_BAND_38", E_UTRA_OPERATING_BAND_38);
   ("E_UTRA_OPERATING_BAND_39", E_UTRA_OPERATING_BAND_39);
   ("E_UTRA_OPERATING_BAND_40", E_UTRA_OPERATING_BAND_40);
   ("E_UTRA_OPERATING_BAND_18", E_UTRA_OPERATING_BAND_18);
   ("E_UTRA_OPERATING_BAND_19", E_UTRA_OPERATING_BAND_19);
   ("E_UTRA_OPERATING_BAND_20", E_UTRA_OPERATING_BAND_20);
   ("E_UTRA_OPERATING_BAND_21", E_UTRA_OPERATING_BAND_21);
   ("E_UTRA_OPERATING_BAND_24", E_UTRA_OPERATING_BAND_24);
   ("E_UTRA_OPERATING_BAND_25", E_UTRA_OPERATING_BAND_25);
   ("E_UTRA_OPERATING_BAND_41", E_UTRA_OPERATING_BAND_41);
   ("E_UTRA_OPERATING_BAND_42", E_UTRA_OPERATING_BAND_42);
   ("E_UTRA_OPERATING_BAND_43", E_UTRA_OPERATING_BAND_43);
   ("E_UTRA_OPERATING_BAND_23", E_UTRA_OPERATING_BAND_23);
   ("E_UTRA_OPERATING_BAND_26", E_UTRA_OPERATING_BAND_26);
   ("E_UTRA_OPERATING_BAND_32", E_UTRA_OPERATING_BAND_32);
   ("E_UTRA_OPERATING_BAND_125", E_UTRA_OPERATING_BAND_125);
   ("E_UTRA_OPERATING_BAND_126", E_UTRA_OPERATING_BAND_126);
   ("E_UTRA_OPERATING_BAND_127", E_UTRA_OPERATING_BAND_127);
   ("E_UTRA_OPERATING_BAND_28", E_UTRA_OPERATING_BAND_28);
   ("E_UTRA_OPERATING_BAND_29", E_UTRA_OPERATING_BAND_29);
   ("E_UTRA_OPERATING_BAND_30", E_UTRA_OPERATING_BAND_30);
   ("E_UTRA_OPERATING_BAND_66", E_UTRA_OPERATING_BAND_66);
   ("E_UTRA_OPERATING_BAND_250", E_UTRA_OPERATING_BAND_250);
   ("E_UTRA_OPERATING_BAND_46", E_UTRA_OPERATING_BAND_46);
   ("E_UTRA_OPERATING_BAND_27", E_UTRA_OPERATING_BAND_27);
   ("E_UTRA_OPERATING_BAND_31", E_UTRA_OPERATING_BAND_31);
   ("E_UTRA_OPERATING_BAND_71", E_UTRA_OPERATING_BAND_71);
   ("E_UTRA_OPERATING_BAND_47", E_UTRA_OPERATING_BAND_47);
   ("E_UTRA_OPERATING_BAND_48", E_UTRA_OPERATING_BAND_48);
   ("E_UTRA_OPERATING_BAND_67", E_UTRA_OPERATING_BAND_67);
   ("E_UTRA_OPERATING_BAND_68", E_UTRA_OPERATING_BAND_68);
   ("E_UTRA_OPERATING_BAND_49", E_UTRA_OPERATING_BAND_49);
   ("E_UTRA_OPERATING_BAND_85", E_UTRA_OPERATING_BAND_85);
   ("E_UTRA_OPERATING_BAND_72", E_UTRA_OPERATING_BAND_72);
   ("E_UTRA_OPERATING_BAND_73", E_UTRA_OPERATING_BAND_73);
   ("E_UTRA_OPERATING_BAND_86", E_UTRA_OPERATING_BAND_86);
   ("E_UTRA_OPERATING_BAND_53", E_UTRA_OPERATING_BAND_53);
   ("E_UTRA_OPERATING_BAND_87", E_UTRA_OPERATING_BAND_87);
   ("E_UTRA_OPERATING_BAND_88", E_UTRA_OPERATING_BAND_88);
   ("E_UTRA_OPERATING_BAND_70", E_UTRA_OPERATING_BAND_70); ("TDSCDMA_BAND_A", TDSCDMA_BAND_A);
   ("TDSCDMA_BAND_B", TDSCDMA_BAND_B); ("TDSCDMA_BAND_C", TDSCDMA_BAND_C);
   ("TDSCDMA_BAND_D", TDSCDMA_BAND_D); ("TDSCDMA_BAND_E", TDSCDMA_BAND_E);
   ("TDSCDMA_BAND_F", TDSCDMA_BAND_F); ("NR5G_BAND_1", NR5G_BAND_1);
   ("NR5G_BAND_2", NR5G_BAND_2); ("NR5G_BAND_3", NR5G_BAND_3); ("NR5G_BAND_5", NR5G_BAND_5);
   ("NR5G_BAND_7", NR5G_BAND_7); ("NR5G_BAND_8", NR5G_BAND_8); ("NR5G_BAND_20", NR5G_BAND_20);
   ("NR5G_BAND_28", NR5G_BAND_28); ("NR5G_BAND_38", NR5G_BAND_38);
   ("NR5G_BAND_41", NR5G_BAND_41); ("NR5G_BAND_50", NR5G_BAND_50);
   ("NR5G_BAND_51", NR5G_BAND_51); ("NR5G_BAND_66", NR5G_BAND_66);
   ("NR5G_BAND_70", NR5G_BAND_70); ("NR5G_BAND_71", NR5G_BAND_71);
   ("NR5G_BAND_74", NR5G_BAND_74); ("NR5G_BAND_75", NR5G_BAND_75);
   ("NR5G_BAND_76", NR5G_BAND_76); ("NR5G_BAND_77", NR5G_BAND_77);
   ("NR5G_BAND_78", NR5G_BAND_78); ("NR5G_BAND_79", NR5G_BAND_79);
   ("NR5G_BAND_80", NR5G_BAND_80); ("NR5G_BAND_81", NR5G_BAND_81);
   ("NR5G_BAND_82", NR5G_BAND_82); ("NR5G_BAND_83", NR5G_BAND_83);
   ("NR5G_BAND_84", NR5G_BAND_84); ("NR5G_BAND_85", NR5G_BAND_85);
   ("NR5G_BAND_257", NR5G_BAND_257); ("NR5G_BAND_258", NR5G_BAND_258);
   ("NR5G_BAND_259", NR5G_BAND_259); ("NR5G_BAND_260", NR5G_BAND_260);
   ("NR5G_BAND_261", NR5G_BAND_261); ("NR5G_BAND_12", NR5G_BAND_12);
   ("NR5G_BAND_25", NR5G_BAND_25); ("NR5G_BAND_34", NR5G_BAND_34);
   ("NR5G_BAND_39", NR5G_BAND_39); ("NR5G_BAND_40", NR5G_BAND_40);
   ("NR5G_BAND_65", NR5G_BAND_65); ("NR5G_BAND_86", NR5G_BAND_86);
   ("NR5G_BAND_48", NR5G_BAND_48); ("NR5G_BAND_14", NR5G_BAND_14);
   ("NR5G_BAND_13", NR5G_BAND_13); ("NR5G_BAND_18", NR5G_BAND_18);
   ("NR5G_BAND_26", NR5G_BAND_26); ("NR5G_BAND_30", NR5G_BAND_30);
   ("NR5G_BAND_29", NR5G_BAND_29); ("NR5G_BAND_53", NR5G_BAND_53);
   ("NR5G_BAND_46", NR5G_BAND_46); ("NR5G_BAND_91", NR5G_BAND_91);
   ("NR5G_BAND_92", NR5G_BAND_92); ("NR5G_BAND_93", NR5G_BAND_93); ("NR5G_BAND_94", NR5G_BAND_94)].

Definition wireToRFBand : string -> RFBand := of_table INVALID_BAND rf_band_table.

Definition rf_width_table : list (string * RFBandWidth) :=
  [("LTE_BW_NRB_6", LTE_BW_NRB_6); ("LTE_BW_NRB_15", LTE_BW_NRB_15);
   ("LTE_BW_NRB_25", LTE_BW_NRB_25); ("LTE_BW_NRB_50", LTE_BW_NRB_50);
   ("LTE_BW_NRB_75", LTE_BW_NRB_75); ("LTE_BW_NRB_100", LTE_BW_NRB_100);
   ("NR5G_BW_NRB_5", NR5G_BW_NRB_5); ("NR5G_BW_NRB_10", NR5G_BW_NRB_10);
   ("NR5G_BW_NRB_15", NR5G_BW_NRB_15); ("NR5G_BW_NRB_20", NR5G_BW_NRB_20);
   ("NR5G_BW_NRB_25", NR5G_BW_NRB_25); ("NR5G_BW_NRB_30", NR5G_BW_NRB_30);
   ("NR5G_BW_NRB_40", NR5G_BW_NRB_40); ("NR5G_BW_NRB_50", NR5G_BW_NRB_50);
   ("NR5G_BW_NRB_60", NR5G_BW_NRB_60); ("NR5G_BW_NRB_80", NR5G_BW_NRB_80);
   ("NR5G_BW_NRB_90", NR5G_BW_NRB_90); ("NR5G_BW_NRB_100", NR5G_BW_NRB_100);
   ("NR5G_BW_NRB_200", NR5G_BW_NRB_200); ("NR5G_BW_NRB_400", NR5G_BW_NRB_400);
   ("GSM_BW_NRB_2", GSM_BW_NRB_2); ("TDSCDMA_BW_NRB_2", TDSCDMA_BW_NRB_2);
   ("WCDMA_BW_NRB_5", WCDMA_BW_NRB_5); ("WCDMA_BW_NRB_10", WCDMA_BW_NRB_10);
   ("NR5G_BW_NRB_70", NR5G_BW_NRB_70)].

Definition wireToRFBandWidth : string -> RFBandWidth := of_table INVALID_BANDWIDTH rf_width_table.

(** The names the modem uses: the enumerators'. *)
Definition rf_band_name (b : RFBand) : string :=
  match b with
  | INVALID_BAND => ""
  | BC_0 => "BC_0" | BC_1 => "BC_1" | BC_3 => "BC_3" | BC_4 => "BC_4" | BC_5 => "BC_5"
  | BC_6 => "BC_6" | BC_7 => "BC_7" | BC_8 => "BC_8" | BC_9 => "BC_9" | BC_10 => "BC_10"
  | BC_11 => "BC_11" | BC_12 => "BC_12" | BC_13 => "BC_13" | BC_14 => "BC_14" | BC_15 => "BC_15"
  | BC_16 => "BC_16" | BC_17 => "BC_17" | BC_18 => "BC_18" | BC_19 => "BC_19"
  | GSM_450 => "GSM_450" | GSM_480 => "GSM_480" | GSM_750 => "GSM_750" | GSM_850 => "GSM_850"
  | GSM_900_EXTENDED => "GSM_900_EXTENDED" | GSM_900_PRIMARY => "GSM_900_PRIMARY"
  | GSM_900_RAILWAYS => "GSM_900_RAILWAYS" | GSM_1800 => "GSM_1800" | GSM_1900 => "GSM_1900"
  | WCDMA_2100 => "WCDMA_2100" | WCDMA_PCS_1900 => "WCDMA_PCS_1900"
  | WCDMA_DCS_1800 => "WCDMA_DCS_1800" | WCDMA_1700_US => "WCDMA_1700_US"
  | WCDMA_850 => "WCDMA_850" | WCDMA_800 => "WCDMA_800" | WCDMA_2600 => "WCDMA_2600"
  | WCDMA_900 => "WCDMA_900" | WCDMA_1700_JAPAN => "WCDMA_1700_JAPAN"
  | WCDMA_1500_JAPAN => "WCDMA_1500_JAPAN" | WCDMA_850_JAPAN => "WCDMA_850_JAPAN"
  | E_UTRA_OPERATING_BAND_1 => "E_UTRA_OPERATING_BAND_1"
  | E_UTRA_OPERATING_BAND_2 => "E_UTRA_OPERATING_BAND_2"
  | E_UTRA_OPERATING_BAND_3 => "E_UTRA_OPERATING_BAND_3"
  | E_UTRA_OPERATING_BAND_4 => "E_UTRA_OPERATING_BAND_4"
  | E_UTRA_OPERATING_BAND_5 => "E_UTRA_OPERATING_BAND_5"
  | E_UTRA_OPERATING_BAND_6 => "E_UTRA_OPERATING_BAND_6"
  | E_UTRA_OPERATING_BAND_7 => "E_UTRA_OPERATING_BAND_7"
  | E_UTRA_OPERATING_BAND_8 => "E_UTRA_OPERATING_BAND_8"
  | E_UTRA_OPERATING_BAND_9 => "E_UTRA_OPERATING_BAND_9"
  | E_UTRA_OPERATING_BAND_10 => "E_UTRA_OPERATING_BAND_10"
  | E_UTRA_OPERATING_BAND_11 => "E_UTRA_OPERATING_BAND_11"
  | E_UTRA_OPERATING_BAND_12 => "E_UTRA_OPERATING_BAND_12"
  | E_UTRA_OPERATING_BAND_13 => "E_UTRA_OPERATING_BAND_13"
  | E_UTRA_OPERATING_BAND_14 => "E_UTRA_OPERATING_BAND_14"
  | E_UTRA_OPERATING_BAND_17 => "E_UTRA_OPERATING_BAND_17"
  | E_UTRA_OPERATING_BAND_33 => "E_UTRA_OPERATING_BAND_33"
  | E_UTRA_OPERATING_BAND_34 => "E_UTRA_OPERATING_BAND_34"
  | E_UTRA_OPERATING_BAND_35 => "E_UTRA_OPERATING_BAND_35"
  | E_UTRA_OPERATING_BAND_36 => "E_UTRA_OPERATING_BAND_36"
  | E_UTRA_OPERATING_BAND_37 => "E_UTRA_OPERATING_BAND_37"
  | E_UTRA_OPERATING_BAND_38 => "E_UTRA_OPERATING_BAND_38"
  | E_UTRA_OPERATING_BAND_39 => "E_UTRA_OPERATING_BAND_39"
  | E_UTRA_OPERATING_BAND_40 => "E_UTRA_OPERATING_BAND_40"
  | E_UTRA_OPERATING_BAND_18 => "E_UTRA_OPERATING_BAND_18"
  | E_UTRA_OPERATING_BAND_19 => "E_UTRA_OPERATING_BAND_19"
  | E_UTRA_OPERATING_BAND_20 => "E_UTRA_OPERATING_BAND_20"
  | E_UTRA_OPERATING_BAND_21 => "E_UTRA_OPERATING_BAND_21"
  | E_UTRA_OPERATING_BAND_24 => "E_UTRA_OPERATING_BAND_24"
  | E_UTRA_OPERATING_BAND_25 => "E_UTRA_OPERATING_BAND_25"
  | E_UTRA_OPERATING_BAND_41 => "E_UTRA_OPERATING_BAND_41"
  | E_UTRA_OPERATING_BAND_42 => "E_UTRA_OPERATING_BAND_42"
  | E_UTRA_OPERATING_BAND_43 => "E_UTRA_OPERATING_BAND_43"
  | E_UTRA_OPERATING_BAND_23 => "E_UTRA_OPERATING_BAND_23"
  | E_UTRA_OPERATING_BAND_26 => "E_UTRA_OPERATING_BAND_26"
  | E_UTRA_OPERATING_BAND_32 => "E_UTRA_OPERATING_BAND_32"
  | E_UTRA_OPERATING_BAND_125 => "E_UTRA_OPERATING_BAND_125"
  | E_UTRA_OPERATING_BAND_126 => "E_UTRA_OPERATING_BAND_126"
  | E_UTRA_OPERATING_BAND_127 => "E_UTRA_OPERATING_BAND_127"
  | E_UTRA_OPERATING_BAND_28 => "E_UTRA_OPERATING_BAND_28"
  | E_UTRA_OPERATING_BAND_29 => "E_UTRA_OPERATING_BAND_29"
  | E_UTRA_OPERATING_BAND_30 => "E_UTRA_OPERATING_BAND_30"
  | E_UTRA_OPERATING_BAND_66 => "E_UTRA_OPERATING_BAND_66"
  | E_UTRA_OPERATING_BAND_250 => "E_UTRA_OPERATING_BAND_250"
  | E_UTRA_OPERATING_BAND_46 => "E_UTRA_OPERATING_BAND_46"
  | E_UTRA_OPERATING_BAND_27 => "E_UTRA_OPERATING_BAND_27"
  | E_UTRA_OPERATING_BAND_31 => "E_UTRA_OPERATING_BAND_31"
  | E_UTRA_OPERATING_BAND_71 => "E_UTRA_OPERATING_BAND_71"
  | E_UTRA_OPERATING_BAND_47 => "E_UTRA_OPERATING_BAND_47"
  | E_UTRA_OPERATING_BAND_48 => "E_UTRA_OPERATING_BAND_48"
  | E_UTRA_OPERATING_BAND_67 => "E_UTRA_OPERATING_BAND_67"
  | E_UTRA_OPERATING_BAND_68 => "E_UTRA_OPERATING_BAND_68"
  | E_UTRA_OPERATING_BAND_49 => "E_UTRA_OPERATING_BAND_49"
  | E_UTRA_OPERATING_BAND_85 => "E_UTRA_OPERATING_BAND_85"
  | E_UTRA_OPERATING_BAND_72 => "E_UTRA_OPERATING_BAND_72"
  | E_UTRA_OPERATING_BAND_73 => "E_UTRA_OPERATING_BAND_73"
  | E_UTRA_OPERATING_BAND_86 => "E_UTRA_OPERATING_BAND_86"
  | E_UTRA_OPERATING_BAND_53 => "E_UTRA_OPERATING_BAND_53"
  | E_UTRA_OPERATING_BAND_87 => "E_UTRA_OPERATING_BAND_87"
  | E_UTRA_OPERATING_BAND_88 => "E_UTRA_OPERATING_BAND_88"
  | E_UTRA_OPERATING_BAND_70 => "E_UTRA_OPERATING_BAND_70" | TDSCDMA_BAND_A => "TDSCDMA_BAND_A"
  | TDSCDMA_BAND_B => "TDSCDMA_BAND_B" | TDSCDMA_BAND_C => "TDSCDMA_BAND_C"
  | TDSCDMA_BAND_D => "TDSCDMA_BAND_D" | TDSCDMA_BAND_E => "TDSCDMA_BAND_E"
  | TDSCDMA_BAND_F => "TDSCDMA_BAND_F" | NR5G_BAND_1 => "NR5G_BAND_1"
  | NR5G_BAND_2 => "NR5G_BAND_2" | NR5G_BAND_3 => "NR5G_BAND_3" | NR5G_BAND_5 => "NR5G_BAND_5"
  | NR5G_BAND_7 => "NR5G_BAND_7" | NR5G_BAND_8 => "NR5G_BAND_8" | NR5G_BAND_20 => "NR5G_BAND_20"
  | NR5G_BAND_28 => "NR5G_BAND_28" | NR5G_BAND_38 => "NR5G_BAND_38"
  | NR5G_BAND_41 => "NR5G_BAND_41" | NR5G_BAND_50 => "NR5G_BAND_50"
  | NR5G_BAND_51 => "NR5G_BAND_51" | NR5G_BAND_66 => "NR5G_BAND_66"
  | NR5G_BAND_70 => "NR5G_BAND_70" | NR5G_BAND_71 => "NR5G_BAND_71"
  | NR5G_BAND_74 => "NR5G_BAND_74" | NR5G_BAND_75 => "NR5G_BAND_75"
  | NR5G_BAND_76 => "NR5G_BAND_76" | NR5G_BAND_77 => "NR5G_BAND_77"
  | NR5G_BAND_78 => "NR5G_BAND_78" | NR5G_BAND_79 => "NR5G_BAND_79"
  | NR5G_BAND_80 => "NR5G_BAND_80" | NR5G_BAND_81 => "NR5G_BAND_81"
  | NR5G_BAND_82 => "NR5G_BAND_82" | NR5G_BAND_83 => "NR5G_BAND_83"
  | NR5G_BAND_84 => "NR5G_BAND_84" | NR5G_BAND_85 => "NR5G_BAND_85"
  | NR5G_BAND_257 => "NR5G_BAND_257" | NR5G_BAND_258 => "NR5G_BAND_258"
  | NR5G_BAND_259 => "NR5G_BAND_259" | NR5G_BAND_260 => "NR5G_BAND_260"
  | NR5G_BAND_261 => "NR5G_BAND_261" | NR5G_BAND_12 => "NR5G_BAND_12"
  | NR5G_BAND_25 => "NR5G_BAND_25" | NR5G_BAND_34 => "NR5G_BAND_34"
  | NR5G_BAND_39 => "NR5G_BAND_39" | NR5G_BAND_40 => "NR5G_BAND_40"
  | NR5G_BAND_65 => "NR5G_BAND_65" | NR5G_BAND_86 => "NR5G_BAND_86"
  | NR5G_BAND_48 => "NR5G_BAND_48" | NR5G_BAND_14 => "NR5G_BAND_14"
  | NR5G_BAND_13 => "NR5G_BAND_13" | NR5G_BAND_18 => "NR5G_BAND_18"
  | NR5G_BAND_26 => "NR5G_BAND_26" | NR5G_BAND_30 => "NR5G_BAND_30"
  | NR5G_BAND_29 => "NR5G_BAND_29" | NR5G_BAND_53 => "NR5G_BAND_53"
  | NR5G_BAND_46 => "NR5G_BAND_46" | NR5G_BAND_91 => "NR5G_BAND_91"
  | NR5G_BAND_92 => "NR5G_BAND_92" | NR5G_BAND_93 => "NR5G_BAND_93"
  | NR5G_BAND_94 => "NR5G_BAND_94"
  end.

Definition rf_width_name (b : RFBandWidth) : string :=
  match b with
  | INVALID_BANDWIDTH => ""
  | LTE_BW_NRB_6 => "LTE_BW_NRB_6" | LTE_BW_NRB_15 => "LTE_BW_NRB_15"
  | LTE_BW_NRB_25 => "LTE_BW_NRB_25" | LTE_BW_NRB_50 => "LTE_BW_NRB_50"
  | LTE_BW_NRB_75 => "LTE_BW_NRB_75" | LTE_BW_NRB_100 => "LTE_BW_NRB_100"
  | NR5G_BW_NRB_5 => "NR5G_BW_NRB_5" | NR5G_BW_NRB_10 => "NR5G_BW_NRB_10"
  | NR5G_BW_NRB_15 => "NR5G_BW_NRB_15" | NR5G_BW_NRB_20 => "NR5G_BW_NRB_20"
  | NR5G_BW_NRB_25 => "NR5G_BW_NRB_25" | NR5G_BW_NRB_30 => "NR5G_BW_NRB_30"
  | NR5G_BW_NRB_40 => "NR5G_BW_NRB_40" | NR5G_BW_NRB_50 => "NR5G_BW_NRB_50"
  | NR5G_BW_NRB_60 => "NR5G_BW_NRB_60" | NR5G_BW_NRB_80 => "NR5G_BW_NRB_80"
  | NR5G_BW_NRB_90 => "NR5G_BW_NRB_90" | NR5G_BW_NRB_100 => "NR5G_BW_NRB_100"
  | NR5G_BW_NRB_200 => "NR5G_BW_NRB_200" | NR5G_BW_NRB_400 => "NR5G_BW_NRB_400"
  | GSM_BW_NRB_2 => "GSM_BW_NRB_2" | TDSCDMA_BW_NRB_2 => "TDSCDMA_BW_NRB_2"
  | WCDMA_BW_NRB_5 => "WCDMA_BW_NRB_5" | WCDMA_BW_NRB_10 => "WCDMA_BW_NRB_10"
  | NR5G_BW_NRB_70 => "NR5G_BW_NRB_70"
  end.

(** ** Radio technologies (telux/tel/PhoneDefines.hpp) *)

Inductive RadioTechnology :=
  | RADIO_TECH_UNKNOWN | RADIO_TECH_GPRS | RADIO_TECH_EDGE | RADIO_TECH_UMTS | RADIO_TECH_IS95A
  | RADIO_TECH_IS95B | RADIO_TECH_1xRTT | RADIO_TECH_EVDO_0 | RADIO_TECH_EVDO_A | RADIO_TECH_HSDPA
  | RADIO_TECH_HSUPA | RADIO_TECH_HSPA | RADIO_TECH_EVDO_B | RADIO_TECH_EHRPD | RADIO_TECH_LTE
  | RADIO_TECH_HSPAP | RADIO_TECH_GSM | RADIO_TECH_TD_SCDMA | RADIO_TECH_IWLAN | RADIO_TECH_LTE_CA
  | RADIO_TECH_NR5G | RADIO_TECH_NB1_NTN.

(** The ones the simulated modem reports. *)
Definition wireToRadioTechnology (s : string) : RadioTechnology :=
  if decide (s = "RADIO_TECH_GPRS") then RADIO_TECH_GPRS
  else if decide (s = "RADIO_TECH_EDGE") then RADIO_TECH_EDGE
  else if decide (s = "RADIO_TECH_UMTS") then RADIO_TECH_UMTS
  else if decide (s = "RADIO_TECH_LTE") then RADIO_TECH_LTE
  else if decide (s = "RADIO_TECH_GSM") then RADIO_TECH_GSM
  else if decide (s = "RADIO_TECH_TD_SCDMA") then RADIO_TECH_TD_SCDMA
  else if decide (s = "RADIO_TECH_LTE_CA") then RADIO_TECH_LTE_CA
  else if decide (s = "RADIO_TECH_NR5G") then RADIO_TECH_NR5G
  else RADIO_TECH_UNKNOWN.
