(* ===== verification/TelShell.v ===== *)
(** * The shell of the telephony managers (tel/)

    PhoneManager, NetworkSelectionManager and ServingSystemManager share another
    shell than the network managers: the leaves are roots; init callbacks wait in
    a list that the worker alone touches and are called by it; readiness is
    announced to the listeners every time; a failed service is not distinguished
    from one that has not come up; and an operation that finds the service gone is
    answered "subsystem unavailable".  The shell is written once, over the class
    [TelOps] of what the three differ in; [TelSpec] states what they promise of
    their answers.  PhoneManager.v, NetworkSelection.v and TelServing.v give the
    instances. *)

From S2P Require Import Prelude Hsm HsmSpec ActiveObject Json Envelope InitGate Manager Answers.

Local Open Scope Z_scope.

Inductive tel_state := TelNotReady_St | TelReady_St.

#[export] Instance tel_state_eq_dec : EqDecision tel_state.
Proof. solve_decision. Defined.

Section TelTypes.
Context {json C L : Type}.
(** Per manager, as in NetShell.v. *)
Context {Op V Note X Ev : Type}.

(** A callback posted with [SetInitCb] is never null. *)
Inductive tel_event :=
  | TelReadinessEvt_Signal (env : Envelope json)
  | TelConnectivityChanged_Signal (operational : bool)
  | SetInitCb_Signal (cb : C)
  | TelOther (e : Ev).

Inductive tel_notification :=
  | TelStatusChange (s : ServiceStatus)
  | TelNotify (n : Note).

Inductive tel_effect :=
  | TelRequest (op : Op) (topic schema : string) (env : Envelope json) (timeout : Z)
  | TelAnswer (cb : C) (value : V) (code : Z)
  | InitCall (cb : C) (s : ServiceStatus)
  | TelEnqueue (listeners : list L) (n : tel_notification).

Record TelManager := mkTel {
  init_cbs_ : list C;
  tel_last_status_ : ServiceStatus;
  tel_listeners_ : list L;
  tel_own : X;
  tel_looks : nat;
  tel_log : list tel_effect }.
End TelTypes.

Arguments tel_event : clear implicits.
Arguments TelManager : clear implicits.
Arguments tel_effect : clear implicits.

Section Members.
Context {json C L Op V Note X : Type}.
Local Notation TelManager := (TelManager json C L Op V Note X).

Definition tel_set_cbs l (m : TelManager) : TelManager :=
  mkTel l (tel_last_status_ m) (tel_listeners_ m) (tel_own m) (tel_looks m) (tel_log m).
Definition tel_publish s (m : TelManager) : TelManager :=
  mkTel (init_cbs_ m) s (tel_listeners_ m) (tel_own m) (tel_looks m) (tel_log m).
Definition tel_set_listeners ls (m : TelManager) : TelManager :=
  mkTel (init_cbs_ m) (tel_last_status_ m) ls (tel_own m) (tel_looks m) (tel_log m).
Definition tel_set_own x (m : TelManager) : TelManager :=
  mkTel (init_cbs_ m) (tel_last_status_ m) (tel_listeners_ m) x (tel_looks m) (tel_log m).
Definition tel_look (m : TelManager) : TelManager :=
  mkTel (init_cbs_ m) (tel_last_status_ m) (tel_listeners_ m) (tel_own m) (S (tel_looks m)) (tel_log m).
Definition tel_emit l (m : TelManager) : TelManager :=
  mkTel (init_cbs_ m) (tel_last_status_ m) (tel_listeners_ m) (tel_own m) (tel_looks m) (tel_log m ++ l).

Definition new_tel (x : X) (initCb : option C) : TelManager :=
  mkTel (option_list initCb) SERVICE_UNAVAILABLE [] x 0 [].

Definition tel_requests_sent (m : TelManager) : nat :=
  length (omap (fun e => match e with TelRequest op _ _ _ _ => Some op | _ => None end) (tel_log m)).

Definition tel_answer_calls (l : list (C * V * Z)) (m : TelManager) : TelManager :=
  tel_emit ((fun '(c, v, code) => TelAnswer c v code) <$> l) m.

(** Swap the list out and call each. *)
Definition drain_init_cbs (s : ServiceStatus) (m : TelManager) : TelManager :=
  tel_emit ((fun c => InitCall c s) <$> init_cbs_ m) (tel_set_cbs [] m).
End Members.

(** ** What the managers differ in *)

Class TelOps (json C L Op V Note X Ev : Type) := {
  tel_request : Op -> string * string * json;
  (** The callbacks of an operation with the values of a failed request, and those
      of an operation found when the service is gone. *)
  tel_clients : Op -> list (C * V);
  tel_refusal : Op -> list (C * V);
  tel_answer : Op -> option (Envelope json) -> list (C * V * Z);
  tel_asks : Ev -> option Op;
  (** What Ready does with an indication; NotReady ignores them. *)
  tel_indicates : Ev -> X -> outcome (X * list Note) }.

Arguments tel_request {json C L Op V Note X Ev _}.
Arguments tel_clients {json C L Op V Note X Ev _}.
Arguments tel_refusal {json C L Op V Note X Ev _}.
Arguments tel_answer {json C L Op V Note X Ev _}.
Arguments tel_asks {json C L Op V Note X Ev _}.
Arguments tel_indicates {json C L Op V Note X Ev _}.

Class TelSpec (json C L Op V Note X Ev : Type) `{TelOps json C L Op V Note X Ev} : Prop := {
  tel_answer_laws op : op_laws (tel_clients op) (tel_answer op);
  tel_refusal_clients op : (tel_refusal op).*1 = (tel_clients op).*1 }.

(** ** The chart *)

Section Shell.
Context {json : Type} `{Json json, JsonValues json}.
Context {C L Op V Note X Ev : Type} `{EqDecision L} `{!TelOps json C L Op V Note X Ev}.
Context (topic : string -> string) (paId : string) (now_at counter_at : nat -> Z).
Context (alive_at : nat -> L -> bool).

Local Notation TelManager := (TelManager json C L Op V Note X).
Local Notation tel_event := (tel_event json C Ev).

Definition tel_outbox (m : TelManager) : list (post tel_event) := [].
Definition tel_flush (m : TelManager) : TelManager := m.

Definition tel_broadcast (n : tel_notification (Note := Note)) (m : TelManager) : TelManager :=
  let ls := locked (alive_at (tel_looks m)) (tel_listeners_ m) in
  if decide (ls = []) then tel_look m else tel_emit [TelEnqueue ls n] (tel_look m).

Definition tel_registerListener (l : L) (m : TelManager) : Status * TelManager :=
  (SUCCESS_, tel_set_listeners (tel_listeners_ m ++ [l]) m).
Definition tel_deregisterListener (l : L) (m : TelManager) : Status * TelManager :=
  (SUCCESS_, tel_look (tel_set_listeners (reap (alive_at (tel_looks m)) l (tel_listeners_ m)) m)).

Definition tel_send (op : Op) (m : TelManager) : TelManager :=
  let n := tel_requests_sent m in
  let '(req, schema, payload) := tel_request op in
  let env := fst (makeRequestEnvelope (now_at n) (counter_at n) paId payload) in
  tel_emit [TelRequest op (topic req) schema env kRpcTimeout] m.

Definition tel_refuse (op : Op) (m : TelManager) : TelManager :=
  tel_answer_calls ((fun '(c, v) => (c, v, SUBSYSTEM_UNAVAILABLE)) <$> tel_refusal op) m.

(** What the bridge's thread does with the answer. *)
Definition tel_reply (op : Op) (rsp : option (Envelope json)) (m : TelManager) : TelManager :=
  tel_answer_calls (tel_answer op rsp) m.

Definition tel_tell (ns : list Note) (m : TelManager) : TelManager :=
  foldl (fun m n => tel_broadcast (TelNotify n) m) m ns.

Definition tel_indicate (e : Ev) (m : TelManager) : outcome TelManager :=
  '(x, ns) ← tel_indicates e (tel_own m); Done (tel_tell ns (tel_set_own x m)).

Definition tel_entry (m : TelManager) : TelManager :=
  tel_broadcast (TelStatusChange SERVICE_AVAILABLE)
    (drain_init_cbs SERVICE_AVAILABLE (tel_publish SERVICE_AVAILABLE m)).

Definition tel_exit (m : TelManager) : TelManager :=
  let m := if decide (init_cbs_ m = []) then m else drain_init_cbs SERVICE_UNAVAILABLE m in
  tel_broadcast (TelStatusChange SERVICE_UNAVAILABLE) m.

Definition tel_result : Type := outcome (verdict tel_state * TelManager).
Definition tel_handled (m : TelManager) : tel_result := Done (Handled, m).
Definition tel_goto (t : tel_state) (m : TelManager) : tel_result := Done (To (st t), m).
Definition tel_super (m : TelManager) : tel_result := Done (Super top, m).

Definition tel_NotReady (e : Event tel_event) (m : TelManager) : tel_result :=
  match e with
  | Entry_Signal | Exit_Signal => tel_handled m
  | User (TelReadinessEvt_Signal env) =>
      match data env with
      | None => tel_handled m
      | Some d =>
          s ← or_die (value_string "status" "" d);
          if decide (s = "AVAILABLE") then tel_goto TelReady_St m else tel_handled m
      end
  | User (TelConnectivityChanged_Signal _) => tel_handled m
  | User (SetInitCb_Signal cb) => tel_handled (tel_set_cbs (init_cbs_ m ++ [cb]) m)
  | User (TelOther e) =>
      tel_handled match tel_asks e with Some op => tel_refuse op m | None => m end
  | _ => tel_super m
  end.

Definition tel_Ready (e : Event tel_event) (m : TelManager) : tel_result :=
  match e with
  | Entry_Signal => tel_handled (tel_entry m)
  | Exit_Signal => tel_handled (tel_exit m)
  | User (TelReadinessEvt_Signal env) =>
      match data env with
      | None => tel_handled m
      | Some d =>
          s ← or_die (value_string "status" "" d);
          if decide (s = "UNAVAILABLE") then tel_goto TelNotReady_St (tel_publish SERVICE_UNAVAILABLE m)
          else tel_handled m
      end
  | User (SetInitCb_Signal cb) => tel_handled (tel_emit [InitCall cb SERVICE_AVAILABLE] m)
  | User (TelConnectivityChanged_Signal operational) =>
      if negb operational then tel_goto TelNotReady_St (tel_publish SERVICE_UNAVAILABLE m) else tel_handled m
  | User (TelOther e) =>
      match tel_asks e with
      | Some op => tel_handled (tel_send op m)
      | None => m ← tel_indicate e m; tel_handled m
      end
  | _ => tel_super m
  end.

Definition tel_handler (x : tel_state) : Event tel_event -> TelManager -> tel_result :=
  match x with TelNotReady_St => tel_NotReady | TelReady_St => tel_Ready end.

Definition tel_parent (x : tel_state) : option tel_state := None.
Definition tel_lineage (x : tel_state) : list tel_state := [x].
Definition tel_swallow (x : tel_state) : bool := false.

#[global] Instance wf_tel : wf_chart tel_handler tel_parent tel_lineage tel_swallow.
Proof.
  constructor.
  - by intros [].
  - intros []; unfold tel_lineage, kMaxNest; simpl; lia.
  - by intros [].
  - by intros [].
  - by intros [] ?.
  - intros [] b v b'; simpl; intros [= <- _]; auto.
  - intros [] e m v m'; destruct e as [env|b|c|e]; simpl; try (intros [= <- _]; simpl; by eauto).
    + destruct (data env) as [d|]; [|by intros [= <- _]].
      destruct (value_string _ _ _); simpl; [|done]. case_decide; intros [= <- _]; eauto.
    + destruct (data env) as [d|]; [|by intros [= <- _]].
      destruct (value_string _ _ _); simpl; [|done]. repeat case_decide; intros [= <- _]; eauto.
    + destruct b; intros [= <- _]; simpl; eauto.
    + destruct (tel_asks e); [by intros [= <- _]|]. intros (m1 & _ & [= <- _])%bind_done'. done.
  - intros [] b t b'; simpl; by intros [=].
Qed.

(** ** The public interface *)

Definition AOTel : Type := AO tel_state tel_event TelManager.

Definition tel_isReadyDerived_ (c : AOTel) : bool := bool_decide (state_ (hsm c) = st TelReady_St).
Definition tel_getServiceStatus (c : AOTel) : ServiceStatus := tel_last_status_ (self (hsm c)).

(** The guard of every asynchronous operation. *)
Definition tel_post_if_ready (e : Ev) (c : AOTel) : Status * AOTel :=
  if tel_isReadyDerived_ c then (SUCCESS_, post_fifo (TelOther e) c) else (NOTREADY, c).

(** The call it makes itself, if any. *)
Definition setInitCallback (cb : option C) (c : AOTel) : list (C * ServiceStatus) * AOTel :=
  match cb with
  | None => ([], c)
  | Some cb =>
      if tel_isReadyDerived_ c then ([(cb, SERVICE_AVAILABLE)], c)
      else ([], post_fifo (SetInitCb_Signal cb) c)
  end.

Definition tel_start (ndebug : bool) (c : AOTel) : outcome AOTel :=
  if running_ c then Done c else start_at tel_handler ndebug true (st TelNotReady_St) c.
End Shell.

(** The laws, operation by operation. *)
Lemma tel_spec_of {json C L Op V Note X Ev} `{TelOps json C L Op V Note X Ev} :
  (forall op, op_laws (tel_clients op) (tel_answer op) /\ (tel_refusal op).*1 = (tel_clients op).*1) ->
  TelSpec json C L Op V Note X Ev.
Proof. intros Hops. split; apply Hops. Qed.
