(* ===== verification/NetworkSelection.v ===== *)
(** * The network selection manager (tel/NetworkSelectionManager.cpp)

    The shell of TelShell.v, one manager for each SIM, with the selection mode as
    the modem's.  The operations out of the simulation's scope answer at once. *)

From S2P Require Import Prelude Hsm HsmSpec ActiveObject Json Envelope InitGate Manager Answers TelShell.

Local Open Scope Z_scope.

Inductive NetworkSelectionMode := MODE_UNKNOWN | AUTOMATIC | MANUAL.

Record NetworkModeInfo := mkModeInfo { mode : NetworkSelectionMode; mcc : string; mnc : string }.

(** [NetworkModeInfo info{}]. *)
Definition no_mode_info : NetworkModeInfo := mkModeInfo AUTOMATIC "" "".

Definition wireToNetworkSelectionMode (s : string) : NetworkSelectionMode :=
  if decide (s = "AUTOMATIC") then AUTOMATIC
  else if decide (s = "MANUAL") then MANUAL
  else MODE_UNKNOWN.
Definition networkSelectionModeToWire (m : NetworkSelectionMode) : string :=
  match m with AUTOMATIC => "AUTOMATIC" | MANUAL => "MANUAL" | _ => "UNKNOWN" end.

#[export] Instance mode_wire : WireEnum NetworkSelectionMode :=
  {| to_wire := networkSelectionModeToWire; of_wire := wireToNetworkSelectionMode |}.
#[export] Instance mode_wire_spec : WireEnumSpec NetworkSelectionMode (fun _ => True).
Proof. split. by intros []. Qed.

Section NetSel.
Context {json : Type} `{Json json, JsonValues json} {C L : Type} `{EqDecision L}.
Context (slotId_ : Z).

Inductive netsel_op :=
  | SetNetworkSelectionMode (m : NetworkSelectionMode) (mcc mnc : string) (cb : option C)
  | RequestNetworkSelectionModeInfo (cb : option C)
  | RequestNetworkSelectionMode (cb : option C).

Inductive netsel_value :=
  | NoNetSelValue
  | ModeInfo (i : NetworkModeInfo)
  | Mode (m : NetworkSelectionMode).

Definition netsel_request (op : netsel_op) : string * string * json :=
  match op with
  | SetNetworkSelectionMode m c n _ =>
      ("radio.set_network_selection_mode.req", "radio.set_network_selection_mode.rsp",
       jobj [("mode", of_string (networkSelectionModeToWire m)); ("mcc", of_string c); ("mnc", of_string n);
             ("slot", of_int slotId_)])
  | _ =>
      ("radio.request_network_selection_mode.req", "radio.request_network_selection_mode.rsp",
       jobj [("slot", of_int slotId_)])
  end.

Definition netsel_clients (op : netsel_op) : list (C * netsel_value) :=
  match op with
  | SetNetworkSelectionMode _ _ _ cb => clients_of NoNetSelValue cb
  | RequestNetworkSelectionModeInfo cb => clients_of (ModeInfo no_mode_info) cb
  | RequestNetworkSelectionMode cb => clients_of (Mode MODE_UNKNOWN) cb
  end.

(** Found when the service is gone: another mode than that of a timeout. *)
Definition netsel_refusal (op : netsel_op) : list (C * netsel_value) :=
  match op with
  | RequestNetworkSelectionMode cb => clients_of (Mode AUTOMATIC) cb
  | _ => netsel_clients op
  end.

Definition decode_mode (d : json) : option NetworkSelectionMode :=
  wireToNetworkSelectionMode <$> value_string "mode" "" d.
Definition decode_mode_info (d : json) : option NetworkModeInfo :=
  m ← decode_mode d;
  c ← value_string "mcc" "" d;
  n ← value_string "mnc" "" d;
  Some (mkModeInfo m c n).

Definition netsel_answer (op : netsel_op) : option (Envelope json) -> list (C * netsel_value * Z) :=
  match op with
  | SetNetworkSelectionMode _ _ _ cb => completeOrTimeout NoNetSelValue cb
  | RequestNetworkSelectionModeInfo cb =>
      completeData (ModeInfo no_mode_info) (fun d => ModeInfo <$> decode_mode_info d) cb
  | RequestNetworkSelectionMode cb => completeData (Mode MODE_UNKNOWN) (fun d => Mode <$> decode_mode d) cb
  end.

#[local] Instance netsel_ops : TelOps json C L netsel_op netsel_value Empty_set unit netsel_op := {|
  tel_request := netsel_request;
  tel_clients := netsel_clients;
  tel_refusal := netsel_refusal;
  tel_answer := netsel_answer;
  tel_asks := Some;
  tel_indicates _ x := Done (x, []) |}.

#[local] Instance netsel_spec : TelSpec json C L netsel_op netsel_value Empty_set unit netsel_op.
Proof.
  apply tel_spec_of. intros [m c n cb|cb|cb]; (split; [|by destruct cb]); simpl;
    first [apply or_timeout_laws|apply data_laws].
Qed.

(** ** The public interface *)

Local Notation NetSel := (TelManager json C L netsel_op netsel_value Empty_set unit).
Local Notation AONetSel := (AOTel (json := json) (C := C) (L := L) (Op := netsel_op) (V := netsel_value)
  (Note := Empty_set) (X := unit) (Ev := netsel_op)).

Definition SimulaNetworkSelectionManager (initCb : option C) : NetSel := new_tel tt initCb.

Definition requestNetworkSelectionModeInfo (cb : option C) : AONetSel -> Status * AONetSel :=
  tel_post_if_ready (RequestNetworkSelectionModeInfo cb).
Definition requestNetworkSelectionMode (cb : option C) : AONetSel -> Status * AONetSel :=
  tel_post_if_ready (RequestNetworkSelectionMode cb).
Definition setNetworkSelectionMode (m : NetworkSelectionMode) (c n : string) (cb : option C) :
    AONetSel -> Status * AONetSel :=
  tel_post_if_ready (SetNetworkSelectionMode m c n cb).

(** Out of scope: the call to the client's callback, and the status. *)
Definition not_supported (cb : option C) : list (C * Z) * Status :=
  ((fun c => (c, NOT_SUPPORTED)) <$> option_list cb, NOTSUPPORTED).
Definition requestPreferredNetworks : option C -> list (C * Z) * Status := not_supported.
Definition setPreferredNetworks : option C -> list (C * Z) * Status := not_supported.
Definition performNetworkScan : option C -> list (C * Z) * Status := not_supported.
Definition performNetworkScan_info : option C -> list (C * Z) * Status := not_supported.
Definition abortNetworkScan : Z := NOT_SUPPORTED.
Definition setLteDubiousCell : Z := NOT_SUPPORTED.
Definition setNrDubiousCell : Z := NOT_SUPPORTED.

(** The states: those of the shell, with the operations above. *)
Section States.
Context (topic : string -> string) (paId : string) (now_at counter_at : nat -> Z).
Context (alive_at : nat -> L -> bool).

Local Notation state_fn := (Event (tel_event json C netsel_op) -> NetSel -> tel_result).

Definition NetSelNotReady_St : state_fn := tel_NotReady.
Definition NetSelReady_St : state_fn := tel_Ready topic paId now_at counter_at alive_at.
End States.

(** The readiness handler reads the status to log it, on the bridge's thread:
    what cannot be read throws there, where the bridge swallows it, and nothing is
    posted. *)
Definition handleReadinessInd_ (env : Envelope json) : option (tel_event json C netsel_op) :=
  match data env with
  | Some d => (fun _ => TelReadinessEvt_Signal env) <$> value_string "status" "" d
  | None => Some (TelReadinessEvt_Signal env)
  end.
Definition netsel_subscriptions : list (string * (Envelope json -> option (tel_event json C netsel_op))) :=
  [("radio.subsys_ready_netsel.ind", handleReadinessInd_)].
End NetSel.
