(* ===== verification/TelShellProps.v ===== *)
(** * Correctness of the telephony managers' shell

    The counterpart of NetShellProps.v and NetListeners.v: the shell as a table,
    readiness under every interleaving, the clients and init callbacks of every
    run, and what a listener is told. *)

From S2P Require Import Prelude Hsm HsmSpec HsmProps ActiveObject Json Envelope InitGate Manager Answers.
From S2P Require Import TelShell NetworkSelection.

Local Open Scope Z_scope.

Section TelProps.
Context {json : Type} `{Json json, JsonValues json}.
Context {C L Op V Note X Ev : Type} `{EqDecision L} `{!TelOps json C L Op V Note X Ev}.
Context (topic : string -> string) (paId : string) (now_at counter_at : nat -> Z).
Context (alive_at : nat -> L -> bool).

Local Notation TelManager := (TelManager json C L Op V Note X).
Local Notation tel_event := (tel_event json C Ev).
Local Notation notification := (tel_notification (Note := Note)).
Local Notation tel_effect := (tel_effect json C L Op V Note).
Local Notation handler := (tel_handler topic paId now_at counter_at alive_at (Note := Note) (X := X)).
Local Notation broadcast := (tel_broadcast alive_at (C := C) (Op := Op) (V := V) (Note := Note) (X := X)).

(** ** The shell as a table *)

Definition tel_said (e : tel_event) : option string :=
  match e with TelReadinessEvt_Signal env => d ← data env; value_string "status" "" d | _ => None end.

(** Up on "AVAILABLE"; down on "UNAVAILABLE" and when the link is lost. *)
Definition tel_report (e : tel_event) : option bool :=
  match e with
  | TelReadinessEvt_Signal _ =>
      s ← tel_said e;
      if decide (s = "AVAILABLE") then Some true
      else if decide (s = "UNAVAILABLE") then Some false else None
  | TelConnectivityChanged_Signal false => Some false
  | _ => None
  end.

(** A readiness indication whose status is not a string stops the process. *)
Definition tel_readable (e : tel_event) : outcome unit :=
  match e with
  | TelReadinessEvt_Signal env =>
      match data env with Some d => or_die (value_string "status" "" d) ;; Done tt | None => Done tt end
  | _ => Done tt
  end.

Definition tel_leaf (ready : bool) : tel_state := if ready then TelReady_St else TelNotReady_St.
Definition tel_is_ready (leaf : tel_state) : bool :=
  match leaf with TelReady_St => true | TelNotReady_St => false end.

(** What a report does: nothing unless it changes the leaf. *)
Definition tel_change (ready : bool) (r : option bool) (m : TelManager) : bool * TelManager :=
  match ready, r with
  | false, Some true => (true, tel_entry alive_at m)
  | true, Some false => (false, tel_exit alive_at (tel_publish SERVICE_UNAVAILABLE m))
  | _, _ => (ready, m)
  end.

Definition tel_step (ready : bool) (e : tel_event) (m : TelManager) : outcome (bool * TelManager) :=
  tel_readable e ;;
  match e with
  | TelOther x =>
      m ← match tel_asks x with
          | Some op =>
              Done (if ready then tel_send topic paId now_at counter_at op m else tel_refuse op m)
          | None => if ready then tel_indicate alive_at x m else Done m
          end;
      Done (ready, m)
  | SetInitCb_Signal cb =>
      Done (ready, if ready then tel_emit [InitCall cb SERVICE_AVAILABLE] m
                   else tel_set_cbs (init_cbs_ m ++ [cb]) m)
  | _ => Done (tel_change ready (tel_report e) m)
  end.

Lemma tel_chart_step leaf e (m : TelManager) :
  chart_step handler tel_lineage leaf e m =
    ('(r, m') ← tel_step (tel_is_ready leaf) e m; Done (tel_leaf r, m')).
Proof.
  destruct leaf, e as [env|b|c|x]; unfold tel_step, tel_readable, tel_report, tel_said, tel_change;
    cbn -[tel_entry tel_exit]; try done.
  1,4: (destruct (data env) as [d|]; [|done]); simpl;
    (destruct (value_string "status" "" d) as [s|]; simpl; [|done]);
    repeat case_decide; by simplify_eq.
  - by destruct b.
  - by destruct (tel_asks x).
  - by destruct b.
  - destruct (tel_asks x); [done|]. by destruct (tel_indicate _ _ _).
Qed.

#[local] Instance tel_shell : ReadyShell handler tel_lineage TelNotReady_St TelReady_St tel_report.
Proof.
  assert (Hc : forall leaf rep m r m', tel_change (tel_is_ready leaf) rep m = (r, m') ->
    tel_leaf r = match rep with Some true => TelReady_St | Some false => TelNotReady_St | None => leaf end).
  { by intros [] [[]|] m r m' [= <- _]. }
  split; [done|]. intros leaf u m leaf' m' _. rewrite tel_chart_step.
  intros ([r m1] & Hs & [= <- _])%bind_done'. unfold tel_step in Hs. apply bind_done' in Hs as (_ & _ & Hs).
  destruct u as [env|b|c|x].
  1,2: injection Hs as Hs; by apply Hc in Hs.
  - injection Hs as <- _. by destruct leaf.
  - apply bind_done' in Hs as (m2 & _ & [= <- _]). by destruct leaf.
Qed.

(** ** Moves *)

Inductive tel_move :=
  | TProcess (e : tel_event)
  | TReply (op : Op) (rsp : option (Envelope json))
  | TInitDirect (cb : C)
  | TRegister (l : L)
  | TDeregister (l : L).

(** [TInitDirect]: a client that finds the manager ready calls its callback itself. *)
Definition tel_move_step (mv : tel_move) (s : bool * TelManager) : outcome (bool * TelManager) :=
  let '(ready, m) := s in
  match mv with
  | TProcess e => tel_step ready e m
  | TReply op rsp => Done (ready, tel_reply op rsp m)
  | TInitDirect cb => Done (ready, if ready then tel_emit [InitCall cb SERVICE_AVAILABLE] m else m)
  | TRegister l => Done (ready, snd (tel_registerListener l m))
  | TDeregister l => Done (ready, snd (tel_deregisterListener alive_at l m))
  end.

Definition tel_ready_after (ready : bool) (mv : tel_move) : bool :=
  match mv with TProcess e => default ready (tel_report e) | _ => ready end.
Local Notation heard := (heard tel_ready_after).
Definition tel_run := run tel_move_step.

(** What the calls of an effect are; notifications apart. *)
Inductive tel_call := CSent (op : Op) | CTold (cb : C) | CInit (cb : C) (s : ServiceStatus).

Definition call_of (e : tel_effect) : option tel_call :=
  match e with
  | TelRequest op _ _ _ _ => Some (CSent op)
  | TelAnswer c _ _ => Some (CTold c)
  | InitCall c s => Some (CInit c s)
  | TelEnqueue _ _ => None
  end.

Definition refused_calls (op : Op) : list tel_call := CTold <$> (tel_clients op).*1.
Definition reply_calls (op : Op) (rsp : option (Envelope json)) : list tel_call :=
  (fun x : C * V * Z => CTold (fst (fst x))) <$> tel_answer op rsp.

(** The specification of the calls: a view of the manager, and what each move
    makes it call. *)
Record tel_view := mkTelView { v_up : bool; v_waiting : list C; v_members : X }.
Definition tel_view_of (ready : bool) (m : TelManager) : tel_view :=
  mkTelView ready (init_cbs_ m) (tel_own m).

Definition change_spec (r : option bool) (v : tel_view) : list tel_call * list notification * tel_view :=
  match v_up v, r with
  | false, Some true =>
      ((fun c => CInit c SERVICE_AVAILABLE) <$> v_waiting v, [TelStatusChange SERVICE_AVAILABLE],
       mkTelView true [] (v_members v))
  | true, Some false =>
      ((fun c => CInit c SERVICE_UNAVAILABLE) <$> v_waiting v, [TelStatusChange SERVICE_UNAVAILABLE],
       mkTelView false [] (v_members v))
  | _, _ => ([], [], v)
  end.

Definition event_spec (e : tel_event) (v : tel_view) :
    list tel_call * list notification * tel_view :=
  match e with
  | SetInitCb_Signal c =>
      if v_up v then ([CInit c SERVICE_AVAILABLE], [], v)
      else ([], [], mkTelView false (v_waiting v ++ [c]) (v_members v))
  | TelOther x =>
      match tel_asks x, v_up v with
      | Some op, true => ([CSent op], [], v)
      | Some op, false => (refused_calls op, [], v)
      | None, false => ([], [], v)
      | None, true =>
          match tel_indicates x (v_members v) with
          | Done (o, ns) => ([], TelNotify <$> ns, mkTelView true (v_waiting v) o)
          | Fail _ => ([], [], v)
          end
      end
  | _ => change_spec (tel_report e) v
  end.

Definition move_spec (mv : tel_move) (v : tel_view) :
    list tel_call * list notification * tel_view :=
  match mv with
  | TProcess e => event_spec e v
  | TReply op rsp => (reply_calls op rsp, [], v)
  | TInitDirect c => (if v_up v then [CInit c SERVICE_AVAILABLE] else [], [], v)
  | _ => ([], [], v)
  end.

Fixpoint spec_run (mvs : list tel_move) (v : tel_view) :
    list tel_call * list notification * tel_view :=
  match mvs with
  | [] => ([], [], v)
  | mv :: mvs =>
      let '(cs, ns, v) := move_spec mv v in
      let '(cs', ns', v) := spec_run mvs v in
      (cs ++ cs', ns ++ ns', v)
  end.

(** The notifications a listener is told. *)
Definition tel_heard_by (l : L) (e : tel_effect) : option notification :=
  match e with TelEnqueue ls n => if decide (l ∈ ls) then Some n else None | _ => None end.

(** ** The steps do what is specified *)

Definition listening (l : L) (m : TelManager) : Prop :=
  (forall n, alive_at n l = true) /\ l ∈ tel_listeners_ m.

(** From [m] to [m'] the calls are [cs], and a listener is told [ns]. *)
Record does (m m' : TelManager) (cs : list tel_call) (ns : list notification) : Prop := {
  do_calls : omap call_of (tel_log m') = omap call_of (tel_log m) ++ cs;
  do_listening l : listening l m -> listening l m';
  do_told l : listening l m -> omap (tel_heard_by l) (tel_log m') = omap (tel_heard_by l) (tel_log m) ++ ns }.

Lemma does_nil m m' : tel_listeners_ m' = tel_listeners_ m -> tel_log m' = tel_log m -> does m m' [] [].
Proof.
  intros Hl Hg. split; [by rewrite Hg, app_nil_r|intros l [Ha Hin]; split; [done|by rewrite Hl]|].
  intros l _. by rewrite Hg, app_nil_r.
Qed.

Lemma does_trans m1 m2 m3 cs cs' ns ns' :
  does m1 m2 cs ns -> does m2 m3 cs' ns' -> does m1 m3 (cs ++ cs') (ns ++ ns').
Proof.
  intros [C1 L1 T1] [C2 L2 T2]. split; [by rewrite C2, C1, app_assoc|auto|].
  intros l Hl. rewrite T2, T1 by auto. by rewrite app_assoc.
Qed.

(** Effects that are calls. *)
Lemma does_emit m es :
  (forall e l, e ∈ es -> tel_heard_by l e = None) -> does m (tel_emit es m) (omap call_of es) [].
Proof.
  intros He. split; simpl; [by rewrite omap_app|done|]. intros l _. rewrite omap_app. f_equal.
  induction es as [|e es IH]; [done|]. simpl. rewrite He by set_solver. apply IH. set_solver.
Qed.

Lemma broadcast_does n m : does m (broadcast n m) [] [n].
Proof.
  unfold tel_broadcast. split.
  - destruct (decide _); simpl; rewrite ?omap_app; simpl; by rewrite ?app_nil_r.
  - intros l [Ha Hl]. split; [done|]. by destruct (decide (locked _ _ = [])).
  - intros l [Ha Hl].
    assert (Hin : l ∈ locked (alive_at (tel_looks m)) (tel_listeners_ m)).
    { unfold locked. rewrite list_elem_of_filter. auto. }
    destruct (decide _) as [He|]; [rewrite He in Hin; by apply not_elem_of_nil in Hin|].
    simpl. rewrite omap_app. simpl. by rewrite decide_True.
Qed.

Lemma tell_does ns m : does m (tel_tell alive_at ns m) [] (TelNotify <$> ns).
Proof.
  revert m. induction ns as [|n ns IH]; intros m; [by apply does_nil|]. simpl.
  apply (does_trans _ _ _ [] [] [TelNotify n] _ (broadcast_does _ _)), IH.
Qed.

Lemma answer_does a m :
  does m (tel_answer_calls a m) ((fun x : C * V * Z => CTold (fst (fst x))) <$> a) [].
Proof.
  unfold tel_answer_calls.
  replace ((fun x : C * V * Z => CTold (fst (fst x))) <$> a)
    with (omap call_of ((fun '(c, v, code) => TelAnswer c v code) <$> a : list tel_effect)).
  - apply does_emit. intros e l. rewrite list_elem_of_fmap. by intros ([[c v] code] & -> & _).
  - induction a as [|[[c v] code] a IH]; [done|]. simpl. by f_equal.
Qed.

Lemma refuse_does `{!TelSpec json C L Op V Note X Ev} op m : does m (tel_refuse op m) (refused_calls op) [].
Proof.
  unfold tel_refuse, refused_calls. rewrite <- tel_refusal_clients.
  match goal with |- does _ (tel_answer_calls ?l _) ?cs _ =>
    replace cs with ((fun x : C * V * Z => CTold (fst (fst x))) <$> l) end; [apply answer_does|].
  induction (tel_refusal op) as [|[c v] l IH]; [done|]. csimpl. by f_equal.
Qed.

Lemma send_does op m : does m (tel_send topic paId now_at counter_at op m) [CSent op] [].
Proof.
  unfold tel_send. destruct (tel_request op) as [[req schema] payload]. apply does_emit.
  intros e l. by intros ->%list_elem_of_singleton.
Qed.

Lemma init_does c s m : does m (tel_emit [InitCall c s] m) [CInit c s] [].
Proof. apply does_emit. intros e l. by intros ->%list_elem_of_singleton. Qed.

Lemma drain_does s m : does m (drain_init_cbs s m) ((fun c => CInit c s) <$> init_cbs_ m) [].
Proof.
  unfold drain_init_cbs.
  replace ((fun c => CInit c s) <$> init_cbs_ m)
    with (omap call_of ((fun c => InitCall c s) <$> init_cbs_ m : list tel_effect)).
  - apply (does_trans m (tel_set_cbs [] m) _ [] _ [] _); [by apply does_nil|]. apply does_emit.
    intros e l. rewrite list_elem_of_fmap. by intros (c & -> & _).
  - induction (init_cbs_ m) as [|c l IH]; [done|]. simpl. by f_equal.
Qed.

Lemma entry_does m :
  does m (tel_entry alive_at m) ((fun c => CInit c SERVICE_AVAILABLE) <$> init_cbs_ m)
    [TelStatusChange SERVICE_AVAILABLE].
Proof.
  rewrite <- (app_nil_r ((fun c => _) <$> _)).
  apply (does_trans m (drain_init_cbs SERVICE_AVAILABLE (tel_publish SERVICE_AVAILABLE m)) _ _ _ [] _);
    [|apply broadcast_does].
  apply (does_trans m (tel_publish SERVICE_AVAILABLE m) _ [] _ [] _); [by apply does_nil|].
  apply (drain_does _ (tel_publish SERVICE_AVAILABLE m)).
Qed.

Lemma exit_does m :
  does m (tel_exit alive_at m) ((fun c => CInit c SERVICE_UNAVAILABLE) <$> init_cbs_ m)
    [TelStatusChange SERVICE_UNAVAILABLE].
Proof.
  rewrite <- (app_nil_r ((fun c => _) <$> _)). unfold tel_exit.
  apply (does_trans _ (if decide (init_cbs_ m = []) then m else drain_init_cbs SERVICE_UNAVAILABLE m) _ _ [] [] _);
    [|apply broadcast_does].
  case_decide as He; [rewrite He; by apply does_nil|apply drain_does].
Qed.

Lemma change_does ready r m ready' m' :
  tel_change ready r m = (ready', m') ->
  ready' = default ready r /\
  let '(cs, ns, v) := change_spec r (tel_view_of ready m) in does m m' cs ns /\ tel_view_of ready' m' = v.
Proof.
  intros Hc. split; [by destruct ready, r as [[]|]; injection Hc as <- _|revert Hc].
  unfold tel_change, change_spec, tel_view_of. cbn [v_up v_waiting v_members].
  destruct ready, r as [[]|]; intros [= <- <-]; try (split; [by apply does_nil|done]).
  - split.
    + apply (does_trans m (tel_publish SERVICE_UNAVAILABLE m) _ [] _ [] _); [by apply does_nil|].
      apply (exit_does (tel_publish SERVICE_UNAVAILABLE m)).
    + unfold tel_exit, tel_broadcast. destruct (decide (init_cbs_ _ = [])) as [He|]; case_decide; simpl in *;
        by rewrite ?He.
  - split; [apply entry_does|]. unfold tel_entry, tel_broadcast. by case_decide.
Qed.

Lemma tell_view ns (m : TelManager) :
  init_cbs_ (tel_tell alive_at ns m) = init_cbs_ m /\ tel_own (tel_tell alive_at ns m) = tel_own m.
Proof.
  revert m. induction ns as [|n ns IH]; intros m; [done|]. simpl.
  destruct (IH (broadcast (TelNotify n) m)) as [-> ->]. unfold tel_broadcast. by case_decide.
Qed.

Lemma send_view op m : tel_view_of true (tel_send topic paId now_at counter_at op m) = tel_view_of true m.
Proof. unfold tel_send. by destruct (tel_request op) as [[req schema] payload]. Qed.

Context `{!TelSpec json C L Op V Note X Ev}.

(** The same of a move; withdrawing a listener ends what it is told. *)
Record move_done (mv : tel_move) (m m' : TelManager) (cs : list tel_call) (ns : list notification) : Prop := {
  md_calls : omap call_of (tel_log m') = omap call_of (tel_log m) ++ cs;
  md_told l : mv <> TDeregister l -> listening l m ->
    listening l m' /\
    omap (tel_heard_by l) (tel_log m') = omap (tel_heard_by l) (tel_log m) ++ ns }.

Lemma does_move mv m m' cs ns : does m m' cs ns -> move_done mv m m' cs ns.
Proof. intros [Hc Hl Ht]. split; [done|]. auto. Qed.

Lemma move_does ready mv m ready' m' :
  tel_move_step mv (ready, m) = Done (ready', m') ->
  ready' = tel_ready_after ready mv /\
  let '(cs, ns, v) := move_spec mv (tel_view_of ready m) in
  move_done mv m m' cs ns /\ tel_view_of ready' m' = v.
Proof.
  intros Hs. destruct mv as [e|op rsp|c|l|l]; cbn [tel_move_step tel_ready_after move_spec] in *.
  - unfold tel_step in Hs. apply bind_done' in Hs as (_ & _ & Hs). destruct e as [env|b|c|x].
    1,2: injection Hs as Hs; apply change_does in Hs as [Hr Hs]; split; [exact Hr|];
      cbn [event_spec]; destruct (change_spec _ _) as [[cs ns] v];
      destruct Hs as [Hd Hv]; split; [by apply does_move|done].
    + injection Hs as <- <-. split; [done|]. cbn [event_spec tel_view_of v_up v_members v_waiting]. destruct ready.
      * split; [apply does_move, init_does|done].
      * split; [by apply does_move, does_nil|done].
    + apply bind_done' in Hs as (m1 & Hm & [= <- <-]). split; [done|]. cbn [event_spec tel_view_of v_up v_members v_waiting].
      destruct (tel_asks x) as [op|], ready; try injection Hm as <-.
      * split; [apply does_move, send_does|apply send_view].
      * split; [apply does_move, refuse_does|done].
      * unfold tel_indicate in Hm. apply bind_done' in Hm as ([o ns] & Hi & [= <-]). cbn [v_members].
        rewrite Hi. split.
        -- apply does_move, (does_trans m (tel_set_own o m) _ [] [] [] _); [by apply does_nil|apply tell_does].
        -- unfold tel_view_of. by destruct (tell_view ns (tel_set_own o m)) as [-> ->].
      * split; [by apply does_move, does_nil|done].
  - injection Hs as <- <-. split; [done|]. split; [apply does_move, answer_does|done].
  - injection Hs as <- <-. split; [done|]. cbn [tel_view_of v_up]. destruct ready.
    + split; [apply does_move, init_does|done].
    + split; [by apply does_move, does_nil|done].
  - injection Hs as <- <-. split; [done|]. split; [|done]. apply does_move.
    split; simpl; [by rewrite app_nil_r| |intros; by rewrite app_nil_r].
    intros l' [Ha Hl]. split; [done|]. simpl. set_solver.
  - injection Hs as <- <-. split; [done|]. split; [|done].
    split; simpl; [by rewrite app_nil_r|]. intros l' Hne [Ha Hl]. split; [|by rewrite app_nil_r].
    split; [done|]. simpl. unfold reap. rewrite list_elem_of_filter. split; [|done]. split; [apply Ha|].
    intros [_ ->]. by apply Hne.
Qed.

Lemma run_does mvs ready m ready' m' :
  tel_run mvs (ready, m) = Done (ready', m') ->
  ready' = fold_left tel_ready_after mvs ready /\
  let '(cs, ns, v) := spec_run mvs (tel_view_of ready m) in
  omap call_of (tel_log m') = omap call_of (tel_log m) ++ cs /\
  (forall l, TDeregister l ∉ mvs -> listening l m ->
    omap (tel_heard_by l) (tel_log m') = omap (tel_heard_by l) (tel_log m) ++ ns) /\
  tel_view_of ready' m' = v.
Proof.
  revert ready m. induction mvs as [|mv mvs IH]; intros ready m Hr; simpl in *.
  { injection Hr as <- <-. split; [done|]. rewrite app_nil_r. repeat split. intros l _ _. by rewrite app_nil_r. }
  apply bind_done' in Hr as ([ready1 m1] & Hs & Hr). apply move_does in Hs as [-> Hs].
  destruct (move_spec mv (tel_view_of ready m)) as [[cs ns] v]. destruct Hs as [[Hc Ht] <-].
  apply IH in Hr as [-> Hr].
  destruct (spec_run mvs _) as [[cs' ns'] v']. destruct Hr as (Hc' & Ht' & <-). split; [done|].
  split; [by rewrite Hc', Hc, app_assoc|]. split; [|done]. intros l Hni Hl.
  apply not_elem_of_cons in Hni as [Hne Hni]. destruct (Ht l) as [Hl1 Hn]; [by apply not_eq_sym|done|].
  by rewrite (Ht' l Hni Hl1), Hn, app_assoc.
Qed.

(** ** The calls of a run *)

Definition sent_of (c : tel_call) : option Op := match c with CSent op => Some op | _ => None end.
Definition told_of (c : tel_call) : option C := match c with CTold c => Some c | _ => None end.
Definition init_of (c : tel_call) : option C := match c with CInit c _ => Some c | _ => None end.
(** No init callback is ever told that the service is not available. *)
Definition init_available (c : tel_call) : Prop :=
  match c with CInit _ s => s = SERVICE_AVAILABLE | _ => True end.

Definition tel_asked (ready : bool) (mv : tel_move) : option Op :=
  match mv with TProcess (TelOther x) => tel_asks x | _ => None end.
Definition tel_accepted (ready : bool) (mv : tel_move) : option Op :=
  if ready then tel_asked ready mv else None.
Definition tel_refused (ready : bool) (mv : tel_move) : option Op :=
  if ready then None else tel_asked ready mv.
Definition tel_replied (ready : bool) (mv : tel_move) : option (Op * option (Envelope json)) :=
  match mv with TReply op rsp => Some (op, rsp) | _ => None end.
(** The init callbacks the manager is given. *)
Definition tel_handed (ready : bool) (mv : tel_move) : option C :=
  match mv with
  | TProcess (SetInitCb_Signal c) => Some c
  | TInitDirect c => if ready then Some c else None
  | _ => None
  end.

Definition tel_op_clients (op : Op) : list C := (tel_clients op).*1.
Definition tel_answered (p : Op * option (Envelope json)) : list C :=
  (fun x : C * V * Z => fst (fst x)) <$> tel_answer (fst p) (snd p).

(** What a move's calls are. *)
Record calls_ok (ready : bool) (w w' : list C) (mv : tel_move) (cs : list tel_call) : Prop := {
  co_sent : omap sent_of cs = option_list (tel_accepted ready mv);
  co_told : omap told_of cs =
    match tel_refused ready mv with Some op => tel_op_clients op | None => [] end ++
    match tel_replied ready mv with Some p => tel_answered p | None => [] end;
  co_init : omap init_of cs ++ w' = w ++ option_list (tel_handed ready mv);
  co_available : Forall init_available cs;
  co_none : tel_ready_after ready mv = true -> w' = [] }.

Lemma omap_CTold (l : list C) :
  omap sent_of (CTold <$> l) = [] /\ omap told_of (CTold <$> l) = l /\ omap init_of (CTold <$> l) = [] /\
  Forall init_available (CTold <$> l).
Proof.
  induction l as [|c l (IH1 & IH2 & IH3 & IH4)]; [done|]. csimpl. rewrite IH1, IH2, IH3.
  split_and!; try done. by constructor.
Qed.

Lemma omap_CInit (l : list C) s :
  omap sent_of ((fun c => CInit c s) <$> l) = [] /\ omap told_of ((fun c => CInit c s) <$> l) = [] /\
  omap init_of ((fun c => CInit c s) <$> l) = l.
Proof.
  induction l as [|c l (IH1 & IH2 & IH3)]; [done|]. csimpl. by rewrite IH1, IH2, IH3.
Qed.

Lemma change_calls ready r w x cs ns v :
  (ready = true -> w = []) -> change_spec r (mkTelView ready w x) = (cs, ns, v) ->
  omap sent_of cs = [] /\ omap told_of cs = [] /\ omap init_of cs ++ v_waiting v = w /\
  Forall init_available cs /\ (default ready r = true -> v_waiting v = []).
Proof.
  intros Hw. unfold change_spec. cbn [v_up v_waiting v_members].
  destruct ready, r as [[]|]; intros [= <- _ <-]; simpl; try (rewrite ?Hw by done); split_and!; try done;
    try (by destruct (omap_CInit w SERVICE_AVAILABLE) as (? & ? & ->); rewrite ?app_nil_r).
  - by destruct (omap_CInit w SERVICE_AVAILABLE) as (? & ? & ?).
  - by destruct (omap_CInit w SERVICE_AVAILABLE) as (? & ? & ?).
  - apply Forall_fmap. by apply Forall_true.
Qed.

Lemma move_calls ready w x mv cs ns v :
  (ready = true -> w = []) -> move_spec mv (mkTelView ready w x) = (cs, ns, v) ->
  calls_ok ready w (v_waiting v) mv cs.
Proof.
  intros Hw. destruct mv as [e|op rsp|c|l|l]; cbn [move_spec].
  - destruct e as [env|b|c|y]; cbn [event_spec].
    1,2: intros Hc; apply change_calls in Hc as (H1 & H2 & H3 & H4 & H5); [|done];
      split; unfold tel_accepted, tel_refused; cbn [tel_asked tel_replied tel_handed option_list tel_ready_after];
      rewrite ?app_nil_r; try done; by destruct ready.
    + cbn [v_up v_waiting v_members]. destruct ready; intros [= <- _ <-];
        split; unfold tel_accepted, tel_refused; simpl; rewrite ?Hw by done; rewrite ?app_nil_r;
        try done; by repeat constructor.
    + cbn [v_up v_waiting v_members]. destruct (tel_asks y) as [op|] eqn:Ha, ready.
      * intros [= <- _ <-]; split; simpl; unfold tel_accepted, tel_refused; simpl; rewrite ?Ha, ?app_nil_r; auto;
        by repeat constructor.
      * intros [= <- _ <-]. unfold refused_calls. destruct (omap_CTold (tel_clients op).*1) as (H1 & H2 & H3 & H4).
        split; unfold tel_accepted, tel_refused; simpl; rewrite ?Ha, ?app_nil_r; simpl; rewrite ?H1, ?H2, ?H3; done.
      * intros Hi. assert (cs = [] /\ v_waiting v = w) as [-> ->].
        { destruct (tel_indicates y x) as [[o ms]|]; by injection Hi as <- _ <-. }
        split; unfold tel_accepted, tel_refused; simpl; rewrite ?Ha, ?app_nil_r; auto.
      * intros [= <- _ <-]. split; unfold tel_accepted, tel_refused; simpl; rewrite ?Ha, ?app_nil_r; auto; done.
  - intros [= <- _ <-]. unfold reply_calls.
    replace ((fun z : C * V * Z => CTold (fst (fst z))) <$> tel_answer op rsp)
      with (CTold <$> tel_answered (op, rsp)) by (unfold tel_answered; by rewrite <- list_fmap_compose).
    destruct (omap_CTold (tel_answered (op, rsp))) as (H1 & H2 & H3 & H4).
    split; unfold tel_accepted, tel_refused; simpl; rewrite ?H1, ?H2, ?H3, ?app_nil_r; try done; by destruct ready.
  - cbn [v_up]. destruct ready; intros [= <- _ <-];
      split; unfold tel_accepted, tel_refused; simpl; rewrite ?Hw by done; rewrite ?app_nil_r;
      try done; by repeat constructor.
  - intros [= <- _ <-]. split; unfold tel_accepted, tel_refused; simpl; rewrite ?app_nil_r; try done; by destruct ready.
  - intros [= <- _ <-]. split; unfold tel_accepted, tel_refused; simpl; rewrite ?app_nil_r; try done; by destruct ready.
Qed.

Lemma move_up mv v : v_up (snd (move_spec mv v)) = tel_ready_after (v_up v) mv.
Proof.
  assert (Hc : forall r, v_up (snd (change_spec r v)) = default (v_up v) r).
  { intros r. unfold change_spec. destruct (v_up v) eqn:Hv, r as [[]|]; simpl; by rewrite ?Hv. }
  destruct mv as [[env|b|c|y]|op rsp|c|l|l]; try done.
  - apply Hc.
  - apply Hc.
  - cbn [move_spec event_spec tel_ready_after]. destruct (v_up v) eqn:Hv; simpl; by rewrite ?Hv.
  - cbn [move_spec event_spec tel_ready_after]. destruct (tel_asks y), (v_up v) eqn:Hv; simpl; rewrite ?Hv; try done.
    destruct (tel_indicates y (v_members v)) as [[o ms]|]; simpl; by rewrite ?Hv.
Qed.

Lemma spec_calls mvs ready w x cs ns v :
  (ready = true -> w = []) -> spec_run mvs (mkTelView ready w x) = (cs, ns, v) ->
  omap sent_of cs = heard tel_accepted ready mvs /\
  omap told_of cs ≡ₚ (heard tel_refused ready mvs ≫= tel_op_clients) ++
                     (heard tel_replied ready mvs ≫= tel_answered) /\
  omap init_of cs ++ v_waiting v = w ++ heard tel_handed ready mvs /\
  Forall init_available cs /\ (v_up v = true -> v_waiting v = []).
Proof.
  revert ready w x cs ns v. induction mvs as [|mv mvs IH]; intros ready w x cs ns v Hw; simpl.
  { intros [= <- _ <-]. simpl. rewrite app_nil_r. split_and!; auto. }
  pose proof (move_up mv (mkTelView ready w x)) as Hup.
  destruct (move_spec mv (mkTelView ready w x)) as [[cs1 ns1] [r1 w1 x1]] eqn:Hm. simpl in Hup.
  apply move_calls in Hm as [M1 M2 M3 M4 M5]; [|done]. subst r1. cbn [v_waiting] in *.
  destruct (spec_run mvs _) as [[cs2 ns2] v2] eqn:Hr. intros [= <- _ <-].
  apply IH in Hr as (R1 & R2 & R3 & R4 & R5); [|done].
  rewrite !omap_app, M1, M2, R1, R2. split; [done|]. split.
  { rewrite !bind_app. destruct (tel_refused ready mv), (tel_replied ready mv); simpl;
      rewrite ?app_nil_r; solve_Permutation. }
  split; [by rewrite <- app_assoc, R3, app_assoc, M3, app_assoc|].
  split; [by apply Forall_app|done].
Qed.

Lemma tel_asked_split ready mvs :
  heard tel_asked ready mvs ≡ₚ heard tel_refused ready mvs ++ heard tel_accepted ready mvs.
Proof.
  revert ready. induction mvs as [|mv mvs IH]; intros ready; [done|]. simpl. rewrite IH.
  unfold tel_refused, tel_accepted. destruct ready; simpl; solve_Permutation.
Qed.

(** ** The manager's own members *)

(** What indications say of some matter while the manager is ready. *)
Definition tel_said_of {A} (f : Ev -> option A) (ready : bool) (mv : tel_move) : option A :=
  match mv with
  | TProcess (TelOther x) => if ready then match tel_asks x with None => f x | Some _ => None end else None
  | _ => None
  end.

(** The indication a move processes while the manager is ready. *)
Definition indication (ready : bool) (mv : tel_move) : option Ev := tel_said_of Some ready mv.

Lemma tel_step_own ready mv m ready' m' :
  tel_move_step mv (ready, m) = Done (ready', m') ->
  match indication ready mv with
  | Some x => exists ns, tel_indicates x (tel_own m) = Done (tel_own m', ns)
  | None => tel_own m' = tel_own m
  end.
Proof.
  intros Hs. pose proof Hs as Hmv. apply move_does in Hmv as [_ Hmv].
  destruct (move_spec mv (tel_view_of ready m)) as [[cs ns] v] eqn:Hm. destruct Hmv as [_ Hv].
  assert (Ho : tel_own m' = v_members v) by (by rewrite <- Hv). clear Hv.
  assert (Hc : forall r, change_spec r (tel_view_of ready m) = (cs, ns, v) -> v_members v = tel_own m).
  { intros r. unfold change_spec, tel_view_of. simpl. by destruct ready, r as [[]|]; intros [= _ _ <-]. }
  destruct mv as [e|op rsp|c|l|l]; cbn [move_spec] in Hm; try by (injection Hm as _ _ <-).
  destruct e as [env|b|c|x]; cbn [event_spec] in Hm; unfold indication, tel_said_of.
  - rewrite Ho. by eapply Hc.
  - rewrite Ho. by eapply Hc.
  - unfold tel_view_of in Hm. simpl in Hm. by destruct ready; injection Hm as _ _ <-.
  - unfold tel_view_of in Hm. simpl in Hm. destruct (tel_asks x) eqn:Ha, ready; try by (injection Hm as _ _ <-).
    cbn [tel_move_step] in Hs. unfold tel_step in Hs. rewrite Ha in Hs.
    apply bind_done' in Hs as (_ & _ & (m1 & Hi & [= _ <-])%bind_done').
    unfold tel_indicate in Hi. apply bind_done' in Hi as ([o ms] & Hi & [= <-]).
    exists ms. by rewrite (proj2 (tell_view ms (tel_set_own o m))).
Qed.

(** A member that indications set, [f] being what each sets it to: after a run it
    is what the last one heard said. *)
Lemma member_last {A} (g : X -> A) (f : Ev -> option A) mvs ready m ready' m' :
  (forall x o o' ns, tel_asks x = None -> tel_indicates x o = Done (o', ns) -> g o' = default (g o) (f x)) ->
  tel_run mvs (ready, m) = Done (ready', m') ->
  g (tel_own m') = default (g (tel_own m)) (last (heard (tel_said_of f) ready mvs)).
Proof.
  intros Hg. revert ready m. induction mvs as [|mv mvs IH]; intros ready m Hr; simpl in *.
  { by injection Hr as _ <-. }
  apply bind_done' in Hr as ([ready1 m1] & Hs & Hr). pose proof Hs as Ho. apply tel_step_own in Ho.
  apply move_does in Hs as [-> _]. rewrite (IH _ _ Hr).
  assert (Hm1 : g (tel_own m1) = default (g (tel_own m)) (tel_said_of f ready mv)).
  { unfold indication, tel_said_of in *.
    destruct mv as [[env|b|c|x]|op rsp|c|l|l], ready; try by rewrite Ho.
    destruct (tel_asks x) eqn:Ha; [by rewrite Ho|]. destruct Ho as [ns Hi]. by eapply Hg. }
  rewrite Hm1. destruct (tel_said_of f ready mv) as [a|]; [|done]. simpl.
  destruct (heard (tel_said_of f) (tel_ready_after ready mv) mvs) as [|b bs]; [done|].
  rewrite last_cons_cons. by destruct (last (b :: bs)) eqn:Hb; [|by apply last_None in Hb].
Qed.

(** ** Under every interleaving *)

(** What a run of the worker alone keeps. *)
Definition tel_ok (ready : bool) (m : TelManager) : Prop :=
  tel_last_status_ m = (if ready then SERVICE_AVAILABLE else SERVICE_UNAVAILABLE) /\
  (ready = true -> init_cbs_ m = []).

Lemma tel_broadcast_status n (m : TelManager) : tel_last_status_ (broadcast n m) = tel_last_status_ m.
Proof. unfold tel_broadcast. by destruct (decide _). Qed.

Lemma tel_tell_status ns (m : TelManager) : tel_last_status_ (tel_tell alive_at ns m) = tel_last_status_ m.
Proof. revert m. induction ns as [|n ns IH]; intros m; [done|]. simpl. by rewrite IH, tel_broadcast_status. Qed.

Lemma tel_step_ok ready e m ready' m' :
  tel_ok ready m -> tel_step ready e m = Done (ready', m') -> tel_ok ready' m'.
Proof.
  intros [Hs Hw] He. assert (Hwait : ready' = true -> init_cbs_ m' = []).
  { destruct (move_does ready (TProcess e) m ready' m') as [-> Hd]; [exact He|].
    destruct (move_spec _ _) as [[cs ns] v] eqn:Hm. destruct Hd as [_ Hv].
    apply move_calls in Hm as [_ _ _ _ Hn]; [|done]. by rewrite <- Hv in Hn. }
  split; [|done]. unfold tel_step in He. apply bind_done' in He as (_ & _ & He).
  assert (Hc : forall r, tel_change ready r m = (ready', m') ->
    tel_last_status_ m' = (if ready' then SERVICE_AVAILABLE else SERVICE_UNAVAILABLE)).
  { intros r. unfold tel_change. destruct ready, r as [[]|]; intros [= <- <-]; try done.
    - unfold tel_exit. rewrite tel_broadcast_status. by destruct (decide _).
    - unfold tel_entry. by rewrite tel_broadcast_status. }
  destruct e as [env|b|c|x].
  1,2: injection He as He; by apply Hc in He.
  - injection He as <- <-. by destruct ready.
  - apply bind_done' in He as (m1 & Hm & [= <- <-]). rewrite <- Hs.
    destruct (tel_asks x) as [op|], ready; try by injection Hm as <-.
    + injection Hm as <-. unfold tel_send. by destruct (tel_request op) as [[req schema] payload].
    + unfold tel_indicate in Hm. apply bind_done' in Hm as ([o ns] & _ & [= <-]). by rewrite tel_tell_status.
Qed.

Lemma tel_boot_ok x cb : tel_ok (tel_is_ready TelNotReady_St) (new_tel x cb).
Proof. split; [done|]. intros [=]. Qed.

Lemma tel_chart_run ps leaf m leaf' m' :
  tel_ok (tel_is_ready leaf) m -> chart_run handler tel_flush tel_lineage ps (leaf, m) = Done (leaf', m') ->
  tel_ok (tel_is_ready leaf') m'.
Proof.
  revert leaf m. induction ps as [|p ps IH]; intros leaf m Hok; simpl; [by intros [= <- <-]|].
  intros ([leaf1 m1] & Hs & Hr)%bind_done'. simpl in Hs. rewrite tel_chart_step in Hs.
  apply bind_done' in Hs as ([r m2] & Hs & [= <- <-]). eapply IH; [|exact Hr].
  apply tel_step_ok in Hs; [|done]. by destruct r.
Qed.
End TelProps.

(** Readiness of the telephony managers (phones, network selection, serving
    system). Under every interleaving of the worker with the threads that post to
    it, such a manager is ready exactly when the last report it processed (a
    readiness indication, or the loss of the bridge's connection) said that the
    modem's service is available, a failed service being neither; the status it
    publishes is "available" exactly then and "unavailable" otherwise; and while it
    is ready no init callback waits, so that leaving Ready finds none to fail. *)
Theorem tel_status {json} `{Json json, JsonValues json} {C L Op V Note X Ev}
    `{EqDecision L} `{!TelOps json C L Op V Note X Ev, !TelSpec json C L Op V Note X Ev}
    (topic : string -> string) (paId : string) (now_at counter_at : nat -> Z)
    (alive_at : nat -> L -> bool) (ndebug : bool)
    (h : Hsm tel_state (tel_event json C Ev) (TelManager json C L Op V Note X))
    (c : AO tel_state (tel_event json C Ev) (TelManager json C L Op V Note X)) (x : X) (cb : option C) :
  state_ h = st TelNotReady_St -> self h = new_tel x cb ->
  rtc (steps (tel_handler topic paId now_at counter_at alive_at) ndebug tel_outbox tel_flush) (started h) c ->
  let ready := last_report tel_report (payload <$> done c) in
  state_ (hsm c) = st (tel_leaf ready) /\ tel_isReadyDerived_ c = ready /\
  tel_getServiceStatus c = (if ready then SERVICE_AVAILABLE else SERVICE_UNAVAILABLE) /\
  (ready = true -> init_cbs_ (self (hsm c)) = []).
Proof.
  intros Hst Hm Hr ready.
  pose proof (tel_shell topic paId now_at counter_at alive_at) as Hsh.
  pose proof (shell_reach _ tel_lineage ndebug tel_outbox tel_flush (parent := tel_parent)
    (swallow := tel_swallow) TelNotReady_St TelReady_St tel_report h c Hst Hr) as Hleaf.
  destruct (reach_chart _ ndebug tel_outbox tel_flush tel_parent tel_lineage tel_swallow _ h c Hst Hr)
    as (leaf & Hc & Hst').
  rewrite Hm in Hc. apply tel_chart_run in Hc; [|exact _|apply tel_boot_ok].
  fold ready in Hleaf. rewrite Hst' in Hleaf. injection Hleaf as ->. destruct Hc as [H1 H2].
  assert (Hi : tel_is_ready (shell_leaf TelNotReady_St TelReady_St ready) = ready) by (by destruct ready).
  rewrite Hi in H1, H2. split; [done|]. split; [|done].
  unfold tel_isReadyDerived_. rewrite Hst'. by destruct ready.
Qed.


(** Listeners of the telephony managers. A listener that stays alive is told,
    from its registration to its withdrawal, exactly the notifications of the
    specification [spec_run], in order: "available" each time the service comes up,
    the first time included, "unavailable" each time it is lost, and what each
    indication says while the manager is ready; and the manager's own members and
    waiting init callbacks are those of the specification. *)
Theorem tel_listeners_told {json} `{Json json, JsonValues json} {C L Op V Note X Ev}
    `{EqDecision L} `{!TelOps json C L Op V Note X Ev, !TelSpec json C L Op V Note X Ev}
    (topic : string -> string) (paId : string) (now_at counter_at : nat -> Z)
    (alive_at : nat -> L -> bool) (l : L) (post : list tel_move) (ready1 ready : bool)
    (m1 m : TelManager json C L Op V Note X) :
  (forall n, alive_at n l = true) -> TDeregister l ∉ post ->
  tel_run topic paId now_at counter_at alive_at (TRegister l :: post) (ready1, m1) = Done (ready, m) ->
  let '(_, ns, v) := spec_run post (tel_view_of ready1 m1) in
  omap (tel_heard_by l) (tel_log m) = omap (tel_heard_by l) (tel_log m1) ++ ns /\ tel_view_of ready m = v.
Proof.
  intros Ha Hni Hr. simpl in Hr. apply run_does in Hr as [_ Hr]; [|exact _].
  change (tel_view_of ready1 _) with (tel_view_of ready1 m1) in Hr.
  destruct (spec_run post (tel_view_of ready1 m1)) as [[cs ns] v]. destruct Hr as (_ & Ht & Hv).
  split; [|done]. apply Ht; [done|]. split; [done|]. simpl. set_solver.
Qed.

(** ** Network selection at work *)

Module TelDemo.
Definition topic_ (name : string) : string := "telaf/" +:+ name.
Definition clock_ (n : nat) : Z := 1000 + Z.of_nat n.
Definition alive_ (n : nat) (l : nat) : bool := true.
Definition Op : Type := netsel_op (C := string).
Definition Ma : Type := TelManager jval string nat Op netsel_value Empty_set unit.
Definition Ev : Type := tel_event jval string Op.
Definition Mv : Type := tel_move (json := jval) (C := string) (L := nat) (Op := Op) (Ev := Op).
Definition ops : TelOps jval string nat Op netsel_value Empty_set unit Op := netsel_ops 1.
Definition spec : TelSpec jval string nat Op netsel_value Empty_set unit Op := netsel_spec 1.

Definition env (ms : list (string * jval)) : Envelope jval :=
  mkEnvelope 1 "0000000a" 7 "mpss" None (Some (jobj ms)) None.
Definition status (s : string) : Ev := TelReadinessEvt_Signal (env [("status", JString s)]).
Definition set_mode (c : string) : Op := SetNetworkSelectionMode MANUAL "262" "01" (Some c).

(** Refused; an init callback waits; ready; answered; a failed service is
    ignored; lost with the link. *)
Definition life : list Mv :=
  [TProcess (TelOther (RequestNetworkSelectionMode (Some "a"))); TProcess (SetInitCb_Signal "late");
   TRegister 3%nat; TProcess (status "AVAILABLE"); TInitDirect "later";
   TProcess (TelOther (set_mode "b")); TProcess (TelOther (RequestNetworkSelectionModeInfo (Some "c")));
   TReply (RequestNetworkSelectionModeInfo (Some "c"))
     (Some (env [("mode", JString "MANUAL"); ("mcc", JString "262"); ("mnc", JString "01")]));
   TReply (set_mode "b") None; TProcess (status "FAILED");
   TProcess (TelConnectivityChanged_Signal false)].

Definition boot : Ma := new_tel tt (Some "init").
Definition run_from (mvs : list Mv) (s : bool * Ma) : bool * Ma :=
  match tel_run (TelOps0 := ops) topic_ "pa-test-0001" clock_ clock_ alive_ mvs s with
  | Done x => x
  | Fail _ => s
  end.
Definition at1 := run_from (take 2 life) (false, boot).
Definition at_end := run_from life (false, boot).

Definition obj : Hsm tel_state Ev Ma :=
  mkHsm (st TelNotReady_St) (st TelNotReady_St) false false [] false [] boot.
Definition demo_handler := tel_handler (TelOps0 := ops) topic_ "pa-test-0001" clock_ clock_ alive_.
Definition schedule : list (action (E := Ev)) :=
  [APost (Fifo (status "AVAILABLE")); AWait; ADispatch; AOwnPost;
   APost (Fifo (status "FAILED")); AWait; ADispatch].
Definition up : AO tel_state Ev Ma :=
  default (started obj) (run_schedule demo_handler false tel_outbox tel_flush schedule (started obj)).

Lemma up_reach : rtc (steps demo_handler false tel_outbox tel_flush) (started obj) up.
Proof. apply (run_schedule_reach _ _ _ _ schedule). vm_compute. reflexivity. Qed.
End TelDemo.

Lemma tel_status_witness :
  tel_isReadyDerived_ TelDemo.up = true /\ tel_getServiceStatus TelDemo.up = SERVICE_AVAILABLE.
Proof.
  destruct (tel_status (TelOps0 := TelDemo.ops) (TelSpec0 := TelDemo.spec) TelDemo.topic_ "pa-test-0001"
    TelDemo.clock_ TelDemo.clock_ TelDemo.alive_ false TelDemo.obj TelDemo.up tt (Some "init"))
    as (_ & Hr & Hs & _); [reflexivity|reflexivity|apply TelDemo.up_reach|].
  split; [rewrite Hr|rewrite Hs]; vm_compute; reflexivity.
Defined.


Lemma tel_listeners_told_witness :
  omap (tel_heard_by 3%nat) (tel_log (snd TelDemo.at_end)) =
    [TelStatusChange SERVICE_AVAILABLE; TelStatusChange SERVICE_UNAVAILABLE].
Proof.
  pose proof (tel_listeners_told (TelOps0 := TelDemo.ops) (TelSpec0 := TelDemo.spec) TelDemo.topic_
    "pa-test-0001" TelDemo.clock_ TelDemo.clock_ TelDemo.alive_ 3%nat (drop 3 TelDemo.life)
    (fst TelDemo.at1) (fst TelDemo.at_end) (snd TelDemo.at1) (snd TelDemo.at_end)) as Ht.
  destruct Ht as [Ht _]; [reflexivity| |vm_compute; reflexivity|].
  - unfold TelDemo.life, drop. rewrite !not_elem_of_cons. repeat split; try discriminate.
    apply not_elem_of_nil.
  - rewrite Ht. vm_compute. reflexivity.
Defined.

(** The same question is answered with another mode by a timeout than when the
    service was lost first. *)
Example unavailable_mode_is_automatic :
  tel_refusal (TelOps := TelDemo.ops) (RequestNetworkSelectionMode (Some "c")) = [("c", Mode AUTOMATIC)] /\
  tel_answer (TelOps := TelDemo.ops) (RequestNetworkSelectionMode (Some "c")) None =
    [("c", Mode MODE_UNKNOWN, OPERATION_TIMEOUT)].
Proof. by vm_compute. Qed.
