(* ===== verification/TelServing.v ===== *)
(** * The telephony serving-system manager (tel/ServingSystemManager.cpp)

    The shell of TelShell.v, one manager for each SIM.  It keeps the last
    registration, dual-connectivity status and LTE CS capability the modem
    reported, which clients read without asking. *)

From S2P Require Import Prelude Hsm HsmSpec ActiveObject Json Envelope InitGate Manager Answers.
From S2P Require Import TelWire TelShell TelShellProps.

Local Open Scope Z_scope.

(** ** Values (telux/tel/ServingSystemManager.hpp, PhoneDefines.hpp) *)

Inductive ServiceDomain := DOMAIN_UNKNOWN | NO_SRV | CS_ONLY | PS_ONLY | CS_PS | CAMPED.
Inductive ServiceRegistrationState :=
  | REG_UNKNOWN | NO_SERVICE | LIMITED_SERVICE | REG_IN_SERVICE | LIMITED_REGIONAL | POWER_SAVE.
Inductive EndcAvailability := ENDC_UNKNOWN | ENDC_AVAILABLE | ENDC_UNAVAILABLE.
Inductive DcnrRestriction := DCNR_UNKNOWN | RESTRICTED | UNRESTRICTED.
Inductive LteCsCapability :=
  | LTE_CS_UNKNOWN | FULL_SERVICE | CSFB_NOT_PREFERRED | SMS_ONLY | LIMITED | BARRED.

Record ServingSystemInfo := mkSysInfo {
  rat : RadioTechnology; domain : ServiceDomain; reg_state : ServiceRegistrationState }.
Record DcStatus := mkDc { endcAvailability : EndcAvailability; dcnrRestriction : DcnrRestriction }.
Record RFBandInfo := mkBand { band : RFBand; channel : Z (* uint32_t *); bandWidth : RFBandWidth }.

(** [RatPrefType] by its value: an unscoped enumeration the code casts any index
    of the bit set to. *)
Definition PREF_NB1_NTN : Z := 9.

(** [ServingSystemInfo{}]: the members that are zero, not the unknown ones. *)
Definition no_sys_info : ServingSystemInfo := mkSysInfo RADIO_TECH_UNKNOWN NO_SRV NO_SERVICE.
(** [RFBandInfo{}]. *)
Definition no_band_info : RFBandInfo := mkBand BC_0 0 LTE_BW_NRB_6.

Definition wireToServiceDomain (s : string) : ServiceDomain :=
  if decide (s = "NO_SRV") then NO_SRV
  else if decide (s = "CS_ONLY") then CS_ONLY
  else if decide (s = "PS_ONLY") then PS_ONLY
  else if decide (s = "CS_PS") then CS_PS
  else if decide (s = "CAMPED") then CAMPED
  else DOMAIN_UNKNOWN.
Definition wireToServiceRegistrationState (s : string) : ServiceRegistrationState :=
  if decide (s = "NO_SERVICE") then NO_SERVICE
  else if decide (s = "LIMITED_SERVICE") then LIMITED_SERVICE
  else if decide (s = "IN_SERVICE") then REG_IN_SERVICE
  else if decide (s = "LIMITED_REGIONAL") then LIMITED_REGIONAL
  else if decide (s = "POWER_SAVE") then POWER_SAVE
  else REG_UNKNOWN.
Definition wireToEndcAvailability (s : string) : EndcAvailability :=
  if decide (s = "AVAILABLE") then ENDC_AVAILABLE
  else if decide (s = "UNAVAILABLE") then ENDC_UNAVAILABLE
  else ENDC_UNKNOWN.
Definition wireToDcnrRestriction (s : string) : DcnrRestriction :=
  if decide (s = "RESTRICTED") then RESTRICTED
  else if decide (s = "UNRESTRICTED") then UNRESTRICTED
  else DCNR_UNKNOWN.
Definition wireToLteCsCapability (s : string) : LteCsCapability :=
  if decide (s = "FULL_SERVICE") then FULL_SERVICE
  else if decide (s = "CSFB_NOT_PREFERRED") then CSFB_NOT_PREFERRED
  else if decide (s = "SMS_ONLY") then SMS_ONLY
  else if decide (s = "LIMITED") then LIMITED
  else if decide (s = "BARRED") then BARRED
  else LTE_CS_UNKNOWN.

Definition ratPrefToWire (t : Z) : string :=
  match t with
  | 0 => "CDMA_1X" | 1 => "CDMA_EVDO" | 2 => "GSM" | 3 => "WCDMA" | 4 => "LTE" | 5 => "TDSCDMA"
  | 6 => "NR5G" | 7 => "NR5G_NSA" | 8 => "NR5G_SA" | _ => "NB1_NTN"
  end.
Definition wireToRatPref (s : string) : Z :=
  if decide (s = "CDMA_1X") then 0
  else if decide (s = "CDMA_EVDO") then 1
  else if decide (s = "GSM") then 2
  else if decide (s = "WCDMA") then 3
  else if decide (s = "LTE") then 4
  else if decide (s = "TDSCDMA") then 5
  else if decide (s = "NR5G") then 6
  else if decide (s = "NR5G_NSA") then 7
  else if decide (s = "NR5G_SA") then 8
  else PREF_NB1_NTN.

(** The manager's own members. *)
Record ServingMembers := mkServing {
  last_sys_info_ : ServingSystemInfo;
  last_dc_status_ : DcStatus;
  last_lte_cs_capability_ : LteCsCapability }.

Definition no_serving : ServingMembers :=
  mkServing no_sys_info (mkDc ENDC_UNKNOWN DCNR_UNKNOWN) LTE_CS_UNKNOWN.

Section Serving.
Context {json : Type} `{Json json, JsonValues json} {C L : Type} `{EqDecision L}.
Context (slotId_ : Z).

(** ** Operations *)

Inductive tserv_op :=
  | SetRatPreference (ratPref : Z) (cb : option C)
  | RequestRatPreference (cb : option C)
  | RequestRFBandInfo (cb : option C).

Inductive tserv_event :=
  | AskServ (op : tserv_op)
  | SysInfoEvt_Signal (env : Envelope json)
  | DcStatusEvt_Signal (env : Envelope json)
  | RatPrefEvt_Signal (env : Envelope json)
  | LteCsCapabilityEvt_Signal (env : Envelope json).

Inductive tserv_value :=
  | NoServValue
  | RatPrefs (p : Z)
  | Band (i : RFBandInfo).

Inductive tserv_note :=
  | onSystemInfoChanged (i : ServingSystemInfo)
  | onDcStatusChanged (s : DcStatus)
  | onRatPreferenceChanged (p : Z)
  | onLteCsCapabilityChanged (c : LteCsCapability).

(** The names of the bits of a [bitset<16>], in order. *)
Definition rat_names (p : Z) : list string :=
  ratPrefToWire <$> filter (fun i => Z.testbit p i = true) (seqZ 0 16).

Definition tserv_request (op : tserv_op) : string * string * json :=
  match op with
  | SetRatPreference p _ =>
      ("radio.set_rat_preference.req", "radio.set_rat_preference.rsp",
       jobj [("ratPrefs", of_array (of_string <$> rat_names p)); ("slot", of_int slotId_)])
  | RequestRatPreference _ =>
      ("radio.request_rat_preference.req", "radio.request_rat_preference.rsp", jobj [("slot", of_int slotId_)])
  | RequestRFBandInfo _ =>
      ("radio.request_rf_band_info.req", "radio.request_rf_band_info.rsp", jobj [("slot", of_int slotId_)])
  end.

Definition tserv_clients (op : tserv_op) : list (C * tserv_value) :=
  match op with
  | SetRatPreference _ cb => clients_of NoServValue cb
  | RequestRatPreference cb => clients_of (RatPrefs 0) cb
  | RequestRFBandInfo cb => clients_of (Band no_band_info) cb
  end.

Definition decode_rat_prefs (d : json) : option Z :=
  mask_of <$> value_names "ratPrefs" wireToRatPref d.

Definition decode_sys_info (d : json) : option ServingSystemInfo :=
  r ← value_string "rat" "" d;
  m ← value_string "domain" "" d;
  s ← value_string "state" "" d;
  Some (mkSysInfo (wireToRadioTechnology r) (wireToServiceDomain m) (wireToServiceRegistrationState s)).

Definition decode_dc_status (d : json) : option DcStatus :=
  e ← value_string "endcAvailability" "" d;
  r ← value_string "dcnrRestriction" "" d;
  Some (mkDc (wireToEndcAvailability e) (wireToDcnrRestriction r)).

Definition decode_band_info (d : json) : option RFBandInfo :=
  b ← value_string "band" "" d;
  c ← value_uint "channel" 0 d;
  w ← value_string "bandWidth" "" d;
  Some (mkBand (wireToRFBand b) c (wireToRFBandWidth w)).

Definition tserv_answer (op : tserv_op) : option (Envelope json) -> list (C * tserv_value * Z) :=
  match op with
  | SetRatPreference _ cb => completeOrTimeout NoServValue cb
  | RequestRatPreference cb => completeData (RatPrefs 0) (fun d => RatPrefs <$> decode_rat_prefs d) cb
  | RequestRFBandInfo cb => completeData (Band no_band_info) (fun d => Band <$> decode_band_info d) cb
  end.

(** ** Indications *)

(** What cannot be decoded throws on the worker and ends the process. *)
Definition with_data {A} (env : Envelope json) (x : A) (k : json -> outcome A) : outcome A :=
  match data env with None => Done x | Some d => k d end.

Definition tserv_indicates (e : tserv_event) (x : ServingMembers) :
    outcome (ServingMembers * list tserv_note) :=
  match e with
  | AskServ _ => Done (x, [])
  | SysInfoEvt_Signal env =>
      with_data env (x, []) (fun d =>
        i ← or_die (decode_sys_info d);
        Done (mkServing i (last_dc_status_ x) (last_lte_cs_capability_ x), [onSystemInfoChanged i]))
  | DcStatusEvt_Signal env =>
      with_data env (x, []) (fun d =>
        s ← or_die (decode_dc_status d);
        Done (mkServing (last_sys_info_ x) s (last_lte_cs_capability_ x), [onDcStatusChanged s]))
  | LteCsCapabilityEvt_Signal env =>
      with_data env (x, []) (fun d =>
        s ← or_die (value_string "lteCsCapability" "" d);
        let c := wireToLteCsCapability s in
        Done (mkServing (last_sys_info_ x) (last_dc_status_ x) c, [onLteCsCapabilityChanged c]))
  | RatPrefEvt_Signal env =>
      with_data env (x, []) (fun d =>
        p ← or_die (decode_rat_prefs d); Done (x, [onRatPreferenceChanged p]))
  end.

#[local] Instance tserv_ops : TelOps json C L tserv_op tserv_value tserv_note ServingMembers tserv_event := {|
  tel_request := tserv_request;
  tel_clients := tserv_clients;
  tel_refusal := tserv_clients;
  tel_answer := tserv_answer;
  tel_asks e := match e with AskServ op => Some op | _ => None end;
  tel_indicates := tserv_indicates |}.

#[local] Instance tserv_spec : TelSpec json C L tserv_op tserv_value tserv_note ServingMembers tserv_event.
Proof.
  apply tel_spec_of. intros [p cb|cb|cb]; (split; [|done]); simpl; first [apply or_timeout_laws|apply data_laws].
Qed.

(** ** The public interface *)

Local Notation TServ := (TelManager json C L tserv_op tserv_value tserv_note ServingMembers).
Local Notation AOServ := (AOTel (json := json) (C := C) (L := L) (Op := tserv_op) (V := tserv_value)
  (Note := tserv_note) (X := ServingMembers) (Ev := tserv_event)).

Definition SimulaTelServingSystemManager (initCb : option C) : TServ := new_tel no_serving initCb.

Definition setRatPreference (p : Z) (cb : option C) : AOServ -> Status * AOServ :=
  tel_post_if_ready (AskServ (SetRatPreference p cb)).
Definition requestRatPreference (cb : option C) : AOServ -> Status * AOServ :=
  tel_post_if_ready (AskServ (RequestRatPreference cb)).
Definition requestRFBandInfo (cb : option C) : AOServ -> Status * AOServ :=
  tel_post_if_ready (AskServ (RequestRFBandInfo cb)).

(** Reads of the members; the first and the last are guarded by readiness. *)
Definition getSystemInfo (ready : bool) (m : TServ) : Status * ServingSystemInfo :=
  if ready then (SUCCESS_, last_sys_info_ (tel_own m)) else (NOTREADY, no_sys_info).
Definition getDcStatus (m : TServ) : DcStatus := last_dc_status_ (tel_own m).
Definition getLteCsCapability (ready : bool) (m : TServ) : Status * LteCsCapability :=
  if ready then (SUCCESS_, last_lte_cs_capability_ (tel_own m)) else (NOTREADY, LTE_CS_UNKNOWN).

(** Out of scope: the status or code alone, and what the caller's variable is set to. *)
Definition setServiceDomainPreference : Status := NOTSUPPORTED.
Definition requestServiceDomainPreference : Status := NOTSUPPORTED.
Definition requestNetworkTime : Status := NOTSUPPORTED.
Definition requestLteSib16NetworkTime : Status := NOTSUPPORTED.
Definition requestNr5gRrcUtcTime : Status := NOTSUPPORTED.
Definition getCallBarringInfo {A} (info : list A) : Status * list A := (NOTSUPPORTED, []).
Definition requestRFBandPreferences : Status := NOTSUPPORTED.
Definition setRFBandPreferences : Status := NOTSUPPORTED.
Definition requestRFBandCapability : Status := NOTSUPPORTED.
Definition setHplmnSearchTime (time : Z) : Z := NOT_SUPPORTED.
Definition getHplmnSearchTime (time : Z) : Z * Z := (NOT_SUPPORTED, 0).

(** The states: those of the shell, with the operations above. *)
Section States.
Context (topic : string -> string) (paId : string) (now_at counter_at : nat -> Z).
Context (alive_at : nat -> L -> bool).

Local Notation state_fn := (Event (tel_event json C tserv_event) -> TServ -> tel_result).

Definition TelServNotReady_St : state_fn := tel_NotReady.
Definition TelServReady_St : state_fn := tel_Ready topic paId now_at counter_at alive_at.
End States.

Definition tserv_subscriptions : list (string * (Envelope json -> tel_event json C tserv_event)) :=
  [("radio.subsys_ready_serv.ind", TelReadinessEvt_Signal);
   ("radio.sys_info.ind", fun env => TelOther (SysInfoEvt_Signal env));
   ("radio.dc_status.ind", fun env => TelOther (DcStatusEvt_Signal env));
   ("radio.rat_pref.ind", fun env => TelOther (RatPrefEvt_Signal env));
   ("radio.lte_cs_capability.ind", fun env => TelOther (LteCsCapabilityEvt_Signal env))].
End Serving.

(** ** Correctness: the members *)

(** What the indications say of each member. *)
Definition sys_info_said {json} `{Json json, JsonValues json} {C} (e : tserv_event (json := json) (C := C)) :
    option ServingSystemInfo :=
  match e with SysInfoEvt_Signal env => d ← data env; decode_sys_info d | _ => None end.
Definition dc_status_said {json} `{Json json, JsonValues json} {C} (e : tserv_event (json := json) (C := C)) :
    option DcStatus :=
  match e with DcStatusEvt_Signal env => d ← data env; decode_dc_status d | _ => None end.
Definition lte_cs_said {json} `{Json json, JsonValues json} {C} (e : tserv_event (json := json) (C := C)) :
    option LteCsCapability :=
  match e with
  | LteCsCapabilityEvt_Signal env => d ← data env; wireToLteCsCapability <$> value_string "lteCsCapability" "" d
  | _ => None
  end.

Lemma tserv_members {json} `{Json json, JsonValues json} {C} (e : tserv_event (json := json) (C := C)) o o' ns :
  tserv_indicates e o = Done (o', ns) ->
  last_sys_info_ o' = default (last_sys_info_ o) (sys_info_said e) /\
  last_dc_status_ o' = default (last_dc_status_ o) (dc_status_said e) /\
  last_lte_cs_capability_ o' = default (last_lte_cs_capability_ o) (lte_cs_said e).
Proof.
  destruct e as [op|env|env|env|env]; simpl; [by intros [= <- _]|..]; unfold with_data;
    (destruct (data env) as [d|]; [|by intros [= <- _]]); simpl;
    intros (i & Hi%or_die_done & [= <- _])%bind_done'; by rewrite ?Hi.
Qed.

(** The serving system clients read is the one last reported. In every
    execution of the telephony serving-system manager, getDcStatus is the last
    dual-connectivity status processed while it was ready, and getSystemInfo and
    getLteCsCapability the last registration and capability, once it is ready, and
    NOTREADY with the default value otherwise; before any was reported they are
    the initial values, and losing the service does not forget them. *)
Theorem serving_members_last {json} `{Json json, JsonValues json} {C L} `{EqDecision L} (slotId : Z)
    (topic : string -> string) (paId : string) (now_at counter_at : nat -> Z)
    (alive_at : nat -> L -> bool) (cb : option C)
    (mvs : list (tel_move (json := json) (C := C) (L := L) (Op := tserv_op (C := C))
                   (Ev := tserv_event (json := json) (C := C)))) (ready : bool)
    (m : TelManager json C L (tserv_op (C := C)) tserv_value tserv_note ServingMembers) :
  tel_run topic paId now_at counter_at alive_at (TelOps0 := tserv_ops slotId) mvs
    (false, SimulaTelServingSystemManager cb) = Done (ready, m) ->
  let final {A} (f : tserv_event -> option A) (x : A) :=
    default x (last (heard tel_ready_after (tel_said_of (TelOps0 := tserv_ops slotId) f) false mvs)) in
  getDcStatus m = final dc_status_said (mkDc ENDC_UNKNOWN DCNR_UNKNOWN) /\
  getSystemInfo ready m =
    (if ready then (SUCCESS_, final sys_info_said no_sys_info) else (NOTREADY, no_sys_info)) /\
  getLteCsCapability ready m =
    (if ready then (SUCCESS_, final lte_cs_said LTE_CS_UNKNOWN) else (NOTREADY, LTE_CS_UNKNOWN)).
Proof.
  intros Hr final. unfold getDcStatus, getSystemInfo, getLteCsCapability.
  assert (Hlast : forall (A : Set) (g : ServingMembers -> A) (f : tserv_event -> option A),
    (forall e o o' ns, tserv_indicates e o = Done (o', ns) -> g o' = default (g o) (f e)) ->
    g (tel_own m) = final A f (g no_serving)).
  { intros A g f Hg. refine (member_last topic paId now_at counter_at alive_at
      (TelOps0 := tserv_ops slotId) (TelSpec0 := tserv_spec slotId) g f mvs _ _ _ _ _ Hr).
    intros e o o' ns _. apply Hg. }
  rewrite (Hlast _ last_dc_status_ dc_status_said), (Hlast _ last_sys_info_ sys_info_said),
    (Hlast _ last_lte_cs_capability_ lte_cs_said);
    [done|intros e o o' ns (? & ? & ?)%tserv_members; done..].
Qed.

(** ** Correctness: the codecs *)

Lemma mapM_fmap_some {A B D} (f : B -> option D) (g : A -> B) (h : A -> D) l :
  (forall a, f (g a) = Some (h a)) -> mapM f (g <$> l) = Some (h <$> l).
Proof. intros Hf. apply mapM_Some. rewrite Forall2_fmap. apply Forall_Forall2_diag, Forall_true. done. Qed.

Lemma filter_none {A} (P : A -> Prop) `{!forall x, Decision (P x)} l :
  Forall (fun x => ~ P x) l -> filter P l = [].
Proof. induction 1 as [|x l Hx _ IH]; [done|]. by rewrite filter_cons_False. Qed.

Section ServCodec.
Context {json : Type} `{JsonSpec json, !JsonValues json, !JsonValuesSpec json}.

(** A list of names as it is read back. *)
Lemma value_names_read {A} k (of_wire : string -> A) names d :
  value_json k jarray d = Some (of_array (of_string <$> names) : json) ->
  value_names k of_wire d = Some (of_wire <$> names).
Proof.
  intros Hd. unfold value_names, decode_list. rewrite Hd. simpl. rewrite of_array_elements.
  apply mapM_fmap_some. intros s. unfold as_string. by rewrite of_string_is, of_string_get.
Qed.

Lemma rat_of_name i : 0 <= i < 10 -> wireToRatPref (ratPrefToWire i) = i.
Proof.
  intros Hi. assert (i ∈ seqZ 0 10) as Hin by (rewrite elem_of_seqZ; lia). vm_compute in Hin.
  repeat (apply elem_of_cons in Hin as [->|Hin]; [reflexivity|]). by apply elem_of_nil in Hin.
Qed.

Lemma rat_of_other i : 10 <= i < 16 -> wireToRatPref (ratPrefToWire i) = PREF_NB1_NTN.
Proof.
  intros Hi. assert (i ∈ seqZ 10 6) as Hin by (rewrite elem_of_seqZ; lia). vm_compute in Hin.
  repeat (apply elem_of_cons in Hin as [->|Hin]; [reflexivity|]). by apply elem_of_nil in Hin.
Qed.

Lemma wireToRatPref_bound s : 0 <= wireToRatPref s < 10.
Proof. unfold wireToRatPref, PREF_NB1_NTN. repeat (case_decide; [lia|]). lia. Qed.

(** What a preference becomes on the wire and back. *)
Lemma rat_prefs_read slot p :
  decode_rat_prefs (jobj [("ratPrefs", of_array (of_string <$> rat_names p)); ("slot", of_int slot)] : json) =
    Some (mask_of ((fun i => wireToRatPref (ratPrefToWire i)) <$>
                     filter (fun i => Z.testbit p i = true) (seqZ 0 16))).
Proof.
  unfold decode_rat_prefs. erewrite value_names_read.
  - simpl. f_equal. f_equal. symmetry. apply (list_fmap_compose ratPrefToWire wireToRatPref).
  - unfold value_json. by rewrite (read_as Some "ratPrefs" jarray [("ratPrefs", _); ("slot", _)] _ eq_refl).
Qed.

Lemma value_names_forall {A} k (of_wire : string -> A) d l (P : A -> Prop) :
  (forall s, P (of_wire s)) -> value_names k of_wire (d : json) = Some l -> Forall P l.
Proof.
  intros HP. unfold value_names, decode_list. destruct (value_json k jarray d) as [j|]; [|done]. simpl.
  intros Hl%mapM_Some. induction Hl as [|x y l l' Hx _ IH]; [done|]. constructor; [|done].
  destruct (as_string x); [|done]. simpl in Hx. injection Hx as <-. apply HP.
Qed.

Lemma high_bits_none p : 0 <= p < 2 ^ 10 -> filter (fun i => Z.testbit p i = true) (seqZ 10 6) = [].
Proof.
  intros Hp. apply filter_none, Forall_forall. intros i Hi%elem_of_seqZ Hb.
  rewrite <- (Z.mod_small p (2 ^ 10)), Z.mod_pow2_bits_high in Hb by lia. done.
Qed.
End ServCodec.

(** The codecs of the serving system. A preference of radio technologies
    among the ten that exist survives being sent and read back; whatever the modem
    lists, a decoded preference has no bit beyond these ten (names it does not know
    count as NB-IoT); and each RF band and bandwidth is decoded from its own name. *)
Theorem rat_prefs_faithful {json} `{JsonSpec json, !JsonValues json, !JsonValuesSpec json} {C : Type}
    (slot p : Z) (cb : option C) (d : json) (q : Z) (b : RFBand) (w : RFBandWidth) :
  0 <= p < 2 ^ 10 -> decode_rat_prefs d = Some q ->
  decode_rat_prefs (snd (tserv_request slot (SetRatPreference p cb)) : json) = Some p /\
  0 <= q < 2 ^ 10 /\
  (b <> INVALID_BAND -> wireToRFBand (rf_band_name b) = b) /\
  (w <> INVALID_BANDWIDTH -> wireToRFBandWidth (rf_width_name w) = w).
Proof.
  intros Hp Hq. split; [|split; [|split]].
  - simpl. rewrite rat_prefs_read. f_equal. change (seqZ 0 16) with (seqZ 0 10 ++ seqZ 10 6).
    rewrite filter_app, high_bits_none, app_nil_r by done.
    etransitivity; [|apply (mask_self 10 p); simpl; lia]. change (Z.of_nat 10) with 10. f_equal.
    rewrite <- list_fmap_id. apply list_fmap_ext. intros n i Hi%list_elem_of_lookup_2.
    rewrite list_elem_of_filter, elem_of_seqZ in Hi. destruct Hi as [_ Hi]. by apply rat_of_name.
  - unfold decode_rat_prefs in Hq. destruct (value_names _ _ _) as [l|] eqn:Hl; [|done]. injection Hq as <-.
    apply mask_bound; [lia|]. eapply value_names_forall; [|exact Hl]. apply wireToRatPref_bound.
  - by destruct b.
  - by destruct w.
Qed.

Module ServDemo.
Definition topic_ (name : string) : string := "telaf/" +:+ name.
Definition clock_ (n : nat) : Z := 1000 + Z.of_nat n.
Definition alive_ (n : nat) (l : nat) : bool := true.
Definition Op : Type := tserv_op (C := string).
Definition Ev : Type := tserv_event (json := jval) (C := string).
Definition Ma : Type := TelManager jval string nat Op tserv_value tserv_note ServingMembers.
Definition Mv : Type := tel_move (json := jval) (C := string) (L := nat) (Op := Op) (Ev := Ev).

Definition env (ms : list (string * jval)) : Envelope jval :=
  mkEnvelope 1 "0000000a" 7 "mpss" None (Some (jobj ms)) None.
Definition status (s : string) : Mv := TProcess (TelReadinessEvt_Signal (env [("status", JString s)])).
Definition info (r d s : string) : Mv :=
  TProcess (TelOther (SysInfoEvt_Signal
    (env [("rat", JString r); ("domain", JString d); ("state", JString s)]))).

(** A registration while not ready is not heard. *)
Definition life : list Mv :=
  [info "RADIO_TECH_GSM" "CS_ONLY" "IN_SERVICE"; status "AVAILABLE";
   info "RADIO_TECH_LTE" "CS_PS" "IN_SERVICE"; info "RADIO_TECH_NR5G" "PS_ONLY" "ROAMING";
   status "UNAVAILABLE"; status "AVAILABLE"].
Definition boot : Ma := SimulaTelServingSystemManager (Some "init").
Definition at_end : bool * Ma :=
  match tel_run (TelOps0 := tserv_ops 1) topic_ "pa-test-0001" clock_ clock_ alive_ life (false, boot) with
  | Done x => x
  | Fail _ => (false, boot)
  end.
End ServDemo.

Lemma serving_members_last_witness :
  getSystemInfo (fst ServDemo.at_end) (snd ServDemo.at_end) =
    (SUCCESS_, mkSysInfo RADIO_TECH_NR5G PS_ONLY REG_UNKNOWN).
Proof.
  destruct (serving_members_last 1 ServDemo.topic_ "pa-test-0001" ServDemo.clock_ ServDemo.clock_
    ServDemo.alive_ (Some "init") ServDemo.life (fst ServDemo.at_end) (snd ServDemo.at_end)) as (_ & Hs & _).
  - vm_compute. reflexivity.
  - rewrite Hs. vm_compute. reflexivity.
Defined.

Lemma rat_prefs_faithful_witness :
  decode_rat_prefs (snd (tserv_request (C := string) 1 (SetRatPreference 336 None)) : jval) = Some 336 /\
  wireToRFBand "NR5G_BAND_257" = NR5G_BAND_257.
Proof.
  destruct (rat_prefs_faithful (json := jval) (C := string) 1 336 None
    (jobj [("ratPrefs", JArray [JString "LTE"; JString "6G"])]) 528 NR5G_BAND_257 LTE_BW_NRB_6)
    as (Hp & _ & Hb & _).
  - lia.
  - vm_compute. reflexivity.
  - split; [exact Hp|]. apply Hb. discriminate.
Defined.

(** Before the first report the registration is "no service", not "unknown". *)
Example first_read_is_no_service :
  getSystemInfo true (SimulaTelServingSystemManager (json := jval) (C := string) (L := nat) None) =
    (SUCCESS_, mkSysInfo RADIO_TECH_UNKNOWN NO_SRV NO_SERVICE).
Proof. reflexivity. Qed.
