(* ===== verification/SignalStrength.v ===== *)
(** * Signal strengths (tel/SignalStrength.cpp)

    One value class for each radio technology: the constructor keeps a reading that
    is in its range and replaces one that is not by [INVALID_SIGNAL_STRENGTH_VALUE];
    [getLevel] grades the readings by tables of thresholds. *)

From S2P Require Import Prelude Json Manager.

Local Open Scope Z_scope.

Definition INVALID_SIGNAL_STRENGTH_VALUE : Z := 2147483647.

Inductive SignalStrengthLevel :=
  | LEVEL_UNKNOWN | LEVEL_1 | LEVEL_2 | LEVEL_3 | LEVEL_4 | LEVEL_5.

#[export] Instance level_eq_dec : EqDecision SignalStrengthLevel.
Proof. solve_decision. Defined.

(** The enumerators' values, by which levels are compared. *)
Definition level_value (l : SignalStrengthLevel) : Z :=
  match l with
  | LEVEL_UNKNOWN => -1 | LEVEL_1 => 0 | LEVEL_2 => 1 | LEVEL_3 => 2 | LEVEL_4 => 3 | LEVEL_5 => 4
  end.

Definition inRange (value min max : Z) : Z :=
  if (value <? min) || (value >? max) then INVALID_SIGNAL_STRENGTH_VALUE else value.

(** The comparisons the accessors make. *)
Definition within (value min max : Z) : bool := (value >=? min) && (value <=? max).

(** ** Levels *)

(** A [std::map] from levels to thresholds, in the order of its keys. *)
Definition level_map : Type := list (SignalStrengthLevel * Z).
Definition levels (t1 t2 t3 t4 t5 : Z) : level_map :=
  [(LEVEL_1, t1); (LEVEL_2, t2); (LEVEL_3, t3); (LEVEL_4, t4); (LEVEL_5, t5)].

Definition kGsmLevelMap : level_map := levels 0 3 5 8 12.
Definition kLteRsrpLevelMap : level_map := levels (-140) (-100) (-90) (-80) (-70).
Definition kLteRssnrLevelMap : level_map := levels (-200) (-30) 10 45 130.
Definition kCdmaDbmMap : level_map := levels (-110) (-100) (-95) (-85) (-75).
Definition kCdmaEcioMap : level_map := levels (-160) (-150) (-130) (-110) (-90).
Definition kEvdoDbmMap : level_map := levels (-115) (-105) (-90) (-75) (-65).
Definition kEvdoSnrMap : level_map := levels 0 1 3 5 7.
Definition kWcdmaLevelMap : level_map := levels 0 3 5 8 12.
Definition kNr5gRsrpLevelMap : level_map := levels (-140) (-110) (-90) (-80) (-65).
Definition kNr5gRssnrLevelMap : level_map := levels (-230) (-50) 50 150 300.

(** The loop: [level] is the last threshold passed. *)
Fixpoint level_from (level : SignalStrengthLevel) (val : Z) (m : level_map) : SignalStrengthLevel :=
  match m with
  | [] => level
  | (l, t) :: m => if val >=? t then level_from l val m else level
  end.
Definition calculateLevel (val : Z) (m : level_map) : SignalStrengthLevel := level_from LEVEL_UNKNOWN val m.

(** A level if the reading is in its range. *)
Definition level_within (val min max : Z) (m : level_map) : SignalStrengthLevel :=
  if within val min max then calculateLevel val m else LEVEL_UNKNOWN.

Definition max_level (a b : SignalStrengthLevel) : SignalStrengthLevel :=
  if level_value a >? level_value b then a else b.
Definition min_level (a b : SignalStrengthLevel) : SignalStrengthLevel :=
  if level_value a <? level_value b then a else b.

(** The best of two readings, or the one there is, or [def]. *)
Definition best_level (rsrpLevel rssnrLevel def : SignalStrengthLevel) : SignalStrengthLevel :=
  if decide (rsrpLevel <> LEVEL_UNKNOWN /\ rssnrLevel <> LEVEL_UNKNOWN) then max_level rsrpLevel rssnrLevel
  else if decide (rssnrLevel <> LEVEL_UNKNOWN) then rssnrLevel
  else if decide (rsrpLevel <> LEVEL_UNKNOWN) then rsrpLevel
  else def.

(** ** LTE *)

Record LteSignalStrengthInfo := mkLte {
  lteSignalStrength_ : Z; lteRssi_ : Z; lteRsrp_ : Z; lteAsu_ : Z; lteRsrq_ : Z; lteRssnr_ : Z;
  lteCqi_ : Z; lteTimingAdvance_ : Z }.

Definition lteSignalStrengthInfo (lteSignalStrength lteRsrp lteRsrq lteRssnr lteCqi timingAdvance lteRssi : Z) :
    LteSignalStrengthInfo := {|
  lteSignalStrength_ := inRange lteSignalStrength 0 31;
  lteRssi_ := inRange lteRssi (-100) (-25);
  lteRsrp_ := inRange lteRsrp (-140) (-44);
  lteAsu_ := inRange lteSignalStrength 0 31;
  lteRsrq_ := inRange lteRsrq (-20) (-3);
  lteRssnr_ := inRange lteRssnr (-200) 300;
  lteCqi_ := inRange lteCqi 0 15;
  lteTimingAdvance_ := inRange timingAdvance 0 2147483646 |}.

Definition lte_getDbm (i : LteSignalStrengthInfo) : Z := lteRsrp_ i.

(** The grade by signal strength looks up the noise ratio, not the strength. *)
Definition lte_getLevel (i : LteSignalStrengthInfo) : SignalStrengthLevel :=
  let rsrpLevel := level_within (lteRsrp_ i) (-140) (-44) kLteRsrpLevelMap in
  let rsnrLevel := level_within (lteRssnr_ i) (-200) 300 kLteRssnrLevelMap in
  let sigStrengthLevel :=
    if within (lteSignalStrength_ i) 0 31 then calculateLevel (lteRssnr_ i) kLteRssnrLevelMap
    else LEVEL_UNKNOWN in
  best_level rsrpLevel rsnrLevel sigStrengthLevel.

(** ** GSM *)

Record GsmSignalStrengthInfo := mkGsm {
  gsmSignalStrength_ : Z; gsmRssi_ : Z; gsmBitErrorRate_ : Z; gsmTimingAdvance_ : Z }.

Definition gsmSignalStrengthInfo (gsmSignalStrength gsmBitErrorRate timingAdvance gsmRssi : Z) :
    GsmSignalStrengthInfo := {|
  gsmSignalStrength_ := inRange gsmSignalStrength 0 31;
  gsmRssi_ := inRange gsmRssi (-100) (-25);
  gsmBitErrorRate_ := inRange gsmBitErrorRate 0 7;
  gsmTimingAdvance_ := inRange timingAdvance 0 219 |}.

(** From a strength of 0 to 31 to dBm. *)
Definition strength_dbm (signalStrength : Z) : Z :=
  let dBm := inRange signalStrength 0 31 in
  if decide (dBm <> INVALID_SIGNAL_STRENGTH_VALUE) then -113 + 2 * signalStrength else dBm.

Definition gsm_getDbm (i : GsmSignalStrengthInfo) : Z := strength_dbm (gsmSignalStrength_ i).
Definition gsm_getLevel (i : GsmSignalStrengthInfo) : SignalStrengthLevel :=
  level_within (gsmSignalStrength_ i) 0 31 kGsmLevelMap.

(** ** CDMA and EVDO *)

Record CdmaSignalStrengthInfo := mkCdma {
  cdmaDbm_ : Z; cdmaEcio_ : Z; evdoDbm_ : Z; evdoEcio_ : Z; evdoSignalNoiseRatio_ : Z }.

Definition cdmaSignalStrengthInfo (cdmaDbm cdmaEcio evdoDbm evdoEcio evdoSignalNoiseRatio : Z) :
    CdmaSignalStrengthInfo := {|
  cdmaDbm_ := inRange cdmaDbm (-120) 0;
  cdmaEcio_ := inRange cdmaEcio (-160) 0;
  evdoDbm_ := inRange evdoDbm (-120) 0;
  evdoEcio_ := inRange evdoEcio (-160) 0;
  evdoSignalNoiseRatio_ := inRange evdoSignalNoiseRatio 0 8 |}.

(** Compared with the largest value there is, not the smallest. *)
Definition cdma_getDbm (i : CdmaSignalStrengthInfo) : Z :=
  let cdmaDbm := if cdmaDbm_ i >? 0 then cdmaDbm_ i else -120 in
  let evdoDbm := if evdoDbm_ i >? 0 then evdoDbm_ i else -120 in
  if cdmaDbm <? evdoDbm then cdmaDbm else evdoDbm.

Definition getCdmaLevel (i : CdmaSignalStrengthInfo) : SignalStrengthLevel :=
  min_level (level_within (cdmaDbm_ i) (-120) 0 kCdmaDbmMap) (level_within (cdmaEcio_ i) (-160) 0 kCdmaEcioMap).

Definition getEvdoLevel (i : CdmaSignalStrengthInfo) : SignalStrengthLevel :=
  let evdoSnrLevel :=
    if (evdoSignalNoiseRatio_ i >? 0) && (evdoSignalNoiseRatio_ i <=? 8)
    then calculateLevel (evdoSignalNoiseRatio_ i) kEvdoSnrMap else LEVEL_UNKNOWN in
  min_level (level_within (evdoDbm_ i) (-120) 0 kEvdoDbmMap) evdoSnrLevel.

Definition cdma_getLevel (i : CdmaSignalStrengthInfo) : SignalStrengthLevel :=
  let cdmaLevel := getCdmaLevel i in
  let evdoLevel := getEvdoLevel i in
  if decide (evdoLevel = LEVEL_UNKNOWN) then cdmaLevel
  else if decide (cdmaLevel = LEVEL_UNKNOWN) then evdoLevel
  else min_level cdmaLevel evdoLevel.

(** ** WCDMA *)

Record WcdmaSignalStrengthInfo := mkWcdma {
  wcdmaSignalStrength_ : Z; wcdmaBitErrorRate_ : Z; wcdmaEcio_ : Z; wcdmaRscp_ : Z; wcdmaRssi_ : Z }.

Definition wcdmaSignalStrengthInfo2 (signalStrength bitErrorRate : Z) : WcdmaSignalStrengthInfo := {|
  wcdmaSignalStrength_ := inRange signalStrength 0 31;
  wcdmaBitErrorRate_ := inRange bitErrorRate 0 7;
  wcdmaEcio_ := INVALID_SIGNAL_STRENGTH_VALUE;
  wcdmaRscp_ := INVALID_SIGNAL_STRENGTH_VALUE;
  wcdmaRssi_ := INVALID_SIGNAL_STRENGTH_VALUE |}.

Definition wcdmaSignalStrengthInfo (signalStrength bitErrorRate wcdmaEcio wcdmaRscp wcdmaRssi : Z) :
    WcdmaSignalStrengthInfo := {|
  wcdmaSignalStrength_ := inRange signalStrength 0 31;
  wcdmaBitErrorRate_ := inRange bitErrorRate 0 7;
  wcdmaEcio_ := inRange wcdmaEcio (-20) 0;
  wcdmaRscp_ := inRange wcdmaRscp (-120) (-24);
  wcdmaRssi_ := inRange wcdmaRssi (-100) (-25) |}.

Definition wcdma_getLevel (i : WcdmaSignalStrengthInfo) : SignalStrengthLevel :=
  level_within (wcdmaSignalStrength_ i) 0 31 kWcdmaLevelMap.
Definition wcdma_getDbm (i : WcdmaSignalStrengthInfo) : Z := strength_dbm (wcdmaSignalStrength_ i).

(** ** TD-SCDMA *)

Record TdscdmaSignalStrengthInfo := mkTdscdma { tdscdmaRscp_ : Z }.
Definition tdscdmaSignalStrengthInfo (rscp : Z) : TdscdmaSignalStrengthInfo :=
  {| tdscdmaRscp_ := inRange rscp (-120) (-25) |}.

(** ** 5G NR *)

Record Nr5gSignalStrengthInfo := mkNr5g { nr5gAsu_ : Z; nr5gRsrp_ : Z; nr5gRsrq_ : Z; nr5gRssnr_ : Z }.

Definition nr5gSignalStrengthInfo (rsrp rsrq rssnr : Z) : Nr5gSignalStrengthInfo := {|
  nr5gRsrp_ := inRange rsrp (-140) (-44);
  nr5gRsrq_ := inRange rsrq (-43) 20;
  nr5gRssnr_ := inRange rssnr (-230) 400;
  nr5gAsu_ := inRange rsrp (-140) (-44) |}.

Definition getNr5gSignalStrength (i : Nr5gSignalStrengthInfo) : Z :=
  if decide (nr5gRsrp_ i = INVALID_SIGNAL_STRENGTH_VALUE) then INVALID_SIGNAL_STRENGTH_VALUE
  else
    let ss := nr5gRsrp_ i - (-140) in
    let ss := if ss <? 0 then 0 else ss in
    if ss >? 97 then 97 else ss.
Definition nr5g_getDbm (i : Nr5gSignalStrengthInfo) : Z := nr5gRsrp_ i.
Definition nr5g_getLevel (i : Nr5gSignalStrengthInfo) : SignalStrengthLevel :=
  best_level (level_within (nr5gRsrp_ i) (-140) (-44) kNr5gRsrpLevelMap)
    (level_within (nr5gRssnr_ i) (-230) 400 kNr5gRssnrLevelMap) LEVEL_UNKNOWN.

(** ** NB-IoT NTN *)

Record Nb1NtnSignalStrengthInfo := mkNb1 {
  nb1SignalStrength_ : Z; nb1Rsrp_ : Z; nb1Rsrq_ : Z; nb1Rssnr_ : Z; nb1Rssi_ : Z }.

Definition nb1NtnSignalStrengthInfo (signalStrength rsrp rsrq rssnr rssi : Z) : Nb1NtnSignalStrengthInfo := {|
  nb1SignalStrength_ := inRange signalStrength 0 31;
  nb1Rsrp_ := inRange rsrp (-140) (-44);
  nb1Rsrq_ := inRange rsrq (-20) (-3);
  nb1Rssnr_ := inRange rssnr (-200) 300;
  nb1Rssi_ := inRange rssi (-100) (-25) |}.

Definition nb1_getLevel (i : Nb1NtnSignalStrengthInfo) : SignalStrengthLevel :=
  best_level (level_within (nb1Rsrp_ i) (-140) (-44) kLteRsrpLevelMap)
    (level_within (nb1Rssnr_ i) (-200) 300 kLteRssnrLevelMap) LEVEL_UNKNOWN.
Definition nb1_getDbm (i : Nb1NtnSignalStrengthInfo) : Z := nb1Rsrp_ i.

(** ** The aggregate: each a pointer that may be null *)

Record SignalStrength := mkSignalStrength {
  lteSS_ : option LteSignalStrengthInfo;
  gsmSS_ : option GsmSignalStrengthInfo;
  cdmaSS_ : option CdmaSignalStrengthInfo;
  wcdmaSS_ : option WcdmaSignalStrengthInfo;
  tdscdmaSS_ : option TdscdmaSignalStrengthInfo;
  nr5gSS_ : option Nr5gSignalStrengthInfo;
  nb1NtnSS_ : option Nb1NtnSignalStrengthInfo }.

(** ** Correctness: levels *)

Section Levels.
Implicit Types (v t : Z) (l : SignalStrengthLevel) (m : level_map).

(** The reading passes the threshold of level [l]. *)
Definition reaches m v l : Prop := exists t, (l, t) ∈ m /\ t <= v.

(** In range, and past the threshold. *)
Definition graded v min max m l : Prop := min <= v <= max /\ reaches m v l.

Definition at_least l l' : Prop := level_value l <= level_value l'.

Definition ascending m : Prop :=
  exists t1 t2 t3 t4 t5, m = levels t1 t2 t3 t4 t5 /\ t1 < t2 /\ t2 < t3 /\ t3 < t4 /\ t4 < t5.

Lemma calculateLevel_spec m v l :
  ascending m -> l <> LEVEL_UNKNOWN -> at_least l (calculateLevel v m) <-> reaches m v l.
Proof.
  intros (t1 & t2 & t3 & t4 & t5 & -> & H1 & H2 & H3 & H4) Hl.
  transitivity (match l with
    | LEVEL_UNKNOWN => True | LEVEL_1 => t1 <= v | LEVEL_2 => t2 <= v | LEVEL_3 => t3 <= v
    | LEVEL_4 => t4 <= v | LEVEL_5 => t5 <= v end).
  - unfold calculateLevel, at_least. cbn [level_from levels]. rewrite !Z.geb_leb.
    destruct (Z.leb_spec t1 v), (Z.leb_spec t2 v), (Z.leb_spec t3 v), (Z.leb_spec t4 v), (Z.leb_spec t5 v);
      destruct l; cbn; try done; try lia.
  - unfold reaches, levels. split.
    + intros Hv. destruct l; [done|..]; eexists; (split; [|exact Hv]); rewrite !elem_of_cons; tauto.
    + intros (t & Hin & Ht). rewrite !elem_of_cons, elem_of_nil in Hin.
      destruct Hin as [[= -> ->]|[[= -> ->]|[[= -> ->]|[[= -> ->]|[[= -> ->]|[]]]]]]; done.
Qed.

Lemma unknown_lowest l : at_least LEVEL_UNKNOWN l.
Proof. unfold at_least. destruct l; simpl; lia. Qed.
Lemma above_unknown l : l <> LEVEL_UNKNOWN -> ~ at_least l LEVEL_UNKNOWN.
Proof. unfold at_least. destruct l; simpl; [done|lia..]. Qed.

Lemma within_true v min max : within v min max = true <-> min <= v <= max.
Proof. unfold within. rewrite andb_true_iff, Z.geb_leb, !Z.leb_le. done. Qed.

(** A reading as the constructor keeps it. *)
Lemma inRange_in v min max : min <= v <= max -> inRange v min max = v.
Proof. intros Hv. unfold inRange. destruct (Z.ltb_spec v min), (Z.gtb_spec v max); simpl; lia. Qed.
Lemma inRange_out v min max : ~ min <= v <= max -> inRange v min max = INVALID_SIGNAL_STRENGTH_VALUE.
Proof. intros Hv. unfold inRange. destruct (Z.ltb_spec v min), (Z.gtb_spec v max); simpl; lia. Qed.

Lemma kept_within v min max lo hi :
  max < INVALID_SIGNAL_STRENGTH_VALUE -> hi < INVALID_SIGNAL_STRENGTH_VALUE -> lo <= min -> max <= hi ->
  within (inRange v min max) lo hi = within v min max.
Proof.
  intros Hm Hh Hlo Hhi. apply eq_true_iff_eq. rewrite !within_true.
  destruct (decide (min <= v <= max)) as [Hv|Hv]; [rewrite inRange_in by done; lia|].
  rewrite inRange_out by done. lia.
Qed.

(** The level of a reading as its accessor computes it. *)
Lemma level_within_spec v min max m l :
  ascending m -> max < INVALID_SIGNAL_STRENGTH_VALUE -> l <> LEVEL_UNKNOWN ->
  at_least l (level_within (inRange v min max) min max m) <-> graded v min max m l.
Proof.
  intros Hm Hmax Hl. unfold level_within, graded. rewrite kept_within by lia.
  destruct (within v min max) eqn:Hw.
  - apply within_true in Hw. rewrite inRange_in, calculateLevel_spec by done. naive_solver.
  - split; [by intros ?%above_unknown|]. intros [Hv%within_true _]. congruence.
Qed.

Lemma max_level_spec a b l : at_least l (max_level a b) <-> at_least l a \/ at_least l b.
Proof. unfold max_level, at_least. destruct (Z.gtb_spec (level_value a) (level_value b)); lia. Qed.
Lemma min_level_spec a b l : at_least l (min_level a b) <-> at_least l a /\ at_least l b.
Proof. unfold min_level, at_least. destruct (Z.ltb_spec (level_value a) (level_value b)); lia. Qed.

Lemma best_level_spec a b def l :
  l <> LEVEL_UNKNOWN -> (a <> LEVEL_UNKNOWN \/ b <> LEVEL_UNKNOWN \/ def = LEVEL_UNKNOWN) ->
  at_least l (best_level a b def) <-> at_least l a \/ at_least l b.
Proof.
  intros Hl Hk. unfold best_level. case_decide as H1; [apply max_level_spec|].
  pose proof (above_unknown l Hl) as Hu.
  repeat case_decide; naive_solver.
Qed.

(** A reading in range of a table whose first threshold is the least of the range
    has a level. *)
Lemma level_within_unknown v min max m :
  ascending m -> max < INVALID_SIGNAL_STRENGTH_VALUE -> (LEVEL_1, min) ∈ m ->
  level_within (inRange v min max) min max m = LEVEL_UNKNOWN <-> ~ min <= v <= max.
Proof.
  intros Hm Hmax Hmin. pose proof (level_within_spec v min max m LEVEL_1 Hm Hmax) as Hs.
  unfold graded, reaches in Hs. split.
  - intros He Hv. rewrite He in Hs. apply (above_unknown LEVEL_1); [done|]. apply Hs; [done|].
    split; [done|]. exists min. split; [done|lia].
  - intros Hv. unfold level_within. destruct (within _ _ _) eqn:Hw; [|done].
    rewrite kept_within in Hw by lia. by apply within_true in Hw.
Qed.
End Levels.

#[local] Hint Unfold ascending : core.
#[local] Hint Extern 1 (ascending _) => do 5 eexists; split; [reflexivity|lia] : core.

(** The levels of the radio technologies that have two readings: the better of
    the two. *)
Lemma best_of_two v w lo hi lo' hi' m m' def l :
  ascending m -> ascending m' -> hi < INVALID_SIGNAL_STRENGTH_VALUE -> hi' < INVALID_SIGNAL_STRENGTH_VALUE ->
  (LEVEL_1, lo) ∈ m -> (LEVEL_1, lo') ∈ m' -> l <> LEVEL_UNKNOWN ->
  (lo <= v <= hi \/ lo' <= w <= hi' \/ def = LEVEL_UNKNOWN) ->
  at_least l (best_level (level_within (inRange v lo hi) lo hi m) (level_within (inRange w lo' hi') lo' hi' m') def)
    <-> graded v lo hi m l \/ graded w lo' hi' m' l.
Proof.
  intros Hm Hm' Hhi Hhi' H1 H2 Hl Hk. rewrite best_level_spec; [by rewrite !level_within_spec|done|].
  pose proof (level_within_unknown v lo hi m Hm Hhi H1). pose proof (level_within_unknown w lo' hi' m' Hm' Hhi' H2).
  naive_solver.
Qed.

(** The tables, and their first thresholds. *)
Lemma tables_ascending :
  Forall ascending [kGsmLevelMap; kLteRsrpLevelMap; kLteRssnrLevelMap; kCdmaDbmMap; kCdmaEcioMap;
    kEvdoDbmMap; kEvdoSnrMap; kWcdmaLevelMap; kNr5gRsrpLevelMap; kNr5gRssnrLevelMap].
Proof. repeat constructor; do 5 eexists; (split; [reflexivity|lia]). Qed.

(** What an accessor may return. *)
Definition reading (lo hi v : Z) : Prop := lo <= v <= hi \/ v = INVALID_SIGNAL_STRENGTH_VALUE.

Lemma inRange_reading v lo hi : reading lo hi (inRange v lo hi).
Proof.
  destruct (decide (lo <= v <= hi)); [left; by rewrite inRange_in|right; by apply inRange_out].
Qed.

Lemma strength_dbm_spec s :
  strength_dbm (inRange s 0 31) =
    if decide (0 <= s <= 31) then -113 + 2 * s else INVALID_SIGNAL_STRENGTH_VALUE.
Proof.
  unfold strength_dbm. destruct (decide (0 <= s <= 31)) as [Hs|Hs].
  - rewrite !(inRange_in s) by done. rewrite decide_True; [done|]. unfold INVALID_SIGNAL_STRENGTH_VALUE. lia.
  - rewrite (inRange_out s) by done. by rewrite inRange_out by (unfold INVALID_SIGNAL_STRENGTH_VALUE; lia).
Qed.

(** The noise ratio alone decides, and it is unavailable: the best of levels. *)
Lemma lte_fallback_best s rsrp rsrq rssnr cqi ta rssi :
  0 <= s <= 31 -> ~ -140 <= rsrp <= -44 -> ~ -200 <= rssnr <= 300 ->
  lte_getLevel (lteSignalStrengthInfo s rsrp rsrq rssnr cqi ta rssi) = LEVEL_5.
Proof.
  intros Hs Hp Hn. unfold lte_getLevel, lteSignalStrengthInfo. cbn [lteRsrp_ lteRssnr_ lteSignalStrength_].
  by rewrite (inRange_in s), (inRange_out rsrp), (inRange_out rssnr), (proj2 (within_true s 0 31)).
Qed.

(** CDMA's dBm is never the reading. *)
Lemma cdma_dbm_floor a b c d e :
  let i := cdmaSignalStrengthInfo a b c d e in
  cdma_getDbm i =
    if decide (~ -120 <= a <= 0 /\ ~ -120 <= c <= 0) then INVALID_SIGNAL_STRENGTH_VALUE else -120.
Proof.
  unfold cdma_getDbm, cdmaSignalStrengthInfo, INVALID_SIGNAL_STRENGTH_VALUE. cbn [cdmaDbm_ evdoDbm_].
  destruct (decide (-120 <= a <= 0)) as [Ha|Ha]; [rewrite (inRange_in a) by done|rewrite (inRange_out a) by done];
    (destruct (decide (-120 <= c <= 0)) as [Hc|Hc]; [rewrite (inRange_in c) by done|rewrite (inRange_out c) by done]);
    unfold INVALID_SIGNAL_STRENGTH_VALUE; case_decide; try lia;
    repeat match goal with |- context [?x >? ?y] => destruct (Z.gtb_spec x y) end; simpl; lia.
Qed.

(** Side conditions of the level lemmas, for the tables above. *)
Ltac level_side :=
  match goal with
  | |- ascending _ => do 5 eexists; split; [reflexivity|lia]
  | |- _ ∈ _ => by apply list_elem_of_here
  | |- _ < INVALID_SIGNAL_STRENGTH_VALUE => by unfold INVALID_SIGNAL_STRENGTH_VALUE
  | _ => done
  end.

Section Grades.
Variables (a b c d e : Z).

Definition cdma_graded (l : SignalStrengthLevel) : Prop :=
  graded a (-120) 0 kCdmaDbmMap l /\ graded b (-160) 0 kCdmaEcioMap l.
Definition evdo_graded (l : SignalStrengthLevel) : Prop :=
  graded c (-120) 0 kEvdoDbmMap l /\ e <> 0 /\ graded e 0 8 kEvdoSnrMap l.

Lemma cdma_level_spec l :
  l <> LEVEL_UNKNOWN -> at_least l (getCdmaLevel (cdmaSignalStrengthInfo a b c d e)) <-> cdma_graded l.
Proof.
  intros Hl. unfold getCdmaLevel. rewrite min_level_spec. cbn [cdmaDbm_ cdmaEcio_ cdmaSignalStrengthInfo].
  rewrite !level_within_spec by level_side. done.
Qed.

Lemma evdo_level_spec l :
  l <> LEVEL_UNKNOWN -> at_least l (getEvdoLevel (cdmaSignalStrengthInfo a b c d e)) <-> evdo_graded l.
Proof.
  intros Hl. unfold getEvdoLevel. rewrite min_level_spec.
  cbn [evdoDbm_ evdoSignalNoiseRatio_ cdmaSignalStrengthInfo]. rewrite level_within_spec by level_side.
  unfold evdo_graded. apply Morphisms_Prop.and_iff_morphism; [done|].
  destruct (decide (e <> 0 /\ 0 <= e <= 8)) as [[H0 H1]|H0].
  - rewrite inRange_in by done. replace ((e >? 0) && (e <=? 8)) with true by lia.
    rewrite calculateLevel_spec by level_side. unfold graded. naive_solver.
  - assert (Hf : (inRange e 0 8 >? 0) && (inRange e 0 8 <=? 8) = false).
    { destruct (decide (e = 0)) as [->|]; [done|]. rewrite inRange_out by lia. done. }
    rewrite Hf. split; [by intros ?%above_unknown|]. unfold graded. naive_solver.
Qed.

Lemma known_level l : l <> LEVEL_UNKNOWN <-> at_least LEVEL_1 l.
Proof. unfold at_least. destruct l; simpl; split; try done; try lia. Qed.

Lemma cdma_grade l :
  l <> LEVEL_UNKNOWN ->
  at_least l (cdma_getLevel (cdmaSignalStrengthInfo a b c d e)) <->
    (cdma_graded LEVEL_1 \/ evdo_graded LEVEL_1) /\
    (cdma_graded LEVEL_1 -> cdma_graded l) /\ (evdo_graded LEVEL_1 -> evdo_graded l).
Proof.
  intros Hl. rewrite <- !cdma_level_spec, <- !evdo_level_spec by done. unfold cdma_getLevel.
  generalize (getCdmaLevel (cdmaSignalStrengthInfo a b c d e)) (getEvdoLevel (cdmaSignalStrengthInfo a b c d e)).
  intros x y. rewrite <- !known_level. pose proof (above_unknown l Hl).
  repeat case_decide; rewrite ?min_level_spec; naive_solver.
Qed.
End Grades.



