(* ===== verification/CellInfo.v ===== *)
(** * Cells (tel/CellInfo.cpp) and their wire form (tel/Phone.cpp)

    The identities of cells of the seven radio technologies, the cell objects, and
    the decoders of signal strengths and of cells that SimulaPhone and
    SimulaPhoneManager share. *)

From Stdlib Require Import Ascii.
From S2P Require Import Prelude Json Manager TelWire SignalStrength.

Local Open Scope Z_scope.

(** ** Country and network codes as integers *)

(** [isspace] in the C locale. *)
Definition is_space (c : ascii) : bool :=
  let n := Z.of_N (N_of_ascii c) in ((9 <=? n) && (n <=? 13)) || (n =? 32).
Definition digit_of (c : ascii) : option Z :=
  let n := Z.of_N (N_of_ascii c) in
  if (48 <=? n) && (n <=? 57) then Some (n - 48) else None.

Fixpoint skip_spaces (s : string) : string :=
  match s with
  | EmptyString => EmptyString
  | String c s' => if is_space c then skip_spaces s' else s
  end.

(** The value of the digits at the head; [None] when there is none. *)
Fixpoint digits (acc : option Z) (s : string) : option Z :=
  match s with
  | EmptyString => acc
  | String c s' =>
      match digit_of c with
      | Some d => digits (Some (10 * default 0 acc + d)) s'
      | None => acc
      end
  end.

(** [std::stoi]: no digit and a value that is not an [int] throw. *)
Definition stoi (s : string) : option Z :=
  let s := skip_spaces s in
  n ← match s with
      | String "-" s => Z.opp <$> digits None s
      | String "+" s => digits None s
      | _ => digits None s
      end;
  if decide (- 2 ^ 31 <= n < 2 ^ 31) then Some n else None.

Definition toIntOrZero (s : string) : Z :=
  if decide (s = "") then 0 else match stoi s with Some n => n | None => 0 end.

(** ** Identities *)

Inductive CellType := GSM | CDMA | LTE | WCDMA | TDSCDMA | NR5G | NB1_NTN.

#[export] Instance cell_type_eq_dec : EqDecision CellType.
Proof. solve_decision. Defined.

Record GsmCellIdentity := mkGsmId {
  gsm_mcc : string; gsm_mnc : string; gsm_lac : Z; gsm_cid : Z; gsm_arfcn : Z; gsm_bsic : Z }.
Record CdmaCellIdentity := mkCdmaId {
  nid_ : Z; sid_ : Z; stationId_ : Z; longitude_ : Z; latitude_ : Z }.
Record LteCellIdentity := mkLteId {
  lte_mcc : string; lte_mnc : string; lte_ci : Z; lte_pci : Z; lte_tac : Z; lte_earfcn : Z }.
Record WcdmaCellIdentity := mkWcdmaId {
  wcdma_mcc : string; wcdma_mnc : string; wcdma_lac : Z; wcdma_cid : Z; wcdma_psc : Z; wcdma_uarfcn : Z }.
Record TdscdmaCellIdentity := mkTdscdmaId {
  tdscdma_mcc : string; tdscdma_mnc : string; tdscdma_lac : Z; tdscdma_cid : Z; tdscdma_cpid : Z }.
(** [uint64_t], [uint32_t], [int32_t], [int32_t]. *)
Record Nr5gCellIdentity := mkNr5gId {
  nr5g_mcc : string; nr5g_mnc : string; nr5g_ci : Z; nr5g_pci : Z; nr5g_tac : Z; nr5g_arfcn : Z }.
Record Nb1NtnCellIdentity := mkNb1Id {
  nb1_mcc : string; nb1_mnc : string; nb1_ci : Z; nb1_tac : Z; nb1_earfcn : Z }.

(** The deprecated accessors; the others return the members. *)
Definition gsm_getMcc (i : GsmCellIdentity) : Z := toIntOrZero (gsm_mcc i).
Definition gsm_getMnc (i : GsmCellIdentity) : Z := toIntOrZero (gsm_mnc i).
Definition lte_getMcc (i : LteCellIdentity) : Z := toIntOrZero (lte_mcc i).
Definition lte_getMnc (i : LteCellIdentity) : Z := toIntOrZero (lte_mnc i).
Definition wcdma_getMcc (i : WcdmaCellIdentity) : Z := toIntOrZero (wcdma_mcc i).
Definition wcdma_getMnc (i : WcdmaCellIdentity) : Z := toIntOrZero (wcdma_mnc i).
Definition tdscdma_getMcc (i : TdscdmaCellIdentity) : Z := toIntOrZero (tdscdma_mcc i).
Definition tdscdma_getMnc (i : TdscdmaCellIdentity) : Z := toIntOrZero (tdscdma_mnc i).

(** ** Cells *)

(** What a subclass adds to the base. *)
Inductive cell_data :=
  | GsmCell (id_ : GsmCellIdentity) (ssInfo_ : GsmSignalStrengthInfo)
  | CdmaCell (id_ : CdmaCellIdentity) (ssInfo_ : CdmaSignalStrengthInfo)
  | LteCell (id_ : LteCellIdentity) (ssInfo_ : LteSignalStrengthInfo)
  | WcdmaCell (id_ : WcdmaCellIdentity) (ssInfo_ : WcdmaSignalStrengthInfo)
  | TdscdmaCell (id_ : TdscdmaCellIdentity) (ssInfo_ : TdscdmaSignalStrengthInfo)
  | Nr5gCell (id_ : Nr5gCellIdentity) (ssInfo_ : Nr5gSignalStrengthInfo)
  | Nb1NtnCell (id_ : Nb1NtnCellIdentity) (ssInfo_ : Nb1NtnSignalStrengthInfo).

Record CellInfo := mkCell { type_ : CellType; registered_ : Z; cell_of : cell_data }.

Definition getType (c : CellInfo) : CellType := type_ c.
Definition isRegistered (c : CellInfo) : bool := negb (registered_ c =? 0).

(** The subclasses' constructors. *)
Definition GsmCellInfo (registered : Z) (id : GsmCellIdentity) (ss : GsmSignalStrengthInfo) : CellInfo :=
  mkCell GSM registered (GsmCell id ss).
Definition CdmaCellInfo (registered : Z) (id : CdmaCellIdentity) (ss : CdmaSignalStrengthInfo) : CellInfo :=
  mkCell CDMA registered (CdmaCell id ss).
Definition LteCellInfo (registered : Z) (id : LteCellIdentity) (ss : LteSignalStrengthInfo) : CellInfo :=
  mkCell LTE registered (LteCell id ss).
Definition WcdmaCellInfo (registered : Z) (id : WcdmaCellIdentity) (ss : WcdmaSignalStrengthInfo) : CellInfo :=
  mkCell WCDMA registered (WcdmaCell id ss).
Definition TdscdmaCellInfo (registered : Z) (id : TdscdmaCellIdentity) (ss : TdscdmaSignalStrengthInfo) :
    CellInfo :=
  mkCell TDSCDMA registered (TdscdmaCell id ss).
Definition Nr5gCellInfo (registered : Z) (id : Nr5gCellIdentity) (ss : Nr5gSignalStrengthInfo) : CellInfo :=
  mkCell NR5G registered (Nr5gCell id ss).
Definition Nb1NtnCellInfo (registered : Z) (id : Nb1NtnCellIdentity) (ss : Nb1NtnSignalStrengthInfo) :
    CellInfo :=
  mkCell NB1_NTN registered (Nb1NtnCell id ss).

(** ** Decoders *)

Definition wireToCellType (s : string) : CellType :=
  if decide (s = "GSM") then GSM
  else if decide (s = "CDMA") then CDMA
  else if decide (s = "LTE") then LTE
  else if decide (s = "WCDMA") then WCDMA
  else if decide (s = "TDSCDMA") then TDSCDMA
  else if decide (s = "NR5G") then NR5G
  else NB1_NTN.

Section Decoders.
Context {json : Type} `{Json json, JsonValues json}.
Implicit Types d g w l n : json.

(** The default of [rssi] in the constructors' declarations. *)
Local Notation no_rssi := INVALID_SIGNAL_STRENGTH_VALUE.

Definition decode_gsm_ss (strength ber : string) (g : json) : option GsmSignalStrengthInfo :=
  s ← value_int strength 0 g;
  b ← value_int ber 0 g;
  Some (gsmSignalStrengthInfo s b 0 no_rssi).
Definition decode_wcdma_ss (w : json) : option WcdmaSignalStrengthInfo :=
  s ← value_int "signalStrength" 0 w;
  b ← value_int "bitErrorRate" 0 w;
  e ← value_int "ecio" 0 w;
  r ← value_int "rscp" 0 w;
  Some (wcdmaSignalStrengthInfo s b e r no_rssi).
Definition decode_lte_ss (strength rsrp rsrq rssnr cqi : string) (l : json) : option LteSignalStrengthInfo :=
  s ← value_int strength 0 l;
  p ← value_int rsrp 0 l;
  q ← value_int rsrq 0 l;
  n ← value_int rssnr 0 l;
  c ← value_int cqi 0 l;
  t ← value_int "timingAdvance" 0 l;
  Some (lteSignalStrengthInfo s p q n c t no_rssi).
Definition decode_nr5g_ss (n : json) : option Nr5gSignalStrengthInfo :=
  p ← value_int "rsrp" 0 n;
  q ← value_int "rsrq" 0 n;
  s ← value_int "rssnr" 0 n;
  Some (nr5gSignalStrengthInfo p q s).

(** [at] throws when the member is missing. *)
Definition wireToSignalStrength (d : json) : option SignalStrength :=
  g ← jat "gsm" d;
  gsm ← decode_gsm_ss "gsmSignalStrength" "gsmBitErrorRate" g;
  w ← jat "wcdma" d;
  wcdma ← decode_wcdma_ss w;
  l ← jat "lte" d;
  lte ← decode_lte_ss "lteSignalStrength" "lteRsrp" "lteRsrq" "lteRssnr" "lteCqi" l;
  n ← jat "nr5g" d;
  nr5g ← decode_nr5g_ss n;
  Some (mkSignalStrength (Some lte) (Some gsm) None (Some wcdma) None (Some nr5g) None).

Definition decode_gsm_cell (registered : Z) (g : json) : option CellInfo :=
  mcc ← value_string "mcc" "" g;
  mnc ← value_string "mnc" "" g;
  lac ← value_int "lac" 0 g;
  cid ← value_int "cid" 0 g;
  arfcn ← value_int "arfcn" 0 g;
  bsic ← value_int "bsic" 0 g;
  ss ← decode_gsm_ss "signalStrength" "bitErrorRate" g;
  Some (GsmCellInfo registered (mkGsmId mcc mnc lac cid arfcn bsic) ss).
Definition decode_wcdma_cell (registered : Z) (w : json) : option CellInfo :=
  mcc ← value_string "mcc" "" w;
  mnc ← value_string "mnc" "" w;
  lac ← value_int "lac" 0 w;
  cid ← value_int "cid" 0 w;
  psc ← value_int "psc" 0 w;
  uarfcn ← value_int "uarfcn" 0 w;
  ss ← decode_wcdma_ss w;
  Some (WcdmaCellInfo registered (mkWcdmaId mcc mnc lac cid psc uarfcn) ss).
Definition decode_lte_cell (registered : Z) (l : json) : option CellInfo :=
  mcc ← value_string "mcc" "" l;
  mnc ← value_string "mnc" "" l;
  ci ← value_int "ci" 0 l;
  pci ← value_int "pci" 0 l;
  tac ← value_int "tac" 0 l;
  earfcn ← value_int "earfcn" 0 l;
  ss ← decode_lte_ss "signalStrength" "rsrp" "rsrq" "rssnr" "cqi" l;
  Some (LteCellInfo registered (mkLteId mcc mnc ci pci tac earfcn) ss).
(** The identity is read as an [int] and cast to [uint64_t]. *)
Definition decode_nr5g_cell (registered : Z) (n : json) : option CellInfo :=
  mcc ← value_string "mcc" "" n;
  mnc ← value_string "mnc" "" n;
  ci ← value_int "ci" 0 n;
  pci ← value_int "pci" 0 n;
  tac ← value_int "tac" 0 n;
  arfcn ← value_int "arfcn" 0 n;
  ss ← decode_nr5g_ss n;
  Some (Nr5gCellInfo registered
    (mkNr5gId mcc mnc (to_unsigned 64 ci) (to_unsigned 32 pci) tac arfcn) ss).

(** A sub-object that is missing: a null cell. *)
Definition sub_cell (k : string) (decode : json -> option CellInfo) (j : json) : option (option CellInfo) :=
  if contains k j then v ← jat k j; Some <$> decode v else Some None.

(** [None]: it throws; [Some None]: a null pointer. *)
Definition wireToCellInfo (j : json) : option (option CellInfo) :=
  t ← value_string "cellType" "" j;
  r ← value_bool "registered" false j;
  let registered := if (r : bool) then 1 else 0 in
  match wireToCellType t with
  | GSM => sub_cell "gsm" (decode_gsm_cell registered) j
  | WCDMA => sub_cell "wcdma" (decode_wcdma_cell registered) j
  | LTE => sub_cell "lte" (decode_lte_cell registered) j
  | NR5G => sub_cell "nr5g" (decode_nr5g_cell registered) j
  | CDMA | TDSCDMA | NB1_NTN => Some None
  end.

(** The list of an answer or an indication, null cells left out. *)
Definition decode_cells (d : json) : option (list CellInfo) :=
  (fun l : list (option CellInfo) => omap id l) <$> decode_list "cells" wireToCellInfo d.
End Decoders.

(** ** Correctness *)

(** A reported cell: what the modem puts on the wire for it. *)
Inductive cell_report :=
  | ReportGsm (id : GsmCellIdentity) (strength ber : Z)
  | ReportWcdma (id : WcdmaCellIdentity) (strength ber ecio rscp : Z)
  | ReportLte (id : LteCellIdentity) (strength rsrp rsrq rssnr cqi advance : Z)
  | ReportNr5g (id : Nr5gCellIdentity) (rsrp rsrq rssnr : Z)
  | ReportOther (t : string).

Definition report_type (c : cell_report) : string :=
  match c with
  | ReportGsm _ _ _ => "GSM" | ReportWcdma _ _ _ _ _ => "WCDMA" | ReportLte _ _ _ _ _ _ _ => "LTE"
  | ReportNr5g _ _ _ _ => "NR5G" | ReportOther t => t
  end.

(** The integers of a report, which the program reads as [int]. *)
Definition report_ints (c : cell_report) : list Z :=
  match c with
  | ReportGsm (mkGsmId _ _ lac cid arfcn bsic) s b => [lac; cid; arfcn; bsic; s; b]
  | ReportWcdma (mkWcdmaId _ _ lac cid psc uarfcn) s b e r => [lac; cid; psc; uarfcn; s; b; e; r]
  | ReportLte (mkLteId _ _ ci pci tac earfcn) s p q n c t => [ci; pci; tac; earfcn; s; p; q; n; c; t]
  | ReportNr5g (mkNr5gId _ _ ci pci tac arfcn) p q n => [ci; pci; tac; arfcn; p; q; n]
  | ReportOther _ => []
  end.

(** A type without a wire form, and every value an [int]. *)
Definition report_ok (c : cell_report) : Prop :=
  Forall is_int (report_ints c) /\
  match c with
  | ReportOther t => ~ t ∈ ["GSM"; "WCDMA"; "LTE"; "NR5G"]
  | ReportNr5g i _ _ _ => 0 <= nr5g_ci i /\ 0 <= nr5g_pci i
  | _ => True
  end.

(** The cell the client gets for it: none when there is no wire form. *)
Definition cell_of_report (registered : bool) (c : cell_report) : option CellInfo :=
  let r := if registered then 1 else 0 in
  let no_rssi := INVALID_SIGNAL_STRENGTH_VALUE in
  match c with
  | ReportGsm i s b => Some (GsmCellInfo r i (gsmSignalStrengthInfo s b 0 no_rssi))
  | ReportWcdma i s b e c => Some (WcdmaCellInfo r i (wcdmaSignalStrengthInfo s b e c no_rssi))
  | ReportLte i s p q n c t => Some (LteCellInfo r i (lteSignalStrengthInfo s p q n c t no_rssi))
  | ReportNr5g i p q n => Some (Nr5gCellInfo r i (nr5gSignalStrengthInfo p q n))
  | ReportOther _ => None
  end.

Section CellProps.
Context {json : Type} `{JsonSpec json, !JsonValues json, !JsonValuesSpec json}.

Definition ints (ms : list (string * Z)) : list (string * json) := prod_map id of_int <$> ms.

(** The sub-object of a report, and the object. *)
Definition report_body (c : cell_report) : list (string * json) :=
  match c with
  | ReportGsm (mkGsmId mcc mnc lac cid arfcn bsic) s b =>
      [("gsm", jobj ([("mcc", of_string mcc); ("mnc", of_string mnc)] ++
        ints [("lac", lac); ("cid", cid); ("arfcn", arfcn); ("bsic", bsic); ("signalStrength", s);
              ("bitErrorRate", b)]))]
  | ReportWcdma (mkWcdmaId mcc mnc lac cid psc uarfcn) s b e r =>
      [("wcdma", jobj ([("mcc", of_string mcc); ("mnc", of_string mnc)] ++
        ints [("lac", lac); ("cid", cid); ("psc", psc); ("uarfcn", uarfcn); ("signalStrength", s);
              ("bitErrorRate", b); ("ecio", e); ("rscp", r)]))]
  | ReportLte (mkLteId mcc mnc ci pci tac earfcn) s p q n c t =>
      [("lte", jobj ([("mcc", of_string mcc); ("mnc", of_string mnc)] ++
        ints [("ci", ci); ("pci", pci); ("tac", tac); ("earfcn", earfcn); ("signalStrength", s);
              ("rsrp", p); ("rsrq", q); ("rssnr", n); ("cqi", c); ("timingAdvance", t)]))]
  | ReportNr5g (mkNr5gId mcc mnc ci pci tac arfcn) p q n =>
      [("nr5g", jobj ([("mcc", of_string mcc); ("mnc", of_string mnc)] ++
        ints [("ci", ci); ("pci", pci); ("tac", tac); ("arfcn", arfcn);
              ("rsrp", p); ("rsrq", q); ("rssnr", n)]))]
  | ReportOther _ => []
  end.
Definition cell_json (registered : bool) (c : cell_report) : json :=
  jobj ([("cellType", of_string (report_type c)); ("registered", of_bool registered)] ++ report_body c).

Lemma sub_cell_read k decode ms v :
  member k ms = Some v -> sub_cell k decode (jobj ms : json) = Some <$> decode v.
Proof.
  intros Hm. unfold sub_cell, jat. rewrite jobj_contains, jobj_object, jobj_find, Hm.
  by rewrite bool_decide_eq_true_2 by eauto.
Qed.

Ltac read_cell :=
  erewrite sub_cell_read by reflexivity; cbn [ints fmap list_fmap prod_map id fst snd app]; read_members.

(** Each sub-object is read back. *)
Lemma cell_read registered c :
  report_ok c -> wireToCellInfo (cell_json registered c) = Some (cell_of_report registered c).
Proof.
  intros [Hi Hc]. unfold wireToCellInfo, cell_json. destruct c as [i s b|i s b e r|i s p q n c t|i p q n|t];
    [destruct i|destruct i|destruct i|destruct i|]; cbn [report_body report_type cell_of_report report_ints app] in *;
    unfold is_int in Hi; rewrite ?Forall_cons in Hi; read_members.
  - change (wireToCellType "GSM") with GSM. cbv iota. unfold decode_gsm_cell, decode_gsm_ss. by read_cell.
  - change (wireToCellType "WCDMA") with WCDMA. cbv iota. unfold decode_wcdma_cell, decode_wcdma_ss. by read_cell.
  - change (wireToCellType "LTE") with LTE. cbv iota. unfold decode_lte_cell, decode_lte_ss. by read_cell.
  - change (wireToCellType "NR5G") with NR5G. cbv iota. unfold decode_nr5g_cell, decode_nr5g_ss. read_cell.
    cbn [nr5g_ci nr5g_pci] in Hc. unfold to_unsigned. by rewrite !Z.mod_small by lia.
  - unfold wireToCellType. repeat case_decide; subst; try done; destruct Hc; set_solver.
Qed.
End CellProps.

(** Country and network codes, with or without their leading zeros. *)
Definition code (w : nat) (n : Z) : string :=
  let d i := String (ascii_of_N (Z.to_N (48 + n / 10 ^ i mod 10))) "" in
  match w with
  | 1%nat => d 0
  | 2%nat => d 1 +:+ d 0
  | _ => d 2 +:+ d 1 +:+ d 0
  end.

Lemma code_read w n :
  (1 <= w <= 3)%nat -> 0 <= n < 10 ^ Z.of_nat w -> toIntOrZero (code w n) = n.
Proof.
  intros Hw Hn.
  assert (Hall : Forall (fun w => Forall (fun n => toIntOrZero (code w n) = n) (seqZ 0 (10 ^ Z.of_nat w)))
    [1; 2; 3]%nat).
  { repeat (constructor; [apply (bool_decide_unpack _); vm_compute; exact I|]). constructor. }
  rewrite Forall_forall in Hall. assert (Hin : w ∈ [1; 2; 3]%nat) by (rewrite !elem_of_cons; lia).
  specialize (Hall w Hin). rewrite Forall_forall in Hall. apply Hall. rewrite elem_of_seqZ. lia.
Qed.

(** C30: cells survive the wire. Whatever cells the modem reports, with every
    integer an [int] and NR identities not negative, the list decoded is exactly
    the cells that have a wire form, in order, each with its identity, its
    registration and its readings as the constructors keep them; a cell whose type
    has no wire form is left out and spoils none of the others. A country or
    network code of one to three digits is read as its number, leading zeros
    dropped. *)
Theorem cells_faithful {json : Type} `{JsonSpec json, !JsonValues json, !JsonValuesSpec json}
    (cells : list (bool * cell_report)) (w : nat) (n : Z) :
  Forall (fun c => report_ok (snd c)) cells -> (1 <= w <= 3)%nat -> 0 <= n < 10 ^ Z.of_nat w ->
  decode_cells (jobj [("cells", of_array (uncurry cell_json <$> cells))] : json) =
    Some (omap (uncurry cell_of_report) cells) /\
  (forall b r c, cell_of_report b r = Some c ->
     isRegistered c = b /\ getType c = wireToCellType (report_type r)) /\
  toIntOrZero (code w n) = n.
Proof.
  intros Hok Hw Hn. split; [|split; [|by apply code_read]].
  - unfold decode_cells, decode_list. unfold value_json.
    rewrite (read_as Some "cells" jarray [("cells", _)] _ eq_refl). simpl. rewrite of_array_elements.
    rewrite (proj2 (mapM_Some wireToCellInfo _ (uncurry cell_of_report <$> cells))).
    + simpl. f_equal. clear. induction cells as [|[b r] l IH]; [done|]. csimpl.
      destruct (cell_of_report b r); by rewrite IH.
    + rewrite Forall2_fmap. apply Forall_Forall2_diag. eapply Forall_impl; [exact Hok|].
      intros [b r]. apply cell_read.
  - intros b [i s e|i s e c d|i s p q n' c t|i p q n'|t] c0; intros [= <-]; by destruct b.
Qed.

Lemma cells_faithful_witness :
  let cell := ReportLte (mkLteId "262" "01" 1234 7 99 1300) 20 (-95) (-10) 50 12 3 in
  decode_cells (jobj [("cells", of_array (uncurry cell_json <$>
    [(true, cell); (false, ReportOther "TDSCDMA")]))] : jval) =
    Some [LteCellInfo 1 (mkLteId "262" "01" 1234 7 99 1300)
            (lteSignalStrengthInfo 20 (-95) (-10) 50 12 3 INVALID_SIGNAL_STRENGTH_VALUE)] /\
  toIntOrZero (code 3 1) = 1.
Proof.
  intros cell.
  destruct (cells_faithful (json := jval) [(true, cell); (false, ReportOther "TDSCDMA")] 3 1) as (Hd & _ & Hn).
  - constructor; [|constructor; [|constructor]].
    + split; [|exact I]. apply (bool_decide_unpack _). vm_compute. exact I.
    + split; [constructor|]. apply (bool_decide_unpack _). vm_compute. exact I.
  - lia.
  - lia.
  - split; [exact Hd|exact Hn].
Defined.

(** An NR cell identity has 36 bits; the top ones are lost and bit 31 fills them. *)
Example nr_identity_truncated :
  wireToCellInfo (jobj [("cellType", JString "NR5G"); ("registered", JBool true);
                        ("nr5g", jobj [("ci", JInt 34359738368)])] : jval) =
    Some (Some (Nr5gCellInfo 1 (mkNr5gId "" "" 0 0 0 0) (nr5gSignalStrengthInfo 0 0 0))) /\
  wireToCellInfo (jobj [("cellType", JString "NR5G"); ("nr5g", jobj [("ci", JInt 2147483648)])] : jval) =
    Some (Some (Nr5gCellInfo 0 (mkNr5gId "" "" 18446744071562067968 0 0 0) (nr5gSignalStrengthInfo 0 0 0))).
Proof. by vm_compute. Qed.

(** Two networks that differ in the length of their code. *)
Example mnc_zeros_dropped : toIntOrZero "01" = toIntOrZero "001".
Proof. reflexivity. Qed.
