(* ===== verification/Phone.v ===== *)
(** * A phone (tel/Phone.cpp, tel/VoiceServiceInfo.cpp)

    SimulaPhone is no active object: each operation sends its request to the bridge
    from the client's thread, whatever the state of the service, and returns
    SUCCESS; the modem's answer is decoded on the bridge's thread. *)

From S2P Require Import Prelude Json Envelope Manager Ecall Answers TelWire SignalStrength CellInfo TelShell.

Local Open Scope Z_scope.

Definition DEFAULT_PHONE_ID : Z := 1.

(** ** Values *)

(** [OperatingMode] by its value: clients may pass any [int]. *)
Definition ONLINE : Z := 0.
Definition AIRPLANE : Z := 1.
Definition PERSISTENT_LOW_POWER : Z := 6.

Definition operatingModeToWire (mode : Z) : string :=
  match mode with
  | 0 => "ONLINE" | 1 => "AIRPLANE" | 2 => "FACTORY_TEST" | 3 => "OFFLINE" | 4 => "RESETTING"
  | 5 => "SHUTTING_DOWN" | 6 => "PERSISTENT_LOW_POWER" | _ => "ONLINE"
  end.

Definition wireToEcallMode (s : string) : ECallMode :=
  if decide (s = "NORMAL") then MODE_NORMAL
  else if decide (s = "ECALL_ONLY") then ECALL_ONLY
  else MODE_NONE.

Inductive VoiceServiceState :=
  | NOT_REG_AND_NOT_SEARCHING | REG_HOME | NOT_REG_AND_SEARCHING | REG_DENIED | VOICE_UNKNOWN | REG_ROAMING
  | NOT_REG_AND_EMERGENCY_AVAILABLE_AND_NOT_SEARCHING | NOT_REG_AND_EMERGENCY_AVAILABLE_AND_SEARCHING
  | REG_DENIED_AND_EMERGENCY_AVAILABLE | UNKNOWN_AND_EMERGENCY_AVAILABLE.

Definition wireToVoiceServiceState (s : string) : VoiceServiceState :=
  if decide (s = "NOT_REG_AND_NOT_SEARCHING") then NOT_REG_AND_NOT_SEARCHING
  else if decide (s = "REG_HOME") then REG_HOME
  else if decide (s = "NOT_REG_AND_SEARCHING") then NOT_REG_AND_SEARCHING
  else if decide (s = "REG_DENIED") then REG_DENIED
  else if decide (s = "REG_ROAMING") then REG_ROAMING
  else VOICE_UNKNOWN.

(** The denial cause is whatever [int] the modem sends, cast. *)
Record VoiceServiceInfo := mkVoice {
  voiceServiceState_ : VoiceServiceState; denialCause_ : Z; radioTech_ : RadioTechnology }.

Definition isEmergency (i : VoiceServiceInfo) : bool :=
  match voiceServiceState_ i with
  | NOT_REG_AND_EMERGENCY_AVAILABLE_AND_NOT_SEARCHING | NOT_REG_AND_EMERGENCY_AVAILABLE_AND_SEARCHING
  | REG_DENIED_AND_EMERGENCY_AVAILABLE | UNKNOWN_AND_EMERGENCY_AVAILABLE => true
  | _ => false
  end.
Definition isInService (i : VoiceServiceInfo) : bool :=
  match voiceServiceState_ i with REG_HOME | REG_ROAMING => true | _ => false end.
Definition isOutOfService (i : VoiceServiceInfo) : bool :=
  match voiceServiceState_ i with
  | VOICE_UNKNOWN | NOT_REG_AND_NOT_SEARCHING | NOT_REG_AND_SEARCHING | REG_DENIED => true
  | _ => false
  end.

Inductive BoolValue := STATE_FALSE | STATE_TRUE | STATE_UNKNOWN.
Definition wireToBoolValue (b : bool) : BoolValue := if b then STATE_TRUE else STATE_FALSE.

Record PlmnInfo := mkPlmn { longName : string; shortName : string; plmn : string; isHome : BoolValue }.
(** [PlmnInfo info{}] *)
Definition no_plmn : PlmnInfo := mkPlmn "" "" "" STATE_FALSE.

(** Bits of a [SignalStrengthConfigMask]. *)
Definition DELTA : Z := 1.
Definition THRESHOLD : Z := 2.
Definition HYSTERESIS_DB : Z := 3.

(** The union's storage, as the thresholds (a [std::array<int32_t, 10>]) and the
    hysteresis; [delta], a [uint16_t], shares the first bytes. *)
Record SignalStrengthConfigData := mkSigData { thresholdList : list Z; hysteresisDb : Z }.
Definition delta (d : SignalStrengthConfigData) : Z := to_unsigned 16 (hd 0 (thresholdList d)).

Record SignalStrengthConfigEx := mkSigConfig {
  configTypeMask : Z; radioTech : RadioTechnology; sigConfigData : list SignalStrengthConfigData }.

Definition ratToWireSigType (t : RadioTechnology) : string :=
  match t with
  | RADIO_TECH_GSM => "GSM_RSSI"
  | RADIO_TECH_UMTS => "WCDMA_RSSI"
  | RADIO_TECH_LTE => "LTE_RSRP"
  | RADIO_TECH_NR5G => "NR5G_RSRP"
  | _ => "LTE_RSRP"
  end.

Section Phone.
Context {json : Type} `{Json json, JsonValues json} {C : Type}.

(** ** Operations *)

Inductive phone_op :=
  | RequestVoiceRadioTechnology (cb : option C)
  | RequestVoiceServiceState (cb : C)             (* held weakly *)
  | SetRadioPower (enable : bool) (cb : option C)
  | RequestCellInfo (cb : option C)
  | RequestSignalStrength (cb : option C)
  | SetECallOperatingMode (mode : ECallMode) (cb : option C)
  | RequestECallOperatingMode (cb : option C)
  | RequestOperatorName (cb : option C)
  | RequestOperatorInfo (cb : option C)
  | ConfigureSignalStrength (configs : list SignalStrengthConfigEx) (hysteresisMs : Z) (cb : option C).

Inductive phone_value :=
  | NoPhoneValue
  | RadioTech (t : RadioTechnology)
  | VoiceService (i : option VoiceServiceInfo)
  | Cells (cells : list CellInfo)
  | Strength (s : option SignalStrength)
  | EcallMode (m : ECallMode)
  | OperatorName (long short : string)
  | Plmn (i : PlmnInfo).

(** Only the first configuration and its first entry are sent. *)
Definition config_members (configs : list SignalStrengthConfigEx) : list (string * json) :=
  match configs with
  | [] => [("ratSigType", of_string "LTE_RSRP")]
  | cfg :: _ =>
      let bit b := Z.testbit (configTypeMask cfg) b in
      ("ratSigType", of_string (ratToWireSigType (radioTech cfg))) ::
      match sigConfigData cfg with
      | [] => []
      | sd :: _ =>
          opt_member (bit DELTA) "delta" (of_int (delta sd)) ++
          opt_member (bit THRESHOLD) "thresholds" (of_array (of_int <$> thresholdList sd)) ++
          opt_member (bit THRESHOLD && bit HYSTERESIS_DB) "hysteresisDb" (of_int (hysteresisDb sd))
      end
  end.
Definition config_payload (phoneId : Z) (configs : list SignalStrengthConfigEx) (hysteresisMs : Z) : json :=
  jobj (config_members configs ++
    opt_member (negb (hysteresisMs =? 0)) "hysteresisMs" (of_int hysteresisMs) ++ [("slot", of_int phoneId)]).

Definition phone_request (phoneId : Z) (op : phone_op) : string * string * json :=
  let slot := jobj [("slot", of_int phoneId)] in
  match op with
  | RequestVoiceRadioTechnology _ | RequestVoiceServiceState _ =>
      ("radio.request_voice_service_state.req", "radio.request_voice_service_state.rsp", slot)
  | SetRadioPower enable _ =>
      ("radio.set_operating_mode.req", "radio.set_operating_mode.rsp",
       jobj [("mode", of_string (operatingModeToWire (if enable then ONLINE else AIRPLANE)));
             ("slot", of_int phoneId)])
  | RequestCellInfo _ => ("radio.request_cell_info.req", "radio.request_cell_info.rsp", slot)
  | RequestSignalStrength _ =>
      ("radio.request_signal_strength.req", "radio.request_signal_strength.rsp", slot)
  | SetECallOperatingMode m _ =>
      ("ecall.set_operating_mode.req", "ecall.set_operating_mode.rsp",
       jobj [("phoneId", of_int phoneId); ("mode", of_string (ecallModeToWire m))])
  | RequestECallOperatingMode _ =>
      ("ecall.get_operating_mode.req", "ecall.get_operating_mode.rsp", jobj [("phoneId", of_int phoneId)])
  | RequestOperatorName _ | RequestOperatorInfo _ =>
      ("radio.request_operator_info.req", "radio.request_operator_info.rsp", slot)
  | ConfigureSignalStrength configs ms _ =>
      ("radio.configure_signal_strength.req", "radio.configure_signal_strength.rsp",
       config_payload phoneId configs ms)
  end.

Definition phone_clients (op : phone_op) : list (C * phone_value) :=
  match op with
  | RequestVoiceRadioTechnology cb => clients_of (RadioTech RADIO_TECH_UNKNOWN) cb
  | RequestVoiceServiceState cb => clients_of (VoiceService None) (Some cb)
  | RequestCellInfo cb => clients_of (Cells []) cb
  | RequestSignalStrength cb => clients_of (Strength None) cb
  | RequestECallOperatingMode cb => clients_of (EcallMode MODE_NONE) cb
  | RequestOperatorName cb => clients_of (OperatorName "" "") cb
  | RequestOperatorInfo cb => clients_of (Plmn no_plmn) cb
  | SetRadioPower _ cb | SetECallOperatingMode _ cb | ConfigureSignalStrength _ _ cb =>
      clients_of NoPhoneValue cb
  end.

Definition decode_radio_tech (d : json) : option RadioTechnology :=
  wireToRadioTechnology <$> value_string "radioTech" "" d.
Definition decode_voice (d : json) : option VoiceServiceInfo :=
  s ← value_string "voiceServiceState" "" d;
  c ← value_int "denialCause" (-1) d;
  t ← decode_radio_tech d;
  Some (mkVoice (wireToVoiceServiceState s) c t).
Definition decode_ecall_mode (d : json) : option ECallMode := wireToEcallMode <$> value_string "mode" "" d.
Definition decode_operator_name (d : json) : option (string * string) :=
  l ← value_string "longName" "" d; s ← value_string "shortName" "" d; Some (l, s).
Definition decode_plmn (d : json) : option PlmnInfo :=
  '(l, s) ← decode_operator_name d;
  p ← value_string "plmn" "" d;
  h ← value_bool "isHome" false d;
  Some (mkPlmn l s p (wireToBoolValue h)).

(** [alive]: [callback.lock()], when the answer comes. *)
Definition phone_answer (alive : C -> bool) (op : phone_op) :
    option (Envelope json) -> list (C * phone_value * Z) :=
  match op with
  | RequestVoiceRadioTechnology cb =>
      completeData (RadioTech RADIO_TECH_UNKNOWN) (fun d => RadioTech <$> decode_radio_tech d) cb
  | RequestVoiceServiceState cb =>
      completeData (VoiceService None) (fun d => VoiceService ∘ Some <$> decode_voice d)
        (if alive cb then Some cb else None)
  | RequestCellInfo cb => completeData (Cells []) (fun d => Cells <$> decode_cells d) cb
  | RequestSignalStrength cb =>
      completeData (Strength None) (fun d => Strength ∘ Some <$> wireToSignalStrength d) cb
  | RequestECallOperatingMode cb => completeData (EcallMode MODE_NONE) (fun d => EcallMode <$> decode_ecall_mode d) cb
  | RequestOperatorName cb =>
      completeData (OperatorName "" "") (fun d => (fun '(l, s) => OperatorName l s) <$> decode_operator_name d) cb
  | RequestOperatorInfo cb => completeData (Plmn no_plmn) (fun d => Plmn <$> decode_plmn d) cb
  | SetRadioPower _ cb | SetECallOperatingMode _ cb | ConfigureSignalStrength _ _ cb =>
      completeOrTimeout NoPhoneValue cb
  end.

(** ** The public interface *)

(** [SimulaPhone]: its identifier is all it keeps. *)
Record SimulaPhone := mkPhone { phoneId_ : Z }.

Definition getPhoneId (p : SimulaPhone) : Status * Z := (SUCCESS_, phoneId_ p).
Definition RADIO_STATE_ON : Z := 10.
Definition getRadioState (p : SimulaPhone) : Z := RADIO_STATE_ON.
Definition IN_SERVICE : Z := 1.
Definition getServiceState (p : SimulaPhone) : Z := IN_SERVICE.

(** Every operation with a request: what it hands the bridge, and its status. *)
Section Send.
Context (topic : string -> string) (paId : string) (now counter : Z).

Definition phone_send (op : phone_op) (p : SimulaPhone) :
    (string * string * Envelope json * Z) * Status :=
  let '(req, schema, payload) := phone_request (phoneId_ p) op in
  (topic req, schema, fst (makeRequestEnvelope now counter paId payload), kRpcTimeout, SUCCESS_).

Definition requestVoiceRadioTechnology cb := phone_send (RequestVoiceRadioTechnology cb).
Definition requestVoiceServiceState cb := phone_send (RequestVoiceServiceState cb).
Definition setRadioPower enable cb := phone_send (SetRadioPower enable cb).
Definition requestCellInfo cb := phone_send (RequestCellInfo cb).
Definition requestSignalStrength cb := phone_send (RequestSignalStrength cb).
Definition setECallOperatingMode m cb := phone_send (SetECallOperatingMode m cb).
Definition requestECallOperatingMode cb := phone_send (RequestECallOperatingMode cb).
Definition requestOperatorName cb := phone_send (RequestOperatorName cb).
Definition requestOperatorInfo cb := phone_send (RequestOperatorInfo cb).
Definition configureSignalStrength configs ms cb := phone_send (ConfigureSignalStrength configs ms cb).
End Send.

(** Acknowledged at once, with nothing sent: the calls made, and the status. *)
Definition immediate_ack (cb : option C) : list (C * Z) * Status :=
  ((fun c => (c, SUCCESS)) <$> option_list cb, SUCCESS_).
Definition setCellInfoListRate (timeInterval : Z) (cb : option C) : list (C * Z) * Status := immediate_ack cb.
Definition configureSignalStrength_deprecated (cb : option C) : list (C * Z) * Status := immediate_ack cb.

(** A live client is answered like those of the managers. *)
Lemma phone_laws alive op :
  Forall (fun c => alive c = true) (phone_clients op).*1 -> op_laws (phone_clients op) (phone_answer alive op).
Proof.
  intros Ha. destruct op; simpl; try apply or_timeout_laws; try apply data_laws.
  simpl in Ha. rewrite Forall_singleton in Ha. rewrite Ha. apply (data_laws _ _ (Some cb)).
Qed.
End Phone.
