(* ===== verification/PhoneManager.v ===== *)
(** * The phone manager (tel/PhoneManager.cpp)

    The shell of TelShell.v, one manager for the process: the operating mode, the
    device's capabilities, and what the modem says of signal strengths, cells and
    the eCall mode, handed on to the listeners.  It hands out the phones. *)

From S2P Require Import Prelude Hsm HsmSpec ActiveObject Json Envelope InitGate Manager Answers.
From S2P Require Import Ecall TelWire SignalStrength CellInfo Phone TelShell TelShellProps.

Local Open Scope Z_scope.

(** ** Values *)

Definition wireToOperatingMode (s : string) : Z :=
  if decide (s = "AIRPLANE") then AIRPLANE
  else if decide (s = "FACTORY_TEST") then 2
  else if decide (s = "OFFLINE") then 3
  else if decide (s = "RESETTING") then 4
  else if decide (s = "SHUTTING_DOWN") then 5
  else if decide (s = "PERSISTENT_LOW_POWER") then PERSISTENT_LOW_POWER
  else ONLINE.

Inductive ECallModeReason := REASON_NORMAL | ERA_GLONASS.
Definition wireToEcallModeReason (s : string) : ECallModeReason :=
  if decide (s = "ERA_GLONASS") then ERA_GLONASS else REASON_NORMAL.
Record ECallModeInfo := mkEcallMode { ecall_mode : ECallMode; ecall_reason : ECallModeReason }.

(** Positions in a [bitset<16>]. *)
Definition wireToVoiceServiceTech (s : string) : Z :=
  if decide (s = "VOICE_TECH_GW_CSFB") then 0
  else if decide (s = "VOICE_TECH_1x_CSFB") then 1
  else 2.
Definition wireToRatCapability (s : string) : Z :=
  if decide (s = "AMPS") then 0
  else if decide (s = "CDMA") then 1
  else if decide (s = "HDR") then 2
  else if decide (s = "GSM") then 3
  else if decide (s = "WCDMA") then 4
  else if decide (s = "LTE") then 5
  else if decide (s = "TDS") then 6
  else if decide (s = "NR5G") then 7
  else if decide (s = "NR5GSA") then 8
  else 9.

Record SimRatCapability := mkSimRat { slotId : Z; capabilities : Z }.
Record CellularCapabilityInfo := mkCellular {
  voiceServiceTechs : Z; simCount : Z; maxActiveSims : Z;
  simRatCapabilities : list SimRatCapability; deviceRatCapability : list SimRatCapability }.
Definition no_cellular : CellularCapabilityInfo := mkCellular 0 0 0 [] [].

Section PhoneMgr.
Context {json : Type} `{Json json, JsonValues json} {C L : Type} `{EqDecision L}.

(** ** Operations *)

Inductive phonemgr_op :=
  | RequestCellularCapability (cb : option C)
  | RequestOperatingMode (cb : option C)
  | SetOperatingMode (mode : Z) (cb : option C).

Inductive phonemgr_event :=
  | AskPhone (op : phonemgr_op)
  | OpModeEvt_Signal (env : Envelope json)
  | SignalStrengthEvt_Signal (env : Envelope json)
  | CellInfoEvt_Signal (env : Envelope json)
  | EcallOperatingModeEvt_Signal (env : Envelope json).

Inductive phonemgr_value :=
  | NoPhoneMgrValue
  | Cellular (i : CellularCapabilityInfo)
  | OpMode (m : Z).

Inductive phonemgr_note :=
  | onOperatingModeChanged (m : Z)
  | onSignalStrengthChanged (phoneId : Z) (s : SignalStrength)
  | onCellInfoListChanged (phoneId : Z) (cells : list CellInfo)
  | onECallOperatingModeChange (phoneId : Z) (i : ECallModeInfo).

Definition phonemgr_request (op : phonemgr_op) : string * string * json :=
  match op with
  | RequestCellularCapability _ =>
      ("radio.request_cellular_capability.req", "radio.request_cellular_capability.rsp", jobj [])
  | RequestOperatingMode _ =>
      ("radio.request_operating_mode.req", "radio.request_operating_mode.rsp",
       jobj [("slot", of_int DEFAULT_PHONE_ID)])
  | SetOperatingMode m _ =>
      ("radio.set_operating_mode.req", "radio.set_operating_mode.rsp",
       jobj [("mode", of_string (operatingModeToWire m)); ("slot", of_int DEFAULT_PHONE_ID)])
  end.

Definition phonemgr_clients (op : phonemgr_op) : list (C * phonemgr_value) :=
  match op with
  | RequestCellularCapability cb => clients_of (Cellular no_cellular) cb
  | RequestOperatingMode cb => clients_of (OpMode ONLINE) cb
  | SetOperatingMode _ cb => clients_of NoPhoneMgrValue cb
  end.

Definition wireToSimRatCapability (j : json) : option SimRatCapability :=
  s ← value_int "slotId" 0 j;
  l ← value_names "capabilities" wireToRatCapability j;
  Some (mkSimRat s (mask_of l)).

Definition decode_cellular (d : json) : option CellularCapabilityInfo :=
  v ← value_names "voiceServiceTechs" wireToVoiceServiceTech d;
  n ← value_int "simCount" 0 d;
  a ← value_int "maxActiveSims" 0 d;
  s ← decode_list "simRatCapabilities" wireToSimRatCapability d;
  c ← decode_list "deviceRatCapability" wireToSimRatCapability d;
  Some (mkCellular (mask_of v) n a s c).

Definition decode_op_mode (d : json) : option Z := wireToOperatingMode <$> value_string "mode" "" d.

Definition phonemgr_answer (op : phonemgr_op) : option (Envelope json) -> list (C * phonemgr_value * Z) :=
  match op with
  | RequestCellularCapability cb =>
      completeData (Cellular no_cellular) (fun d => Cellular <$> decode_cellular d) cb
  | RequestOperatingMode cb => completeData (OpMode ONLINE) (fun d => OpMode <$> decode_op_mode d) cb
  | SetOperatingMode _ cb => completeOrTimeout NoPhoneMgrValue cb
  end.

(** ** Indications *)

Definition decode_ecall_info (d : json) : option ECallModeInfo :=
  m ← value_string "mode" "" d;
  r ← value_string "reason" "" d;
  Some (mkEcallMode (wireToEcallMode m) (wireToEcallModeReason r)).

(** What an indication tells the listeners.  What cannot be decoded throws on the
    worker; a cell list without data is told as an empty one. *)
Definition phonemgr_indicates (e : phonemgr_event) : outcome (list phonemgr_note) :=
  let with_data env k := match data env with None => Done [] | Some d => k d end in
  match e with
  | AskPhone _ => Done []
  | OpModeEvt_Signal env =>
      with_data env (fun d => m ← or_die (decode_op_mode d); Done [onOperatingModeChanged m])
  | SignalStrengthEvt_Signal env =>
      with_data env (fun d =>
        s ← or_die (wireToSignalStrength d); Done [onSignalStrengthChanged DEFAULT_PHONE_ID s])
  | CellInfoEvt_Signal env =>
      cells ← match data env with Some d => or_die (decode_cells d) | None => Done [] end;
      Done [onCellInfoListChanged DEFAULT_PHONE_ID cells]
  | EcallOperatingModeEvt_Signal env =>
      with_data env (fun d =>
        i ← or_die (decode_ecall_info d); Done [onECallOperatingModeChange DEFAULT_PHONE_ID i])
  end.

#[local] Instance phonemgr_ops : TelOps json C L phonemgr_op phonemgr_value phonemgr_note unit phonemgr_event := {|
  tel_request := phonemgr_request;
  tel_clients := phonemgr_clients;
  tel_refusal := phonemgr_clients;
  tel_answer := phonemgr_answer;
  tel_asks e := match e with AskPhone op => Some op | _ => None end;
  tel_indicates e x := ns ← phonemgr_indicates e; Done (x, ns) |}.

#[local] Instance phonemgr_spec :
  TelSpec json C L phonemgr_op phonemgr_value phonemgr_note unit phonemgr_event.
Proof.
  apply tel_spec_of. intros [cb|cb|m cb]; (split; [|done]); simpl; first [apply or_timeout_laws|apply data_laws].
Qed.

(** ** The public interface *)

Local Notation PhoneMgr := (TelManager json C L phonemgr_op phonemgr_value phonemgr_note unit).
Local Notation AOPhone := (AOTel (json := json) (C := C) (L := L) (Op := phonemgr_op) (V := phonemgr_value)
  (Note := phonemgr_note) (X := unit) (Ev := phonemgr_event)).

Definition SimulaPhoneManager (initCb : option C) : PhoneMgr := new_tel tt initCb.

Definition getPhoneIds : Status * list Z := (SUCCESS_, [DEFAULT_PHONE_ID]).
Definition getPhoneIdFromSlotId (slotId : Z) : Z := slotId.
Definition getSlotIdFromPhoneId (phoneId : Z) : Z := phoneId.

Definition requestCellularCapabilityInfo (cb : option C) : AOPhone -> Status * AOPhone :=
  tel_post_if_ready (AskPhone (RequestCellularCapability cb)).
Definition requestOperatingMode (cb : option C) : AOPhone -> Status * AOPhone :=
  tel_post_if_ready (AskPhone (RequestOperatingMode cb)).

(** The calls it makes itself, the status, the manager. *)
Definition setOperatingMode (mode : Z) (cb : option C) (c : AOPhone) : list (C * Z) * Status * AOPhone :=
  if negb (tel_isReadyDerived_ c) then ([], NOTREADY, c)
  else if (mode <? ONLINE) || (mode >? PERSISTENT_LOW_POWER)
  then ((fun c => (c, INVALID_ARGUMENTS)) <$> option_list cb, SUCCESS_, c)
  else let '(s, c) := tel_post_if_ready (AskPhone (SetOperatingMode mode cb)) c in ([], s, c).

Definition resetWwan (cb : option C) : list (C * Z) * Status := immediate_ack cb.

(** The states: those of the shell, with the operations above. *)
Section States.
Context (topic : string -> string) (paId : string) (now_at counter_at : nat -> Z).
Context (alive_at : nat -> L -> bool).

Local Notation state_fn := (Event (tel_event json C phonemgr_event) -> PhoneMgr -> tel_result).

Definition PhoneMgrNotReady_St : state_fn := tel_NotReady.
Definition PhoneMgrReady_St : state_fn := tel_Ready topic paId now_at counter_at alive_at.
End States.

Definition phonemgr_subscriptions : list (string * (Envelope json -> tel_event json C phonemgr_event)) :=
  [("radio.subsys_ready_phone.ind", TelReadinessEvt_Signal);
   ("radio.op_mode.ind", fun env => TelOther (OpModeEvt_Signal env));
   ("radio.signal_strength.ind", fun env => TelOther (SignalStrengthEvt_Signal env));
   ("radio.cell_info.ind", fun env => TelOther (CellInfoEvt_Signal env));
   ("ecall.operating_mode.ind", fun env => TelOther (EcallOperatingModeEvt_Signal env))].
End PhoneMgr.

(** ** The phones

    Clients get shared pointers: [phones_] maps an identifier to the address of
    the phone made for it. *)

Record Phones := mkPhones { phones_ : gmap Z nat; made : list SimulaPhone }.
Definition no_phones : Phones := mkPhones ∅ [].

Definition getPhone (phoneId : Z) (ps : Phones) : nat * Phones :=
  match phones_ ps !! phoneId with
  | Some p => (p, ps)
  | None =>
      let p := length (made ps) in
      (p, mkPhones (<[phoneId := p]> (phones_ ps)) (made ps ++ [mkPhone phoneId]))
  end.

Fixpoint get_phones (ids : list Z) (ps : Phones) : list nat * Phones :=
  match ids with
  | [] => ([], ps)
  | id :: ids =>
      let '(p, ps) := getPhone id ps in
      let '(rs, ps) := get_phones ids ps in (p :: rs, ps)
  end.

(** Each entry is the address of a phone made for its identifier; no phone is made twice. *)
Record phones_ok (ps : Phones) : Prop := {
  cached id p : phones_ ps !! id = Some p -> made ps !! p = Some (mkPhone id);
  all_cached id : mkPhone id ∈ made ps -> is_Some (phones_ ps !! id) }.

Lemma getPhone_ok id ps p ps' :
  phones_ok ps -> getPhone id ps = (p, ps') ->
  phones_ok ps' /\ phones_ ps' !! id = Some p /\ phones_ ps ⊆ phones_ ps'.
Proof.
  intros Hok. unfold getPhone. destruct (phones_ ps !! id) as [q|] eqn:Hq; intros [= <- <-]; [done|].
  simpl. split; [|by rewrite lookup_insert_eq; split; [|apply insert_subseteq]]. split; simpl.
  - intros i q. rewrite lookup_insert_Some. intros [[<- <-]|[Hne Hi]].
    + by rewrite lookup_app_r, Nat.sub_diag by lia.
    + apply lookup_app_l_Some. by apply Hok.
  - intros i. rewrite elem_of_app, list_elem_of_singleton. intros [Hi|[= ->]].
    + apply lookup_insert_is_Some'. right. by apply Hok.
    + rewrite lookup_insert_eq. eauto.
Qed.

Lemma get_phones_ok ids ps rs ps' :
  phones_ok ps -> get_phones ids ps = (rs, ps') ->
  phones_ok ps' /\ phones_ ps ⊆ phones_ ps' /\ Forall2 (fun id p => phones_ ps' !! id = Some p) ids rs.
Proof.
  revert ps rs. induction ids as [|id ids IH]; intros ps rs Hok; simpl; [by intros [= <- <-]|].
  destruct (getPhone id ps) as [p ps1] eqn:Hg. destruct (get_phones ids ps1) as [rs1 ps2] eqn:Hr.
  intros [= <- <-]. apply getPhone_ok in Hg as (Hok1 & Hp & Hs1); [|done].
  apply IH in Hr as (Hok2 & Hs2 & Hrs); [|done]. split; [done|]. split; [by etrans|].
  constructor; [by eapply lookup_weaken|done].
Qed.

(** Asked for the same identifier clients share one phone, which answers to it;
    different identifiers have different phones. *)
Lemma phones_shared ids rs ps :
  get_phones ids no_phones = (rs, ps) ->
  Forall2 (fun id p => made ps !! p = Some (mkPhone id)) ids rs /\
  forall i j id id' p p', ids !! i = Some id -> ids !! j = Some id' -> rs !! i = Some p -> rs !! j = Some p' ->
    (p = p' <-> id = id').
Proof.
  intros Hg. apply get_phones_ok in Hg as (Hok & _ & Hrs).
  2: { split; simpl; [intros id p; by rewrite lookup_empty|intros id []%elem_of_nil]. }
  assert (Hm : Forall2 (fun id p => made ps !! p = Some (mkPhone id)) ids rs).
  { eapply Forall2_impl; [exact Hrs|]. intros id p. apply Hok. }
  split; [done|]. intros i j id id' p p' Hi Hj Hpi Hpj.
  pose proof (Forall2_lookup_lr _ _ _ _ _ _ Hm Hi Hpi) as H1. pose proof (Forall2_lookup_lr _ _ _ _ _ _ Hm Hj Hpj) as H2.
  pose proof (Forall2_lookup_lr _ _ _ _ _ _ Hrs Hi Hpi) as H3. pose proof (Forall2_lookup_lr _ _ _ _ _ _ Hrs Hj Hpj) as H4.
  split; intros ->; congruence.
Qed.
