(* ===== verification/Schema.v ===== *)
(** * Message schemas

    The JSON schemas of the messages (src/sml/shared/schemas) as types: [conforms]
    is validation, for the keywords these schemas use.  [Reads] states that a
    conversion succeeds on every value of a type; its instances and the lemmas on
    members make decoders total on well-typed payloads, and [jobj_conforms] types
    the payloads the program builds. *)

From S2P Require Import Prelude Json Envelope Manager TelWire.

Local Open Scope Z_scope.

Inductive schema :=
  | SString
  | SEnum (names : list string)
  | SInteger (minimum : option Z)
  | SRange (minimum maximum : Z)
  | SBoolean
  | SArray (maxItems : option nat) (items : schema)
  | SObject (required : list string) (properties : list (string * schema)).

Section Conforms.
Context {json : Type} `{Json json, JsonValues json}.

(** Integers are those stored as such; no additional properties are allowed. *)
Fixpoint conforms (s : schema) (j : json) {struct s} : bool :=
  match s with
  | SString => is_string j
  | SEnum names => is_string j && bool_decide (get_string j ∈ names)
  | SInteger minimum => is_number_integer j && match minimum with Some m => m <=? get_i64 j | None => true end
  | SRange lo hi => is_number_integer j && (lo <=? get_i64 j) && (get_i64 j <=? hi)
  | SBoolean => is_boolean j
  | SArray maxItems items =>
      is_array j && match maxItems with Some n => (length (elements j) <=? n)%nat | None => true end &&
      forallb (conforms items) (elements j)
  | SObject required properties =>
      is_object j && forallb (fun k => contains k j) required &&
      forallb (fun '(k, s) => match jfind k j with Some v => conforms s v | None => true end) properties &&
      forallb (fun k => bool_decide (k ∈ properties.*1)) (keys j)
  end.
End Conforms.

(** The schema of a member. *)
Fixpoint prop_of (k : string) (properties : list (string * schema)) : option schema :=
  match properties with
  | [] => None
  | (k', s) :: properties => if decide (k' = k) then Some s else prop_of k properties
  end.

Lemma prop_of_in k properties s : prop_of k properties = Some s -> (k, s) ∈ properties.
Proof.
  induction properties as [|[k' s'] l IH]; simpl; [done|].
  case_decide as Hk; [intros [= ->]; subst; apply list_elem_of_here|intros Hs; by apply list_elem_of_further, IH].
Qed.

(** ** Well-typed values are read *)

Section Reads.
Context {json : Type} `{JsonSpec json, !JsonValues json, !JsonValuesSpec json}.

Class Reads {A} (s : schema) (get : json -> option A) : Prop :=
  reads j : conforms s j = true -> is_Some (get j).

#[global] Instance reads_string : Reads SString as_string.
Proof. intros j Hj. simpl in Hj. unfold as_string. rewrite Hj. eauto. Qed.
#[global] Instance reads_enum names : Reads (SEnum names) as_string.
Proof. intros j [Hj _]%andb_true_iff. unfold as_string. rewrite Hj. eauto. Qed.
#[global] Instance reads_int m : Reads (SInteger m) as_int.
Proof. intros j [Hj _]%andb_true_iff. rewrite as_int_integer by done. eauto. Qed.
#[global] Instance reads_uint m : Reads (SInteger m) as_uint.
Proof. intros j [Hj _]%andb_true_iff. rewrite as_uint_integer by done. eauto. Qed.
#[global] Instance reads_bool : Reads SBoolean as_bool.
Proof. intros j Hj. rewrite as_bool_boolean by done. eauto. Qed.
#[global] Instance reads_any s : Reads s (Some (A := json)).
Proof. intros j _. eauto. Qed.
#[global] Instance reads_fmap {A B} s get (f : A -> B) : Reads s get -> Reads s (fun j => f <$> get j).
Proof. intros Hg j Hj. destruct (Hg j Hj) as [a ->]. eauto. Qed.

Lemma conforms_object required properties (j : json) :
  conforms (SObject required properties) j = true ->
  is_object j = true /\ Forall (fun k => is_Some (jfind k j)) required /\
  forall k s v, prop_of k properties = Some s -> jfind k j = Some v -> conforms s v = true.
Proof.
  simpl. rewrite !andb_true_iff. intros [[[Ho Hr] Hp] _]. split; [done|]. split.
  - rewrite forallb_forall in Hr. apply Forall_forall. intros k Hk.
    apply list_elem_of_In, Hr in Hk. unfold contains in Hk. by apply bool_decide_eq_true in Hk.
  - intros k s v Hs Hv. rewrite forallb_forall in Hp. apply prop_of_in, list_elem_of_In, Hp in Hs.
    by rewrite Hv in Hs.
Qed.

Context {required : list string} {properties : list (string * schema)}.
Local Notation S := (SObject required properties).

(** Members, present or not. *)
Lemma value_as_reads {A} (get : json -> option A) k def s j :
  conforms S j = true -> prop_of k properties = Some s -> Reads s get -> is_Some (value_as get k def j).
Proof.
  intros (Ho & _ & Hp)%conforms_object Hs Hg. unfold value_as. rewrite Ho.
  destruct (jfind k j) as [v|] eqn:Hv; [|eauto]. apply Hg. by eapply Hp.
Qed.

Lemma value_string_reads k def s j :
  conforms S j = true -> prop_of k properties = Some s -> Reads s as_string ->
  is_Some (value_string k def j).
Proof. intros Hj Hs Hg. by apply (value_as_reads as_string k def s j). Qed.

(** A required member, whose value is among the enumeration's. *)
Lemma value_string_enum k def names j v :
  conforms S j = true -> prop_of k properties = Some (SEnum names) -> k ∈ required ->
  value_string k def j = Some v -> v ∈ names.
Proof.
  intros (Ho & Hr & Hp)%conforms_object Hs Hk Hv. rewrite Forall_forall in Hr.
  destruct (Hr k Hk) as [w Hw]. specialize (Hp k _ w Hs Hw). simpl in Hp.
  apply andb_true_iff in Hp as [Hw1 Hw2%bool_decide_eq_true]. unfold value_string in Hv.
  rewrite Ho, Hw, Hw1 in Hv. by injection Hv as <-.
Qed.

(** Required members, [at]. *)
Lemma jat_reads k s j :
  conforms S j = true -> prop_of k properties = Some s -> k ∈ required ->
  exists v, jat k j = Some v /\ conforms s v = true.
Proof.
  intros (Ho & Hr & Hp)%conforms_object Hs Hk. rewrite Forall_forall in Hr. destruct (Hr k Hk) as [v Hv].
  exists v. unfold jat. rewrite Ho. split; [done|]. by eapply Hp.
Qed.

Lemma decode_list_reads {A} (get : json -> option A) k m items j :
  conforms S j = true -> prop_of k properties = Some (SArray m items) -> Reads items get ->
  is_Some (decode_list k get j).
Proof.
  intros (Ho & _ & Hp)%conforms_object Hs Hg. unfold decode_list, value_json, value_as. rewrite Ho.
  destruct (jfind k j) as [v|] eqn:Hv; simpl; apply mapM_is_Some_2.
  - specialize (Hp k _ v Hs Hv). simpl in Hp. apply andb_true_iff in Hp as [_ Hp].
    rewrite forallb_forall in Hp. apply Forall_forall. intros x Hx.
    by apply Hg, Hp, list_elem_of_In.
  - rewrite elements_jarray. constructor.
Qed.

Lemma value_names_reads {A} k (of_wire : string -> A) m items j :
  conforms S j = true -> prop_of k properties = Some (SArray m items) -> Reads items as_string ->
  is_Some (value_names k of_wire j).
Proof. intros Hj Hs Hg. eapply decode_list_reads; [exact Hj|exact Hs|]. by apply reads_fmap. Qed.
End Reads.

Lemma bind_is_Some {A B} (o : option A) (k : A -> option B) :
  is_Some o -> (forall a, o = Some a -> is_Some (k a)) -> is_Some (o ≫= k).
Proof. intros [a ->] Hk. by apply Hk. Qed.

Lemma fmap_is_Some_2 {A B} (f : A -> B) (o : option A) : is_Some o -> is_Some (f <$> o).
Proof. intros [a ->]. eauto. Qed.

(** Decoders step by step; members of the payload are found in its schema. *)
Ltac read_typed :=
  lazymatch goal with
  | |- is_Some (mbind _ _) => apply bind_is_Some; [read_typed|intros ? _; read_typed]
  | |- is_Some (fmap _ _) => apply fmap_is_Some_2; read_typed
  | |- is_Some (Some _) => eexists; reflexivity
  | |- is_Some (value_string _ _ _) => eapply value_string_reads; [eassumption|reflexivity|exact _]
  | |- is_Some (value_names _ _ _) => eapply value_names_reads; [eassumption|reflexivity|exact _]
  | |- is_Some (decode_list _ _ _) => eapply decode_list_reads; [eassumption|reflexivity|exact _]
  | |- is_Some (value_as _ _ _ _) => eapply value_as_reads; [eassumption|reflexivity|exact _]
  | |- is_Some (value_int _ _ _) => unfold value_int; read_typed
  | |- is_Some (value_uint _ _ _) => unfold value_uint; read_typed
  | |- is_Some (value_bool _ _ _) => unfold value_bool; read_typed
  | |- is_Some (value_json _ _ _) => unfold value_json; read_typed
  end.

(** ** Well-typed payloads *)

Section Writes.
Context {json : Type} `{JsonSpec json, !JsonValues json, !JsonValuesSpec json}.

Lemma conforms_string s : conforms SString (of_string s : json) = true.
Proof. apply of_string_is. Qed.
Lemma conforms_enum s names : s ∈ names -> conforms (SEnum names) (of_string s : json) = true.
Proof. intros Hs. simpl. rewrite of_string_is, of_string_get. simpl. by apply bool_decide_eq_true_2. Qed.
Lemma conforms_int m n :
  match m with Some m => m <= n /\ in_i64 n | None => True end -> conforms (SInteger m) (of_int n : json) = true.
Proof.
  intros Hm. simpl. rewrite of_int_is. simpl. destruct m as [m|]; [|done]. destruct Hm as [Hm Hn].
  rewrite of_int_get by done. lia.
Qed.
Lemma conforms_range lo hi n :
  lo <= n <= hi -> in_i64 n -> conforms (SRange lo hi) (of_int n : json) = true.
Proof. intros Hn Hi. simpl. rewrite of_int_is, of_int_get by done. simpl. lia. Qed.
Lemma conforms_bool b : conforms SBoolean (of_bool b : json) = true.
Proof. apply of_bool_is. Qed.
Lemma conforms_array m items (l : list json) :
  match m with Some m => (length l <= m)%nat | None => True end ->
  Forall (fun j => conforms items j = true) l -> conforms (SArray m items) (of_array l) = true.
Proof.
  intros Hm Hl. simpl. rewrite of_array_is, of_array_elements. simpl. rewrite andb_true_iff, forallb_forall.
  split; [destruct m; [by apply Nat.leb_le|done]|]. rewrite Forall_forall in Hl. intros x Hx.
  by apply Hl, list_elem_of_In.
Qed.

Lemma member_in k (ms : list (string * json)) : is_Some (member k ms) <-> k ∈ ms.*1.
Proof.
  induction ms as [|[k' v] ms IH]; simpl; [split; [by intros [? ?]|by intros ?%elem_of_nil]|].
  rewrite elem_of_cons, <- IH. destruct (member k ms) as [w|]; [split; eauto|].
  case_decide as Hk; [naive_solver|]. split; [by intros [? ?]|]. intros [->|[? ?]]; done.
Qed.

Lemma prop_of_is k properties : k ∈ properties.*1 -> is_Some (prop_of k properties).
Proof.
  induction properties as [|[k' s] l IH]; simpl; [by intros ?%elem_of_nil|].
  rewrite elem_of_cons. case_decide; [eauto|]. intros [->|Hk]; [done|by apply IH].
Qed.

(** A value all of whose members are typed, the required ones among them; and what
    that says of a member. *)
Lemma object_conforms required properties (j : json) :
  is_object j = true -> NoDup properties.*1 -> Forall (fun k => is_Some (jfind k j)) required ->
  (forall k v, jfind k j = Some v -> exists s, prop_of k properties = Some s /\ conforms s v = true) ->
  conforms (SObject required properties) j = true.
Proof.
  intros Ho Hnd Hr Hin. simpl. rewrite Ho, !andb_true_iff, !forallb_forall. rewrite Forall_forall in Hr.
  split; [split; [split; [done|]|]|].
  - intros k Hk%list_elem_of_In. by apply bool_decide_eq_true_2, Hr.
  - intros [k s] Hs. destruct (jfind k j) as [v|] eqn:Hv; [|done].
    apply Hin in Hv as (s' & Hs' & Hv). apply prop_of_in in Hs'. apply list_elem_of_In in Hs.
    cut (s = s'); [by intros ->|]. apply list_elem_of_lookup in Hs as [i Hi]. apply list_elem_of_lookup in Hs' as [i' Hi'].
    assert (Hii : i = i').
    { eapply NoDup_lookup; [exact Hnd|by rewrite list_lookup_fmap, Hi|by rewrite list_lookup_fmap, Hi']. }
    congruence.
  - intros k Hk%list_elem_of_In. rewrite keys_find in Hk by done.
    destruct Hk as [v Hv]. apply Hin in Hv as (s & Hs%prop_of_in & _).
    apply bool_decide_eq_true_2, list_elem_of_fmap. by exists (k, s).
Qed.

Lemma conforms_member required properties (j : json) k v :
  conforms (SObject required properties) j = true -> jfind k j = Some v ->
  exists s, prop_of k properties = Some s /\ conforms s v = true.
Proof.
  intros Hc Hv. destruct (conforms_object _ _ _ Hc) as (Ho & _ & Hp).
  assert (Hk : k ∈ properties.*1).
  { simpl in Hc. rewrite !andb_true_iff, !forallb_forall in Hc. destruct Hc as [_ Hk].
    assert (Hkey : k ∈ keys j) by (apply keys_find; eauto).
    by apply list_elem_of_In, Hk, bool_decide_eq_true_1 in Hkey. }
  destruct (prop_of_is k properties Hk) as [s Hs]. exists s. split; [done|by eapply Hp].
Qed.

(** An object built member by member. *)
Lemma jobj_conforms required properties (ms : list (string * json)) :
  required ⊆ ms.*1 ->
  Forall (fun '(k, v) => exists s, prop_of k properties = Some s /\ conforms s v = true) ms ->
  NoDup properties.*1 -> conforms (SObject required properties) (jobj ms) = true.
Proof.
  intros Hr Hms Hnd. apply object_conforms; [apply jobj_object|done| |].
  - apply Forall_forall. intros k Hk%Hr. rewrite jobj_find. by apply member_in.
  - intros k v. rewrite jobj_find. clear -Hms. induction Hms as [|[k' w] ms Hw _ IH]; [done|]. simpl.
    destruct (member k ms) as [w'|] eqn:Hk'; [intros [= ->]; by apply IH|]. case_decide as Hk; [|done].
    intros [= ->]. by subst.
Qed.
End Writes.

(** Payloads, member by member; what is left are the facts about their values. *)
Ltac type_members :=
  repeat first
    [ apply Forall_nil_2
    | apply Forall_cons_2
    | lazymatch goal with
      | |- exists s, prop_of _ _ = Some s /\ _ => eexists; split; [reflexivity|]
      | |- conforms SString (of_string _) = true => apply conforms_string
      | |- conforms (SEnum _) (of_string _) = true => apply conforms_enum
      | |- conforms (SInteger _) (of_int _) = true => apply conforms_int
      | |- conforms SBoolean (of_bool _) = true => apply conforms_bool
      end ].
Ltac type_object :=
  apply jobj_conforms; [apply (bool_decide_unpack _); vm_compute; exact I| |apply (bool_decide_unpack _); vm_compute; exact I].
