(* ===== verification/RadioSchemas.v ===== *)
(** * The schemas of the radio messages (src/sml/shared/schemas/radio, ecall)

    Each file of the directory as a value of [schema], named after its identifier,
    and the table the bridge looks them up in.  Indications that share a file are
    entered under their own topics, as registry/radio.yaml says. *)

From S2P Require Import Prelude Schema.

Local Open Scope Z_scope.

(** ** Enumerations used more than once *)

Definition schema_bands : list string :=
  ["INVALID"; "BC_0"; "BC_1"; "BC_3"; "BC_4"; "BC_5"; "BC_6"; "BC_7"; "BC_8"; "BC_9"; "BC_10"; "BC_11";
   "BC_12"; "BC_13"; "BC_14"; "BC_15"; "BC_16"; "BC_17"; "BC_18"; "BC_19"; "GSM_450"; "GSM_480";
   "GSM_750"; "GSM_850"; "GSM_900_EXTENDED"; "GSM_900_PRIMARY"; "GSM_900_RAILWAYS"; "GSM_1800";
   "GSM_1900"; "WCDMA_2100"; "WCDMA_PCS_1900"; "WCDMA_DCS_1800"; "WCDMA_1700_US"; "WCDMA_850";
   "WCDMA_800"; "WCDMA_2600"; "WCDMA_900"; "WCDMA_1700_JAPAN"; "WCDMA_1500_JAPAN"; "WCDMA_850_JAPAN";
   "E_UTRA_OPERATING_BAND_1"; "E_UTRA_OPERATING_BAND_2"; "E_UTRA_OPERATING_BAND_3";
   "E_UTRA_OPERATING_BAND_4"; "E_UTRA_OPERATING_BAND_5"; "E_UTRA_OPERATING_BAND_6";
   "E_UTRA_OPERATING_BAND_7"; "E_UTRA_OPERATING_BAND_8"; "E_UTRA_OPERATING_BAND_9";
   "E_UTRA_OPERATING_BAND_10"; "E_UTRA_OPERATING_BAND_11"; "E_UTRA_OPERATING_BAND_12";
   "E_UTRA_OPERATING_BAND_13"; "E_UTRA_OPERATING_BAND_14"; "E_UTRA_OPERATING_BAND_17";
   "E_UTRA_OPERATING_BAND_33"; "E_UTRA_OPERATING_BAND_34"; "E_UTRA_OPERATING_BAND_35";
   "E_UTRA_OPERATING_BAND_36"; "E_UTRA_OPERATING_BAND_37"; "E_UTRA_OPERATING_BAND_38";
   "E_UTRA_OPERATING_BAND_39"; "E_UTRA_OPERATING_BAND_40"; "E_UTRA_OPERATING_BAND_18";
   "E_UTRA_OPERATING_BAND_19"; "E_UTRA_OPERATING_BAND_20"; "E_UTRA_OPERATING_BAND_21";
   "E_UTRA_OPERATING_BAND_24"; "E_UTRA_OPERATING_BAND_25"; "E_UTRA_OPERATING_BAND_41";
   "E_UTRA_OPERATING_BAND_42"; "E_UTRA_OPERATING_BAND_43"; "E_UTRA_OPERATING_BAND_23";
   "E_UTRA_OPERATING_BAND_26"; "E_UTRA_OPERATING_BAND_32"; "E_UTRA_OPERATING_BAND_125";
   "E_UTRA_OPERATING_BAND_126"; "E_UTRA_OPERATING_BAND_127"; "E_UTRA_OPERATING_BAND_28";
   "E_UTRA_OPERATING_BAND_29"; "E_UTRA_OPERATING_BAND_30"; "E_UTRA_OPERATING_BAND_66";
   "E_UTRA_OPERATING_BAND_250"; "E_UTRA_OPERATING_BAND_46"; "E_UTRA_OPERATING_BAND_27";
   "E_UTRA_OPERATING_BAND_31"; "E_UTRA_OPERATING_BAND_71"; "E_UTRA_OPERATING_BAND_47";
   "E_UTRA_OPERATING_BAND_48"; "E_UTRA_OPERATING_BAND_67"; "E_UTRA_OPERATING_BAND_68";
   "E_UTRA_OPERATING_BAND_49"; "E_UTRA_OPERATING_BAND_85"; "E_UTRA_OPERATING_BAND_72";
   "E_UTRA_OPERATING_BAND_73"; "E_UTRA_OPERATING_BAND_86"; "E_UTRA_OPERATING_BAND_53";
   "E_UTRA_OPERATING_BAND_87"; "E_UTRA_OPERATING_BAND_88"; "E_UTRA_OPERATING_BAND_70"; "TDSCDMA_BAND_A";
   "TDSCDMA_BAND_B"; "TDSCDMA_BAND_C"; "TDSCDMA_BAND_D"; "TDSCDMA_BAND_E"; "TDSCDMA_BAND_F";
   "NR5G_BAND_1"; "NR5G_BAND_2"; "NR5G_BAND_3"; "NR5G_BAND_5"; "NR5G_BAND_7"; "NR5G_BAND_8";
   "NR5G_BAND_20"; "NR5G_BAND_28"; "NR5G_BAND_38"; "NR5G_BAND_41"; "NR5G_BAND_50"; "NR5G_BAND_51";
   "NR5G_BAND_66"; "NR5G_BAND_70"; "NR5G_BAND_71"; "NR5G_BAND_74"; "NR5G_BAND_75"; "NR5G_BAND_76";
   "NR5G_BAND_77"; "NR5G_BAND_78"; "NR5G_BAND_79"; "NR5G_BAND_80"; "NR5G_BAND_81"; "NR5G_BAND_82";
   "NR5G_BAND_83"; "NR5G_BAND_84"; "NR5G_BAND_85"; "NR5G_BAND_257"; "NR5G_BAND_258"; "NR5G_BAND_259";
   "NR5G_BAND_260"; "NR5G_BAND_261"; "NR5G_BAND_12"; "NR5G_BAND_25"; "NR5G_BAND_34"; "NR5G_BAND_39";
   "NR5G_BAND_40"; "NR5G_BAND_65"; "NR5G_BAND_86"; "NR5G_BAND_48"; "NR5G_BAND_14"; "NR5G_BAND_13";
   "NR5G_BAND_18"; "NR5G_BAND_26"; "NR5G_BAND_30"; "NR5G_BAND_29"; "NR5G_BAND_53"; "NR5G_BAND_46";
   "NR5G_BAND_91"; "NR5G_BAND_92"; "NR5G_BAND_93"; "NR5G_BAND_94"].

Definition schema_widths : list string :=
  ["INVALID_BANDWIDTH"; "LTE_BW_NRB_6"; "LTE_BW_NRB_15"; "LTE_BW_NRB_25"; "LTE_BW_NRB_50";
   "LTE_BW_NRB_75"; "LTE_BW_NRB_100"; "NR5G_BW_NRB_5"; "NR5G_BW_NRB_10"; "NR5G_BW_NRB_15";
   "NR5G_BW_NRB_20"; "NR5G_BW_NRB_25"; "NR5G_BW_NRB_30"; "NR5G_BW_NRB_40"; "NR5G_BW_NRB_50";
   "NR5G_BW_NRB_60"; "NR5G_BW_NRB_80"; "NR5G_BW_NRB_90"; "NR5G_BW_NRB_100"; "NR5G_BW_NRB_200";
   "NR5G_BW_NRB_400"; "GSM_BW_NRB_2"; "TDSCDMA_BW_NRB_2"; "WCDMA_BW_NRB_5"; "WCDMA_BW_NRB_10";
   "NR5G_BW_NRB_70"].

Definition schema_rats : list string :=
  ["CDMA_1X"; "CDMA_EVDO"; "GSM"; "WCDMA"; "LTE"; "TDSCDMA"; "NR5G"; "NR5G_NSA"; "NR5G_SA"; "NB1_NTN"].

Definition schema_techs : list string :=
  ["RADIO_TECH_UNKNOWN"; "RADIO_TECH_GPRS"; "RADIO_TECH_EDGE"; "RADIO_TECH_UMTS"; "RADIO_TECH_LTE";
   "RADIO_TECH_GSM"; "RADIO_TECH_TD_SCDMA"; "RADIO_TECH_LTE_CA"; "RADIO_TECH_NR5G"].

Definition schema_modes : list string :=
  ["ONLINE"; "AIRPLANE"; "FACTORY_TEST"; "OFFLINE"; "RESETTING"; "SHUTTING_DOWN"; "PERSISTENT_LOW_POWER"].

(** ** Objects in lists *)

Definition schema_cell : schema :=
  SObject ["cellType"; "registered"] [
    ("cellType", SEnum ["GSM"; "CDMA"; "WCDMA"; "LTE"; "TDSCDMA"; "NR5G"]);
    ("registered", SBoolean);
    ("gsm", SObject ["mcc"; "mnc"; "lac"; "cid"; "arfcn"; "bsic"; "signalStrength"; "bitErrorRate"] [
        ("mcc", SString);
        ("mnc", SString);
        ("lac", SInteger None);
        ("cid", SInteger None);
        ("arfcn", SInteger None);
        ("bsic", SInteger None);
        ("signalStrength", SInteger None);
        ("bitErrorRate", SInteger None)]);
    ("wcdma", SObject ["mcc"; "mnc"; "lac"; "cid"; "psc"; "uarfcn"; "signalStrength"; "bitErrorRate"; "ecio";
        "rscp"] [
        ("mcc", SString);
        ("mnc", SString);
        ("lac", SInteger None);
        ("cid", SInteger None);
        ("psc", SInteger None);
        ("uarfcn", SInteger None);
        ("signalStrength", SInteger None);
        ("bitErrorRate", SInteger None);
        ("ecio", SInteger None);
        ("rscp", SInteger None)]);
    ("lte", SObject ["mcc"; "mnc"; "ci"; "pci"; "tac"; "earfcn"; "signalStrength"; "rsrp"; "rsrq"; "rssnr";
        "cqi"; "timingAdvance"] [
        ("mcc", SString);
        ("mnc", SString);
        ("ci", SInteger None);
        ("pci", SInteger None);
        ("tac", SInteger None);
        ("earfcn", SInteger None);
        ("signalStrength", SInteger None);
        ("rsrp", SInteger None);
        ("rsrq", SInteger None);
        ("rssnr", SInteger None);
        ("cqi", SInteger None);
        ("timingAdvance", SInteger None)]);
    ("nr5g", SObject ["mcc"; "mnc"; "ci"; "pci"; "tac"; "arfcn"; "rsrp"; "rsrq"; "rssnr"] [
        ("mcc", SString);
        ("mnc", SString);
        ("ci", SInteger None);
        ("pci", SInteger None);
        ("tac", SInteger None);
        ("arfcn", SInteger None);
        ("rsrp", SInteger None);
        ("rsrq", SInteger None);
        ("rssnr", SInteger None)])].

Definition schema_sim_rats : schema :=
  SObject ["slotId"; "capabilities"] [
    ("slotId", SInteger (Some 0));
    ("capabilities", SArray None (SEnum ["AMPS"; "CDMA"; "HDR"; "GSM"; "WCDMA";
      "LTE"; "TDS"; "NR5G"; "NR5GSA"; "NB1_NTN"]))].

(** ** Messages *)

Definition radio_cell_info_ind : schema :=
  SObject ["cells"] [
    ("cells", SArray None schema_cell)].

Definition radio_configure_signal_strength_req : schema :=
  SObject ["ratSigType"; "slot"] [
    ("ratSigType", SEnum ["GSM_RSSI"; "WCDMA_RSSI"; "LTE_RSSI"; "LTE_SNR"; "LTE_RSRQ"; "LTE_RSRP"; "NR5G_SNR";
        "NR5G_RSRP"; "NR5G_RSRQ"]);
    ("thresholds", SArray (Some 32%nat) (SInteger None));
    ("delta", SInteger (Some 0));
    ("hysteresisDb", SInteger (Some 0));
    ("hysteresisMs", SInteger (Some 0));
    ("slot", SInteger (Some 0))].

Definition radio_configure_signal_strength_rsp : schema :=
  SObject [] [].

Definition radio_get_dc_status_req : schema :=
  SObject ["slot"] [
    ("slot", SInteger (Some 0))].

Definition radio_get_dc_status_rsp : schema :=
  SObject ["endcAvailability"; "dcnrRestriction"] [
    ("endcAvailability", SEnum ["UNKNOWN"; "AVAILABLE"; "UNAVAILABLE"]);
    ("dcnrRestriction", SEnum ["UNKNOWN"; "RESTRICTED"; "UNRESTRICTED"])].

Definition radio_get_system_info_req : schema :=
  SObject ["slot"] [
    ("slot", SInteger (Some 0))].

Definition radio_get_system_info_rsp : schema :=
  SObject ["rat"; "domain"; "state"] [
    ("rat", SEnum schema_techs);
    ("domain", SEnum ["UNKNOWN"; "NO_SRV"; "CS_ONLY"; "PS_ONLY"; "CS_PS"; "CAMPED"]);
    ("state", SEnum ["UNKNOWN"; "NO_SERVICE"; "LIMITED_SERVICE"; "IN_SERVICE"; "LIMITED_REGIONAL"; "POWER_SAVE"])].

Definition radio_lte_cs_capability_ind : schema :=
  SObject ["lteCsCapability"] [
    ("lteCsCapability", SEnum ["UNKNOWN"; "FULL_SERVICE"; "CSFB_NOT_PREFERRED"; "SMS_ONLY"; "LIMITED"; "BARRED"])].

Definition radio_op_mode_ind : schema :=
  SObject ["mode"] [
    ("mode", SEnum schema_modes)].

Definition radio_rat_pref_ind : schema :=
  SObject ["ratPrefs"] [
    ("ratPrefs", SArray None (SEnum schema_rats));
    ("serviceDomainPref", SEnum ["CS_ONLY"; "PS_ONLY"; "CS_PS"; "UNKNOWN"])].

Definition radio_request_cell_info_req : schema :=
  SObject ["slot"] [
    ("slot", SInteger (Some 0))].

Definition radio_request_cell_info_rsp : schema :=
  SObject ["cells"] [
    ("cells", SArray None schema_cell)].

Definition radio_request_cellular_capability_req : schema :=
  SObject [] [].

Definition radio_request_cellular_capability_rsp : schema :=
  SObject ["voiceServiceTechs"; "simCount"; "maxActiveSims"; "simRatCapabilities"; "deviceRatCapability"] [
    ("voiceServiceTechs", SArray None (SEnum ["VOICE_TECH_GW_CSFB"; "VOICE_TECH_1x_CSFB"; "VOICE_TECH_VOLTE"]));
    ("simCount", SInteger (Some 0));
    ("maxActiveSims", SInteger (Some 0));
    ("simRatCapabilities", SArray None schema_sim_rats);
    ("deviceRatCapability", SArray None schema_sim_rats)].

Definition radio_request_network_selection_mode_req : schema :=
  SObject ["slot"] [
    ("slot", SInteger (Some 0))].

Definition radio_request_network_selection_mode_rsp : schema :=
  SObject ["mode"; "mcc"; "mnc"] [
    ("mode", SEnum ["AUTOMATIC"; "MANUAL"; "UNKNOWN"]);
    ("mcc", SString);
    ("mnc", SString)].

Definition radio_request_operating_mode_req : schema :=
  SObject ["slot"] [
    ("slot", SInteger (Some 0))].

Definition radio_request_operating_mode_rsp : schema :=
  SObject ["mode"] [
    ("mode", SEnum schema_modes)].

Definition radio_request_operator_info_req : schema :=
  SObject ["slot"] [
    ("slot", SInteger (Some 0))].

Definition radio_request_operator_info_rsp : schema :=
  SObject ["longName"; "shortName"; "plmn"; "isHome"] [
    ("longName", SString);
    ("shortName", SString);
    ("plmn", SString);
    ("isHome", SBoolean)].

Definition radio_request_rat_preference_req : schema :=
  SObject ["slot"] [
    ("slot", SInteger (Some 0))].

Definition radio_request_rat_preference_rsp : schema :=
  SObject ["ratPrefs"] [
    ("ratPrefs", SArray None (SEnum schema_rats))].

Definition radio_request_rf_band_info_req : schema :=
  SObject ["slot"] [
    ("slot", SInteger (Some 0))].

Definition radio_request_rf_band_info_rsp : schema :=
  SObject ["band"; "channel"; "bandWidth"] [
    ("band", SEnum schema_bands);
    ("channel", SInteger None);
    ("bandWidth", SEnum schema_widths)].

Definition radio_request_signal_strength_req : schema :=
  SObject ["slot"] [
    ("slot", SInteger (Some 0))].

Definition radio_request_signal_strength_rsp : schema :=
  SObject ["gsm"; "wcdma"; "lte"; "nr5g"] [
    ("gsm", SObject ["gsmSignalStrength"; "gsmBitErrorRate"] [
        ("gsmSignalStrength", SInteger None);
        ("gsmBitErrorRate", SInteger None)]);
    ("wcdma", SObject ["signalStrength"; "bitErrorRate"; "ecio"; "rscp"] [
        ("signalStrength", SInteger None);
        ("bitErrorRate", SInteger None);
        ("ecio", SInteger None);
        ("rscp", SInteger None)]);
    ("lte", SObject ["lteSignalStrength"; "lteRsrp"; "lteRsrq"; "lteRssnr"; "lteCqi"; "timingAdvance"] [
        ("lteSignalStrength", SInteger None);
        ("lteRsrp", SInteger None);
        ("lteRsrq", SInteger None);
        ("lteRssnr", SInteger None);
        ("lteCqi", SInteger None);
        ("timingAdvance", SInteger None)]);
    ("nr5g", SObject ["rsrp"; "rsrq"; "rssnr"] [
        ("rsrp", SInteger None);
        ("rsrq", SInteger None);
        ("rssnr", SInteger None)])].

Definition radio_request_voice_service_state_req : schema :=
  SObject ["slot"] [
    ("slot", SInteger (Some 0))].

Definition radio_request_voice_service_state_rsp : schema :=
  SObject ["voiceServiceState"; "denialCause"; "radioTech"] [
    ("voiceServiceState", SEnum ["NOT_REG_AND_NOT_SEARCHING"; "REG_HOME"; "NOT_REG_AND_SEARCHING"; "REG_DENIED"; "UNKNOWN";
        "REG_ROAMING"]);
    ("denialCause", SInteger None);
    ("radioTech", SEnum schema_techs)].

Definition radio_set_network_selection_mode_req : schema :=
  SObject ["mode"; "slot"] [
    ("mode", SEnum ["AUTOMATIC"; "MANUAL"; "UNKNOWN"]);
    ("mcc", SString);
    ("mnc", SString);
    ("slot", SInteger (Some 0))].

Definition radio_set_network_selection_mode_rsp : schema :=
  SObject [] [].

Definition radio_set_operating_mode_req : schema :=
  SObject ["mode"; "slot"] [
    ("mode", SEnum schema_modes);
    ("slot", SInteger (Some 0))].

Definition radio_set_operating_mode_rsp : schema :=
  SObject [] [].

Definition radio_set_rat_preference_req : schema :=
  SObject ["ratPrefs"; "slot"] [
    ("ratPrefs", SArray None (SEnum schema_rats));
    ("slot", SInteger (Some 0))].

Definition radio_set_rat_preference_rsp : schema :=
  SObject [] [].

Definition radio_signal_strength_ind : schema :=
  SObject ["gsm"; "wcdma"; "lte"; "nr5g"] [
    ("gsm", SObject ["gsmSignalStrength"; "gsmBitErrorRate"] [
        ("gsmSignalStrength", SInteger None);
        ("gsmBitErrorRate", SInteger None)]);
    ("wcdma", SObject ["signalStrength"; "bitErrorRate"; "ecio"; "rscp"] [
        ("signalStrength", SInteger None);
        ("bitErrorRate", SInteger None);
        ("ecio", SInteger None);
        ("rscp", SInteger None)]);
    ("lte", SObject ["lteSignalStrength"; "lteRsrp"; "lteRsrq"; "lteRssnr"; "lteCqi"; "timingAdvance"] [
        ("lteSignalStrength", SInteger None);
        ("lteRsrp", SInteger None);
        ("lteRsrq", SInteger None);
        ("lteRssnr", SInteger None);
        ("lteCqi", SInteger None);
        ("timingAdvance", SInteger None)]);
    ("nr5g", SObject ["rsrp"; "rsrq"; "rssnr"] [
        ("rsrp", SInteger None);
        ("rsrq", SInteger None);
        ("rssnr", SInteger None)])].

Definition radio_subsys_ready_ind : schema :=
  SObject ["ready"; "status"] [
    ("ready", SBoolean);
    ("status", SEnum ["AVAILABLE"; "UNAVAILABLE"])].

Definition radio_sys_info_ind : schema :=
  SObject ["rat"; "domain"; "state"] [
    ("rat", SEnum schema_techs);
    ("domain", SEnum ["UNKNOWN"; "NO_SRV"; "CS_ONLY"; "PS_ONLY"; "CS_PS"; "CAMPED"]);
    ("state", SEnum ["UNKNOWN"; "NO_SERVICE"; "LIMITED_SERVICE"; "IN_SERVICE"; "LIMITED_REGIONAL"; "POWER_SAVE"])].

Definition ecall_operating_mode_ind : schema :=
  SObject ["phoneId"; "mode"; "reason"] [
    ("phoneId", SInteger None);
    ("mode", SEnum ["NORMAL"; "ECALL_ONLY"; "NONE"]);
    ("reason", SEnum ["NORMAL"; "ERA_GLONASS"])].

Definition ecall_get_operating_mode_req : schema :=
  SObject ["phoneId"] [
    ("phoneId", SInteger None)].

Definition ecall_get_operating_mode_rsp : schema :=
  SObject ["mode"] [
    ("mode", SEnum ["NORMAL"; "ECALL_ONLY"; "NONE"])].

Definition ecall_set_operating_mode_req : schema :=
  SObject ["phoneId"; "mode"] [
    ("phoneId", SInteger None);
    ("mode", SEnum ["NORMAL"; "ECALL_ONLY"; "NONE"])].

Definition ecall_set_operating_mode_rsp : schema :=
  SObject [] [].

(** ** The table, by schema identifier *)

Definition schemas : list (string * schema) :=
  [("radio.cell_info.ind", radio_cell_info_ind);
   ("radio.configure_signal_strength.req", radio_configure_signal_strength_req);
   ("radio.configure_signal_strength.rsp", radio_configure_signal_strength_rsp);
   ("radio.get_dc_status.req", radio_get_dc_status_req);
   ("radio.get_dc_status.rsp", radio_get_dc_status_rsp);
   ("radio.get_system_info.req", radio_get_system_info_req);
   ("radio.get_system_info.rsp", radio_get_system_info_rsp);
   ("radio.lte_cs_capability.ind", radio_lte_cs_capability_ind);
   ("radio.op_mode.ind", radio_op_mode_ind);
   ("radio.rat_pref.ind", radio_rat_pref_ind);
   ("radio.request_cell_info.req", radio_request_cell_info_req);
   ("radio.request_cell_info.rsp", radio_request_cell_info_rsp);
   ("radio.request_cellular_capability.req", radio_request_cellular_capability_req);
   ("radio.request_cellular_capability.rsp", radio_request_cellular_capability_rsp);
   ("radio.request_network_selection_mode.req", radio_request_network_selection_mode_req);
   ("radio.request_network_selection_mode.rsp", radio_request_network_selection_mode_rsp);
   ("radio.request_operating_mode.req", radio_request_operating_mode_req);
   ("radio.request_operating_mode.rsp", radio_request_operating_mode_rsp);
   ("radio.request_operator_info.req", radio_request_operator_info_req);
   ("radio.request_operator_info.rsp", radio_request_operator_info_rsp);
   ("radio.request_rat_preference.req", radio_request_rat_preference_req);
   ("radio.request_rat_preference.rsp", radio_request_rat_preference_rsp);
   ("radio.request_rf_band_info.req", radio_request_rf_band_info_req);
   ("radio.request_rf_band_info.rsp", radio_request_rf_band_info_rsp);
   ("radio.request_signal_strength.req", radio_request_signal_strength_req);
   ("radio.request_signal_strength.rsp", radio_request_signal_strength_rsp);
   ("radio.request_voice_service_state.req", radio_request_voice_service_state_req);
   ("radio.request_voice_service_state.rsp", radio_request_voice_service_state_rsp);
   ("radio.set_network_selection_mode.req", radio_set_network_selection_mode_req);
   ("radio.set_network_selection_mode.rsp", radio_set_network_selection_mode_rsp);
   ("radio.set_operating_mode.req", radio_set_operating_mode_req);
   ("radio.set_operating_mode.rsp", radio_set_operating_mode_rsp);
   ("radio.set_rat_preference.req", radio_set_rat_preference_req);
   ("radio.set_rat_preference.rsp", radio_set_rat_preference_rsp);
   ("radio.signal_strength.ind", radio_signal_strength_ind);
   ("radio.subsys_ready.ind", radio_subsys_ready_ind);
   ("radio.sys_info.ind", radio_sys_info_ind);
   ("ecall.operating_mode.ind", ecall_operating_mode_ind);
   ("ecall.get_operating_mode.req", ecall_get_operating_mode_req);
   ("ecall.get_operating_mode.rsp", ecall_get_operating_mode_rsp);
   ("ecall.set_operating_mode.req", ecall_set_operating_mode_req);
   ("ecall.set_operating_mode.rsp", ecall_set_operating_mode_rsp);
   ("radio.dc_status.ind", radio_get_dc_status_rsp);
   ("radio.subsys_ready_phone.ind", radio_subsys_ready_ind);
   ("radio.subsys_ready_netsel.ind", radio_subsys_ready_ind);
   ("radio.subsys_ready_serv.ind", radio_subsys_ready_ind)].

Definition schema_of (id : string) : option schema := prop_of id schemas.
