(* ===== verification/TelTyping.v ===== *)
(** * Typed messages of the telephony managers

    The managers and the phone against the schemas of RadioSchemas.v: what they
    send conforms to its schema, an answer that conforms reaches its client, and an
    indication that conforms never stops the process. *)

From S2P Require Import Prelude Json Envelope Manager Ecall Answers TelWire TelShell TelShellProps NetworkSelection.
From S2P Require Import TelServing SignalStrength CellInfo Phone PhoneManager Schema RadioSchemas.

Local Open Scope Z_scope.

Definition is_done {A} (o : outcome A) : Prop := exists a, o = Done a.

Lemma or_die_is_done {A B} (o : option A) (k : A -> B) : is_Some o -> is_done (a ← or_die o; Done (k a)).
Proof. intros [a ->]. by eexists. Qed.

Section Typing.
Context {json : Type} `{JsonSpec json, !JsonValues json, !JsonValuesSpec json} {C L : Type} `{EqDecision L}.

(** A payload as the schema named says. *)
Definition well_typed (id : string) (d : json) : Prop :=
  exists s, schema_of id = Some s /\ conforms s d = true.
Definition typed_env (id : string) (env : Envelope json) : Prop :=
  error env = None /\ exists d, data env = Some d /\ well_typed id d.

(** An operation's request conforms; its well-typed answer reaches its clients. *)
Definition request_typed (r : string * string * json) : Prop := well_typed (fst (fst r)) (snd r).
Definition reaches_clients {V} (clients : list (C * V)) (out : list (C * V * Z)) : Prop :=
  (fun x : C * V * Z => (fst (fst x), snd x)) <$> out = (fun c => (c, SUCCESS)) <$> clients.*1.

Lemma data_reaches {V} id bad (decode : json -> option V) cb env :
  typed_env id env -> (forall d s, schema_of id = Some s -> conforms s d = true -> is_Some (decode d)) ->
  reaches_clients (clients_of bad cb) (completeData bad decode cb (Some env)).
Proof.
  intros (He & d & Hd & s & Hs & Hc) Hdec. destruct cb as [c|]; [|done].
  unfold completeData, query_data. rewrite He, Hd. by destruct (Hdec d s Hs Hc) as [v ->].
Qed.

Lemma or_timeout_reaches {V} id (v : V) cb env :
  typed_env id env -> reaches_clients (clients_of v cb) (completeOrTimeout v cb (Some env)).
Proof. intros [He _]. destruct cb as [c|]; [|done]. unfold completeOrTimeout. by rewrite He. Qed.

(** ** Nested decoders *)

#[local] Instance sim_rats_read : Reads schema_sim_rats wireToSimRatCapability.
Proof. intros j Hj. unfold wireToSimRatCapability. read_typed. Qed.

Lemma sub_cell_reads k s decode j req props :
  conforms (SObject req props) j = true -> prop_of k props = Some s -> Reads s decode ->
  is_Some (sub_cell k decode j).
Proof.
  intros (Ho & _ & Hp)%conforms_object Hs Hd. unfold sub_cell, contains.
  case_bool_decide as Hk; [|eauto]. destruct Hk as [v Hv]. unfold jat. rewrite Ho, Hv. simpl.
  apply fmap_is_Some_2, Hd. by eapply Hp.
Qed.

#[local] Instance cell_reads : Reads schema_cell wireToCellInfo.
Proof.
  intros j Hj. unfold wireToCellInfo. unfold value_bool.
  apply bind_is_Some; [read_typed|intros t _]. apply bind_is_Some; [read_typed|intros r _].
  destruct (wireToCellType t); try (eexists; reflexivity);
    (eapply sub_cell_reads; [exact Hj|reflexivity|]); intros x Hx.
  - unfold decode_gsm_cell, decode_gsm_ss. read_typed.
  - unfold decode_lte_cell, decode_lte_ss. read_typed.
  - unfold decode_wcdma_cell, decode_wcdma_ss. read_typed.
  - unfold decode_nr5g_cell, decode_nr5g_ss. read_typed.
Qed.

Lemma signal_strength_reads (d : json) :
  conforms radio_request_signal_strength_rsp d = true -> is_Some (wireToSignalStrength d).
Proof.
  intros Hd. unfold wireToSignalStrength.
  assert (Hat : forall k s, prop_of k (match radio_request_signal_strength_rsp with SObject _ ps => ps | _ => [] end)
      = Some s -> k ∈ ["gsm"; "wcdma"; "lte"; "nr5g"] -> exists v, jat k d = Some v /\ conforms s v = true).
  { intros k s Hs Hk. eapply jat_reads; [exact Hd|exact Hs|exact Hk]. }
  destruct (Hat "gsm" _ eq_refl) as (g & -> & Hg); [set_solver|].
  destruct (Hat "wcdma" _ eq_refl) as (w & -> & Hw); [set_solver|].
  destruct (Hat "lte" _ eq_refl) as (l & -> & Hl); [set_solver|].
  destruct (Hat "nr5g" _ eq_refl) as (n & -> & Hn); [set_solver|].
  cbn [mbind option_bind]. unfold decode_gsm_ss, decode_wcdma_ss, decode_lte_ss, decode_nr5g_ss. read_typed.
Qed.

(** ** Requests *)

Lemma typed_by id req props (ms : list (string * json)) :
  schema_of id = Some (SObject req props) -> req ⊆ ms.*1 ->
  Forall (fun '(k, v) => exists s, prop_of k props = Some s /\ conforms s v = true) ms ->
  NoDup props.*1 -> well_typed id (jobj ms).
Proof. intros Hs Hr Hms Hnd. eexists. split; [exact Hs|by apply jobj_conforms]. Qed.

Ltac type_request :=
  lazymatch goal with
  | |- well_typed _ _ =>
      eapply typed_by; [reflexivity|apply (bool_decide_unpack _); vm_compute; exact I| |
        apply (bool_decide_unpack _); vm_compute; exact I]; type_members
  end.

(** A slot or phone identifier. *)
Definition slot_ok (n : Z) : Prop := 0 <= n < 2 ^ 31.

Lemma slot_i64 n : slot_ok n -> 0 <= n /\ in_i64 n.
Proof. unfold slot_ok, in_i64. lia. Qed.
#[local] Hint Resolve slot_i64 : core.

Lemma rat_names_known p : Forall (fun s => conforms (SEnum schema_rats) (of_string s : json) = true) (rat_names p).
Proof.
  apply Forall_forall. intros s (i & -> & Hi)%list_elem_of_fmap. apply conforms_enum.
  apply list_elem_of_filter in Hi as [_ Hi%elem_of_seqZ].
  assert (Hall : Forall (fun i => ratPrefToWire i ∈ schema_rats) (seqZ 0 16)).
  { apply (bool_decide_unpack _). vm_compute. exact I. }
  rewrite Forall_forall in Hall. apply Hall, elem_of_seqZ. lia.
Qed.

Lemma mode_known m : operatingModeToWire m ∈ schema_modes.
Proof.
  destruct (decide (0 <= m < 7)) as [Hm|Hm].
  - assert (Hall : Forall (fun i => operatingModeToWire i ∈ schema_modes) (seqZ 0 7)).
    { apply (bool_decide_unpack _). vm_compute. exact I. }
    rewrite Forall_forall in Hall. apply Hall, elem_of_seqZ. lia.
  - assert (He : operatingModeToWire m = "ONLINE").
    { destruct m as [|p|p]; [lia| |done]. do 3 (destruct p as [p|p|]; try done; try lia). }
    rewrite He. apply list_elem_of_here.
Qed.

Lemma netsel_requests slot (op : netsel_op (C := C)) : slot_ok slot -> request_typed (netsel_request slot op : string * string * json).
Proof.
  intros Hs. unfold request_typed. destruct op as [m c n cb|cb|cb]; simpl; type_request; auto.
  destruct m; apply (bool_decide_unpack _); vm_compute; exact I.
Qed.

Lemma tserv_requests slot (op : tserv_op (C := C)) : slot_ok slot -> request_typed (tserv_request slot op : string * string * json).
Proof.
  intros Hs. unfold request_typed. destruct op as [p cb|cb|cb]; simpl; type_request; auto.
  apply conforms_array; [done|]. apply Forall_fmap, rat_names_known.
Qed.

Lemma phonemgr_requests (op : phonemgr_op (C := C)) : request_typed (phonemgr_request op : string * string * json).
Proof.
  unfold request_typed. destruct op as [cb|cb|m cb]; simpl; type_request; try apply mode_known;
    by apply slot_i64.
Qed.

(** What the fields of a configuration can be. *)
Definition config_ok (configs : list SignalStrengthConfigEx) (hysteresisMs : Z) : Prop :=
  0 <= hysteresisMs < 2 ^ 16 /\
  Forall (fun c => Forall (fun d => length (thresholdList d) = 10%nat /\ 0 <= hysteresisDb d < 2 ^ 16)
    (sigConfigData c)) configs.
Definition phone_op_ok (op : phone_op (C := C)) : Prop :=
  match op with ConfigureSignalStrength configs ms _ => config_ok configs ms | _ => True end.

Lemma config_requests id configs ms :
  slot_ok id -> config_ok configs ms ->
  well_typed "radio.configure_signal_strength.req" (config_payload id configs ms : json).
Proof.
  intros Hid [Hms Hc]. unfold config_payload.
  assert (Hlast : Forall (fun '(k, v) => exists s,
      prop_of k (match radio_configure_signal_strength_req with SObject _ ps => ps | _ => [] end) = Some s /\
      conforms s v = true)
    (opt_member (negb (ms =? 0)) "hysteresisMs" (of_int ms) ++ [("slot", of_int id : json)])).
  { unfold slot_ok in Hid. destruct (negb _); cbn [opt_member app]; type_members; cbv iota beta; unfold in_i64; lia. }
  eapply typed_by; [reflexivity| |apply Forall_app; split; [|exact Hlast]|apply (bool_decide_unpack _); vm_compute; exact I].
  - intros k Hk. rewrite !fmap_app, !elem_of_app. rewrite !elem_of_cons in Hk.
    destruct Hk as [->|[->|[]%elem_of_nil]]; [left|right; right; simpl; set_solver].
    destruct configs; simpl; apply list_elem_of_here.
  - destruct configs as [|cfg configs]; [type_members; apply (bool_decide_unpack _); vm_compute; exact I|].
    cbn [config_members]. apply Forall_cons_2.
    { type_members. destruct (radioTech cfg); apply (bool_decide_unpack _); vm_compute; exact I. }
    rewrite Forall_cons in Hc. destruct Hc as [Hc _]. destruct (sigConfigData cfg) as [|d l]; [type_members|].
    rewrite Forall_cons in Hc. destruct Hc as [[Hl Hh] _].
    unfold opt_member. repeat apply Forall_app_2; destruct (Z.testbit _ _); cbn [andb]; try apply Forall_nil_2;
      try destruct (Z.testbit _ _); type_members.
    + unfold delta, to_unsigned, in_i64. pose proof (Z.mod_pos_bound (hd 0 (thresholdList d)) (2 ^ 16)). lia.
    + apply conforms_array; [by rewrite length_fmap, Hl; lia|]. apply Forall_fmap, Forall_true. intros n.
      by apply conforms_int.
    + unfold in_i64. lia.
Qed.

Lemma phone_requests id (op : phone_op (C := C)) :
  slot_ok id -> phone_op_ok op -> request_typed (phone_request id op : string * string * json).
Proof.
  intros Hs Hop. unfold request_typed. destruct op as [cb|cb|b cb|cb|cb|m cb|cb|cb|cb|configs ms cb]; simpl;
    try (by apply config_requests); type_request; auto; try apply mode_known.
  destruct m; apply (bool_decide_unpack _); vm_compute; exact I.
Qed.

(** ** Answers *)

Ltac type_answer Ht :=
  first [ by eapply or_timeout_reaches, Ht
        | eapply data_reaches; [exact Ht|]; intros d s Hs Hd; vm_compute in Hs; injection Hs as <-; cbv beta ].

Lemma netsel_answers (op : netsel_op (C := C)) slot env :
  typed_env (snd (fst (netsel_request slot op : string * string * json))) env ->
  reaches_clients (netsel_clients op) (netsel_answer op (Some env)).
Proof.
  intros Ht. destruct op as [m c n cb|cb|cb]; simpl in *; type_answer Ht;
    unfold decode_mode_info, decode_mode; read_typed.
Qed.

Lemma tserv_answers (op : tserv_op (C := C)) slot env :
  typed_env (snd (fst (tserv_request slot op : string * string * json))) env ->
  reaches_clients (tserv_clients op) (tserv_answer op (Some env)).
Proof.
  intros Ht. destruct op as [p cb|cb|cb]; simpl in *; type_answer Ht;
    unfold decode_rat_prefs, decode_band_info; read_typed.
Qed.

Lemma phonemgr_answers (op : phonemgr_op (C := C)) env :
  typed_env (snd (fst (phonemgr_request op : string * string * json))) env ->
  reaches_clients (phonemgr_clients op) (phonemgr_answer op (Some env)).
Proof.
  intros Ht. destruct op as [cb|cb|m cb]; simpl in *; type_answer Ht;
    unfold decode_cellular, decode_op_mode; read_typed.
Qed.

Lemma phone_answers alive (op : phone_op (C := C)) id env :
  typed_env (snd (fst (phone_request id op : string * string * json))) env ->
  Forall (fun c => alive c = true) (phone_clients op).*1 ->
  reaches_clients (phone_clients op) (phone_answer alive op (Some env)).
Proof.
  intros Ht Ha. destruct op as [cb|cb|b cb|cb|cb|m cb|cb|cb|cb|configs ms cb]; simpl in *; try type_answer Ht;
    unfold decode_radio_tech, decode_cells, decode_ecall_mode, decode_plmn, decode_operator_name.
  - read_typed.
  - rewrite Forall_singleton in Ha. rewrite Ha. change [(cb, VoiceService None)] with (clients_of (VoiceService None) (Some cb)).
    type_answer Ht. unfold decode_voice, decode_radio_tech. read_typed.
  - read_typed.
  - by apply fmap_is_Some_2, signal_strength_reads.
  - read_typed.
  - apply fmap_is_Some_2. read_typed.
  - apply fmap_is_Some_2, bind_is_Some; [read_typed|intros [l s] _; read_typed].
Qed.

(** ** Indications *)

Section Steps.
Context {Op V Note X Ev : Type} `{!TelOps json C L Op V Note X Ev}.
Context (topic : string -> string) (paId : string) (now_at counter_at : nat -> Z).
Context (alive_at : nat -> L -> bool).
Local Notation step := (tel_step topic paId now_at counter_at alive_at (Note := Note) (X := X)).

Lemma readiness_steps ready env m :
  typed_env "radio.subsys_ready_phone.ind" env -> is_done (step ready (TelReadinessEvt_Signal env) m).
Proof.
  intros (_ & d & Hd & s & Hs & Hc). vm_compute in Hs. injection Hs as <-.
  unfold tel_step, tel_readable. rewrite Hd.
  assert (Hr : is_Some (value_string "status" "" d)) by read_typed. destruct Hr as [v ->].
  simpl. by eexists.
Qed.

Lemma other_steps ready x m :
  tel_asks x = None -> is_done (tel_indicates x (tel_own m)) -> is_done (step ready (TelOther x) m).
Proof.
  intros Hx [[o ns] Hi]. unfold tel_step. simpl. rewrite Hx. destruct ready; [|by eexists].
  unfold tel_indicate. rewrite Hi. by eexists.
Qed.
End Steps.

(** What is subscribed to, typed, is an event the manager survives in every state. *)
Definition survives {Op V Note X Ev} `{!TelOps json C L Op V Note X Ev} (id : string)
    (mk : Envelope json -> tel_event json C Ev) : Prop :=
  forall topic paId now_at counter_at alive_at ready env (m : TelManager json C L Op V Note X),
    typed_env id env -> is_done (tel_step topic paId now_at counter_at alive_at ready (mk env) m).

Lemma tserv_survives slot :
  Forall (fun '(id, mk) => survives (TelOps0 := tserv_ops (L := L) slot) id mk) tserv_subscriptions.
Proof.
  repeat constructor; intros topic paId now_at counter_at alive_at ready env m Ht;
    [by apply readiness_steps|..]; apply other_steps; try done; simpl; unfold with_data;
    destruct Ht as (_ & d & -> & s & Hs & Hc); vm_compute in Hs; injection Hs as <-;
    apply (or_die_is_done _ (fun i => _)); unfold decode_sys_info, decode_dc_status, decode_rat_prefs; read_typed.
Qed.

Lemma phonemgr_survives :
  Forall (fun '(id, mk) => survives (TelOps0 := phonemgr_ops (L := L)) id mk) phonemgr_subscriptions.
Proof.
  assert (Hb : forall A B D (o : outcome A) (f : A -> B) (g : B -> D),
    is_done (a ← o; Done (f a)) -> is_done (b ← (a ← o; Done (f a)); Done (g b))).
  { intros A B D [a|f'] f g; [by eexists|by intros [? ?]]. }
  repeat constructor; intros topic paId now_at counter_at alive_at ready env m Ht;
    [by apply readiness_steps|..]; apply other_steps; try done; simpl;
    destruct Ht as (_ & d & -> & s & Hs & Hc); vm_compute in Hs; injection Hs as <-;
    apply Hb, or_die_is_done; try (by apply signal_strength_reads);
    unfold decode_op_mode, decode_cells, decode_ecall_info; read_typed.
Qed.

Lemma netsel_survives slot :
  Forall (fun '(id, mk) => forall env, typed_env id env -> exists e, mk env = Some e /\
    forall topic paId now_at counter_at alive_at ready
        (m : TelManager json C L (netsel_op (C := C)) netsel_value Empty_set unit),
      is_done (tel_step (TelOps0 := netsel_ops slot) topic paId now_at counter_at alive_at ready e m))
    netsel_subscriptions.
Proof.
  repeat constructor. intros env Ht. pose proof Ht as (_ & d & Hd & s & Hs & Hc).
  vm_compute in Hs. injection Hs as <-. simpl. unfold handleReadinessInd_. rewrite Hd.
  assert (Hr : is_Some (value_string "status" "" d)) by read_typed. destruct Hr as [v ->].
  eexists. split; [reflexivity|]. intros. by apply readiness_steps.
Qed.
End Typing.

(** An operation whose request conforms and whose well-typed answer reaches its
    clients, each once and with SUCCESS. *)
Definition op_typed {json} `{Json json, JsonValues json} {C V} (r : string * string * json)
    (clients : list (C * V)) (answer : option (Envelope json) -> list (C * V * Z)) : Prop :=
  request_typed r /\ forall env, typed_env (snd (fst r)) env -> reaches_clients clients (answer (Some env)).

(** Every name of an enumeration is one the decoder knows: it is printed back. *)
Definition names_known {A} (names : list string) (of_wire : string -> A) (to_wire : A -> string) : Prop :=
  Forall (fun s => to_wire (of_wire s) = s) names.


