(* ===== verification/SimShell.v ===== *)
(** * The shell of the SIM managers (sim/)

    CardManager, SubscriptionManager and MultiSimManager share a third shell.  The
    leaves are roots.  Clients hand in init callbacks at any time, from any thread:
    a list under a mutex keeps them until the service first comes up, and later ones
    are called at once with the status of the moment.  Readiness is a flag that the
    chart sets on entry and clears on exit.  Listeners are told that the service is
    back, but not that it is up for the first time.  Entering Ready asks the modem
    for the state it does not announce again, and an operation that finds the
    service gone is dropped.  The multi-SIM manager has no readiness topic: it
    follows the bridge's connection.

    What a handler does is a list of commands, which [exec] carries out in order;
    [SimOps] is the class of what the three managers differ in. *)

From S2P Require Import Prelude Hsm HsmSpec ActiveObject Json Envelope InitGate Manager.

Local Open Scope Z_scope.

Inductive sim_state := SimNotReady_St | SimReady_St.

#[export] Instance sim_state_eq_dec : EqDecision sim_state.
Proof. solve_decision. Defined.

Section SimTypes.
(** Callbacks, listeners; per manager: requests, the values its callbacks get, what
    its listeners are told, its own members, its own events. *)
Context {json C L R V Note X Ev : Type}.

Inductive sim_event :=
  | SimReadinessEvt_Signal (env : Envelope json)
  | SimConnectivityChanged_Signal (operational : bool)
  | SimOther (e : Ev).

Inductive sim_notification :=
  | SimStatusChange (s : ServiceStatus)
  | SimNotify (n : Note).

(** [Hook b] calls the presence callback; [Post r e]: the answer of [r] posts [e]. *)
Inductive sim_cmd :=
  | Send (r : R)
  | Answer (cb : C) (value : V) (code : Z)
  | Init (cb : C) (s : ServiceStatus)
  | Tell (n : sim_notification)
  | Post (r : R) (e : Ev)
  | Hook (present : bool).

Inductive sim_effect :=
  | SimRequest (r : R) (topic schema : string) (env : Envelope json) (timeout : Z)
  | SimAnswer (cb : C) (value : V) (code : Z)
  | SimInit (cb : C) (s : ServiceStatus)
  | SimEnqueue (listeners : list L) (n : sim_notification)
  | SimPost (r : R) (e : Ev)
  | SimHook (present : bool).

Record SimManager := mkSim {
  sim_init_cbs_ : list C;
  sim_init_reported_ : bool;
  sim_ready_flag_ : bool;
  sim_last_status_ : ServiceStatus;
  sim_listeners_ : list L;
  sim_own : X;
  sim_looks : nat;
  sim_log : list sim_effect }.
End SimTypes.

Arguments sim_event : clear implicits.
Arguments sim_notification : clear implicits.
Arguments sim_cmd : clear implicits.
Arguments sim_effect : clear implicits.
Arguments SimManager : clear implicits.

Section SimMembers.
Context {json C L R V Note X Ev : Type}.
Local Notation SimManager := (SimManager json C L R V Note X Ev).
Implicit Types m : SimManager.

Definition sim_set_cbs l r m : SimManager :=
  mkSim l r (sim_ready_flag_ m) (sim_last_status_ m) (sim_listeners_ m) (sim_own m) (sim_looks m) (sim_log m).
Definition sim_set_flag b m : SimManager :=
  mkSim (sim_init_cbs_ m) (sim_init_reported_ m) b (sim_last_status_ m) (sim_listeners_ m) (sim_own m)
    (sim_looks m) (sim_log m).
Definition sim_publish s m : SimManager :=
  mkSim (sim_init_cbs_ m) (sim_init_reported_ m) (sim_ready_flag_ m) s (sim_listeners_ m) (sim_own m)
    (sim_looks m) (sim_log m).
Definition sim_set_listeners ls m : SimManager :=
  mkSim (sim_init_cbs_ m) (sim_init_reported_ m) (sim_ready_flag_ m) (sim_last_status_ m) ls (sim_own m)
    (sim_looks m) (sim_log m).
Definition sim_set_own x m : SimManager :=
  mkSim (sim_init_cbs_ m) (sim_init_reported_ m) (sim_ready_flag_ m) (sim_last_status_ m) (sim_listeners_ m) x
    (sim_looks m) (sim_log m).
Definition sim_look m : SimManager :=
  mkSim (sim_init_cbs_ m) (sim_init_reported_ m) (sim_ready_flag_ m) (sim_last_status_ m) (sim_listeners_ m)
    (sim_own m) (S (sim_looks m)) (sim_log m).
Definition sim_emit l m : SimManager :=
  mkSim (sim_init_cbs_ m) (sim_init_reported_ m) (sim_ready_flag_ m) (sim_last_status_ m) (sim_listeners_ m)
    (sim_own m) (sim_looks m) (sim_log m ++ l).

Definition new_sim (x : X) (initCb : option C) : SimManager :=
  mkSim (option_list initCb) false false SERVICE_UNAVAILABLE [] x 0 [].

Definition sim_requests_sent m : nat :=
  length (omap (fun e => match e with SimRequest r _ _ _ _ => Some r | _ => None end) (sim_log m)).
End SimMembers.

(** ** What the managers differ in *)

Class SimOps (json C L R V Note X Ev : Type) := {
  (** Readiness is the bridge's connection. *)
  sim_follows_link : bool;
  sim_request : R -> string * string * json;
  (** What entering Ready asks for. *)
  sim_resync : X -> X * list R;
  (** Operations; the other events are indications. *)
  sim_is_op : Ev -> bool;
  sim_serves : Ev -> X -> outcome (X * list (sim_cmd C R V Note Ev));
  (** What the bridge's thread does with an answer. *)
  sim_answers : R -> option (Envelope json) -> X -> X * list (sim_cmd C R V Note Ev) }.

Arguments sim_follows_link {json C L R V Note X Ev} _.
Arguments sim_request {json C L R V Note X Ev _}.
Arguments sim_resync {json C L R V Note X Ev _}.
Arguments sim_is_op {json C L R V Note X Ev _}.
Arguments sim_serves {json C L R V Note X Ev _}.
Arguments sim_answers {json C L R V Note X Ev _}.

(** The commands that call an operation's client, and the requests sent. *)
Definition answer_of {C R V Note Ev} (c : sim_cmd C R V Note Ev) : option C :=
  match c with Answer cb _ _ => Some cb | _ => None end.
Definition send_of {C R V Note Ev} (c : sim_cmd C R V Note Ev) : option R :=
  match c with Send r => Some r | _ => None end.
Definition init_of {C R V Note Ev} (c : sim_cmd C R V Note Ev) : option (C * ServiceStatus) :=
  match c with Init c s => Some (c, s) | _ => None end.

(** Who is to be answered, and when: an operation's client either at once or by the
    answer to a request made for it, which a timeout always is.  Init callbacks are
    the shell's. *)
Class SimSpec (json C L R V Note X Ev : Type) `{SimOps json C L R V Note X Ev} := {
  sim_event_clients : Ev -> list C;
  sim_request_clients : R -> list C;
  sim_answered : R -> option (Envelope json) -> list C;
  sim_serve_quiet e x x' cs : sim_serves e x = Done (x', cs) -> omap init_of cs = [];
  sim_answer_quiet r rsp x : omap init_of (sim_answers r rsp x).2 = [];
  sim_serve_law e x x' cs : sim_serves e x = Done (x', cs) ->
    omap answer_of cs ++ (omap send_of cs ≫= sim_request_clients) = sim_event_clients e;
  sim_resync_law x : (sim_resync x).2 ≫= sim_request_clients = [];
  sim_answer_law r rsp x :
    omap answer_of (sim_answers r rsp x).2 = sim_answered r rsp /\ omap send_of (sim_answers r rsp x).2 = [];
  sim_answered_law r rsp : exists n, sim_answered r rsp = take n (sim_request_clients r);
  sim_timeout_law r : sim_answered r None = sim_request_clients r }.

Arguments sim_event_clients {json C L R V Note X Ev _ _}.
Arguments sim_request_clients {json C L R V Note X Ev _ _}.
Arguments sim_answered {json C L R V Note X Ev _ _}.

(** ** The chart *)

Section SimShell.
Context {json : Type} `{Json json, JsonValues json}.
Context {C L R V Note X Ev : Type} `{EqDecision L} `{ops : !SimOps json C L R V Note X Ev}.
Context (topic : string -> string) (paId : string) (now_at counter_at : nat -> Z).
Context (alive_at : nat -> L -> bool).

Local Notation SimManager := (SimManager json C L R V Note X Ev).
Local Notation sim_event := (sim_event json Ev).
Local Notation sim_cmd := (sim_cmd C R V Note Ev).

Definition sim_outbox (m : SimManager) : list (post sim_event) := [].
Definition sim_flush (m : SimManager) : SimManager := m.

Definition sim_broadcast (n : sim_notification Note) (m : SimManager) : SimManager :=
  let ls := locked (alive_at (sim_looks m)) (sim_listeners_ m) in
  if decide (ls = []) then sim_look m else sim_emit [SimEnqueue ls n] (sim_look m).

Definition sim_registerListener (l : L) (m : SimManager) : Status * SimManager :=
  (SUCCESS_, sim_set_listeners (sim_listeners_ m ++ [l]) m).
Definition sim_removeListener (l : L) (m : SimManager) : Status * SimManager :=
  (SUCCESS_, sim_look (sim_set_listeners (reap (alive_at (sim_looks m)) l (sim_listeners_ m)) m)).

Definition sim_send (r : R) (m : SimManager) : SimManager :=
  let n := sim_requests_sent m in
  let '(req, schema, payload) := sim_request r in
  let env := fst (makeRequestEnvelope (now_at n) (counter_at n) paId payload) in
  sim_emit [SimRequest r (topic req) schema env kRpcTimeout] m.

Definition exec1 (m : SimManager) (c : sim_cmd) : SimManager :=
  match c with
  | Send r => sim_send r m
  | Answer cb v code => sim_emit [SimAnswer cb v code] m
  | Init cb s => sim_emit [SimInit cb s] m
  | Tell n => sim_broadcast n m
  | Post r e => sim_emit [SimPost r e] m
  | Hook b => sim_emit [SimHook b] m
  end.
Definition exec (cs : list sim_cmd) (m : SimManager) : SimManager := foldl exec1 m cs.

(** Swap the list out and call each; no callback waits any more. *)
Definition fireInitCallbacks_ (s : ServiceStatus) (m : SimManager) : SimManager :=
  exec ((fun c => Init c s) <$> sim_init_cbs_ m) (sim_set_cbs [] true m).

Definition addInitCallback (cb : option C) (m : SimManager) : SimManager :=
  match cb with
  | None => m
  | Some c =>
      if sim_init_reported_ m then exec [Init c (sim_last_status_ m)] m
      else sim_set_cbs (sim_init_cbs_ m ++ [c]) false m
  end.

Definition sim_entry (m : SimManager) : SimManager :=
  let m := sim_publish SERVICE_AVAILABLE (sim_set_flag true m) in
  let first_report := negb (sim_init_reported_ m) in
  let m := fireInitCallbacks_ SERVICE_AVAILABLE m in
  let m := if first_report then m else exec [Tell (SimStatusChange SERVICE_AVAILABLE)] m in
  let '(x, rs) := sim_resync (sim_own m) in
  exec (Send <$> rs) (sim_set_own x m).

Definition sim_exit (m : SimManager) : SimManager :=
  exec [Tell (SimStatusChange SERVICE_UNAVAILABLE)] (sim_set_flag false m).

Definition sim_serve (e : Ev) (m : SimManager) : outcome SimManager :=
  '(x, cs) ← sim_serves e (sim_own m); Done (exec cs (sim_set_own x m)).

Definition sim_reply (r : R) (rsp : option (Envelope json)) (m : SimManager) : SimManager :=
  let '(x, cs) := sim_answers r rsp (sim_own m) in exec cs (sim_set_own x m).

Definition sim_result : Type := outcome (verdict sim_state * SimManager).
Definition sim_handled (m : SimManager) : sim_result := Done (Handled, m).
Definition sim_goto (t : sim_state) (m : SimManager) : sim_result := Done (To (st t), m).
Definition sim_super (m : SimManager) : sim_result := Done (Super top, m).

Definition sim_NotReady (e : Event sim_event) (m : SimManager) : sim_result :=
  match e with
  | Entry_Signal | Exit_Signal => sim_handled m
  | User (SimReadinessEvt_Signal env) =>
      if sim_follows_link ops then sim_super m else
      match data env with
      | None => sim_handled m
      | Some d =>
          s ← or_die (value_string "status" "" d);
          if decide (s = "AVAILABLE") then sim_goto SimReady_St m else sim_handled m
      end
  | User (SimConnectivityChanged_Signal operational) =>
      if sim_follows_link ops && operational then sim_goto SimReady_St m else sim_handled m
  | User (SimOther e) => if sim_is_op e then sim_handled m else sim_super m
  | _ => sim_super m
  end.

Definition sim_Ready (e : Event sim_event) (m : SimManager) : sim_result :=
  match e with
  | Entry_Signal => sim_handled (sim_entry m)
  | Exit_Signal => sim_handled (sim_exit m)
  | User (SimReadinessEvt_Signal env) =>
      if sim_follows_link ops then sim_super m else
      match data env with
      | None => sim_handled m
      | Some d =>
          s ← or_die (value_string "status" "" d);
          if decide (s = "UNAVAILABLE") then sim_goto SimNotReady_St (sim_publish SERVICE_UNAVAILABLE m)
          else if decide (s = "FAILED") then sim_goto SimNotReady_St (sim_publish SERVICE_FAILED m)
          else sim_handled m
      end
  | User (SimConnectivityChanged_Signal operational) =>
      if negb operational then sim_goto SimNotReady_St (sim_publish SERVICE_UNAVAILABLE m) else sim_handled m
  | User (SimOther e) => m ← sim_serve e m; sim_handled m
  | _ => sim_super m
  end.

Definition sim_handler (x : sim_state) : Event sim_event -> SimManager -> sim_result :=
  match x with SimNotReady_St => sim_NotReady | SimReady_St => sim_Ready end.

Definition sim_parent (x : sim_state) : option sim_state := None.
Definition sim_lineage (x : sim_state) : list sim_state := [x].
Definition sim_swallow (x : sim_state) : bool := false.

#[global] Instance wf_sim : wf_chart sim_handler sim_parent sim_lineage sim_swallow.
Proof.
  constructor.
  - by intros [].
  - intros []; unfold sim_lineage, kMaxNest; simpl; lia.
  - by intros [].
  - by intros [].
  - by intros [] ?.
  - intros [] b v b'; simpl; intros [= <- _]; auto.
  - intros [] e m v m'; destruct e as [env|b|e]; simpl.
    + destruct (sim_follows_link ops); [by intros [= <- _]|].
      destruct (data env) as [d|]; [|by intros [= <- _]].
      destruct (value_string _ _ _); simpl; [|done]. case_decide; intros [= <- _]; simpl; eauto.
    + destruct (_ && _); intros [= <- _]; simpl; eauto.
    + destruct (sim_is_op e); by intros [= <- _].
    + destruct (sim_follows_link ops); [by intros [= <- _]|].
      destruct (data env) as [d|]; [|by intros [= <- _]].
      destruct (value_string _ _ _); simpl; [|done]. repeat case_decide; intros [= <- _]; simpl; eauto.
    + destruct b; intros [= <- _]; simpl; eauto.
    + intros (m1 & _ & [= <- _])%bind_done'. done.
  - intros [] b t b'; simpl; by intros [=].
Qed.

(** ** The public interface *)

Definition AOSim : Type := AO sim_state sim_event SimManager.

Definition isSubsystemReady (m : SimManager) : bool := sim_ready_flag_ m.
(** A future that is ready already. *)
Definition onSubsystemReady (m : SimManager) : future bool := Ready (sim_ready_flag_ m).
Definition sim_getServiceStatus (m : SimManager) : ServiceStatus := sim_last_status_ m.

Definition sim_post_if_ready (e : Ev) (c : AOSim) : Status * AOSim :=
  if sim_ready_flag_ (self (hsm c)) then (SUCCESS_, post_fifo (SimOther e) c) else (NOTREADY, c).

Definition sim_start (ndebug : bool) (c : AOSim) : outcome AOSim :=
  if running_ c then Done c else start_at sim_handler ndebug true (st SimNotReady_St) c.
End SimShell.
