(* ===== verification/Card.v ===== *)
(** * Cards and the card manager (sim/SimCard, sim/CardManager)

    The card and its USIM application as values, the card manager as an instance of
    the SIM managers' shell: what the modem says of the card is kept, the presence
    callback is called when [getCard] turns from null to a card or back, and power
    requests go to the modem. *)

From S2P Require Import Prelude Hsm HsmSpec ActiveObject Json Envelope InitGate Manager Answers SimShell.

Local Open Scope Z_scope.

(** ** Values *)

Inductive CardState := CARDSTATE_UNKNOWN | CARDSTATE_ABSENT | CARDSTATE_PRESENT | CARDSTATE_ERROR | CARDSTATE_RESTRICTED.
#[export] Instance CardState_eq_dec : EqDecision CardState.
Proof. solve_decision. Defined.

(** Of [AppState], what the wire names. *)
Inductive AppState := APPSTATE_UNKNOWN | APPSTATE_READY | APPSTATE_ILLEGAL.
#[export] Instance AppState_eq_dec : EqDecision AppState.
Proof. solve_decision. Defined.

Definition DEFAULT_SLOT_ID : Z := 1.

Definition wireToCardState (s : string) : CardState :=
  if decide (s = "ABSENT") then CARDSTATE_ABSENT
  else if decide (s = "PRESENT") then CARDSTATE_PRESENT
  else if decide (s = "ERROR") then CARDSTATE_ERROR
  else if decide (s = "RESTRICTED") then CARDSTATE_RESTRICTED
  else CARDSTATE_UNKNOWN.

Definition cardStateToWire (s : CardState) : string :=
  match s with
  | CARDSTATE_ABSENT => "ABSENT"
  | CARDSTATE_PRESENT => "PRESENT"
  | CARDSTATE_ERROR => "ERROR"
  | CARDSTATE_RESTRICTED => "RESTRICTED"
  | CARDSTATE_UNKNOWN => "UNKNOWN"
  end.

Definition wireToAppState (s : string) : AppState :=
  if decide (s = "READY") then APPSTATE_READY
  else if decide (s = "ILLEGAL") then APPSTATE_ILLEGAL
  else APPSTATE_UNKNOWN.

Definition appStateToWire (s : AppState) : string :=
  match s with
  | APPSTATE_READY => "READY"
  | APPSTATE_ILLEGAL => "ILLEGAL"
  | APPSTATE_UNKNOWN => "UNKNOWN"
  end.

#[export] Instance card_wire : WireEnum CardState := {| to_wire := cardStateToWire; of_wire := wireToCardState |}.
#[export] Instance card_wire_spec : WireEnumSpec CardState (fun _ => True).
Proof. split. by intros [] _. Qed.
#[export] Instance app_wire : WireEnum AppState := {| to_wire := appStateToWire; of_wire := wireToAppState |}.
#[export] Instance app_wire_spec : WireEnumSpec AppState (fun _ => True).
Proof. split. by intros [] _. Qed.

(** ** The card and its application *)

Record SimulaCardApp := mkCardApp { appState_ : AppState }.

Definition getAppState (a : SimulaCardApp) : AppState := appState_ a.
Definition setAppState (s : AppState) (a : SimulaCardApp) : SimulaCardApp := mkCardApp s.
Definition getAppId (a : SimulaCardApp) : string := "".

Record SimulaCard := mkCard { card_slotId_ : Z; cardState_ : CardState; usimApp_ : SimulaCardApp }.

Definition new_card (slotId : Z) (s : CardState) (a : AppState) : SimulaCard := mkCard slotId s (mkCardApp a).
Definition getState (c : SimulaCard) : Status * CardState := (SUCCESS_, cardState_ c).
Definition card_getSlotId (c : SimulaCard) : Z := card_slotId_ c.
(** No application unless the card is present and usable. *)
Definition getApplications (c : SimulaCard) : Status * list SimulaCardApp :=
  (SUCCESS_, if decide (cardState_ c <> CARDSTATE_PRESENT) then [] else [usimApp_ c]).
Definition setState (s : CardState) (c : SimulaCard) : SimulaCard := mkCard (card_slotId_ c) s (usimApp_ c).
Definition isNtnProfileActive (c : SimulaCard) : bool := false.

(** Locks, channels, files and refreshes are not simulated; neither are the other
    calls of these interfaces that return a status. *)
Definition changeCardPassword : Status := NOTSUPPORTED.
Definition openLogicalChannel : Status := NOTSUPPORTED.
Definition setupRefreshConfig : Status := NOTSUPPORTED.

(** The card and the presence last told; [presence_cb_]: a callback was set. *)
Record CardMembers := mkCardMembers { card_ : SimulaCard; last_present_ : bool; presence_cb_ : bool }.

Definition state_present (s : CardState) : bool :=
  bool_decide (s <> CARDSTATE_ABSENT /\ s <> CARDSTATE_UNKNOWN).
Definition cardIsPresent_ (x : CardMembers) : bool := state_present (cardState_ (card_ x)).
Definition setPresenceChangedCb (set : bool) (x : CardMembers) : CardMembers :=
  mkCardMembers (card_ x) (last_present_ x) set.

Section CardManager.
Context {json : Type} `{Json json, JsonValues json}.
Context {C L : Type} `{EqDecision L} (slotId_ : Z).

(** ** Operations, indications, requests *)

Inductive card_event :=
  | CardStateEvt_Signal (env : Envelope json)
  | CardPowerUp_Signal (cb : option C)
  | CardPowerDown_Signal (cb : option C).

Inductive card_request := GetState | SetPower (powerOn : bool) (cb : option C).

Inductive card_note := onCardInfoChanged (slot : Z).

Local Notation cmd := (sim_cmd C card_request unit card_note card_event).

Definition card_wire_request (r : card_request) : string * string * json :=
  match r with
  | GetState => ("sim.get_state.req", "sim.get_state.rsp", jobj [("slot", of_int slotId_)])
  | SetPower powerOn _ =>
      ("sim.set_power.req", "sim.set_power.rsp", jobj [("slot", of_int slotId_); ("powerOn", of_bool powerOn)])
  end.

(** A failed resynchronisation leaves the card as it is. *)
Definition card_answer (r : card_request) (rsp : option (Envelope json)) (x : CardMembers) :
    CardMembers * list cmd :=
  (x, match r with
      | GetState =>
          match rsp with
          | Some env =>
              match error env, data env with
              | None, Some _ => [Post r (CardStateEvt_Signal env)]
              | _, _ => []
              end
          | None => []
          end
      | SetPower _ cb => (fun '(c, v, code) => Answer c v code) <$> completeOrTimeout tt cb rsp
      end).

Definition notifyIfPresenceChanged_ (x : CardMembers) : CardMembers * list cmd :=
  let now := cardIsPresent_ x in
  if decide (now = last_present_ x) then (x, [])
  else (mkCardMembers (card_ x) now (presence_cb_ x), if presence_cb_ x then [Hook now] else []).

Definition decode_card (d : json) : option (CardState * AppState) :=
  c ← value_string "cardState" "" d;
  a ← value_string "appState" "" d;
  Some (wireToCardState c, wireToAppState a).

Definition card_serves (e : card_event) (x : CardMembers) : outcome (CardMembers * list cmd) :=
  match e with
  | CardStateEvt_Signal env =>
      match data env with
      | None => Done (x, [])
      | Some d =>
          '(c, a) ← or_die (decode_card d);
          let card := setState c (card_ x) in
          let card := mkCard (card_slotId_ card) (cardState_ card) (setAppState a (usimApp_ card)) in
          let '(x, cs) := notifyIfPresenceChanged_ (mkCardMembers card (last_present_ x) (presence_cb_ x)) in
          Done (x, cs ++ [Tell (SimNotify (onCardInfoChanged slotId_))])
      end
  | CardPowerUp_Signal cb => Done (x, [Send (SetPower true cb)])
  | CardPowerDown_Signal cb => Done (x, [Send (SetPower false cb)])
  end.

#[local] Instance card_ops : SimOps json C L card_request unit card_note CardMembers card_event := {|
  sim_follows_link := false;
  sim_request := card_wire_request;
  sim_resync x := (x, [GetState]);
  sim_is_op e := match e with CardStateEvt_Signal _ => false | _ => true end;
  sim_serves := card_serves;
  sim_answers := card_answer |}.

Definition card_event_clients (e : card_event) : list C :=
  match e with
  | CardStateEvt_Signal _ => []
  | CardPowerUp_Signal cb | CardPowerDown_Signal cb => option_list cb
  end.
Definition card_request_clients (r : card_request) : list C :=
  match r with GetState => [] | SetPower _ cb => option_list cb end.

#[refine, local] Instance card_spec : SimSpec json C L card_request unit card_note CardMembers card_event := {|
  sim_event_clients := card_event_clients;
  sim_request_clients := card_request_clients;
  sim_answered r rsp := card_request_clients r |}.
Proof.
  - intros [env|cb|cb] x x' cs; simpl; try by intros [= _ <-].
    destruct (data env) as [d|]; [|by intros [= _ <-]].
    intros ([c a] & _ & Hs)%bind_done'. unfold notifyIfPresenceChanged_ in Hs.
    destruct (decide _); [by injection Hs as _ <-|]. cbn [presence_cb_] in Hs.
    destruct (presence_cb_ x); by injection Hs as _ <-.
  - intros [|b [c|]] rsp x; simpl; try done. destruct rsp as [env|]; [|done].
    by destruct (error env), (data env).
  - intros [env|cb|cb] x x' cs; simpl; try (intros [= _ <-]; simpl; by rewrite app_nil_r).
    destruct (data env) as [d|]; [|by intros [= _ <-]].
    intros ([c a] & _ & Hs)%bind_done'. unfold notifyIfPresenceChanged_ in Hs.
    destruct (decide _); [by injection Hs as _ <-|]. cbn [presence_cb_] in Hs.
    destruct (presence_cb_ x); by injection Hs as _ <-.
  - done.
  - intros [|b cb] rsp x; simpl.
    + destruct rsp as [env|]; [|done]. by destruct (error env), (data env).
    + by destruct cb.
  - intros r rsp. exists (length (card_request_clients r)). by rewrite take_ge.
  - done.
Defined.

Local Notation CardManager := (SimManager json C L card_request unit card_note CardMembers card_event).
Local Notation AOCard := (AOSim (json := json) (C := C) (L := L) (R := card_request) (V := unit)
  (Note := card_note) (X := CardMembers) (Ev := card_event)).

Definition card_members : CardMembers :=
  mkCardMembers (new_card slotId_ CARDSTATE_ABSENT APPSTATE_UNKNOWN) false false.
Definition SimulaCardManager (initCb : option C) : CardManager := new_sim card_members initCb.

(** ** The public interface *)

Definition slot_known (slotId : Z) : bool := bool_decide (slotId = slotId_ \/ slotId = DEFAULT_SLOT_ID).

Definition getSlotCount (m : CardManager) : Status * option Z :=
  if sim_ready_flag_ m then (SUCCESS_, Some 1) else (NOTREADY, None).
Definition getSlotIds (m : CardManager) : Status * option (list Z) :=
  if sim_ready_flag_ m then (SUCCESS_, Some [slotId_]) else (NOTREADY, None).

(** Null is [None]: an absent or unknown card is no card. *)
Definition getCard (slotId : Z) (m : CardManager) : Status * option SimulaCard :=
  if negb (sim_ready_flag_ m) then (NOTREADY, None)
  else if negb (slot_known slotId) then (NOSUCH, None)
  else (SUCCESS_, if cardIsPresent_ (sim_own m) then Some (card_ (sim_own m)) else None).

Definition cardPower (slotId : Z) (e : card_event) (c : AOCard) : Status * AOCard :=
  if negb (sim_ready_flag_ (self (hsm c))) then (NOTREADY, c)
  else if negb (slot_known slotId) then (NOSUCH, c)
  else (SUCCESS_, post_fifo (SimOther e) c).
Definition cardPowerUp (slotId : Z) (cb : option C) : AOCard -> Status * AOCard :=
  cardPower slotId (CardPowerUp_Signal cb).
Definition cardPowerDown (slotId : Z) (cb : option C) : AOCard -> Status * AOCard :=
  cardPower slotId (CardPowerDown_Signal cb).

Section States.
Context (topic : string -> string) (paId : string) (now_at counter_at : nat -> Z).
Context (alive_at : nat -> L -> bool).
Local Notation state_fn := (Event (sim_event json card_event) -> CardManager -> sim_result).

Definition CardNotReady_St : state_fn := sim_NotReady.
Definition CardReady_St : state_fn := sim_Ready topic paId now_at counter_at alive_at.
End States.

Definition card_subscriptions : list (string * (Envelope json -> sim_event json card_event)) :=
  [("sim.subsys_ready_card.ind", SimReadinessEvt_Signal);
   ("sim.card_state.ind", fun env => SimOther (CardStateEvt_Signal env))].
End CardManager.

Arguments card_event : clear implicits.
Arguments card_request : clear implicits.
