(* ===== verification/Subscription.v ===== *)
(** * Subscriptions (sim/Subscription, sim/SubscriptionManager)

    The subscription manager asks for the card's identifier and the subscriber's
    with two requests; their answers, in either order, meet in a shared accumulator
    and the second posts the event that updates the subscription.  The accumulators
    are kept by the number of the resynchronisation that made them, because the two
    answers of one share it while a later one has its own. *)

From S2P Require Import Prelude Hsm HsmSpec ActiveObject Json Envelope InitGate Manager SimShell Card.

Local Open Scope Z_scope.

(** ** The subscription *)

Record SimulaSubscription := mkSubscription { sub_slotId_ : Z; iccid_ : string; imsi_ : string }.

Definition getIccId (s : SimulaSubscription) : string := iccid_ s.
Definition getImsi (s : SimulaSubscription) : string := imsi_ s.
Definition sub_getSlotId (s : SimulaSubscription) : Z := sub_slotId_ s.
Definition setIds (iccid imsi : string) (s : SimulaSubscription) : SimulaSubscription :=
  mkSubscription (sub_slotId_ s) iccid imsi.
(** What the simulation does not know of a subscription. *)
Definition getCarrierName (s : SimulaSubscription) : string := "".
Definition sub_getMcc (s : SimulaSubscription) : Z := 0.
Definition sub_getMnc (s : SimulaSubscription) : Z := 0.
Definition getMobileCountryCode (s : SimulaSubscription) : string := "".
Definition getMobileNetworkCode (s : SimulaSubscription) : string := "".
Definition getPhoneNumber (s : SimulaSubscription) : string := "".
Definition getGID1 (s : SimulaSubscription) : string := "".
Definition getGID2 (s : SimulaSubscription) : string := "".

(** ** The manager *)

(** [Accum]: what is known of each identifier. *)
Record Accum := mkAccum { acc_iccid : option string; acc_imsi : option string }.
Definition new_accum : Accum := mkAccum None None.

Record SubMembers := mkSubMembers { subscription_ : SimulaSubscription; accums : list Accum }.

(** The requests of a resynchronisation, by its number. *)
Inductive sub_request := GetIccid (n : nat) | GetImsi (n : nat).

#[export] Instance sub_request_eq_dec : EqDecision sub_request.
Proof. solve_decision. Defined.

(** Told of the one subscription there is, by pointer: a listener reads it when
    it is called. *)
Inductive sub_note := onSubscriptionInfoChanged.

Section SubscriptionManager.
Context {json : Type} `{Json json, JsonValues json}.
Context {C L : Type} `{EqDecision L} (slotId_ : Z).

Inductive sub_event := SubInfoChangedEvt_Signal (env : Envelope json).

Local Notation cmd := (sim_cmd C sub_request Empty_set sub_note sub_event).

Definition sub_wire_request (r : sub_request) : string * string * json :=
  match r with
  | GetIccid _ => ("sim.get_iccid.req", "sim.get_iccid.rsp", jobj [("slot", of_int slotId_)])
  | GetImsi _ => ("sim.get_imsi.req", "sim.get_imsi.rsp", jobj [("slot", of_int slotId_)])
  end.

Definition resyncSubInfo_ (x : SubMembers) : SubMembers * list sub_request :=
  let n := length (accums x) in
  (mkSubMembers (subscription_ x) (accums x ++ [new_accum]), [GetIccid n; GetImsi n]).

(** A failed request counts as the empty string. *)
Definition id_of (key : string) (rsp : option (Envelope json)) : option string :=
  match rsp with
  | Some env =>
      match error env, data env with
      | None, Some d => value_string key "" d
      | _, _ => Some ""
      end
  | None => Some ""
  end.

Definition ids_event (iccid imsi : string) : sub_event :=
  SubInfoChangedEvt_Signal 
    (mkEnvelope 1 "" 0 "" None (Some (jobj [("iccid", of_string iccid); ("imsi", of_string imsi)])) None).

(** [complete]: once both are there. *)
Definition complete (r : sub_request) (a : Accum) : list cmd :=
  match acc_iccid a, acc_imsi a with
  | Some iccid, Some imsi => [Post r (ids_event iccid imsi)]
  | _, _ => []
  end.

(** What throws leaves the accumulator as it is, and [complete] is not called. *)
Definition sub_answer (r : sub_request) (rsp : option (Envelope json)) (x : SubMembers) :
    SubMembers * list cmd :=
  let '(n, key) := match r with GetIccid n => (n, "iccid") | GetImsi n => (n, "imsi") end in
  match id_of key rsp, accums x !! n with
  | Some s, Some a =>
      let a := match r with
               | GetIccid _ => mkAccum (Some s) (acc_imsi a)
               | GetImsi _ => mkAccum (acc_iccid a) (Some s)
               end in
      (mkSubMembers (subscription_ x) (<[n := a]> (accums x)), complete r a)
  | _, _ => (x, [])
  end.

Definition decode_ids (d : json) : option (string * string) :=
  i ← value_string "iccid" "" d;
  s ← value_string "imsi" "" d;
  Some (i, s).

Definition sub_serves (e : sub_event) (x : SubMembers) : outcome (SubMembers * list cmd) :=
  let '(SubInfoChangedEvt_Signal env) := e in
  match data env with
  | None => Done (x, [])
  | Some d =>
      '(i, s) ← or_die (decode_ids d);
      Done (mkSubMembers (setIds i s (subscription_ x)) (accums x), [Tell (SimNotify onSubscriptionInfoChanged)])
  end.

#[local] Instance sub_ops : SimOps json C L sub_request Empty_set sub_note SubMembers sub_event := {|
  sim_follows_link := false;
  sim_request := sub_wire_request;
  sim_resync := resyncSubInfo_;
  sim_is_op _ := false;
  sim_serves := sub_serves;
  sim_answers := sub_answer |}.

(** It has no operations. *)
#[refine, local] Instance sub_spec : SimSpec json C L sub_request Empty_set sub_note SubMembers sub_event := {|
  sim_event_clients _ := [];
  sim_request_clients _ := [];
  sim_answered _ _ := [] |}.
Proof.
  - intros [env] x x' cs. simpl. destruct (data env) as [d|]; [|by intros [= _ <-]].
    by intros ([i s] & _ & [= _ <-])%bind_done'.
  - intros [n|n] rsp x; cbn -[id_of]; (destruct (id_of _ rsp) as [s|]; [|done]);
      (destruct (accums x !! n) as [[[i|] [j|]]|]; done).
  - intros [env] x x' cs. simpl. destruct (data env) as [d|]; [|by intros [= _ <-]].
    by intros ([i s] & _ & [= _ <-])%bind_done'.
  - done.
  - assert (Hc : forall r a, omap answer_of (complete r a) = [] /\ omap send_of (complete r a) = []).
    { intros r [[i|] [s|]]; done. }
    intros [n|n] rsp x; cbn -[complete id_of]; (destruct (id_of _ rsp) as [s|]; [|done]);
      (destruct (accums x !! n) as [a|]; [|done]); apply Hc.
  - intros r rsp. by exists 0%nat.
  - done.
Defined.

Local Notation SubManager := (SimManager json C L sub_request Empty_set sub_note SubMembers sub_event).

Definition sub_members : SubMembers := mkSubMembers (mkSubscription slotId_ "" "") [].
Definition SimulaSubscriptionManager (initCb : option C) : SubManager := new_sim sub_members initCb.

Definition getSubscription (slotId : Z) (m : SubManager) : Status * option SimulaSubscription :=
  if negb (sim_ready_flag_ m) then (NOTREADY, None)
  else if negb (slot_known slotId_ slotId) then (NOSUCH, None)
  else (SUCCESS_, Some (subscription_ (sim_own m))).
Definition getAllSubscriptions (m : SubManager) : Status * list SimulaSubscription :=
  if sim_ready_flag_ m then (SUCCESS_, [subscription_ (sim_own m)]) else (NOTREADY, []).

Section States.
Context (topic : string -> string) (paId : string) (now_at counter_at : nat -> Z).
Context (alive_at : nat -> L -> bool).
Local Notation state_fn := (Event (sim_event json sub_event) -> SubManager -> sim_result).

Definition SubNotReady_St : state_fn := sim_NotReady.
Definition SubReady_St : state_fn := sim_Ready topic paId now_at counter_at alive_at.
End States.

Definition sub_subscriptions : list (string * (Envelope json -> sim_event json sub_event)) :=
  [("sim.subsys_ready_sub.ind", SimReadinessEvt_Signal);
   ("sim.sub_info_changed.ind", fun env => SimOther (SubInfoChangedEvt_Signal env))].
End SubscriptionManager.

Arguments sub_event : clear implicits.
