(* ===== verification/MultiSim.v ===== *)
(** * The multi-SIM manager (sim/MultiSimManager)

    One slot, the active one.  Its readiness is the bridge's connection.  Slot
    status is read from the modem on demand and announced when the card manager's
    presence callback says that the card came or went. *)

From S2P Require Import Prelude Hsm HsmSpec ActiveObject Json Envelope InitGate Manager SimShell Card.

Local Open Scope Z_scope.

(** Members of [telux::common::ErrorCode] that are not in the wire table. *)
Definition SIM_ERR : Z := 43.
Definition NO_EFFECT : Z := 101.

Inductive SlotState := SLOT_UNKNOWN | SLOT_INACTIVE | SLOT_ACTIVE.
(** Of [CardError], the only one reported. *)
Inductive CardError := CARDERROR_UNKNOWN.

Record SlotStatus := mkSlotStatus { slotState : SlotState; cardState : CardState; cardError : CardError }.

(** The single simulated slot is active whatever card it holds. *)
Definition active_with (s : CardState) : SlotStatus := mkSlotStatus SLOT_ACTIVE s CARDERROR_UNKNOWN.

Section MultiSimManager.
Context {json : Type} `{Json json, JsonValues json}.
Context {C L : Type} `{EqDecision L} (slotId_ : Z).

Inductive multi_event :=
  | RequestSlotStatus_Signal (cb : option C)
  | RequestHighCapability_Signal (cb : option C)
  | SetHighCapability_Signal (slotId : Z) (cb : option C)
  | SwitchActiveSlot_Signal (slotId : Z) (cb : option C).

(** With the slot that was active when it was sent. *)
Inductive multi_request := GetSlotState (slot : Z) (cb : option C).

(** A map from the slot to its status; a slot; nothing but the code. *)
Inductive multi_value := SlotStatuses (l : list (Z * SlotStatus)) | HighSlot (slot : Z) | NoMultiValue.

Inductive multi_note :=
  | onSlotStatusChanged (l : list (Z * SlotStatus))
  | onHighCapabilityChanged (slot : Z).

(** [active_slot_] is set by the constructor and never again. *)
Record MultiMembers := mkMultiMembers { active_slot_ : Z }.

Local Notation cmd := (sim_cmd C multi_request multi_value multi_note multi_event).

Definition multi_wire_request (r : multi_request) : string * string * json :=
  ("sim.get_state.req", "sim.get_state.rsp", jobj [("slot", of_int slotId_)]).

(** The answer of a slot-status request: a failure is an unknown card, and success. *)
Definition slot_answer (cb : option C) (slot : Z) (rsp : option (Envelope json)) : list (C * multi_value * Z) :=
  match cb with
  | None => []
  | Some c =>
      let told s := [(c, SlotStatuses [(slot, active_with s)], SUCCESS)] in
      match rsp with
      | Some env =>
          match error env, data env with
          | None, Some d =>
              match value_string "cardState" "" d with Some s => told (wireToCardState s) | None => [] end
          | _, _ => told CARDSTATE_UNKNOWN
          end
      | None => told CARDSTATE_UNKNOWN
      end
  end.

Definition multi_answer (r : multi_request) (rsp : option (Envelope json)) (x : MultiMembers) :
    MultiMembers * list cmd :=
  let '(GetSlotState slot cb) := r in
  (x, (fun '(c, v, code) => Answer c v code) <$> slot_answer cb slot rsp).

Definition call (cb : option C) (v : multi_value) (code : Z) : list cmd :=
  (fun c => Answer c v code) <$> option_list cb.

Definition multi_serves (e : multi_event) (x : MultiMembers) : outcome (MultiMembers * list cmd) :=
  match e with
  | RequestSlotStatus_Signal cb => Done (x, [Send (GetSlotState (active_slot_ x) cb)])
  | RequestHighCapability_Signal cb => Done (x, call cb (HighSlot (active_slot_ x)) SUCCESS)
  | SetHighCapability_Signal _ cb => Done (x, call cb NoMultiValue SUCCESS)
  | SwitchActiveSlot_Signal slotId cb =>
      let cur := active_slot_ x in
      let code := if decide (slotId = cur) then NO_EFFECT else SIM_ERR in
      Done (x, call cb NoMultiValue code ++
               (if decide (code = NO_EFFECT) then [Tell (SimNotify (onHighCapabilityChanged cur))] else []))
  end.

#[local] Instance multi_ops : SimOps json C L multi_request multi_value multi_note MultiMembers multi_event := {|
  sim_follows_link := true;
  sim_request := multi_wire_request;
  sim_resync x := (x, []);
  sim_is_op _ := true;
  sim_serves := multi_serves;
  sim_answers := multi_answer |}.

Definition multi_event_clients (e : multi_event) : list C :=
  match e with
  | RequestSlotStatus_Signal cb | RequestHighCapability_Signal cb | SetHighCapability_Signal _ cb
  | SwitchActiveSlot_Signal _ cb => option_list cb
  end.

#[refine, local] Instance multi_spec :
    SimSpec json C L multi_request multi_value multi_note MultiMembers multi_event := {|
  sim_event_clients := multi_event_clients;
  sim_request_clients r := let '(GetSlotState _ cb) := r in option_list cb;
  sim_answered r rsp := let '(GetSlotState slot cb) := r in (fun x => fst (fst x)) <$> slot_answer cb slot rsp |}.
Proof.
  - assert (Hc : forall cb v code, omap init_of (call cb v code) = []) by (by intros [c|]).
    intros [cb|cb|slot cb|slot cb] x x' cs; cbn -[call]; intros [= _ <-]; rewrite ?omap_app, ?Hc; try done.
    by destruct (decide (_ = NO_EFFECT)).
  - intros [slot cb] rsp x. simpl. by induction (slot_answer cb slot rsp) as [|[[c v] code] l IH].
  - assert (Hc : forall cb v code, omap answer_of (call cb v code) = option_list cb /\
      omap send_of (call cb v code) = []) by (by intros [c|]).
    intros [cb|cb|slot cb|slot cb] x x' cs; cbn -[call]; intros [= _ <-];
      rewrite ?omap_app; try (destruct (Hc cb (HighSlot (active_slot_ x)) SUCCESS) as [-> ->]);
      try (destruct (Hc cb NoMultiValue SUCCESS) as [-> ->]); try (by rewrite app_nil_r).
    + simpl. by rewrite app_nil_r.
    + destruct (Hc cb NoMultiValue (if decide (slot = active_slot_ x) then NO_EFFECT else SIM_ERR)) as [-> ->].
      destruct (decide (_ = NO_EFFECT)); simpl; by rewrite !app_nil_r.
  - done.
  - intros [slot cb] rsp x. simpl. induction (slot_answer cb slot rsp) as [|[[c v] code] l [IH1 IH2]]; [done|].
    csimpl. by rewrite IH1, IH2.
  - intros [slot [c|]] rsp; simpl; [|by exists 0%nat].
    destruct rsp as [env|]; [|by exists 1%nat].
    destruct (error env), (data env) as [d|]; try by exists 1%nat.
    destruct (value_string "cardState" "" d); [by exists 1%nat|by exists 0%nat].
  - by intros [slot [c|]].
Defined.

Local Notation MultiManager :=
  (SimManager json C L multi_request multi_value multi_note MultiMembers multi_event).
Local Notation AOMulti := (AOSim (json := json) (C := C) (L := L) (R := multi_request) (V := multi_value)
  (Note := multi_note) (X := MultiMembers) (Ev := multi_event)).

Definition SimulaMultiSimManager (initCb : option C) : MultiManager :=
  new_sim (mkMultiMembers slotId_) initCb.

(** What listeners are told when the card came or went. *)
Definition slot_note (slot : Z) (cardPresent : bool) : multi_note :=
  onSlotStatusChanged [(slot, active_with (if cardPresent then CARDSTATE_PRESENT else CARDSTATE_ABSENT))].

Definition notifySlotStatusChanged (alive_at : nat -> L -> bool) (cardPresent : bool) (m : MultiManager) :
    MultiManager :=
  sim_broadcast alive_at (SimNotify (slot_note (active_slot_ (sim_own m)) cardPresent)) m.

(** ** The public interface *)

Definition multi_getSlotCount (m : MultiManager) : Status * option Z :=
  if sim_ready_flag_ m then (SUCCESS_, Some 1) else (NOTREADY, None).
Definition requestHighCapability (cb : option C) : AOMulti -> Status * AOMulti :=
  sim_post_if_ready (RequestHighCapability_Signal cb).
Definition setHighCapability (slotId : Z) (cb : option C) (c : AOMulti) : Status * AOMulti :=
  if negb (sim_ready_flag_ (self (hsm c))) then (NOTREADY, c)
  else if negb (slot_known slotId_ slotId) then (NOSUCH, c)
  else (SUCCESS_, post_fifo (SimOther (SetHighCapability_Signal slotId cb)) c).
Definition switchActiveSlot (slotId : Z) (cb : option C) : AOMulti -> Status * AOMulti :=
  sim_post_if_ready (SwitchActiveSlot_Signal slotId cb).
Definition requestSlotStatus (cb : option C) : AOMulti -> Status * AOMulti :=
  sim_post_if_ready (RequestSlotStatus_Signal cb).

Section States.
Context (topic : string -> string) (paId : string) (now_at counter_at : nat -> Z).
Context (alive_at : nat -> L -> bool).
Local Notation state_fn := (Event (sim_event json multi_event) -> MultiManager -> sim_result).

Definition MultiSimNotReady_St : state_fn := sim_NotReady.
Definition MultiSimReady_St : state_fn := sim_Ready topic paId now_at counter_at alive_at.
End States.
End MultiSimManager.

Arguments multi_event : clear implicits.
Arguments multi_request : clear implicits.
