(* ===== verification/SimProps.v ===== *)
(** * Correctness of the SIM managers' shell

    The shell as a table, the runs of a manager (its worker, the bridge's thread
    and clients' threads, move by move), and what holds of every run: when the
    service is ready, what init callbacks are told, and who is answered. *)

From S2P Require Import Prelude Hsm HsmSpec HsmProps ActiveObject Json Envelope InitGate Manager SimShell.

Local Open Scope Z_scope.

Section SimProps.
Context {json : Type} `{Json json, JsonValues json}.
Context {C L R V Note X Ev : Type} `{EqDecision L} `{ops : !SimOps json C L R V Note X Ev}.
Context (topic : string -> string) (paId : string) (now_at counter_at : nat -> Z).
Context (alive_at : nat -> L -> bool).

Local Notation SimManager := (SimManager json C L R V Note X Ev).
Local Notation sim_event := (sim_event json Ev).
Local Notation sim_cmd := (sim_cmd C R V Note Ev).
Local Notation sim_effect := (sim_effect json C L R V Note Ev).
Local Notation handler := (sim_handler topic paId now_at counter_at alive_at (ops := ops)).
Local Notation exec := (exec topic paId now_at counter_at alive_at (ops := ops)).
Local Notation exec1 := (exec1 topic paId now_at counter_at alive_at (ops := ops)).
Local Notation sim_entry := (sim_entry topic paId now_at counter_at alive_at).
Local Notation sim_exit := (sim_exit topic paId now_at counter_at alive_at).
Implicit Types m : SimManager.

(** ** The shell as a table *)

(** What an event reports of the service. *)
Definition sim_report (e : sim_event) : option ServiceStatus :=
  match e with
  | SimReadinessEvt_Signal env =>
      if sim_follows_link ops then None else
      s ← (d ← data env; value_string "status" "" d);
      if decide (s = "AVAILABLE") then Some SERVICE_AVAILABLE
      else if decide (s = "UNAVAILABLE") then Some SERVICE_UNAVAILABLE
      else if decide (s = "FAILED") then Some SERVICE_FAILED else None
  | SimConnectivityChanged_Signal false => Some SERVICE_UNAVAILABLE
  | SimConnectivityChanged_Signal true => if sim_follows_link ops then Some SERVICE_AVAILABLE else None
  | SimOther _ => None
  end.

Definition sim_readable (e : sim_event) : outcome unit :=
  match e with
  | SimReadinessEvt_Signal env =>
      if sim_follows_link ops then Done tt else
      match data env with Some d => or_die (value_string "status" "" d) ;; Done tt | None => Done tt end
  | _ => Done tt
  end.

Definition sim_leaf (up : bool) : sim_state := if up then SimReady_St else SimNotReady_St.
Definition sim_is_up (leaf : sim_state) : bool :=
  match leaf with SimReady_St => true | SimNotReady_St => false end.

(** A report changes the leaf or does nothing. *)
Definition sim_change (up : bool) (r : option ServiceStatus) m : bool * SimManager :=
  match up, r with
  | false, Some SERVICE_AVAILABLE => (true, sim_entry m)
  | true, Some SERVICE_UNAVAILABLE => (false, sim_exit (sim_publish SERVICE_UNAVAILABLE m))
  | true, Some SERVICE_FAILED => (false, sim_exit (sim_publish SERVICE_FAILED m))
  | _, _ => (up, m)
  end.

Definition sim_step (up : bool) (e : sim_event) m : outcome (bool * SimManager) :=
  sim_readable e ;;
  match e with
  | SimOther x => m ← (if up then sim_serve topic paId now_at counter_at alive_at x m else Done m); Done (up, m)
  | _ => Done (sim_change up (sim_report e) m)
  end.

Lemma sim_chart_step leaf e m :
  chart_step handler sim_lineage leaf e m =
    ('(up, m') ← sim_step (sim_is_up leaf) e m; Done (sim_leaf up, m')).
Proof.
  destruct leaf, e as [env|b|x]; unfold sim_step, sim_readable, sim_report, sim_change;
    cbn -[SimShell.sim_entry SimShell.sim_exit]; try done.
  1,4: destruct (sim_follows_link ops); [done|]; (destruct (data env) as [d|]; [|done]); simpl;
    (destruct (value_string "status" "" d) as [s|]; simpl; [|done]);
    repeat case_decide; by simplify_eq.
  - destruct (sim_follows_link ops), b; done.
  - by destruct (sim_is_op x).
  - by destruct b, (sim_follows_link ops).
  - by destruct (sim_serve _ _ _ _ _ _ _).
Qed.

(** ** What is done, command by command *)

(** Notifications apart. *)
Definition effect_cmd (e : sim_effect) : option sim_cmd :=
  match e with
  | SimRequest r _ _ _ _ => Some (Send r)
  | SimAnswer c v code => Some (Answer c v code)
  | SimInit c s => Some (Init c s)
  | SimEnqueue _ _ => None
  | SimPost r e => Some (Post r e)
  | SimHook b => Some (Hook b)
  end.
Definition quiet (c : sim_cmd) : option sim_cmd := match c with Tell _ => None | _ => Some c end.
Definition cmds m : list sim_cmd := omap effect_cmd (sim_log m).

(** With the notifications the listener [l] is told. *)
Definition effect_for (l : L) (e : sim_effect) : option sim_cmd :=
  match e with SimEnqueue ls n => if decide (l ∈ ls) then Some (Tell n) else None | _ => effect_cmd e end.
Definition cmds_for (l : L) m : list sim_cmd := omap (effect_for l) (sim_log m).

Definition sim_listening (l : L) m : Prop := (forall n, alive_at n l = true) /\ l ∈ sim_listeners_ m.

(** Commands touch no member but the log. *)
Record same_members m m' : Prop := {
  sm_cbs : sim_init_cbs_ m' = sim_init_cbs_ m;
  sm_reported : sim_init_reported_ m' = sim_init_reported_ m;
  sm_flag : sim_ready_flag_ m' = sim_ready_flag_ m;
  sm_status : sim_last_status_ m' = sim_last_status_ m;
  sm_listeners : sim_listeners_ m' = sim_listeners_ m;
  sm_own : sim_own m' = sim_own m }.

Lemma same_trans m1 m2 m3 : same_members m1 m2 -> same_members m2 m3 -> same_members m1 m3.
Proof. intros [] []. split; congruence. Qed.

Lemma exec1_members c m : same_members m (exec1 m c).
Proof.
  destruct c as [r| | |n| |]; simpl; [unfold sim_send; destruct (sim_request r) as [[? ?] ?]| | |
    unfold sim_broadcast; case_decide| |]; done.
Qed.
Lemma exec_members cs m : same_members m (exec cs m).
Proof. revert m. induction cs as [|c cs IH]; intros m; [done|]. eapply same_trans; [apply exec1_members|apply IH]. Qed.

Lemma exec_cmds cs m : cmds (exec cs m) = cmds m ++ omap quiet cs.
Proof.
  revert m. induction cs as [|c cs IH]; intros m; simpl; [by rewrite app_nil_r|].
  rewrite IH. unfold cmds. destruct c as [r| | |n| |]; simpl; rewrite ?omap_app; simpl; rewrite <- ?app_assoc; try done.
  - unfold sim_send. destruct (sim_request r) as [[? ?] ?]. simpl. by rewrite omap_app, <- app_assoc.
  - unfold sim_broadcast. case_decide; simpl; [done|]. by rewrite omap_app, app_nil_r.
Qed.

Lemma exec_for l cs m : sim_listening l m -> cmds_for l (exec cs m) = cmds_for l m ++ cs.
Proof.
  revert m. induction cs as [|c cs IH]; intros m Hl; simpl; [by rewrite app_nil_r|].
  rewrite IH by (destruct Hl; split; [done|by rewrite (sm_listeners _ _ (exec1_members c m))]).
  rewrite (app_assoc _ [c] cs : _ ++ c :: cs = _). f_equal.
  unfold cmds_for. destruct c as [r| | |n| |]; simpl; rewrite ?omap_app; try done.
  - unfold sim_send. destruct (sim_request r) as [[? ?] ?]. simpl. by rewrite omap_app.
  - unfold sim_broadcast. destruct Hl as [Ha Hl].
    assert (Hin : l ∈ locked (alive_at (sim_looks m)) (sim_listeners_ m)).
    { unfold locked. rewrite list_elem_of_filter. auto. }
    case_decide as He; [rewrite He in Hin; by apply not_elem_of_nil in Hin|].
    simpl. rewrite omap_app. simpl. by rewrite decide_True.
Qed.

(** ** Moves *)

(** [SNotify]: another manager's thread broadcasts to the listeners of this one. *)
Inductive sim_move :=
  | SProcess (e : sim_event)
  | SReply (r : R) (rsp : option (Envelope json))
  | SAdd (cb : option C)
  | SNotify (n : Note)
  | SRegister (l : L)
  | SRemove (l : L).

Definition sim_move_step (mv : sim_move) (s : bool * SimManager) : outcome (bool * SimManager) :=
  let '(up, m) := s in
  match mv with
  | SProcess e => sim_step up e m
  | SReply r rsp => Done (up, sim_reply topic paId now_at counter_at alive_at r rsp m)
  | SAdd cb => Done (up, addInitCallback topic paId now_at counter_at alive_at cb m)
  | SNotify n => Done (up, sim_broadcast alive_at (SimNotify n) m)
  | SRegister l => Done (up, snd (sim_registerListener l m))
  | SRemove l => Done (up, snd (sim_removeListener alive_at l m))
  end.
Definition sim_run := run sim_move_step.

(** The commands of a move, in order. *)
Definition change_cmds (up : bool) (r : option ServiceStatus) m : list sim_cmd :=
  match up, r with
  | false, Some SERVICE_AVAILABLE =>
      ((fun c => Init c SERVICE_AVAILABLE) <$> sim_init_cbs_ m) ++
      (if sim_init_reported_ m then [Tell (SimStatusChange SERVICE_AVAILABLE)] else []) ++
      (Send <$> (sim_resync (sim_own m)).2)
  | true, Some SERVICE_UNAVAILABLE | true, Some SERVICE_FAILED =>
      [Tell (SimStatusChange SERVICE_UNAVAILABLE)]
  | _, _ => []
  end.

Definition move_cmds (up : bool) (mv : sim_move) m : list sim_cmd :=
  match mv with
  | SProcess (SimOther e) =>
      if up then match sim_serves e (sim_own m) with Done (_, cs) => cs | Fail _ => [] end else []
  | SProcess e => change_cmds up (sim_report e) m
  | SReply r rsp => (sim_answers r rsp (sim_own m)).2
  | SAdd (Some c) => if sim_init_reported_ m then [Init c (sim_last_status_ m)] else []
  | SNotify n => [Tell (SimNotify n)]
  | _ => []
  end.

(** What the events so far have reported. *)
Record sim_view := mkView { w_up : bool; w_reported : bool; w_status : ServiceStatus }.
Definition view_of (s : bool * SimManager) : sim_view :=
  mkView s.1 (sim_init_reported_ s.2) (sim_last_status_ s.2).

Definition event_view (v : sim_view) (e : sim_event) : sim_view :=
  match w_up v, sim_report e with
  | false, Some SERVICE_AVAILABLE => mkView true true SERVICE_AVAILABLE
  | true, Some SERVICE_UNAVAILABLE => mkView false (w_reported v) SERVICE_UNAVAILABLE
  | true, Some SERVICE_FAILED => mkView false (w_reported v) SERVICE_FAILED
  | _, _ => v
  end.
Definition view_after (v : sim_view) (mv : sim_move) : sim_view :=
  match mv with SProcess e => event_view v e | _ => v end.
Local Notation heard := (heard view_after).

(** The own members after a move. *)
Definition own_after (up : bool) (mv : sim_move) (x : X) : X :=
  match mv with
  | SProcess (SimOther e) =>
      if up then match sim_serves e x with Done (x', _) => x' | Fail _ => x end else x
  | SProcess e =>
      match up, sim_report e with false, Some SERVICE_AVAILABLE => (sim_resync x).1 | _, _ => x end
  | SReply r rsp => (sim_answers r rsp x).1
  | _ => x
  end.

Record move_done (up : bool) (mv : sim_move) m (up' : bool) m' : Prop := {
  md_cmds : cmds m' = cmds m ++ omap quiet (move_cmds up mv m);
  md_for l : mv <> SRemove l -> sim_listening l m ->
    sim_listening l m' /\ cmds_for l m' = cmds_for l m ++ move_cmds up mv m;
  md_view : view_of (up', m') = view_after (view_of (up, m)) mv;
  md_flag : sim_ready_flag_ m = up -> sim_ready_flag_ m' = up';
  md_own : sim_own m' = own_after up mv (sim_own m);
  md_cbs : sim_init_cbs_ m' =
    match mv with
    | SAdd (Some c) => if sim_init_reported_ m then sim_init_cbs_ m else sim_init_cbs_ m ++ [c]
    | SProcess _ => if negb up && up' then [] else sim_init_cbs_ m
    | _ => sim_init_cbs_ m
    end }.

Lemma exec_app cs cs' m : exec (cs ++ cs') m = exec cs' (exec cs m).
Proof. apply foldl_app. Qed.

Lemma exec_set_own cs x m : exec cs (sim_set_own x m) = sim_set_own x (exec cs m).
Proof.
  revert m. induction cs as [|c cs IH]; intros m; [done|]. simpl. rewrite <- IH. f_equal.
  destruct c as [r| | |n| |]; simpl; [unfold sim_send; destruct (sim_request r) as [[? ?] ?]| | |
    unfold sim_broadcast; simpl; case_decide| |]; done.
Qed.

(** Entering Ready, as one list of commands. *)
Lemma sim_entry_exec m :
  sim_entry m =
    exec (change_cmds false (Some SERVICE_AVAILABLE) m)
      (sim_set_own (sim_resync (sim_own m)).1
        (sim_set_cbs [] true (sim_publish SERVICE_AVAILABLE (sim_set_flag true m)))).
Proof.
  unfold SimShell.sim_entry, fireInitCallbacks_, change_cmds. rewrite exec_set_own, !exec_app.
  cbn [sim_init_cbs_ sim_init_reported_ sim_publish sim_set_flag].
  set (m1 := exec (_ <$> _) _). set (m2 := if negb (sim_init_reported_ m) then m1 else exec _ m1).
  assert (Ho : sim_own m2 = sim_own m).
  { subst m2 m1. destruct (negb _); rewrite ?(sm_own _ _ (exec_members _ _)); done. }
  assert (Hm : m2 = exec (if sim_init_reported_ m then [Tell (SimStatusChange SERVICE_AVAILABLE)] else []) m1)
    by (subst m2; by destruct (sim_init_reported_ m)).
  rewrite Ho. destruct (sim_resync (sim_own m)) as [x rs]. rewrite exec_set_own, Hm. done.
Qed.

(** A move that is a list of commands on members set silently. *)
Lemma exec_move up mv m up' m0 :
  let m' := exec (move_cmds up mv m) m0 in
  sim_log m0 = sim_log m -> sim_listeners_ m0 = sim_listeners_ m ->
  view_of (up', m0) = view_after (view_of (up, m)) mv ->
  (sim_ready_flag_ m = up -> sim_ready_flag_ m0 = up') ->
  sim_own m0 = own_after up mv (sim_own m) ->
  sim_init_cbs_ m0 =
    match mv with
    | SAdd (Some c) => if sim_init_reported_ m then sim_init_cbs_ m else sim_init_cbs_ m ++ [c]
    | SProcess _ => if negb up && up' then [] else sim_init_cbs_ m
    | _ => sim_init_cbs_ m
    end ->
  move_done up mv m up' m'.
Proof.
  intros m' Hlog Hls Hv Hf Ho Hc. destruct (exec_members (move_cmds up mv m) m0) as [? ? ? ? Hl ?].
  assert (Hcm : cmds m0 = cmds m) by (unfold cmds; by rewrite Hlog).
  split; subst m'.
  - by rewrite exec_cmds, Hcm.
  - intros l _ [Ha Hin]. assert (Hl0 : sim_listening l m0) by (split; [done|by rewrite Hls]).
    split; [split; [done|by rewrite Hl, Hls]|]. rewrite exec_for by done. unfold cmds_for. by rewrite Hlog.
  - rewrite <- Hv. unfold view_of. simpl. congruence.
  - intros Hup. rewrite <- (Hf Hup). congruence.
  - congruence.
  - congruence.
Qed.

Lemma change_done up e m up' m' :
  sim_change up (sim_report e) m = (up', m') -> (forall x, e <> SimOther x) ->
  move_done up (SProcess e) m up' m'.
Proof.
  intros Hc He.
  assert (Hcmds : move_cmds up (SProcess e) m = change_cmds up (sim_report e) m)
    by (destruct e as [| |x]; [done|done|by destruct (He x)]).
  assert (Hown : forall y, own_after up (SProcess e) y =
    match up, sim_report e with false, Some SERVICE_AVAILABLE => (sim_resync y).1 | _, _ => y end)
    by (intros y; destruct e as [| |x]; [done|done|by destruct (He x)]).
  assert (Hm : exists m0, m' = exec (move_cmds up (SProcess e) m) m0 /\
    sim_log m0 = sim_log m /\ sim_listeners_ m0 = sim_listeners_ m /\
    view_of (up', m0) = event_view (view_of (up, m)) e /\ (sim_ready_flag_ m = up -> sim_ready_flag_ m0 = up') /\
    sim_own m0 = own_after up (SProcess e) (sim_own m) /\
    sim_init_cbs_ m0 = if negb up && up' then [] else sim_init_cbs_ m).
  { rewrite Hcmds, Hown. unfold event_view, view_of. cbn [w_up fst snd].
    destruct up, (sim_report e) as [[]|]; injection Hc as <- <-;
      try (exists m; done); try (eexists; split; [apply sim_entry_exec|done]);
      eexists; (split; [reflexivity|done]). }
  destruct Hm as (m0 & -> & Hlog & Hls & Hv & Hf & Ho & Hcb). by apply exec_move.
Qed.

Lemma sim_move_does up mv m up' m' :
  sim_move_step mv (up, m) = Done (up', m') -> move_done up mv m up' m'.
Proof.
  intros Hs. destruct mv as [e|r rsp|cb|n|l|l]; cbn [sim_move_step] in Hs.
  - unfold sim_step in Hs. apply bind_done' in Hs as (_ & _ & Hs). destruct e as [env|b|x].
    1,2: injection Hs as Hs; apply change_done; [exact Hs|done].
    apply bind_done' in Hs as (m1 & Hm & [= <- <-]). destruct up.
    + unfold sim_serve in Hm. apply bind_done' in Hm as ([x' cs] & Hx & [= <-]).
      replace cs with (move_cmds true (SProcess (SimOther x)) m) by (simpl; by rewrite Hx).
      apply exec_move; try done. simpl. by rewrite Hx.
    + injection Hm as <-. apply (exec_move false (SProcess (SimOther x)) m false m); done.
  - injection Hs as <- <-. unfold sim_reply. destruct (sim_answers r rsp (sim_own m)) as [x cs] eqn:Hx.
    replace cs with (move_cmds up (SReply r rsp) m) by (simpl; by rewrite Hx).
    apply exec_move; try done. simpl. by rewrite Hx.
  - injection Hs as <- <-. destruct cb as [c|]; [|apply (exec_move up (SAdd None) m up m); done]. simpl.
    pose proof (exec_move up (SAdd (Some c)) m up) as Hx. simpl in Hx. destruct (sim_init_reported_ m) eqn:Hr.
    + apply (Hx m); try done. 
    + apply (Hx (sim_set_cbs (sim_init_cbs_ m ++ [c]) false m)); try done. unfold view_of. simpl. by rewrite Hr.
  - injection Hs as <- <-. apply (exec_move up (SNotify n) m up m); done.
  - injection Hs as <- <-. split; simpl; rewrite ?app_nil_r; try done.
    intros l' _ [Ha Hl]. rewrite app_nil_r. split; [split; [done|]|done]. simpl. set_solver.
  - injection Hs as <- <-. split; simpl; rewrite ?app_nil_r; try done.
    intros l' Hne [Ha Hl]. rewrite app_nil_r. split; [split; [done|]|done]. simpl. unfold reap.
    rewrite list_elem_of_filter. split; [|done]. split; [apply Ha|]. intros [_ ->]. by apply Hne.
Qed.

Lemma run_view mvs s s' : sim_run mvs s = Done s' -> view_of s' = fold_left view_after mvs (view_of s).
Proof.
  revert s. induction mvs as [|mv mvs IH]; intros [up m]; simpl; [by intros [= <-]|].
  intros ([up1 m1] & Hs & Hr)%bind_done'. rewrite (IH _ Hr). f_equal. by destruct (sim_move_does _ _ _ _ _ Hs).
Qed.

(** ** Readiness and init callbacks *)

Definition sim_boot : sim_view := mkView false false SERVICE_UNAVAILABLE.

Definition inits_told m : list (C * ServiceStatus) := omap init_of (cmds m).

(** An init callback handed in, with what it is told sooner or later. *)
Definition handed (v : sim_view) (mv : sim_move) : option (C * ServiceStatus) :=
  match mv with
  | SAdd (Some c) => Some (c, if w_reported v then w_status v else SERVICE_AVAILABLE)
  | _ => None
  end.

Lemma omap_quiet {A} (g : sim_cmd -> option A) (cs : list sim_cmd) :
  (forall n, g (Tell n) = None) -> omap g (omap quiet cs) = omap g cs.
Proof.
  intros Hg. induction cs as [|c cs IH]; [done|]. destruct c as [| | |n| |]; csimpl; rewrite IH; try done.
  by rewrite Hg.
Qed.

(** What a view says of itself: up, then reported and available. *)
Definition view_ok (v : sim_view) : Prop :=
  (w_up v = true -> w_reported v = true) /\ (w_up v = true <-> w_status v = SERVICE_AVAILABLE).

Lemma view_ok_after v mv : view_ok v -> view_ok (view_after v mv).
Proof.
  intros [H1 H2]. destruct mv as [e| | | | |]; try done. simpl. unfold event_view.
  destruct (w_up v) eqn:Hu, (sim_report e) as [[]|]; split; simpl; rewrite ?Hu; try done; tauto.
Qed.

(** What waits, and what was told, by the callbacks [given] so far. *)
Definition inits_ok (given : list (C * ServiceStatus)) (s : bool * SimManager) : Prop :=
  view_ok (view_of s) /\ sim_ready_flag_ s.2 = s.1 /\
  (if sim_init_reported_ s.2 then inits_told s.2 = given /\ sim_init_cbs_ s.2 = []
   else inits_told s.2 = [] /\ given = (fun c => (c, SERVICE_AVAILABLE)) <$> sim_init_cbs_ s.2).

Lemma change_inits m :
  omap init_of (change_cmds false (Some SERVICE_AVAILABLE) m) =
    (fun c => (c, SERVICE_AVAILABLE)) <$> sim_init_cbs_ m.
Proof.
  simpl. rewrite !omap_app.
  replace (omap init_of (if sim_init_reported_ m then _ else _)) with (@nil (C * ServiceStatus))
    by (by destruct (sim_init_reported_ m)).
  replace (omap init_of (Send <$> _)) with (@nil (C * ServiceStatus)).
  - rewrite app_nil_r. induction (sim_init_cbs_ m) as [|c l IH]; [done|]. csimpl. by rewrite IH.
  - induction (sim_resync (sim_own m)).2 as [|r l IH]; [done|]. done.
Qed.

Context `{!SimSpec json C L R V Note X Ev}.

Lemma move_inits up mv m up' m' given :
  inits_ok given (up, m) -> sim_move_step mv (up, m) = Done (up', m') ->
  inits_ok (given ++ option_list (handed (view_of (up, m)) mv)) (up', m').
Proof.
  intros (Hv & Hf & Hi) Hs. pose proof (sim_move_does _ _ _ _ _ Hs) as [Hc _ Hview Hflag _ Hcb].
  split; [rewrite Hview; by apply view_ok_after|]. split; [by apply Hflag|]. cbn [fst snd] in *.
  assert (Ht : inits_told m' = inits_told m ++ omap init_of (move_cmds up mv m)).
  { unfold inits_told. rewrite Hc, omap_app. f_equal. by apply omap_quiet. }
  assert (Hr : sim_init_reported_ m' = w_reported (view_after (view_of (up, m)) mv)) by (by rewrite <- Hview).
  assert (Hup : up' = w_up (view_after (view_of (up, m)) mv)) by (by rewrite <- Hview).
  clear Hs Hc Hview Hflag. destruct Hv as [Hv _]. cbn [view_of w_up w_reported fst snd] in Hv.
  assert (Hkeep : omap init_of (move_cmds up mv m) = [] -> handed (view_of (up, m)) mv = None ->
    sim_init_reported_ m' = sim_init_reported_ m -> sim_init_cbs_ m' = sim_init_cbs_ m ->
    if sim_init_reported_ m' then inits_told m' = given ++ option_list (handed (view_of (up, m)) mv) /\
      sim_init_cbs_ m' = []
    else inits_told m' = [] /\ given ++ option_list (handed (view_of (up, m)) mv) =
      (fun c => (c, SERVICE_AVAILABLE)) <$> sim_init_cbs_ m').
  { intros Hn Hh Hr' Hc'. rewrite Ht, Hn, Hh, Hr', Hc'. simpl. by rewrite !app_nil_r. }
  destruct mv as [e|r rsp|[c|]|n|l|l]; try (by apply Hkeep; [|..|rewrite Hr|rewrite Hcb]).
  - cbn [view_after] in *. destruct e as [env|b|x].
    3: { apply Hkeep; [|done|rewrite Hr|rewrite Hcb].
      - simpl. destruct up; [|done]. destruct (sim_serves x (sim_own m)) as [[x' cs]|] eqn:Hx; [|done].
        by eapply sim_serve_quiet.
      - unfold event_view. simpl. by destruct up.
      - rewrite Hup. unfold event_view. simpl. by destruct up. }
    all: set (e := SimReadinessEvt_Signal env) in * || set (e := SimConnectivityChanged_Signal b) in *;
      assert (Hm : move_cmds up (SProcess e) m = change_cmds up (sim_report e) m) by done;
      clearbody e; rewrite Hm in *; clear Hm; unfold event_view in *; cbn [view_of w_up w_reported fst snd] in *;
      destruct up, (sim_report e) as [[]|]; simpl in Hr, Hup; subst up'; simpl in Hcb;
      try (by apply Hkeep).
    all: rewrite Hr, Hcb, Ht, change_inits, app_nil_r; split; [|done];
      destruct (sim_init_reported_ m); [destruct Hi as [-> ->]; by rewrite app_nil_r|by destruct Hi as [-> ->]].
  - apply Hkeep; [|done|by rewrite Hr|by rewrite Hcb]. apply sim_answer_quiet.
  - rewrite Hr, Hcb, Ht. simpl. destruct (sim_init_reported_ m); simpl.
    + by destruct Hi as [-> ->].
    + destruct Hi as [-> ->]. by rewrite fmap_app.
Qed.

Lemma run_inits x cb mvs up m :
  sim_run mvs (false, new_sim x cb) = Done (up, m) ->
  inits_ok (((fun c => (c, SERVICE_AVAILABLE)) <$> option_list cb) ++ heard handed sim_boot mvs) (up, m) /\
  view_of (up, m) = fold_left view_after mvs sim_boot.
Proof.
  assert (Hgen : forall given s s', inits_ok given s -> sim_run mvs s = Done s' ->
    inits_ok (given ++ heard handed (view_of s) mvs) s' /\ view_of s' = fold_left view_after mvs (view_of s)).
  { induction mvs as [|mv mvs IH]; intros given s s' Hi; simpl.
    { intros [= <-]. by rewrite app_nil_r. }
    intros ([up1 m1] & Hs & Hr)%bind_done'. destruct s as [up0 m0].
    pose proof (move_inits _ _ _ _ _ _ Hi Hs) as Hi1. apply sim_move_does in Hs as [_ _ Hview _ _ _].
    destruct (IH _ _ _ Hi1 Hr) as [HI HV]. rewrite Hview in HI, HV. by rewrite app_assoc. }
  intros Hr. apply (Hgen _ (false, new_sim x cb) (up, m)); [|done].
  split; [split; simpl; [done|by split]|done].
Qed.

(** ** Clients *)

Definition accepted (v : sim_view) (mv : sim_move) : option Ev :=
  match mv with SProcess (SimOther e) => if w_up v then Some e else None | _ => None end.
Definition sim_replied (v : sim_view) (mv : sim_move) : option (R * option (Envelope json)) :=
  match mv with SReply r rsp => Some (r, rsp) | _ => None end.

Definition sim_told m : list C := omap answer_of (cmds m).
Definition sim_sent m : list R := omap send_of (cmds m).
Definition sim_reached (p : R * option (Envelope json)) : list C := sim_answered p.1 p.2.

Lemma change_told up r m :
  omap answer_of (change_cmds up r m) ++ (omap send_of (change_cmds up r m) ≫= sim_request_clients) = [].
Proof.
  destruct up, r as [[]|]; try done. simpl. rewrite !omap_app, bind_app.
  assert (Hi : forall (l : list C) s, omap answer_of ((fun c => Init c s) <$> l : list sim_cmd) = [] /\
    omap send_of ((fun c => Init c s) <$> l : list sim_cmd) = []).
  { intros l s. split; apply omap_all_none; intros a; rewrite list_elem_of_fmap; by intros (c & -> & _). }
  assert (Ht : forall n, omap answer_of (if sim_init_reported_ m then [Tell n] else [] : list sim_cmd) = [] /\
    omap send_of (if sim_init_reported_ m then [Tell n] else [] : list sim_cmd) = [])
    by (by destruct (sim_init_reported_ m)).
  destruct (Hi (sim_init_cbs_ m) SERVICE_AVAILABLE) as [-> ->].
  destruct (Ht (SimStatusChange SERVICE_AVAILABLE)) as [-> ->]. simpl.
  replace (omap answer_of (Send <$> _)) with (@nil C).
  - simpl. rewrite <- (sim_resync_law (sim_own m)). f_equal.
    induction (sim_resync (sim_own m)).2 as [|r l IH]; [done|]. csimpl. by rewrite IH.
  - symmetry. apply omap_all_none. intros a. rewrite list_elem_of_fmap. by intros (r & -> & _).
Qed.

(** What a move tells clients and asks the modem for them. *)
Lemma move_told up mv m up' m' :
  sim_move_step mv (up, m) = Done (up', m') ->
  omap answer_of (move_cmds up mv m) ++ (omap send_of (move_cmds up mv m) ≫= sim_request_clients) =
    (option_list (accepted (view_of (up, m)) mv) ≫= sim_event_clients) ++
    (option_list (sim_replied (view_of (up, m)) mv) ≫= sim_reached).
Proof.
  intros Hs. destruct mv as [e|r rsp|[c|]|n|l|l]; simpl; try done.
  - destruct e as [env|b|x]; try apply change_told. simpl. destruct up; [|done]. simpl.
    cbn [sim_move_step] in Hs. unfold sim_step, sim_serve in Hs. simpl in Hs.
    destruct (sim_serves x (sim_own m)) as [[x' cs]|] eqn:Hx; [|done].
    rewrite !app_nil_r. by eapply sim_serve_law.
  - destruct (sim_answer_law r rsp (sim_own m)) as [-> ->]. by rewrite !app_nil_r.
  - by destruct (sim_init_reported_ m).
Qed.

Lemma run_told mvs up m up' m' :
  sim_run mvs (up, m) = Done (up', m') ->
  sim_told m' ++ (sim_sent m' ≫= sim_request_clients) ≡ₚ
    (sim_told m ++ (sim_sent m ≫= sim_request_clients)) ++
    (heard accepted (view_of (up, m)) mvs ≫= sim_event_clients) ++
    (heard sim_replied (view_of (up, m)) mvs ≫= sim_reached).
Proof.
  revert up m. induction mvs as [|mv mvs IH]; intros up m; simpl.
  { intros [= <- <-]. by rewrite app_nil_r. }
  intros ([up1 m1] & Hs & Hr)%bind_done'. pose proof (move_told _ _ _ _ _ Hs) as Ht.
  apply sim_move_does in Hs as [Hc _ Hv _ _ _]. rewrite (IH _ _ Hr), Hv. unfold sim_told, sim_sent.
  rewrite Hc, !omap_app, !omap_quiet by done. rewrite !bind_app.
  transitivity ((omap answer_of (cmds m) ++ (omap send_of (cmds m) ≫= sim_request_clients)) ++
    (omap answer_of (move_cmds up mv m) ++ (omap send_of (move_cmds up mv m) ≫= sim_request_clients)) ++
    (heard accepted (view_after (view_of (up, m)) mv) mvs ≫= sim_event_clients) ++
    (heard sim_replied (view_after (view_of (up, m)) mv) mvs ≫= sim_reached)); [solve_Permutation|].
  rewrite Ht. solve_Permutation.
Qed.
End SimProps.

(** C33: readiness of the SIM managers (cards, subscriptions, multi-SIM). Whatever
    the order in which a manager's worker, the bridge's thread and clients' threads
    take their turns, its readiness flag and its status are those the events
    processed so far have reported: up at the first report that the service is
    available, down, with the status reported, at the first after it that it is
    not; it is available exactly when it is ready. Every init callback handed in is
    told exactly once, in the order they came: "available" as soon as the service
    first comes up, and none before; one handed in later at once, with the status
    of the moment. *)
Theorem sim_readiness {json} `{Json json, JsonValues json} {C L R V Note X Ev} `{EqDecision L}
    `{ops : !SimOps json C L R V Note X Ev, !SimSpec json C L R V Note X Ev}
    (topic : string -> string) (paId : string) (now_at counter_at : nat -> Z) (alive_at : nat -> L -> bool)
    (x : X) (cb : option C) (mvs : list sim_move) (up : bool) (m : SimManager json C L R V Note X Ev) :
  sim_run topic paId now_at counter_at alive_at mvs (false, new_sim x cb) = Done (up, m) ->
  let v := fold_left view_after mvs sim_boot in
  let given := ((fun c => (c, SERVICE_AVAILABLE)) <$> option_list cb) ++ heard view_after handed sim_boot mvs in
  up = w_up v /\ isSubsystemReady m = w_up v /\ sim_getServiceStatus m = w_status v /\
  (w_up v = true <-> w_status v = SERVICE_AVAILABLE) /\
  inits_told m = (if w_reported v then given else []) /\
  sim_init_cbs_ m = (if w_reported v then [] else given.*1).
Proof.
  intros Hr v given. apply run_inits in Hr as [([_ Hok] & Hf & Hi) Hv]; [|exact _]. fold given in Hi. fold v in Hv.
  cbn [fst snd] in *. rewrite <- Hv. cbn [w_up w_status w_reported view_of fst snd].
  split; [done|]. split; [done|]. split; [done|]. split; [done|].
  destruct (sim_init_reported_ m); [done|]. destruct Hi as [-> ->]. split; [done|].
  rewrite <- list_fmap_compose. symmetry. apply list_fmap_id.
Qed.

(** C34: clients of the SIM managers. In every run, once each request sent has been
    answered once with something that calls its clients (a timeout always does),
    the callbacks called are exactly those of the operations processed while the
    manager was ready, each once; nobody is called for one that found the service
    gone, although its client was told that it was accepted; before that, the
    callbacks called and those the requests under way will call account for them
    and for nothing else. *)
Theorem sim_clients {json} `{Json json, JsonValues json} {C L R V Note X Ev} `{EqDecision L}
    `{ops : !SimOps json C L R V Note X Ev, !SimSpec json C L R V Note X Ev}
    (topic : string -> string) (paId : string) (now_at counter_at : nat -> Z) (alive_at : nat -> L -> bool)
    (x : X) (cb : option C) (mvs : list sim_move) (up : bool) (m : SimManager json C L R V Note X Ev) :
  sim_run topic paId now_at counter_at alive_at mvs (false, new_sim x cb) = Done (up, m) ->
  let heard {A} f := heard view_after (A := A) f sim_boot mvs in
  sim_told m ++ (sim_sent m ≫= sim_request_clients) ≡ₚ
    (heard accepted ≫= sim_event_clients) ++ (heard sim_replied ≫= sim_reached) /\
  ((heard sim_replied).*1 ≡ₚ sim_sent m ->
   Forall (fun p => sim_reached p = sim_request_clients p.1) (heard sim_replied) ->
   sim_told m ≡ₚ heard accepted ≫= sim_event_clients) /\
  (forall r, sim_reached (r, None) = sim_request_clients r).
Proof.
  intros Hr heard0. apply (run_told topic paId now_at counter_at alive_at) in Hr.
  change (view_of _) with sim_boot in Hr. simpl in Hr.
  split; [exact Hr|]. split; [|intros r; exact (sim_timeout_law r)].
  intros Hall Hdec. apply (Permutation_app_inv_r (sim_sent m ≫= sim_request_clients)). rewrite Hr. apply Permutation_app_head.
  rewrite <- Hall. unfold heard0 in *. clear -Hdec. induction Hdec as [|p l Hp _ IH]; [done|]. csimpl. by rewrite IH, Hp.
Qed.
