(* ===== verification/SimFactory.v ===== *)
(** * The SIM factory, and the managers together (sim/SimFactory)

    The factory makes each manager once and wires the card manager's presence
    callback to the multi-SIM manager, whichever comes first.  [sim_system] runs the
    managers side by side: a card move that calls the presence callback makes the
    multi-SIM manager tell its listeners, on the card manager's thread. *)

From S2P Require Import Prelude Hsm HsmSpec HsmProps ActiveObject Json Envelope InitGate Manager SimShell SimProps.
From S2P Require Import Card Subscription MultiSim.

Local Open Scope Z_scope.

Section Factory.
Context {json : Type} `{Json json, JsonValues json}.
Context {C L : Type} `{EqDecision L}.
Context (topic : string -> string) (paId : string) (now_at counter_at : nat -> Z).
Context (alive_at : nat -> L -> bool).

Definition Card : Type :=
  SimManager json C L (card_request C) unit card_note CardMembers (card_event json C).
Definition Sub : Type := SimManager json C L sub_request Empty_set sub_note SubMembers (sub_event json).
Definition Multi : Type :=
  SimManager json C L (multi_request C) multi_value multi_note MultiMembers (multi_event C).

(** A manager with its leaf: whether it is in Ready. *)
Record SimFactory := mkFactory {
  card_managers_ : option (bool * Card);
  subscription_managers_ : option (bool * Sub);
  multi_sim_managers_ : option (bool * Multi) }.

Definition new_factory : SimFactory := mkFactory None None None.

#[local] Instance cops : SimOps json C L (card_request C) unit card_note CardMembers (card_event json C) :=
  card_ops DEFAULT_SLOT_ID.
#[local] Instance sops : SimOps json C L sub_request Empty_set sub_note SubMembers (sub_event json) :=
  sub_ops DEFAULT_SLOT_ID.
#[local] Instance mops :
    SimOps json C L (multi_request C) multi_value multi_note MultiMembers (multi_event C) :=
  multi_ops DEFAULT_SLOT_ID.
Local Notation add_cb ops := (addInitCallback topic paId now_at counter_at alive_at (ops := ops)).

Definition wire (m : Card) : Card := sim_set_own (setPresenceChangedCb true (sim_own m)) m.

Definition getCardManager (cb : option C) (f : SimFactory) : SimFactory :=
  match card_managers_ f with
  | Some (up, m) =>
      mkFactory (Some (up, add_cb cops cb m)) (subscription_managers_ f) (multi_sim_managers_ f)
  | None =>
      let m : Card := SimulaCardManager DEFAULT_SLOT_ID cb in
      let m := match multi_sim_managers_ f with Some _ => wire m | None => m end in
      mkFactory (Some (false, m)) (subscription_managers_ f) (multi_sim_managers_ f)
  end.

Definition getSubscriptionManager (cb : option C) (f : SimFactory) : SimFactory :=
  match subscription_managers_ f with
  | Some (up, m) => mkFactory (card_managers_ f) (Some (up, add_cb sops cb m)) (multi_sim_managers_ f)
  | None =>
      mkFactory (card_managers_ f) (Some (false, SimulaSubscriptionManager DEFAULT_SLOT_ID cb))
        (multi_sim_managers_ f)
  end.

Definition getMultiSimManager (cb : option C) (f : SimFactory) : SimFactory :=
  match multi_sim_managers_ f with
  | Some (up, m) => mkFactory (card_managers_ f) (subscription_managers_ f) (Some (up, add_cb mops cb m))
  | None =>
      mkFactory ((fun '(up, m) => (up, wire m)) <$> card_managers_ f) (subscription_managers_ f)
        (Some (false, SimulaMultiSimManager DEFAULT_SLOT_ID cb))
  end.

(** ** The system *)

Local Notation card_move := (sim_move (json := json) (L := L) (C := C) (R := card_request C)
  (Note := card_note) (Ev := card_event json C)).
Local Notation sub_move := (sim_move (json := json) (L := L) (C := C) (R := sub_request)
  (Note := sub_note) (Ev := sub_event json)).
Local Notation multi_move := (sim_move (json := json) (L := L) (C := C) (R := multi_request C)
  (Note := multi_note) (Ev := multi_event C)).

Inductive sys_move :=
  | FGetCard (cb : option C)
  | FGetSub (cb : option C)
  | FGetMulti (cb : option C)
  | FCard (mv : card_move)
  | FSub (mv : sub_move)
  | FMulti (mv : multi_move).

(** The presence callbacks a manager has called. *)
Definition presence_calls (m : Card) : list bool :=
  omap (fun e => match e with SimHook b => Some b | _ => None end) (sim_log m).

Definition notify (f : SimFactory) (present : bool) : SimFactory :=
  mkFactory (card_managers_ f) (subscription_managers_ f)
    ((fun '(up, m) => (up, notifySlotStatusChanged alive_at present m)) <$> multi_sim_managers_ f).

(** A manager that does not exist yet makes no move, and nobody but the card manager
    broadcasts in the multi-SIM manager's stead. *)
Definition sys_step (mv : sys_move) (f : SimFactory) : outcome SimFactory :=
  match mv with
  | FGetCard cb => Done (getCardManager cb f)
  | FGetSub cb => Done (getSubscriptionManager cb f)
  | FGetMulti cb => Done (getMultiSimManager cb f)
  | FCard mv =>
      match card_managers_ f with
      | None => Done f
      | Some (up, m) =>
          '(up', m') ← sim_move_step topic paId now_at counter_at alive_at (ops := cops) mv (up, m);
          let f := mkFactory (Some (up', m')) (subscription_managers_ f) (multi_sim_managers_ f) in
          Done (foldl notify f (drop (length (presence_calls m)) (presence_calls m')))
      end
  | FSub mv =>
      match subscription_managers_ f with
      | None => Done f
      | Some s =>
          s ← sim_move_step topic paId now_at counter_at alive_at (ops := sops) mv s;
          Done (mkFactory (card_managers_ f) (Some s) (multi_sim_managers_ f))
      end
  | FMulti (SNotify _) => Done f
  | FMulti mv =>
      match multi_sim_managers_ f with
      | None => Done f
      | Some s =>
          s ← sim_move_step topic paId now_at counter_at alive_at (ops := mops) mv s;
          Done (mkFactory (card_managers_ f) (subscription_managers_ f) (Some s))
      end
  end.
Definition sys_run := run sys_step.

(** ** What the system shows *)

(** Which managers there are, whether the card's is ready, and whether the card was
    there when it last said so. *)
Record sys_view := mkSysView { has_card : bool; has_multi : bool; card_up : bool; card_there : bool }.

(** What a move says of the card's presence. *)
Definition card_said (v : sys_view) (mv : sys_move) : option bool :=
  match mv with
  | FCard (SProcess (SimOther (CardStateEvt_Signal env))) =>
      if has_card v && card_up v then
        d ← data env; (fun p => state_present (fst p)) <$> decode_card d
      else None
  | _ => None
  end.

Definition card_report (up : bool) (e : sim_event json (card_event json C)) : bool :=
  w_up (event_view (ops := cops) (mkView up true SERVICE_AVAILABLE) e).

Definition sys_after (v : sys_view) (mv : sys_move) : sys_view :=
  match mv with
  | FGetCard _ => mkSysView true (has_multi v) (card_up v) (card_there v)
  | FGetMulti _ => mkSysView (has_card v) true (card_up v) (card_there v)
  | FCard (SProcess e) =>
      mkSysView (has_card v) (has_multi v) (has_card v && card_report (card_up v) e)
        (default (card_there v) (card_said v mv))
  | _ => v
  end.

(** The card came or went, and there is a multi-SIM manager to tell. *)
Definition presence_change (v : sys_view) (mv : sys_move) : option bool :=
  p ← card_said v mv; if decide (p <> card_there v /\ has_multi v = true) then Some p else None.

Definition sys_boot : sys_view := mkSysView false false false false.

(** The slot statuses a listener of the multi-SIM manager is told. *)
Definition slot_told (c : sim_cmd C (multi_request C) multi_value multi_note (multi_event C)) :
    option (list (Z * SlotStatus)) :=
  match c with Tell (SimNotify (onSlotStatusChanged l)) => Some l | _ => None end.
Definition slots_told (l : L) (m : Multi) : list (list (Z * SlotStatus)) := omap slot_told (cmds_for l m).

Definition slot_with (present : bool) : list (Z * SlotStatus) :=
  [(DEFAULT_SLOT_ID, active_with (if present then CARDSTATE_PRESENT else CARDSTATE_ABSENT))].

(** The factory in line with what it shows. *)
Record sys_ok (v : sys_view) (f : SimFactory) : Prop := {
  so_card : match card_managers_ f with
    | None => has_card v = false /\ card_up v = false /\ card_there v = false
    | Some (up, m) =>
        has_card v = true /\ up = card_up v /\ sim_ready_flag_ m = up /\
        last_present_ (sim_own m) = card_there v /\ cardIsPresent_ (sim_own m) = card_there v /\
        presence_cb_ (sim_own m) = has_multi v
    end;
  so_multi : match multi_sim_managers_ f with
    | None => has_multi v = false
    | Some (_, m) => has_multi v = true /\ active_slot_ (sim_own m) = DEFAULT_SLOT_ID
    end }.

(** ** Proofs *)

Definition hook_of {R V Note Ev} (c : sim_cmd C R V Note Ev) : option bool :=
  match c with Hook b => Some b | _ => None end.

Lemma presence_cmds (m : Card) : presence_calls m = omap hook_of (cmds m).
Proof.
  unfold presence_calls, cmds. induction (sim_log m) as [|e l IH]; [done|]. destruct e; csimpl; by rewrite ?IH.
Qed.

Lemma hooks_appended up mv (m : Card) up' m' :
  move_done (ops := cops) alive_at up mv m up' m' ->
  drop (length (presence_calls m)) (presence_calls m') = omap hook_of (move_cmds up mv m).
Proof.
  intros [Hc _ _ _ _ _]. rewrite !presence_cmds, Hc, omap_app, drop_app_length. by apply omap_quiet.
Qed.

Lemma change_hooks up r (m : Card) : omap hook_of (change_cmds up r m) = [].
Proof.
  destruct up, r as [[]|]; try done. unfold change_cmds. rewrite !omap_app, (omap_all_none hook_of (_ <$> _)).
  - by destruct (sim_init_reported_ m).
  - intros a. rewrite list_elem_of_fmap. by intros (c & -> & _).
Qed.

Lemma card_serves_state env d s a (x : CardMembers) :
  data env = Some d -> decode_card d = Some (s, a) ->
  exists x' cs, sim_serves (SimOps := cops) (CardStateEvt_Signal env) x = Done (x', cs) /\
    last_present_ x' = state_present s /\ cardIsPresent_ x' = state_present s /\
    presence_cb_ x' = presence_cb_ x /\
    omap hook_of cs =
      (if decide (state_present s <> last_present_ x /\ presence_cb_ x = true) then [state_present s] else []).
Proof.
  intros Hd Hdec. unfold sim_serves, cops, card_ops, card_serves. rewrite Hd, Hdec. simpl.
  unfold notifyIfPresenceChanged_, cardIsPresent_. simpl. case_decide as He.
  - eexists _, _. split; [done|]. rewrite decide_False by tauto. simpl. by rewrite He.
  - eexists _, _. split; [done|]. simpl. destruct (presence_cb_ x).
    + by rewrite decide_True.
    + by rewrite decide_False by naive_solver.
Qed.

(** What a card's move does to its members and whom it hooks. *)
Lemma card_step mv up (m : Card) up' m' v :
  has_card v = true -> card_up v = up ->
  last_present_ (sim_own m) = card_there v -> cardIsPresent_ (sim_own m) = card_there v ->
  sim_move_step topic paId now_at counter_at alive_at (ops := cops) mv (up, m) = Done (up', m') ->
  let there := default (card_there v) (card_said v (FCard mv)) in
  last_present_ (sim_own m') = there /\ cardIsPresent_ (sim_own m') = there /\
  presence_cb_ (sim_own m') = presence_cb_ (sim_own m) /\
  omap hook_of (move_cmds up mv m) =
    (if decide (there <> card_there v /\ presence_cb_ (sim_own m) = true) then [there] else []).
Proof.
  intros Hhas Hup Hlast Hpres Hs there. pose proof (sim_move_does _ _ _ _ _ _ _ _ _ _ Hs) as [_ _ _ _ Ho _].
  assert (Hkeep : own_after up mv (sim_own m) = sim_own m -> card_said v (FCard mv) = None ->
    omap hook_of (move_cmds up mv m) = [] -> last_present_ (sim_own m') = there /\
    cardIsPresent_ (sim_own m') = there /\ presence_cb_ (sim_own m') = presence_cb_ (sim_own m) /\
    omap hook_of (move_cmds up mv m) =
      (if decide (there <> card_there v /\ presence_cb_ (sim_own m) = true) then [there] else [])).
  { intros Hown Hn Hh. subst there. rewrite Ho, Hown, Hn, Hh. simpl. rewrite decide_False by tauto. done. }
  clear Ho. destruct mv as [e|r rsp|[c|]|n|l|l]; try by apply Hkeep.
  - destruct e as [env|b|[env|cb|cb]].
    + apply Hkeep; [cbn [own_after]; by repeat case_match|done|apply change_hooks].
    + apply Hkeep; [cbn [own_after]; by repeat case_match|done|apply change_hooks].
    + destruct up; [|apply Hkeep; simpl; by rewrite ?Hup, ?andb_false_r].
      destruct (sim_move_does _ _ _ _ _ _ _ _ _ _ Hs) as [_ _ _ _ Ho _].
      cbn [sim_move_step] in Hs. unfold sim_step, sim_serve in Hs. simpl in Hs.
      destruct (data env) as [d|] eqn:Hd; [|apply Hkeep; simpl; by rewrite ?Hd, ?Hup, ?Hhas].
      destruct (decode_card d) as [[s a]|] eqn:Hdec; [|done].
      destruct (card_serves_state env d s a (sim_own m)) as (x & cs & Hx & H1 & H2 & H3 & H4); [done|done|].
      assert (Ht : there = state_present s) by (subst there; cbn [card_said]; by rewrite Hhas, Hup, Hd; simpl; rewrite Hdec).
      cbn [own_after] in Ho. cbn [move_cmds]. rewrite Hx in Ho |- *. rewrite Ho, Ht, H1, H2, H3, H4, Hlast. done.
    + apply Hkeep; [by destruct up|done|by destruct up].
    + apply Hkeep; [by destruct up|done|by destruct up].
  - apply Hkeep; [done|done|]. simpl. destruct r as [|b [c|]]; simpl; [|done|done].
    destruct rsp as [env|]; [|done]. by destruct (error env), (data env).
  - apply Hkeep; [done|done|]. simpl. by destruct (sim_init_reported_ m).
Qed.

Lemma card_up_after up e (m : Card) up' m' mv :
  mv = SProcess e ->
  sim_move_step topic paId now_at counter_at alive_at (ops := cops) mv (up, m) = Done (up', m') ->
  up' = card_report up e.
Proof.
  intros -> Hs. destruct (sim_move_does _ _ _ _ _ _ _ _ _ _ Hs) as [_ _ Hv _ _ _].
  apply (f_equal w_up) in Hv. simpl in Hv. rewrite Hv. unfold card_report, event_view. simpl.
  by destruct up, (sim_report (ops := cops) e) as [[]|].
Qed.

Lemma notify_members (f : SimFactory) b :
  card_managers_ (notify f b) = card_managers_ f /\
  forall up m, multi_sim_managers_ f = Some (up, m) ->
    exists m', multi_sim_managers_ (notify f b) = Some (up, m') /\ sim_own m' = sim_own m.
Proof.
  split; [done|]. intros up m Hm. unfold notify. simpl. rewrite Hm. eexists. split; [reflexivity|].
  apply (exec_members topic paId now_at counter_at alive_at (ops := mops)
    [Tell (SimNotify (slot_note (active_slot_ (sim_own m)) b))] m).
Qed.

Lemma add_card cb up (m : Card) :
  let m' := addInitCallback topic paId now_at counter_at alive_at cb m in
  sim_own m' = sim_own m /\ (sim_ready_flag_ m = up -> sim_ready_flag_ m' = up).
Proof.
  intros m'. destruct (sim_move_does topic paId now_at counter_at alive_at up (SAdd cb) m up m') as [_ _ _ Hf Ho _]; done.
Qed.

(** A multi-SIM manager's own move: its slot stays, and nobody is told of it. *)
Lemma multi_step mv up (m : Multi) up' m' :
  (forall n, mv <> SNotify n) ->
  sim_move_step topic paId now_at counter_at alive_at (ops := mops) mv (up, m) = Done (up', m') ->
  active_slot_ (sim_own m') = active_slot_ (sim_own m) /\
  forall l, mv <> SRemove l -> sim_listening alive_at l m ->
   sim_listening alive_at l m' /\ slots_told l m' = slots_told l m.
Proof.
  intros Hn Hs. pose proof (sim_move_does _ _ _ _ _ _ _ _ _ _ Hs) as [_ Hfor _ _ Ho _].
  assert (Hq : active_slot_ (own_after up mv (sim_own m)) = active_slot_ (sim_own m) /\
    omap slot_told (move_cmds up mv m) = []).
  { assert (Hc : forall r, omap slot_told (change_cmds up r m) = []).
    { intros r. destruct up, r as [[]|]; try done. unfold change_cmds. rewrite !omap_app, (omap_all_none slot_told (_ <$> _)).
      - by destruct (sim_init_reported_ m).
      - intros a. rewrite list_elem_of_fmap. by intros (c & -> & _). }
    assert (Ha : forall cb v code, omap slot_told (call cb v code : list (sim_cmd C _ _ _ _)) = []) by (by intros [c|]).
    destruct mv as [[env|b|e]|[slot cb] rsp|[c|]|n|l'|l']; try done.
    - split; [cbn [own_after]; by repeat case_match|apply Hc].
    - split; [cbn [own_after]; by repeat case_match|apply Hc].
    - destruct up; [|done]. destruct e as [cb|cb|s cb|s cb]; cbn -[call]; rewrite ?omap_app, ?Ha; try done.
      by destruct (decide (_ = NO_EFFECT)).
    - split; [done|]. simpl. by induction (slot_answer cb slot rsp) as [|[[c v] code] cs IH].
    - split; [done|]. simpl. by destruct (sim_init_reported_ m).
    - by destruct (Hn n). }
  destruct Hq as [Hq1 Hq2]. split; [by rewrite Ho|]. intros l Hne Hl. destruct (Hfor l Hne Hl) as [Hl' Hc].
  split; [done|]. unfold slots_told. by rewrite Hc, omap_app, Hq2, app_nil_r.
Qed.

(** A presence callback reaches the listeners of the multi-SIM manager. *)
Lemma notify_told (f : SimFactory) b up (m : Multi) :
  multi_sim_managers_ f = Some (up, m) -> active_slot_ (sim_own m) = DEFAULT_SLOT_ID ->
  exists m', multi_sim_managers_ (notify f b) = Some (up, m') /\ sim_own m' = sim_own m /\
    forall l, sim_listening alive_at l m ->
      sim_listening alive_at l m' /\ slots_told l m' = slots_told l m ++ [slot_with b].
Proof.
  intros Hm Ha. unfold notify. simpl. rewrite Hm. simpl. eexists. split; [reflexivity|].
  set (cs := [Tell (SimNotify (slot_note (active_slot_ (sim_own m)) b))]
    : list (sim_cmd C (multi_request C) multi_value multi_note (multi_event C))).
  change (notifySlotStatusChanged alive_at b m) with (exec topic paId now_at counter_at alive_at (ops := mops) cs m).
  pose proof (exec_members topic paId now_at counter_at alive_at (ops := mops) cs m) as [_ _ _ _ Hls Ho].
  split; [exact Ho|]. intros l Hl. split; [by destruct Hl; split; [|rewrite Hls]|].
  unfold slots_told. rewrite exec_for by done. rewrite omap_app. simpl. by rewrite Ha.
Qed.

Definition told_after (mv : sys_move) (v : sys_view) (f f' : SimFactory) : Prop :=
  forall l up m, multi_sim_managers_ f = Some (up, m) -> sim_listening alive_at l m -> mv <> FMulti (SRemove l) ->
    exists up' m', multi_sim_managers_ f' = Some (up', m') /\ sim_listening alive_at l m' /\
      slots_told l m' = slots_told l m ++ (slot_with <$> option_list (presence_change v mv)).

Lemma told_same mv v f f' :
  multi_sim_managers_ f' = multi_sim_managers_ f -> presence_change v mv = None -> told_after mv v f f'.
Proof.
  intros Hm Hp l up m Hf Hl _. exists up, m. rewrite Hm, Hp. simpl. by rewrite app_nil_r.
Qed.

Lemma card_step_ok mv v f f' : sys_ok v f -> sys_step (FCard mv) f = Done f' ->
  sys_ok (sys_after v (FCard mv)) f' /\ told_after (FCard mv) v f f'.
Proof.
  intros [Hc Hm] Hs. cbn [sys_step] in Hs. destruct (card_managers_ f) as [[up m]|] eqn:Hf.
  2: { injection Hs as <-. destruct Hc as (Hh & Hu & Ht).
    assert (Hn : card_said v (FCard mv) = None)
      by (destruct mv as [[| |[]]|r rsp|cb|n|l|l]; simpl; by rewrite ?Hh).
    split; [|apply told_same; [done|unfold presence_change; by rewrite Hn]].
    split; rewrite ?Hf.
    - destruct mv as [e|r rsp|cb|n|l|l]; [|by split_and!..].
      cbn [sys_after has_card card_up card_there]. rewrite Hn, Hh. by split_and!.
    - by destruct mv. }
  destruct Hc as (Hh & Hu & Hflag & Hlast & Hpres & Hcb). apply bind_done' in Hs as ([up' m'] & Hs & [= <-]).
  destruct (card_step mv up m up' m' v) as (H1 & H2 & H3 & H4); [done..|].
  pose proof (sim_move_does _ _ _ _ _ _ _ _ _ _ Hs) as Hd. rewrite (hooks_appended _ _ _ _ _ Hd), H4.
  destruct Hd as [_ _ Hview Hfl _ _].
  set (there := default (card_there v) (card_said v (FCard mv))) in *.
  set (f1 := mkFactory (Some (up', m')) (subscription_managers_ f) (multi_sim_managers_ f)).
  assert (Hv : has_card (sys_after v (FCard mv)) = true /\ up' = card_up (sys_after v (FCard mv)) /\
    card_there (sys_after v (FCard mv)) = there /\ has_multi (sys_after v (FCard mv)) = has_multi v).
  { destruct mv as [e|r rsp|cb|n|l|l];
      [|apply (f_equal w_up) in Hview; simpl in Hview; rewrite Hview; by split_and!..].
    cbn [sys_after has_card card_up card_there has_multi]. rewrite Hh, <- Hu. simpl.
    rewrite (card_up_after _ e _ _ _ _ eq_refl Hs). done. }
  assert (Hp : option_list (presence_change v (FCard mv)) =
    if decide (there <> card_there v /\ presence_cb_ (sim_own m) = true) then [there] else []).
  { unfold presence_change. subst there. rewrite Hcb. destruct (card_said v (FCard mv)) as [p|]; simpl.
    - by repeat case_decide.
    - by rewrite decide_False by tauto. }
  destruct Hv as (V1 & V2 & V3 & V4).
  assert (Hok1 : sys_ok (sys_after v (FCard mv)) f1).
  { split; subst f1; cbn [multi_sim_managers_ card_managers_]; [|rewrite V4; exact Hm].
    rewrite V1, V3, V4, H3. split; [done|]. split; [done|]. split; [by apply Hfl|]. done. }
  unfold told_after. rewrite Hp. case_decide as Hd; simpl.
  - destruct Hok1 as [O1 O2]. simpl in Hm.
    assert (Hmu : exists u mm, multi_sim_managers_ f = Some (u, mm) /\ active_slot_ (sim_own mm) = DEFAULT_SLOT_ID).
    { destruct Hd as [_ Hd]. rewrite Hcb in Hd.
      destruct (multi_sim_managers_ f) as [[u mm]|]; [exists u, mm; by destruct Hm|congruence]. }
    destruct Hmu as (u & mm & Hmm & Hslot).
    destruct (notify_told f1 there u mm Hmm Hslot) as (mm' & Hn & Ho & Ht).
    split; [split; [exact O1|rewrite Hn; cbn [f1 multi_sim_managers_] in O2; rewrite Hmm in O2; by rewrite Ho]|].
    intros l up0 m0 Hf0 Hl _. rewrite Hmm in Hf0. injection Hf0 as <- <-. destruct (Ht l Hl) as [Hl' Ht'].
    by exists u, mm'.
  - split; [done|]. intros l up0 m0 Hf0 Hl _. exists up0, m0. simpl. by rewrite app_nil_r.
Qed.

Lemma sys_step_ok mv v f f' : sys_ok v f -> sys_step mv f = Done f' ->
  sys_ok (sys_after v mv) f' /\ told_after mv v f f'.
Proof.
  intros Hok Hs. destruct mv as [cb|cb|cb|mv|mv|mv]; [| | |by apply card_step_ok| |].
  - injection Hs as <-. destruct Hok as [Hc Hm]. unfold getCardManager.
    split; [|apply told_same; [by destruct (card_managers_ f) as [[]|]|done]].
    destruct (card_managers_ f) as [[up m]|]; split; cbn [card_managers_ multi_sim_managers_ sys_after]; try done.
    + destruct Hc as (? & ? & Hf & ? & ? & ?). destruct (add_card cb up m) as [Ho Hfl].
      rewrite Ho. split_and!; try done. by apply Hfl.
    + destruct Hc as (? & Hu & Ht). rewrite Hu, Ht. destruct (multi_sim_managers_ f) as [[u mm]|]; simpl.
      * destruct Hm as [-> _]. by split_and!.
      * rewrite Hm. by split_and!.
  - injection Hs as <-. unfold getSubscriptionManager.
    destruct (subscription_managers_ f) as [[u m]|]; (split; [|by apply told_same]); by destruct Hok.
  - injection Hs as <-. destruct Hok as [Hc Hm]. unfold getMultiSimManager. split.
    + destruct (multi_sim_managers_ f) as [[u mm]|]; split; cbn [card_managers_ multi_sim_managers_ sys_after].
      * destruct Hm as [Hm _]. cbn [has_card has_multi card_up card_there]. rewrite Hm in Hc. exact Hc.
      * destruct Hm as [Hm Ha]. split; [done|]. rewrite <- Ha.
        by destruct (multi_step (SAdd cb) u mm u _ (fun n => ltac:(done)) eq_refl).
      * destruct (card_managers_ f) as [[up m]|]; simpl; [|exact Hc]. destruct Hc as (? & ? & ? & ? & ? & ?). by split_and!.
      * by split_and!.
    + intros l up m Hf Hl _. rewrite Hf. cbn [multi_sim_managers_].
      destruct (multi_step (SAdd cb) up m up _ (fun n => ltac:(done)) eq_refl) as [_ Ht].
      destruct (Ht l ltac:(done) Hl) as [Hl' Ht']. eexists _, _. split; [reflexivity|]. split; [exact Hl'|].
      rewrite Ht'. simpl. by rewrite app_nil_r.
  - cbn [sys_step] in Hs. destruct Hok as [Hc Hm]. destruct (subscription_managers_ f) as [[u m]|].
    + apply bind_done' in Hs as (s & _ & [= <-]). split; [by split|by apply told_same].
    + injection Hs as <-. split; [by split|by apply told_same].
  - assert (Hn : (exists n, mv = SNotify n) \/ forall n, mv <> SNotify n)
      by (destruct mv; try (by right); left; eauto).
    destruct Hn as [[n ->]|Hn].
    { injection Hs as <-. split; [by destruct Hok|by apply told_same]. }
    destruct Hok as [Hc Hm]. assert (Hs' : match multi_sim_managers_ f with
      | None => Done f
      | Some s => s ← sim_move_step topic paId now_at counter_at alive_at (ops := mops) mv s;
          Done (mkFactory (card_managers_ f) (subscription_managers_ f) (Some s)) end = Done f')
      by (destruct mv as [| | |n| |]; try exact Hs; by destruct (Hn n)).
    clear Hs. destruct (multi_sim_managers_ f) as [[u m]|] eqn:Hf.
    2: { injection Hs' as <-. split; [split; by rewrite ?Hf|by apply told_same]. }
    apply bind_done' in Hs' as ([u' m'] & Hs & [= <-]).
    destruct (multi_step mv u m u' m') as [Ha Ht]; [done|done|]. split.
    + split; cbn [card_managers_ multi_sim_managers_]; [exact Hc|]. destruct Hm as [Hm Hsl]. by rewrite Ha.
    + intros l up0 m0 Hf0 Hl Hne. rewrite Hf in Hf0. injection Hf0 as <- <-.
      destruct (Ht l) as [Hl' Ht']; [congruence|done|]. exists u', m'. rewrite Ht'. simpl. by rewrite app_nil_r.
Qed.

Lemma sys_run_ok mvs v f f' : sys_ok v f -> sys_run mvs f = Done f' ->
  sys_ok (fold_left sys_after mvs v) f' /\
  forall l up m, multi_sim_managers_ f = Some (up, m) -> sim_listening alive_at l m -> FMulti (SRemove l) ∉ mvs ->
    exists up' m', multi_sim_managers_ f' = Some (up', m') /\
      slots_told l m' = slots_told l m ++ (slot_with <$> heard sys_after presence_change v mvs).
Proof.
  revert v f. induction mvs as [|mv mvs IH]; intros v f Hok; simpl.
  { intros [= <-]. split; [done|]. intros l up m Hm _ _. exists up, m. by rewrite app_nil_r. }
  intros (f1 & Hs & Hr)%bind_done'. apply (sys_step_ok mv v) in Hs as [Hok1 Ht1]; [|done].
  destruct (IH _ _ Hok1 Hr) as [Hok2 Ht2]. split; [done|]. intros l up m Hm Hl [Hne Hni]%not_elem_of_cons.
  destruct (Ht1 l up m Hm Hl) as (up1 & m1 & Hm1 & Hl1 & H1); [by apply not_eq_sym|].
  destruct (Ht2 l up1 m1 Hm1 Hl1 Hni) as (up2 & m2 & Hm2 & H2). exists up2, m2. split; [done|].
  by rewrite H2, H1, fmap_app, app_assoc.
Qed.

Lemma sys_boot_ok : sys_ok sys_boot new_factory.
Proof. by split. Qed.

End Factory.

(** The last presence told is the presence there is. *)
Lemma there_last {json} `{Json json, JsonValues json} {C L : Type}
    (mvs : list (sys_move (json := json) (C := C) (L := L))) (v : sys_view) : has_multi v = true ->
  card_there (fold_left sys_after mvs v) =
    default (card_there v) (last (heard sys_after presence_change v mvs)).
Proof.
  revert v. induction mvs as [|mv mvs IH]; intros v Hm; [done|]. simpl.
  assert (Hm' : has_multi (sys_after v mv) = true) by (by destruct mv as [| | |[]| |]).
  assert (Ht : card_there (sys_after v mv) = default (card_there v) (presence_change v mv)).
  { unfold presence_change. rewrite Hm. destruct (card_said v mv) as [p|] eqn:Hp.
    - assert (Hs : card_there (sys_after v mv) = p) by (by destruct mv as [| | |[e| | | | |]| |]; simpl in *; rewrite ?Hp).
      rewrite Hs. simpl. case_decide as Hd; [done|]. simpl. destruct p, (card_there v); naive_solver.
    - destruct mv as [| | |[e| | | | |]| |]; try done. cbn [sys_after card_there]. by rewrite Hp. }
  rewrite (IH _ Hm'), Ht. destruct (presence_change v mv) as [b|]; [|done]. simpl.
  destruct (heard sys_after presence_change (sys_after v mv) mvs) as [|b' bs]; [done|].
  rewrite last_cons_cons. by destruct (last (b' :: bs)) eqn:Hb; [|by apply last_None in Hb].
Qed.



(** ** The SIM domain at work *)

Module SimDemo.
Definition topic_ (name : string) : string := "telaf/" +:+ name.
Definition clock_ (n : nat) : Z := 1000 + Z.of_nat n.
Definition alive_ (n : nat) (l : nat) : bool := true.
Definition Ma : Type := Card (json := jval) (C := string) (L := nat).
Definition Ev : Type := sim_event jval (card_event jval string).
Definition Mv : Type := sim_move (json := jval) (L := nat) (C := string) (R := card_request string)
  (Note := card_note) (Ev := card_event jval string).
Definition Sy : Type := sys_move (json := jval) (C := string) (L := nat).
Definition ops : SimOps jval string nat (card_request string) unit card_note CardMembers (card_event jval string) :=
  card_ops DEFAULT_SLOT_ID.
Definition spec : SimSpec jval string nat (card_request string) unit card_note CardMembers (card_event jval string) :=
  card_spec DEFAULT_SLOT_ID.

Definition env (ms : list (string * jval)) : Envelope jval :=
  mkEnvelope 1 "0000000a" 7 "mpss" None (Some (jobj ms)) None.
Definition status (s : string) : Ev := SimReadinessEvt_Signal (env [("status", JString s)]).
Definition card (c : string) : Ev :=
  SimOther (CardStateEvt_Signal (env [("cardState", JString c); ("appState", JString "READY")])).
Definition power (c : string) : Ev := SimOther (CardPowerUp_Signal (Some c)).

(** Dropped; a second init callback waits; up; a third is told at once; a request
    times out; a failure; a fourth is told of it; a request after it is dropped. *)
Definition life : list Mv :=
  [SProcess (power "early"); SAdd (Some "second"); SProcess (status "AVAILABLE"); SAdd (Some "third");
   SProcess (power "a"); SReply GetState None; SReply (SetPower true (Some "a")) None;
   SProcess (status "FAILED"); SAdd (Some "fourth"); SProcess (power "late")].

Definition boot : Ma := new_sim (card_members DEFAULT_SLOT_ID) (Some "first").
Definition at_end : bool * Ma :=
  match sim_run (ops := ops) topic_ "pa-test-0001" clock_ clock_ alive_ life (false, boot) with
  | Done s => s
  | Fail _ => (false, boot)
  end.

(** The card manager first, a card, then the multi-SIM manager; the card goes,
    stays away, comes back in error, and the service is lost. *)
Definition pre : list Sy :=
  [FGetCard (Some "cm"); FCard (SProcess (status "AVAILABLE")); FCard (SProcess (card "PRESENT")); FGetMulti None].
Definition post : list Sy :=
  [FCard (SProcess (card "ABSENT")); FCard (SProcess (card "UNKNOWN")); FMulti (SAdd (Some "ms"));
   FCard (SProcess (card "ERROR")); FCard (SProcess (status "UNAVAILABLE")); FCard (SProcess (card "ABSENT"))].

Definition go (mvs : list Sy) (f : SimFactory) : SimFactory :=
  match sys_run topic_ "pa-test-0001" clock_ clock_ alive_ mvs f with Done f => f | Fail _ => f end.
Definition f1 : SimFactory := go pre new_factory.
Definition f2 : SimFactory := go (FMulti (SRegister 7%nat) :: post) f1.
Definition m1 : Multi (json := jval) (C := string) (L := nat) :=
  match multi_sim_managers_ f1 with Some (_, m) => m | None => SimulaMultiSimManager DEFAULT_SLOT_ID None end.
End SimDemo.

Lemma sim_readiness_witness :
  isSubsystemReady (snd SimDemo.at_end) = false /\ sim_getServiceStatus (snd SimDemo.at_end) = SERVICE_FAILED /\
  inits_told (snd SimDemo.at_end) =
    [("first", SERVICE_AVAILABLE); ("second", SERVICE_AVAILABLE); ("third", SERVICE_AVAILABLE);
     ("fourth", SERVICE_FAILED)].
Proof.
  destruct (sim_readiness (ops := SimDemo.ops) (SimSpec0 := SimDemo.spec) SimDemo.topic_ "pa-test-0001"
    SimDemo.clock_ SimDemo.clock_ SimDemo.alive_ (card_members DEFAULT_SLOT_ID) (Some "first") SimDemo.life
    (fst SimDemo.at_end) (snd SimDemo.at_end)) as (_ & Hr & Hs & _ & Hi & _).
  - vm_compute. reflexivity.
  - rewrite Hr, Hs, Hi. vm_compute. auto.
Defined.

Lemma sim_clients_witness : sim_told (snd SimDemo.at_end) ≡ₚ ["a"].
Proof.
  destruct (sim_clients (ops := SimDemo.ops) (SimSpec0 := SimDemo.spec) SimDemo.topic_ "pa-test-0001"
    SimDemo.clock_ SimDemo.clock_ SimDemo.alive_ (card_members DEFAULT_SLOT_ID) (Some "first") SimDemo.life
    (fst SimDemo.at_end) (snd SimDemo.at_end)) as (_ & Ht & _).
  - vm_compute. reflexivity.
  - apply Ht; [vm_compute; reflexivity|vm_compute; repeat constructor].
Defined.

