(* ===== verification/SubscriptionProps.v ===== *)
(** * Correctness of the subscription manager

    The two answers of a resynchronisation meet: one event with both identifiers is
    posted, by the second of them, whatever else goes on in between; and the
    subscription clients read is the one last announced. *)

From S2P Require Import Prelude Hsm HsmSpec ActiveObject Json Envelope InitGate Manager SimShell SimProps.
From S2P Require Import Card Subscription.

Local Open Scope Z_scope.

Section SubProps.
Context {json : Type} `{JsonSpec json, !JsonValues json, !JsonValuesSpec json}.
Context {C L : Type} `{EqDecision L} (slotId_ : Z).
Context (topic : string -> string) (paId : string) (now_at counter_at : nat -> Z).
Context (alive_at : nat -> L -> bool).

#[local] Instance sub_ops_here : SimOps json C L sub_request Empty_set sub_note SubMembers (sub_event json) :=
  sub_ops slotId_.

Local Notation SubManager := (SimManager json C L sub_request Empty_set sub_note SubMembers (sub_event json)).
Local Notation cmd := (sim_cmd C sub_request Empty_set sub_note (sub_event json)).
Local Notation move := (sim_move (json := json) (L := L) (C := C) (R := sub_request)
  (Note := sub_note) (Ev := sub_event json)).
Local Notation sub_run := (sim_run topic paId now_at counter_at alive_at).

Definition number (r : sub_request) : nat := match r with GetIccid n | GetImsi n => n end.

(** An answer to a request of the resynchronisation [n] that can be read: the card's
    identifier on the left, the subscriber's on the right. *)
Definition answer_read (r : sub_request) (rsp : option (Envelope json)) : option (string + string) :=
  match r with GetIccid _ => inl <$> id_of "iccid" rsp | GetImsi _ => inr <$> id_of "imsi" rsp end.
Definition answer_for (n : nat) (mv : move) : option (string + string) :=
  match mv with
  | SReply r rsp => if decide (number r = n) then answer_read r rsp else None
  | _ => None
  end.
Definition answers_for (n : nat) (v : sim_view) : move -> option (string + string) := answer_for n.

Definition put (x : string + string) (a : Accum) : Accum :=
  match x with inl i => mkAccum (Some i) (acc_imsi a) | inr s => mkAccum (acc_iccid a) (Some s) end.

(** What the answers post, one after the other. *)
Definition joined (a : Accum) : list (string * string) :=
  match acc_iccid a, acc_imsi a with Some i, Some s => [(i, s)] | _, _ => [] end.
Fixpoint joins (a : Accum) (l : list (string + string)) : list (string * string) :=
  match l with [] => [] | x :: l => joined (put x a) ++ joins (put x a) l end.

(** The events posted for the resynchronisation [n]. *)
Definition post_for (n : nat) (c : cmd) : option (sub_event json) :=
  match c with Post r e => if decide (number r = n) then Some e else None | _ => None end.
Definition posted (n : nat) (m : SubManager) : list (sub_event json) := omap (post_for n) (cmds m).

(** The identifiers an event the ready manager processes announces. *)
Definition ids_said (v : sim_view) (mv : move) : option (string * string) :=
  match mv with
  | SProcess (SimOther (SubInfoChangedEvt_Signal env)) =>
      if w_up v then d ← data env; decode_ids d else None
  | _ => None
  end.

Definition ids (m : SubManager) : string * string :=
  (getIccId (subscription_ (sim_own m)), getImsi (subscription_ (sim_own m))).

Lemma posts_added n up mv (m : SubManager) up' m' :
  move_done alive_at up mv m up' m' -> posted n m' = posted n m ++ omap (post_for n) (move_cmds up mv m).
Proof. intros [Hc _ _ _ _ _]. unfold posted. rewrite Hc, omap_app. f_equal. by apply omap_quiet. Qed.

Lemma change_posts n up r (m : SubManager) : omap (post_for n) (change_cmds up r m) = [].
Proof.
  destruct up, r as [[]|]; try done. unfold change_cmds. rewrite !omap_app, (omap_all_none _ (_ <$> _)).
  - by destruct (sim_init_reported_ m).
  - intros a. rewrite list_elem_of_fmap. by intros (c & -> & _).
Qed.

Lemma sub_answer_eq r rsp x :
  sub_answer (C := C) r rsp x =
    match answer_read r rsp, accums x !! number r with
    | Some y, Some a =>
        (mkSubMembers (subscription_ x) (<[number r := put y a]> (accums x)),
         (fun p => Post r (uncurry ids_event p)) <$> joined (put y a))
    | _, _ => (x, [])
    end.
Proof.
  destruct r as [k|k]; cbn -[id_of]; (destruct (id_of _ rsp); [|done]); cbn -[id_of];
    (destruct (accums x !! k) as [[[u|] [w|]]|]; done).
Qed.

(** A move and the resynchronisation [n]: nothing before it is made; afterwards its
    accumulator takes in the answers. *)
Lemma sub_step n mv up (m : SubManager) up' m' :
  sim_move_step topic paId now_at counter_at alive_at mv (up, m) = Done (up', m') ->
  match accums (sim_own m) !! n with
  | None => posted n m' = posted n m
  | Some a =>
      match answer_for n mv with
      | None => accums (sim_own m') !! n = Some a /\ posted n m' = posted n m
      | Some x =>
          accums (sim_own m') !! n = Some (put x a) /\
          posted n m' = posted n m ++ (uncurry ids_event <$> joined (put x a))
      end
  end.
Proof.
  intros Hs. pose proof (sim_move_does _ _ _ _ _ _ _ _ _ _ Hs) as Hd.
  rewrite (posts_added n _ _ _ _ _ Hd). destruct Hd as [_ _ _ _ Ho _]. rewrite Ho. clear Ho.
  assert (Hkeep : accums (own_after up mv (sim_own m)) = accums (sim_own m) \/
      (exists a, accums (own_after up mv (sim_own m)) = accums (sim_own m) ++ [a]) ->
    omap (post_for n) (move_cmds up mv m) = [] -> answer_for n mv = None ->
    match accums (sim_own m) !! n with
    | None => posted n m ++ omap (post_for n) (move_cmds up mv m) = posted n m
    | Some a =>
        match answer_for n mv with
        | None => accums (own_after up mv (sim_own m)) !! n = Some a /\
            posted n m ++ omap (post_for n) (move_cmds up mv m) = posted n m
        | Some x => accums (own_after up mv (sim_own m)) !! n = Some (put x a) /\
            posted n m ++ omap (post_for n) (move_cmds up mv m) =
              posted n m ++ (uncurry ids_event <$> joined (put x a))
        end
    end).
  { intros Ha Hp Hn. rewrite Hp, Hn, app_nil_r. destruct (accums (sim_own m) !! n) as [a|] eqn:He; [|done].
    split; [|done]. destruct Ha as [->|[a' ->]]; [done|]. by apply lookup_app_l_Some. }
  destruct mv as [[env|b|[env]]|r rsp|[c|]|k|l|l]; try (by apply Hkeep; [left| |]).
  - apply Hkeep; [|apply change_posts|done]. cbn [own_after].
    repeat case_match; (by left) || (right; by exists new_accum).
  - apply Hkeep; [|apply change_posts|done]. cbn [own_after].
    repeat case_match; (by left) || (right; by exists new_accum).
  - apply Hkeep; [|destruct up|done]; [|simpl|done].
    + left. simpl. destruct up; [|done]. destruct (data env) as [d|]; [|done]. by destruct (decode_ids d) as [[i s]|].
    + destruct (data env) as [d|]; [|done]. by destruct (decode_ids d) as [[i s]|].
  - clear Hkeep. cbn [move_cmds own_after answer_for].
    change (sim_answers r rsp (sim_own m)) with (sub_answer (C := C) r rsp (sim_own m)).
    rewrite sub_answer_eq. destruct (answer_read r rsp) as [y|].
    2: { simpl. rewrite app_nil_r. destruct (accums (sim_own m) !! n); [|done]. by case_decide. }
    case_decide as Hk.
    + subst n. destruct (accums (sim_own m) !! number r) as [a|] eqn:Ha; simpl; [|by rewrite app_nil_r].
      rewrite list_lookup_insert_eq by (by eapply lookup_lt_Some). split; [done|]. f_equal.
      induction (joined (put y a)) as [|p l IH]; [done|]. csimpl. by rewrite decide_True, IH.
    + assert (Hn : omap (post_for n) (match accums (sim_own m) !! number r with
        | Some a => (mkSubMembers (subscription_ (sim_own m)) (<[number r := put y a]> (accums (sim_own m))),
            (fun p => Post r (uncurry ids_event p)) <$> joined (put y a))
        | None => (sim_own m, []) end).2 = []).
      { destruct (accums (sim_own m) !! number r) as [a|]; [|done]. simpl.
        apply omap_all_none. intros c (p & -> & _)%list_elem_of_fmap. simpl. by rewrite decide_False. }
      rewrite Hn, app_nil_r. destruct (accums (sim_own m) !! n) as [a|] eqn:Ha; [|done]. split; [|done].
      destruct (accums (sim_own m) !! number r) as [a'|]; [|done]. simpl. by rewrite list_lookup_insert_ne.
  - apply Hkeep; [by left|simpl; by destruct (sim_init_reported_ m)|done].
Qed.

Lemma run_joins n mvs up (m : SubManager) up' m' a :
  accums (sim_own m) !! n = Some a -> sub_run mvs (up, m) = Done (up', m') ->
  posted n m' =
    posted n m ++ (uncurry ids_event <$> joins a (heard view_after (answers_for n) (view_of (up, m)) mvs)).
Proof.
  revert up m a. induction mvs as [|mv mvs IH]; intros up m a Ha; simpl.
  { intros [= <- <-]. by rewrite app_nil_r. }
  intros ([up1 m1] & Hs & Hr)%bind_done'. pose proof (sub_step n _ _ _ _ _ Hs) as Hn. rewrite Ha in Hn.
  apply sim_move_does in Hs as [_ _ Hv _ _ _]. rewrite <- Hv. unfold answers_for at 1.
  destruct (answer_for n mv) as [x|]; destruct Hn as [Ha1 Hp]; rewrite (IH _ _ _ Ha1 Hr), Hp; [|done].
  simpl. by rewrite fmap_app, app_assoc.
Qed.

Lemma run_unborn n mvs up (m : SubManager) up' m' :
  sub_run mvs (up, m) = Done (up', m') -> posted n m = [] \/ accums (sim_own m) !! n <> None ->
  posted n m' = [] \/ accums (sim_own m') !! n <> None.
Proof.
  revert up m. induction mvs as [|mv mvs IH]; intros up m; simpl; [by intros [= <- <-]|].
  intros ([up1 m1] & Hs & Hr)%bind_done' Hm. eapply IH; [exact Hr|]. apply (sub_step n) in Hs.
  destruct (accums (sim_own m) !! n) as [a|].
  - right. destruct (answer_for n mv); destruct Hs as [-> _]; done.
  - left. destruct Hm as [Hm|Hm]; [by rewrite Hs|done].
Qed.

Lemma run_ids mvs up (m : SubManager) up' m' :
  sub_run mvs (up, m) = Done (up', m') ->
  ids m' = default (ids m) (last (heard view_after ids_said (view_of (up, m)) mvs)).
Proof.
  revert up m. induction mvs as [|mv mvs IH]; intros up m; simpl; [by intros [= <- <-]|].
  intros ([up1 m1] & Hs & Hr)%bind_done'. pose proof (sim_move_does _ _ _ _ _ _ _ _ _ _ Hs) as [_ _ Hv _ Ho _].
  rewrite (IH _ _ Hr), Hv.
  assert (Hi : ids m1 = default (ids m) (ids_said (view_of (up, m)) mv)).
  { unfold ids. rewrite Ho. destruct mv as [[env|b|[env]]|r rsp|[c|]|k|l|l]; try done.
    - cbn [own_after]. by repeat case_match.
    - cbn [own_after]. by repeat case_match.
    - simpl. destruct up; [|done]. destruct (data env) as [d|]; [|done]. simpl.
      by destruct (decode_ids d) as [[i s]|].
    - cbn [own_after]. change (sim_answers r rsp (sim_own m)) with (sub_answer (C := C) r rsp (sim_own m)).
      rewrite sub_answer_eq. destruct (answer_read r rsp); [|done]. by destruct (accums _ !! _). }
  rewrite Hi. destruct (ids_said (view_of (up, m)) mv) as [x|]; [|done]. simpl.
  destruct (heard view_after ids_said _ mvs) as [|y l]; [done|].
  rewrite last_cons_cons. by destruct (last (y :: l)) eqn:Hb; [|by apply last_None in Hb].
Qed.

Lemma ids_event_read i s : exists env, ids_event (json := json) i s = SubInfoChangedEvt_Signal env /\
  (d ← data env; decode_ids d) = Some (i, s).
Proof. eexists. split; [reflexivity|]. simpl. unfold decode_ids. by read_members. Qed.
End SubProps.

(** Subscriptions. When the subscription manager enters Ready it asks for both
    identifiers; once both requests have been answered with something that can be
    read (a failure counts as the empty string), in either order and whatever else
    is processed, answered or lost in between, exactly one event with these two
    identifiers has been posted for them, and before that none; the answers of
    another resynchronisation are not mixed in. And the identifiers clients read are
    those of the last such event, or indication of the modem, processed while the
    manager was ready, empty before there was one. *)
Theorem subscription_joined {json} `{JsonSpec json, !JsonValues json, !JsonValuesSpec json} {C L} `{EqDecision L}
    (slotId : Z) (topic : string -> string) (paId : string) (now_at counter_at : nat -> Z)
    (alive_at : nat -> L -> bool) (cb : option C) (e : sim_event json (sub_event json))
    (pre rest : list (sim_move (json := json) (L := L) (C := C) (R := sub_request) (Note := sub_note)
                        (Ev := sub_event json)))
    (up : bool) (m1 m : SimManager json C L sub_request Empty_set sub_note SubMembers (sub_event json))
    (i s : string) :
  let sub_run := sim_run (ops := sub_ops slotId) topic paId now_at counter_at alive_at in
  let boot := (false, SimulaSubscriptionManager slotId cb) in
  sub_run pre boot = Done (false, m1) -> sim_report (ops := sub_ops (C := C) (L := L) slotId) e = Some SERVICE_AVAILABLE ->
  sub_run (SProcess e :: rest) (false, m1) = Done (up, m) ->
  let n := length (accums (sim_own m1)) in
  let v1 := fold_left (view_after (ops := sub_ops slotId)) (pre ++ [SProcess e]) sim_boot in
  let answers := heard (view_after (ops := sub_ops slotId)) (answers_for n) v1 rest in
  (answers ≡ₚ [inl i; inr s] -> posted n m = [ids_event i s]) /\
  ((length answers <= 1)%nat -> posted n m = []) /\
  ids m = default ("", "") (last (heard (view_after (ops := sub_ops slotId)) ids_said sim_boot (pre ++ SProcess e :: rest))).
Proof.
  intros sub_run boot Hpre He Hrest n v1 answers. subst sub_run boot.
  pose proof Hrest as Hall. simpl in Hrest. apply bind_done' in Hrest as ([up2 m2] & Hs & Hrest).
  assert (Hm : sim_move_step (ops := sub_ops slotId) topic paId now_at counter_at alive_at (SProcess e) (false, m1) =
    Done (up2, m2)) by exact Hs.
  pose proof (sim_move_does (ops := sub_ops slotId) _ _ _ _ _ _ _ _ _ _ Hm) as [_ _ Hv2 _ Ho _].
  assert (Hview : view_of (false, m1) = fold_left (view_after (ops := sub_ops slotId)) pre sim_boot).
  { by apply (run_view topic paId now_at counter_at alive_at (ops := sub_ops slotId)) in Hpre. }
  assert (Hv1 : view_of (up2, m2) = v1) by (subst v1; rewrite fold_left_app, Hv2, Hview; done).
  assert (Hacc : accums (sim_own m2) !! n = Some new_accum).
  { rewrite Ho. destruct e as [env|b|x]; [| |done]; cbn [own_after]; rewrite He; simpl;
      by rewrite lookup_app_r, Nat.sub_diag by done. }
  assert (Hnone : posted n m1 = []).
  { destruct (run_unborn slotId topic paId now_at counter_at alive_at n pre _ _ _ _ Hpre) as [Hp|Hp]; [by left|done|].
    destruct Hp. by apply lookup_ge_None. }
  assert (Hnone2 : posted n m2 = []).
  { pose proof (sub_step slotId topic paId now_at counter_at alive_at n _ _ _ _ _ Hm) as Hp.
    rewrite (lookup_ge_None_2 (accums (sim_own m1)) n) in Hp by done. by rewrite Hp. }
  pose proof (run_joins slotId topic paId now_at counter_at alive_at n rest up2 m2 up m _ Hacc Hrest) as Hj.
  rewrite Hnone2, Hv1 in Hj.
  assert (Hj' : posted n m = uncurry ids_event <$> joins new_accum answers) by exact Hj.
  clear Hj. rename Hj' into Hj. clearbody answers.
  split; [|split].
  - intros Hp. rewrite Hj. destruct answers as [|x [|y [|z l]]]; try (apply Permutation_length in Hp; discriminate).
    apply Permutation_length_2_inv in Hp as [Hp|Hp]; by injection Hp as <- <-.
  - intros Hl. rewrite Hj. destruct answers as [|[x|x] [|y l]]; simpl in *; first [done|lia].
  - assert (Hrun : sim_run (ops := sub_ops slotId) topic paId now_at counter_at alive_at (pre ++ SProcess e :: rest)
      (false, SimulaSubscriptionManager slotId cb) = Done (up, m)).
    { unfold sim_run in *. rewrite run_app, Hpre. exact Hall. }
    by apply (run_ids slotId topic paId now_at counter_at alive_at) in Hrun.
Qed.

Module SubDemo.
Definition topic_ (name : string) : string := "telaf/" +:+ name.
Definition clock_ (n : nat) : Z := 1000 + Z.of_nat n.
Definition alive_ (n : nat) (l : nat) : bool := true.
Definition Ev : Type := sim_event jval (sub_event jval).
Definition Mv : Type := sim_move (json := jval) (L := nat) (C := string) (R := sub_request)
  (Note := sub_note) (Ev := sub_event jval).
Definition Ma : Type := SimManager jval string nat sub_request Empty_set sub_note SubMembers (sub_event jval).
Definition env (ms : list (string * jval)) : Envelope jval :=
  mkEnvelope 1 "0000000a" 7 "mpss" None (Some (jobj ms)) None.
Definition up : Ev := SimReadinessEvt_Signal (env [("status", JString "AVAILABLE")]).

(** Up and lost before an answer; up again: the answers of both times are mixed, the
    second subscriber's request fails; the event posted is processed. *)
Definition pre : list Mv :=
  [SProcess up; SReply (GetIccid 0) (Some (env [("iccid", JString "old")]));
   SProcess (SimConnectivityChanged_Signal false)].
Definition rest : list Mv :=
  [SReply (GetImsi 1) None; SReply (GetImsi 0) None; SReply (GetIccid 1) (Some (env [("iccid", JString "8949")]));
   SProcess (SimOther (ids_event "8949" ""))].

Definition go (mvs : list Mv) (s : bool * Ma) : bool * Ma :=
  match sim_run (ops := sub_ops DEFAULT_SLOT_ID) topic_ "pa-test-0001" clock_ clock_ alive_ mvs s with
  | Done s => s
  | Fail _ => s
  end.
Definition m1 : Ma := snd (go pre (false, SimulaSubscriptionManager DEFAULT_SLOT_ID None)).
Definition m : Ma := snd (go (SProcess up :: rest) (false, m1)).
End SubDemo.

Lemma subscription_joined_witness :
  posted 1%nat SubDemo.m = [ids_event "8949" ""] /\ ids SubDemo.m = ("8949", "").
Proof.
  destruct (subscription_joined DEFAULT_SLOT_ID SubDemo.topic_ "pa-test-0001" SubDemo.clock_ SubDemo.clock_
    SubDemo.alive_ None SubDemo.up SubDemo.pre SubDemo.rest true SubDemo.m1 SubDemo.m "8949" "") as (Hp & _ & Hi).
  - vm_compute. reflexivity.
  - reflexivity.
  - vm_compute. reflexivity.
  - split; [|rewrite Hi; vm_compute; reflexivity].
    apply Hp. vm_compute. apply Permutation_swap.
Defined.
