(* ===== verification/PowerShell.v ===== *)
(** * The shell of the power managers (power/)

    TcuActivityManager and WakeupManager share a fourth shell, the smallest: the
    leaves are roots, the status is read off the chart, a failed service counts for
    nothing, and nothing is asked of the modem on entering Ready.  What a handler
    does is a list of commands, which [pw_exec] carries out in order; [PowerOps] is
    the class of what the two managers differ in. *)

From stdpp Require Import functions.
From S2P Require Import Prelude Hsm HsmSpec HsmProps ActiveObject Json Envelope InitGate Manager.

Local Open Scope Z_scope.

Inductive power_state := PwNotReady_St | PwReady_St.

#[export] Instance power_state_eq_dec : EqDecision power_state.
Proof. solve_decision. Defined.

Section PowerTypes.
(** Callbacks, listeners, kinds of listeners; per manager: messages sent, what is
    told to a listener, promises with what they are given, own members and events. *)
Context {json C L Au R Call P X Ev : Type}.

Inductive power_event :=
  | PwReadinessEvt_Signal (env : Envelope json)
  | PwConnectivityChanged_Signal (operational : bool)
  | PwOther (e : Ev).

(** [Oneway]: no answer is awaited.  [Respond]: the callback is called by the
    listener dispatcher, never by the manager's own thread. *)
Inductive power_cmd :=
  | Send (r : R)
  | Oneway (r : R)
  | Init (cb : C) (s : ServiceStatus)
  | Respond (cb : C) (code : Z)
  | Tell (to : Au) (calls : list Call)
  | Settle (p : P).

Inductive power_effect :=
  | PwRequest (r : R) (topic schema : string) (env : Envelope json) (timeout : Z)
  | PwPublish (r : R) (topic schema : string) (env : Envelope json)
  | PwInit (cb : C) (s : ServiceStatus)
  | PwResponse (cb : C) (code : Z)
  | PwTask (to : Au) (listeners : list L) (calls : list Call)
  | PwSettle (p : P).

Record PowerManager := mkPower {
  pw_listeners : Au -> list L;
  pw_own : X;
  pw_looks : nat;
  pw_log : list power_effect }.
End PowerTypes.

Arguments power_event : clear implicits.
Arguments power_cmd : clear implicits.
Arguments power_effect : clear implicits.
Arguments PowerManager : clear implicits.

Section PowerMembers.
Context {json C L Au R Call P X Ev : Type}.
Local Notation PowerManager := (PowerManager json C L Au R Call P X).
Implicit Types m : PowerManager.

Definition pw_set_listeners ls m : PowerManager := mkPower ls (pw_own m) (pw_looks m) (pw_log m).
Definition pw_set_own x m : PowerManager := mkPower (pw_listeners m) x (pw_looks m) (pw_log m).
Definition pw_look m : PowerManager := mkPower (pw_listeners m) (pw_own m) (S (pw_looks m)) (pw_log m).
Definition pw_emit l m : PowerManager := mkPower (pw_listeners m) (pw_own m) (pw_looks m) (pw_log m ++ l).

Definition new_power (x : X) : PowerManager := mkPower (fun _ => []) x 0 [].

(** The envelopes made so far. *)
Definition pw_sent m : nat :=
  length (omap (fun e => match e with PwRequest r _ _ _ _ | PwPublish r _ _ _ => Some r | _ => None end) (pw_log m)).
End PowerMembers.

(** ** What the managers differ in *)

Class PowerOps (json C L Au R Call P X Ev : Type) := {
  (** Names of a message and of its answer's, or its own, schema; the payload. *)
  pw_wire : R -> string * string * json;
  pw_entered : X -> X * list (power_cmd C Au R Call P);
  pw_left : list (power_cmd C Au R Call P);
  (** What NotReady does with an event; [None]: it has no case for it. *)
  pw_drops : Ev -> option (list (power_cmd C Au R Call P));
  (** What Ready does, having sent so many messages before. *)
  pw_serves : nat -> Ev -> X -> outcome (X * list (power_cmd C Au R Call P));
  (** What the bridge's thread does with an answer. *)
  pw_answers : R -> option (Envelope json) -> list (power_cmd C Au R Call P) }.

Arguments pw_wire {json C L Au R Call P X Ev _}.
Arguments pw_entered {json C L Au R Call P X Ev _}.
Arguments pw_left {json C L Au R Call P X Ev} _.
Arguments pw_drops {json C L Au R Call P X Ev _}.
Arguments pw_serves {json C L Au R Call P X Ev _}.
Arguments pw_answers {json C L Au R Call P X Ev _}.

(** ** The chart *)

Section PowerShell.
Context {json : Type} `{Json json, JsonValues json}.
Context {C L Au R Call P X Ev : Type} `{EqDecision L, EqDecision Au} `{ops : !PowerOps json C L Au R Call P X Ev}.
Context (topic : string -> string) (paId : string) (now_at counter_at : nat -> Z).
Context (alive_at : nat -> L -> bool).

Local Notation PowerManager := (PowerManager json C L Au R Call P X).
Local Notation power_event := (power_event json Ev).
Local Notation power_cmd := (power_cmd C Au R Call P).
Implicit Types m : PowerManager.

Definition pw_outbox m : list (post power_event) := [].
Definition pw_flush m : PowerManager := m.

Definition pw_broadcast (to : Au) (calls : list Call) m : PowerManager :=
  let ls := locked (alive_at (pw_looks m)) (pw_listeners m to) in
  if decide (ls = []) then pw_look m else pw_emit [PwTask to ls calls] (pw_look m).

Definition pw_register (to : Au) (l : L) m : Status * PowerManager :=
  (SUCCESS_, pw_set_listeners (<[to := pw_listeners m to ++ [l]]> (pw_listeners m)) m).
Definition pw_deregister (to : Au) (l : L) m : Status * PowerManager :=
  (SUCCESS_, pw_look (pw_set_listeners
     (<[to := reap (alive_at (pw_looks m)) l (pw_listeners m to)]> (pw_listeners m)) m)).

Definition pw_envelope (payload : json) m : Envelope json :=
  let n := pw_sent m in fst (makeRequestEnvelope (now_at n) (counter_at n) paId payload).

Definition pw_exec1 m (c : power_cmd) : PowerManager :=
  match c with
  | Send r =>
      let '(req, schema, payload) := pw_wire r in
      pw_emit [PwRequest r (topic req) schema (pw_envelope payload m) kRpcTimeout] m
  | Oneway r =>
      let '(req, schema, payload) := pw_wire r in
      pw_emit [PwPublish r (topic req) schema (pw_envelope payload m)] m
  | Init cb s => pw_emit [PwInit cb s] m
  | Respond cb code => pw_emit [PwResponse cb code] m
  | Tell to calls => pw_broadcast to calls m
  | Settle p => pw_emit [PwSettle p] m
  end.
Definition pw_exec (cs : list power_cmd) m : PowerManager := foldl pw_exec1 m cs.

Definition pw_entry m : PowerManager :=
  let '(x, cs) := pw_entered (pw_own m) in pw_exec cs (pw_set_own x m).
Definition pw_exit m : PowerManager := pw_exec (pw_left ops) m.
Definition pw_serve (e : Ev) m : outcome PowerManager :=
  '(x, cs) ← pw_serves (pw_sent m) e (pw_own m); Done (pw_exec cs (pw_set_own x m)).
Definition pw_reply (r : R) (rsp : option (Envelope json)) m : PowerManager := pw_exec (pw_answers r rsp) m.

Definition pw_result : Type := outcome (verdict power_state * PowerManager).
Definition pw_handled m : pw_result := Done (Handled, m).
Definition pw_goto (t : power_state) m : pw_result := Done (To (st t), m).
Definition pw_super m : pw_result := Done (Super top, m).

(** [env.data && env.data->value("status", "") == s] *)
Definition says (s : string) (env : Envelope json) : outcome bool :=
  match data env with
  | None => Done false
  | Some d => v ← or_die (value_string "status" "" d); Done (bool_decide (v = s))
  end.

Definition pw_NotReady (e : Event power_event) m : pw_result :=
  match e with
  | Entry_Signal | Exit_Signal => pw_handled m
  | User (PwReadinessEvt_Signal env) =>
      up ← says "AVAILABLE" env; if (up : bool) then pw_goto PwReady_St m else pw_handled m
  | User (PwConnectivityChanged_Signal _) => pw_handled m
  | User (PwOther e) => match pw_drops e with Some cs => pw_handled (pw_exec cs m) | None => pw_super m end
  | _ => pw_super m
  end.

Definition pw_Ready (e : Event power_event) m : pw_result :=
  match e with
  | Entry_Signal => pw_handled (pw_entry m)
  | Exit_Signal => pw_handled (pw_exit m)
  | User (PwReadinessEvt_Signal env) =>
      down ← says "UNAVAILABLE" env; if (down : bool) then pw_goto PwNotReady_St m else pw_handled m
  | User (PwConnectivityChanged_Signal operational) =>
      if negb operational then pw_goto PwNotReady_St m else pw_handled m
  | User (PwOther e) => m ← pw_serve e m; pw_handled m
  | _ => pw_super m
  end.

Definition pw_handler (x : power_state) : Event power_event -> PowerManager -> pw_result :=
  match x with PwNotReady_St => pw_NotReady | PwReady_St => pw_Ready end.

Definition pw_parent (x : power_state) : option power_state := None.
Definition pw_lineage (x : power_state) : list power_state := [x].
Definition pw_swallow (x : power_state) : bool := false.

#[global] Instance wf_power : wf_chart pw_handler pw_parent pw_lineage pw_swallow.
Proof.
  constructor.
  - by intros [].
  - intros []; unfold pw_lineage, kMaxNest; simpl; lia.
  - by intros [].
  - by intros [].
  - by intros [] ?.
  - intros [] b v b'; simpl; intros [= <- _]; auto.
  - intros [] e m v m'; destruct e as [env|b|e]; simpl.
    + intros ([] & _ & [= <- _])%bind_done'; simpl; eauto.
    + by intros [= <- _].
    + destruct (pw_drops e); by intros [= <- _].
    + intros ([] & _ & [= <- _])%bind_done'; simpl; eauto.
    + destruct b; intros [= <- _]; simpl; eauto.
    + intros (m1 & _ & [= <- _])%bind_done'. done.
  - intros [] b t b'; simpl; by intros [=].
Qed.

(** ** The public interface *)

Definition AOPower : Type := AO power_state power_event PowerManager.

Definition pw_isReadyDerived_ (c : AOPower) : bool := bool_decide (state_ (hsm c) = st PwReady_St).
Definition pw_getServiceStatus (c : AOPower) : ServiceStatus :=
  if pw_isReadyDerived_ c then SERVICE_AVAILABLE else SERVICE_UNAVAILABLE.

Definition pw_post_if_ready (e : Ev) (c : AOPower) : Status * AOPower :=
  if pw_isReadyDerived_ c then (SUCCESS_, post_fifo (PwOther e) c) else (NOTREADY, c).

Definition pw_start (ndebug : bool) (c : AOPower) : outcome AOPower :=
  if running_ c then Done c else start_at pw_handler ndebug true (st PwNotReady_St) c.
End PowerShell.
