(* ===== verification/Tcu.v ===== *)
(** * The TCU activity manager (power/TcuActivityManager)

    Masters ask the modem for a power state, slaves hear of it and acknowledge it.
    An instance of the power managers' shell: a master's callback says that the
    request went out, not what became of it, and is called by the listener
    dispatcher; the outcome comes as an indication. *)

From S2P Require Import Prelude Hsm HsmSpec HsmProps ActiveObject Json Envelope InitGate Manager TelWire PowerShell.

Local Open Scope Z_scope.

(** ** Values *)

Inductive TcuActivityState := TCU_UNKNOWN | TCU_SUSPEND | TCU_RESUME | TCU_SHUTDOWN.
#[export] Instance TcuActivityState_eq_dec : EqDecision TcuActivityState.
Proof. solve_decision. Defined.
Inductive StateChangeResponse := ACK | NACK.
#[export] Instance StateChangeResponse_eq_dec : EqDecision StateChangeResponse.
Proof. solve_decision. Defined.
Inductive ClientType := SLAVE | MASTER.
#[export] Instance ClientType_eq_dec : EqDecision ClientType.
Proof. solve_decision. Defined.
Inductive MachineEvent := MACHINE_AVAILABLE | MACHINE_UNAVAILABLE.
Inductive TcuActivityStateAck := SUSPEND_ACK | SHUTDOWN_ACK.

Definition LOCAL_MACHINE : string := "LOCAL_MACHINE".
(** A client's name and its machine's. *)
Definition ClientInfo : Type := string * string.

Record ClientInstanceConfig := mkConfig { clientType : ClientType; clientName : string; machineName : string }.
(** The defaults of the SDK's struct. *)
Definition default_config : ClientInstanceConfig := mkConfig SLAVE "" LOCAL_MACHINE.

Definition tcuActivityStateToWire (s : TcuActivityState) : string :=
  match s with
  | TCU_SUSPEND => "SUSPEND"
  | TCU_RESUME => "RESUME"
  | TCU_SHUTDOWN => "SHUTDOWN"
  | TCU_UNKNOWN => "UNKNOWN"
  end.
Definition wireToTcuActivityState (s : string) : TcuActivityState :=
  if decide (s = "SUSPEND") then TCU_SUSPEND
  else if decide (s = "RESUME") then TCU_RESUME
  else if decide (s = "SHUTDOWN") then TCU_SHUTDOWN
  else TCU_UNKNOWN.
#[export] Instance tcu_wire : WireEnum TcuActivityState :=
  {| to_wire := tcuActivityStateToWire; of_wire := wireToTcuActivityState |}.
#[export] Instance tcu_wire_spec : WireEnumSpec TcuActivityState (fun _ => True).
Proof. split. by intros [] _. Qed.

Definition stateChangeResponseToWire (a : StateChangeResponse) : string :=
  if decide (a = ACK) then "ACK" else "NACK".
Definition wireToMachineEvent (s : string) : MachineEvent :=
  if decide (s = "AVAILABLE") then MACHINE_AVAILABLE else MACHINE_UNAVAILABLE.

(** ** Who this machine is

    A one-line file under the user's home directory. *)

(** [std::getline]: up to the first newline. *)
Fixpoint getline (text : string) : string :=
  match text with
  | EmptyString => ""
  | String a rest => if decide (Ascii.nat_of_ascii a = 10%nat) then "" else String a (getline rest)
  end.

(** [home]: the environment's HOME; [file]: a file's text, if it opens. *)
Definition readLocalMachineName_ (home : option string) (file : string -> option string) : string :=
  match home with
  | None => "mdm"
  | Some h =>
      match file (h +:+ "/.machine_name") with
      | None => "mdm"
      | Some text =>
          let name := pop_back_trailing (getline text) in if decide (name = "") then "mdm" else name
      end
  end.

(** ** Operations, indications, messages *)

Section TcuActivityManager.
Context {json : Type} `{Json json, JsonValues json}.
(** [file_at n]: the files after [n] messages were sent. *)
Context {C L P : Type} `{EqDecision L} (home : option string) (file_at : nat -> string -> option string).

Inductive tcu_event :=
  | SetActivityState_Signal (state : TcuActivityState) (machine : string) (cb : option C)
  | GetAllMachineNames_Signal (result : P)
  | SendActivityStateAck_Signal (ack : StateChangeResponse) (state : TcuActivityState)
  | StateUpdateInd_Signal (env : Envelope json)
  | MachineUpdateInd_Signal (env : Envelope json)
  | SlaveAckStatusInd_Signal (env : Envelope json).

Inductive tcu_message :=
  | SetState (state : TcuActivityState) (machine : string)
  | GetMachineNames (result : P)
  | SlaveAck (ack : StateChangeResponse) (state : TcuActivityState) (machine : string).

(** The methods called on a listener; of those overloaded, the second is the
    deprecated form. *)
Inductive tcu_call :=
  | onTcuActivityStateUpdate (s : TcuActivityState) (machine : string)
  | onTcuActivityStateUpdate_ (s : TcuActivityState)
  | onMachineUpdate (machine : string) (e : MachineEvent)
  | onSlaveAckStatusUpdate (s : Status) (machine : string) (unresponsive nack : list ClientInfo)
  | onSlaveAckStatusUpdate_ (s : Status)
  | onServiceStatusChange (s : ServiceStatus).

(** [listeners_] and [service_listeners_]. *)
Inductive tcu_audience := Clients | Services.
#[export] Instance tcu_audience_eq_dec : EqDecision tcu_audience.
Proof. solve_decision. Defined.

(** A promise set to a status and names; [None]: destroyed without a value. *)
Definition names_result : Type := option (Status * list string).

Record TcuMembers := mkTcu {
  config_ : ClientInstanceConfig;
  init_cb_ : option C;
  init_cb_fired_ : bool;
  local_state_ : TcuActivityState }.

Local Notation cmd := (power_cmd C tcu_audience tcu_message tcu_call (P * names_result)).

Definition tcu_wire_message (r : tcu_message) : string * string * json :=
  match r with
  | SetState s m =>
      ("power.set_state.req", "power.set_state.rsp",
       jobj [("state", of_string (tcuActivityStateToWire s)); ("machineName", of_string m)])
  | GetMachineNames _ => ("power.get_machine_names.req", "power.get_machine_names.rsp", jobj [])
  | SlaveAck a s m =>
      ("power.slave_ack.req", "power.slave_ack.ff",
       jobj [("response", of_string (stateChangeResponseToWire a));
             ("state", of_string (tcuActivityStateToWire s)); ("machineName", of_string m)])
  end.

(** ** Decoders *)

(** [data.contains(k) && !data[k].empty()] *)
Definition has_items (k : string) (d : json) : bool :=
  match jat k d with Some v => negb (jempty v) | None => false end.
Definition slaveAckStatusToCommonStatus (d : json) : Status :=
  if has_items "nack" d then NOTREADY else if has_items "unresponsive" d then EXPIRED else SUCCESS_.

Definition decodeClientInfo (item : json) : option ClientInfo :=
  c ← value_string "clientName" "" item; m ← value_string "machineName" "" item; Some (c, m).

Definition decode_state (d : json) : option (TcuActivityState * string) :=
  s ← value_string "state" "" d; m ← value_string "machineName" "" d; Some (wireToTcuActivityState s, m).
Definition decode_machine (d : json) : option (string * MachineEvent) :=
  m ← value_string "machineName" "" d; e ← value_string "machineEvent" "" d; Some (m, wireToMachineEvent e).
Definition decode_slave_ack (d : json) : option (Status * string * list ClientInfo * list ClientInfo) :=
  m ← value_string "machineName" "" d;
  u ← decode_list "unresponsive" decodeClientInfo d;
  n ← decode_list "nack" decodeClientInfo d;
  Some (slaveAckStatusToCommonStatus d, m, u, n).

(** ** The two states *)

(** [dispatchResponse_] *)
Definition dispatchResponse_ (cb : option C) (code : Z) : list cmd := (fun c => Respond c code) <$> option_list cb.

Definition tcu_entered (x : TcuMembers) : TcuMembers * list cmd :=
  if init_cb_fired_ x then (x, [Tell Services [onServiceStatusChange SERVICE_AVAILABLE]])
  else (mkTcu (config_ x) (init_cb_ x) true (local_state_ x),
        (fun c => Init c SERVICE_AVAILABLE) <$> option_list (init_cb_ x)).

Definition tcu_drops (e : tcu_event) : option (list cmd) :=
  match e with
  | SetActivityState_Signal _ _ cb => Some (dispatchResponse_ cb SUBSYSTEM_UNAVAILABLE)
  | GetAllMachineNames_Signal p => Some [Settle (p, Some (NOTREADY, []))]
  | SendActivityStateAck_Signal _ _ => Some []
  | _ => None
  end.

(** An indication: its data decoded, or nothing. *)
Definition indication {A} (decode : json -> option A) (env : Envelope json) : outcome (option A) :=
  match data env with None => Done None | Some d => a ← or_die (decode d); Done (Some a) end.

Definition tcu_serves (n : nat) (e : tcu_event) (x : TcuMembers) : outcome (TcuMembers * list cmd) :=
  match e with
  | SetActivityState_Signal s m cb => Done (x, Send (SetState s m) :: dispatchResponse_ cb SUCCESS)
  | GetAllMachineNames_Signal p => Done (x, [Send (GetMachineNames p)])
  | SendActivityStateAck_Signal a s =>
      Done (x, [Oneway (SlaveAck a s (readLocalMachineName_ home (file_at n)))])
  | StateUpdateInd_Signal env =>
      i ← indication decode_state env;
      Done match i with
           | Some (s, m) =>
               (mkTcu (config_ x) (init_cb_ x) (init_cb_fired_ x) s,
                [Tell Clients [onTcuActivityStateUpdate s m; onTcuActivityStateUpdate_ s]])
           | None => (x, [])
           end
  | MachineUpdateInd_Signal env =>
      i ← indication decode_machine env;
      Done (x, match i with Some (m, e) => [Tell Clients [onMachineUpdate m e]] | None => [] end)
  | SlaveAckStatusInd_Signal env =>
      i ← indication decode_slave_ack env;
      Done (x, match i with
               | Some (s, m, u, n) => [Tell Clients [onSlaveAckStatusUpdate s m u n; onSlaveAckStatusUpdate_ s]]
               | None => []
               end)
  end.

(** The names in an answer; a member that is no string throws, and the promise goes
    with the function that held it. *)
Definition names_of (rsp : option (Envelope json)) : names_result :=
  match rsp with
  | Some env =>
      match error env, data env with
      | None, Some d => names ← decode_list "machineNames" as_string d; Some (SUCCESS_, names)
      | _, _ => Some (FAILED, [])
      end
  | None => Some (FAILED, [])
  end.

(** The answer to [set_state] is only logged. *)
Definition tcu_answers (r : tcu_message) (rsp : option (Envelope json)) : list cmd :=
  match r with GetMachineNames p => [Settle (p, names_of rsp)] | _ => [] end.

#[local] Instance tcu_ops :
    PowerOps json C L tcu_audience tcu_message tcu_call (P * names_result) TcuMembers tcu_event := {|
  pw_wire := tcu_wire_message;
  pw_entered := tcu_entered;
  pw_left := [Tell Services [onServiceStatusChange SERVICE_UNAVAILABLE]];
  pw_drops := tcu_drops;
  pw_serves := tcu_serves;
  pw_answers := tcu_answers |}.

Local Notation TcuManager := (PowerManager json C L tcu_audience tcu_message tcu_call (P * names_result) TcuMembers).
Local Notation AOTcu := (AOPower (json := json) (C := C) (L := L) (Au := tcu_audience) (R := tcu_message)
  (Call := tcu_call) (P := P * names_result) (X := TcuMembers) (Ev := tcu_event)).

Definition SimulaTcuActivityManager (config : ClientInstanceConfig) (initCb : option C) : TcuManager :=
  new_power (mkTcu config initCb false TCU_UNKNOWN).

(** ** The public interface *)

Definition getMachineName (file : string -> option string) : Status * string :=
  (SUCCESS_, readLocalMachineName_ home file).

(** Posts with a fresh promise, and waits. *)
Definition getAllMachineNames (p : P) : AOTcu -> Status * AOTcu := pw_post_if_ready (GetAllMachineNames_Signal p).
(** What it returns when it did post, by how it finds the future; [None]: [get]
    throws.  The names are the caller's, [names], unless it gets others. *)
Definition names_returned (f : future (Status * list string)) (names : list string) :
    option (Status * list string) :=
  match f with Ready r => Some r | NotInTime => Some (EXPIRED, names) | Broken => None end.

Definition setActivityState (s : TcuActivityState) (machine : string) (cb : option C) : AOTcu -> Status * AOTcu :=
  pw_post_if_ready (SetActivityState_Signal s machine cb).
Definition setActivityState_ (s : TcuActivityState) (cb : option C) : AOTcu -> Status * AOTcu :=
  setActivityState s LOCAL_MACHINE cb.
Definition sendActivityStateAck (a : StateChangeResponse) (s : TcuActivityState) : AOTcu -> Status * AOTcu :=
  pw_post_if_ready (SendActivityStateAck_Signal a s).
Definition sendActivityStateAck_ (a : TcuActivityStateAck) : AOTcu -> Status * AOTcu :=
  sendActivityStateAck ACK match a with SUSPEND_ACK => TCU_SUSPEND | SHUTDOWN_ACK => TCU_SHUTDOWN end.
(** Whatever machine it is asked for. *)
Definition getActivityState (machine : string) (m : TcuManager) : Z * TcuActivityState :=
  (SUCCESS, local_state_ (pw_own m)).
Definition setModemActivityState : Status := NOTSUPPORTED.
Definition onReady (c : AOTcu) : future bool := Ready (pw_isReadyDerived_ c).

Section States.
Context (topic : string -> string) (paId : string) (now_at counter_at : nat -> Z).
Context (alive_at : nat -> L -> bool).
Local Notation state_fn := (Event (power_event json tcu_event) -> TcuManager -> pw_result).

Definition NotReady_St : state_fn := pw_NotReady topic paId now_at counter_at alive_at.
Definition Ready_St : state_fn := pw_Ready topic paId now_at counter_at alive_at.
End States.

Definition tcu_subscriptions : list (string * (Envelope json -> power_event json tcu_event)) :=
  [("power.subsys_ready_tcu.ind", PwReadinessEvt_Signal);
   ("power.state_update.ind", fun env => PwOther (StateUpdateInd_Signal env));
   ("power.machine_update.ind", fun env => PwOther (MachineUpdateInd_Signal env));
   ("power.slave_ack_status.ind", fun env => PwOther (SlaveAckStatusInd_Signal env))].
End TcuActivityManager.

Arguments tcu_event : clear implicits.
Arguments tcu_message : clear implicits.
Arguments TcuMembers : clear implicits.
