(* ===== verification/Wakeup.v ===== *)
(** * The wakeup manager (power/WakeupManager)

    Tells its listeners what woke the system up: the smallest instance of the power
    managers' shell, with no requests.  Its listeners are service-status listeners
    by their type, but the manager never tells them of its status. *)

From S2P Require Import Prelude Hsm HsmSpec HsmProps ActiveObject Json Envelope InitGate Manager PowerShell.

Local Open Scope Z_scope.

Inductive WakeupType := WAKEUP_UNKNOWN | WAKEUP_QMI.

Record QmiWakeupInfo := mkQmi {
  serviceId : Z;
  sourceNodeId : Z;
  destinationNodeId : Z;
  isMsgIdValid : bool;
  msgId : Z;
  isPIDValid : bool;
  pid : Z;
  isProcessNameValid : bool;
  processName : string }.

(** Value-initialised. *)
Definition no_qmi : QmiWakeupInfo := mkQmi 0 0 0 false 0 false 0 false "".

Record WakeupInfo := mkWakeup { qmiWakeupInfo : QmiWakeupInfo; wakeupType : WakeupType }.

Section WakeupManager.
Context {json : Type} `{Json json, JsonValues json}.
Context {C L : Type} `{EqDecision L}.

Definition decodeQmiWakeupInfo (d : json) : option QmiWakeupInfo :=
  service ← value_uint "serviceId" 0 d;
  source ← value_uint "sourceNodeId" 0 d;
  destination ← value_uint "destinationNodeId" 0 d;
  msg_ok ← value_bool "isMsgIdValid" false d;
  msg ← value_uint "msgId" 0 d;
  pid_ok ← value_bool "isPIDValid" false d;
  p ← value_int "pid" 0 d;
  name_ok ← value_bool "isProcessNameValid" false d;
  name ← value_string "processName" "" d;
  Some (mkQmi service source destination msg_ok msg pid_ok p name_ok name).

Definition decode_wakeup (d : json) : option WakeupInfo :=
  t ← value_string "wakeupType" "" d;
  q ← match jat "qmiWakeupInfo" d with Some q => decodeQmiWakeupInfo q | None => Some no_qmi end;
  Some (mkWakeup q (if decide (t = "QMI") then WAKEUP_QMI else WAKEUP_UNKNOWN)).

Inductive wakeup_event := WakeupInd_Signal (env : Envelope json).
Inductive wakeup_call := onWakeup (info : WakeupInfo).

(** The init callback, until it has been called. *)
Record WakeupMembers := mkWakeupMembers { wk_init_cb_ : option C }.

Local Notation cmd := (power_cmd C unit Empty_set wakeup_call Empty_set).

Definition wakeup_entered (x : WakeupMembers) : WakeupMembers * list cmd :=
  (mkWakeupMembers None, (fun c => Init c SERVICE_AVAILABLE) <$> option_list (wk_init_cb_ x)).

Definition wakeup_serves (n : nat) (e : wakeup_event) (x : WakeupMembers) : outcome (WakeupMembers * list cmd) :=
  let '(WakeupInd_Signal env) := e in
  match data env with
  | None => Done (x, [])
  | Some d => info ← or_die (decode_wakeup d); Done (x, [Tell tt [onWakeup info]])
  end.

#[local] Instance wakeup_ops :
    PowerOps json C L unit Empty_set wakeup_call Empty_set WakeupMembers wakeup_event := {|
  pw_wire := fun r : Empty_set => match r with end;
  pw_entered := wakeup_entered;
  pw_left := [];
  pw_drops _ := None;
  pw_serves := wakeup_serves;
  pw_answers := fun (r : Empty_set) _ => match r with end |}.

Local Notation WakeupManager := (PowerManager json C L unit Empty_set wakeup_call Empty_set WakeupMembers).

Definition SimulaWakeupManager (initCb : option C) : WakeupManager := new_power (mkWakeupMembers initCb).

Section States.
Context (topic : string -> string) (paId : string) (now_at counter_at : nat -> Z).
Context (alive_at : nat -> L -> bool).
Local Notation state_fn := (Event (power_event json wakeup_event) -> WakeupManager -> pw_result).

Definition WakeupNotReady_St : state_fn := pw_NotReady topic paId now_at counter_at alive_at.
Definition WakeupReady_St : state_fn := pw_Ready topic paId now_at counter_at alive_at.
End States.

Definition wakeup_subscriptions : list (string * (Envelope json -> power_event json wakeup_event)) :=
  [("power.subsys_ready_wakeup.ind", PwReadinessEvt_Signal);
   ("power.wakeup.ind", fun env => PwOther (WakeupInd_Signal env))].
End WakeupManager.

Arguments wakeup_event : clear implicits.
Arguments WakeupMembers : clear implicits.
