(* ===== verification/PowerProps.v ===== *)
(** * Correctness of the power managers' shell

    The runs of a manager (its worker, the bridge's thread and clients' threads,
    move by move) against a specification that knows neither listeners nor logs:
    what each move commands, given whether the service is up, the manager's own
    members and how many messages it has sent. *)

From stdpp Require Import functions.
From S2P Require Import Prelude Hsm HsmSpec HsmProps ActiveObject Json Envelope InitGate Manager PowerShell.

Local Open Scope Z_scope.

Section PowerProps.
Context {json : Type} `{Json json, JsonValues json}.
Context {C L Au R Call P X Ev : Type} `{EqDecision L, EqDecision Au} `{ops : !PowerOps json C L Au R Call P X Ev}.
Context (topic : string -> string) (paId : string) (now_at counter_at : nat -> Z).
Context (alive_at : nat -> L -> bool).

Local Notation PowerManager := (PowerManager json C L Au R Call P X).
Local Notation power_event := (power_event json Ev).
Local Notation power_cmd := (power_cmd C Au R Call P).
Local Notation power_effect := (power_effect json C L Au R Call P).
Local Notation handler := (pw_handler topic paId now_at counter_at alive_at (ops := ops)).
Local Notation exec := (pw_exec topic paId now_at counter_at alive_at (ops := ops)).
Local Notation exec1 := (pw_exec1 topic paId now_at counter_at alive_at (ops := ops)).
Implicit Types m : PowerManager.

(** ** The specification *)

(** What an event reports of the service. *)
Definition pw_report (e : power_event) : option bool :=
  match e with
  | PwReadinessEvt_Signal env => status_report ["UNAVAILABLE"] env
  | PwConnectivityChanged_Signal false => Some false
  | _ => None
  end.

Definition pw_leaf (up : bool) : power_state := if up then PwReady_St else PwNotReady_St.
Definition pw_is_up (leaf : power_state) : bool :=
  match leaf with PwReady_St => true | PwNotReady_St => false end.

Record pw_view := mkPwView { v_up : bool; v_own : X; v_sent : nat }.
Definition pw_view_of (up : bool) m : pw_view := mkPwView up (pw_own m) (pw_sent m).

(** An event, given those: readiness and members after it, and its commands. *)
Definition pw_event_does (v : pw_view) (e : power_event) : bool * X * list power_cmd :=
  let '(mkPwView up x n) := v in
  match e with
  | PwOther e =>
      if up then match pw_serves n e x with Done (x', cs) => (up, x', cs) | Fail _ => (up, x, []) end
      else (up, x, default [] (pw_drops e))
  | _ =>
      match up, pw_report e with
      | false, Some true => let '(x', cs) := pw_entered x in (true, x', cs)
      | true, Some false => (false, x, pw_left ops)
      | _, _ => (up, x, [])
      end
  end.

(** Moves: the worker processes an event, the bridge's thread delivers an answer, a
    client's thread registers a listener or withdraws one. *)
Inductive pw_move :=
  | PwProcess (e : power_event)
  | PwReply (r : R) (rsp : option (Envelope json))
  | PwRegister (to : Au) (l : L)
  | PwDeregister (to : Au) (l : L).

Definition pw_move_does (v : pw_view) (mv : pw_move) : bool * X * list power_cmd :=
  match mv with
  | PwProcess e => pw_event_does v e
  | PwReply r rsp => (v_up v, v_own v, pw_answers r rsp)
  | _ => (v_up v, v_own v, [])
  end.

Definition message_of (c : power_cmd) : option R := match c with Send r | Oneway r => Some r | _ => None end.

Definition pw_after (v : pw_view) (mv : pw_move) : pw_view :=
  let '(up, x, cs) := pw_move_does v mv in mkPwView up x (v_sent v + length (omap message_of cs)).

Fixpoint pw_spec_run (mvs : list pw_move) (v : pw_view) : list power_cmd * pw_view :=
  match mvs with
  | [] => ([], v)
  | mv :: mvs => let '(cs, v') := pw_spec_run mvs (pw_after v mv) in ((pw_move_does v mv).2 ++ cs, v')
  end.

(** ** The manager *)

Definition pw_move_step (mv : pw_move) (s : bool * PowerManager) : outcome (bool * PowerManager) :=
  let '(up, m) := s in
  match mv with
  | PwProcess e =>
      '(leaf, m) ← chart_step handler pw_lineage (pw_leaf up) e m; Done (pw_is_up leaf, m)
  | PwReply r rsp => Done (up, pw_reply topic paId now_at counter_at alive_at r rsp m)
  | PwRegister to l => Done (up, snd (pw_register to l m))
  | PwDeregister to l => Done (up, snd (pw_deregister alive_at to l m))
  end.
Definition pw_run := run pw_move_step.

(** What was done, notifications apart, and what a listener was told. *)
Definition effect_cmd (e : power_effect) : option power_cmd :=
  match e with
  | PwRequest r _ _ _ _ => Some (Send r)
  | PwPublish r _ _ _ => Some (Oneway r)
  | PwInit c s => Some (Init c s)
  | PwResponse c code => Some (Respond c code)
  | PwTask _ _ _ => None
  | PwSettle p => Some (Settle p)
  end.
Definition pw_quiet (c : power_cmd) : option power_cmd := match c with Tell _ _ => None | _ => Some c end.
Definition pw_done m : list power_cmd := omap effect_cmd (pw_log m).

Definition task_calls (to : Au) (l : L) (e : power_effect) : list Call :=
  match e with PwTask to' ls calls => if decide (to' = to /\ l ∈ ls) then calls else [] | _ => [] end.
Definition pw_told (to : Au) (l : L) m : list Call := pw_log m ≫= task_calls to l.
Definition tell_calls (to : Au) (c : power_cmd) : list Call :=
  match c with Tell to' calls => if decide (to' = to) then calls else [] | _ => [] end.

Definition pw_listening (to : Au) (l : L) m : Prop := (forall n, alive_at n l = true) /\ l ∈ pw_listeners m to.

Lemma pw_exec1_members c m : pw_listeners (exec1 m c) = pw_listeners m /\ pw_own (exec1 m c) = pw_own m.
Proof.
  destruct c as [r|r| | |to calls|]; simpl; try (destruct (pw_wire r) as [[? ?] ?]); try done.
  unfold pw_broadcast. by case_decide.
Qed.
Lemma pw_exec_members cs m : pw_listeners (exec cs m) = pw_listeners m /\ pw_own (exec cs m) = pw_own m.
Proof.
  revert m. induction cs as [|c cs IH]; intros m; [done|]. simpl.
  destruct (IH (exec1 m c)) as [-> ->]. apply pw_exec1_members.
Qed.

Lemma exec_done cs m : pw_done (exec cs m) = pw_done m ++ omap pw_quiet cs.
Proof.
  revert m. induction cs as [|c cs IH]; intros m; simpl; [by rewrite app_nil_r|].
  rewrite IH. unfold pw_done.
  destruct c as [r|r| | |to calls|]; simpl; try (destruct (pw_wire r) as [[? ?] ?]); simpl;
    rewrite ?omap_app; simpl; rewrite <- ?app_assoc; try done.
  unfold pw_broadcast. case_decide; simpl; [done|]. by rewrite omap_app, app_nil_r.
Qed.

Lemma sent_done m : pw_sent m = length (omap message_of (pw_done m)).
Proof.
  unfold pw_sent, pw_done. induction (pw_log m) as [|e l IH]; [done|].
  destruct e; csimpl; by rewrite ?IH.
Qed.

Lemma quiet_messages (cs : list power_cmd) : omap message_of (omap pw_quiet cs) = omap message_of cs.
Proof. induction cs as [|[] cs IH]; csimpl; by rewrite ?IH. Qed.

Lemma exec_told to l cs m : pw_listening to l m -> pw_told to l (exec cs m) = pw_told to l m ++ (cs ≫= tell_calls to).
Proof.
  revert m. induction cs as [|c cs IH]; intros m Hl; [by rewrite app_nil_r|].
  rewrite bind_cons. change (exec (c :: cs) m) with (exec cs (exec1 m c)).
  rewrite IH by (destruct Hl; split; [done|by destruct (pw_exec1_members c m) as [-> _]]).
  rewrite app_assoc. f_equal. unfold pw_told.
  destruct c as [r|r| | |to' calls|]; simpl; try (destruct (pw_wire r) as [[? ?] ?]); simpl;
    rewrite ?bind_app; simpl; rewrite ?app_nil_r; try done.
  unfold pw_broadcast. destruct Hl as [Ha Hl]. case_decide as He.
  - rewrite decide_False; [by rewrite app_nil_r|]. intros ->.
    assert (Hin : l ∈ locked (alive_at (pw_looks m)) (pw_listeners m to))
      by (unfold locked; rewrite list_elem_of_filter; auto).
    rewrite He in Hin. by apply not_elem_of_nil in Hin.
  - cbn [pw_log pw_emit pw_look]. rewrite bind_app, bind_singleton. f_equal. simpl. destruct (decide (to' = to)) as [->|Hne].
    + rewrite decide_True; [done|]. split; [done|]. unfold locked. rewrite list_elem_of_filter. auto.
    + rewrite decide_False; [done|]. by intros [].
Qed.

Record move_done (v : pw_view) (mv : pw_move) m (up' : bool) m' : Prop := {
  md_done : pw_done m' = pw_done m ++ omap pw_quiet (pw_move_does v mv).2;
  md_view : pw_view_of up' m' = pw_after v mv;
  md_told to l : mv <> PwDeregister to l -> pw_listening to l m ->
    pw_listening to l m' /\ pw_told to l m' = pw_told to l m ++ ((pw_move_does v mv).2 ≫= tell_calls to) }.

(** Members set silently, then commands. *)
Lemma pw_exec_move up mv m up' x :
  let v := pw_view_of up m in
  (pw_move_does v mv).1 = (up', x) ->
  move_done v mv m up' (exec (pw_move_does v mv).2 (pw_set_own x m)).
Proof.
  intros v Hv. destruct (pw_exec_members (pw_move_does v mv).2 (pw_set_own x m)) as [Hl Ho]. split.
  - by rewrite exec_done.
  - unfold pw_after, pw_view_of. rewrite Ho, sent_done, exec_done, omap_app, length_app, quiet_messages.
    change (pw_done (pw_set_own x m)) with (pw_done m). rewrite <- sent_done.
    destruct (pw_move_does v mv) as [[u y] cs]. simpl in *. by injection Hv as -> ->.
  - intros to l _ Hli. split; [destruct Hli; split; [done|]; by rewrite Hl|]. by rewrite exec_told.
Qed.

Lemma pw_chart_step up e m leaf m' :
  chart_step handler pw_lineage (pw_leaf up) e m = Done (leaf, m') ->
  let '(up', x, cs) := pw_event_does (pw_view_of up m) e in
  leaf = pw_leaf up' /\ m' = exec cs (pw_set_own x m).
Proof.
  assert (Hid : forall m0, pw_set_own (pw_own m0) m0 = m0) by (by intros []).
  destruct up, e as [env|b|x]; cbn -[pw_entry pw_exit status_report]; unfold status_report, says.
  - destruct (data env) as [d|]; simpl; [|intros [= <- <-]; by rewrite Hid].
    destruct (value_string "status" "" d) as [s|]; simpl; [|done].
    destruct (bool_decide_reflect (s = "UNAVAILABLE")) as [->|Hn]; simpl; [intros [= <- <-]; by rewrite Hid|].
    intros [= <- <-]. case_decide; [by rewrite Hid|]. rewrite decide_False by set_solver. by rewrite Hid.
  - destruct b; simpl; intros [= <- <-]; by rewrite Hid.
  - unfold pw_serve. destruct (pw_serves (pw_sent m) x (pw_own m)) as [[x' cs]|]; [|done]. by intros [= <- <-].
  - destruct (data env) as [d|]; simpl; [|intros [= <- <-]; by rewrite Hid].
    destruct (value_string "status" "" d) as [s|]; simpl; [|done].
    destruct (bool_decide_reflect (s = "AVAILABLE")) as [->|Hn]; simpl.
    + intros [= <- <-]. unfold pw_entry. by destruct (pw_entered (pw_own m)).
    + intros [= <- <-]. rewrite decide_False by done. case_decide; by rewrite Hid.
  - intros [= <- <-]. destruct b; by rewrite Hid.
  - destruct (pw_drops x); simpl; intros [= <- <-]; by rewrite Hid.
Qed.

Lemma pw_move_done up mv m up' m' :
  pw_move_step mv (up, m) = Done (up', m') -> move_done (pw_view_of up m) mv m up' m'.
Proof.
  assert (Hid : pw_set_own (pw_own m) m = m) by (by destruct m).
  destruct mv as [e|r rsp|to l|to l]; cbn [pw_move_step].
  - intros ([leaf m1] & Hs & [= <- <-])%bind_done'. apply pw_chart_step in Hs.
    pose proof (pw_exec_move up (PwProcess e) m) as Hx. cbn [pw_move_does] in Hx.
    destruct (pw_event_does (pw_view_of up m) e) as [[u x] cs]. destruct Hs as [-> ->].
    replace (pw_is_up (pw_leaf u)) with u by (by destruct u). by apply Hx.
  - intros [= <- <-]. unfold pw_reply. rewrite <- Hid at 3. by apply (pw_exec_move up (PwReply r rsp)).
  - intros [= <- <-]. split.
    + by rewrite app_nil_r.
    + unfold pw_after, pw_view_of. simpl. by rewrite Nat.add_0_r.
    + intros to' l' _ [Ha Hl]. rewrite app_nil_r. split; [split; [done|]|done]. simpl.
      destruct (decide (to = to')) as [->|Hne]; [rewrite fn_lookup_insert; set_solver|by rewrite fn_lookup_insert_ne].
  - intros [= <- <-]. split.
    + by rewrite app_nil_r.
    + unfold pw_after, pw_view_of. simpl. by rewrite Nat.add_0_r.
    + intros to' l' Hne [Ha Hl]. rewrite app_nil_r. split; [split; [done|]|done]. simpl.
      destruct (decide (to = to')) as [->|?]; [|by rewrite fn_lookup_insert_ne].
      rewrite fn_lookup_insert. unfold reap. rewrite list_elem_of_filter. split; [|done].
      split; [done|]. intros [_ ->]. by apply Hne.
Qed.

Lemma pw_run_done mvs up m up' m' :
  pw_run mvs (up, m) = Done (up', m') ->
  let '(cs, v) := pw_spec_run mvs (pw_view_of up m) in
  pw_done m' = pw_done m ++ omap pw_quiet cs /\ pw_view_of up' m' = v /\
  (forall to l, PwDeregister to l ∉ mvs -> pw_listening to l m ->
     pw_told to l m' = pw_told to l m ++ (cs ≫= tell_calls to)).
Proof.
  revert up m. induction mvs as [|mv mvs IH]; intros up m; simpl.
  { intros [= <- <-]. simpl. rewrite app_nil_r. split; [done|]. split; [done|]. intros to l _ _. by rewrite app_nil_r. }
  intros ([up1 m1] & Hs & Hr)%bind_done'. destruct (pw_move_done _ _ _ _ _ Hs) as [Hd Hv Ht].
  apply IH in Hr. rewrite Hv in Hr. destruct (pw_spec_run mvs (pw_after (pw_view_of up m) mv)) as [cs v].
  destruct Hr as (H1 & H2 & H3). split; [by rewrite H1, Hd, omap_app, app_assoc|]. split; [done|].
  intros to l Hni Hl. apply not_elem_of_cons in Hni as [Hne Hni].
  destruct (Ht to l) as [Hl1 Ht1]; [done|done|]. by rewrite H3, Ht1, bind_app, app_assoc by done.
Qed.

(** ** The shell's interface *)

#[local] Instance power_shell : ReadyShell handler pw_lineage PwNotReady_St PwReady_St pw_report.
Proof.
  split; [done|]. intros leaf e m leaf' m' Hl Hs.
  assert (Hu : leaf = pw_leaf (pw_is_up leaf)) by (by destruct leaf). rewrite Hu in Hs.
  apply pw_chart_step in Hs. revert Hs. destruct leaf; simpl; (destruct e as [env|[]|x]; simpl;
    [destruct (status_report _ env) as [[]|]| | |]); try (by intros [-> _]);
    try (destruct (pw_entered (pw_own m)); by intros [-> _]).
  destruct (pw_serves _ _ _) as [[? ?]|]; by intros [-> _].
Qed.
End PowerProps.

(** Readiness of the power managers (TCU activity, wakeup). Under every
    interleaving of the worker with the threads that post to it, such a manager is
    in Ready exactly when the last report it processed (a readiness indication, or
    the loss of the bridge's connection) said that the modem's service is
    available, and the status clients read off its chart is "available" exactly
    then: no flag of its own can disagree with the chart. *)
Theorem power_status {json} `{Json json, JsonValues json} {C L Au R Call P X Ev}
    `{EqDecision L, EqDecision Au} `{ops : !PowerOps json C L Au R Call P X Ev}
    (topic : string -> string) (paId : string) (now_at counter_at : nat -> Z)
    (alive_at : nat -> L -> bool) (ndebug : bool)
    (h : Hsm power_state (power_event json Ev) (PowerManager json C L Au R Call P X))
    (c : AO power_state (power_event json Ev) (PowerManager json C L Au R Call P X)) :
  state_ h = st PwNotReady_St ->
  rtc (steps (pw_handler topic paId now_at counter_at alive_at) ndebug pw_outbox pw_flush) (started h) c ->
  let up := last_report pw_report (payload <$> done c) in
  state_ (hsm c) = st (pw_leaf up) /\ pw_isReadyDerived_ c = up /\
  (pw_getServiceStatus c = SERVICE_AVAILABLE <-> up = true).
Proof.
  intros Hst Hr up.
  pose proof (power_shell topic paId now_at counter_at alive_at) as Hsh.
  pose proof (shell_reach _ pw_lineage ndebug pw_outbox pw_flush (parent := pw_parent) (swallow := pw_swallow)
    PwNotReady_St PwReady_St pw_report h c Hst Hr) as Hleaf.
  fold up in Hleaf. assert (Hs : state_ (hsm c) = st (pw_leaf up)) by (rewrite Hleaf; by destruct up).
  unfold pw_getServiceStatus, pw_isReadyDerived_. rewrite Hs. split; [done|]. by destruct up.
Qed.

(** Listeners of the power managers. A listener of either kind that stays alive
    is told, from its registration to its withdrawal, exactly the calls that the
    specification [pw_spec_run] makes to that kind, in order and none twice; and
    what the manager does besides (requests, acknowledgements, callbacks, promises),
    its readiness and its own members are the specification's too, which knows
    neither listeners nor tasks. *)
Theorem power_listeners_told {json} `{Json json, JsonValues json} {C L Au R Call P X Ev}
    `{EqDecision L, EqDecision Au} `{ops : !PowerOps json C L Au R Call P X Ev}
    (topic : string -> string) (paId : string) (now_at counter_at : nat -> Z)
    (alive_at : nat -> L -> bool) (to : Au) (l : L) (post : list pw_move) (up1 up : bool)
    (m1 m : PowerManager json C L Au R Call P X) :
  (forall n, alive_at n l = true) -> PwDeregister to l ∉ post ->
  pw_run topic paId now_at counter_at alive_at (PwRegister to l :: post) (up1, m1) = Done (up, m) ->
  let '(cs, v) := pw_spec_run post (pw_view_of up1 m1) in
  pw_told to l m = pw_told to l m1 ++ (cs ≫= tell_calls to) /\
  pw_done m = pw_done m1 ++ omap pw_quiet cs /\ pw_view_of up m = v.
Proof.
  intros Ha Hni Hr. change (pw_run topic paId now_at counter_at alive_at post (up1, snd (pw_register to l m1)) =
    Done (up, m)) in Hr. apply pw_run_done in Hr.
  change (pw_view_of up1 (snd (pw_register to l m1))) with (pw_view_of up1 m1) in Hr.
  destruct (pw_spec_run post (pw_view_of up1 m1)) as [cs v]. destruct Hr as (H1 & H2 & H3).
  split; [|done]. apply H3; [done|]. split; [done|]. simpl. rewrite fn_lookup_insert. set_solver.
Qed.
