(* ===== verification/TcuProps.v ===== *)
(** * Correctness of the TCU activity manager

    What a manager does in every run, by what was asked of it and what it was told:
    read off the specification of the power managers' shell. *)

From S2P Require Import Prelude Hsm HsmSpec HsmProps ActiveObject Json Envelope InitGate Manager TelWire PowerShell Tcu PowerProps.

Local Open Scope Z_scope.

(** A machine's name is never empty and never ends in a blank; a line that does not
    is the name. *)
Lemma machine_name home file :
  let name := readLocalMachineName_ home file in
  name <> "" /\
  (forall a, last (String.list_ascii_of_string name) = Some a -> trailing a = false) /\
  (forall h text, home = Some h -> file (h +:+ "/.machine_name") = Some text -> getline text <> "" ->
     (forall a, last (String.list_ascii_of_string (getline text)) = Some a -> trailing a = false) ->
     name = getline text).
Proof.
  unfold readLocalMachineName_.
  assert (Hmdm : forall a, last (String.list_ascii_of_string "mdm") = Some a -> trailing a = false) by (by intros a [= <-]).
  destruct home as [h|]; [|split; [done|]; split; [exact Hmdm|done]].
  destruct (file (h +:+ "/.machine_name")) as [text|] eqn:Hf.
  2: { split; [done|]. split; [exact Hmdm|]. intros ? ? [= <-]. by rewrite Hf. }
  cbv zeta. case_decide as He.
  - split; [done|]. split; [exact Hmdm|]. intros ? ? [= <-]. rewrite Hf. intros [= <-] Hne Hc.
    by rewrite pop_back_id in He.
  - split; [done|]. split; [apply pop_back_clean|]. intros ? ? [= <-]. rewrite Hf. intros [= <-] _ Hc.
    by rewrite pop_back_id.
Qed.

Section TcuProps.
Context {json : Type} `{Json json, JsonValues json}.
Context {C L P : Type} `{EqDecision L} (home : option string) (file_at : nat -> string -> option string).

Local Notation tcu_event := (tcu_event json C P).
Local Notation tcu_message := (tcu_message P).
Local Notation move := (pw_move (json := json) (L := L) (Au := tcu_audience) (R := tcu_message) (Ev := tcu_event)).
Local Notation cmd := (power_cmd C tcu_audience tcu_message tcu_call (P * names_result)).
Local Notation view := (pw_view (X := TcuMembers C)).
Local Notation ops := (tcu_ops (json := json) (C := C) (L := L) (P := P) home file_at).
Local Notation after := (pw_after (ops := ops)).
Local Notation does := (pw_move_does (ops := ops)).
Local Notation spec_run := (pw_spec_run (ops := ops)).

(** ** What a run asks for *)

Definition up_after (up : bool) (mv : move) : bool :=
  match mv with PwProcess e => default up (pw_report e) | _ => up end.

(** The message a move sends, given how many were sent before. *)
Definition sends (up : bool) (mv : move) : option (nat -> tcu_message) :=
  match mv with
  | PwProcess (PwOther e) =>
      if up then
        match e with
        | SetActivityState_Signal s machine _ => Some (fun _ => SetState s machine)
        | GetAllMachineNames_Signal p => Some (fun _ => GetMachineNames p)
        | SendActivityStateAck_Signal a s => Some (fun n => SlaveAck a s (readLocalMachineName_ home (file_at n)))
        | _ => None
        end
      else None
  | _ => None
  end.

(** The callback of [setActivityState] a move has called, and with what. *)
Definition responds (up : bool) (mv : move) : option (C * Z) :=
  match mv with
  | PwProcess (PwOther (SetActivityState_Signal _ _ (Some c))) =>
      Some (c, if up then SUCCESS else SUBSYSTEM_UNAVAILABLE)
  | _ => None
  end.

(** The promise a move settles: refused at once, or by the modem's answer. *)
Definition settles (up : bool) (mv : move) : option (P * names_result) :=
  match mv with
  | PwProcess (PwOther (GetAllMachineNames_Signal p)) => if up then None else Some (p, Some (NOTREADY, []))
  | PwReply (GetMachineNames p) rsp => Some (p, names_of rsp)
  | _ => None
  end.

(** The power state a move reports. *)
Definition reports_state (up : bool) (mv : move) : option TcuActivityState :=
  match mv with
  | PwProcess (PwOther (StateUpdateInd_Signal env)) =>
      if up then fst <$> (d ← data env; decode_state d) else None
  | _ => None
  end.

Definition comes_up (up : bool) (mv : move) : option unit := if negb up && up_after up mv then Some tt else None.

Definition response_of (c : cmd) : option (C * Z) := match c with Respond c code => Some (c, code) | _ => None end.
Definition init_of (c : cmd) : option (C * ServiceStatus) := match c with Init c s => Some (c, s) | _ => None end.
Definition settled (c : cmd) : option (P * names_result) := match c with Settle r => Some r | _ => None end.

(** ** One move of the specification *)

Record tcu_moved (v : view) (mv : move) : Prop := {
  tm_up : v_up (after v mv) = up_after (v_up v) mv;
  tm_sent : omap message_of (does v mv).2 = option_list ((fun f => f (v_sent v)) <$> sends (v_up v) mv);
  tm_responses : omap response_of (does v mv).2 = option_list (responds (v_up v) mv);
  tm_settled : omap settled (does v mv).2 = option_list (settles (v_up v) mv);
  tm_inits : omap init_of (does v mv).2 =
    match comes_up (v_up v) mv with
    | Some _ => if init_cb_fired_ (v_own v) then []
                else (fun c => (c, SERVICE_AVAILABLE)) <$> option_list (init_cb_ (v_own v))
    | None => []
    end;
  tm_fired : init_cb_fired_ (v_own (after v mv)) =
    init_cb_fired_ (v_own v) || negb (v_up v) && up_after (v_up v) mv;
  tm_init : init_cb_ (v_own (after v mv)) = init_cb_ (v_own v);
  tm_state : local_state_ (v_own (after v mv)) = default (local_state_ (v_own v)) (reports_state (v_up v) mv) }.

Lemma indication_done {A} (decode : json -> option A) (env : Envelope json) i :
  indication decode env = Done i -> i = (d ← data env; decode d).
Proof.
  unfold indication. destruct (data env) as [d|]; [|by intros [= <-]]. simpl.
  by intros (a & ->%or_die_done & [= <-])%bind_done'.
Qed.

(** An event of the shell. *)
Lemma tcu_shell_move v (e : power_event json tcu_event) :
  (forall x, e <> PwOther x) -> tcu_moved v (PwProcess e).
Proof.
  intros He. destruct v as [up x n].
  assert (Hs : sends up (PwProcess e) = None /\ responds up (PwProcess e) = None /\
    settles up (PwProcess e) = None /\ reports_state up (PwProcess e) = None)
    by (destruct e as [| |y]; [done|done|by destruct (He y)]).
  destruct Hs as (H1 & H2 & H3 & H4).
  assert (Hd : does (mkPwView up x n) (PwProcess e) =
    match up, pw_report e with
    | false, Some true => (true, (tcu_entered (P := P) x).1, (tcu_entered (P := P) x).2)
    | true, Some false => (false, x, [Tell Services [onServiceStatusChange SERVICE_UNAVAILABLE]])
    | _, _ => (up, x, [])
    end).
  { destruct e as [env|b|y]; [| |by destruct (He y)]; simpl; destruct up; try (by destruct b);
      (destruct (status_report _ env) as [[]|]; simpl; try done; by destruct (tcu_entered (P := P) x)). }
  split; unfold pw_after, comes_up, up_after; rewrite ?Hd; cbn [v_up v_own v_sent]; rewrite ?H1, ?H2, ?H3, ?H4;
    destruct up, (pw_report e) as [[]|]; try done; cbn [negb andb default fst snd from_option];
    rewrite ?orb_false_r; try done; unfold tcu_entered; destruct (init_cb_fired_ x) eqn:Hf, (init_cb_ x) eqn:Hi; simpl;
    rewrite ?Hf, ?Hi; done.
Qed.

Ltac fired := try match goal with |- context [init_cb_fired_ ?x || _] => by destruct (init_cb_fired_ x) end.

Lemma tcu_move v mv : tcu_moved v mv.
Proof.
  destruct mv as [e|r rsp|to l|to l].
  2: destruct v as [[] x n], r; split; cbn; by rewrite ?orb_false_r.
  2, 3: destruct v as [[] x n]; split; cbn; by rewrite ?orb_false_r.
  destruct e as [env|b|e]; [by apply tcu_shell_move|by apply tcu_shell_move|].
  destruct v as [up x n].
  assert (Hc : comes_up up (PwProcess (PwOther e)) = None) by (by destruct up).
  destruct up.
  - destruct (tcu_serves home file_at n e x) as [[x' cs]|] eqn:Hs.
    + assert (Hd : does (mkPwView true x n) (PwProcess (PwOther e)) = (true, x', cs)) by (simpl; by rewrite Hs).
      split; unfold pw_after; rewrite ?Hd; cbn [v_up v_own v_sent fst snd]; rewrite ?Hc; clear Hd; fired;
      (destruct e as [s m cb|p|a s|env|env|env]; simpl in Hs;
       [injection Hs as <- <-; fired; by destruct cb|injection Hs as <- <-; by fired|injection Hs as <- <-; by fired| | |];
       apply bind_done' in Hs as (i & Hi%indication_done & Hs); cbn [sends responds settles reports_state];
       rewrite <- ?Hi; destruct i as [y|]; repeat match goal with y : _ * _ |- _ => destruct y end;
       injection Hs as <- <-; by fired).
    + assert (Hd : does (mkPwView true x n) (PwProcess (PwOther e)) = (true, x, [])) by (simpl; by rewrite Hs).
      split; unfold pw_after; rewrite ?Hd; cbn [v_up v_own v_sent fst snd]; rewrite ?Hc; clear Hd; fired;
      (destruct e as [s m cb|p|a s|env|env|env]; try done; simpl in *; unfold indication in Hs;
       destruct (data env) as [d|]; simpl in *; try done; by destruct (decode_state d)).
  - assert (Hd : does (mkPwView false x n) (PwProcess (PwOther e)) = (false, x, default [] (tcu_drops e))) by done.
    split; unfold pw_after; rewrite ?Hd; cbn [v_up v_own v_sent fst snd]; rewrite ?Hc; clear Hd; fired; try done;
    (destruct e as [s m [c|]|p|a s|env|env|env]; done).
Qed.

(** ** Runs *)

Local Notation heard := (heard up_after).

Record tcu_ran (mvs : list move) (v : view) : Prop := {
  tr_sent : omap message_of (spec_run mvs v).1 =
    imap (fun i f => f (v_sent v + i)%nat) (heard sends (v_up v) mvs);
  tr_responses : omap response_of (spec_run mvs v).1 = heard responds (v_up v) mvs;
  tr_settled : omap settled (spec_run mvs v).1 = heard settles (v_up v) mvs;
  tr_inits : omap init_of (spec_run mvs v).1 =
    match heard comes_up (v_up v) mvs with
    | _ :: _ => if init_cb_fired_ (v_own v) then []
                else (fun c => (c, SERVICE_AVAILABLE)) <$> option_list (init_cb_ (v_own v))
    | [] => []
    end;
  tr_state : local_state_ (v_own (spec_run mvs v).2) =
    default (local_state_ (v_own v)) (last (heard reports_state (v_up v) mvs)) }.

Lemma tcu_run mvs v : tcu_ran mvs v.
Proof.
  revert v. induction mvs as [|mv mvs IH]; intros v; [by split|].
  destruct (tcu_move v mv) as [Hu Hs Hr Ht Hi Hf Hc Hl]. destruct (IH (after v mv)) as [IHs IHr IHt IHi IHl].
  rewrite Hu in IHs, IHr, IHt, IHi, IHl.
  assert (Hn : v_sent (after v mv) = (v_sent v + length (option_list (sends (v_up v) mv)))%nat).
  { unfold pw_after. destruct (does v mv) as [[u x] cs]. simpl in *. rewrite Hs. by destruct (sends (v_up v) mv). }
  split; cbn [pw_spec_run]; destruct (spec_run mvs (after v mv)) as [cs v']; cbn [fst snd] in *;
    rewrite ?omap_app; cbn [Manager.heard].
  - rewrite Hs, IHs, Hn. destruct (sends (v_up v) mv) as [f|]; simpl.
    + rewrite Nat.add_0_r. f_equal. apply imap_ext. intros i f' _. simpl. f_equal. lia.
    + apply imap_ext. intros i f' _. f_equal. lia.
  - by rewrite Hr, IHr.
  - by rewrite Ht, IHt.
  - rewrite Hi, IHi, Hf, Hc. assert (Hcu : comes_up (v_up v) mv = if negb (v_up v) && up_after (v_up v) mv then Some tt else None) by done.
    rewrite Hcu. destruct (negb (v_up v) && up_after (v_up v) mv); simpl.
    + rewrite orb_true_r. destruct (init_cb_fired_ (v_own v)), (heard comes_up (up_after (v_up v) mv) mvs); by rewrite ?app_nil_r.
    + by rewrite orb_false_r.
  - rewrite IHl, Hl. destruct (reports_state (v_up v) mv) as [s|]; simpl; [|done].
    rewrite last_cons. by destruct (last _).
Qed.
End TcuProps.


(** What [getAllMachineNames] returns. Nothing is asked when the service is not
    there; a failure, an error or an answer without data is "failed" with no names;
    the modem's list is returned as it is, in order, and a missing list is empty; a
    name that is no string makes the call itself throw, its promise gone; an answer
    that takes too long is "expired" and leaves the caller's names alone. *)
Theorem machine_names_outcome {json} `{JsonSpec json, !JsonValues json, !JsonValuesSpec json} {C L P} `{EqDecision L}
    (names ns : list string) (env : Envelope json) (ms : list (string * json)) :
  let got rsp := match names_of rsp with
                 | Some r => names_returned (Ready r) names
                 | None => names_returned Broken names
                 end in
  got None = Some (FAILED, []) /\
  (is_Some (error env) \/ data env = None -> got (Some env) = Some (FAILED, [])) /\
  (error env = None -> data env = Some (jobj ms) ->
     (member "machineNames" ms = Some (of_array (of_string <$> ns)) -> got (Some env) = Some (SUCCESS_, ns)) /\
     (member "machineNames" ms = None -> got (Some env) = Some (SUCCESS_, [])) /\
     (forall l j, member "machineNames" ms = Some (of_array l) -> j ∈ l -> is_string j = false ->
        got (Some env) = None)) /\
  names_returned NotInTime names = Some (EXPIRED, names) /\
  (forall (p : P) (c : AO power_state (power_event json (tcu_event json C P))
       (PowerManager json C L tcu_audience (tcu_message P) tcu_call (P * names_result) (TcuMembers C))),
     pw_getServiceStatus c = SERVICE_UNAVAILABLE -> getAllMachineNames p c = (NOTREADY, c)).
Proof.
  intros got. split; [done|]. split; [|split; [|split]].
  - intros [[e He]|Hd]; unfold got, names_of; [by rewrite He|]. rewrite Hd. by destruct (error env).
  - intros He Hd. unfold got, names_of. rewrite He, Hd. split; [|split].
    + intros Hm. rewrite (decode_list_read _ _ of_string ns); [done| |].
      * unfold value_json. by rewrite (read_as Some _ _ _ _ Hm).
      * apply Forall_forall. intros s _. unfold as_string. by rewrite of_string_is, of_string_get.
    + intros Hm. unfold decode_list, value_json. rewrite read_absent by done. simpl. by rewrite elements_jarray.
    + intros l j Hm Hj Hs. unfold decode_list, value_json. rewrite (read_as Some _ _ _ _ Hm). simpl.
      rewrite of_array_elements. replace (mapM as_string l) with (@None (list string)); [done|].
      symmetry. apply mapM_None. apply Exists_exists. exists j. split; [done|]. unfold as_string. by rewrite Hs.
  - done.
  - intros p c Hst. unfold getAllMachineNames, pw_post_if_ready. unfold pw_getServiceStatus in Hst.
    by destruct (pw_isReadyDerived_ c).
Qed.

(** ** A master at work *)

Module TcuDemo.
Definition topic_ (name : string) : string := "telaf/" +:+ name.
Definition clock_ (n : nat) : Z := 1000 + Z.of_nat n.
Definition alive_ (n : nat) (l : nat) : bool := true.
Definition file_ (n : nat) (path : string) : option string :=
  if decide (path = "/home/root/.machine_name") then Some (String.append "vm1  " (String (Ascii.ascii_of_nat 10) "x")) else None.
Definition Ma : Type :=
  PowerManager jval string nat tcu_audience (tcu_message nat) tcu_call (nat * names_result) (TcuMembers string).
Definition Ev : Type := power_event jval (tcu_event jval string nat).
Definition Mv : Type := pw_move (json := jval) (L := nat) (Au := tcu_audience) (R := tcu_message nat)
  (Ev := tcu_event jval string nat).
Definition ops : PowerOps jval string nat tcu_audience (tcu_message nat) tcu_call (nat * names_result)
    (TcuMembers string) (tcu_event jval string nat) := tcu_ops (Some "/home/root") file_.

Definition env (ms : list (string * jval)) : Envelope jval :=
  mkEnvelope 1 "0000000a" 7 "mpss" None (Some (jobj ms)) None.
Definition status (s : string) : Ev := PwReadinessEvt_Signal (env [("status", JString s)]).
Definition state (s : string) : Ev :=
  PwOther (StateUpdateInd_Signal (env [("state", JString s); ("machineName", JString "vm1")])).
Definition set (s : TcuActivityState) (c : string) : Ev := PwOther (SetActivityState_Signal s "ALL_MACHINES" (Some c)).

(** Refused; the service comes; a listener of each kind; a suspension that the modem
    reports and this machine acknowledges; names; the link is lost and comes back. *)
Definition early : list Mv := [PwProcess (set TCU_SUSPEND "a"); PwProcess (status "AVAILABLE")].
Definition late : list Mv :=
  [PwProcess (set TCU_SUSPEND "b"); PwProcess (state "SUSPEND");
   PwProcess (PwOther (SendActivityStateAck_Signal ACK TCU_SUSPEND)); PwProcess (PwOther (GetAllMachineNames_Signal 5%nat));
   PwProcess (PwConnectivityChanged_Signal false); PwReply (SetState TCU_SUSPEND "ALL_MACHINES") None;
   PwReply (GetMachineNames 5%nat) (Some (env [("machineNames", JArray [JString "vm1"])]));
   PwProcess (PwOther (GetAllMachineNames_Signal 6%nat)); PwProcess (status "AVAILABLE")].

Definition boot : Ma := SimulaTcuActivityManager default_config (Some "init").
Definition go (mvs : list Mv) (s : bool * Ma) : bool * Ma :=
  match pw_run (ops := ops) topic_ "pa-test-0001" clock_ clock_ alive_ mvs s with Done s => s | Fail _ => s end.
Definition at1 : bool * Ma := go early (false, boot).
Definition at_end : bool * Ma := go (early ++ late) (false, boot).
Definition services : bool * Ma := go (PwRegister Services 7%nat :: late) at1.

Definition obj : Hsm power_state Ev Ma := mkHsm (st PwNotReady_St) (st PwNotReady_St) false false [] false [] boot.
Definition demo_handler := pw_handler topic_ "pa-test-0001" clock_ clock_ alive_ (ops := ops).
Definition schedule : list (action (E := Ev)) :=
  [APost (Fifo (status "AVAILABLE")); AWait; ADispatch; AOwnPost; APost (Fifo (status "FAILED")); AWait; ADispatch].
Definition up : AO power_state Ev Ma :=
  default (started obj) (run_schedule demo_handler false pw_outbox pw_flush schedule (started obj)).

Lemma tcu_up_reach : rtc (steps demo_handler false pw_outbox pw_flush) (started obj) up.
Proof. apply (run_schedule_reach _ _ _ _ schedule). vm_compute. reflexivity. Qed.
End TcuDemo.

Lemma power_status_witness : pw_getServiceStatus TcuDemo.up = SERVICE_AVAILABLE.
Proof.
  destruct (power_status (ops := TcuDemo.ops) TcuDemo.topic_ "pa-test-0001" TcuDemo.clock_ TcuDemo.clock_
    TcuDemo.alive_ false TcuDemo.obj TcuDemo.up) as (_ & _ & Hs).
  - reflexivity.
  - apply TcuDemo.tcu_up_reach.
  - apply Hs. vm_compute. reflexivity.
Defined.

Lemma power_listeners_told_witness :
  pw_told Services 7%nat (snd TcuDemo.services) =
    [onServiceStatusChange SERVICE_UNAVAILABLE; onServiceStatusChange SERVICE_AVAILABLE].
Proof.
  pose proof (power_listeners_told (ops := TcuDemo.ops) TcuDemo.topic_ "pa-test-0001" TcuDemo.clock_
    TcuDemo.clock_ TcuDemo.alive_ Services 7%nat TcuDemo.late (fst TcuDemo.at1) (fst TcuDemo.services)
    (snd TcuDemo.at1) (snd TcuDemo.services)) as Ht.
  destruct Ht as [Ht _]; [reflexivity| |vm_compute; reflexivity|].
  - unfold TcuDemo.late. rewrite !not_elem_of_cons. repeat split; try discriminate. apply not_elem_of_nil.
  - rewrite Ht. vm_compute. reflexivity.
Defined.


Lemma machine_names_outcome_witness :
  match names_of (Some (TcuDemo.env [("machineNames", JArray [JString "vm1"; JString "vm2"])])) with
  | Some r => names_returned (Ready r) ["old"]
  | None => None
  end = Some (SUCCESS_, ["vm1"; "vm2"]).
Proof.
  destruct (machine_names_outcome (C := string) (L := nat) (P := nat) ["old"] ["vm1"; "vm2"]
    (TcuDemo.env [("machineNames", JArray [JString "vm1"; JString "vm2"])])
    [("machineNames", JArray [JString "vm1"; JString "vm2"])]) as (_ & _ & Hok & _).
  destruct Hok as [Hok _]; [reflexivity|reflexivity|]. exact (Hok eq_refl).
Defined.
