(* ===== verification/PowerFactory.v ===== *)
(** * The power factory (power/PowerFactory)

    Hands out one TCU activity manager per role and one wakeup manager, each made
    when first asked for.  The system of the factory with its managers, and its
    correctness: the roles do not see each other. *)

From S2P Require Import Prelude Hsm HsmSpec HsmProps ActiveObject Json Envelope InitGate Manager TelWire PowerShell Tcu Wakeup PowerProps TcuProps.

Local Open Scope Z_scope.

Section PowerFactory.
Context {json : Type} `{Json json, JsonValues json}.
Context {C L P : Type} `{EqDecision L} (home : option string) (file_at : nat -> string -> option string).
Context (topic : string -> string) (paId : string) (now_at counter_at : nat -> Z) (alive_at : nat -> L -> bool).

Definition Tcu : Type :=
  PowerManager json C L tcu_audience (tcu_message P) tcu_call (P * names_result) (TcuMembers C).
Definition Wakeup : Type := PowerManager json C L unit Empty_set wakeup_call Empty_set (WakeupMembers C).

(** Each manager with its readiness; [direct_calls_]: the callbacks the factory has
    called itself. *)
Record PowerFactory := mkPowerFactory {
  tcu_activity_manager_master_ : option (bool * Tcu);
  tcu_activity_manager_slave_ : option (bool * Tcu);
  wakeup_manager_ : option (bool * Wakeup);
  direct_calls_ : list (C * ServiceStatus) }.

Definition SimulaPowerFactory : PowerFactory := mkPowerFactory None None None [].

Definition slot (r : ClientType) (f : PowerFactory) : option (bool * Tcu) :=
  match r with MASTER => tcu_activity_manager_master_ f | SLAVE => tcu_activity_manager_slave_ f end.
Definition set_slot (r : ClientType) (s : bool * Tcu) (f : PowerFactory) : PowerFactory :=
  match r with
  | MASTER => mkPowerFactory (Some s) (tcu_activity_manager_slave_ f) (wakeup_manager_ f) (direct_calls_ f)
  | SLAVE => mkPowerFactory (tcu_activity_manager_master_ f) (Some s) (wakeup_manager_ f) (direct_calls_ f)
  end.

(** The callback of a client that finds the manager made: called if the manager is
    available, and forgotten otherwise. *)
Definition call_if_up (up : bool) (cb : option C) (f : PowerFactory) : PowerFactory :=
  if up then mkPowerFactory (tcu_activity_manager_master_ f) (tcu_activity_manager_slave_ f) (wakeup_manager_ f)
               (direct_calls_ f ++ ((fun c => (c, SERVICE_AVAILABLE)) <$> option_list cb))
  else f.

Definition getTcuActivityManager (config : ClientInstanceConfig) (cb : option C) (f : PowerFactory) : PowerFactory :=
  match slot (clientType config) f with
  | Some (up, _) => call_if_up up cb f
  | None => set_slot (clientType config) (false, SimulaTcuActivityManager config cb) f
  end.

(** The deprecated overload. *)
Definition getTcuActivityManager_ (t : ClientType) : option C -> PowerFactory -> PowerFactory :=
  getTcuActivityManager (mkConfig t (clientName default_config) (machineName default_config)).

Definition getWakeupManager (cb : option C) (f : PowerFactory) : PowerFactory :=
  match wakeup_manager_ f with
  | Some (up, _) => call_if_up up cb f
  | None => mkPowerFactory (tcu_activity_manager_master_ f) (tcu_activity_manager_slave_ f)
              (Some (false, SimulaWakeupManager cb)) (direct_calls_ f)
  end.

(** ** The system *)

Local Notation tcu_move := (pw_move (json := json) (L := L) (Au := tcu_audience) (R := tcu_message P)
  (Ev := tcu_event json C P)).
Local Notation wakeup_move := (pw_move (json := json) (L := L) (Au := unit) (R := Empty_set)
  (Ev := wakeup_event json)).
Local Notation tcu_step := (pw_move_step topic paId now_at counter_at alive_at (ops := tcu_ops home file_at)).
Local Notation tcu_runs := (pw_run topic paId now_at counter_at alive_at (ops := tcu_ops home file_at)).

Inductive power_move :=
  | PGetTcu (config : ClientInstanceConfig) (cb : option C)
  | PGetWakeup (cb : option C)
  | PTcu (r : ClientType) (mv : tcu_move)
  | PWakeup (mv : wakeup_move).

(** A manager that does not exist yet makes no move. *)
Definition power_step (mv : power_move) (f : PowerFactory) : outcome PowerFactory :=
  match mv with
  | PGetTcu config cb => Done (getTcuActivityManager config cb f)
  | PGetWakeup cb => Done (getWakeupManager cb f)
  | PTcu r mv =>
      match slot r f with Some s => s ← tcu_step mv s; Done (set_slot r s f) | None => Done f end
  | PWakeup mv =>
      match wakeup_manager_ f with
      | Some s =>
          s ← pw_move_step topic paId now_at counter_at alive_at (ops := wakeup_ops) mv s;
          Done (mkPowerFactory (tcu_activity_manager_master_ f) (tcu_activity_manager_slave_ f) (Some s) (direct_calls_ f))
      | None => Done f
      end
  end.
Definition power_run := run power_step.

(** A role's manager by itself: who first asked for it, the moves that are its own. *)
Fixpoint first_asked (r : ClientType) (mvs : list power_move) :
    option (ClientInstanceConfig * option C * list power_move) :=
  match mvs with
  | [] => None
  | PGetTcu config cb :: mvs => if decide (clientType config = r) then Some (config, cb, mvs) else first_asked r mvs
  | _ :: mvs => first_asked r mvs
  end.
Definition own_moves (r : ClientType) (mvs : list power_move) : list tcu_move :=
  omap (fun mv => match mv with PTcu r' mv => if decide (r' = r) then Some mv else None | _ => None end) mvs.

Lemma own_moves_cons r mv mvs : own_moves r (mv :: mvs) = own_moves r [mv] ++ own_moves r mvs.
Proof. apply (omap_app _ [mv] mvs). Qed.

Lemma slot_set r r' s f : slot r (set_slot r' s f) = if decide (r' = r) then Some s else slot r f.
Proof. by destruct r, r'. Qed.
Lemma slot_call r up cb f : slot r (call_if_up up cb f) = slot r f.
Proof. by destruct r, up. Qed.

(** One move, as one role sees it. *)
Lemma slot_step r mv f f' :
  power_step mv f = Done f' ->
  match slot r f with
  | Some s => exists s', slot r f' = Some s' /\ tcu_runs (own_moves r [mv]) s = Done s'
  | None => slot r f' =
      match mv with
      | PGetTcu config cb =>
          if decide (clientType config = r) then Some (false, SimulaTcuActivityManager config cb) else None
      | _ => None
      end
  end.
Proof.
  destruct mv as [config cb|cb|r' mv|mv]; simpl.
  - intros [= <-]. unfold getTcuActivityManager.
    destruct (slot (clientType config) f) as [[up m]|] eqn:Hs; rewrite ?slot_call, ?slot_set.
    + destruct (slot r f) eqn:Hr; [by eexists|]. rewrite decide_False; [done|]. congruence.
    + destruct (decide (clientType config = r)) as [<-|Hne]; [by rewrite Hs|]. destruct (slot r f); [by eexists|done].
  - intros [= <-]. assert (Hs : slot r (getWakeupManager cb f) = slot r f).
    { unfold getWakeupManager. destruct (wakeup_manager_ f) as [[up m]|]; [apply slot_call|by destruct r]. }
    rewrite Hs. destruct (slot r f); [by eexists|done].
  - destruct (slot r' f) as [s'|] eqn:Hs'.
    + intros (s1 & Hs & [= <-])%bind_done'. rewrite slot_set. destruct (decide (r' = r)) as [->|Hne].
      * rewrite Hs'. exists s1. split; [done|]. unfold own_moves, pw_run.
        destruct r; simpl; by rewrite Hs.
      * destruct (slot r f); [|done]. eexists. split; [done|].
        by destruct r, r'.
    + intros [= <-]. destruct (slot r f) eqn:Hr; [|done]. eexists. split; [done|].
      destruct r, r'; congruence || done.
  - intros Hs. assert (Hr : slot r f' = slot r f).
    { destruct (wakeup_manager_ f) as [s|]; [|by injection Hs as <-].
      apply bind_done' in Hs as (s1 & _ & [= <-]). by destruct r. }
    rewrite Hr. destruct (slot r f); [by eexists|done].
Qed.

Lemma slot_run r mvs f f' :
  power_run mvs f = Done f' ->
  match slot r f with
  | Some s => exists s', slot r f' = Some s' /\ tcu_runs (own_moves r mvs) s = Done s'
  | None =>
      match first_asked r mvs with
      | Some (config, cb, rest) => exists s', slot r f' = Some s' /\
          tcu_runs (own_moves r rest) (false, SimulaTcuActivityManager config cb) = Done s'
      | None => slot r f' = None
      end
  end.
Proof.
  revert f. induction mvs as [|mv mvs IH]; intros f Hr; unfold power_run in Hr; cbn [run first_asked] in *.
  { injection Hr as <-. destruct (slot r f); [by eexists|done]. }
  apply bind_done' in Hr as (f1 & Hs & Hr). apply (slot_step r) in Hs. apply IH in Hr.
  destruct (slot r f) as [s|].
  - destruct Hs as (s1 & Hf1 & H1). rewrite Hf1 in Hr. destruct Hr as (s2 & Hf2 & H2). exists s2. split; [done|].
    rewrite (own_moves_cons r mv mvs). unfold pw_run. rewrite run_app. unfold pw_run in H1. rewrite H1. exact H2.
  - rewrite Hs in Hr. destruct mv as [config cb|cb|r' mv|mv]; try done. by case_decide.
Qed.
End PowerFactory.

(** The roles of the power factory. A process may hold a master and a slave at
    once. Whatever it asks the factory for and in whatever order, there is at most
    one TCU activity manager per role, made with the configuration and the callback
    of the first that asked for the role; and that manager is, to the last request,
    listener and callback, the one its own moves make of it: nothing done with the
    other role, with the wakeup manager or by asking again reaches it. *)
Theorem power_roles {json} `{Json json, JsonValues json} {C L P} `{EqDecision L}
    (home : option string) (file_at : nat -> string -> option string)
    (topic : string -> string) (paId : string) (now_at counter_at : nat -> Z) (alive_at : nat -> L -> bool)
    (mvs : list (power_move (json := json) (C := C) (L := L) (P := P))) (f : PowerFactory) (r : ClientType) :
  power_run home file_at topic paId now_at counter_at alive_at mvs SimulaPowerFactory = Done f ->
  match first_asked r mvs with
  | Some (config, cb, rest) =>
      exists s, slot r f = Some s /\
        pw_run topic paId now_at counter_at alive_at (ops := tcu_ops home file_at) (own_moves r rest)
          (false, SimulaTcuActivityManager config cb) = Done s
  | None => slot r f = None
  end.
Proof. intros Hr. apply (slot_run _ _ _ _ _ _ _ r) in Hr. by destruct r. Qed.

Module PowerDemo.
Definition master : ClientInstanceConfig := mkConfig MASTER "m" LOCAL_MACHINE.
Definition Mo : Type := power_move (json := jval) (C := string) (L := nat) (P := nat).

(** A master, which is up; a slave; a second client of each. *)
Definition moves : list Mo :=
  [PGetTcu master (Some "master"); PTcu MASTER (PwProcess (TcuDemo.status "AVAILABLE"));
   PGetTcu default_config (Some "slave"); PGetTcu master (Some "again"); PGetTcu default_config (Some "lost");
   PTcu SLAVE (PwProcess (TcuDemo.status "AVAILABLE")); PTcu MASTER (PwProcess (TcuDemo.set TCU_RESUME "c"))].

Definition at_end : PowerFactory (json := jval) (C := string) (L := nat) (P := nat) :=
  match power_run None TcuDemo.file_ TcuDemo.topic_ "pa-test-0001" TcuDemo.clock_ TcuDemo.clock_ TcuDemo.alive_
    moves SimulaPowerFactory with Done f => f | Fail _ => SimulaPowerFactory end.

(** The callback of a second client of a role that is not up yet is never called. *)
Example second_callback_lost :
  direct_calls_ at_end = [("again", SERVICE_AVAILABLE)] /\
  (omap init_of (pw_done (default (true, SimulaTcuActivityManager master None) (slot SLAVE at_end)).2) =
     [("slave", SERVICE_AVAILABLE)]).
Proof. by vm_compute. Qed.
End PowerDemo.

Lemma power_roles_witness :
  exists s, slot SLAVE PowerDemo.at_end = Some s /\ pw_done s.2 = [Init "slave" SERVICE_AVAILABLE].
Proof.
  pose proof (power_roles None TcuDemo.file_ TcuDemo.topic_ "pa-test-0001" TcuDemo.clock_ TcuDemo.clock_
    TcuDemo.alive_ PowerDemo.moves PowerDemo.at_end SLAVE) as Hr.
  destruct Hr as (s & Hs & Hrun); [vm_compute; reflexivity|]. exists s. split; [exact Hs|].
  vm_compute in Hrun. injection Hrun as <-. vm_compute. reflexivity.
Defined.
