(* ===== verification/Platform.v ===== *)
(** * Device information and subsystems (platform/)

    DeviceInfoManager reads the IMEI from a file on the host; SubsystemManager keeps
    listeners it never calls.  Neither is an active object, and neither talks to the
    modem: both are available from the moment they are made. *)

From S2P Require Import Prelude Envelope InitGate Manager.

Local Open Scope Z_scope.

Definition DEVICEINFO_JSON_FILE : string := "/tmp/IDeviceInfoManager.json".
Definition DEFAULT_IMEI : string := "000000000000000".
Definition IMEI_LENGTH : nat := 15.

(** [::isdigit] *)
Definition isdigit (a : Ascii.ascii) : bool :=
  bool_decide (48 <= Ascii.nat_of_ascii a <= 57)%nat.

Definition isValidImei (imei : string) : bool :=
  bool_decide (String.length imei = IMEI_LENGTH) && forallb isdigit (String.list_ascii_of_string imei).

(** ** Device information *)

Section DeviceInfoManager.
(** [stat] succeeds; boost's [read_json] and [ptree::get<std::string>], which may
    throw. *)
Context {ptree : Type} (stat : string -> bool) (read_json : string -> option ptree).
Context (get : string -> ptree -> option string).
Context {C : Type}.

Definition getIMEI : Status * string :=
  let parsed :=
    if stat DEVICEINFO_JSON_FILE then
      pt ← read_json DEVICEINFO_JSON_FILE;
      imei ← get "IDeviceInfoManager.GetIMEI.imei" pt;
      if isValidImei imei then Some imei else None
    else None in
  (SUCCESS_, default DEFAULT_IMEI parsed).

(** The calls the constructor makes, and the status from then on. *)
Definition DeviceInfoManager (cb : option C) : list (C * ServiceStatus) * ServiceStatus :=
  ((fun c => (c, SERVICE_AVAILABLE)) <$> option_list cb, SERVICE_AVAILABLE).

Definition registerListener : Status := SUCCESS_.
Definition deregisterListener : Status := SUCCESS_.
Definition getPlatformVersion : Status := NOTSUPPORTED.
End DeviceInfoManager.

(** ** Subsystems *)

Section SubsystemManager.
Context {C L : Type} `{EqDecision L}.

Record SubsystemManager := mkSubsystem { serviceStatus_ : ServiceStatus; listeners_ : list L }.

Definition SimulaSubsystemManager (cb : option C) : list (C * ServiceStatus) * SubsystemManager :=
  ((fun c => (c, SERVICE_AVAILABLE)) <$> option_list cb, mkSubsystem SERVICE_AVAILABLE []).

Definition subsystem_registerListener (l : L) (m : SubsystemManager) : SubsystemManager :=
  mkSubsystem (serviceStatus_ m) (listeners_ m ++ [l]).
Definition subsystem_deRegisterListener (alive : L -> bool) (l : L) (m : SubsystemManager) : SubsystemManager :=
  mkSubsystem (serviceStatus_ m) (reap alive l (listeners_ m)).
End SubsystemManager.

(** ** Correctness *)

(** The IMEI. Whatever the file on the host holds, or if there is none, the call
    succeeds and its IMEI is fifteen decimal digits; it is the file's own exactly
    when that is fifteen digits, and fifteen zeros otherwise. *)
Theorem imei_bounds {ptree : Type} (stat : string -> bool) (read_json : string -> option ptree)
    (get : string -> ptree -> option string) :
  let imei := snd (getIMEI stat read_json get) in
  let in_file s := stat DEVICEINFO_JSON_FILE = true /\
    exists pt, read_json DEVICEINFO_JSON_FILE = Some pt /\ get "IDeviceInfoManager.GetIMEI.imei" pt = Some s in
  fst (getIMEI stat read_json get) = SUCCESS_ /\
  String.length imei = 15%nat /\
  Forall (fun a => 48 <= Z.of_nat (Ascii.nat_of_ascii a) <= 57) (String.list_ascii_of_string imei) /\
  (forall s, in_file s -> imei = if isValidImei s then s else DEFAULT_IMEI) /\
  ((forall s, ~ in_file s) -> imei = DEFAULT_IMEI).
Proof.
  intros imei in_file. split; [done|].
  assert (Hv : isValidImei imei = true).
  { unfold imei, getIMEI. simpl. destruct (stat _); [|done]. destruct (read_json _) as [pt|]; [|done]. simpl.
    destruct (get _ pt) as [s|]; [|done]. simpl. by destruct (isValidImei s) eqn:Hs. }
  apply andb_prop in Hv as [Hl%bool_decide_eq_true Hd]. split; [exact Hl|]. split; [|split].
  - apply Forall_forall. intros a Ha. rewrite forallb_forall in Hd. apply list_elem_of_In, Hd in Ha.
    apply bool_decide_eq_true in Ha. lia.
  - intros s (Hs & pt & Hp & Hg). unfold imei, getIMEI. rewrite Hs, Hp. simpl. rewrite Hg. simpl.
    by destruct (isValidImei s).
  - intros Hn. unfold imei, getIMEI. destruct (stat _) eqn:Hs; [|done]. destruct (read_json _) as [pt|] eqn:Hp; [|done].
    simpl. destruct (get _ pt) as [s|] eqn:Hg; [|done]. destruct (Hn s). split; [done|]. eauto.
Qed.

(** An IMEI of sixteen digits, with the software version, is not taken. *)
Lemma imei_bounds_witness :
  snd (getIMEI (fun _ => true) (fun _ => Some tt) (fun _ _ => Some "3534900698733190")) = DEFAULT_IMEI /\
  snd (getIMEI (fun _ => true) (fun _ => Some tt) (fun _ _ => Some "353490069873319")) = "353490069873319".
Proof.
  split.
  - destruct (imei_bounds (fun _ => true) (fun _ => Some tt) (fun _ _ => Some "3534900698733190")) as (_ & _ & _ & Hi & _).
    apply (Hi "3534900698733190"). eauto.
  - destruct (imei_bounds (fun _ => true) (fun _ => Some tt) (fun _ _ => Some "353490069873319")) as (_ & _ & _ & Hi & _).
    apply (Hi "353490069873319"). eauto.
Defined.
