(* ===== verification/Registry.v ===== *)
(** * Managers made once per key (the getters of the factories)

    The factories keep a map of managers per family, by slot or by operation type,
    and their getters all have the same form: hand the caller's callback to the
    manager that is there, or make one with it.  The form, the system of a family
    with its managers, and what a manager is in it. *)

From S2P Require Import Prelude Hsm HsmSpec ActiveObject Json Envelope InitGate Manager Answers NetShell Socks NetShellProps.

Local Open Scope Z_scope.

Section Registry.
Context {K : Type} `{Countable K} {C S Mv : Type}.
Context (make : K -> option C -> S) (hand : option C -> S -> S) (step : K -> Mv -> S -> outcome S).

Definition get_or_make (k : K) (cb : option C) (r : gmap K S) : gmap K S :=
  match r !! k with Some s => <[k := hand cb s]> r | None => <[k := make k cb]> r end.

Lemma get_or_make_there k cb r : is_Some (get_or_make k cb r !! k).
Proof. unfold get_or_make. destruct (r !! k); rewrite lookup_insert_eq; by eexists. Qed.

Inductive reg_move := Get (k : K) (cb : option C) | Move (k : K) (mv : Mv).

(** A manager that does not exist makes no move. *)
Definition reg_step (mv : reg_move) (r : gmap K S) : outcome (gmap K S) :=
  match mv with
  | Get k cb => Done (get_or_make k cb r)
  | Move k mv => match r !! k with Some s => s ← step k mv s; Done (<[k := s]> r) | None => Done r end
  end.
Definition reg_run := run reg_step.

Lemma reg_step_there k mv (r r' : gmap K S) :
  reg_step (Move k mv) r = Done r' -> is_Some (r' !! k) <-> is_Some (r !! k).
Proof.
  simpl. destruct (r !! k) as [s|] eqn:Hk; [|intros [= <-]; by rewrite Hk].
  intros (s' & _ & [= <-])%bind_done'. rewrite lookup_insert_eq. split; by eexists.
Qed.

(** One manager by itself: the callback it was made with, and what happened to it
    since. *)
Fixpoint first_get (k : K) (mvs : list reg_move) : option (option C * list reg_move) :=
  match mvs with
  | [] => None
  | Get k' cb :: mvs => if decide (k' = k) then Some (cb, mvs) else first_get k mvs
  | Move _ _ :: mvs => first_get k mvs
  end.

Lemma first_get_suffix k mvs cb rest mv : first_get k mvs = Some (cb, rest) -> mv ∈ rest -> mv ∈ mvs.
Proof.
  clear make hand step. induction mvs as [|[k' cb'|k' y] mvs IH]; simpl; [done| |].
  - case_decide; [intros [= -> ->]|]; set_solver.
  - set_solver.
Qed.

Lemma first_get_snoc k mvs mv :
  first_get k (mvs ++ [mv]) =
    match first_get k mvs with Some (cb, rest) => Some (cb, rest ++ [mv]) | None => first_get k [mv] end.
Proof.
  clear make hand step. induction mvs as [|[k' cb'|k' y] mvs IH]; [done| |].
  - cbn [app first_get]. by case_decide.
  - apply IH.
Qed.

Definition own_step (k : K) (x : option C + Mv) (s : S) : outcome S :=
  match x with inl cb => Done (hand cb s) | inr mv => step k mv s end.
Definition own_move (k : K) (mv : reg_move) : option (option C + Mv) :=
  match mv with
  | Get k' cb => if decide (k' = k) then Some (inl cb) else None
  | Move k' mv => if decide (k' = k) then Some (inr mv) else None
  end.

Lemma reg_step_other k mv (r r' : gmap K S) :
  reg_step mv r = Done r' -> own_move k mv = None -> r' !! k = r !! k.
Proof.
  destruct mv as [k' cb|k' mv]; simpl; case_decide as Hk; try done.
  - intros [= <-] _. unfold get_or_make. by destruct (r !! k'); rewrite lookup_insert_ne.
  - destruct (r !! k'); [|by intros [= <-]]. intros (s' & _ & [= <-])%bind_done' _. by rewrite lookup_insert_ne.
Qed.

Lemma reg_step_own k mv (r r' : gmap K S) x s :
  reg_step mv r = Done r' -> own_move k mv = Some x -> r !! k = Some s ->
  exists s', own_step k x s = Done s' /\ r' !! k = Some s'.
Proof.
  destruct mv as [k' cb|k' mv]; simpl; case_decide as Hk; try done; subst k'.
  - intros [= <-] [= <-] Hs. unfold get_or_make. rewrite Hs. eexists. by rewrite lookup_insert_eq.
  - intros Hr [= <-] Hs. rewrite Hs in Hr. apply bind_done' in Hr as (s' & Hs' & [= <-]).
    exists s'. by rewrite lookup_insert_eq.
Qed.

Lemma reg_run_own k mvs (r r' : gmap K S) s :
  reg_run mvs r = Done r' -> r !! k = Some s ->
  exists s', r' !! k = Some s' /\ run (own_step k) (omap (own_move k) mvs) s = Done s'.
Proof.
  unfold reg_run. revert r s. induction mvs as [|mv mvs IH]; intros r s; cbn [run].
  { intros [= <-] Hs. by exists s. }
  intros (r1 & Hr1 & Hr)%bind_done' Hs. csimpl. destruct (own_move k mv) as [x|] eqn:Hx.
  - destruct (reg_step_own k mv r r1 x s Hr1 Hx Hs) as (s1 & Hs1 & Hk). destruct (IH r1 s1 Hr Hk) as (s' & ? & ?).
    exists s'. split; [done|]. simpl. by rewrite Hs1.
  - apply (IH r1 s Hr). by rewrite (reg_step_other k mv r r1).
Qed.

Lemma reg_run_first k mvs (r r' : gmap K S) :
  reg_run mvs r = Done r' -> r !! k = None ->
  match first_get k mvs with
  | Some (cb, rest) => exists s', r' !! k = Some s' /\
      run (own_step k) (omap (own_move k) rest) (make k cb) = Done s'
  | None => r' !! k = None
  end.
Proof.
  unfold reg_run. revert r. induction mvs as [|mv mvs IH]; intros r; cbn [run first_get].
  { by intros [= <-]. }
  intros (r1 & Hr1 & Hr)%bind_done' Hn. destruct mv as [k' cb|k' mv].
  - case_decide as Hk.
    + subst k'. apply (reg_run_own k mvs r1); [exact Hr|]. simpl in Hr1. unfold get_or_make in Hr1.
      rewrite Hn in Hr1. injection Hr1 as <-. by rewrite lookup_insert_eq.
    + apply (IH r1); [done|]. rewrite (reg_step_other k _ _ _ Hr1); [done|]. simpl. by rewrite decide_False.
  - apply (IH r1); [done|]. destruct (decide (k' = k)) as [->|Hk].
    + simpl in Hr1. rewrite Hn in Hr1. by injection Hr1 as <-.
    + rewrite (reg_step_other k _ _ _ Hr1); [done|]. simpl. by rewrite decide_False.
Qed.
End Registry.

(** ** Families of network managers *)

Section NetFamily.
Context {json : Type} `{Json json, JsonValues json} {K : Type} `{Countable K}.
Context {C L Op V Note X Ev : Type} `{EqDecision L}.
Context (ops : K -> NetOps json C L Op V Note X Ev) (x : X).
Context (topic : string -> string) (paId : string) (now_at counter_at : nat -> Z) (alive_at : nat -> L -> bool).

Local Notation NetManager := (NetManager json C L Op V Note X).
Local Notation net_move := (net_move (json := json) (C := C) (L := L) (Op := Op) (Ev := Ev)).

Definition net_make (k : K) (cb : option C) : net_state * NetManager := (NetNotReady_St, new_net x cb).
Definition net_hand (cb : option C) (s : net_state * NetManager) : net_state * NetManager :=
  (s.1, addInitCallback cb s.2).
Definition family_step (k : K) : net_move -> net_state * NetManager -> outcome (net_state * NetManager) :=
  move_step topic paId now_at counter_at alive_at (NetOps0 := ops k).
Definition family_run := reg_run net_make net_hand family_step.

(** The callback a move hands to the manager of a key. *)
Definition given (k : K) (mv : reg_move (K := K) (C := C) (Mv := net_move)) : option C :=
  match mv with
  | Get k' cb => if decide (k' = k) then cb else None
  | Move k' (AddInit cb) => if decide (k' = k) then cb else None
  | _ => None
  end.

(** The manager's own moves: another call of the getter only hands it a callback. *)
Definition as_net_move (y : option C + net_move) : net_move :=
  match y with inl cb => AddInit cb | inr mv => mv end.

Lemma family_own_run k l s :
  run (own_step net_hand family_step k) l s =
    net_run topic paId now_at counter_at alive_at (NetOps0 := ops k) (as_net_move <$> l) s.
Proof.
  unfold net_run. revert s. induction l as [|[cb|mv] l IH]; intros [leaf m]; [done|apply IH|].
  cbn [run fmap list_fmap own_step as_net_move].
  change (move_step topic paId now_at counter_at alive_at (NetOps0 := ops k) mv (leaf, m)) with (family_step k mv (leaf, m)).
  destruct (family_step k mv (leaf, m)) as [s1|]; [apply IH|done].
Qed.

Lemma added_given (after : bool -> net_move -> bool) k mvs ready :
  heard after added ready (as_net_move <$> omap (own_move k) mvs) = omap (given k) mvs.
Proof.
  revert ready. induction mvs as [|mv mvs IH]; intros ready; [done|]. csimpl.
  destruct mv as [k' cb|k' mv]; simpl; case_decide as Hk; csimpl; rewrite ?IH; try done.
  - by destruct cb.
  - destruct mv as [| | |cb| |]; try done. by destruct cb.
  - by destruct mv.
Qed.

End NetFamily.

