(* ===== verification/DataFactory.v ===== *)
(** * The data factory (data/DataFactory)

    Nine getters over maps of managers, one map per family, all of the form that
    Registry.v models, and the families this simulation does not have. *)

From S2P Require Import Prelude Hsm HsmSpec ActiveObject Json Envelope InitGate Manager Answers DataCall DataConnection.
From S2P Require Import NetShell Socks NetShellProps Vlan L2tp Nat DataSettings DataProfile DataServing Registry.

Local Open Scope Z_scope.

#[global] Instance OperationType_countable : Countable OperationType.
Proof.
  refine (inj_countable' (fun t => bool_decide (t = DATA_LOCAL)) (fun b => if b : bool then DATA_LOCAL else DATA_REMOTE) _).
  by intros [].
Defined.

Section DataFactory.
Context {json : Type} `{Json json, JsonValues json}.
Context {C L P : Type} `{EqDecision L}.

Definition Family (Op V Note X : Type) : Type := (net_state * NetManager json C L Op V Note X)%type.

Record DataFactory := mkDataFactory {
  connection_managers_ : gmap Z (DataConnection.Manager (json := json) (C := C) (L := L) (P := P));
  profile_managers_ : gmap Z (Family (profile_op (C := C)) profile_value profile_note unit);
  serving_managers_ : gmap Z (Family (serving_op (C := C)) serving_value serving_note DrbStatus);
  vlan_managers_ : gmap OperationType (Family (vlan_op (C := C)) vlan_value vlan_note unit);
  nat_managers_ : gmap OperationType (Family (nat_op (C := C)) nat_value Empty_set unit);
  socks_managers_ : gmap OperationType (Family (socks_op (C := C)) unit Empty_set unit);
  settings_managers_ : gmap OperationType (Family (settings_op (C := C)) settings_value settings_note Mirrors);
  l2tp_manager_ : gmap unit (Family (l2tp_op (C := C)) l2tp_value Empty_set unit) }.

Definition SimulaDataFactory : DataFactory := mkDataFactory ∅ ∅ ∅ ∅ ∅ ∅ ∅ ∅.

(** [addInitCallback] *)
Definition connection_hand (cb : option C) (m : DataConnection.Manager (json := json) (C := C) (L := L) (P := P)) :=
  DataConnection.set_gate (InitGate.add cb (DataConnection.init_gate_ m)) m.

Definition getDataConnectionManager (slotId : Z) (cb : option C) (f : DataFactory) : DataFactory :=
  let r := get_or_make new_manager connection_hand slotId cb (connection_managers_ f) in
  mkDataFactory r (profile_managers_ f) (serving_managers_ f) (vlan_managers_ f) (nat_managers_ f) (socks_managers_ f) (settings_managers_ f) (l2tp_manager_ f).

Definition getDataProfileManager (slotId : Z) (cb : option C) (f : DataFactory) : DataFactory :=
  let r := get_or_make (net_make tt) net_hand slotId cb (profile_managers_ f) in
  mkDataFactory (connection_managers_ f) r (serving_managers_ f) (vlan_managers_ f) (nat_managers_ f) (socks_managers_ f) (settings_managers_ f) (l2tp_manager_ f).

Definition getServingSystemManager (slotId : Z) (cb : option C) (f : DataFactory) : DataFactory :=
  let r := get_or_make (net_make DRB_UNKNOWN) net_hand slotId cb (serving_managers_ f) in
  mkDataFactory (connection_managers_ f) (profile_managers_ f) r (vlan_managers_ f) (nat_managers_ f) (socks_managers_ f) (settings_managers_ f) (l2tp_manager_ f).

Definition getVlanManager (opType : OperationType) (cb : option C) (f : DataFactory) : DataFactory :=
  let r := get_or_make (net_make tt) net_hand opType cb (vlan_managers_ f) in
  mkDataFactory (connection_managers_ f) (profile_managers_ f) (serving_managers_ f) r (nat_managers_ f) (socks_managers_ f) (settings_managers_ f) (l2tp_manager_ f).

Definition getNatManager (opType : OperationType) (cb : option C) (f : DataFactory) : DataFactory :=
  let r := get_or_make (net_make tt) net_hand opType cb (nat_managers_ f) in
  mkDataFactory (connection_managers_ f) (profile_managers_ f) (serving_managers_ f) (vlan_managers_ f) r (socks_managers_ f) (settings_managers_ f) (l2tp_manager_ f).

Definition getSocksManager (opType : OperationType) (cb : option C) (f : DataFactory) : DataFactory :=
  let r := get_or_make (net_make tt) net_hand opType cb (socks_managers_ f) in
  mkDataFactory (connection_managers_ f) (profile_managers_ f) (serving_managers_ f) (vlan_managers_ f) (nat_managers_ f) r (settings_managers_ f) (l2tp_manager_ f).

Definition getDataSettingsManager (opType : OperationType) (cb : option C) (f : DataFactory) : DataFactory :=
  let r := get_or_make (net_make zero_mirrors) net_hand opType cb (settings_managers_ f) in
  mkDataFactory (connection_managers_ f) (profile_managers_ f) (serving_managers_ f) (vlan_managers_ f) (nat_managers_ f) (socks_managers_ f) r (l2tp_manager_ f).

Definition getL2tpManager (cb : option C) (f : DataFactory) : DataFactory :=
  let r := get_or_make (net_make tt) net_hand tt cb (l2tp_manager_ f) in
  mkDataFactory (connection_managers_ f) (profile_managers_ f) (serving_managers_ f) (vlan_managers_ f) (nat_managers_ f) (socks_managers_ f) (settings_managers_ f) r.

(** Filters, firewalls, bridges, clients, dual data, data control, QoS, keep-alive and
    links: a null pointer, and the callback is not called. *)
Definition getDataFilterManager (cb : option C) : option unit := None.
End DataFactory.

(** ** Two NAT managers *)

Module FactoryDemo.
Definition topic_ (name : string) : string := "telaf/" +:+ name.
Definition clock_ (n : nat) : Z := 1000 + Z.of_nat n.
Definition alive_ (n : nat) (l : nat) : bool := true.
Definition ops (t : OperationType) : NetOps jval string nat (nat_op (C := string)) nat_value Empty_set unit
    (nat_op (C := string)) := nat_ops.
Definition Ma : Type := NetManager jval string nat (nat_op (C := string)) nat_value Empty_set unit.
Definition Mo : Type := reg_move (K := OperationType) (C := string)
  (Mv := net_move (json := jval) (C := string) (L := nat) (Op := nat_op (C := string)) (Ev := nat_op (C := string))).
Definition status (s : string) : net_event jval (nat_op (C := string)) :=
  ReadinessEvt_Signal (mkEnvelope 1 "0000000a" 7 "mpss" None (Some (jobj [("status", JString s)])) None).

(** The local manager comes up between two calls of its getter; the remote one is
    asked for twice and never comes up. *)
Definition moves : list Mo :=
  [Get DATA_LOCAL (Some "a"); Get DATA_REMOTE (Some "c"); Move DATA_LOCAL (Process (status "AVAILABLE"));
   Get DATA_LOCAL (Some "b"); Get DATA_REMOTE (Some "d")].
Definition at_end : gmap OperationType (net_state * Ma) :=
  match family_run ops tt topic_ "pa-test-0001" clock_ clock_ alive_ moves ∅ with Done r => r | Fail _ => ∅ end.
End FactoryDemo.

