(* ===== verification/TelFamily.v ===== *)
(** * Families of telephony managers behind a getter (tel/TelephonyManager.cpp)

    The getters of Registry.v with managers that are whole active objects: a getter
    hands its callback to one as a client thread does, calling it itself when it
    finds the manager ready and posting it otherwise, while the worker takes its
    turns between. *)

From S2P Require Import Prelude Hsm HsmSpec HsmProps ActiveObject Json Envelope InitGate Manager Answers TelWire TelShell TelShellProps.
From S2P Require Import Registry.

Local Open Scope Z_scope.

(** ** A family of telephony managers *)

Section TelFamily.
Context {json : Type} `{Json json, JsonValues json} {K : Type} `{Countable K}.
Context {C L Op V Note X Ev : Type} `{EqDecision L} (ops : K -> TelOps json C L Op V Note X Ev).
Context (x : X) (topic : string -> string) (paId : string) (now_at counter_at : nat -> Z) (alive_at : nat -> L -> bool).
Context (ndebug : bool).

Local Notation TelManager := (TelManager json C L Op V Note X).
Local Notation tel_event := (tel_event json C Ev).
Local Notation AOTel := (AO tel_state tel_event TelManager).
Local Notation handler k := (tel_handler topic paId now_at counter_at alive_at (TelOps0 := ops k)).
Local Notation action := (action (E := tel_event)).

(** The object as its constructor leaves it, and what [start] makes of it. *)
Definition built (cb : option C) : AOTel :=
  mkAO (mkHsm nullfn nullfn false false [] false [] (new_tel x cb)) [] false WExited NotStopped 0 [] [].
Definition launch (k : K) (cb : option C) : outcome AOTel :=
  tel_start topic paId now_at counter_at alive_at (TelOps0 := ops k) ndebug (built cb).

(** A manager of the family, with the callbacks that clients' threads called. *)
Definition kept : Type := (list C * AOTel)%type.
Definition tel_make (k : K) (cb : option C) : kept :=
  ([], match launch k cb with Done c => c | Fail _ => built cb end).
Definition tel_hand (cb : option C) (s : kept) : kept :=
  let '(cs, c) := setInitCallback cb s.2 in (s.1 ++ cs.*1, c).
(** A turn of some thread; one that cannot be taken changes nothing. *)
Definition tel_turn (k : K) (a : action) (s : kept) : outcome kept :=
  Done (s.1, default s.2 (step (handler k) ndebug tel_outbox tel_flush a s.2)).
Definition tel_family := reg_run tel_make tel_hand tel_turn.

(** The callback handed to the manager of a key. *)
Definition init_asked (p : post tel_event) : option C :=
  match payload p with SetInitCb_Signal c => Some c | _ => None end.
Definition turn_given (y : option C + action) : option C :=
  match y with inl cb => cb | inr (APost p) => init_asked p | inr _ => None end.
Definition tel_given (k : K) (mv : reg_move (K := K) (C := C) (Mv := action)) : option C :=
  own_move k mv ≫= turn_given.

Lemma tel_launches k cb :
  exists h, launch k cb = Done (started h) /\ state_ h = st TelNotReady_St /\ self h = new_tel x cb.
Proof.
  exists (mkHsm (st TelNotReady_St) (st TelNotReady_St) false true [] true
    (trace_log (hsm (tel_make k cb).2)) (new_tel x cb)).
  split; [|done]. vm_compute. reflexivity.
Qed.

(** What no turn but a stop undoes. *)
Record live (c : AOTel) : Prop := {
  live_running : running_ c = true;
  live_posts l : worker_ c = WPosting l -> l = [] }.

Lemma live_step k a c c' :
  a <> AStop -> live c -> step (handler k) ndebug tel_outbox tel_flush a c = Some c' ->
  live c' /\ accepted c' = accepted c ++ match a with APost p => [p] | _ => [] end.
Proof.
  intros Ha [Hr Hp]. destruct c as [h q r w sp n acc dn]. simpl in Hr, Hp. subst r.
  assert (Hw : forall l, w = WPosting l -> l = []) by done. clear Hp.
  destruct a, w as [| | |[|]| |]; try done; simpl; unfold run_wait, run_dispatch; simpl;
    try (specialize (Hw _ eq_refl)); repeat case_match; intros; simplify_eq/=;
    split; rewrite ?app_nil_r; try done; split; simpl; try done; intros; by simplify_eq.
Qed.

Lemma tel_hand_eq cb cs (c : AOTel) :
  tel_hand (Some cb) (cs, c) =
    if tel_isReadyDerived_ c then (cs ++ [cb], c) else (cs, post_fifo (SetInitCb_Signal cb) c).
Proof. unfold tel_hand. simpl. destruct (tel_isReadyDerived_ c); simpl; by rewrite ?app_nil_r. Qed.

(** A manager by itself: every callback it was handed is called by a client's
    thread or posted. *)
Lemma tel_turns k h l s :
  inr AStop ∉ l -> run (own_step tel_hand tel_turn k) l ([], started h) = Done s ->
  rtc (steps (handler k) ndebug tel_outbox tel_flush) (started h) s.2 /\
  s.1 ++ omap init_asked (accepted s.2) ≡ₚ omap turn_given l.
Proof.
  intros Hl Hr.
  enough (Hg : rtc (steps (handler k) ndebug tel_outbox tel_flush) (started h) s.2 /\ live s.2 /\
    s.1 ++ omap init_asked (accepted s.2) ≡ₚ omap turn_given l) by (destruct Hg as (? & _ & ?); done).
  revert s Hr. induction l as [|y l IH] using rev_ind; intros s Hr.
  { injection Hr as <-. split; [constructor|]. split; [by split|done]. }
  rewrite run_app in Hr. apply bind_done' in Hr as ([cs c] & Hr & Hy). simpl in Hy.
  apply bind_done' in Hy as (s' & Hy & [= <-]).
  destruct (IH ltac:(set_solver) _ Hr) as (I1 & I2 & I3). simpl in I1, I2, I3.
  rewrite omap_app, <- I3. csimpl. destruct y as [cb|a]; simpl in Hy; injection Hy as <-.
  - destruct cb as [cb|]; [|unfold tel_hand; simpl; by rewrite !app_nil_r]. rewrite tel_hand_eq.
    destruct (tel_isReadyDerived_ c); simpl; split_and!; try done.
    + solve_Permutation.
    + eapply rtc_r; [exact I1|]. exists (APost (Fifo (SetInitCb_Signal cb))). done.
    + destruct I2 as [Hrun Hp]. split; unfold post_fifo, post_event; by rewrite Hrun.
    + unfold post_fifo, post_event. rewrite (live_running c I2). simpl. by rewrite omap_app, app_assoc.
  - simpl. destruct (step (handler k) ndebug tel_outbox tel_flush a c) as [c'|] eqn:Hs; simpl.
    + split; [eapply rtc_r; [exact I1|by exists a]|].
      destruct (live_step k a c c') as [Hl' Ha]; [set_solver|done|done|]. split; [done|].
      rewrite Ha, omap_app, app_assoc. by destruct a.
    + by destruct a; rewrite ?app_nil_r.
Qed.

(** What the worker did is a run of the manager's moves. *)
Definition processed (c : AOTel) : list (tel_move (json := json) (C := C) (L := L) (Op := Op) (Ev := Ev)) :=
  (fun p => TProcess (payload p)) <$> done c.

Lemma chart_is_run k ps leaf m leaf' m' :
  chart_run (handler k) tel_flush tel_lineage ps (leaf, m) = Done (leaf', m') ->
  tel_run topic paId now_at counter_at alive_at (TelOps0 := ops k) ((fun p => TProcess (payload p)) <$> ps)
    (tel_is_ready leaf, m) = Done (tel_is_ready leaf', m').
Proof.
  unfold tel_run. revert leaf m. induction ps as [|p ps IH]; intros leaf m; simpl; [by intros [= <- <-]|].
  intros ([leaf1 m1] & Hs & Hr)%bind_done'. rewrite tel_chart_step in Hs.
  apply bind_done' in Hs as ([r m2] & Hs & [= <- <-]). rewrite Hs. simpl. unfold tel_flush in Hr.
  apply IH in Hr. by destruct r.
Qed.

Lemma handed_posts (ready : bool) (ps : list (post tel_event)) :
  heard tel_ready_after tel_handed ready ((fun p => TProcess (payload p)) <$> ps : list (tel_move (L := L) (Op := Op))) =
    omap init_asked ps.
Proof.
  revert ready. induction ps as [|p ps IH]; intros ready; [done|]. csimpl. rewrite IH.
  unfold init_asked at 2. by destruct (payload p).
Qed.

Context (spec : forall k, TelSpec json C L Op V Note X Ev (H := ops k)).

Lemma tel_inits k h cb c :
  state_ h = st TelNotReady_St -> self h = new_tel x cb ->
  rtc (steps (handler k) ndebug tel_outbox tel_flush) (started h) c ->
  omap init_of (omap call_of (tel_log (self (hsm c)))) ++ init_cbs_ (self (hsm c)) =
    option_list cb ++ omap init_asked (done c) /\
  (tel_isReadyDerived_ c = true -> init_cbs_ (self (hsm c)) = []).
Proof.
  intros Hst Hm Hr.
  destruct (reach_chart (handler k) ndebug tel_outbox tel_flush tel_parent tel_lineage tel_swallow _ h c Hst Hr)
    as (leaf & Hc & Hst'). rewrite Hm in Hc. apply chart_is_run, run_does in Hc as [_ Hc]; [|apply spec].
  destruct (spec_run _ _) as [[cs ns] v] eqn:Hs. destruct Hc as (Hcs & _ & Hv).
  apply spec_calls in Hs as (_ & _ & H3 & _ & H5); [|done]. rewrite <- Hv in H3, H5. simpl in Hcs, H3, H5.
  rewrite Hcs, H3, handed_posts. split; [done|]. unfold tel_isReadyDerived_. rewrite Hst'.
  intros Hl%bool_decide_eq_true. apply H5. by injection Hl as ->.
Qed.

Lemma turn_of k (mvs : list (reg_move (K := K) (C := C) (Mv := action))) :
  omap turn_given (omap (own_move k) mvs) = omap (tel_given k) mvs.
Proof.
  unfold tel_given. induction mvs as [|mv mvs IH]; [done|]. csimpl. rewrite <- IH. by destruct (own_move k mv).
Qed.

Lemma own_turn k y (mvs : list (reg_move (K := K) (C := C) (Mv := action))) :
  inr y ∈ omap (own_move k) mvs -> Move k y ∈ mvs.
Proof.
  intros (mv & Hmv & Ho)%list_elem_of_omap. destruct mv as [k' cb|k' a]; simpl in Ho; by case_decide; simplify_eq.
Qed.
End TelFamily.

(** The getters of the telephony factory, for a family of managers (phones,
    serving systems, network selection). Whatever is asked of the factory, and
    however the threads of its managers and clients take their turns between, none
    of the managers being stopped, there is one manager per key from the first time
    the key is asked for, and none before; it is an object its own threads made of
    the one [start] started; and no callback is dropped or called twice: those that
    clients' threads called on finding it ready, those its worker called, those that
    wait for its readiness and those still posted to it are the first caller's and
    all the later ones'. So once its queue is empty and it is ready, every callback
    has been called exactly once. *)
Theorem tel_getters {json} `{Json json, JsonValues json} {K} `{Countable K} {C L Op V Note X Ev} `{EqDecision L}
    (ops : K -> TelOps json C L Op V Note X Ev) (x : X) (topic : string -> string) (paId : string)
    (now_at counter_at : nat -> Z) (alive_at : nat -> L -> bool) (ndebug : bool)
    (mvs : list reg_move) (r : gmap K (kept (json := json) (C := C))) (k : K) :
  (forall k, TelSpec json C L Op V Note X Ev (H := ops k)) ->
  tel_family ops x topic paId now_at counter_at alive_at ndebug mvs ∅ = Done r ->
  Move k AStop ∉ mvs ->
  match first_get k mvs with
  | None => r !! k = None
  | Some (cb, rest) =>
      exists h called c, r !! k = Some (called, c) /\
        launch ops x topic paId now_at counter_at alive_at ndebug k cb = Done (started h) /\
        rtc (steps (tel_handler topic paId now_at counter_at alive_at (TelOps0 := ops k)) ndebug tel_outbox tel_flush)
          (started h) c /\
        let m := self (hsm c) in
        let inits := omap init_of (omap call_of (tel_log m)) in
        called ++ inits ++ init_cbs_ m ++ omap init_asked (in_hand (worker_ c) ++ q_ c) ≡ₚ
          option_list cb ++ omap (tel_given k) rest /\
        (tel_isReadyDerived_ c = true -> worker_ c = WBlocked -> q_ c = [] ->
         called ++ inits ≡ₚ option_list cb ++ omap (tel_given k) rest)
  end.
Proof.
  intros spec Hr Hns. apply (reg_run_first _ _ _ k) in Hr; [|apply lookup_empty].
  destruct (first_get k mvs) as [[cb rest]|] eqn:Hf; [|exact Hr]. destruct Hr as ([called c] & Hk & Hr).
  destruct (tel_launches ops x topic paId now_at counter_at alive_at ndebug k cb) as (h & Hl & Hst & Hm).
  unfold tel_make in Hr. rewrite Hl in Hr.
  destruct (tel_turns ops topic paId now_at counter_at alive_at ndebug k h (omap (own_move k) rest) (called, c)) as [Hrt Hall];
    [intros Ha%own_turn; apply Hns; by eapply first_get_suffix|exact Hr|].
  simpl in Hrt, Hall.
  destruct (tel_inits ops x topic paId now_at counter_at alive_at ndebug spec k h cb c Hst Hm Hrt) as [Hi Hready].
  pose proof (inv_conserve _ _ _ _ _ (reach_inv _ _ _ _ _ _ Hrt)) as Hc.
  assert (Heq : called ++ omap init_of (omap call_of (tel_log (self (hsm c)))) ++ init_cbs_ (self (hsm c)) ++
    omap init_asked (in_hand (worker_ c) ++ q_ c) ≡ₚ option_list cb ++ omap (tel_given k) rest).
  { rewrite <- turn_of, <- Hall, <- Hc, !omap_app, (assoc_L (++) (omap init_of _)), Hi. solve_Permutation. }
  exists h, called, c. split; [done|]. split; [done|]. split; [done|]. split; [exact Heq|].
  intros Hrdy Hw Hq. rewrite <- Heq, Hw, Hq, Hready by done. simpl. by rewrite !app_nil_r.
Qed.
