(* ===== verification/TelFactory.v ===== *)
(** * The telephony factory (tel/TelephonyManager.cpp)

    Phones and calls have one manager each, serving systems and network selection
    one per slot (TelFamily.v), and the SIM getters are those of SimFactory.v.  The
    first caller of the phone or the call getter also waits, outside the lock, for
    the manager's first readiness or for 30 seconds, before its own callback is
    handed over; other clients may call the getter in between. *)

From S2P Require Import Prelude Hsm HsmSpec HsmProps ActiveObject Json Envelope InitGate Manager Answers TelWire EcallManager.
From S2P Require Import SimShell Card Subscription MultiSim SimFactory TelShell TelShellProps NetworkSelection TelServing PhoneManager Registry TelFamily.

Local Open Scope Z_scope.

(** What the managers are handed: a client's callback, or the promise that a waiting
    getter made. *)
Inductive init_cb (C : Type) := ClientCb (c : C) | ReadyPromise.
Arguments ClientCb {C} c.
Arguments ReadyPromise {C}.

(** The critical sections of a blocking getter: under the lock; outside it, before
    the wait; and after the wait. *)
Inductive getter_part := Enter | Await | Waited.

(** What each hands over, given whether the manager was there. *)
Definition part_hands {C} (part : getter_part) (there : bool) (cb : option C) : option (init_cb C) :=
  match part with
  | Enter => if there then ClientCb <$> cb else None
  | Await => Some ReadyPromise
  | Waited => ClientCb <$> cb
  end.

(** Whether the caller has to go on to the next part. *)
Definition part_waits (part : getter_part) (there : bool) : option getter_part :=
  match part with Enter => if there then None else Some Await | Await => Some Waited | Waited => None end.

Section TelFactory.
Context {json : Type} `{Json json, JsonValues json}.
Context {C L P : Type} `{EqDecision L}.
Context (topic : string -> string) (paId : string) (now_at counter_at : nat -> Z) (alive_at : nat -> L -> bool).
Context (ndebug : bool).

Local Notation Cb := (init_cb C).

Definition phone_ops_of (k : unit) : TelOps json Cb L (phonemgr_op (C := Cb)) phonemgr_value phonemgr_note unit
    (phonemgr_event (json := json) (C := Cb)) := phonemgr_ops.
Definition serving_ops_of (slotId : Z) : TelOps json C L (tserv_op (C := C)) tserv_value tserv_note ServingMembers
    (tserv_event (json := json) (C := C)) := tserv_ops slotId.
Definition netsel_ops_of (slotId : Z) : TelOps json C L (netsel_op (C := C)) netsel_value Empty_set unit
    (netsel_op (C := C)) := netsel_ops slotId.

Definition Phones : Type := kept (json := json) (C := Cb) (L := L) (Op := phonemgr_op (C := Cb)) (V := phonemgr_value)
  (Note := phonemgr_note) (X := unit) (Ev := phonemgr_event (json := json) (C := Cb)).
Definition Serving : Type := kept (json := json) (C := C) (L := L) (Op := tserv_op (C := C)) (V := tserv_value)
  (Note := tserv_note) (X := ServingMembers) (Ev := tserv_event (json := json) (C := C)).
Definition NetSels : Type := kept (json := json) (C := C) (L := L) (Op := netsel_op (C := C)) (V := netsel_value)
  (Note := Empty_set) (X := unit) (Ev := netsel_op (C := C)).
Definition CallMgr : Type := EcallManager.AOCallManager (json := json) (C := Cb) (L := L) (P := P).
(** The call manager, with what clients' threads called. *)
Definition Calls : Type := (list (ecall_effect (json := json) (C := Cb) (L := L) (P := P)) * CallMgr)%type.

Record TelFactory := mkTelFactory {
  simFactory_ : SimFactory (json := json) (C := C) (L := L);
  phone_manager_ : gmap unit Phones;
  serving_systems_ : gmap Z Serving;
  network_selections_ : gmap Z NetSels;
  call_manager_ : option Calls }.

Definition PhoneFactoryStub : TelFactory := mkTelFactory new_factory ∅ ∅ ∅ None.

(** ** Managers per slot *)

Definition getServingSystemManager (slotId : Z) (cb : option C) (f : TelFactory) : TelFactory :=
  let r := get_or_make (tel_make serving_ops_of no_serving topic paId now_at counter_at alive_at ndebug) tel_hand
             slotId cb (serving_systems_ f) in
  mkTelFactory (simFactory_ f) (phone_manager_ f) r (network_selections_ f) (call_manager_ f).

Definition getNetworkSelectionManager (slotId : Z) (cb : option C) (f : TelFactory) : TelFactory :=
  let r := get_or_make (tel_make netsel_ops_of tt topic paId now_at counter_at alive_at ndebug) tel_hand
             slotId cb (network_selections_ f) in
  mkTelFactory (simFactory_ f) (phone_manager_ f) (serving_systems_ f) r (call_manager_ f).

(** ** The phone manager: the parts of its getter *)

Definition getPhoneManager (part : getter_part) (cb : option C) (f : TelFactory) : TelFactory :=
  let there := bool_decide (is_Some (phone_manager_ f !! tt)) in
  let r := get_or_make (tel_make phone_ops_of tt topic paId now_at counter_at alive_at ndebug) tel_hand
             tt (part_hands part there cb) (phone_manager_ f) in
  mkTelFactory (simFactory_ f) r (serving_systems_ f) (network_selections_ f) (call_manager_ f).

(** ** The call manager, which starts itself when it is handed a callback *)

Definition call_built : CallMgr :=
  mkAO (mkHsm nullfn nullfn false false [] false [] (SimulaCallManager None)) [] false WExited NotStopped 0 [] [].

Definition call_hand (cb : option Cb) (s : Calls) : outcome Calls :=
  '(es, c) ← EcallManager.setInitCallback topic paId now_at counter_at ndebug cb s.2; Done (s.1 ++ es, c).

Definition getCallManager (part : getter_part) (cb : option C) (f : TelFactory) : outcome TelFactory :=
  c ← match call_manager_ f with
      | Some s => call_hand (part_hands part true cb) s
      | None => Done ([], call_built)
      end;
  Done (mkTelFactory (simFactory_ f) (phone_manager_ f) (serving_systems_ f) (network_selections_ f) (Some c)).

(** ** The SIM getters, and the managers this simulation does not have *)

Definition with_sim (g : SimFactory (json := json) (C := C) (L := L) -> SimFactory (json := json) (C := C) (L := L))
    (f : TelFactory) : TelFactory :=
  mkTelFactory (g (simFactory_ f)) (phone_manager_ f) (serving_systems_ f) (network_selections_ f) (call_manager_ f).
Definition tel_getCardManager (cb : option C) : TelFactory -> TelFactory :=
  with_sim (getCardManager topic paId now_at counter_at alive_at cb).
Definition tel_getSubscriptionManager (cb : option C) : TelFactory -> TelFactory :=
  with_sim (getSubscriptionManager topic paId now_at counter_at alive_at cb).
Definition tel_getMultiSimManager (cb : option C) : TelFactory -> TelFactory :=
  with_sim (getMultiSimManager topic paId now_at counter_at alive_at cb).

(** SMS, SIM access profile, remote SIM, cell broadcast, SIM profiles, IMS, eCall,
    HTTP and supplementary services: a null pointer, and the callback is not called. *)
Definition getSmsManager (cb : option C) : option unit := None.

(** [ensureStarted_] tests and starts without a lock: when two clients have both found
    the manager not running, the second start finds it running. *)
Example two_starts :
  exists c,
    start_at (EcallManager.handler topic paId now_at counter_at) false true (st CallMgrNotReady_St) call_built = Done c /\
    start_at (EcallManager.handler topic paId now_at counter_at) false true (st CallMgrNotReady_St) c = Fail AssertFailed.
Proof. eexists. split; [vm_compute; reflexivity|reflexivity]. Qed.


(** ** The blocking getter under interleaving

    The first client to ask is the one that waits: the state of the system is the
    manager, if there is one, and that client's next part with its callback. *)

Definition phone_sys : Type := (TelFactory * option (getter_part * option C))%type.
Local Notation phone_action := (action (E := tel_event json Cb (phonemgr_event (json := json) (C := Cb)))).

Inductive phone_move := Ask (cb : option C) | Resume | Turn (a : phone_action).

Definition phone_there (f : TelFactory) : bool := bool_decide (is_Some (phone_manager_ f !! tt)).

Definition phone_step (mv : phone_move) (s : phone_sys) : outcome phone_sys :=
  let '(f, w) := s in
  match mv with
  | Ask cb => Done (getPhoneManager Enter cb f, if phone_there f then w else Some (Await, cb))
  | Resume =>
      match w with
      | Some (part, cb) => Done (getPhoneManager part cb f, (fun part => (part, cb)) <$> part_waits part true)
      | None => Done s
      end
  | Turn a =>
      r ← reg_step (tel_make phone_ops_of tt topic paId now_at counter_at alive_at ndebug) tel_hand
            (tel_turn phone_ops_of topic paId now_at counter_at alive_at ndebug) (Move tt a) (phone_manager_ f);
      Done (mkTelFactory (simFactory_ f) r (serving_systems_ f) (network_selections_ f) (call_manager_ f), w)
  end.
Definition phone_run := run phone_step.

(** The callbacks clients passed to the getter, those other threads posted, and the
    promise of the client that waits, once it has handed it over. *)
Definition phone_asked (mv : phone_move) : option C := match mv with Ask cb => cb | _ => None end.
Definition phone_posted (there : bool) (mv : phone_move) : option Cb :=
  match mv with Turn (APost p) => if there then init_asked p else None | _ => None end.
Definition promised (there : bool) (w : option (getter_part * option C)) : list Cb :=
  if there then match w with Some (Await, _) => [] | _ => [ReadyPromise] end else [].
Definition still_held (w : option (getter_part * option C)) : list Cb :=
  match w with Some (_, Some c) => [ClientCb c] | _ => [] end.
Definition phone_made (there : bool) (mv : phone_move) : bool := there || match mv with Ask _ => true | _ => false end.

Local Notation family :=
  (tel_family phone_ops_of tt topic paId now_at counter_at alive_at ndebug (K := unit)).
Definition phone_given (mv : reg_move (K := unit) (C := Cb) (Mv := phone_action)) : option Cb := tel_given tt mv.
Local Notation given := (omap phone_given).

(** What the phone moves are as calls of the getter of a family. *)
Record phone_inv (mvs : list phone_move) (f : TelFactory) (w : option (getter_part * option C))
    (rmvs : list reg_move) : Prop := {
  pi_run : family rmvs ∅ = Done (phone_manager_ f);
  pi_there : phone_there f = fold_left phone_made mvs false;
  pi_waits : phone_there f = false -> w = None;
  pi_stop : Turn AStop ∉ mvs -> Move tt AStop ∉ rmvs;
  pi_first : match first_get tt rmvs with
             | None => phone_there f = false /\ omap phone_asked mvs = [] /\ heard phone_made phone_posted false mvs = []
             | Some (cb, rest) => phone_there f = true /\ cb = None /\
                 given rest ++ still_held w ≡ₚ
                   (ClientCb <$> omap phone_asked mvs) ++ promised true w ++ heard phone_made phone_posted false mvs
             end }.

Lemma phone_get (cb : option Cb) (f : TelFactory) rmvs part x :
  family rmvs ∅ = Done (phone_manager_ f) -> part_hands part (phone_there f) x = cb ->
  family (rmvs ++ [Get tt cb]) ∅ = Done (phone_manager_ (getPhoneManager part x f)).
Proof. intros Hr <-. unfold tel_family, reg_run in *. rewrite run_app, Hr. done. Qed.

Lemma phone_there_get part x f : phone_there (getPhoneManager part x f) = true.
Proof.
  apply bool_decide_eq_true, get_or_make_there.
Qed.

(** What a move adds to the accounts. *)
Lemma phone_accounts mv mvs :
  omap phone_asked (mvs ++ [mv]) = omap phone_asked mvs ++ option_list (phone_asked mv) /\
  heard phone_made phone_posted false (mvs ++ [mv]) =
    heard phone_made phone_posted false mvs ++ option_list (phone_posted (fold_left phone_made mvs false) mv) /\
  fold_left phone_made (mvs ++ [mv]) false = phone_made (fold_left phone_made mvs false) mv.
Proof.
  rewrite omap_app, heard_snoc, fold_left_app. split; [|done]. csimpl. by destruct (phone_asked mv).
Qed.

Lemma given_snoc rest mv : given (rest ++ [mv]) = given rest ++ option_list (phone_given mv).
Proof. rewrite omap_app. csimpl. by destruct (phone_given mv). Qed.

Lemma phone_step_get mvs f w rmvs mv part x w' :
  phone_inv mvs f w rmvs -> (forall a, mv <> Turn a) -> phone_made (phone_there f) mv = true ->
  (phone_there f = false -> part_hands part false x = None /\
    still_held w' = ClientCb <$> option_list (phone_asked mv) /\ promised true w' = []) ->
  (phone_there f = true -> option_list (part_hands part true x) ++ still_held w' ++ promised true w ≡ₚ
    still_held w ++ (ClientCb <$> option_list (phone_asked mv)) ++ promised true w') ->
  phone_inv (mvs ++ [mv]) (getPhoneManager part x f) w' (rmvs ++ [Get tt (part_hands part (phone_there f) x)]).
Proof.
  intros [Hr Ht Hw Hs Hf] Hmv Hmade Hnew Hold. destruct (phone_accounts mv mvs) as (Ha & Hp & Hm).
  assert (Hpn : phone_posted (fold_left phone_made mvs false) mv = None) by (destruct mv; naive_solver).
  split.
  - by eapply phone_get.
  - by rewrite phone_there_get, Hm, <- Ht, Hmade.
  - by rewrite phone_there_get.
  - intros Hst. apply not_elem_of_app. split; [apply Hs; set_solver|]. by intros [=]%list_elem_of_singleton.
  - rewrite first_get_snoc, phone_there_get. destruct (first_get tt rmvs) as [[cb rest]|].
    + destruct Hf as (Hth & -> & Hf). split; [done|]. split; [done|]. rewrite given_snoc, Ha, Hp, Hpn, fmap_app, Hth.
      specialize (Hold Hth). unfold phone_given, tel_given. simpl. rewrite ?app_nil_r.
      apply (Permutation_app_inv_l (promised true w)).
      transitivity (given rest ++ (option_list (part_hands part true x) ++ still_held w' ++ promised true w));
        [solve_Permutation|]. rewrite Hold.
      transitivity ((given rest ++ still_held w) ++ (ClientCb <$> option_list (phone_asked mv)) ++ promised true w');
        [solve_Permutation|]. rewrite Hf. solve_Permutation.
    + destruct Hf as (Hth & Ha' & Hp'). destruct (Hnew Hth) as (Hn1 & Hn2 & Hn3).
      rewrite Hth, Hn1, Ha, Hp, Hpn, Ha', Hp', Hn2, Hn3. simpl. by rewrite !app_nil_r.
Qed.

Lemma phone_inv_step mvs f w rmvs mv f' w' :
  phone_inv mvs f w rmvs -> phone_step mv (f, w) = Done (f', w') -> exists rmvs', phone_inv (mvs ++ [mv]) f' w' rmvs'.
Proof.
  intros Hi. destruct mv as [cb| |a]; cbn [phone_step].
  - intros [= <- <-]. eexists. eapply phone_step_get; [exact Hi|done|by destruct (phone_there f)| |].
    + intros ->. split; [done|]. by destruct cb.
    + intros ->. simpl. destruct cb; simpl; solve_Permutation.
  - destruct w as [[part cb]|].
    + assert (Hth : phone_there f = true).
      { destruct (phone_there f) eqn:Hth; [done|]. by pose proof (pi_waits _ _ _ _ Hi Hth). }
      intros [= <- <-]. eexists. eapply phone_step_get; [exact Hi|done|by rewrite Hth|by rewrite Hth|].
      intros _. destruct part, cb; simpl; solve_Permutation.
    + intros [= <- <-]. exists rmvs. destruct (phone_accounts Resume mvs) as (Ha & Hp & Hm).
      destruct Hi as [Hr Ht Hw Hs Hf]. simpl in Ha, Hp. rewrite app_nil_r in Ha, Hp. split; rewrite ?Ha, ?Hp, ?Hm; try done.
      * simpl. unfold phone_made. by rewrite orb_false_r.
      * intros Hst. apply Hs. set_solver.
  - intros (r & Hr & [= <- <-])%bind_done'. exists (rmvs ++ [Move tt a]).
    destruct (phone_accounts (Turn a) mvs) as (Ha & Hp & Hm).
    destruct Hi as [Hr0 Ht Hw Hs Hf].
    assert (Hth : phone_there (mkTelFactory (simFactory_ f) r (serving_systems_ f) (network_selections_ f)
      (call_manager_ f)) = phone_there f).
    { apply bool_decide_ext. by eapply reg_step_there. }
    simpl in Ha. rewrite app_nil_r in Ha. split; rewrite ?Hth, ?Ha, ?Hp, ?Hm; try done.
    + unfold tel_family, reg_run in *. rewrite run_app, Hr0. cbn -[reg_step]. by rewrite Hr.
    + simpl. unfold phone_made. by rewrite orb_false_r.
    + intros Hst. apply not_elem_of_app. split; [apply Hs; set_solver|].
      intros [= <-]%list_elem_of_singleton. apply Hst. set_solver.
    + rewrite first_get_snoc, <- Ht. destruct (first_get tt rmvs) as [[cb rest]|].
      * destruct Hf as (-> & -> & Hf). split; [done|]. split; [done|]. rewrite given_snoc, !app_assoc.
        rewrite app_assoc in Hf. rewrite <- Hf. destruct a; simpl; rewrite ?app_nil_r; try done. solve_Permutation.
      * destruct Hf as (-> & -> & ->). by destruct a.
Qed.

Lemma phone_inv_run mvs f w :
  phone_run mvs (PhoneFactoryStub, None) = Done (f, w) -> exists rmvs, phone_inv mvs f w rmvs.
Proof.
  unfold phone_run. revert f w. induction mvs as [|mv mvs IH] using rev_ind; intros f w Hr.
  { injection Hr as <- <-. exists []. split; try done. intros _. by apply not_elem_of_nil. }
  rewrite run_app in Hr. apply bind_done' in Hr as ([f1 w1] & Hr & Hs). apply bind_done' in Hs as (s & Hs & [= ->]).
  destruct (IH f1 w1 Hr) as [rmvs Hi]. by eapply phone_inv_step.
Qed.
End TelFactory.

(** The getter of the phone manager, which never drops a callback. However the
    clients that ask for the manager, the thread that waits for it and the threads
    of the manager take their turns, there is no manager until the first client
    asks and one from then on; the callbacks that clients' threads called on finding
    it ready, those its worker called, those that wait and those still posted to it,
    together with the one the waiting client has yet to hand over, are those the
    clients passed to the getter, the promise of the waiting client once it has
    handed it over, and those posted otherwise. So when the waiting client is back,
    the queue empty and the manager ready, every client's callback has been called
    exactly once. *)
Theorem phone_callbacks {json} `{Json json, JsonValues json} {C L P} `{EqDecision L}
    (topic : string -> string) (paId : string) (now_at counter_at : nat -> Z) (alive_at : nat -> L -> bool)
    (ndebug : bool) (mvs : list phone_move) (f : TelFactory (json := json) (C := C) (L := L) (P := P))
    (w : option (getter_part * option C)) :
  phone_run topic paId now_at counter_at alive_at ndebug mvs (PhoneFactoryStub, None) = Done (f, w) ->
  Turn AStop ∉ mvs ->
  match phone_manager_ f !! tt with
  | None => omap phone_asked mvs = []
  | Some (called, c) =>
      exists h,
        launch phone_ops_of tt topic paId now_at counter_at alive_at ndebug tt None = Done (started h) /\
        rtc (steps (tel_handler topic paId now_at counter_at alive_at (TelOps0 := phone_ops_of tt)) ndebug tel_outbox
          tel_flush) (started h) c /\
        let m := self (hsm c) in
        let inits := omap init_of (omap call_of (tel_log m)) in
        let posted := heard phone_made phone_posted false mvs in
        called ++ inits ++ init_cbs_ m ++ omap init_asked (in_hand (worker_ c) ++ q_ c) ++ still_held w ≡ₚ
          (ClientCb <$> omap phone_asked mvs) ++ promised true w ++ posted /\
        (tel_isReadyDerived_ c = true -> worker_ c = WBlocked -> q_ c = [] -> w = None ->
         called ++ inits ≡ₚ (ClientCb <$> omap phone_asked mvs) ++ ReadyPromise :: posted)
  end.
Proof.
  intros Hr Hns. destruct (phone_inv_run topic paId now_at counter_at alive_at ndebug mvs f w Hr) as [rmvs [H1 H2 H3 H4 H5]].
  pose proof (tel_getters phone_ops_of tt topic paId now_at counter_at alive_at ndebug rmvs (phone_manager_ f) tt
    (fun _ => phonemgr_spec) H1 (H4 Hns)) as Hg.
  destruct (first_get tt rmvs) as [[cb rest]|].
  - destruct H5 as (_ & -> & H5). destruct Hg as (h & called & c & Hk & Hl & Hrt & Hall & Hready).
    unfold Phones, kept in *. rewrite Hk.
    exists h. split; [done|]. split; [done|]. cbv zeta in *.
    assert (Heq : forall l, l ≡ₚ omap (tel_given tt) rest -> l ++ still_held w ≡ₚ
      (ClientCb <$> omap phone_asked mvs) ++ promised true w ++ heard phone_made phone_posted false mvs).
    { intros l ->. exact H5. }
    split; [rewrite <- (Heq _ Hall); by rewrite <- !app_assoc|].
    intros Hrdy Hw Hq ->. rewrite <- (app_nil_r (called ++ _)). exact (Heq _ (Hready Hrdy Hw Hq)).
  - unfold Phones, kept in *. rewrite Hg. apply H5.
Qed.

(** ** Two clients of the phone getter *)

Module PhoneDemo.
Definition topic_ (name : string) : string := "telaf/" +:+ name.
Definition clock_ (n : nat) : Z := 1000 + Z.of_nat n.
Definition alive_ (n : nat) (l : nat) : bool := true.
Definition Fa : Type := TelFactory (json := jval) (C := string) (L := nat) (P := nat).
Definition Mo : Type := phone_move (json := jval) (C := string).
Definition available : Mo :=
  Turn (APost (Fifo (TelReadinessEvt_Signal
    (mkEnvelope 1 "0000000a" 7 "mpss" None (Some (jobj [("status", JString "AVAILABLE")])) None)))).
Definition turn : list Mo := [Turn AWait; Turn ADispatch; Turn AOwnPost].

(** The first client waits; the second asks meanwhile and does not. The manager comes
    up, which ends the first client's wait, and that client then finds it ready. *)
Definition moves : list Mo :=
  [Ask (Some "a"); Turn AWait; Resume; Ask (Some "b"); available; Turn ANotify] ++
  turn ++ turn ++ turn ++ [Turn AWait; Resume].
Definition at_end : Fa * option (getter_part * option string) :=
  match phone_run topic_ "pa-test-0001" clock_ clock_ alive_ false moves (PhoneFactoryStub, None) with
  | Done s => s | Fail _ => (PhoneFactoryStub, None) end.
End PhoneDemo.

Lemma phone_callbacks_witness :
  exists called c, phone_manager_ (fst PhoneDemo.at_end) !! tt = Some (called, c) /\
    called = [ClientCb "a"] /\
    called ++ omap init_of (omap call_of (tel_log (self (hsm c)))) ≡ₚ [ClientCb "a"; ClientCb "b"; ReadyPromise].
Proof.
  pose proof (phone_callbacks PhoneDemo.topic_ "pa-test-0001" PhoneDemo.clock_ PhoneDemo.clock_ PhoneDemo.alive_
    false PhoneDemo.moves (fst PhoneDemo.at_end) (snd PhoneDemo.at_end)) as Hp.
  destruct (phone_manager_ (fst PhoneDemo.at_end) !! tt) as [[called c]|] eqn:Hk; [|by vm_compute in Hk].
  destruct Hp as (h & _ & _ & _ & Hp).
  - vm_compute. reflexivity.
  - rewrite list_elem_of_In. vm_compute. intuition discriminate.
  - exists called, c. split; [done|]. vm_compute in Hk. injection Hk as <- <-. split; [done|].
    apply Hp; vm_compute; reflexivity.
Defined.
