(* ===== verification/WsFilter.v ===== *)
(** * The wakeup-source filter (telaf-np/component/taf_prop_pms)

    A synchronous interface over the modem bridge: which modem events may wake the
    system up is a set of bits the modem holds and enforces.  [syncRequest] is the
    blocking request; the interface's calls are functions of what it returns.  The
    modem's side (sml/mpss/wakeup, once it is ready) and the relay of its events
    (sml/apss/power) are modelled too, so that the theorems speak of what a client
    sets, reads back and is woken up by. *)

From S2P Require Import Prelude Hsm HsmSpec HsmProps ActiveObject Json Envelope InitGate Manager TelWire Schema PowerShell Wakeup.

Local Open Scope Z_scope.

Inductive Result_t :=
  | Result_OK | Result_FAULT | Result_TIMEOUT | Result_NOT_FOUND | Result_BAD_PARAMETER
  | Result_SVC_UNAVAILABLE | Result_NOT_IMPLEMENTED | Result_MAX.

#[export] Instance Result_eq_dec : EqDecision Result_t.
Proof. solve_decision. Defined.

Definition MODEM_WS_INCOMING_SMS : Z := 1.
Definition MODEM_WS_INCOMING_VCALL : Z := 2.
Definition MODEM_WS_SIM_PROFILE_SWAP : Z := 4.
Definition MODEM_WS_NAS_SYS_INFO : Z := 8.
Definition kAllWakeupSources : Z :=
  Z.lor (Z.lor (Z.lor MODEM_WS_INCOMING_SMS MODEM_WS_INCOMING_VCALL) MODEM_WS_SIM_PROFILE_SWAP) MODEM_WS_NAS_SYS_INFO.

(** No bit outside the four. *)
Lemma known_bits b : Z.land b (Z.lnot kAllWakeupSources) = 0 <-> 0 <= b <= 15.
Proof.
  change kAllWakeupSources with (Z.ones 4). rewrite <- Z.ldiff_land, Z.ldiff_ones_r by lia.
  rewrite Z.shiftl_mul_pow2, Z.shiftr_div_pow2 by lia. change (2 ^ 4) with 16.
  pose proof (Z.div_mod b 16). pose proof (Z.mod_pos_bound b 16). lia.
Qed.

(** ** The blocking request *)

Section Sync.
Context {A : Type}.

(** The shared promise, and what the caller returned with ([None]: it still waits;
    [Some None]: it gave up). *)
Record sync_call := mkSync { promise_ : option A; returned_ : option (option A) }.
Definition new_sync : sync_call := mkSync None None.

(** The bridge's thread calls the callback (a second [set_value] throws, and the
    callback swallows it); the caller wakes up with the promise set, or past its
    deadline with the promise not set. *)
Inductive sync_action := Callback (a : A) | Awake | Expire.
Definition sync_step (x : sync_action) (c : sync_call) : option sync_call :=
  match x, promise_ c, returned_ c with
  | Callback a, None, r => Some (mkSync (Some a) r)
  | Callback _, Some _, _ => Some c
  | Awake, Some a, None => Some (mkSync (Some a) (Some (Some a)))
  | Expire, None, None => Some (mkSync None (Some None))
  | _, _, _ => None
  end.
Definition sync_steps (c c' : sync_call) : Prop := exists x, sync_step x c = Some c'.

(** What the first callback said. *)
Fixpoint first_callback (l : list sync_action) : option A :=
  match l with Callback a :: _ => Some a | _ :: l => first_callback l | [] => None end.
Fixpoint sync_run (l : list sync_action) (c : sync_call) : option sync_call :=
  match l with [] => Some c | x :: l => c ← sync_step x c; sync_run l c end.
End Sync.
Arguments sync_call : clear implicits.
Arguments sync_action : clear implicits.

(** The caller returns at most once, with what the bridge answered first if it was
    answered before its deadline and with nothing otherwise, whatever the bridge's
    thread does later. *)
Lemma sync_returns {A} (l : list (sync_action A)) c r :
  sync_run l new_sync = Some c -> returned_ c = Some r ->
  (exists a, r = Some a /\ first_callback l = Some a) \/ r = None.
Proof.
  assert (Hg : forall l (c0 c : sync_call A), sync_run l c0 = Some c ->
    match returned_ c0 with
    | Some r => returned_ c = Some r
    | None => returned_ c = None \/ returned_ c = Some None \/
        exists a, returned_ c = Some (Some a) /\
          match promise_ c0 with Some b => a = b | None => first_callback l = Some a end
    end).
  { clear. induction l as [|x l IH]; intros c0 c; simpl.
    { intros [= ->]. destruct (returned_ c) as [r|]; [done|]. by left. }
    destruct (sync_step x c0) as [c1|] eqn:Hs; [|done]. simpl. intros Hr. specialize (IH c1 c Hr).
    destruct x, c0 as [[b|] [r0|]]; simpl in *; simplify_eq/=; try done; auto.
    - destruct IH as [?|[?|(a' & ? & ->)]]; eauto.
    - right. right. by exists b. }
  intros Hr Hret. specialize (Hg l new_sync c Hr). simpl in Hg. rewrite Hret in Hg.
  destruct Hg as [?|[[= ->]|(a & [= ->] & Ha)]]; [done|by right|left; by exists a].
Qed.

(** ** The interface *)

Section Interface.
Context {json : Type} `{Json json, JsonValues json}.
(** The handle behind the opaque reference, and the world of the requests. *)
Context {Cb W : Type} (syncRequest : string -> string -> json -> W -> option (Envelope json) * W).

(** The callback goes with its context. *)
Record PmsCtx := mkPms { errCb : option Cb }.

(** The caller's variable, [None] for a null pointer to it; and whether the bridge is
    told to start. *)
Definition taf_prop_pa_pms_Init (mpssRefPtr : option (option PmsCtx)) (errCbFn : option Cb) :
    Result_t * option (option PmsCtx) * bool :=
  match mpssRefPtr with
  | None => (Result_BAD_PARAMETER, None, false)
  | Some (Some c) => (Result_OK, Some (Some c), false)
  | Some None => (Result_OK, Some (Some (mkPms errCbFn)), true)
  end.

Definition taf_prop_pa_pms_Deinit (mpssRefPtr : option (option PmsCtx)) : Result_t * option (option PmsCtx) :=
  match mpssRefPtr with
  | Some (Some _) => (Result_OK, Some None)
  | r => (Result_BAD_PARAMETER, r)
  end.

Definition taf_prop_pa_pms_SetWsFilter (mpssRef : option PmsCtx) (bitset : Z) (w : W) : Result_t * W :=
  match mpssRef with
  | None => (Result_BAD_PARAMETER, w)
  | Some _ =>
      if negb (Z.land bitset (Z.lnot kAllWakeupSources) =? 0) then (Result_BAD_PARAMETER, w)
      else
        let '(rsp, w) := syncRequest "wakeup.set_ws_filter.req" "wakeup.set_ws_filter.rsp"
                           (jobj [("bitset", of_int bitset)]) w in
        (match rsp with
         | None => Result_TIMEOUT
         | Some env => match error env with Some _ => Result_FAULT | None => Result_OK end
         end, w)
  end.

(** [out]: whether the out parameter is given; the value written to it. A member of
    another type throws through the interface. *)
Definition taf_prop_pa_pms_GetWsFilter (mpssRef : option PmsCtx) (out : bool) (w : W) :
    outcome (Result_t * option Z) * W :=
  match mpssRef, out with
  | Some _, true =>
      let '(rsp, w) := syncRequest "wakeup.get_ws_filter.req" "wakeup.get_ws_filter.rsp" (jobj []) w in
      (match rsp with
       | None => Done (Result_TIMEOUT, None)
       | Some env =>
           match error env, data env with
           | None, Some d => bits ← or_die (value_int "bitset" 0 d); Done (Result_OK, Some bits)
           | _, _ => Done (Result_FAULT, None)
           end
       end, w)
  | _, _ => (Done (Result_BAD_PARAMETER, None), w)
  end.

Definition taf_prop_pa_pms_EnableAllWs (mpssRef : option PmsCtx) (w : W) : Result_t * W :=
  taf_prop_pa_pms_SetWsFilter mpssRef kAllWakeupSources w.
End Interface.
Arguments PmsCtx : clear implicits.

(** ** The modem's side *)

Definition set_ws_filter_req : schema := SObject ["bitset"] [("bitset", SRange 0 15)].
Definition set_ws_filter_rsp : schema := SObject [] [].
Definition get_ws_filter_req : schema := SObject [] [].
Definition get_ws_filter_rsp : schema := SObject ["bitset"] [("bitset", SRange 0 15)].
Definition wake_members : list (string * schema) :=
  [("serviceId", SInteger None); ("sourceNodeId", SInteger None); ("destinationNodeId", SInteger None);
   ("isMsgIdValid", SBoolean); ("msgId", SInteger None); ("isPIDValid", SBoolean); ("pid", SInteger None);
   ("isProcessNameValid", SBoolean); ("processName", SString)].
Definition event_ind : schema := SObject wake_members.*1 wake_members.
Definition force_wakeup_req : schema := SObject [] wake_members.
Definition power_wakeup_ind : schema :=
  SObject ["wakeupType"; "qmiWakeupInfo"] [("wakeupType", SEnum ["UNKNOWN"; "QMI"]); ("qmiWakeupInfo", event_ind)].

(** [_WS_COMBO_TO_BIT]. *)
Definition ws_combo (svc msg : Z) : option Z :=
  if decide (svc = 5 /\ msg = 1) then Some MODEM_WS_INCOMING_SMS
  else if decide (svc = 9 /\ msg = 46) then Some MODEM_WS_INCOMING_VCALL
  else if decide (svc = 11 /\ msg = 51) then Some MODEM_WS_SIM_PROFILE_SWAP
  else if decide (svc = 3 /\ msg = 78) then Some MODEM_WS_NAS_SYS_INFO
  else None.

Section Modem.
Context {json : Type} `{Json json, JsonValues json}.

(** The filter, its copy on disk, and the events published. *)
Record Modem := mkModem { ws_filter : Z; saved : option Z; published : list json }.
(** Whether there is a file to keep it in (whose writes succeed), and what an answer's
    envelope carries beside its data: the request's correlation id and sender, the
    time, the modem's name. *)
Context (persists : bool) (corr : string) (now : Z) (modem requester : string).

Definition _FORCE_WAKEUP_DEFAULTS : list (string * json) :=
  [("serviceId", of_int 5); ("sourceNodeId", of_int 0); ("destinationNodeId", of_int 0);
   ("isMsgIdValid", of_bool true); ("msgId", of_int 1); ("isPIDValid", of_bool false); ("pid", of_int 0);
   ("isProcessNameValid", of_bool false); ("processName", of_string "")].

(** [dict.update]. *)
Definition dict_update (p d : json) : json :=
  foldl (fun p k => match jfind k d with Some v => jset k v p | None => p end) p (keys d).

Definition py_int (k : string) (p : json) : Z := match jfind k p with Some v => get_i64 v | None => 0 end.
Definition py_bool (k : string) (p : json) : bool := match jfind k p with Some v => get_bool v | None => false end.

Definition _ws_bit_for (p : json) : option Z :=
  if py_bool "isMsgIdValid" p then ws_combo (py_int "serviceId" p) (py_int "msgId" p) else None.

(** [force_wakeup] with data the dispatcher's schema admits, on the worker. *)
Definition _apply_force_wakeup (d : json) (m : Modem) : Modem :=
  let p := dict_update (jobj _FORCE_WAKEUP_DEFAULTS) d in
  let passes := match _ws_bit_for p with Some bit => negb (Z.land (ws_filter m) bit =? 0) | None => true end in
  if passes && conforms event_ind p then mkModem (ws_filter m) (saved m) (published m ++ [p]) else m.
Definition dispatch_action (d : json) (m : Modem) : Modem :=
  if conforms force_wakeup_req d then _apply_force_wakeup d m else m.

(** What a handler publishes is checked; a handler that raises answers nothing. *)
Definition _pub_rsp (s : schema) (d : json) : option (Envelope json) :=
  if conforms s d then Some (mkEnvelope 1 corr now modem (Some requester) (Some d) None) else None.

Definition _handle_set_ws_filter (d : json) (m : Modem) : option (Envelope json) * Modem :=
  let b := py_int "bitset" d in
  (_pub_rsp set_ws_filter_rsp (jobj []), mkModem b (if persists then Some b else saved m) (published m)).
Definition _handle_get_ws_filter (m : Modem) : option (Envelope json) * Modem :=
  (_pub_rsp get_ws_filter_rsp (jobj [("bitset", of_int (ws_filter m))]), m).

(** A request that its schema does not admit is dropped. *)
Definition dispatch_inbound (req : string) (d : json) (m : Modem) : option (Envelope json) * Modem :=
  if decide (req = "wakeup.set_ws_filter.req") then
    if conforms set_ws_filter_req d then _handle_set_ws_filter d m else (None, m)
  else if decide (req = "wakeup.get_ws_filter.req") then
    if conforms get_ws_filter_req d then _handle_get_ws_filter m else (None, m)
  else (None, m).

(** Another life of the modem's process. *)
Definition restart (m : Modem) : Modem :=
  mkModem (match saved m with Some b => if persists then b else 0 | None => 0 end) (saved m) (published m).

(** The members of [ks] the data has, each under its own name. *)
Definition pick (d : json) (ks : list string) : list (string * json) :=
  omap (fun k => (fun v => (k, v)) <$> jfind k d) ks.

(** [_handle_wakeup_event]: the relay, of an event its schema admits. *)
Definition relay (d : json) : json :=
  jobj [("wakeupType", of_string "QMI");
        ("qmiWakeupInfo",
         jobj (pick d wake_members.*1))].

(** ** The way between *)

(** What becomes of a request: it is answered, it is lost, or its answer is. *)
Inductive fate := Answered | RequestLost | AnswerLost.
Definition over_mqtt (req rsp_schema : string) (d : json) (w : fate * Modem) : option (Envelope json) * (fate * Modem) :=
  match w.1 with
  | Answered => let '(rsp, m) := dispatch_inbound req d w.2 in (rsp, (Answered, m))
  | AnswerLost => (None, (AnswerLost, (dispatch_inbound req d w.2).2))
  | RequestLost => (None, w)
  end.
End Modem.
Arguments Modem : clear implicits.

(** ** What the modem publishes, and what a client is told *)

Section Told.
Context {json : Type} `{JsonSpec json, !JsonValues json, !JsonValuesSpec json}.
Implicit Types p d j : json.

Lemma pick_member k d ks : member k (pick d ks) = if decide (k ∈ ks) then jfind k d else None.
Proof.
  unfold pick. induction ks as [|k' ks IH]; [done|]. csimpl. destruct (jfind k' d) as [v|] eqn:Hv; csimpl.
  - rewrite IH. destruct (decide (k' = k)) as [->|Hne].
    + rewrite Hv. case_decide; [|by rewrite decide_True by set_solver].
      by rewrite decide_True by set_solver.
    + destruct (decide (k ∈ ks)); [rewrite decide_True by set_solver; by destruct (jfind k d)|].
      by rewrite decide_False by set_solver.
  - rewrite IH. destruct (decide (k ∈ ks)); [by rewrite decide_True by set_solver|].
    destruct (decide (k = k')) as [->|]; [|by rewrite decide_False by set_solver].
    by rewrite Hv; case_decide.
Qed.

Lemma update_object p d : is_object p = true -> is_object (dict_update p d) = true.
Proof.
  unfold dict_update. generalize (keys d). intros ks. revert p.
  induction ks as [|k ks IH]; intros p Hp; simpl; [done|]. apply IH.
  destruct (jfind k d); [by apply jset_is_object|done].
Qed.

Lemma update_find k p d :
  is_object p = true -> is_object d = true ->
  jfind k (dict_update p d) = match jfind k d with Some v => Some v | None => jfind k p end.
Proof.
  intros Hp Hd.
  assert (Hg : forall ks p, is_object p = true ->
    jfind k (foldl (fun p k => match jfind k d with Some v => jset k v p | None => p end) p ks) =
      if decide (k ∈ ks) then match jfind k d with Some v => Some v | None => jfind k p end else jfind k p).
  { clear p Hp. induction ks as [|k' ks IH]; intros p Hp; [done|]. cbn [foldl].
    destruct (jfind k' d) as [v|] eqn:Hv.
    - rewrite IH, jset_find by (try apply jset_is_object; done).
      destruct (decide (k' = k)) as [->|Hne].
      + rewrite Hv, (decide_True (P := k ∈ k :: ks)) by set_solver. by case_decide.
      + destruct (decide (k ∈ ks)); [by rewrite decide_True by set_solver|by rewrite decide_False by set_solver].
    - rewrite IH by done. destruct (decide (k ∈ ks)); [by rewrite decide_True by set_solver|].
      destruct (decide (k = k')) as [->|]; [|by rewrite decide_False by set_solver].
      rewrite Hv. by case_decide. }
  unfold dict_update. rewrite Hg by done. case_decide as Hk; [done|].
  destruct (jfind k d) as [v|] eqn:Hv; [|done]. exfalso. apply Hk, keys_find; [done|]. by exists v.
Qed.

Local Notation defaults := (jobj _FORCE_WAKEUP_DEFAULTS : json).
Local Notation payload d := (dict_update defaults d).

Lemma payload_find k d :
  is_object d = true ->
  jfind k (payload d) = match jfind k d with Some v => Some v | None => member k _FORCE_WAKEUP_DEFAULTS end.
Proof. intros Hd. rewrite update_find by (try apply jobj_object; done). by rewrite jobj_find. Qed.

Lemma payload_conforms d : conforms force_wakeup_req d = true -> conforms event_ind (payload d) = true.
Proof.
  intros Hd. destruct (conforms_object _ _ _ Hd) as (Ho & _ & _).
  assert (Hdef : conforms event_ind defaults = true).
  { unfold event_ind. type_object. unfold _FORCE_WAKEUP_DEFAULTS. by type_members. }
  destruct (conforms_object _ _ _ Hdef) as (_ & Hr & _).
  apply object_conforms; [apply update_object, jobj_object|apply (bool_decide_unpack _); vm_compute; exact I| |].
  - eapply Forall_impl; [exact Hr|]. intros k Hk. cbv beta in *.
    rewrite update_find by (try apply jobj_object; done). destruct (jfind k d); [by eexists|done].
  - intros k v. rewrite update_find by (try apply jobj_object; done).
    destruct (jfind k d) as [w|] eqn:Hw.
    + intros [= <-]. by apply (conforms_member _ _ _ _ _ Hd).
    + by apply (conforms_member _ _ _ _ _ Hdef).
Qed.

(** What a forced wakeup says: the data's members, the defaults for the others. *)
Definition forced (d : json) : option QmiWakeupInfo :=
  service ← value_uint "serviceId" 5 d;
  source ← value_uint "sourceNodeId" 0 d;
  destination ← value_uint "destinationNodeId" 0 d;
  msg_ok ← value_bool "isMsgIdValid" true d;
  msg ← value_uint "msgId" 1 d;
  pid_ok ← value_bool "isPIDValid" false d;
  p ← value_int "pid" 0 d;
  name_ok ← value_bool "isProcessNameValid" false d;
  name ← value_string "processName" "" d;
  Some (mkQmi service source destination msg_ok msg pid_ok p name_ok name).

Local Notation picked d := (jobj (pick (payload d) wake_members.*1)).

Lemma picked_find k d :
  is_object d = true -> k ∈ wake_members.*1 ->
  jfind k (picked d) = match jfind k d with Some v => Some v | None => member k _FORCE_WAKEUP_DEFAULTS end.
Proof. intros Hd Hk. by rewrite jobj_find, pick_member, decide_True, payload_find. Qed.

Lemma picked_value {A} (get : json -> option A) k def0 def v d :
  is_object d = true -> k ∈ wake_members.*1 -> member k _FORCE_WAKEUP_DEFAULTS = Some v -> get v = Some def ->
  value_as get k def0 (picked d) = value_as get k def d.
Proof.
  intros Hd Hk Hm Hg. unfold value_as. rewrite jobj_object, picked_find, Hd, Hm by done. by destruct (jfind k d).
Qed.

Lemma picked_string k def0 def d :
  is_object d = true -> k ∈ wake_members.*1 -> member k _FORCE_WAKEUP_DEFAULTS = Some (of_string def : json) ->
  value_string k def0 (picked d) = value_string k def d.
Proof.
  intros Hd Hk Hm. unfold value_string. rewrite jobj_object, picked_find, Hd, Hm by done.
  destruct (jfind k d); [done|]. by rewrite of_string_is, of_string_get.
Qed.

Lemma picked_decode d : is_object d = true -> decodeQmiWakeupInfo (picked d) = forced d.
Proof.
  intros Ho.
  assert (HV : forall A (get : json -> option A) k def0 def v,
    bool_decide (k ∈ wake_members.*1) = true -> member k _FORCE_WAKEUP_DEFAULTS = Some v -> get v = Some def ->
    value_as get k def0 (picked d) = value_as get k def d).
  { intros A get k def0 def v Hk%bool_decide_eq_true. by apply picked_value. }
  assert (HN : value_string "processName" "" (picked d) = value_string "processName" "" d).
  { apply picked_string; [done|apply (bool_decide_unpack _); vm_compute; exact I|done]. }
  revert HV HN. generalize (picked d). intros q HV HN.
  unfold decodeQmiWakeupInfo, forced, value_uint, value_int, value_bool. rewrite HN.
  rewrite (HV _ as_uint "serviceId" 0 5 (of_int 5)), (HV _ as_uint "sourceNodeId" 0 0 (of_int 0)),
    (HV _ as_uint "destinationNodeId" 0 0 (of_int 0)), (HV _ as_bool "isMsgIdValid" false true (of_bool true)),
    (HV _ as_uint "msgId" 0 1 (of_int 1)), (HV _ as_bool "isPIDValid" false false (of_bool false)),
    (HV _ as_int "pid" 0 0 (of_int 0)), (HV _ as_bool "isProcessNameValid" false false (of_bool false))
    by first [done | apply as_uint_of; lia | apply as_int_of; lia | apply as_bool_of].
  done.
Qed.

Lemma forced_reads d : conforms force_wakeup_req d = true -> is_Some (forced d).
Proof. unfold force_wakeup_req, forced. intros Hd. read_typed. Qed.

(** The event, relayed, is what the listener's manager decodes, and is admitted by
    the schema of the relay's own indication. *)
Lemma wakeup_relayed d :
  conforms force_wakeup_req d = true ->
  decode_wakeup (relay (payload d)) = (fun q => mkWakeup q WAKEUP_QMI) <$> forced d /\
  conforms power_wakeup_ind (relay (payload d)) = true.
Proof.
  intros Hd. destruct (conforms_object _ _ _ Hd) as (Ho & _ & _). unfold relay.
  split.
  - pose proof (picked_decode d Ho) as Hp. revert Hp. generalize (jobj (pick (payload d) wake_members.*1)).
    intros q Hq. unfold decode_wakeup. rewrite (read_string _ _ _ "QMI") by done. simpl mbind.
    unfold jat. rewrite jobj_object, jobj_find. simpl member. cbv iota. rewrite Hq.
    by destruct (forced d).
  - unfold power_wakeup_ind. type_object. type_members; [set_solver|].
    apply object_conforms; [apply jobj_object|apply (bool_decide_unpack _); vm_compute; exact I| |].
    + pose proof (payload_conforms d Hd) as (_ & Hr & _)%conforms_object. rewrite Forall_forall in *.
      intros k Hk. rewrite jobj_find, pick_member, decide_True by done. by apply Hr.
    + intros k v. rewrite jobj_find, pick_member. case_decide; [|done].
      apply (conforms_member _ _ _ _ _ (payload_conforms d Hd)).
Qed.
End Told.

(** ** Sequences of calls and events *)

(** Calls to the interface, with what becomes of their requests; forced wakeups; the
    modem's process started again. *)
Inductive ws_move (json : Type) :=
  | MSet (ref : bool) (bits : Z) (f : fate) | MEnableAll (ref : bool) (f : fate) | MGet (ref out : bool) (f : fate)
  | MForce (d : json) | MRestart.
Arguments MSet {_}. Arguments MEnableAll {_}. Arguments MGet {_}. Arguments MForce {_}. Arguments MRestart {_}.
Inductive ws_result := Called (r : Result_t) (written : option Z) | Thrown | NoCall.

Section Run.
Context {json : Type} `{Json json, JsonValues json}.
Context (persists : bool) (corr : string) (now : Z) (modem requester : string).

Definition a_ctx (ref : bool) : option (PmsCtx unit) := if ref then Some (mkPms None) else None.
Definition request_over (req rsp : string) (d : json) (w : fate * Modem json) :=
  over_mqtt persists corr now modem requester req rsp d w.

Definition ws_step (x : ws_move json) (m : Modem json) : ws_result * Modem json :=
  match x with
  | MSet ref bits f => let '(r, w) := taf_prop_pa_pms_SetWsFilter request_over (a_ctx ref) bits (f, m) in (Called r None, w.2)
  | MEnableAll ref f => let '(r, w) := taf_prop_pa_pms_EnableAllWs request_over (a_ctx ref) (f, m) in (Called r None, w.2)
  | MGet ref out f =>
      let '(r, w) := taf_prop_pa_pms_GetWsFilter request_over (a_ctx ref) out (f, m) in
      (match r with Done (r, o) => Called r o | _ => Thrown end, w.2)
  | MForce d => (NoCall, dispatch_action d m)
  | MRestart => (NoCall, restart persists m)
  end.

Fixpoint ws_run (l : list (ws_move json)) (m : Modem json) : list ws_result * Modem json :=
  match l with
  | [] => ([], m)
  | x :: l => let '(r, m) := ws_step x m in let '(rs, m) := ws_run l m in (r :: rs, m)
  end.

(** The specification: a set of four sources, and what has been told. *)
Inductive Source := Sms | Vcall | ProfileSwap | NasSysInfo.
Definition source_bit (s : Source) : Z := match s with Sms => 0 | Vcall => 1 | ProfileSwap => 2 | NasSysInfo => 3 end.
Definition qmi_source (svc msg : Z) : option Source :=
  match svc, msg with
  | 5, 1 => Some Sms | 9, 46 => Some Vcall | 11, 51 => Some ProfileSwap | 3, 78 => Some NasSysInfo
  | _, _ => None
  end.
Definition given {A} (get : json -> A) (def : A) (k : string) (d : json) : A := from_option get def (jfind k d).
Definition source_of (d : json) : option Source :=
  if given get_bool true "isMsgIdValid" d
  then qmi_source (given get_i64 5 "serviceId" d) (given get_i64 1 "msgId" d) else None.
Definition allowed (filter : Z) (d : json) : bool :=
  match source_of d with Some s => Z.testbit filter (source_bit s) | None => true end.

Definition spec_set (ref : bool) (bits : Z) (f : fate) (filter : Z) : ws_result * Z :=
  if ref && (0 <=? bits) && (bits <=? 15) then
    match f with
    | Answered => (Called Result_OK None, bits)
    | RequestLost => (Called Result_TIMEOUT None, filter)
    | AnswerLost => (Called Result_TIMEOUT None, bits)
    end
  else (Called Result_BAD_PARAMETER None, filter).
Definition spec_step (x : ws_move json) (w : Z * list (option WakeupInfo)) : ws_result * (Z * list (option WakeupInfo)) :=
  let '(filter, told) := w in
  match x with
  | MSet ref bits f => let '(r, filter) := spec_set ref bits f filter in (r, (filter, told))
  | MEnableAll ref f => let '(r, filter) := spec_set ref 15 f filter in (r, (filter, told))
  | MGet ref out f =>
      (if ref && out then match f with Answered => Called Result_OK (Some filter) | _ => Called Result_TIMEOUT None end
       else Called Result_BAD_PARAMETER None, w)
  | MForce d =>
      (NoCall, (filter, if conforms force_wakeup_req d && allowed filter d
                        then told ++ [(fun q => mkWakeup q WAKEUP_QMI) <$> forced d] else told))
  | MRestart => (NoCall, (if persists then filter else 0, told))
  end.
Fixpoint spec_run (l : list (ws_move json)) (w : Z * list (option WakeupInfo)) : list ws_result * (Z * list (option WakeupInfo)) :=
  match l with
  | [] => ([], w)
  | x :: l => let '(r, w) := spec_step x w in let '(rs, w) := spec_run l w in (r :: rs, w)
  end.
End Run.

Section Enforced.
Context {json : Type} `{JsonSpec json, !JsonValues json, !JsonValuesSpec json}.
Context (persists : bool) (corr : string) (now : Z) (modem requester : string).
Implicit Types m : Modem json.

(** What of the modem the specification speaks of. *)
Definition ws_view m : Z * list (option WakeupInfo) :=
  (ws_filter m, (fun p => decode_wakeup (relay p)) <$> published m).
Definition ws_ok m : Prop :=
  0 <= ws_filter m <= 15 /\ (persists = true -> from_option id 0 (saved m) = ws_filter m) /\
  Forall (fun p => conforms power_wakeup_ind (relay p) = true) (published m).

Lemma set_handled b m :
  0 <= b <= 15 ->
  dispatch_inbound persists corr now modem requester "wakeup.set_ws_filter.req" (jobj [("bitset", of_int b)]) m =
    (Some (mkEnvelope 1 corr now modem (Some requester) (Some (jobj [])) None),
     mkModem b (if persists then Some b else saved m) (published m)).
Proof.
  intros Hb. unfold dispatch_inbound. rewrite decide_True by done.
  replace (conforms set_ws_filter_req _) with true.
  2: { symmetry. unfold set_ws_filter_req. type_object. type_members. apply conforms_range; unfold in_i64; lia. }
  unfold _handle_set_ws_filter, _pub_rsp, py_int. rewrite jobj_find. simpl member. cbv iota.
  rewrite of_int_get by (unfold in_i64; lia).
  replace (conforms set_ws_filter_rsp _) with true; [done|].
  symmetry. unfold set_ws_filter_rsp. type_object. type_members.
Qed.

Lemma get_handled m :
  0 <= ws_filter m <= 15 ->
  dispatch_inbound persists corr now modem requester "wakeup.get_ws_filter.req" (jobj []) m =
    (Some (mkEnvelope 1 corr now modem (Some requester) (Some (jobj [("bitset", of_int (ws_filter m))])) None), m).
Proof.
  intros Hb. unfold dispatch_inbound. rewrite decide_False, decide_True by done.
  replace (conforms get_ws_filter_req _) with true.
  2: { symmetry. unfold get_ws_filter_req. type_object. type_members. }
  unfold _handle_get_ws_filter, _pub_rsp.
  replace (conforms get_ws_filter_rsp _) with true; [done|].
  symmetry. unfold get_ws_filter_rsp. type_object. type_members. apply conforms_range; unfold in_i64; lia.
Qed.

(** A call of the interface: what it returns and what it leaves at the modem. *)
Lemma set_step ref bits f m :
  ws_ok m ->
  exists m', taf_prop_pa_pms_SetWsFilter (request_over persists corr now modem requester) (a_ctx ref) bits (f, m) =
      (match (spec_set ref bits f (ws_filter m)).1 with Called r _ => r | _ => Result_OK end, (f, m')) /\
    (exists r, (spec_set ref bits f (ws_filter m)).1 = Called r None) /\
    ws_view m' = ((spec_set ref bits f (ws_filter m)).2, (ws_view m).2) /\ ws_ok m'.
Proof.
  intros Hm. unfold taf_prop_pa_pms_SetWsFilter, spec_set, a_ctx. destruct ref; simpl andb.
  2: { exists m. simpl. eauto. }
  destruct (decide (0 <= bits <= 15)) as [Hb|Hb].
  - rewrite (proj2 (known_bits bits) Hb). simpl negb. cbv iota.
    replace ((0 <=? bits) && (bits <=? 15)) with true by lia. cbv iota.
    unfold request_over, over_mqtt. simpl fst. simpl snd. rewrite set_handled by done.
    assert (Hok : ws_ok (mkModem bits (if persists then Some bits else saved m) (published m))).
    { destruct Hm as (_ & _ & Hp). split_and!; simpl; [lia|lia| |done]. by intros ->. }
    destruct f; eexists; simpl; eauto.
  - replace (Z.land bits (Z.lnot kAllWakeupSources) =? 0) with false.
    2: { symmetry. apply Z.eqb_neq. by rewrite known_bits. }
    replace ((0 <=? bits) && (bits <=? 15)) with false by lia. exists m. simpl. eauto.
Qed.

Lemma get_step ref out f m :
  ws_ok m ->
  ws_step persists corr now modem requester (MGet ref out f) m =
    ((spec_step persists (MGet ref out f : ws_move json) (ws_view m)).1, m).
Proof.
  intros (Hb & _). simpl. unfold taf_prop_pa_pms_GetWsFilter, a_ctx. destruct ref, out; try done.
  unfold request_over, over_mqtt. simpl fst. simpl snd. simpl andb. cbv iota.
  rewrite get_handled by done. destruct f; [|done|done].
  simpl. unfold value_int, value_as. rewrite jobj_object, jobj_find. simpl member. cbv iota.
  by rewrite as_int_of by lia.
Qed.

(** A forced wakeup. *)
Lemma combo_source svc msg : ws_combo svc msg = (fun s => 2 ^ source_bit s) <$> qmi_source svc msg.
Proof.
  unfold ws_combo. repeat case_decide; try (destruct_and!; by subst).
  destruct (qmi_source svc msg) as [s|] eqn:Hs; [exfalso|done].
  unfold qmi_source in Hs. repeat case_match; simplify_eq; tauto.
Qed.

Lemma ws_bit_source d :
  conforms force_wakeup_req d = true ->
  _ws_bit_for (dict_update (jobj _FORCE_WAKEUP_DEFAULTS) d) = (fun s => 2 ^ source_bit s) <$> source_of d.
Proof.
  intros (Ho & _ & _)%conforms_object.
  assert (HB : py_bool "isMsgIdValid" (dict_update (jobj _FORCE_WAKEUP_DEFAULTS) d) = given get_bool true "isMsgIdValid" d).
  { unfold py_bool, given. rewrite payload_find by done. destruct (jfind _ d); [done|]. apply of_bool_get. }
  assert (HI : forall k n, in_i64 n -> member k _FORCE_WAKEUP_DEFAULTS = Some (of_int n : json) ->
    py_int k (dict_update (jobj _FORCE_WAKEUP_DEFAULTS) d) = given get_i64 n k d).
  { intros k n Hn Hk. unfold py_int, given. rewrite payload_find, Hk by done. destruct (jfind k d); [done|]. by apply of_int_get. }
  unfold _ws_bit_for, source_of. rewrite HB, (HI "serviceId" 5), (HI "msgId" 1), combo_source by (unfold in_i64; done || lia).
  by destruct (given get_bool true "isMsgIdValid" d).
Qed.

Lemma ws_passes filter d :
  conforms force_wakeup_req d = true ->
  match _ws_bit_for (dict_update (jobj _FORCE_WAKEUP_DEFAULTS) d) with
  | Some bit => negb (Z.land filter bit =? 0) | None => true end = allowed filter d.
Proof.
  intros Hd. rewrite ws_bit_source by done. unfold allowed. destruct (source_of d) as [s|]; [|done]. simpl.
  assert (Hn : 0 <= source_bit s) by (by destruct s). revert Hn. generalize (source_bit s). intros n Hn.
  destruct (Z.testbit filter n) eqn:Ht.
  - apply negb_true_iff, Z.eqb_neq. intros Hz. apply (f_equal (fun z => Z.testbit z n)) in Hz.
    by rewrite Z.land_spec, Z.pow2_bits_true, Ht, Z.bits_0 in Hz.
  - apply negb_false_iff, Z.eqb_eq, Z.bits_inj_0. intros k. rewrite Z.land_spec, Z.pow2_bits_eqb by done.
    destruct (Z.eqb_spec n k); [subst; by rewrite Ht|apply andb_false_r].
Qed.

Lemma ws_step_spec x m :
  ws_ok m ->
  (ws_step persists corr now modem requester x m).1 = (spec_step persists x (ws_view m)).1 /\
  ws_view (ws_step persists corr now modem requester x m).2 = (spec_step persists x (ws_view m)).2 /\
  ws_ok (ws_step persists corr now modem requester x m).2.
Proof.
  intros Hm. destruct x as [ref bits f|ref f|ref out f|d|].
  - destruct (set_step ref bits f m Hm) as (m' & He & (r & Hr) & Hv & Hok). simpl.
    rewrite He. simpl. destruct (spec_set ref bits f (ws_filter m)) as [r0 b] eqn:Hs. simpl in *. by subst.
  - destruct (set_step ref 15 f m Hm) as (m' & He & (r & Hr) & Hv & Hok). simpl.
    unfold taf_prop_pa_pms_EnableAllWs. change kAllWakeupSources with 15. rewrite He. simpl.
    destruct (spec_set ref 15 f (ws_filter m)) as [r0 b] eqn:Hs. simpl in *. by subst.
  - rewrite get_step by done. simpl. by destruct ref, out.
  - split; [done|]. cbn [ws_step snd]. unfold dispatch_action.
    replace (spec_step persists (MForce d) (ws_view m)).2 with
      (ws_filter m, if conforms force_wakeup_req d && allowed (ws_filter m) d
                    then (ws_view m).2 ++ [(fun q => mkWakeup q WAKEUP_QMI) <$> forced d] else (ws_view m).2) by done.
    destruct (conforms force_wakeup_req d) eqn:Hd; [|by split]. unfold _apply_force_wakeup. rewrite ws_passes, payload_conforms by done. rewrite andb_true_r. simpl andb.
    destruct (wakeup_relayed d Hd) as [Hw Hc]. destruct (allowed (ws_filter m) d); [|by split].
    split.
    + unfold ws_view. simpl. by rewrite fmap_app, <- Hw.
    + destruct Hm as (? & ? & ?). split_and!; simpl; [lia|lia|done|]. by apply Forall_app_2; [|apply Forall_singleton].
  - split; [done|]. destruct Hm as (Hb & Hp & Hc). destruct m as [b sv pub]. cbn [ws_filter saved published] in *.
    assert (Hw : ws_view (restart persists (mkModem b sv pub)) = (spec_step persists MRestart (ws_view (mkModem b sv pub))).2).
    { unfold ws_view, restart. cbn. destruct persists; [|by destruct sv]. rewrite <- Hp by done. by destruct sv. }
    split; [done|]. pose proof (f_equal fst Hw : ws_filter (restart _ _) = _) as Hf. split; [|split; [|done]].
    + change (0 <= ws_filter (restart persists (mkModem b sv pub)) <= 15). rewrite Hf. cbn. destruct persists; [done|lia].
    + intros Ht. change (from_option id 0 sv = ws_filter (restart persists (mkModem b sv pub))).
      rewrite Hf, Ht. by apply Hp.
Qed.
End Enforced.

(** C36: what calls of the interface return and what a client is woken up by, from the
    modem's first start on: the calls and events refine a specification with a filter
    of four sources only.  A set within the four is there when the modem has had it,
    answered or not; one beyond is refused and changes nothing; a get gives the filter
    as it is.  A forced wakeup the dispatcher admits is told to the listeners, with
    the data it was given and the defaults for the rest, unless it says it is from a
    source the filter leaves out; the filter outlives the modem's process if there is
    a file for it, and is none otherwise.  All that is relayed is what the relay's own
    schema admits. *)
Theorem ws_filter_enforced {json} `{JsonSpec json, !JsonValues json, !JsonValuesSpec json}
    (persists : bool) corr now modem requester (l : list (ws_move json)) :
  let '(rs, m) := ws_run persists corr now modem requester l (mkModem 0 None []) in
  (rs, (ws_filter m, (fun p => decode_wakeup (relay p)) <$> published m)) = spec_run persists l (0, []) /\
  Forall (fun p => conforms power_wakeup_ind (relay p) = true) (published m) /\
  Forall is_Some (spec_run persists l (0, [])).2.2.
Proof.
  assert (Hg : forall m, ws_ok persists m ->
    let '(rs, m') := ws_run persists corr now modem requester l m in
    (rs, ws_view m') = spec_run persists l (ws_view m) /\ ws_ok persists m').
  { induction l as [|x l IH]; intros m Hm; [done|]. cbn [ws_run spec_run].
    destruct (ws_step_spec persists corr now modem requester x m Hm) as (Hr & Hv & Hok).
    destruct (ws_step _ _ _ _ _ x m) as [r m1], (spec_step persists x (ws_view m)) as [r' w']. cbn [fst snd] in *. subst.
    specialize (IH m1 Hok). destruct (ws_run _ _ _ _ _ l m1) as [rs m'], (spec_run persists l (ws_view m1)) as [rs' w'].
    by destruct IH as [[= -> ->] ?]. }
  assert (Hs : forall w, Forall is_Some w.2 -> Forall is_Some (spec_run persists l w).2.2).
  { clear Hg. induction l as [|x l IH]; intros w Hw; [done|]. cbn [spec_run].
    assert (Hx : Forall is_Some (spec_step persists x w).2.2).
    { destruct w as [b told], x as [ref bits f|ref f| |d|]; cbn [spec_step fst snd] in *; try done.
      - by destruct (spec_set ref bits f b).
      - by destruct (spec_set ref 15 f b).
      - case_match eqn:Ha; [|done]. apply andb_true_iff in Ha as [Hd _].
        apply Forall_app_2; [done|]. apply Forall_singleton. destruct (forced_reads d Hd) as [q ->]. by eexists. }
    destruct (spec_step persists x w) as [r w1]. specialize (IH w1 Hx). by destruct (spec_run persists l w1). }
  specialize (Hg (mkModem 0 None []) ltac:(by split_and!; simpl; [lia|lia|..])).
  destruct (ws_run _ _ _ _ _ l _) as [rs m]. destruct Hg as [He Hm]. split_and!; [done|apply Hm|by apply Hs].
Qed.

Lemma ws_filter_enforced_witness :
  let d := jobj [("serviceId", of_int 9); ("msgId", of_int 46)] : jval in
  let l := [MForce d; MSet true 2 AnswerLost; MForce d; MGet true true Answered; MSet true 16 Answered; MRestart; MForce d] in
  let '(rs, m) := ws_run true "c" 0 "mpss" "pa" l (mkModem 0 None []) in
  rs = [NoCall; Called Result_TIMEOUT None; NoCall; Called Result_OK (Some 2); Called Result_BAD_PARAMETER None; NoCall; NoCall] /\
  length (published m) = 2%nat.
Proof.
  intros d l. pose proof (ws_filter_enforced true "c" 0 "mpss" "pa" l) as Ht.
  destruct (ws_run true "c" 0 "mpss" "pa" l (mkModem 0 None [])) as [rs m]. destruct Ht as ([= Hr Hf Hp] & _).
  split; [rewrite Hr; vm_compute; reflexivity|].
  apply (f_equal length) in Hp. rewrite length_fmap in Hp. rewrite Hp. vm_compute. reflexivity.
Defined.
