(* ===== verification/EndToEnd.v ===== *)
(** * Requests from end to end

    A manager and the modem bridge, each with the threads that touch it: what the
    manager sends is posted to the bridge with the function that will answer it, what
    the bridge calls back is run on the manager.  Other parts of the process use the
    bridge too.  [Requester] is what a manager is for the bridge and its clients;
    Requesters.v and EcallRequester.v give the instances. *)

From S2P Require Import Prelude Hsm HsmSpec HsmProps ActiveObject Json Envelope Manager ModemBridge BridgeSpec BridgeProps BridgeRun.

Local Open Scope Z_scope.

(** ** Managers as the bridge sees them *)

(** The arguments of [send_request], and the operation its callback captures. *)
Record rpc_request (json Op : Type) := mkReq {
  rq_op : Op; rq_topic : string; rq_schema : string; rq_env : Envelope json; rq_timeout : Z }.
Arguments mkReq {json Op}.
Arguments rq_op {json Op}.
Arguments rq_topic {json Op}.
Arguments rq_schema {json Op}.
Arguments rq_env {json Op}.
Arguments rq_timeout {json Op}.

Class Requester (json C Op N Mv : Type) := {
  rq_boot : N -> Prop;
  (** The moves of its worker, of the bridge's thread and of clients. *)
  rq_step : Mv -> N -> outcome N;
  (** The bridge's thread runs the callback of an operation's request. *)
  rq_reply : Op -> option (Envelope json) -> Mv;
  rq_replied : Mv -> option (Op * option (Envelope json));
  (** History: the requests sent, and the clients' callbacks called. *)
  rq_requests : N -> list (rpc_request json Op);
  rq_told : N -> list C;
  (** The callbacks a run owes an answer, those that wait for the answer to a request,
      and those a given answer calls. *)
  rq_asked : list Mv -> list C;
  rq_waits : Op -> list C;
  rq_reached : Op * option (Envelope json) -> list C }.

Class RequesterSpec (json C Op N Mv : Type) `{Requester json C Op N Mv} : Prop := {
  rq_reply_replied op rsp : rq_replied (rq_reply op rsp) = Some (op, rsp);
  rq_boot_quiet (n : N) : rq_boot n -> rq_requests n = [];
  (** A reply sends nothing. *)
  rq_grows (n0 : N) (mvs : list Mv) n mv n' : rq_boot n0 -> run rq_step mvs n0 = Done n -> rq_step mv n = Done n' ->
    exists rs, rq_requests n' = rq_requests n ++ rs /\ (is_Some (rq_replied mv) -> rs = []);
  (** Every callback owed has been called or waits. *)
  rq_account (n0 : N) (mvs : list Mv) n : rq_boot n0 -> run rq_step mvs n0 = Done n ->
    rq_told n ++ ((rq_op <$> rq_requests n) ≫= rq_waits) ≡ₚ rq_asked mvs ++ (omap rq_replied mvs ≫= rq_reached);
  rq_reached_waits op rsp : exists k, rq_reached (op, rsp) = take k (rq_waits op);
  rq_reached_timeout op : rq_reached (op, None) = rq_waits op }.

Section EndToEnd.
Context {json : Type} `{Json json} {C Op N Mv K : Type} `{R : !Requester json C Op N Mv}.
(** The bridge's surroundings. *)
Context (parse : string -> option json) (dump : json -> option string) (schema_check : string -> json -> option bool).
Context (rc_of : list mosq_call -> mosq_call -> Z) (uds_socket : string) (clock_at token_at : nat -> Z) (ndebug : bool).

(** The functions given to [send_request]: the manager's capture their operation. *)
Inductive rpc_fn := Ours (op : Op) | Theirs (k : K).
(** Each with the correlation id of its request. *)
Definition rpc_callback : Type := rpc_fn * string.
Definition corr_tag (c : rpc_callback) : string := c.2.
Definition our_cb (op : Op) (env : Envelope json) : rpc_callback := (Ours op, corrId env).
Definition our_op (c : rpc_callback) : option Op := match c.1 with Ours op => Some op | Theirs _ => None end.

Local Notation request := (rpc_request json Op).
Local Notation AOBridge := (AOBridge (json := json) (C := rpc_callback)).
Local Notation bridge_handler :=
  (ModemBridge.handler parse dump schema_check rc_of uds_socket clock_at token_at (C := rpc_callback)).

Record System := mkSystem {
  node : N;
  bridge : AOBridge;
  due : list (Op * option (Envelope json));   (* called by the bridge's thread, not run yet *)
  moves : list Mv }.                           (* history: what the manager's threads did *)

(** [send_request] of a manager's handler, on the caller's clock. *)
Definition post_request (now : Z) (b : AOBridge) (q : request) : AOBridge :=
  send_request now (rq_topic q) (rq_schema q) (rq_env q) (Some (our_cb (rq_op q) (rq_env q))) (rq_timeout q) b.
Definition new_id (q : request) : string := corrId (rq_env q).

(** The correlation ids of the requests the bridge has been given. *)
Definition ids_used (b : AOBridge) : list string := corr_tag <$> (accepted b ≫= fun p => send_cb (payload p)).
Definition ids_fresh (ids : list string) (b : AOBridge) : bool :=
  bool_decide (NoDup ids) && forallb (fun id => bool_decide (id ∉ ids_used b)) ids.

(** What the others post. *)
Definition others_post (e : bridge_event (json := json) (C := rpc_callback)) (b : AOBridge) : bool :=
  match e with
  | Stop_Signal => false
  | SendReq_Signal q =>
      match sr_cb q with
      | Some (Theirs _, t) => bool_decide (t = corrId (sr_envelope q)) && ids_fresh [t] b
      | _ => false
      end
  | _ => true
  end.
Definition others_do (a : action) (b : AOBridge) : bool :=
  match a with AStop => false | APost p => others_post (payload p) b | _ => true end.

(** The function of a request of ours that the bridge calls. *)
Definition our_call (c : ModemBridge.call (json := json) (C := rpc_callback)) : option (Op * option (Envelope json)) :=
  match c with RpcCall (Ours op, _) r => Some (op, r) | _ => None end.

(** Threads of the manager (its worker and its clients'), of the bridge, and the
    bridge's thread inside a function of the manager. *)
Inductive sys_action := ManagerDoes (mv : Mv) (now : Z) | BridgeDoes (a : action (E := bridge_event (json := json) (C := rpc_callback))) | CallbackRuns.

Definition is_reply (mv : Mv) : bool := bool_decide (is_Some (rq_replied mv)).

Definition sys_step (x : sys_action) (s : System) : option System :=
  match x with
  | ManagerDoes mv now =>
      if is_reply mv then None else
      match rq_step mv (node s) with
      | Done n =>
          let qs := drop (length (rq_requests (node s))) (rq_requests n) in
          if ids_fresh (new_id <$> qs) (bridge s)
          then Some (mkSystem n (foldl (post_request now) (bridge s) qs) (due s) (moves s ++ [mv]))
          else None
      | Fail _ => None
      end
  | BridgeDoes a =>
      if others_do a (bridge s) then
        b ← step bridge_handler ndebug ModemBridge.outbox ModemBridge.flush a (bridge s);
        Some (mkSystem (node s) b
                (due s ++ omap our_call (drop (length (out (self (hsm (bridge s))))) (out (self (hsm b))))) (moves s))
      else None
  | CallbackRuns =>
      match due s with
      | (op, rsp) :: rest =>
          match rq_step (rq_reply op rsp) (node s) with
          | Done n => Some (mkSystem n (bridge s) rest (moves s ++ [rq_reply op rsp]))
          | Fail _ => None
          end
      | [] => None
      end
  end.
Fixpoint sys_run (xs : list sys_action) (s : System) : option System :=
  match xs with [] => Some s | x :: xs => s ← sys_step x s; sys_run xs s end.

(** The bridge's object, created and not yet told to connect. *)
Definition at_rest (h : Hsm bridge_state (bridge_event (json := json) (C := rpc_callback)) (Bridge (json := json) (C := rpc_callback))) : Prop :=
  state_ h = st Disconnected_St /\ in_flight_ (self h) = ∅ /\ kept_events (self h) = [] /\ out (self h) = [] /\
  conn_tok (self h) = None /\ timer_ops (self h) = [].

(** The bridge just started. *)
Definition boot (n0 : N) (h : Hsm bridge_state (bridge_event (json := json) (C := rpc_callback)) Bridge) : System :=
  mkSystem n0 (started h) [] [].

(** ** The invariant *)

Context `{!TimerTokens token_at}.

Definition new_cb (q : request) : rpc_callback := our_cb (rq_op q) (rq_env q).

Lemma new_cb_ids (qs : list request) : corr_tag <$> (new_cb <$> qs) = new_id <$> qs.
Proof. by rewrite <- list_fmap_compose. Qed.
Lemma new_cb_ops (qs : list request) : omap our_op (new_cb <$> qs) = rq_op <$> qs.
Proof. induction qs as [|q qs IH]; csimpl; by rewrite ?IH. Qed.

Lemma ids_used_post p (b : AOBridge) :
  running_ b = true -> ids_used (post_event p b) = ids_used b ++ (corr_tag <$> send_cb (payload p)).
Proof.
  intros Hr. unfold ids_used, post_event. rewrite Hr. simpl accepted. rewrite bind_app, fmap_app. simpl. by rewrite app_nil_r.
Qed.

Lemma post_requests now qs asked (b : AOBridge) :
  rpc_inv token_at corr_tag asked b ->
  let b' := foldl (post_request now) b qs in
  rpc_inv token_at corr_tag (asked ++ (new_cb <$> qs)) b' /\ hsm b' = hsm b /\ ids_used b' = ids_used b ++ (new_id <$> qs).
Proof.
  revert asked b. induction qs as [|[op tp schema env timeout] qs IH]; intros asked b Hi; simpl.
  { by rewrite !app_nil_r. }
  set (p := Fifo (SendReq_Signal (mkSendReq tp schema env (Some (our_cb op env)) (now + timeout)))).
  pose proof (pending_post token_at corr_tag p asked b Hi ltac:(eexists; done)) as Hp. simpl in Hp.
  destruct (IH _ _ Hp) as (H1' & H2' & H3').
  change (post_request now b (mkReq op tp schema env timeout)) with (post_event p b).
  split; [|split].
  - by rewrite <- (assoc_L (++)) in H1'.
  - rewrite H2'. unfold post_event. by case_match.
  - rewrite H3', ids_used_post by apply (ri_running _ _ _ _ Hi). by rewrite <- (assoc_L (++)).
Qed.

Lemma bridge_ids a (b b' : AOBridge) :
  step bridge_handler ndebug ModemBridge.outbox ModemBridge.flush a b = Some b' -> running_ b = true ->
  exists l, ids_used b' = ids_used b ++ (corr_tag <$> handed_in a) ++ l.
Proof.
  intros Hs Hr. unfold step in Hs.
  assert (Hsame : forall b1 : AOBridge, accepted b1 = accepted b -> exists l, ids_used b1 = ids_used b ++ [] ++ l).
  { intros b1 Ha. exists []. unfold ids_used. by rewrite Ha, app_nil_r. }
  destruct a; simpl in Hs.
  - injection Hs as <-. exists []. by rewrite ids_used_post, app_nil_r.
  - destruct (notifies b); [done|]. injection Hs as <-. by apply Hsame.
  - destruct (worker_ b); try done. injection Hs as <-. by apply Hsame.
  - destruct (worker_ b); try done. injection Hs as <-. apply Hsame. unfold run_wait. repeat case_match; done.
  - destruct (worker_ b); try done. injection Hs as <-. apply Hsame. unfold run_dispatch. repeat case_match; done.
  - destruct (worker_ b) as [| | |[|p l]| |]; try done; injection Hs as <-; [by apply Hsame|].
    exists (corr_tag <$> send_cb (payload p)). rewrite ids_used_post by done. done.
  - rewrite Hr in Hs. destruct (worker_ b), (stopper b); injection Hs as <-; by apply Hsame.
  - destruct (worker_ b), (stopper b); try done; injection Hs as <-; by apply Hsame.
  - destruct (worker_ b), (stopper b); try done; injection Hs as <-; by apply Hsame.
  - destruct (worker_ b), (stopper b); try done; injection Hs as <-; by apply Hsame.
Qed.

Context (n0 : N) `{!RequesterSpec json C Op N Mv} (Hboot : rq_boot n0).

Record sys_inv (s : System) : Prop := {
  si_run : run rq_step (moves s) n0 = Done (node s);
  si_asked : exists asked, rpc_inv token_at corr_tag asked (bridge s) /\ NoDup (corr_tag <$> asked) /\
    (forall t, t ∈ corr_tag <$> asked -> t ∈ ids_used (bridge s)) /\ omap our_op asked ≡ₚ rq_op <$> rq_requests (node s);
  si_due : omap our_call (out (self (hsm (bridge s)))) = omap rq_replied (moves s) ++ due s }.

Lemma fresh_app (asked ids : list string) (b : AOBridge) :
  NoDup asked -> (forall t, t ∈ asked -> t ∈ ids_used b) -> ids_fresh ids b = true -> NoDup (asked ++ ids).
Proof.
  intros Hnd Hu [Hn Hf]%andb_true_iff. apply bool_decide_eq_true in Hn. rewrite forallb_forall in Hf.
  apply NoDup_app. split; [done|]. split; [|done]. intros t Ht Hi. apply list_elem_of_In, Hf, bool_decide_eq_true in Hi. auto.
Qed.

Lemma others_ok a (b : AOBridge) :
  others_do a b = true ->
  action_ok corr_tag a /\ ids_fresh (corr_tag <$> handed_in a) b = true /\ omap our_op (handed_in a) = [].
Proof.
  assert (Hnil : ids_fresh [] b = true) by (unfold ids_fresh; rewrite bool_decide_true by constructor; done).
  assert (Hu : forall u, others_post u b = true ->
    event_ok corr_tag u /\ ids_fresh (corr_tag <$> send_cb u) b = true /\ omap our_op (send_cb u) = []); [|by destruct a; try apply Hu].
  intros u. destruct u as [| | | | | | |q| | | | | | | | |]; simpl; try done.
  destruct (sr_cb q) as [[[op|k] t]|] eqn:Hcb; try done. intros [Ht Hf]%andb_true_iff. apply bool_decide_eq_true in Ht.
  split; [by exists (Theirs k, t)|]. split; [exact Hf|done].
Qed.

Lemma move_run s mv n :
  sys_inv s -> rq_step mv (node s) = Done n -> run rq_step (moves s ++ [mv]) n0 = Done n.
Proof. intros Hi Hm. rewrite run_app, (si_run _ Hi). simpl. by rewrite Hm. Qed.

Lemma called_ours (b : Bridge (C := rpc_callback)) :
  omap our_op (called b) = fst <$> omap our_call (out b).
Proof.
  unfold called. induction (out b) as [|c l IH]; [done|]. destruct c as [[[op|k] t] r|tok c op|c tp env]; csimpl; by rewrite IH.
Qed.

Lemma sys_step_inv a s s' : sys_inv s -> sys_step a s = Some s' -> sys_inv s'.
Proof.
  intros Hi Hs. destruct (si_asked _ Hi) as (asked & Hb & Hnd & Hu & Hsent).
  pose proof (si_due _ Hi) as Hd. destruct a as [mv now|a|]; simpl in Hs.
  - unfold is_reply in Hs. case_bool_decide as Hrep; [done|]. destruct (rq_step mv (node s)) as [n|] eqn:Hm; [|done].
    destruct (rq_grows _ _ _ _ _ Hboot (si_run _ Hi) Hm) as (qs & Hqs & _). rewrite Hqs, drop_app_length in Hs.
    destruct (ids_fresh (new_id <$> qs) (bridge s)) eqn:Hf; [|done]. injection Hs as <-.
    destruct (post_requests now qs asked (bridge s) Hb) as (Hb' & Hh & Hids).
    split; simpl.
    + by eapply move_run.
    + exists (asked ++ (new_cb <$> qs)). split; [done|]. rewrite fmap_app, new_cb_ids.
      split; [by apply (fresh_app _ _ (bridge s))|]. rewrite Hids. split.
      * intros t. rewrite !elem_of_app. intros [?|?]; auto.
      * by rewrite omap_app, new_cb_ops, Hqs, fmap_app, Hsent.
    + rewrite Hh, Hd, omap_app. apply eq_None_not_Some in Hrep. simpl. by rewrite Hrep, app_nil_r.
  - destruct (others_do a (bridge s)) eqn:Ho; [|done]. destruct (others_ok _ _ Ho) as (Hok & Hf & Hno).
    destruct (step _ _ _ _ a (bridge s)) as [b'|] eqn:Hst; [|done]. injection Hs as <-.
    destruct (bridged_step _ _ _ _ _ _ _ _ corr_tag a asked _ _ Hb Hok Hnd Hst) as (Hb' & l & Hout).
    destruct (bridge_ids _ _ _ Hst) as (l' & Hids); [apply (ri_running _ _ _ _ Hb)|].
    split; simpl; [apply (si_run _ Hi)| |].
    + exists (asked ++ handed_in a). split; [done|]. rewrite fmap_app. split; [by apply (fresh_app _ _ (bridge s))|]. split.
      * intros t. rewrite Hids, !elem_of_app. intros [?|?]; auto.
      * by rewrite omap_app, Hno, app_nil_r.
    + rewrite Hout, drop_app_length, omap_app, Hd. by rewrite <- (assoc_L (++)).
  - destruct (due s) as [|[op rsp] rest] eqn:Hdue; [done|].
    destruct (rq_step (rq_reply op rsp) (node s)) as [n|] eqn:Hm; [|done]. injection Hs as <-.
    destruct (rq_grows _ _ _ _ _ Hboot (si_run _ Hi) Hm) as (qs & Hqs & Hnil).
    rewrite Hnil, app_nil_r in Hqs by (rewrite rq_reply_replied; by eexists). split; simpl.
    + by eapply move_run.
    + exists asked. by rewrite Hqs.
    + rewrite Hd, omap_app. simpl. by rewrite rq_reply_replied, <- (assoc_L (++)).
Qed.

Lemma sys_run_inv h xs s :
  at_rest h -> sys_run xs (boot n0 h) = Some s -> sys_inv s.
Proof.
  intros (Hst & Hf & Hk & Ho & Hw & Ht).
  assert (Hi0 : sys_inv (boot n0 h)).
  { split; simpl; [done| |by rewrite Ho]. exists []. split_and!; [by apply rpc_inv_start|constructor| |by rewrite rq_boot_quiet].
    intros t Hx. by apply not_elem_of_nil in Hx. }
  revert Hi0. generalize (boot n0 h). induction xs as [|a xs IH]; intros s0 Hi0; simpl; [by intros [= <-]|].
  destruct (sys_step a s0) as [s1|] eqn:Hs; [|done]. simpl. apply IH. by eapply sys_step_inv.
Qed.

(** Every request sent is somewhere. *)
Lemma sent_somewhere s :
  sys_inv s ->
  rq_op <$> rq_requests (node s) ≡ₚ
    (omap rq_replied (moves s)).*1 ++ (due s).*1 ++ omap our_op (pending (bridge s)).
Proof.
  intros Hi. destruct (si_asked _ Hi) as (asked & Hb & _ & _ & Hsent). pose proof (si_due _ Hi) as Hd.
  by rewrite <- Hsent, <- (ri_ledger _ _ _ _ Hb), omap_app, called_ours, Hd, fmap_app, <- (assoc_L (++)).
Qed.

(** The callbacks the answers call wait for them. *)
Lemma reached_submseteq (ps : list (Op * option (Envelope json))) :
  (ps ≫= rq_reached) ⊆+ (ps.*1 ≫= rq_waits).
Proof.
  induction ps as [|[op rsp] ps IH]; [done|]. rewrite fmap_cons, !bind_cons. apply submseteq_app; [|done].
  destruct (rq_reached_waits op rsp) as [k ->]. apply sublist_submseteq, sublist_take.
Qed.

Lemma told_owed s : sys_inv s -> rq_told (node s) ⊆+ rq_asked (moves s).
Proof.
  intros Hi. pose proof (rq_account _ _ _ Hboot (si_run _ Hi)) as Ha.
  rewrite (sent_somewhere _ Hi), bind_app in Ha.
  pose proof (reached_submseteq (omap rq_replied (moves s))) as [k Hk]%submseteq_Permutation.
  set (rest := (due s).*1 ++ _) in Ha. rewrite Hk in Ha.
  assert (Hp : rq_told (node s) ++ k ++ (rest ≫= rq_waits) ≡ₚ rq_asked (moves s)).
  { apply (Permutation_app_inv_r (omap rq_replied (moves s) ≫= rq_reached)). rewrite <- Ha. solve_Permutation. }
  rewrite <- Hp. by apply submseteq_inserts_r.
Qed.

Lemma all_reached s :
  sys_inv s -> due s = [] -> omap our_op (pending (bridge s)) = [] ->
  Forall (fun p => rq_reached p = rq_waits p.1) (omap rq_replied (moves s)) ->
  rq_told (node s) ≡ₚ rq_asked (moves s).
Proof.
  intros Hi Hdue Hpend Hdec. pose proof (rq_account _ _ _ Hboot (si_run _ Hi)) as Ha.
  rewrite (sent_somewhere _ Hi), Hdue, Hpend, !app_nil_r in Ha.
  assert (He : omap rq_replied (moves s) ≫= rq_reached = (omap rq_replied (moves s)).*1 ≫= rq_waits).
  { clear Ha. induction Hdec as [|p l Hp _ IH]; [done|]. rewrite fmap_cons, !bind_cons. by rewrite IH, Hp. }
  rewrite He in Ha. by apply Permutation_app_inv_r in Ha.
Qed.
End EndToEnd.

(** Schedules: an event posted to the bridge; the bridge's worker takes an event and
    handles it, then makes [own] posts of its own.  A bridge that has not connected. *)
Section Schedules.
Context {json Op Mv K : Type}.
Local Notation act := (sys_action (json := json) (Op := Op) (Mv := Mv) (K := K)).
Definition posted (e : bridge_event (json := json) (C := rpc_callback (Op := Op) (K := K))) : act := BridgeDoes (APost (Fifo e)).
Definition turn (own : nat) : list act :=
  BridgeDoes AWait :: BridgeDoes ADispatch :: repeat (BridgeDoes AOwnPost) (S own).
Definition idle_bridge (paId : string) :
    Hsm bridge_state (bridge_event (json := json) (C := rpc_callback (Op := Op) (K := K))) (Bridge (json := json) (C := rpc_callback (Op := Op) (K := K))) :=
  mkHsm (st Disconnected_St) (st Disconnected_St) false false [] false []
    (mkBridge (default_config true) paId true ∅ ∅ ∅ 0 None [] 0 [] [] [] [] []).
End Schedules.

(** A log that only grows, [sends] telling its requests: what is added sends nothing
    when [quiet] holds. *)
Section Growth.
Context {E Rq : Type} (sends : E -> option Rq).

Definition growth (quiet : Prop) (l l' : list E) : Prop :=
  exists es, l' = l ++ es /\ (quiet -> omap sends es = []).

Lemma growth_refl q l : growth q l l.
Proof. exists []. by rewrite app_nil_r. Qed.
Lemma growth_trans q l1 l2 l3 : growth q l1 l2 -> growth q l2 l3 -> growth q l1 l3.
Proof.
  intros (e1 & -> & H1) (e2 & -> & H2). exists (e1 ++ e2). rewrite (assoc_L (++)). split; [done|].
  intros Hq. by rewrite omap_app, H1, H2.
Qed.
Lemma growth_app (q : Prop) l es : (q -> omap sends es = []) -> growth q l (l ++ es).
Proof. by exists es. Qed.
Lemma growth_sent q l l' : growth q l l' -> exists rs, omap sends l' = omap sends l ++ rs /\ (q -> rs = []).
Proof. intros (es & -> & Hq). exists (omap sends es). by rewrite omap_app. Qed.
End Growth.

Lemma heard_plain {Mv B A} (ready_after : B -> Mv -> B) (f : B -> Mv -> option A) (g : Mv -> option A) :
  (forall r mv, f r mv = g mv) -> forall r mvs, heard ready_after f r mvs = omap g mvs.
Proof. intros Hf r mvs. revert r. induction mvs as [|mv mvs IH]; intros r; simpl; [done|]. rewrite IH, Hf. by destruct (g mv). Qed.

(** C11: requests from end to end, under every interleaving of the threads of a manager,
    of a bridge that is not told to stop and of the bridge's other users, as long as no
    correlation id comes back (the counter they are drawn from has not gone round).  Every request the manager
    has sent is, once each, answered, or about to be by the bridge's thread, or held by
    the bridge (in its queue or its worker's hand, deferred, or in flight); no client's
    callback is ever called more often than it is owed a call; each request in flight has
    its response timer scheduled and not cancelled; an operation is answered only with an
    envelope that carries the correlation id of its own request; and when the bridge holds
    no request of the manager any more and nothing failed to decode (a timeout never
    does), the callbacks called are exactly those owed a call. *)
Theorem requests_end_to_end {json} `{Json json} {C Op N Mv K} `{R : !Requester json C Op N Mv, !RequesterSpec json C Op N Mv}
    parse dump schema_check rc_of uds_socket clock_at token_at `{TimerTokens token_at} ndebug (n0 : N) h xs
    (s : System (json := json) (Op := Op) (N := N) (Mv := Mv) (K := K)) :
  rq_boot n0 -> at_rest h ->
  sys_run parse dump schema_check rc_of uds_socket clock_at token_at ndebug xs (boot n0 h) = Some s ->
  let replied := omap rq_replied (moves s) in
  rq_op <$> rq_requests (node s) ≡ₚ replied.*1 ++ (due s).*1 ++ omap our_op (pending (bridge s)) /\
  rq_told (node s) ⊆+ rq_asked (moves s) /\
  (forall k i, in_flight_ (self (hsm (bridge s))) !! k = Some i ->
     timer_armed (RspTimer k) (if_timer_token i) (timer_ops (self (hsm (bridge s))))) /\
  (forall op id env, RpcCall (Ours op, id) (Some env) ∈ out (self (hsm (bridge s))) -> corrId env = id) /\
  (due s = [] -> omap our_op (pending (bridge s)) = [] -> Forall (fun p => rq_reached p = rq_waits p.1) replied ->
   rq_told (node s) ≡ₚ rq_asked (moves s)).
Proof.
  intros Hboot Hrest Hr replied.
  assert (Hi : sys_inv token_at n0 s) by exact (sys_run_inv _ _ _ _ _ _ _ _ _ Hboot _ _ _ Hrest Hr).
  destruct (si_asked _ _ _ Hi) as (asked & Hb & _).
  split; [by eapply sent_somewhere|]. split; [by eapply told_owed|]. split; [|split].
  - apply (t_flight _ _ _ _ (ri_timers _ _ _ _ Hb)).
  - intros op id env Hc. symmetry. apply (ri_given _ _ _ _ Hb (Ours op, id) env). apply list_elem_of_omap. by eexists.
  - by eapply all_reached.
Qed.
