(* ===== verification/Requesters.v ===== *)
(** * The managers over the bridge

    The three shells meet [RequesterSpec]: EndToEnd.v holds of the data, network,
    telephony and SIM managers, whatever their operations. *)

From S2P Require Import Prelude Hsm HsmSpec HsmProps ActiveObject Json Envelope InitGate Manager Answers ModemBridge BridgeSpec BridgeProps BridgeRun.
From S2P Require Import NetShell Socks NetShellProps TelShell TelShellProps SimShell SimProps EndToEnd.

Local Open Scope Z_scope.

(** ** Data and network managers *)

Section NetRequester.
Context {json : Type} `{Json json, JsonValues json}.
Context {C L Op V Note X Ev : Type} `{EqDecision L} `{!NetOps json C L Op V Note X Ev}.
Context (topic : string -> string) (paId : string) (now_at counter_at : nat -> Z) (alive_at : nat -> L -> bool).

Local Notation NetManager := (NetManager json C L Op V Note X).
Local Notation net_effect := (net_effect json C L Op V Note).
Local Notation net_move := (net_move (json := json) (C := C) (L := L) (Op := Op) (Ev := Ev)).
Local Notation move_step := (move_step topic paId now_at counter_at alive_at (Note := Note) (X := X)).
Local Notation heard f := (heard ready_after f false).

Definition net_sends (e : net_effect) : option (rpc_request json Op) :=
  match e with Request op tp schema env timeout => Some (mkReq op tp schema env timeout) | _ => None end.

#[local] Instance net_requester : Requester json C Op (net_state * NetManager) net_move := {|
  rq_boot n := exists x cb, n = (NetNotReady_St, new_net x cb);
  rq_step := move_step;
  rq_reply := Reply;
  rq_replied := replied false;
  rq_requests n := omap net_sends (log n.2);
  rq_told n := omap told (log n.2);
  rq_asked mvs := (heard refused_op mvs ≫= turned_away) ++ (heard sent_op mvs ≫= clients);
  rq_waits := clients;
  rq_reached := answered |}.

Local Notation growth q m m' := (growth net_sends q (log m) (log m')).

Lemma broadcast_grows q n (m : NetManager) : growth q m (broadcastToListeners_ alive_at n m).
Proof. unfold broadcastToListeners_. destruct reaps; case_decide; simpl; first [apply growth_refl|by apply growth_app]. Qed.

Lemma tell_grows q ns (m : NetManager) : growth q m (tell alive_at ns m).
Proof.
  revert m. induction ns as [|n ns IH]; intros m; [apply growth_refl|]. simpl.
  eapply growth_trans; [apply (broadcast_grows _ (Notify n))|apply IH].
Qed.

Lemma report_grows q leaf s (m : NetManager) : growth q m (snd (net_report alive_at leaf s m)).
Proof.
  unfold net_report, degrade. destruct (is_ready leaf), s as [[]|]; simpl; try apply growth_refl;
    try apply (broadcast_grows _ _ (publishStatus_ _ m)).
  unfold ready_entry. destruct (markReadyAndFire _ _) as [[] g]; simpl; [apply (growth_refl _ _ (log m))|].
  apply (broadcast_grows _ _ (set_gate g (publishStatus_ SERVICE_AVAILABLE m))).
Qed.

Lemma answer_grows q l (m : NetManager) : growth q m (answer l m).
Proof.
  apply growth_app. intros _. apply omap_all_none. by intros e ([[c v] code] & -> & _)%list_elem_of_fmap.
Qed.

Lemma send_grows (q : Prop) op (m : NetManager) : ~ q -> growth q m (send_op topic paId now_at counter_at op m).
Proof. intros Hq. unfold send_op. destruct (op_request op) as [[? ?] ?]. by apply growth_app. Qed.

Lemma move_grows mv leaf m leaf' m' :
  leaf <> NetOperating_St -> move_step mv (leaf, m) = Done (leaf', m') -> growth (is_Some (replied false mv)) m m'.
Proof.
  intros Hl Hs. assert (Hno : ~ is_Some (None : option (Op * option (Envelope json)))) by (by intros [? ?]).
  destruct mv as [e|op rsp|op|c|x|x]; cbn [NetShellProps.move_step] in Hs.
  2-6: injection Hs as _ <-; try apply growth_refl; try apply answer_grows.
  2: destruct (is_ready leaf); [by apply send_grows|apply growth_refl].
  rewrite net_chart_step in Hs by done. unfold net_step in Hs. apply bind_done' in Hs as (_ & _ & Hs).
  destruct e as [env|b|x].
  1,2: injection Hs as Hs; match type of Hs with ?r = _ => replace m' with (snd r) by (by rewrite Hs) end; apply report_grows.
  apply bind_done' in Hs as (m1 & Hm & [= _ ->]). destruct (asks x) as [op|].
  - injection Hm as <-. destruct (is_ready leaf); [by apply send_grows|].
    unfold refuse. destruct refuses; [apply answer_grows|apply growth_refl].
  - destruct (passed leaf x); [injection Hm as <-; apply growth_refl|].
    unfold indicate in Hm. apply bind_done' in Hm as ([x' ns] & _ & [= <-]). apply (tell_grows _ ns (set_own x' m)).
Qed.

Lemma net_leaf mvs x cb leaf m : net_run topic paId now_at counter_at alive_at mvs (NetNotReady_St, new_net x cb) = Done (leaf, m) ->
  leaf <> NetOperating_St.
Proof.
  apply (net_run_hears topic paId now_at counter_at alive_at (fun _ _ => None : option unit)
    (fun _ leaf _ => leaf <> NetOperating_St)); [done|].
  intros l leaf1 mv m1 leaf2 m2 Hl _ Hs. by eapply move_log.
Qed.

#[local] Instance net_requester_spec `{!NetSpec json C L Op V Note X Ev} : RequesterSpec json C Op (net_state * NetManager) net_move.
Proof.
  split.
  - done.
  - by intros n (x & cb & ->).
  - intros n0 mvs [leaf m] mv [leaf' m'] (x & cb & ->) Hr Hs. eapply growth_sent, move_grows; [by eapply net_leaf|exact Hs].
  - intros n0 mvs [leaf m] (x & cb & ->) Hr. destruct (net_log _ _ _ _ _ _ _ _ _ _ Hr) as [Hs Ht]. simpl.
    rewrite Ht, <- Hs, <- (heard_plain ready_after replied (replied false) (fun r mv => eq_refl) false mvs).
    replace (rq_op <$> omap net_sends (log m)) with (omap sent (log m)); [solve_Permutation|].
    clear. induction (log m) as [|[] l IH]; csimpl; rewrite ?IH; done.
  - intros op rsp. apply answer_clients.
  - intros op. unfold rq_reached, rq_waits, net_requester, answered, clients. simpl. rewrite answer_timeout, <- list_fmap_compose.
    apply list_fmap_ext. by intros _ [c v] _.
Qed.
End NetRequester.

(** ** Telephony managers *)

Section TelRequester.
Context {json : Type} `{Json json, JsonValues json}.
Context {C L Op V Note X Ev : Type} `{EqDecision L} `{!TelOps json C L Op V Note X Ev}.
Context (topic : string -> string) (paId : string) (now_at counter_at : nat -> Z) (alive_at : nat -> L -> bool).

Local Notation TelManager := (TelManager json C L Op V Note X).
Local Notation tel_effect := (tel_effect json C L Op V Note).
Local Notation tel_move := (tel_move (json := json) (C := C) (L := L) (Op := Op) (Ev := Ev)).
Local Notation tel_move_step := (tel_move_step topic paId now_at counter_at alive_at (Note := Note) (X := X)).
Local Notation heard f := (heard tel_ready_after f false).

Definition tel_sends (e : tel_effect) : option (rpc_request json Op) :=
  match e with TelRequest op tp schema env timeout => Some (mkReq op tp schema env timeout) | _ => None end.

#[local] Instance tel_requester : Requester json C Op (bool * TelManager) tel_move := {|
  rq_boot n := exists x cb, n = (false, new_tel x cb);
  rq_step := tel_move_step;
  rq_reply := TReply;
  rq_replied := tel_replied false;
  rq_requests n := omap tel_sends (tel_log n.2);
  rq_told n := omap told_of (omap call_of (tel_log n.2));
  rq_asked mvs := heard tel_asked mvs ≫= tel_op_clients;
  rq_waits := tel_op_clients;
  rq_reached := tel_answered |}.

Local Notation growth q m m' := (growth tel_sends q (tel_log m) (tel_log m')).

Lemma tel_broadcast_grows q n (m : TelManager) : growth q m (tel_broadcast alive_at n m).
Proof. unfold tel_broadcast. case_decide; simpl; [apply growth_refl|by apply growth_app]. Qed.

Lemma tel_tell_grows q ns (m : TelManager) : growth q m (tel_tell alive_at ns m).
Proof.
  revert m. induction ns as [|n ns IH]; intros m; [apply growth_refl|]. simpl.
  eapply growth_trans; [apply (tel_broadcast_grows _ (TelNotify n))|apply IH].
Qed.

Lemma tel_answer_grows q l (m : TelManager) : growth q m (tel_answer_calls l m).
Proof.
  apply growth_app. intros _. apply omap_all_none. by intros e ([[c v] code] & -> & _)%list_elem_of_fmap.
Qed.

Lemma drain_grows q s (m : TelManager) : growth q m (drain_init_cbs s m).
Proof. apply growth_app. intros _. apply omap_all_none. by intros e (c & -> & _)%list_elem_of_fmap. Qed.

Lemma tel_change_grows q ready r (m : TelManager) : growth q m (snd (tel_change alive_at ready r m)).
Proof.
  unfold tel_change. destruct ready, r as [[]|]; simpl; try apply growth_refl.
  - unfold tel_exit. eapply growth_trans; [|apply tel_broadcast_grows].
    case_decide; [apply (growth_refl _ _ (tel_log m))|apply (drain_grows _ _ (tel_publish SERVICE_UNAVAILABLE m))].
  - unfold tel_entry. eapply growth_trans; [|apply tel_broadcast_grows].
    apply (drain_grows _ _ (tel_publish SERVICE_AVAILABLE m)).
Qed.

Lemma tel_move_grows mv up m up' m' :
  tel_move_step mv (up, m) = Done (up', m') -> growth (is_Some (tel_replied false mv)) m m'.
Proof.
  intros Hs. destruct mv as [e|op rsp|c|l|l]; cbn [TelShellProps.tel_move_step] in Hs.
  2-5: injection Hs as _ <-; try apply growth_refl; try apply tel_answer_grows.
  2: destruct up; [by apply growth_app|apply growth_refl].
  unfold tel_step in Hs. apply bind_done' in Hs as (_ & _ & Hs). destruct e as [env|b|c|x].
  1,2: injection Hs as Hs; match type of Hs with ?r = _ => replace m' with (snd r) by (by rewrite Hs) end; apply tel_change_grows.
  - injection Hs as _ <-. destruct up; [by apply growth_app|apply (growth_refl _ _ (tel_log m))].
  - apply bind_done' in Hs as (m1 & Hm & [= _ ->]). destruct (tel_asks x) as [op|].
    + injection Hm as <-. destruct up; [|apply tel_answer_grows]. unfold tel_send. destruct (tel_request op) as [[? ?] ?].
      apply growth_app. by intros [? ?].
    + destruct up; [|injection Hm as <-; apply growth_refl].
      unfold tel_indicate in Hm. apply bind_done' in Hm as ([x' ns] & _ & [= <-]). apply (tel_tell_grows _ ns (tel_set_own x' m)).
Qed.

#[local] Instance tel_requester_spec `{!TelSpec json C L Op V Note X Ev} : RequesterSpec json C Op (bool * TelManager) tel_move.
Proof.
  split.
  - done.
  - by intros n (x & cb & ->).
  - intros n0 mvs [up m] mv [up' m'] (x & cb & ->) _ Hs. eapply growth_sent, tel_move_grows. exact Hs.
  - intros n0 mvs [up m] (x & cb & ->) Hr. apply run_does in Hr as [_ Hr]; [|exact _].
    destruct (spec_run mvs (tel_view_of false (new_tel x cb))) as [[cs ns] v] eqn:Hs.
    destruct Hr as (Hc & _ & _). apply spec_calls in Hs as (H1 & H2 & _); [|done]. simpl in Hc |- *.
    replace (rq_op <$> omap tel_sends (tel_log m)) with (omap sent_of (omap call_of (tel_log m)));
      [|clear; induction (tel_log m) as [|[] l IH]; csimpl; rewrite ?IH; done].
    rewrite Hc, H1, H2, <- (heard_plain tel_ready_after tel_replied (tel_replied false) (fun r mv => eq_refl) false mvs), tel_asked_split, bind_app.
    solve_Permutation.
  - intros op rsp. apply tel_answer_laws.
  - intros op. unfold rq_reached, rq_waits, tel_requester, tel_answered, tel_op_clients. simpl.
    destruct (tel_answer_laws op) as (_ & -> & _). rewrite <- list_fmap_compose. apply list_fmap_ext. by intros _ [c v] _.
Qed.
End TelRequester.

(** ** SIM managers *)

Section SimRequester.
Context {json : Type} `{Json json, JsonValues json}.
Context {C L R V Note X Ev : Type} `{EqDecision L} `{ops : !SimOps json C L R V Note X Ev, spec : !SimSpec json C L R V Note X Ev}.
Context (topic : string -> string) (paId : string) (now_at counter_at : nat -> Z) (alive_at : nat -> L -> bool).

Local Notation SimManager := (SimManager json C L R V Note X Ev).
Local Notation sim_effect := (sim_effect json C L R V Note Ev).
Local Notation sim_move := (sim_move (json := json) (C := C) (L := L) (R := R) (Note := Note) (Ev := Ev)).
Local Notation sim_move_step := (sim_move_step topic paId now_at counter_at alive_at (ops := ops)).
Local Notation sim_exec := (SimShell.exec topic paId now_at counter_at alive_at (ops := ops)).
Local Notation heard f := (heard view_after f sim_boot).

Definition sim_sends (e : sim_effect) : option (rpc_request json R) :=
  match e with SimRequest r tp schema env timeout => Some (mkReq r tp schema env timeout) | _ => None end.

#[local] Instance sim_requester : Requester json C R (bool * SimManager) sim_move := {|
  rq_boot n := exists x cb, n = (false, new_sim x cb);
  rq_step := sim_move_step;
  rq_reply := SReply;
  rq_replied := sim_replied sim_boot;
  rq_requests n := omap sim_sends (sim_log n.2);
  rq_told n := sim_told n.2;
  rq_asked mvs := heard SimProps.accepted mvs ≫= sim_event_clients;
  rq_waits := sim_request_clients;
  rq_reached := sim_reached |}.

Local Notation growth q m m' := (growth sim_sends q (sim_log m) (sim_log m')).

Lemma exec_grows (q : Prop) cs (m : SimManager) : (q -> omap send_of cs = []) -> growth q m (sim_exec cs m).
Proof.
  revert m. induction cs as [|c cs IH]; intros m Hq; [apply growth_refl|]. simpl.
  eapply growth_trans; [|apply IH; intros Hq'%Hq; by destruct c].
  destruct c as [r| | |n| |]; simpl; try by apply growth_app.
  - unfold sim_send. destruct (sim_request r) as [[? ?] ?]. apply growth_app. by intros Hq'%Hq.
  - unfold sim_broadcast. case_decide; simpl; [apply growth_refl|by apply growth_app].
Qed.

Lemma sim_change_grows (q : Prop) up r (m : SimManager) :
  ~ q -> growth q m (snd (sim_change topic paId now_at counter_at alive_at up r m)).
Proof.
  intros Hq. assert (He : forall cs m, growth q m (sim_exec cs m)) by (intros; by apply exec_grows).
  unfold sim_change. destruct up, r as [[]|]; simpl; try apply growth_refl; try apply (He _ (sim_set_flag false (sim_publish _ m))).
  unfold sim_entry. cbv zeta. set (m1 := fireInitCallbacks_ _ _ _ _ _ _ _).
  set (m2 := if negb _ then m1 else _).
  assert (H1 : growth q m m1) by apply (He _ (sim_set_cbs [] true (sim_publish SERVICE_AVAILABLE (sim_set_flag true m)))).
  assert (H2 : growth q m1 m2) by (subst m2; destruct (negb _); [apply growth_refl|apply (He [_])]).
  destruct (sim_resync (sim_own m2)) as [x rs]. eapply growth_trans; [exact H1|]. eapply growth_trans; [exact H2|].
  apply (He (Send <$> rs) (sim_set_own x m2)).
Qed.

Lemma sim_move_grows mv up m up' m' :
  sim_move_step mv (up, m) = Done (up', m') -> growth (is_Some (sim_replied sim_boot mv)) m m'.
Proof.
  intros Hs. assert (Hno : forall q : Prop, ~ q -> forall cs m, growth q m (sim_exec cs m)) by (intros; by apply exec_grows).
  destruct mv as [e|r rsp|cb|n|l|l]; cbn [SimProps.sim_move_step] in Hs.
  2-6: injection Hs as _ <-.
  - assert (Hn : ~ is_Some (sim_replied sim_boot (SProcess e : sim_move))) by (by intros [? ?]).
    unfold sim_step in Hs. apply bind_done' in Hs as (_ & _ & Hs). destruct e as [env|b|x].
    1,2: injection Hs as Hs; match type of Hs with ?r = _ => replace m' with (snd r) by (by rewrite Hs) end; by apply sim_change_grows.
    apply bind_done' in Hs as (m1 & Hm & [= _ ->]). destruct up; [|injection Hm as <-; apply growth_refl].
    unfold sim_serve in Hm. apply bind_done' in Hm as ([x' cs] & _ & [= <-]). by apply (Hno _ Hn cs (sim_set_own x' m)).
  - unfold sim_reply. destruct (sim_answer_law r rsp (sim_own m)) as [_ Hq].
    destruct (sim_answers r rsp (sim_own m)) as [x cs]. by apply (exec_grows _ cs (sim_set_own x m)).
  - unfold addInitCallback. destruct cb as [c|]; [|apply growth_refl].
    destruct (sim_init_reported_ m); [|apply (growth_refl _ _ (sim_log m))]. apply exec_grows. by intros [? ?].
  - unfold sim_broadcast. case_decide; simpl; [apply growth_refl|by apply growth_app].
  - apply growth_refl.
  - apply (growth_refl _ _ (sim_log m)).
Qed.

#[local] Instance sim_requester_spec : RequesterSpec json C R (bool * SimManager) sim_move.
Proof.
  split.
  - done.
  - by intros n (x & cb & ->).
  - intros n0 mvs [up m] mv [up' m'] (x & cb & ->) _ Hs. eapply growth_sent, sim_move_grows. exact Hs.
  - intros n0 mvs [up m] (x & cb & ->) Hr. apply (run_told topic paId now_at counter_at alive_at) in Hr.
    change (view_of _) with sim_boot in Hr. simpl in Hr |- *.
    rewrite <- (heard_plain view_after sim_replied (sim_replied sim_boot) (fun r mv => eq_refl) sim_boot mvs), <- Hr.
    replace (rq_op <$> omap sim_sends (sim_log m)) with (sim_sent m); [done|].
    unfold sim_sent, cmds. clear. induction (sim_log m) as [|[] l IH]; csimpl; rewrite ?IH; done.
  - intros r rsp. apply sim_answered_law.
  - intros r. apply sim_timeout_law.
Qed.
End SimRequester.

(** ** The SOCKS manager over a bridge that loses its connection *)

Module SystemDemo.
Definition Op_ : Type := socks_op (C := string).
Definition Mv : Type := net_move (json := jval) (C := string) (L := nat) (Op := Op_) (Ev := Op_).
Definition Sy : Type := System (json := jval) (Op := Op_) (N := net_state * NetDemo.Ma) (Mv := Mv) (K := nat).
Definition Act : Type := sys_action (json := jval) (Op := Op_) (Mv := Mv) (K := nat).

Definition asked (b : bool) (c : string) : Act := ManagerDoes (Process (Other (EnableSocks b (Some c)))) 0.

(** One request before the bridge is operational, one answered by a response, one by
    the loss of the connection, and one that found the manager not ready. *)
Definition life : list Act :=
  [asked true "early"; ManagerDoes (Process (NetDemo.status "AVAILABLE")) 0; posted Start_Signal] ++ turn 0 ++
  [asked true "a"] ++ turn 0 ++ [posted (LinkUp_Signal 0)] ++ turn 1 ++ turn 1 ++ turn 0 ++
  [asked false "b"] ++ turn 0 ++ [posted (EvtRecv_Signal "mp/rsp/net_socks/enable_socks" "rsp")] ++ turn 0 ++
  [posted (LinkDown_Signal (-1))] ++ turn 0 ++ [CallbackRuns; CallbackRuns].

Definition rsp_env : Envelope jval := makeResponseEnvelope 77 "mpss" "00000010" "pa-test-0001" (JObject []).
Definition parse_ (body : string) : option jval := if decide (body = "rsp") then Some (toJson rsp_env) else None.
Definition counter_ (n : nat) : Z := 16 + Z.of_nat n.
Definition socks_ : Requester jval string Op_ (net_state * NetDemo.Ma) Mv :=
  net_requester NetDemo.topic_ "pa-test-0001" NetDemo.clock_ counter_ NetDemo.alive_.
Definition run_ : list Act -> Sy -> option Sy :=
  sys_run (R := socks_) parse_ BridgeDemo.dump_ BridgeDemo.check_ BridgeDemo.rc_ "/run/mqtt.sock" BridgeDemo.clock_ service_token false.
Definition start_ : Sy := boot (NetNotReady_St, new_net tt None) (idle_bridge "pa-test-0001").
Definition at_end : Sy := default start_ (run_ life start_).
End SystemDemo.
Import SystemDemo.

Lemma at_end_reached :
  sys_run (R := socks_) parse_ BridgeDemo.dump_ BridgeDemo.check_ BridgeDemo.rc_ "/run/mqtt.sock" BridgeDemo.clock_ service_token false
    life (boot (NetNotReady_St, new_net tt None) (idle_bridge "pa-test-0001")) = Some at_end.
Proof. vm_compute. reflexivity. Qed.

Lemma at_end_answered :
  due at_end = [] /\ pending (bridge at_end) = [] /\
  Forall (fun p => rq_reached (Requester := socks_) p = rq_waits (Requester := socks_) p.1)
    (omap (rq_replied (Requester := socks_)) (moves at_end)) /\
  rq_asked (Requester := socks_) (moves at_end) = ["early"; "a"; "b"].
Proof. vm_compute. repeat constructor. Qed.

Lemma requests_end_to_end_witness :
  rq_told (Requester := socks_) (node at_end) ≡ₚ ["early"; "a"; "b"].
Proof.
  destruct at_end_answered as (Hd & Hp & Ha & <-).
  destruct (requests_end_to_end (R := socks_)
    (RequesterSpec0 := net_requester_spec NetDemo.topic_ "pa-test-0001" NetDemo.clock_ counter_ NetDemo.alive_)
    parse_ BridgeDemo.dump_ BridgeDemo.check_ BridgeDemo.rc_ "/run/mqtt.sock" BridgeDemo.clock_ service_token false
    (NetNotReady_St, new_net tt None) (idle_bridge "pa-test-0001") life at_end
    ltac:(by exists tt, None) ltac:(repeat split) at_end_reached) as (_ & _ & _ & _ & Ht).
  refine (Ht Hd _ Ha). by rewrite Hp.
Defined.
