(* ===== verification/EcallRequester.v ===== *)
(** * The eCall manager over the bridge

    The eCall manager meets [RequesterSpec] too, so that EndToEnd.v holds of its
    operations: those who wait are callbacks and the promises of blocking calls. *)

From S2P Require Import Prelude Hsm HsmSpec HsmProps ActiveObject Json Envelope InitGate Manager ModemBridge BridgeSpec BridgeProps BridgeRun EndToEnd.
From S2P Require Import Ecall EcallManager EcallProps.

Local Open Scope Z_scope.

Section EcallRequester.
Context {json : Type} `{Json json, JsonValues json}.
Context {C L P : Type} `{EqDecision L}.
Context (topic : string -> string) (paId : string) (now_at counter_at : nat -> Z).

Local Notation CallManager := (CallManager (json := json) (C := C) (L := L) (P := P)).
Local Notation ecall_op := (ecall_op (C := C) (P := P)).
Local Notation ecall_effect := (ecall_effect (json := json) (C := C) (L := L) (P := P)).
Local Notation move := (move (json := json) (C := C) (L := L) (P := P)).
Local Notation move_step := (EcallProps.move_step topic paId now_at counter_at (json := json) (C := C) (L := L) (P := P)).
Local Notation heard f := (Manager.heard EcallProps.ready_after f false).

Definition ecall_sends (e : ecall_effect) : option (rpc_request json ecall_op) :=
  match e with Request op tp schema env timeout => Some (mkReq op tp schema env timeout) | _ => None end.

Definition ecall_replied (mv : move) : option (ecall_op * option (Envelope json)) :=
  match mv with Answer op rsp => Some (op, rsp) | _ => None end.

(** The verdicts that are calls; a broken promise is none. *)
Definition reached_of (v : (C + P) * option Z) : option (C + P) := v.2 ;; Some v.1.

Definition ecall_waits (op : ecall_op) : list (C + P) := option_list (owner op).
Definition ecall_reached (p : ecall_op * option (Envelope json)) : list (C + P) :=
  if answer_code p.1 p.2 then ecall_waits p.1 else [].

#[local] Instance ecall_requester : Requester json (C + P) ecall_op (ecall_state * CallManager) move := {|
  rq_boot n := exists cb, n = (CallMgrNotReady_St, SimulaCallManager cb);
  rq_step := move_step;
  rq_reply := Answer;
  rq_replied := ecall_replied;
  rq_requests n := omap ecall_sends (log n.2);
  rq_told n := omap reached_of (omap EcallProps.told (log n.2));
  rq_asked mvs := heard op_heard mvs ≫= ecall_waits;
  rq_waits := ecall_waits;
  rq_reached := ecall_reached |}.

Local Notation grows m m' := (log m `prefix_of` log m').

Lemma emit_grows l (m : CallManager) : grows m (emit l m).
Proof. by exists l. Qed.
Lemma ecall_tell_grows cb f (m : CallManager) : grows m (EcallManager.tell cb f m).
Proof. destruct cb; [apply emit_grows|done]. Qed.
Lemma ecall_broadcast_grows n (m : CallManager) : grows m (broadcastToListeners_ n m).
Proof. unfold broadcastToListeners_. case_decide; [done|apply emit_grows]. Qed.

Lemma find_grows p i d n (m : CallManager) id m' : findOrCreateCall_ p i d n m = (id, m') -> grows m m'.
Proof.
  unfold findOrCreateCall_. destruct (find_or_create p i d n m) as [[id0 stale] m0] eqn:Hf. intros [= _ <-].
  assert (H0' : log m0 = log m) by (revert Hf; unfold find_or_create; repeat case_match; by intros [= _ _ <-]).
  destruct stale as [id1|]; simpl; rewrite <- H0'; [|done]. apply (ecall_broadcast_grows _ (set_call_state _ _ m0)).
Qed.

Lemma or_lost_grows {A} (o : option A) k (m m' : CallManager) :
  (forall a, grows m (k a)) -> grows m m' -> grows m (or_lost o k m').
Proof. destruct o; simpl; auto. Qed.

Lemma make_ecall_grows p notify rsp (m : CallManager) : grows m (make_ecall_reply p notify rsp m).
Proof.
  unfold make_ecall_reply. destruct (rsp_data rsp) as [d|]; apply or_lost_grows; try done.
  - intros [call [[i dir] n]]. destruct (findOrCreateCall_ p i dir n m) as [id m'] eqn:Hf. apply find_grows in Hf.
    apply or_lost_grows; [|done]. intros s. etransitivity; [exact Hf|]. apply (ecall_tell_grows _ _ (set_call_state _ id m')).
  - intros code. apply ecall_tell_grows.
Qed.

Lemma reply_grows op rsp (m : CallManager) : grows m (reply op rsp m).
Proof.
  destruct op; simpl; try apply make_ecall_grows; try apply ecall_tell_grows; try apply emit_grows;
    unfold timer_status_reply, command_reply, request_timer_reply, get_config_reply, get_redial_reply;
    try (destruct cb as [c|]; [|done]); try (destruct (rsp_data rsp) as [d|]; [|]); try apply emit_grows;
    apply or_lost_grows; try apply emit_grows; try done; try (intros ?; apply emit_grows).
  intros [? ?]. apply emit_grows.
Qed.

Lemma evt_grows e (m m' : CallManager) : ready_act topic paId now_at counter_at e m = Done m' -> grows m m'.
Proof.
  destruct e; simpl; try (by intros [= <-]); unfold on_data.
  - intros [= <-]. destruct op; apply emit_grows.
  - destruct (data env) as [d|]; [|by intros [= <-]]. intros (p & _ & ([[i dir] n] & _ & Hk)%bind_done')%bind_done'.
    destruct (findOrCreateCall_ p i dir n m) as [id m1] eqn:Hf. apply find_grows in Hf.
    apply bind_done' in Hk as (s & _ & [= <-]). etransitivity; [exact Hf|]. apply (ecall_broadcast_grows _ (set_call_state _ id m1)).
  - destruct (data env) as [d|]; [|by intros [= <-]].
    intros (? & _ & (? & _ & [= <-])%bind_done')%bind_done'. apply ecall_broadcast_grows.
  - destruct (data env) as [d|]; [|by intros [= <-]].
    intros (? & _ & (? & _ & (? & _ & [= <-])%bind_done')%bind_done')%bind_done'. apply (ecall_broadcast_grows _ (set_hlap _ m)).
  - destruct (data env) as [d|]; [|by intros [= <-]].
    intros (? & _ & (? & _ & (? & _ & [= <-])%bind_done')%bind_done')%bind_done'. apply ecall_broadcast_grows.
  - intros [= <-]. apply ecall_tell_grows.
Qed.

Lemma drop_grows op (m : CallManager) : grows m (drop_op op m).
Proof. destruct op; simpl; first [apply emit_grows|apply ecall_tell_grows|done]. Qed.

Lemma ecall_move_grows mv leaf (m : CallManager) leaf' m' : move_step mv (leaf, m) = Done (leaf', m') -> grows m m'.
Proof.
  intros Hs. destruct mv as [e|op rsp|[]|[]]; cbn [EcallProps.move_step] in Hs; try (by injection Hs as _ <-).
  2: { injection Hs as _ <-. apply reply_grows. }
  rewrite ecall_chart_step in Hs. apply bind_done' in Hs as (_ & _ & Hs). destruct leaf.
  - assert (Hn : grows m (not_ready_act e m)) by (destruct e; simpl; try done; apply drop_grows).
    destruct (report e) as [[]|]; injection Hs as _ <-; try done. etransitivity; [exact Hn|].
    apply (emit_grows _ (set_init_cbs [] (not_ready_act e m))).
  - apply bind_done' in Hs as (m1 & Ha & [= _ <-]). by eapply evt_grows.
Qed.

(** A move that sends nothing adds no request. *)
Lemma sends_sent (l : list ecall_effect) : length (omap ecall_sends l) = length (omap EcallProps.sent l).
Proof. induction l as [|[] l IH]; csimpl; by rewrite ?IH. Qed.
Lemma sends_ops (l : list ecall_effect) : rq_op <$> omap ecall_sends l = omap EcallProps.sent l.
Proof. induction l as [|[] l IH]; csimpl; by rewrite ?IH. Qed.

Lemma reply_quiet op rsp (m : CallManager) es : log (reply op rsp m) = log m ++ es -> omap ecall_sends es = [].
Proof.
  intros Hes. pose proof (adds_sent _ _ _ _ _ (reply_adds false op rsp m)) as Hs.
  rewrite Hes, omap_app, app_nil_r in Hs. apply nil_length_inv. rewrite sends_sent.
  apply (f_equal length) in Hs. rewrite length_app in Hs. lia.
Qed.

(** The verdicts of a run that are calls are those of its answers. *)
Lemma reached_heard mvs : omap reached_of (heard verdict_heard mvs) = omap ecall_replied mvs ≫= ecall_reached.
Proof.
  generalize false. induction mvs as [|mv mvs IH]; intros r; [done|]. simpl. rewrite omap_app, IH.
  destruct mv as [e|op rsp|l|l]; try done.
  - destruct e as [| |op| | | | |]; try done. simpl. destruct r; [done|]. by destruct (owner op) as [[]|].
  - simpl. unfold ecall_reached, ecall_waits. simpl.
    destruct (owner op) as [o|], (answer_code op rsp); simpl; try done. by destruct o.
Qed.

#[local] Instance ecall_requester_spec : RequesterSpec json (C + P) ecall_op (ecall_state * CallManager) move.
Proof.
  split.
  - done.
  - by intros n (cb & ->).
  - intros n0 mvs [leaf m] mv [leaf' m'] _ _ Hs. destruct (ecall_move_grows _ _ _ _ _ Hs) as [es Hes].
    exists (omap ecall_sends es). simpl. rewrite Hes, omap_app. split; [done|].
    destruct mv as [e|op rsp|l|l]; intros [? Hr]; try discriminate Hr. injection Hs as _ <-. by eapply reply_quiet.
  - intros n0 mvs [leaf m] (cb & ->) Hr.
    apply run_clients in Hr as (Hsent & Htold & _). simpl. rewrite sends_ops, Hsent, Htold.
    rewrite (heard_omap EcallProps.ready_after clients_heard _ op_heard), (heard_omap EcallProps.ready_after clients_heard _ verdict_heard), reached_heard by done.
    apply Permutation_app_comm.
  - intros op rsp. simpl. unfold ecall_reached. simpl.
    destruct (answer_code op rsp); [exists (length (ecall_waits op)); by rewrite take_ge|by exists 0%nat].
  - by intros [].
Qed.
End EcallRequester.

(** ** An emergency call over a bridge that loses its connection *)

Module EcallSystem.
Definition Op_ : Type := ecall_op (C := string) (P := nat).
Definition N_ : Type := ecall_state * EcallDemo.Ma.
Definition Sy : Type := System (json := jval) (Op := Op_) (N := N_) (Mv := EcallDemo.Mv) (K := nat).
Definition Act : Type := sys_action (json := jval) (Op := Op_) (Mv := EcallDemo.Mv) (K := nat).
Definition asked (op : Op_) : Act := ManagerDoes (Process (RunEcallOp_Signal op)) 0.
Definition counter_ (n : nat) : Z := 16 + Z.of_nat n.
Definition ecall_ : Requester jval (string + nat) Op_ N_ EcallDemo.Mv :=
  ecall_requester EcallDemo.topic_ "pa-test-0001" EcallDemo.clock_ counter_.

(** The call is sent, the configuration waits for the bridge, the link is lost. *)
Definition life : list Act :=
  [ManagerDoes (Process EcallDemo.available) 0; posted Start_Signal] ++ turn 0 ++ [posted (LinkUp_Signal 0)] ++
  turn 1 ++ turn 0 ++ [asked EcallDemo.ecall] ++ turn 0 ++ [posted (LinkDown_Signal (-1))] ++ turn 0 ++
  [asked (OpGetConfig 9%nat); CallbackRuns].
Definition at_end : option Sy :=
  sys_run (R := ecall_) (fun _ => None) BridgeDemo.dump_ BridgeDemo.check_ BridgeDemo.rc_ "/run/mqtt.sock" BridgeDemo.clock_
    service_token false life (boot (CallMgrNotReady_St, SimulaCallManager None) (idle_bridge "pa-test-0001")).
End EcallSystem.

(** The caller hears of the loss; the later question waits for the bridge to come back. *)
Example lost_ecall :
  (fun s => (omap EcallProps.told (log (node s).2), omap our_op (pending (bridge s)))) <$> EcallSystem.at_end =
    Some ([(inl "call", Some OPERATION_TIMEOUT)], [OpGetConfig 9%nat]).
Proof. vm_compute. reflexivity. Qed.
