(* ===== verification/Bypass.v ===== *)
(** * The bypass of the SDK's SIM services (src/bypass/telsdk/sdkSimCardSvcBypass)

    The library that replaces two managers of the SDK by ones that need no modem.
    PhoneFactoryImplStubBypass.cpp hands them out; a manager finishes its
    initialization on threads of [std::async], which then call the clients' callbacks.
    A thread is the list of the atomic steps it still has to make, and any
    interleaving of the threads with the clients' calls is a run.  The task queue a
    manager keeps its futures in only keeps them. *)

From S2P Require Import Prelude InitGate Manager.
From Stdlib Require Import Wellfounded Relation_Operators.

Local Open Scope Z_scope.

(** ** What the two managers and their getters have in common *)

Section Bypass.
(** [C]: init callbacks of clients; [O]: a manager's own members; [R]: the calls of
    the callbacks given to its operations. *)
Context {C O R : Type}.

Inductive instr :=
  | Own (f : O -> O)
  | SetStatus (s : ServiceStatus)          (* [subSystemStatus_], under [mtx_] *)
  | Report (s : ServiceStatus)             (* [initCb_], the part under the factory's mutex *)
  | CallInit (c : C) (s : ServiceStatus)
  | NotifyAll
  | Later                                  (* [std::async] of the rest of the initialization *)
  | AnswerOp (r : R)
  | AwaitReady (w : nat).                  (* the loop of [waitForInitialization] *)

Inductive thread := Running (p : list instr) | Waiting (w : nat) (p : list instr).

(** [Op]: the operations of its interface; [V]: what they return. *)
Class BypassManager (Op V : Type) := {
  bm_new : O;                                (* constructed and [init]ed *)
  bm_no_memory : outcome unit;               (* [Done]: the getter returns null *)
  bm_init : list instr;                      (* [initSync] *)
  bm_later : list instr;
  bm_serves : Op -> ServiceStatus -> O -> O * V * list R }.

Context {Op V : Type} `{!BypassManager Op V}.

Record Inst := mkInst { own : O; subSystemStatus_ : ServiceStatus }.

(** The factory's globals for one manager, the objects made, the threads (with the
    object each belongs to), and what has happened. *)
Record Bypass := mkBypass {
  manager_ : option nat;
  initStatus_ : ServiceStatus;
  callbacks_ : list C;
  insts : list Inst;
  threads : list (nat * thread);
  told_init : list (C * ServiceStatus);   (* calls of init callbacks *)
  answered_op : list R;                   (* calls of operations' callbacks *)
  readied : list nat }.                   (* futures of [onSubsystemReady] fulfilled *)

Definition bypass_boot : Bypass := mkBypass None SERVICE_UNAVAILABLE [] [] [] [] [] [].

Definition with_threads (ts : list (nat * thread)) (b : Bypass) : Bypass :=
  mkBypass (manager_ b) (initStatus_ b) (callbacks_ b) (insts b) ts (told_init b) (answered_op b) (readied b).
Definition with_insts (os : list Inst) (b : Bypass) : Bypass :=
  mkBypass (manager_ b) (initStatus_ b) (callbacks_ b) os (threads b) (told_init b) (answered_op b) (readied b).
Definition with_callbacks (cbs : list C) (b : Bypass) : Bypass :=
  mkBypass (manager_ b) (initStatus_ b) cbs (insts b) (threads b) (told_init b) (answered_op b) (readied b).
Definition spawn (i : nat) (p : list instr) (b : Bypass) : Bypass := with_threads (threads b ++ [(i, Running p)]) b.

(** [getMultiSimManager], [getSimProfileManager]; [alloc]: the allocation succeeds.
    With the object returned. *)
Definition get (alloc : bool) (cb : option C) (b : Bypass) : outcome (Bypass * option nat) :=
  match manager_ b with
  | None =>
      if alloc then
        let i := length (insts b) in
        let b := spawn i bm_init (with_insts (insts b ++ [mkInst bm_new SERVICE_UNAVAILABLE]) b) in
        Done (mkBypass (Some i) (initStatus_ b) (callbacks_ b ++ option_list cb) (insts b) (threads b)
                (told_init b) (answered_op b) (readied b), Some i)
      else _ ← bm_no_memory; Done (b, None)
  | Some i =>
      Done (if decide (initStatus_ b = SERVICE_UNAVAILABLE) then with_callbacks (callbacks_ b ++ option_list cb) b
            else match cb with Some c => spawn i [CallInit c (initStatus_ b)] b | None => b end, Some i)
  end.

(** [onMultiSimManagerResponse], [onSimProfileManagerResponse]: what is done under the
    mutex; the callbacks it takes are called afterwards. *)
Definition on_response (s : ServiceStatus) (b : Bypass) : Bypass * list C :=
  let set m cbs := mkBypass m s cbs (insts b) (threads b) (told_init b) (answered_op b) (readied b) in
  match s with
  | SERVICE_UNAVAILABLE => (set (manager_ b) (callbacks_ b), [])
  | SERVICE_AVAILABLE => (set (manager_ b) [], callbacks_ b)
  | SERVICE_FAILED => (set None [], callbacks_ b)
  end.

(** The status of an object; one that is not there has none. *)
Definition status_of (i : nat) (b : Bypass) : ServiceStatus :=
  from_option subSystemStatus_ SERVICE_UNAVAILABLE (insts b !! i).
Definition isSubsystemReady (i : nat) (b : Bypass) : bool := bool_decide (status_of i b = SERVICE_AVAILABLE).

Definition wake_up (i : nat) (t : nat * thread) : nat * thread :=
  match t with
  | (j, Waiting w p) => if decide (j = i) then (j, Running (AwaitReady w :: p)) else t
  | _ => t
  end.

(** Thread [n], of object [i], makes the step [x]; [p] is the rest of it. *)
Definition exec (n i : nat) (x : instr) (p : list instr) (b : Bypass) : Bypass :=
  let go p b := with_threads (<[n := (i, Running p)]> (threads b)) b in
  match x with
  | Own f => go p (with_insts (alter (fun o => mkInst (f (own o)) (subSystemStatus_ o)) i (insts b)) b)
  | SetStatus s => go p (with_insts (alter (fun o => mkInst (own o) s) i (insts b)) b)
  | Report s => let '(b, cbs) := on_response s b in go (((fun c => CallInit c s) <$> cbs) ++ p) b
  | CallInit c s =>
      go p (mkBypass (manager_ b) (initStatus_ b) (callbacks_ b) (insts b) (threads b)
              (told_init b ++ [(c, s)]) (answered_op b) (readied b))
  | NotifyAll => go p (with_threads (wake_up i <$> threads b) b)
  | Later => spawn i bm_later (go p b)
  | AnswerOp r =>
      go p (mkBypass (manager_ b) (initStatus_ b) (callbacks_ b) (insts b) (threads b)
              (told_init b) (answered_op b ++ [r]) (readied b))
  | AwaitReady w =>
      if isSubsystemReady i b
      then go p (mkBypass (manager_ b) (initStatus_ b) (callbacks_ b) (insts b) (threads b)
                   (told_init b) (answered_op b) (readied b ++ [w]))
      else with_threads (<[n := (i, Waiting w p)]> (threads b)) b
  end.

Definition run_thread (n : nat) (b : Bypass) : Bypass :=
  match threads b !! n with Some (i, Running (x :: p)) => exec n i x p b | _ => b end.

(** [onSubsystemReady]: a thread that waits. *)
Definition onSubsystemReady (i w : nat) (b : Bypass) : Bypass := spawn i [AwaitReady w] b.

(** A client calls an operation of the object it was handed. *)
Definition call_op (i : nat) (op : Op) (b : Bypass) : Bypass * option V :=
  match insts b !! i with
  | Some o =>
      let '(x, v, rs) := bm_serves op (subSystemStatus_ o) (own o) in
      let b := with_insts (<[i := mkInst x (subSystemStatus_ o)]> (insts b)) b in
      (foldl (fun b r => spawn i [AnswerOp r] b) b rs, Some v)
  | None => (b, None)
  end.

(** Clients' calls, the threads' steps, spurious wake-ups. *)
Inductive bypass_move :=
  | Get (alloc : bool) (cb : option C)
  | Call (i : nat) (op : Op)
  | OnReady (i w : nat)
  | Run (n : nat)
  | Spurious (n : nat).

Definition bypass_step (mv : bypass_move) (b : Bypass) : outcome Bypass :=
  match mv with
  | Get alloc cb => r ← get alloc cb b; Done (fst r)
  | Call i op => Done (fst (call_op i op b))
  | OnReady i w => Done (if decide (i < length (insts b))%nat then onSubsystemReady i w b else b)
  | Run n => Done (run_thread n b)
  | Spurious n => Done (with_threads (alter (fun t => wake_up (fst t) t) n (threads b)) b)
  end.
Definition bypass_run : list bypass_move -> Bypass -> outcome Bypass := run bypass_step.

(** ** What the threads have left to do *)

Definition prog (t : thread) : list instr := match t with Running p => p | Waiting w p => AwaitReady w :: p end.
Definition work (ts : list (nat * thread)) : list instr := ts ≫= fun t => prog (snd t).
(** The steps to come, those of threads still to be started included. *)
Definition later (x : instr) : list instr := match x with Later => bm_later | _ => [x] end.
Definition to_come (b : Bypass) : list instr := work (threads b) ≫= later.

Definition report_of (x : instr) : option ServiceStatus := match x with Report s => Some s | _ => None end.
Definition status_set (x : instr) : option ServiceStatus := match x with SetStatus s => Some s | _ => None end.
Definition init_call (x : instr) : option (C * ServiceStatus) := match x with CallInit c s => Some (c, s) | _ => None end.
Definition wait_of (x : instr) : option nat := match x with AwaitReady w => Some w | _ => None end.
Definition is_notify (x : instr) : bool := match x with NotifyAll => true | _ => false end.
Definition is_later (x : instr) : bool := match x with Later => true | _ => false end.

(** Whoever sets the status notifies afterwards; whoever waits does nothing else. *)
Fixpoint notifies (p : list instr) : bool :=
  match p with
  | [] => true
  | SetStatus _ :: p => existsb is_notify p && notifies p
  | AwaitReady _ :: p => match p with [] => true | _ => false end
  | _ :: p => notifies p
  end.

(** What the getters rely on: an initialization reports once that the service is
    available, having set the status, and tells whoever waits. *)
Class BypassSpec : Prop := {
  bs_reports : omap report_of (bm_init ≫= later) = [SERVICE_AVAILABLE];
  bs_sets : omap status_set (bm_init ≫= later) = [SERVICE_AVAILABLE];
  bs_calls : omap init_call (bm_init ≫= later) = [];
  bs_waits : omap wait_of (bm_init ≫= later) = [];
  bs_notifies : notifies bm_init = true /\ notifies bm_later = true;
  bs_later : existsb is_later bm_later = false }.

Lemma later_flat p : existsb is_later p = false -> p ≫= later = p.
Proof.
  induction p as [|x p IH]; [done|]. intros [Hx Hp]%orb_false_iff.
  rewrite bind_cons, IH by done. by destruct x.
Qed.

Lemma work_at ts n t : ts !! n = Some t -> exists l, work ts ≡ₚ prog (snd t) ++ l /\
  (forall t', work (<[n := t']> ts) ≡ₚ prog (snd t') ++ l) /\ forall t', t' ∈ ts -> t' = t \/ prog (snd t') ⊆ l.
Proof.
  intros Ht. pose proof (lookup_lt_Some _ _ _ Ht) as Hlt. exists (work (take n ts) ++ work (drop (S n) ts)).
  assert (Hw : forall l1 t l2, work (l1 ++ t :: l2) ≡ₚ prog (snd t) ++ work l1 ++ work l2).
  { intros l1 t1 l2. unfold work. rewrite bind_app, bind_cons. rewrite !(assoc_L (++)). by rewrite (Permutation_app_comm (l1 ≫= _)). }
  split; [|split].
  - rewrite <- (take_drop_middle ts n t Ht) at 1. apply Hw.
  - intros t'. rewrite insert_take_drop by done. apply Hw.
  - intros t' Hin. rewrite <- (take_drop_middle ts n t Ht) in Hin. rewrite elem_of_app, elem_of_cons in Hin.
    assert (Hsub : forall l, t' ∈ l -> prog (snd t') ⊆ work l).
    { intros l Hl x Hx. unfold work. apply list_elem_of_bind. eauto. }
    destruct Hin as [Hin|[->|Hin]]; [right|by left|right]; intros x Hx; apply elem_of_app; [left|right]; by eapply Hsub.
Qed.

Lemma work_wake i ts : work (wake_up i <$> ts) = work ts.
Proof.
  induction ts as [|[j [p|w p]] ts IH]; [done| |]; unfold work in *; rewrite fmap_cons, !bind_cons, IH; simpl; [done|].
  by case_decide.
Qed.

(** What a step adds to what is to come. *)
Definition added (i : nat) (x : instr) (b : Bypass) : list instr :=
  match x with
  | Report s => (fun c => CallInit c s) <$> snd (on_response s b)
  | Later => bm_later
  | AwaitReady w => if isSubsystemReady i b then [] else [x]
  | _ => []
  end.

Context `{!BypassSpec}.

Lemma bind_singles (f : C -> instr) (cs : list C) : (forall c, later (f c) = [f c]) -> (f <$> cs) ≫= later = f <$> cs.
Proof. intros Hf. induction cs as [|c cs IH]; [done|]. by rewrite fmap_cons, bind_cons, IH, Hf. Qed.

Lemma exec_work n i x p b :
  threads b !! n = Some (i, Running (x :: p)) ->
  exists l, to_come b ≡ₚ later x ++ l /\ to_come (exec n i x p b) ≡ₚ added i x b ++ l /\ p ≫= later ⊆ l.
Proof.
  intros Ht. destruct (work_at _ _ _ Ht) as (l & H1 & H2 & _). exists ((p ≫= later) ++ (l ≫= later)).
  assert (Hb : forall ts q, work ts ≡ₚ q ++ l -> work ts ≫= later ≡ₚ (q ≫= later) ++ (l ≫= later))
    by (intros ts q Hts; by rewrite Hts, bind_app).
  split; [unfold to_come; rewrite (Hb _ _ H1); simpl prog; rewrite bind_cons; by rewrite <- (assoc_L (++))|].
  split; [|intros y; rewrite elem_of_app; by left]. unfold to_come. destruct x; simpl; try (rewrite (Hb _ _ (H2 _)); done).
  - unfold on_response. destruct s; simpl; rewrite (Hb _ _ (H2 _)); simpl prog; [done| |];
      by rewrite bind_app, bind_singles, <- (assoc_L (++)) by done.
  - rewrite (Hb _ p); [done|]. rewrite <- (H2 (i, Running p) : _ ≡ₚ p ++ l).
    change (i, Running p) with (wake_up i (i, Running p)) at 1. by rewrite <- list_fmap_insert, work_wake.
  - unfold work at 1. rewrite bind_app. fold (work (<[n:=(i, Running p)]> (threads b))).
    rewrite bind_app, (Hb _ _ (H2 _)). simpl. rewrite app_nil_r, (later_flat bm_later) by apply bs_later.
    by rewrite Permutation_app_comm.
  - unfold isSubsystemReady. case_bool_decide; simpl; rewrite (Hb _ _ (H2 _)); done.
Qed.

(** ** The invariant *)

(** An initialization under way has one report to make, and one status to set. *)
Definition expected (made : option nat) (s : ServiceStatus) : list ServiceStatus :=
  match made, s with Some _, SERVICE_UNAVAILABLE => [SERVICE_AVAILABLE] | _, _ => [] end.
Definition thread_ok (t : nat * thread) : Prop := fst t = 0%nat /\ notifies (prog (snd t)) = true.
Definition waits (b : Bypass) : Prop := exists i w p, (i, Waiting w p) ∈ threads b.

Record bypass_inv (given : list C) (awaited : list nat) (b : Bypass) : Prop := {
  bi_told : (told_init b).*1 ++ callbacks_ b ++ (omap init_call (to_come b)).*1 ≡ₚ given;
  bi_available : Forall (fun p => snd p = SERVICE_AVAILABLE) (told_init b ++ omap init_call (to_come b));
  bi_reports : omap report_of (to_come b) ≡ₚ expected (manager_ b) (initStatus_ b);
  bi_sets : omap status_set (to_come b) ≡ₚ expected (manager_ b) (status_of 0 b);
  bi_waits : readied b ++ omap wait_of (to_come b) ≡ₚ awaited;
  bi_init : initStatus_ b <> SERVICE_FAILED /\ (initStatus_ b = SERVICE_AVAILABLE -> callbacks_ b = []);
  bi_manager : match manager_ b with
    | Some i => i = 0%nat /\ length (insts b) = 1%nat
    | None => insts b = [] /\ threads b = [] /\ callbacks_ b = [] /\ initStatus_ b = SERVICE_UNAVAILABLE
    end;
  bi_status : status_of 0 b <> SERVICE_FAILED;
  bi_threads t : t ∈ threads b -> thread_ok t;
  bi_waiting : waits b -> status_of 0 b = SERVICE_AVAILABLE -> NotifyAll ∈ to_come b }.

Lemma notifies_tail x p : notifies (x :: p) = true -> notifies p = true.
Proof. destruct x; simpl; try done; [by intros [_ ?]%andb_true_iff|by destruct p]. Qed.

Lemma notifies_calls s cs p : notifies (((fun c => CallInit c s) <$> cs) ++ p) = notifies p.
Proof. by induction cs as [|c cs IH]. Qed.

Lemma elem_of_insert_or (ts : list (nat * thread)) n t u : t ∈ <[n := u]> ts -> t = u \/ t ∈ ts.
Proof.
  intros [j Hj]%list_elem_of_lookup. apply list_lookup_insert_Some in Hj as [(_ & -> & _)|[_ Hj]]; [by left|].
  right. by apply list_elem_of_lookup_2 in Hj.
Qed.

Lemma exec_threads n i x p b :
  (forall t, t ∈ threads b -> thread_ok t) -> threads b !! n = Some (i, Running (x :: p)) ->
  forall t, t ∈ threads (exec n i x p b) -> thread_ok t.
Proof.
  intros Hok Ht. assert (Hold := Hok _ (list_elem_of_lookup_2 _ _ _ Ht)). destruct Hold as [Hi Hp]. simpl in Hi, Hp. subst i.
  pose proof (notifies_tail _ _ Hp) as Hp'.
  assert (Hnew : forall q (ts : list (nat * thread)), notifies q = true -> (forall t : nat * thread, t ∈ ts -> thread_ok t) ->
    forall t : nat * thread, t ∈ <[n := (0%nat, Running q)]> ts -> thread_ok t).
  { intros q ts Hq Hts t [->|?]%elem_of_insert_or; [by split|auto]. }
  destruct x; simpl; try (by apply Hnew).
  - destruct s; simpl; apply Hnew; rewrite ?notifies_calls; done.
  - apply Hnew; [done|]. intros t (t' & -> & Ht')%list_elem_of_fmap. destruct (Hok _ Ht') as [Hj Hn].
    destruct t' as [j [q|w q]]; simpl; [done|]. by case_decide.
  - intros t. rewrite elem_of_app, list_elem_of_singleton. intros [?| ->]; [by eapply Hnew|].
    split; [done|]. apply bs_notifies.
  - destruct (isSubsystemReady 0 b); simpl; [by apply Hnew|]. intros t [->|?]%elem_of_insert_or; [by split|auto].
Qed.

(** A thread that waits afterwards did before, or found the object not ready. *)
Lemma exec_waits n i x p b :
  (forall t, t ∈ threads b -> thread_ok t) -> threads b !! n = Some (i, Running (x :: p)) ->
  waits (exec n i x p b) -> x <> NotifyAll /\ (waits b \/ status_of i b <> SERVICE_AVAILABLE).
Proof.
  intros Hok Ht (j & w & q & Hin).
  assert (Hold : forall r, (j, Waiting w q) ∈ <[n := (i, Running r)]> (threads b) -> waits b).
  { intros r [[=]|?]%elem_of_insert_or. by exists j, w, q. }
  destruct x; simpl in Hin; try (split; [done|]; left; exact (Hold _ Hin)).
  - split; [done|]. left. destruct s; exact (Hold _ Hin).
  - exfalso. apply elem_of_insert_or in Hin as [[=]|Hin]. apply list_elem_of_fmap in Hin as (t & Heq & Hin).
    pose proof (proj1 (Hok _ Hin)) as H0. pose proof (proj1 (Hok _ (list_elem_of_lookup_2 _ _ _ Ht))) as H1.
    destruct t as [k [r|u r]]; simpl in *; [done|]. case_decide; congruence.
  - split; [done|]. left. apply elem_of_app in Hin as [Hin|Hin]; [exact (Hold _ Hin)|]. by apply list_elem_of_singleton in Hin.
  - split; [done|]. unfold isSubsystemReady in Hin. case_bool_decide as Hr; simpl in Hin; [left; exact (Hold _ Hin)|by right].
Qed.

(** What a step that is not a report leaves as it was. *)
Lemma exec_status n i x p b :
  status_of 0 (exec n i x p b) = match x with SetStatus s => if decide (i = 0%nat /\ insts b <> []) then s else status_of 0 b | _ => status_of 0 b end.
Proof.
  assert (Ha : forall f, from_option subSystemStatus_ SERVICE_UNAVAILABLE (alter f i (insts b) !! 0%nat) =
    if decide (i = 0%nat /\ insts b <> []) then from_option subSystemStatus_ SERVICE_UNAVAILABLE (f <$> (insts b !! 0%nat)) else status_of 0 b).
  { intros f. unfold status_of. destruct i as [|i], (insts b) as [|o l]; case_decide as Hd; naive_solver. }
  destruct x; try done; unfold status_of at 1; simpl.
  - rewrite Ha. case_decide; [|done]. unfold status_of. by destruct (insts b !! 0%nat).
  - rewrite Ha. case_decide as Hd; [|done]. destruct Hd as [_ Hd]. by destruct (insts b).
  - by destruct s.
  - unfold status_of. by destruct (isSubsystemReady i b).
Qed.

Lemma calls_come s (cs : list C) :
  omap init_call ((fun c => CallInit c s) <$> cs) = (fun c => (c, s)) <$> cs /\
  omap report_of ((fun c => CallInit c s) <$> cs) = [] /\ omap status_set ((fun c => CallInit c s) <$> cs) = [] /\
  omap wait_of ((fun c => CallInit c s) <$> cs) = [].
Proof. induction cs as [|c cs (IH1 & IH2 & IH3 & IH4)]; csimpl; [done|]. by rewrite IH1, IH2, IH3, IH4. Qed.

Lemma notified p : existsb is_notify p = true -> NotifyAll ∈ p ≫= later.
Proof.
  induction p as [|x p IH]; [done|]. simpl. rewrite orb_true_iff. intros Hx. apply elem_of_app.
  destruct Hx as [Hx|Hx]; [left|right; by apply IH]. destruct x; try done. by left.
Qed.

Lemma expected_one s l m st : s :: l ≡ₚ expected m st -> s = SERVICE_AVAILABLE /\ st = SERVICE_UNAVAILABLE /\ l = [].
Proof.
  destruct m, st; simpl; try (by intros ?%Permutation_nil_r). intros Hp.
  apply Permutation_singleton_r in Hp as [= -> ->]. done.
Qed.

(** A step of a thread, when it is not a report, moves nothing of the factory's. *)
Lemma exec_globals n i x p b :
  (forall s, x <> Report s) ->
  manager_ (exec n i x p b) = manager_ b /\ initStatus_ (exec n i x p b) = initStatus_ b /\
  callbacks_ (exec n i x p b) = callbacks_ b.
Proof. intros Hx. destruct x; simpl; try done; [by destruct (Hx s)|by destruct (isSubsystemReady i b)]. Qed.

Lemma exec_made n i x p b : length (insts (exec n i x p b)) = length (insts b).
Proof.
  destruct x; simpl; rewrite ?length_alter; try done; [by destruct s|by destruct (isSubsystemReady i b)].
Qed.

Lemma exec_log n i x p b :
  told_init (exec n i x p b) = told_init b ++ option_list (init_call x) /\
  readied (exec n i x p b) = readied b ++ (if isSubsystemReady i b then option_list (wait_of x) else []).
Proof.
  destruct x; simpl; rewrite ?app_nil_r; try (by destruct (isSubsystemReady i b); rewrite ?app_nil_r).
  destruct s; simpl; by destruct (isSubsystemReady i b); rewrite ?app_nil_r.
Qed.

(** What is known of a step of a thread. *)
Record stepped (x : instr) (p : list instr) (b b' : Bypass) (l : list instr) : Prop := {
  ex_before A (g : instr -> option A) : omap g (to_come b) ≡ₚ omap g (later x) ++ omap g l;
  ex_after A (g : instr -> option A) : omap g (to_come b') ≡ₚ omap g (added 0 x b) ++ omap g l;
  ex_from y : y ∈ to_come b -> y ∈ later x \/ y ∈ l;
  ex_to y : y ∈ added 0 x b \/ y ∈ l -> y ∈ to_come b';
  ex_rest : p ≫= later ⊆ l;
  ex_notifies : notifies (x :: p) = true;
  ex_made : manager_ b = Some 0%nat /\ insts b <> [] /\ length (insts b') = 1%nat;
  ex_threads t : t ∈ threads b' -> thread_ok t;
  ex_waits : waits b' -> x <> NotifyAll /\ (waits b \/ status_of 0 b <> SERVICE_AVAILABLE);
  ex_told : told_init b' = told_init b ++ option_list (init_call x);
  ex_readied : readied b' = readied b ++ (if isSubsystemReady 0 b then option_list (wait_of x) else []);
  ex_status : status_of 0 b' = match x with SetStatus s => s | _ => status_of 0 b end }.

Lemma exec_stepped given awaited n i x p b :
  bypass_inv given awaited b -> threads b !! n = Some (i, Running (x :: p)) ->
  i = 0%nat /\ exists l, stepped x p b (exec n 0 x p b) l.
Proof.
  intros Hi Ht. destruct (exec_work _ _ _ _ _ Ht) as (l & Hl & Hl' & Hpl).
  pose proof (bi_threads _ _ _ Hi _ (list_elem_of_lookup_2 _ _ _ Ht)) as [Hi0 Hn]. simpl in Hi0. subst i.
  split; [done|]. exists l. pose proof (bi_manager _ _ _ Hi) as Hm. destruct (manager_ b) as [k|] eqn:Hmb.
  2: { destruct Hm as (_ & Hnil & _). by rewrite Hnil in Ht. }
  destruct Hm as [-> Hlen]. assert (Hne : insts b <> []) by (by destruct (insts b)).
  split; try done.
  - intros A g. by rewrite Hl, omap_app.
  - intros A g. by rewrite Hl', omap_app.
  - intros y. by rewrite Hl, elem_of_app.
  - intros y. by rewrite Hl', elem_of_app.
  - by rewrite exec_made.
  - exact (exec_threads _ _ _ _ _ (bi_threads _ _ _ Hi) Ht).
  - exact (exec_waits _ _ _ _ _ (bi_threads _ _ _ Hi) Ht).
  - by destruct (exec_log n 0 x p b).
  - by destruct (exec_log n 0 x p b).
  - rewrite exec_status. destruct x; try done. by rewrite decide_True.
Qed.

Lemma report_inv given awaited p b b' l s :
  bypass_inv given awaited b -> stepped (Report s) p b b' l ->
  manager_ b' = manager_ (fst (on_response s b)) -> initStatus_ b' = s ->
  callbacks_ b' = callbacks_ (fst (on_response s b)) -> bypass_inv given awaited b'.
Proof.
  intros [H1 H2 H3 H4 H5 H6 H7 H8 H9 H10] [HT HT' Hnot Hnot' _ _ (Hm & Hne & Hmade) Hths Hws Htold Hready Hst] G1 G2 G3.
  rewrite HT in H1, H2, H3, H4, H5. rewrite Hm in H3.
  change (s :: omap report_of l ≡ₚ expected (Some 0%nat) (initStatus_ b)) in H3.
  apply expected_one in H3 as (-> & Hun & Hnil).
  destruct (calls_come SERVICE_AVAILABLE (callbacks_ b)) as (C1 & C2 & C3 & C4). simpl in *. rewrite Hm in *.
  split; rewrite ?G1, ?G2, ?G3, ?Htold, ?Hready, ?HT', ?Hst, ?C1, ?C2, ?C3, ?C4; simpl; try done.
  - rewrite app_nil_r, fmap_app, <- list_fmap_compose. rewrite <- H1. by rewrite list_fmap_id.
  - rewrite app_nil_r. rewrite !Forall_app, Forall_fmap in *. split_and!; try tauto. by apply Forall_true.
  - by rewrite Hnil.
  - rewrite <- H5. destruct (isSubsystemReady 0 b); by rewrite ?app_nil_r.
  - intros Hw Hsa. apply Hws in Hw as [_ [Hw|?]]; [|done]. apply Hnot'. destruct (Hnot _ (H10 Hw Hsa)) as [Hx|?]; [|by right].
    apply list_elem_of_singleton in Hx. discriminate Hx.
Qed.

Lemma other_inv given awaited x p b b' l :
  bypass_inv given awaited b -> stepped x p b b' l -> report_of x = None ->
  manager_ b' = manager_ b -> initStatus_ b' = initStatus_ b -> callbacks_ b' = callbacks_ b -> bypass_inv given awaited b'.
Proof.
  intros [H1 H2 H3 H4 H5 H6 H7 H8 H9 H10] [HT HT' Hnot Hnot' Hpl Hn (Hm & Hne & Hmade) Hths Hws Htold Hready Hst] Hr G1 G2 G3.
  rewrite HT in H1, H2, H3, H4, H5. rewrite Hm in *.
  assert (Hset : forall s, x = SetStatus s -> s = SERVICE_AVAILABLE /\ omap status_set l = [] /\ NotifyAll ∈ l).
  { intros s ->. change (s :: omap status_set l ≡ₚ expected (Some 0%nat) (status_of 0 b)) in H4.
    apply expected_one in H4 as (-> & ? & ?). apply andb_true_iff in Hn as [Hn _]. split_and!; try done. by apply Hpl, notified. }
  split; rewrite ?G1, ?G2, ?G3, ?Htold, ?Hready, ?HT', ?Hst; try done.
  - rewrite <- H1. destruct x; simpl; rewrite ?app_nil_r; try done; [rewrite fmap_app; simpl; solve_Permutation|by case_match].
  - destruct x; simpl in *; rewrite ?app_nil_r; try done; [by rewrite <- (assoc_L (++))|by case_match].
  - rewrite <- H3. destruct x; simpl; try done. by case_match.
  - destruct x; simpl in *; try done; [|by case_match]. by destruct (Hset _ eq_refl) as (-> & -> & _).
  - rewrite <- H5. destruct x; simpl; rewrite ?app_nil_r; try (by destruct (isSubsystemReady 0 b); rewrite ?app_nil_r).
    destruct (isSubsystemReady 0 b); simpl; rewrite ?app_nil_r; [by rewrite <- (assoc_L (++))|done].
  - destruct x; try done. by destruct (Hset _ eq_refl) as (-> & _).
  - intros Hw Hsa. apply Hnot'. apply Hws in Hw as [Hx Hw]. destruct x as [f|s|s|c s| | |r|w]; try done;
      try (destruct Hw as [Hw|?]; [|done]; destruct (Hnot _ (H10 Hw Hsa)) as [Hin|?]; [|by right]; by apply list_elem_of_singleton in Hin).
    + right. by destruct (Hset _ eq_refl) as (_ & _ & ?).
    + destruct Hw as [Hw|?]; [|done]. apply (Hnot _ (H10 Hw Hsa)).
Qed.

Lemma exec_inv given awaited n i x p b :
  bypass_inv given awaited b -> threads b !! n = Some (i, Running (x :: p)) ->
  bypass_inv given awaited (exec n i x p b).
Proof.
  intros Hi Ht. destruct (exec_stepped _ _ _ _ _ _ _ Hi Ht) as (-> & l & Hs).
  destruct (report_of x) as [s|] eqn:Hr.
  - destruct x; try done. eapply report_inv; [exact Hi|exact Hs|..]; by destruct s0.
  - destruct (exec_globals n 0 x p b) as (? & ? & ?); [by destruct x|]. by eapply other_inv.
Qed.

(** ** Clients *)

Definition gives_init (mv : bypass_move) : list C := match mv with Get _ cb => option_list cb | _ => [] end.
Definition is_get (mv : bypass_move) : bool := match mv with Get _ _ => true | _ => false end.
Definition mem_ok (mv : bypass_move) : bool := match mv with Get alloc _ => alloc | _ => true end.
(** The wait a client with an object asks for. *)
Definition awaits (made : bool) (mv : bypass_move) : option nat :=
  match mv with OnReady 0 w => if made then Some w else None | _ => None end.
Definition is_made (b : Bypass) : bool := bool_decide (manager_ b <> None).

Lemma spawn_to_come i q b : to_come (spawn i q b) = to_come b ++ (q ≫= later).
Proof. unfold to_come, spawn, work. simpl. rewrite !bind_app. simpl. by rewrite app_nil_r. Qed.

Lemma grow_inv given awaited b b' q gs ws :
  bypass_inv given awaited b -> is_made b = true ->
  manager_ b' = manager_ b -> initStatus_ b' = initStatus_ b -> length (insts b') = length (insts b) ->
  status_of 0 b' = status_of 0 b -> told_init b' = told_init b -> readied b' = readied b ->
  to_come b' = to_come b ++ q -> omap report_of q = [] -> omap status_set q = [] -> omap wait_of q = ws ->
  Forall (fun p => snd p = SERVICE_AVAILABLE) (omap init_call q) ->
  callbacks_ b' ++ (omap init_call q).*1 ≡ₚ callbacks_ b ++ gs ->
  (initStatus_ b = SERVICE_AVAILABLE -> callbacks_ b' = []) ->
  (forall t, t ∈ threads b' -> thread_ok t) -> (waits b' -> waits b) ->
  bypass_inv (given ++ gs) (awaited ++ ws) b'.
Proof.
  intros [H1 H2 H3 H4 H5 H6 H7 H8 H9 H10] Hm%bool_decide_eq_true G1 G2 G3 G4 G5 G6 G7 Q1 Q2 Q3 Q4 Q5 Q6 Hths Hws.
  destruct (manager_ b) as [k|] eqn:Hmb; [|done].
  split; rewrite ?G1, ?G2, ?G3, ?G4, ?G5, ?G6, ?G7, ?omap_app, ?Q1, ?Q2, ?Q3, ?app_nil_r; try done.
  - rewrite fmap_app, <- H1.
    transitivity ((told_init b).*1 ++ (omap init_call (to_come b)).*1 ++ (callbacks_ b' ++ (omap init_call q).*1)); [solve_Permutation|].
    rewrite Q5. solve_Permutation.
  - rewrite (assoc_L (++)), Forall_app. done.
  - rewrite <- H5. by rewrite (assoc_L (++)).
  - split; [tauto|done].
  - intros Hw Hs. apply elem_of_app. left. auto.
Qed.

Lemma answers_spawned i rs b :
  let b' := foldl (fun b r => spawn i [AnswerOp r] b) b rs in
  to_come b' = to_come b ++ (AnswerOp <$> rs) /\ threads b' = threads b ++ ((fun r => (i, Running [AnswerOp r])) <$> rs) /\
  manager_ b' = manager_ b /\ initStatus_ b' = initStatus_ b /\ callbacks_ b' = callbacks_ b /\ insts b' = insts b /\
  told_init b' = told_init b /\ readied b' = readied b.
Proof.
  revert b. induction rs as [|r rs IH]; intros b; simpl; [by rewrite !app_nil_r|].
  destruct (IH (spawn i [AnswerOp r] b)) as (H1 & H2 & H3). split_and!; try apply H3.
  - rewrite H1, spawn_to_come. simpl. by rewrite <- (assoc_L (++)).
  - rewrite H2. simpl. by rewrite <- (assoc_L (++)).
Qed.

Lemma answers_nothing (rs : list R) :
  omap report_of (AnswerOp <$> rs) = [] /\ omap status_set (AnswerOp <$> rs) = [] /\
  omap wait_of (AnswerOp <$> rs) = [] /\ omap init_call (AnswerOp <$> rs) = [].
Proof. by induction rs as [|r rs IH]. Qed.

Lemma waits_snoc b b' i p : threads b' = threads b ++ [(i, Running p)] -> waits b' -> waits b.
Proof.
  intros Ht (j & w & q & Hin). rewrite Ht, elem_of_app in Hin. destruct Hin as [Hin|Hin]; [by exists j, w, q|].
  by apply list_elem_of_singleton in Hin.
Qed.

(** The first client's getter starts the initialization. *)
Lemma get_new given awaited cb b :
  bypass_inv given awaited b -> manager_ b = None ->
  bypass_inv (given ++ option_list cb) awaited
    (mkBypass (Some (length (insts b))) (initStatus_ b) (callbacks_ b ++ option_list cb)
      (insts b ++ [mkInst bm_new SERVICE_UNAVAILABLE]) (threads b ++ [(length (insts b), Running bm_init)])
      (told_init b) (answered_op b) (readied b)).
Proof.
  intros [H1 H2 H3 H4 H5 H6 H7 H8 H9 H10] Hm. rewrite Hm in H7. destruct H7 as (Hi & Ht & Hc & Hs).
  assert (Hcome : to_come b = []) by (unfold to_come; by rewrite Ht).
  rewrite Hcome, Hm, Hs, Hc, Hi, Ht in *. simpl in *. rewrite !app_nil_r in *.
  assert (Hn : forall b' : Bypass, threads b' = [(0%nat, Running bm_init)] -> to_come b' = bm_init ≫= later).
  { intros b' Hb'. unfold to_come, work. rewrite Hb'. simpl. by rewrite app_nil_r. }
  split; try match goal with |- context [to_come ?b'] => rewrite (Hn b' eq_refl) end;
    rewrite ?bs_reports, ?bs_sets, ?bs_calls, ?bs_waits; simpl; rewrite ?app_nil_r; try done.
  - by rewrite H1.
  - intros t ->%list_elem_of_singleton. split; [done|]. apply bs_notifies.
Qed.

Lemma get_inv given awaited alloc cb b b' :
  bypass_inv given awaited b -> alloc = true -> bypass_step (Get alloc cb) b = Done b' ->
  bypass_inv (given ++ option_list cb) awaited b' /\ is_made b' = true.
Proof.
  intros Hi ->. simpl. unfold get. destruct (manager_ b) as [k|] eqn:Hm; simpl.
  2: { intros [= <-]. split; [by apply get_new|done]. }
  assert (Hk : is_made b = true) by (unfold is_made; by rewrite Hm).
  pose proof (bi_manager _ _ _ Hi) as Hk0. rewrite Hm in Hk0. destruct Hk0 as [-> _].
  destruct (bi_init _ _ _ Hi) as [Hf Hcb]. rewrite <- (app_nil_r awaited).
  case_decide as Hs; simpl; [|destruct cb as [c|]]; intros [= <-]; (split; [|by unfold is_made; simpl; rewrite Hm]).
  - apply (grow_inv given awaited b _ []); simpl; rewrite ?app_nil_r; try done; [by rewrite Hs|apply (bi_threads _ _ _ Hi)].
  - assert (Ha : initStatus_ b = SERVICE_AVAILABLE) by (by destruct (initStatus_ b)).
    apply (grow_inv given awaited b _ [CallInit c (initStatus_ b)]); simpl; try done.
    + apply spawn_to_come.
    + by rewrite Ha; repeat constructor.
    + intros t. rewrite elem_of_app, list_elem_of_singleton. intros [?| ->]; [by apply (bi_threads _ _ _ Hi)|done].
    + by apply waits_snoc with 0%nat [CallInit c (initStatus_ b)].
  - rewrite app_nil_r. by rewrite app_nil_r.
Qed.

Lemma client_inv given awaited i op b : bypass_inv given awaited b -> bypass_inv given awaited (fst (call_op i op b)).
Proof.
  intros Hi. unfold call_op. destruct (insts b !! i) as [o|] eqn:Ho; [|done].
  pose proof (bi_manager _ _ _ Hi) as Hm. destruct (manager_ b) as [k|] eqn:Hmb; [|by destruct Hm as (Hn & _); rewrite Hn in Ho].
  destruct Hm as [-> Hlen]. assert (i = 0%nat) as -> by (apply lookup_lt_Some in Ho; lia).
  destruct (bm_serves op (subSystemStatus_ o) (own o)) as [[x v] rs]. simpl.
  destruct (answers_spawned 0 rs (with_insts (<[0%nat := mkInst x (subSystemStatus_ o)]> (insts b)) b))
    as (A1 & A2 & A3 & A4 & A5 & A6 & A7 & A8). destruct (answers_nothing rs) as (N1 & N2 & N3 & N4).
  rewrite <- (app_nil_r given), <- (app_nil_r awaited).
  eapply grow_inv; [exact Hi|by unfold is_made; rewrite Hmb|exact A3|exact A4|..|exact A1| | | | | | | |];
    rewrite ?A5, ?A6, ?A7, ?A8, ?N4; simpl; try done; rewrite ?app_nil_r; try done.
  - by rewrite length_insert.
  - unfold status_of. rewrite A6. simpl. destruct (insts b); [done|]. simpl in *. by injection Ho as ->.
  - apply (bi_init _ _ _ Hi).
  - rewrite A2. simpl. intros t. rewrite elem_of_app. intros [?|(r & -> & _)%list_elem_of_fmap]; [by apply (bi_threads _ _ _ Hi)|done].
  - intros (j & w & q & Hin). rewrite A2, elem_of_app in Hin. destruct Hin as [Hin|Hin]; [by exists j, w, q|].
    by apply list_elem_of_fmap in Hin as (r & ? & _).
Qed.

Lemma wait_inv given awaited i w b :
  bypass_inv given awaited b ->
  bypass_inv given (awaited ++ option_list (awaits (is_made b) (OnReady i w)))
    (if decide (i < length (insts b))%nat then onSubsystemReady i w b else b).
Proof.
  intros Hi. pose proof (bi_manager _ _ _ Hi) as Hm. unfold is_made. destruct (manager_ b) as [k|] eqn:Hmb; simpl.
  - destruct Hm as [-> Hlen]. rewrite Hlen. case_decide as Hlt; destruct i as [|i]; try lia; simpl; [|by rewrite app_nil_r].
    rewrite <- (app_nil_r given).
    apply (grow_inv given awaited b _ [AwaitReady w]); simpl; try done; try (by unfold is_made; rewrite Hmb); try apply spawn_to_come.
    + apply (bi_init _ _ _ Hi).
    + intros t. rewrite elem_of_app, list_elem_of_singleton. intros [?| ->]; [by apply (bi_threads _ _ _ Hi)|done].
    + by apply waits_snoc with 0%nat [AwaitReady w].
  - destruct Hm as (-> & _). case_decide as Hlt; [simpl in Hlt; lia|]. destruct i; by rewrite app_nil_r.
Qed.

Lemma work_alter n ts : work (alter (fun t => wake_up (fst t) t) n ts) = work ts.
Proof.
  revert n. induction ts as [|t ts IH]; intros [|n]; [done|done| |].
  - unfold work. simpl. f_equal. destruct t as [j [q|u q]]; simpl; [done|]. by rewrite decide_True.
  - exact (f_equal (app (prog (snd t))) (IH n)).
Qed.

Lemma spurious_inv given awaited n b :
  bypass_inv given awaited b -> bypass_inv given awaited (with_threads (alter (fun t => wake_up (fst t) t) n (threads b)) b).
Proof.
  intros Hi. destruct (manager_ b) as [k|] eqn:Hm.
  2: { pose proof (bi_manager _ _ _ Hi) as Hn. rewrite Hm in Hn. destruct Hn as (_ & Ht & _). destruct b; simpl in *. by subst. }
  assert (Hin : forall t, t ∈ alter (fun t => wake_up (fst t) t) n (threads b) ->
    t ∈ threads b \/ exists u, u ∈ threads b /\ t = wake_up (fst u) u).
  { intros t [m Hl]%list_elem_of_lookup. rewrite list_lookup_alter in Hl. case_decide.
    - apply fmap_Some in Hl as (u & Hu & ->). right. exists u. by apply list_elem_of_lookup_2 in Hu.
    - left. by apply list_elem_of_lookup_2 in Hl. }
  rewrite <- (app_nil_r given), <- (app_nil_r awaited).
  apply (grow_inv given awaited b _ []); simpl; rewrite ?app_nil_r; try done; try (by unfold is_made; rewrite Hm).
  - unfold to_come. simpl. by rewrite work_alter.
  - apply (bi_init _ _ _ Hi).
  - intros t [?|(u & Hu & ->)]%Hin; [by apply (bi_threads _ _ _ Hi)|]. apply (bi_threads _ _ _ Hi) in Hu as [H0 Hn].
    destruct u as [j [q|u q]]; simpl in *; [done|]. by rewrite decide_True.
  - intros (j & w & q & [?|(u & Hu & Heq)]%Hin); [by exists j, w, q|]. destruct u as [j' [q'|u q']]; simpl in Heq; [done|].
    by rewrite decide_True in Heq.
Qed.

Lemma move_inv given awaited mv b b' :
  bypass_inv given awaited b -> mem_ok mv = true -> bypass_step mv b = Done b' ->
  bypass_inv (given ++ gives_init mv) (awaited ++ option_list (awaits (is_made b) mv)) b' /\
  is_made b' = is_made b || is_get mv.
Proof.
  intros Hi Hok Hs. destruct mv as [alloc cb|i op|i w|n|n]; simpl in Hok.
  - destruct (get_inv _ _ _ _ _ _ Hi Hok Hs) as [H1 H2]. simpl. by rewrite app_nil_r, H2, orb_true_r.
  - injection Hs as <-. simpl. rewrite !app_nil_r, orb_false_r. split; [by apply client_inv|].
    unfold call_op. destruct (insts b !! i) as [o|]; [|done]. destruct (bm_serves _ _ _) as [[x v] rs].
    unfold is_made. simpl. by destruct (answers_spawned i rs (with_insts (<[i := mkInst x (subSystemStatus_ o)]> (insts b)) b)) as (_ & _ & -> & _).
  - injection Hs as <-. simpl gives_init. rewrite app_nil_r, orb_false_r. split; [by apply wait_inv|]. by case_decide.
  - injection Hs as <-. simpl. rewrite !app_nil_r, orb_false_r. unfold run_thread.
    destruct (threads b !! n) as [[i [[|x p]|w p]]|] eqn:Ht; try done.
    pose proof (exec_inv _ _ _ _ _ _ _ Hi Ht) as Hi'. split; [done|].
    pose proof (bi_manager _ _ _ Hi) as Hm. pose proof (bi_manager _ _ _ Hi') as Hm'. unfold is_made.
    apply bool_decide_ext. destruct (manager_ b) as [k|] eqn:Hk, (manager_ (exec n i x p b)) as [k'|] eqn:Hk'; try done.
    + destruct Hm as [_ Hlen], Hm' as [Hn _]. by rewrite <- (exec_made n i x p b), Hn in Hlen.
    + destruct Hm as (_ & Hn & _). by rewrite Hn in Ht.
  - injection Hs as <-. simpl. rewrite !app_nil_r, orb_false_r. split; [by apply spurious_inv|done].
Qed.

Definition asked_init (mvs : list bypass_move) : list C := mvs ≫= gives_init.
Definition asked_ready (mvs : list bypass_move) : list nat :=
  heard (fun made mv => made || is_get mv) awaits false mvs.

Lemma bypass_run_inv mvs b :
  bypass_run mvs bypass_boot = Done b -> Forall (fun mv => mem_ok mv = true) mvs ->
  bypass_inv (asked_init mvs) (asked_ready mvs) b /\ is_made b = fold_left (fun made mv => made || is_get mv) mvs false.
Proof.
  revert b. induction mvs as [|mv mvs IH] using rev_ind; intros b.
  { intros [= <-] _. split; [|done]. split; try done.
    intros t Hin. by apply not_elem_of_nil in Hin. }
  unfold bypass_run. rewrite run_app. intros (b1 & Hr & Hs)%bind_done' [Hok Hmv]%Forall_app.
  apply bind_done' in Hs as (b2 & Hs & [= ->]). destruct (IH _ Hr Hok) as [Hi Hm].
  rewrite Forall_singleton in Hmv. destruct (move_inv _ _ _ _ _ Hi Hmv Hs) as [Hi' Hm'].
  unfold asked_init, asked_ready. rewrite bind_app, heard_snoc, fold_left_app, <- Hm. simpl. rewrite app_nil_r. by split.
Qed.

(** ** The threads come to rest *)

Definition runnable (t : nat * thread) : bool := match snd t with Running (_ :: _) => true | _ => false end.
Definition settled (b : Bypass) : bool := forallb (fun t => negb (runnable t)) (threads b).

Lemma settled_waits b : (forall t, t ∈ threads b -> thread_ok t) -> settled b = true ->
  to_come b = AwaitReady <$> omap wait_of (to_come b) /\ (to_come b <> [] -> waits b).
Proof.
  unfold settled, to_come, waits. induction (threads b) as [|t ts IH]; [done|]. intros Hok. simpl.
  intros [Ht Hts]%andb_true_iff. destruct IH as [IH1 IH2]; [intros u Hu; apply Hok; by right|done|].
  specialize (Hok t ltac:(left)) as [_ Hn]. unfold work in *. rewrite bind_app, omap_app, fmap_app, <- IH1.
  destruct t as [i [[|x p]|w p]]; simpl in *; [split; [done|]|done|].
  - intros Hne. destruct (IH2 Hne) as (j & w & p & Hin). exists j, w, p. by right.
  - destruct p; [|done]. split; [done|]. intros _. exists i, w, []. by left.
Qed.

Lemma settled_done given awaited b :
  bypass_inv given awaited b -> settled b = true -> (told_init b).*1 ≡ₚ given /\ readied b ≡ₚ awaited.
Proof.
  intros Hi Hs. destruct (settled_waits b (bi_threads _ _ _ Hi) Hs) as [Hc Hw]. destruct Hi as [H1 H2 H3 H4 H5 H6 H7 H8 H9 H10].
  assert (Hnone : forall A (g : instr -> option A), (forall w, g (AwaitReady w) = None) -> omap g (to_come b) = []).
  { intros A g Hg. rewrite Hc. apply omap_all_none. by intros x (w & -> & _)%list_elem_of_fmap. }
  rewrite !Hnone in H1, H3, H4 by done.
  assert (Hnil : to_come b = []).
  { destruct (decide (to_come b = [])) as [?|Hne]; [done|exfalso]. destruct (manager_ b) as [k|].
    - assert (Hav : status_of 0 b = SERVICE_AVAILABLE) by (destruct (status_of 0 b); try done; by apply Permutation_nil_l in H4).
      specialize (H10 (Hw Hne) Hav). rewrite Hc in H10. by apply list_elem_of_fmap in H10 as (w & ? & _).
    - destruct H7 as (_ & Ht & _). unfold to_come in Hne. by rewrite Ht in Hne. }
  rewrite Hnil in H5. simpl in *. rewrite !app_nil_r in *. split; [|done].
  assert (Hcb : callbacks_ b = []); [|by rewrite <- H1, Hcb, app_nil_r].
  destruct (manager_ b) as [k|]; [|apply H7]. apply H6. destruct (initStatus_ b); [by apply Permutation_nil_l in H3|done|tauto].
Qed.

(** Each step takes away a notification, or leaves them and takes away from what the
    threads have to do. *)
Definition weight (t : nat * thread) : nat :=
  length (prog (snd t) ≫= later) + 2 * length (filter (fun x => is_later x = true) (prog (snd t))) +
  match snd t with Running _ => 1 | Waiting _ _ => 0 end.
Definition burden (b : Bypass) : nat := sum_list (weight <$> threads b) + length (callbacks_ b).
Definition notices (b : Bypass) : nat := length (filter (fun x => is_notify x = true) (to_come b)).

Lemma weight_insert n (t u : nat * thread) ts :
  ts !! n = Some t -> (sum_list (weight <$> <[n := u]> ts) + weight t = sum_list (weight <$> ts) + weight u)%nat.
Proof.
  intros Ht. pose proof (lookup_lt_Some _ _ _ Ht). rewrite insert_take_drop by done.
  rewrite <- (take_drop_middle ts n t Ht) at 3. rewrite !fmap_app, !fmap_cons, !sum_list_with_app. simpl. lia.
Qed.

Lemma weight_step i x p :
  weight (i, Running (x :: p)) = (length (later x) + (if is_later x then 2 else 0) + weight (i, Running p))%nat.
Proof.
  unfold weight. simpl prog. rewrite bind_cons, length_app. destruct x; simpl; try (rewrite filter_cons_False by done); simpl; try lia.
Qed.

Lemma weight_calls i s cs p :
  weight (i, Running (((fun c => CallInit c s) <$> cs) ++ p)) = (length cs + weight (i, Running p))%nat.
Proof. induction cs as [|c cs IH]; [done|]. rewrite fmap_cons, <- app_comm_cons, weight_step, IH. simpl. lia. Qed.

Lemma no_later p : existsb is_later p = false -> filter (fun x => is_later x = true) p = [].
Proof.
  induction p as [|x p IH]; [done|]. simpl. intros [Hx Hp]%orb_false_iff. rewrite filter_cons_False by congruence. by apply IH.
Qed.

Lemma exec_burden n i x p b :
  threads b !! n = Some (i, Running (x :: p)) -> x <> NotifyAll -> (burden (exec n i x p b) < burden b)%nat.
Proof.
  intros Ht Hx. pose proof (weight_step i x p) as Hw. unfold burden.
  assert (Hgo : forall u, (sum_list (weight <$> <[n := u]> (threads b)) + weight (i, Running (x :: p)) =
    sum_list (weight <$> threads b) + weight u)%nat) by (intros u; by apply weight_insert).
  destruct x; simpl in *; try (specialize (Hgo (i, Running p)); lia); try done.
  - specialize (Hgo (i, Running (((fun c => CallInit c s) <$> snd (on_response s b)) ++ p))). rewrite weight_calls in Hgo.
    destruct s; simpl in *; lia.
  - specialize (Hgo (i, Running p)). rewrite fmap_app, sum_list_with_app. simpl.
    assert (Hl : weight (i, Running bm_later) = (length bm_later + 1)%nat); [|lia].
    unfold weight. simpl. rewrite (later_flat bm_later), (no_later bm_later) by apply bs_later. simpl. lia.
  - destruct (isSubsystemReady i b); simpl; [specialize (Hgo (i, Running p)); lia|].
    specialize (Hgo (i, Waiting w p)).
    assert (weight (i, Waiting w p) + 1 = weight (i, Running (AwaitReady w :: p)))%nat by (unfold weight; simpl; lia). lia.
Qed.

Lemma exec_notices n i x p b :
  threads b !! n = Some (i, Running (x :: p)) ->
  (notices (exec n i x p b) + (if is_notify x then 1 else 0) = notices b)%nat.
Proof.
  intros Ht. destruct (exec_work _ _ _ _ _ Ht) as (l & Hl & Hl' & _). unfold notices.
  rewrite Hl, Hl', !filter_app, !length_app.
  assert (Ha : (length (filter (fun y => is_notify y = true) (added i x b)) + (if is_notify x then 1 else 0) =
    length (filter (fun y => is_notify y = true) (later x)))%nat); [|lia].
  destruct x; simpl; try done; [|by destruct (isSubsystemReady i b)].
  induction (snd (on_response s b)) as [|c cs IH]; [done|]. rewrite fmap_cons, filter_cons_False by done. exact IH.
Qed.

(** Running the threads cannot go on for ever. *)
Definition thread_steps (b' b : Bypass) : Prop :=
  exists n t, threads b !! n = Some t /\ runnable t = true /\ b' = run_thread n b.

Lemma threads_end : well_founded thread_steps.
Proof.
  apply (wf_projected (slexprod nat nat lt lt) (fun b => (notices b, burden b))); [|apply wf_slexprod; apply lt_wf].
  intros b' b (n & [i [[|x p]|w p]] & Ht & Hr & ->); try done. unfold run_thread. rewrite Ht.
  pose proof (exec_notices _ _ _ _ _ Ht) as Hn. destruct (is_notify x) eqn:Hx.
  - left. lia.
  - rewrite Nat.add_0_r in Hn. rewrite Hn. right. apply exec_burden; [done|]. by intros ->.
Qed.

(** ** Nothing is served half initialized *)

(** Up to the first step on its own members, a thread does not set the status. *)
Fixpoint guarded_from (rest : bool) (p : list instr) : bool :=
  match p with
  | [] | Own _ :: _ => true
  | SetStatus _ :: _ => false
  | Later :: p => rest && match p with [] => true | _ => false end
  | _ :: p => guarded_from rest p
  end.
Definition guarded (p : list instr) : bool := guarded_from (guarded_from false bm_later) p.

(** [P]: the members are as the operations need them; the initialization makes them so
    before it says that the service is available, and no operation undoes it. *)
Class BypassMembers (P : O -> Prop) : Prop := {
  bmem_own f : Own f ∈ bm_init ++ bm_later -> forall x, P (f x);
  bmem_init : guarded bm_init = true;
  bmem_serves op s x : P x -> P (fst (fst (bm_serves op s x))) }.

Section Members.
Context (P : O -> Prop) `{!BypassMembers P}.

Definition ready_at (i : nat) (b : Bypass) : Prop := forall o, insts b !! i = Some o -> P (own o).

Definition own_ok (p : list instr) : Prop := forall f, Own f ∈ p -> forall x, P (f x).

Definition thread_fits (b : Bypass) (i : nat) (t : thread) : Prop :=
  own_ok (prog t) /\ (ready_at i b \/ guarded (prog t) = true).

Record members_inv (b : Bypass) : Prop := {
  mi_status i o : insts b !! i = Some o -> subSystemStatus_ o <> SERVICE_UNAVAILABLE -> P (own o);
  mi_threads i t : (i, t) ∈ threads b -> thread_fits b i t }.

Lemma own_ok_init : own_ok bm_init /\ own_ok bm_later.
Proof. split; intros f Hf; apply bmem_own; apply elem_of_app; auto. Qed.

Lemma own_ok_cons x p : own_ok (x :: p) -> own_ok p.
Proof. intros Hok f Hf. apply Hok. by right. Qed.

Lemma own_ok_calls s cs p : own_ok p -> own_ok (((fun c => CallInit c s) <$> cs) ++ p).
Proof. intros Hok f [(c & ? & _)%list_elem_of_fmap|Hf]%elem_of_app; [done|by apply Hok]. Qed.

Lemma guarded_calls s cs p : guarded (((fun c => CallInit c s) <$> cs) ++ p) = guarded p.
Proof. by induction cs as [|c cs IH]. Qed.

(** A state with the same objects, and threads that are as they should be. *)
Lemma members_same b b' :
  members_inv b -> insts b' = insts b -> (forall i t, (i, t) ∈ threads b' -> thread_fits b i t) -> members_inv b'.
Proof.
  intros [H1 H2] Hi Ht. split; [by rewrite Hi|]. intros i t Hin%Ht. unfold thread_fits, ready_at. by rewrite Hi.
Qed.

Lemma guarded_mono r p : guarded_from false p = true -> guarded_from r p = true.
Proof. induction p as [|x p IH]; [done|]. by destruct x. Qed.

(** The step of a thread that fits leaves a rest that fits. *)
Lemma fits_rest b i x p :
  thread_fits b i (Running (x :: p)) -> (forall f, x <> Own f) -> thread_fits b i (Running p).
Proof.
  intros [Hok Hr] Hx. split; [by eapply own_ok_cons|]. destruct Hr as [?|Hg]; [by left|]. right.
  destruct x; try done; [by destruct (Hx f)|]. apply andb_true_iff in Hg as [_ Hp]. by destruct p.
Qed.

Lemma insert_fits b n i u :
  members_inv b -> thread_fits b i u ->
  forall j t, (j, t) ∈ <[n := (i, u)]> (threads b) -> thread_fits b j t.
Proof. intros [_ H2] Hu j t [[= -> ->]|?]%elem_of_insert_or; [done|]. by apply H2. Qed.

Lemma own_step b n i f p :
  members_inv b -> threads b !! n = Some (i, Running (Own f :: p)) -> members_inv (exec n i (Own f) p b).
Proof.
  intros [H1 H2] Ht. destruct (H2 _ _ (list_elem_of_lookup_2 _ _ _ Ht)) as [Hok _]. simpl in Hok.
  assert (Hi : forall j, ready_at j (exec n i (Own f) p b) <-> (j = i \/ ready_at j b)).
  { intros j. unfold ready_at. simpl. split.
    - intros Hj. destruct (decide (j = i)) as [|Hne]; [by left|right]. intros o Ho. apply Hj. by rewrite list_lookup_alter_ne.
    - intros Hj o Ho. rewrite list_lookup_alter in Ho. case_decide as Hji; [|by destruct Hj as [->|Hj]; [|apply Hj]].
      apply fmap_Some in Ho as (o' & _ & ->). apply (Hok f). by left. }
  split.
  - intros j o Ho Hs. destruct (decide (j = i)) as [->|Hne]; [by apply (proj2 (Hi i) (or_introl eq_refl))|]. simpl in Ho.
    rewrite list_lookup_alter_ne in Ho by done. by eapply H1.
  - intros j t. simpl. intros [[= -> ->]|Hin]%elem_of_insert_or.
    + split; [by eapply own_ok_cons|]. left. apply Hi. by left.
    + destruct (H2 _ _ Hin) as [? [?|?]]; (split; [done|]); [left; apply Hi; by right|by right].
Qed.

Lemma setting_step b n i s p :
  members_inv b -> threads b !! n = Some (i, Running (SetStatus s :: p)) -> members_inv (exec n i (SetStatus s) p b).
Proof.
  intros Hi Ht. pose proof (mi_threads _ Hi _ _ (list_elem_of_lookup_2 _ _ _ Ht)) as Hf.
  assert (Hr : ready_at i b) by (destruct Hf as [_ [?|Hg]]; [done|discriminate Hg]).
  assert (Hat : forall j o, alter (fun o => mkInst (own o) s) i (insts b) !! j = Some o ->
    exists o', insts b !! j = Some o' /\ own o = own o' /\ (j <> i -> o = o')).
  { intros j o Ho. rewrite list_lookup_alter in Ho. case_decide; [|by exists o].
    apply fmap_Some in Ho as (o' & ? & ->). exists o'. naive_solver. }
  split; simpl.
  - intros j o Ho Hs. destruct (Hat _ _ Ho) as (o' & Ho' & -> & Hne). destruct (decide (j = i)) as [->|Hji]; [by apply Hr|].
    rewrite (Hne Hji) in Hs. by eapply (mi_status _ Hi).
  - intros j t Hin%(insert_fits b); [|done|by eapply fits_rest]. destruct Hin as [? [Hj|?]]; (split; [done|]); [left|by right].
    intros o Ho. destruct (Hat _ _ Ho) as (o' & Ho' & -> & _). by apply Hj.
Qed.

Lemma members_exec b n i x p :
  members_inv b -> threads b !! n = Some (i, Running (x :: p)) -> members_inv (exec n i x p b).
Proof.
  intros Hi Ht. pose proof (mi_threads _ Hi _ _ (list_elem_of_lookup_2 _ _ _ Ht)) as Hf. fold (thread_fits b i (Running (x :: p))) in Hf.
  pose proof (fun Hx => fits_rest _ _ _ _ Hf Hx) as Hrest. pose proof (fun u => insert_fits b n i u Hi) as Hins.
  destruct x as [f|s|s|c s| | |r|w]; [by apply own_step|by apply setting_step|..];
    specialize (Hrest ltac:(done)); try (apply (members_same b); [done|done|]; by apply (Hins (Running p))).
  - apply (members_same b); [done|by destruct s|]. simpl.
    destruct (on_response s b) as [b1 cbs] eqn:Hr. replace (threads b1) with (threads b) by (by destruct s; injection Hr as <- <-).
    apply Hins. destruct Hrest as [Hok Hg]. split; [by apply own_ok_calls|]. simpl in *. by rewrite guarded_calls.
  - apply (members_same b); [done|done|]. intros j t [[= -> ->]|Hin]%elem_of_insert_or; [done|].
    apply list_elem_of_fmap in Hin as ([k [q|w q]] & Heq & Hin); simpl in Heq; [injection Heq as -> ->; by apply Hi|].
    apply (mi_threads _ Hi) in Hin as [Hok Hg]. by case_decide; injection Heq as -> ->.
  - apply (members_same b); [done|done|]. simpl. intros j t [Hin|Hin]%elem_of_app; [by apply (Hins (Running p) Hrest)|].
    apply list_elem_of_singleton in Hin as [= -> ->]. split; [apply own_ok_init|].
    destruct Hf as [_ [?|Hg]]; [by left|right]. apply andb_true_iff in Hg as [Hg _]. by apply guarded_mono.
  - apply (members_same b); [done|simpl; by destruct (isSubsystemReady i b)|]. simpl.
    destruct (isSubsystemReady i b); simpl; [by apply (Hins (Running p))|]. by apply (Hins (Waiting w p)).
Qed.

Lemma spawned_fits b i p :
  members_inv b -> own_ok p -> guarded p = true -> members_inv (spawn i p b).
Proof.
  intros Hi Hok Hg. apply (members_same b); [done|done|]. simpl. intros j t [Hin|Hin]%elem_of_app; [by apply Hi|].
  apply list_elem_of_singleton in Hin as [= -> ->]. split; [done|by right].
Qed.

Lemma own_ok_none p : (forall f, Own f ∉ p) -> own_ok p.
Proof. intros Hp f Hf. by destruct (Hp f). Qed.

Lemma wake_fits b n : members_inv b -> members_inv (with_threads (alter (fun t => wake_up (fst t) t) n (threads b)) b).
Proof.
  intros Hi. apply (members_same b); [done|done|]. simpl. intros j t [m Hl]%list_elem_of_lookup.
  rewrite list_lookup_alter in Hl. case_decide; [|by apply list_elem_of_lookup_2 in Hl; apply Hi].
  apply fmap_Some in Hl as ([k [q|w q]] & Hu & Heq); apply list_elem_of_lookup_2 in Hu; simpl in Heq; [injection Heq as -> ->; by apply Hi|].
  apply (mi_threads _ Hi) in Hu. rewrite decide_True in Heq by done. by injection Heq as -> ->.
Qed.

Lemma call_members b i op : members_inv b -> members_inv (fst (call_op i op b)).
Proof.
  intros Hi. unfold call_op. destruct (insts b !! i) as [o|] eqn:Ho; [|done].
  pose proof (bmem_serves op (subSystemStatus_ o) (own o)) as Hop.
  destruct (bm_serves op (subSystemStatus_ o) (own o)) as [[x v] rs]. simpl in *.
  assert (Hi' : members_inv (with_insts (<[i := mkInst x (subSystemStatus_ o)]> (insts b)) b)).
  { assert (Hat : forall j o', <[i := mkInst x (subSystemStatus_ o)]> (insts b) !! j = Some o' ->
      exists o1, insts b !! j = Some o1 /\ subSystemStatus_ o' = subSystemStatus_ o1 /\ (P (own o1) -> P (own o'))).
    { intros j o' [(<- & <- & _)|[_ Hj]]%list_lookup_insert_Some; [by exists o|by exists o']. }
    split; simpl.
    - intros j o' (o1 & H1 & -> & HP)%Hat Hs. by eapply HP, (mi_status _ Hi).
    - intros j t [Hok Hg]%(mi_threads _ Hi). split; [done|]. destruct Hg as [Hg|?]; [left|by right].
      intros o' (o1 & H1 & _ & HP)%Hat. by apply HP, Hg. }
  revert Hi'. generalize (with_insts (<[i := mkInst x (subSystemStatus_ o)]> (insts b)) b).
  induction rs as [|r rs IH]; intros b' Hb'; [done|]. simpl. apply IH. apply spawned_fits; [done| |done].
  apply own_ok_none. intros f Hf. by apply list_elem_of_singleton in Hf.
Qed.

Lemma get_members given awaited b b' alloc cb :
  bypass_inv given awaited b -> members_inv b -> bypass_step (Get alloc cb) b = Done b' -> members_inv b'.
Proof.
  intros Hb Hi. simpl. unfold get. pose proof (bi_manager _ _ _ Hb) as Hm. destruct (manager_ b) as [k|]; simpl.
  - case_decide; simpl; [|destruct cb as [c|]]; intros [= <-]; try done.
    { apply (members_same b); [done|done|]. apply Hi. }
    apply spawned_fits; [done| |done]. apply own_ok_none. intros f Hf. by apply list_elem_of_singleton in Hf.
  - destruct Hm as (Hn & Ht & _). destruct alloc; [|by destruct bm_no_memory; intros [= <-]]. intros [= <-]. split; simpl.
    + rewrite Hn. by intros j o [-> <-]%list_lookup_singleton_Some.
    + rewrite Ht. intros j t Hin. apply list_elem_of_singleton in Hin as [= -> ->].
      split; [apply own_ok_init|]. right. apply bmem_init.
Qed.

Lemma members_step given awaited b b' mv :
  bypass_inv given awaited b -> members_inv b -> bypass_step mv b = Done b' -> members_inv b'.
Proof.
  intros Hb Hi Hs. destruct mv as [alloc cb|i op|i w|n|n]; [by eapply get_members|..]; injection Hs as <-.
  - by apply call_members.
  - case_decide; [|done]. apply spawned_fits; [done| |done].
    apply own_ok_none. intros f Hf. by apply list_elem_of_singleton in Hf.
  - unfold run_thread. destruct (threads b !! n) as [[i [[|x p]|w p]]|] eqn:Ht; try done. by apply members_exec.
  - by apply wake_fits.
Qed.

(** When an object says that it is ready, its members are as the operations need them. *)
Lemma members_run mvs b :
  bypass_run mvs bypass_boot = Done b -> Forall (fun mv => mem_ok mv = true) mvs -> members_inv b.
Proof.
  revert b. induction mvs as [|mv mvs IH] using rev_ind; intros b.
  { intros [= <-] _. split; [done|]. intros i t Hin. by apply not_elem_of_nil in Hin. }
  unfold bypass_run. rewrite run_app. intros (b1 & Hr & Hs)%bind_done' [Hok Hmv]%Forall_app.
  apply bind_done' in Hs as (b2 & Hs & [= ->]). destruct (bypass_run_inv _ _ Hr Hok) as [Hi _]. eapply members_step; [exact Hi|by apply IH|done].
Qed.
End Members.
End Bypass.
Arguments instr : clear implicits.
Arguments thread : clear implicits.
Arguments Bypass : clear implicits.
Arguments bypass_move : clear implicits.
Arguments BypassManager : clear implicits.

(** C39: the callbacks given to the getters, under every interleaving of clients and threads:
    one manager is made; a callback is called only when the service is available and no
    more often than it was given; the threads come to rest, and when they have every
    callback given has been called once, and every wait for the service to be ready has
    ended. *)
Theorem bypass_inits {C O R Op V} `{!BypassManager C O R Op V, !BypassSpec (C := C) (O := O) (R := R)} mvs (b : Bypass C O R) :
  bypass_run mvs bypass_boot = Done b -> Forall (fun mv => mem_ok mv = true) mvs ->
  (length (insts b) <= 1)%nat /\
  Forall (fun p => snd p = SERVICE_AVAILABLE) (told_init b) /\
  (told_init b).*1 ⊆+ asked_init mvs /\ readied b ⊆+ asked_ready mvs /\
  Acc thread_steps b /\
  (settled b = true -> (told_init b).*1 ≡ₚ asked_init mvs /\ readied b ≡ₚ asked_ready mvs).
Proof.
  intros Hr Hok. destruct (bypass_run_inv _ _ Hr Hok) as [Hi _]. split_and!.
  - pose proof (bi_manager _ _ _ Hi) as Hm. destruct (manager_ b); [by destruct Hm as [_ ->]|by destruct Hm as [-> _]; simpl; lia].
  - pose proof (bi_available _ _ _ Hi) as Hf. by apply Forall_app in Hf as [? _].
  - rewrite <- (bi_told _ _ _ Hi). by apply submseteq_inserts_r.
  - rewrite <- (bi_waits _ _ _ Hi). by apply submseteq_inserts_r.
  - apply threads_end.
  - intros Hs. by apply settled_done.
Qed.
