(* ===== verification/SimBypass.v ===== *)
(** * The managers of the bypass (src/bypass/telsdk/sdkSimCardSvcBypass)

    MultiSimManagerImplBypass.cpp and SimProfileManagerBypass.cpp: what each keeps, how
    it initializes, and its operations.  Bypass.v runs them. *)

From S2P Require Import Prelude Envelope InitGate Manager Card MultiSim Bypass.

Local Open Scope Z_scope.

(** The steps of a program that work on the members. *)
Ltac own_steps Hf :=
  repeat (apply elem_of_cons in Hf as [Hf|Hf]; [first [discriminate Hf|by injection Hf as ->]|]);
  by apply not_elem_of_nil in Hf.

(** [setServiceStatus], the init callback being set. *)
Definition setServiceStatus {C O R} (s : ServiceStatus) : list (instr C O R) := [SetStatus s; Report s].

(** ** The multi-SIM manager (MultiSimManagerImplBypass.cpp) *)

Section MultiSimBypass.
(** [C]: callbacks of clients.  [M] is the SDK's [ListenerManager], with what it does
    when a listener is registered and removed. *)
Context {C L M : Type} (lm_new : M) (lm_register lm_deRegister : L -> M -> Manager.Status * M).

Definition INVALID_SLOT_COUNT : Z := -1.
Definition SLOT_ID_1 : Z := 1.
Definition slotStatusMap : list (Z * SlotStatus) := [(SLOT_ID_1, active_with CARDSTATE_PRESENT)].

(** [activeSlotId] is a variable of the file; there is one object. *)
Record MultiBypass := mkMultiBypass { slotCount_ : Z; listenerMgr_ : option M; activeSlotId : Z }.

Inductive multi_op :=
  | BGetSlotCount
  | BRequestHighCapability (cb : option C)
  | BSetHighCapability (slotId : Z) (cb : option C)
  | BSwitchActiveSlot (slotId : Z) (cb : option C)
  | BRequestSlotStatus (cb : option C)
  | BRegisterListener (l : L)
  | BDeregisterListener (l : L).

Inductive multi_call := MultiCode (c : C) (code : Z) | MultiSlots (c : C) (l : list (Z * SlotStatus)) (code : Z).

(** The status, and the slot count where one is written. *)
Definition multi_returned : Type := Manager.Status * option Z.

Definition init_multi : MultiBypass := mkMultiBypass INVALID_SLOT_COUNT (Some lm_new) SLOT_ID_1.

Definition multi_initSync : list (instr C MultiBypass multi_call) :=
  let status := SUCCESS_ in
  Own (fun x => mkMultiBypass (Z.of_nat (length slotStatusMap)) (listenerMgr_ x) (activeSlotId x)) ::
  (if decide (status <> SUCCESS_) then setServiceStatus SERVICE_FAILED else setServiceStatus SERVICE_AVAILABLE) ++
  [NotifyAll].

Definition when_ready {A} (s : ServiceStatus) (x : MultiBypass) (k : MultiBypass * multi_returned * list A) :
    MultiBypass * multi_returned * list A :=
  if decide (s = SERVICE_AVAILABLE) then k else (x, (NOTREADY, None), []).

Definition bypass_getSlotCount (s : ServiceStatus) (x : MultiBypass) : MultiBypass * multi_returned * list multi_call :=
  when_ready s x (x, (SUCCESS_, Some (slotCount_ x)), []).

Definition bypass_switchActiveSlot (slotId : Z) (cb : option C) (s : ServiceStatus) (x : MultiBypass) :
    MultiBypass * multi_returned * list multi_call :=
  when_ready s x
    (if slotCount_ x <? slotId then x else mkMultiBypass (slotCount_ x) (listenerMgr_ x) slotId, (SUCCESS_, None),
     (fun c => MultiCode c (if slotCount_ x <? slotId then SIM_ERR else SUCCESS)) <$> option_list cb).

Definition bypass_requestSlotStatus (cb : option C) (s : ServiceStatus) (x : MultiBypass) :
    MultiBypass * multi_returned * list multi_call :=
  when_ready s x (x, (SUCCESS_, None), (fun c => MultiSlots c slotStatusMap SUCCESS) <$> option_list cb).

(** Registering, or removing, a listener. *)
Definition with_listeners (f : L -> M -> Manager.Status * M) (l : L) (x : MultiBypass) :
    MultiBypass * multi_returned * list multi_call :=
  match listenerMgr_ x with
  | Some m => let '(st, m) := f l m in (mkMultiBypass (slotCount_ x) (Some m) (activeSlotId x), (st, None), [])
  | None => (x, (FAILED, None), [])
  end.

Definition multi_op_serves (op : multi_op) (s : ServiceStatus) (x : MultiBypass) :
    MultiBypass * multi_returned * list multi_call :=
  match op with
  | BGetSlotCount => bypass_getSlotCount s x
  | BRequestHighCapability _ | BSetHighCapability _ _ => (x, (SUCCESS_, None), [])
  | BSwitchActiveSlot slotId cb => bypass_switchActiveSlot slotId cb s x
  | BRequestSlotStatus cb => bypass_requestSlotStatus cb s x
  | BRegisterListener l => with_listeners lm_register l x
  | BDeregisterListener l => with_listeners lm_deRegister l x
  end.

#[local] Instance multi_bypass : BypassManager C MultiBypass multi_call multi_op multi_returned := {|
  bm_new := init_multi;
  bm_no_memory := Done tt;
  bm_init := multi_initSync;
  bm_later := [];
  bm_serves := multi_op_serves |}.

#[local] Instance multi_bypass_spec : BypassSpec (C := C) (O := MultiBypass) (R := multi_call).
Proof. by split. Qed.

#[local] Instance multi_bypass_members :
  BypassMembers (C := C) (O := MultiBypass) (R := multi_call) (fun x => slotCount_ x = 1).
Proof.
  split; [|done|].
  - simpl. intros f Hf x. own_steps Hf.
  - intros op s x Hx. destruct op; simpl; unfold bypass_getSlotCount, bypass_switchActiveSlot, bypass_requestSlotStatus,
      when_ready, with_listeners; repeat case_goal; done.
Qed.
End MultiSimBypass.

(** ** The SIM profile manager (SimProfileManagerBypass.cpp) *)

Section SimProfileBypass.
Context {C L M : Type} (lm_new : M) (lm_register lm_deRegister : L -> M -> Manager.Status * M).

Definition DEFAULT_NUM_SLOTS : Z := 1.

(** The maps of profile commands in progress are never filled. *)
Record ProfileBypass := mkProfileBypass { noOfSlots_ : Z; profile_listenerMgr_ : option M }.

Inductive ProfileType := REGULAR | EMERGENCY.
Inductive IconType := ICON_NONE | ICON_JPEG.
Inductive ProfileClass := OPERATIONAL.

Record SimProfile := mkSimProfile {
  profileId : Z; profileType : ProfileType; iccid : string; isActive : bool; nickName : string; spn : string;
  name_ : string; iconType : IconType; icon : list Z; profileClass : ProfileClass; policyRuleMask : Z }.

Definition profile01 : SimProfile :=
  mkSimProfile 1 REGULAR "89019990018000006241" false "testIDEMIA" "QUALCOMM Wireless One" "QUALCOMM"
    ICON_NONE [1; 2; 3; 4] OPERATIONAL 0x55AA.
Definition profile02 : SimProfile :=
  mkSimProfile 2 EMERGENCY "89339981214014636084" true "SecondProfile" "Idemia Test 6" "MNO1"
    ICON_JPEG [5; 6; 7; 8] OPERATIONAL 0xFFAA.
Definition profile_eid : string := "89049032000001000000044091520988".

Inductive profile_op_ :=
  | BRequestProfileList (slotId : Z) (cb : option C)
  | BSetProfile (slotId id : Z) (enable : bool) (cb : option C)
  | BRequestEid (slotId : Z) (cb : option C)
  | BAddProfile (slotId : Z) (activationCode confirmationCode : string) (userConsent : bool) (cb : option C)
  | BDeleteProfile (slotId id : Z) (cb : option C)
  | BUpdateNickName (slotId id : Z) (nickName : string) (cb : option C)
  | BProvideUserConsent (slotId : Z) (consent : bool) (reason : Z) (cb : option C)
  | BProvideConfirmationCode (slotId : Z) (code : string) (cb : option C)
  | BSetServerAddress (slotId : Z) (smdpAddress : string) (cb : option C)
  | BRequestServerAddress (slotId : Z) (cb : option C)
  | BMemoryReset (slotId mask : Z) (cb : option C)
  | BRegisterProfileListener (l : L)
  | BDeregisterProfileListener (l : L).

Inductive profile_call :=
  | ProfileCode (c : C) (code : Z)
  | ProfileList (c : C) (l : list SimProfile) (code : Z)
  | ProfileEid (c : C) (eid : string) (code : Z).

Definition init_profile : ProfileBypass := mkProfileBypass 0 (Some lm_new).

(** [initSync]; the rest is [fakeRefrashRegResponse], on a thread of its own. *)
Definition profile_initSync : list (instr C ProfileBypass profile_call) :=
  [Own (fun x => mkProfileBypass DEFAULT_NUM_SLOTS (profile_listenerMgr_ x)); Later].
Definition fakeRefrashRegResponse : list (instr C ProfileBypass profile_call) :=
  setServiceStatus SERVICE_AVAILABLE ++ [NotifyAll].

Definition profile_listeners (f : L -> M -> Manager.Status * M) (l : L) (x : ProfileBypass) :
    ProfileBypass * Manager.Status * list profile_call :=
  match profile_listenerMgr_ x with
  | Some m => let '(st, m) := f l m in (mkProfileBypass (noOfSlots_ x) (Some m), st, [])
  | None => (x, FAILED, [])
  end.

(** Whatever the service's status. *)
Definition profile_op_serves (op : profile_op_) (s : ServiceStatus) (x : ProfileBypass) :
    ProfileBypass * Manager.Status * list profile_call :=
  match op with
  | BRequestProfileList _ cb => (x, SUCCESS_, (fun c => ProfileList c [profile01; profile02] SUCCESS) <$> option_list cb)
  | BSetProfile _ _ _ cb => (x, SUCCESS_, (fun c => ProfileCode c SUCCESS) <$> option_list cb)
  | BRequestEid _ cb => (x, SUCCESS_, (fun c => ProfileEid c profile_eid SUCCESS) <$> option_list cb)
  | BRegisterProfileListener l => profile_listeners lm_register l x
  | BDeregisterProfileListener l => profile_listeners lm_deRegister l x
  | _ => (x, SUCCESS_, [])
  end.

(** A [bad_alloc] is logged, and the null pointer then used. *)
#[local] Instance profile_bypass : BypassManager C ProfileBypass profile_call profile_op_ Manager.Status := {|
  bm_new := init_profile;
  bm_no_memory := Fail NullCall;
  bm_init := profile_initSync;
  bm_later := fakeRefrashRegResponse;
  bm_serves := profile_op_serves |}.

#[local] Instance profile_bypass_spec : BypassSpec (C := C) (O := ProfileBypass) (R := profile_call).
Proof. by split. Qed.

#[local] Instance profile_bypass_members :
  BypassMembers (C := C) (O := ProfileBypass) (R := profile_call) (fun x => noOfSlots_ x = 1).
Proof.
  split; [|done|].
  - simpl. intros f Hf x. own_steps Hf.
  - intros op s x Hx. destruct op; simpl; try done; unfold profile_listeners; destruct (profile_listenerMgr_ x) as [m|]; try done;
      case_goal; done.
Qed.
End SimProfileBypass.

(** ** What clients see *)

(** The slot count is never read before it is there: a client is told one slot, or that
    the manager is not ready. *)
Theorem slot_count_known {C L M : Type} (lm_new : M) (reg dereg : L -> M -> Manager.Status * M) mvs
    (b : Bypass C (MultiBypass (M := M)) (multi_call (C := C))) i v :
  let ops := multi_bypass lm_new reg dereg in
  bypass_run mvs bypass_boot = Done b -> Forall (fun mv => mem_ok mv = true) mvs ->
  snd (call_op i BGetSlotCount b) = Some v ->
  v = if isSubsystemReady i b then (SUCCESS_, Some 1) else (NOTREADY, None).
Proof.
  intros ops Hr Hok. pose proof (multi_bypass_spec (C := C) lm_new reg dereg) as Hspec.
  pose proof (multi_bypass_members (C := C) lm_new reg dereg) as Hmem.
  pose proof (members_run _ mvs b Hr Hok) as [Hs _].
  unfold call_op, isSubsystemReady, status_of. destruct (insts b !! i) as [o|] eqn:Ho; [|done]. simpl.
  unfold bypass_getSlotCount, when_ready. case_decide as Hst; simpl; intros [= <-].
  - rewrite bool_decide_true by done. by rewrite (Hs i o Ho) by (rewrite Hst; done).
  - by rewrite bool_decide_false by done.
Qed.

(** Every slot below the count is switched to, whether it is one or not; beyond it the
    callback has an error. *)
Lemma switch_answers {C M : Type} slotId cb (x : MultiBypass (M := M)) :
  slotCount_ x = 1 ->
  let '(x', _, calls) := bypass_switchActiveSlot (C := C) slotId cb SERVICE_AVAILABLE x in
  activeSlotId x' = (if 1 <? slotId then activeSlotId x else slotId) /\
  calls = (fun c => MultiCode c (if 1 <? slotId then SIM_ERR else SUCCESS)) <$> option_list cb.
Proof.
  intros Hx. unfold bypass_switchActiveSlot, when_ready. rewrite decide_True, Hx by done. by destruct (1 <? slotId).
Qed.

Module BypassDemo.
Definition reg_ (l : nat) (m : list nat) : Manager.Status * list nat := (SUCCESS_, m ++ [l]).
Definition dereg_ (l : nat) (m : list nat) : Manager.Status * list nat := (SUCCESS_, filter (fun x => x <> l) m).
Definition ops : BypassManager string (MultiBypass (M := list nat)) (multi_call (C := string)) (multi_op (C := string) (L := nat)) multi_returned :=
  multi_bypass [] reg_ dereg_.
Definition pops : BypassManager string (ProfileBypass (M := list nat)) (profile_call (C := string)) (profile_op_ (C := string) (L := nat)) Manager.Status :=
  profile_bypass [] reg_ dereg_.
Definition Mo : Type := bypass_move string (multi_op (C := string) (L := nat)).
Definition By : Type := Bypass string (MultiBypass (M := list nat)) (multi_call (C := string)).

(** Two clients before the report, one after; a wait begun before and ended after. *)
Definition life : list Mo :=
  [Get true (Some "a"); OnReady 0 7; Run 1; Get true (Some "b"); Run 0; Run 0; Call 0 BGetSlotCount; Run 0;
   Get true (Some "c"); Run 0; Run 0; Run 0; Run 1; Run 2].
Definition at_end : By := match bypass_run (BypassManager0 := ops) life bypass_boot with Done b => b | Fail _ => bypass_boot end.
End BypassDemo.

Lemma bypass_life :
  bypass_run (BypassManager0 := BypassDemo.ops) BypassDemo.life bypass_boot = Done BypassDemo.at_end /\
  Forall (fun mv => mem_ok mv = true) BypassDemo.life /\ settled BypassDemo.at_end = true.
Proof. split_and!; [by vm_compute|repeat constructor|by vm_compute]. Qed.

Lemma bypass_inits_witness :
  (told_init BypassDemo.at_end).*1 ≡ₚ ["a"; "b"; "c"] /\ readied BypassDemo.at_end ≡ₚ [7%nat].
Proof.
  destruct bypass_life as (Hr & Hok & Hs).
  destruct (bypass_inits (BypassManager0 := BypassDemo.ops)
    (BypassSpec0 := multi_bypass_spec [] BypassDemo.reg_ BypassDemo.dereg_) BypassDemo.life BypassDemo.at_end Hr Hok)
    as (_ & _ & _ & _ & _ & H). exact (H Hs).
Defined.

Lemma slot_count_known_witness :
  snd (call_op (BypassManager0 := BypassDemo.ops) 0 BGetSlotCount BypassDemo.at_end) = Some (SUCCESS_, Some 1).
Proof.
  destruct bypass_life as (Hr & Hok & _).
  pose proof (slot_count_known [] BypassDemo.reg_ BypassDemo.dereg_ BypassDemo.life BypassDemo.at_end 0) as H.
  specialize (fun v => H v Hr Hok). destruct (snd (call_op _ _ _)) as [v|] eqn:Hv in H |- *.
  - rewrite (H v eq_refl). by vm_compute.
  - exfalso. clear H. vm_compute in Hv. discriminate Hv.
Defined.

(** A slot that is none is switched to with success. *)
Example invalid_slot :
  bypass_switchActiveSlot (M := unit) (-1) (Some "c") SERVICE_AVAILABLE (mkMultiBypass 1 None 1) =
    (mkMultiBypass 1 None (-1), (SUCCESS_, None), [MultiCode "c" SUCCESS]).
Proof. reflexivity. Qed.

(** Out of memory: one getter returns null, the other goes on with the null pointer. *)
Example no_memory :
  get (BypassManager0 := BypassDemo.ops) false (Some "a") bypass_boot = Done (bypass_boot, None) /\
  get (BypassManager0 := BypassDemo.pops) false (Some "a") bypass_boot = Fail NullCall.
Proof. done. Qed.

(** Had an initialization failed, the second client of the next manager would be told
    of the failure of the first. *)
Example stale_failure :
  let failed : BypassDemo.By := fst (on_response SERVICE_FAILED bypass_boot) in
  (r ← get (BypassManager0 := BypassDemo.ops) true (Some "a") failed;
   r ← get (BypassManager0 := BypassDemo.ops) true (Some "b") (fst r);
   Done (threads (fst r))) = Done [(0%nat, Running multi_initSync); (0%nat, Running [CallInit "b" SERVICE_FAILED])].
Proof. reflexivity. Qed.
