(* ===== verification/Stubs.v ===== *)
(** * The stubs of the platform's services (src/stub)

    The two that keep a state: the list of applications a key is shared with
    (keyStore/taf_pa_keystore/taf_pa_keystore.c), and the references to audio objects
    (taf_simula_audio/tafAudioSvc/tafAudioSvcStub.cpp).  An access outside of an array
    is [None]. *)

From S2P Require Import Prelude Hsm.

Local Open Scope Z_scope.

(** ** Keys shared with applications *)

Module KeyStore.
Definition TAF_PA_KS_MAX_SHARED_APPS : nat := 12.

Record taf_pa_ks_SharedApp := mkApp { keyCap : Z; appCap : Z; appName : string }.
Definition zero_app : taf_pa_ks_SharedApp := mkApp 0 0 "".

(** [appNum] is the index of the last application, in eight bits: 255 when there is
    none. *)
Record KeyStore := mkKeyStore { appList : list taf_pa_ks_SharedApp; appNum : Z }.
Definition no_apps : KeyStore := mkKeyStore (replicate TAF_PA_KS_MAX_SHARED_APPS zero_app) 255.

Section Names.
(** [TAF_KS_MAX_APP_NAME_SIZE]. *)
Context (name_size : nat).

Definition taf_pa_ks_ShareKey (cap app : Z) (name : string) (k : KeyStore) : option KeyStore :=
  let num := if Z.of_nat TAF_PA_KS_MAX_SHARED_APPS <=? appNum k then 0 else (appNum k + 1) mod 256 in
  if (num <? Z.of_nat (length (appList k))) && (String.length name <=? name_size)%nat
  then Some (mkKeyStore (<[Z.to_nat num := mkApp cap app name]> (appList k)) num)
  else None.

(** The application named is not looked at. *)
Definition taf_pa_ks_CancelKeySharing (k : KeyStore) : option KeyStore :=
  let num := (appNum k - 1) mod 256 in
  if appNum k =? 0 then Some (mkKeyStore (replicate TAF_PA_KS_MAX_SHARED_APPS zero_app) num)
  else
    let n := Z.to_nat (appNum k) in
    if (1 + n <=? length (appList k))%nat
    then Some (mkKeyStore (take n (drop 1 (appList k)) ++ drop n (appList k)) num)
    else None.

Definition taf_pa_ks_GetSharedAppList (k : KeyStore) : list taf_pa_ks_SharedApp := appList k.

Inductive ks_op := ShareKey (cap app : Z) (name : string) | CancelKeySharing (name : string).
Definition ks_step (op : ks_op) (k : KeyStore) : option KeyStore :=
  match op with
  | ShareKey cap app name => taf_pa_ks_ShareKey cap app name k
  | CancelKeySharing _ => taf_pa_ks_CancelKeySharing k
  end.
Fixpoint ks_run (ops : list ks_op) (k : KeyStore) : option KeyStore :=
  match ops with [] => Some k | op :: ops => k ← ks_step op k; ks_run ops k end.

(** What it is: a queue of at most twelve, where cancelling takes the oldest out. *)
Definition queue_step (op : ks_op) (q : list taf_pa_ks_SharedApp) : option (list taf_pa_ks_SharedApp) :=
  match op with
  | ShareKey cap app name =>
      if (length q <? TAF_PA_KS_MAX_SHARED_APPS)%nat && (String.length name <=? name_size)%nat
      then Some (q ++ [mkApp cap app name]) else None
  | CancelKeySharing _ => match q with [] => None | _ :: q => Some q end
  end.
Fixpoint queue_run (ops : list ks_op) (q : list taf_pa_ks_SharedApp) : option (list taf_pa_ks_SharedApp) :=
  match ops with [] => Some q | op :: ops => q ← queue_step op q; queue_run ops q end.

Record holds (k : KeyStore) (q : list taf_pa_ks_SharedApp) : Prop := {
  h_size : length (appList k) = TAF_PA_KS_MAX_SHARED_APPS;
  h_live : take (length q) (appList k) = q;
  h_num : appNum k = (Z.of_nat (length q) - 1) mod 256 }.

Lemma held_bound k q : holds k q -> (length q <= 12)%nat.
Proof. intros [Hs Hl _]. apply (f_equal length) in Hl. rewrite length_take, Hs in Hl. unfold TAF_PA_KS_MAX_SHARED_APPS in Hl. lia. Qed.

Lemma share_refines cap app name k q :
  holds k q ->
  match queue_step (ShareKey cap app name) q with
  | Some q' => exists k', taf_pa_ks_ShareKey cap app name k = Some k' /\ holds k' q'
  | None => taf_pa_ks_ShareKey cap app name k = None
  end.
Proof.
  intros Hk. pose proof (held_bound _ _ Hk) as Hb. destruct Hk as [Hs Hl Hn].
  unfold queue_step, taf_pa_ks_ShareKey, TAF_PA_KS_MAX_SHARED_APPS in *. rewrite Hs.
  assert (Hnum : (if Z.of_nat 12 <=? appNum k then 0 else (appNum k + 1) mod 256) = Z.of_nat (length q)).
  { rewrite Hn. destruct (length q) as [|n] eqn:Hq; [done|].
    rewrite (Z.mod_small (_ - 1)) by lia. destruct (Z.leb_spec (Z.of_nat 12) (Z.of_nat (S n) - 1)); [lia|].
    rewrite Z.mod_small by lia. lia. }
  rewrite Hnum, Nat2Z.id. destruct (Nat.ltb_spec (length q) 12) as [Hlt|Hge].
  - rewrite (proj2 (Z.ltb_lt _ _)) by lia. destruct (_ <=? _)%nat; [|done]. eexists. split; [done|].
    split; simpl.
    + by rewrite length_insert.
    + rewrite length_app. simpl. rewrite insert_take_drop by lia.
      rewrite Hl. rewrite take_app_ge by lia. f_equal. by replace (length q + 1 - length q)%nat with 1%nat by lia.
    + rewrite length_app. simpl. rewrite Z.mod_small; lia.
  - by rewrite (proj2 (Z.ltb_ge _ _)) by lia.
Qed.

Lemma cancel_refines name k q :
  holds k q ->
  match queue_step (CancelKeySharing name) q with
  | Some q' => exists k', taf_pa_ks_CancelKeySharing k = Some k' /\ holds k' q'
  | None => taf_pa_ks_CancelKeySharing k = None
  end.
Proof.
  intros Hk. pose proof (held_bound _ _ Hk) as Hb. destruct Hk as [Hs Hl Hn].
  unfold taf_pa_ks_CancelKeySharing, TAF_PA_KS_MAX_SHARED_APPS in *. destruct q as [|a q]; simpl.
  { rewrite Hn, Hs. done. }
  rewrite Hn. simpl length in *. rewrite (Z.mod_small (_ - 1)) by lia.
  destruct (Z.eqb_spec (Z.of_nat (S (length q)) - 1) 0) as [H0|H0].
  - eexists. split; [done|]. destruct q; [|simpl in *; lia]. done.
  - replace (Z.to_nat (Z.of_nat (S (length q)) - 1)) with (length q) by lia. rewrite Hs, (proj2 (Nat.leb_le _ _)) by lia.
    eexists. split; [done|]. split; simpl.
    + rewrite length_app, length_take, !length_drop, Hs. unfold TAF_PA_KS_MAX_SHARED_APPS. lia.
    + destruct (appList k) as [|b l] eqn:Hal; [done|]. injection Hl as -> Hl. simpl. change (drop 0 l) with l.
      rewrite take_app_le by (rewrite length_take; simpl in Hs; lia). rewrite take_take, Nat.min_id. exact Hl.
    + f_equal. lia.
Qed.

(** The list of the applications a key is shared with is a queue: the calls that stay
    inside the array are those a queue of twelve allows, and what the first entries of
    the array hold then is the queue.  In particular sharing with a thirteenth
    application, and cancelling when nothing is shared, access memory outside of it. *)
Theorem shared_apps_queue ops :
  match queue_run ops [] with
  | Some q => exists k, ks_run ops no_apps = Some k /\ take (length q) (taf_pa_ks_GetSharedAppList k) = q
  | None => ks_run ops no_apps = None
  end.
Proof.
  assert (Hgen : forall k q, holds k q ->
    match queue_run ops q with Some q' => exists k', ks_run ops k = Some k' /\ holds k' q' | None => ks_run ops k = None end).
  { induction ops as [|op ops IH]; intros k q Hk; simpl; [by exists k|].
    assert (Hop : match queue_step op q with
      | Some q' => exists k', ks_step op k = Some k' /\ holds k' q' | None => ks_step op k = None end)
      by (destruct op; [by apply share_refines|by apply cancel_refines]).
    destruct (queue_step op q) as [q'|]; [destruct Hop as (k' & -> & Hk'); by apply IH|by rewrite Hop]. }
  specialize (Hgen no_apps [] ltac:(done)). destruct (queue_run ops []) as [q|]; [|done].
  destruct Hgen as (k & Hr & Hk). exists k. split; [done|]. by destruct Hk.
Qed.
End Names.

(** The second application's sharing is cancelled: the first goes, and the list then has
    the second twice. *)
Example cancel_second :
  (fun k => take 3 (taf_pa_ks_GetSharedAppList k)) <$>
    ks_run 32 [ShareKey 1 1 "a"; ShareKey 2 2 "b"; CancelKeySharing "b"] no_apps =
  Some [mkApp 2 2 "b"; mkApp 2 2 "b"; zero_app].
Proof. reflexivity. Qed.

(** [CryptoSessionProcess]: the output buffer afterwards, and the size reported. *)
Definition taf_pa_ks_CryptoSessionProcess (input buffer : list Z) : option (list Z * nat) :=
  if (length input <=? length buffer)%nat
  then Some (input ++ drop (length input) buffer, length input) else None.

(** [CryptoSessionEnd]: [size] is what the caller says the buffer has. *)
Definition taf_pa_ks_CryptoSessionEnd (input buffer : list Z) (size : nat) : option (list Z * nat) :=
  if (size <=? length buffer)%nat then Some (replicate size 0 ++ drop size buffer, length input) else None.

(** What an encryption session puts out, a decryption session turns back. *)
Lemma crypto_roundtrip input buf1 buf2 out n :
  taf_pa_ks_CryptoSessionProcess input buf1 = Some (out, n) -> (length input <= length buf2)%nat ->
  exists out', taf_pa_ks_CryptoSessionProcess (take n out) buf2 = Some (out', n) /\ take n out' = input.
Proof.
  unfold taf_pa_ks_CryptoSessionProcess. case_match; [|done]. intros [= <- <-] Hb.
  rewrite take_app_length, (proj2 (Nat.leb_le _ _)) by done. eexists. split; [done|]. apply take_app_length.
Qed.

(** A size is reported that nothing was written for. *)
Example crypto_end_size :
  taf_pa_ks_CryptoSessionEnd [1; 2; 3] [9; 9] 2 = Some ([0; 0], 3%nat).
Proof. reflexivity. Qed.
End KeyStore.

(** ** References to audio objects *)

(** Legato's safe references: a map gives out references that were never given out
    before, and forgets the ones deleted. *)
Class SafeRefs (Map Ref Obj : Type) := {
  le_ref_CreateMap : Map;
  le_ref_CreateRef : Obj -> Map -> Map * Ref;
  le_ref_Lookup : Ref -> Map -> option Obj;
  le_ref_DeleteRef : Ref -> Map -> Map }.

Class SafeRefsSpec (Map Ref Obj : Type) `{SafeRefs Map Ref Obj, EqDecision Ref} : Prop := {
  ref_empty r : le_ref_Lookup r le_ref_CreateMap = None;
  ref_new o m m' r : le_ref_CreateRef o m = (m', r) -> le_ref_Lookup r m = None;
  ref_created o m m' r r' : le_ref_CreateRef o m = (m', r) ->
    le_ref_Lookup r' m' = if decide (r' = r) then Some o else le_ref_Lookup r' m;
  ref_deleted r r' m : le_ref_Lookup r' (le_ref_DeleteRef r m) = if decide (r' = r) then None else le_ref_Lookup r' m }.

Module AudioService.
Section Audio.
Context {Map Ref : Type} `{SafeRefs Map Ref nat, EqDecision Ref}.

(** Blocks of the pool, by number: how many were allocated, and those not released. *)
Record Audio := mkAudio { AudioRefMap : Map; allocated : nat; AudioObjectPool : gset nat }.
Definition audio_init : Audio := mkAudio le_ref_CreateMap 0 ∅.

Definition le_mem_ForceAlloc (a : Audio) : Audio * nat :=
  (mkAudio (AudioRefMap a) (S (allocated a)) ({[allocated a]} ∪ AudioObjectPool a), allocated a).
Definition ref_of (o : nat) (a : Audio) : Audio * Ref :=
  let '(m, r) := le_ref_CreateRef o (AudioRefMap a) in (mkAudio m (allocated a) (AudioObjectPool a), r).

(** [CreateConnector], [OpenModemVoiceRx], [OpenModemVoiceTx], [OpenPlayer],
    [AddMediaHandler]. *)
Definition open_object (a : Audio) : Audio * Ref := let '(a, o) := le_mem_ForceAlloc a in ref_of o a.

(** The sink, the source and the route. *)
Definition taf_audio_OpenRoute (sinkRefPtr sourceRefPtr : bool) (a : Audio) : outcome (Audio * (Ref * Ref * Ref)) :=
  if sinkRefPtr && sourceRefPtr then
    let '(a, InputStream) := le_mem_ForceAlloc a in
    let '(a, OutputStream) := le_mem_ForceAlloc a in
    let '(a, RouteObj) := le_mem_ForceAlloc a in
    let '(a, sink) := ref_of InputStream a in
    let '(a, source) := ref_of OutputStream a in
    let '(a, route) := ref_of RouteObj a in
    Done (a, (sink, source, route))
  else Fail AssertFailed.

(** [DeleteConnector], [Close], [CloseRoute], [RemoveMediaHandler]. *)
Definition close_object (r : Ref) (a : Audio) : outcome Audio :=
  match le_ref_Lookup r (AudioRefMap a) with
  | Some o => Done (mkAudio (le_ref_DeleteRef r (AudioRefMap a)) (allocated a) (AudioObjectPool a ∖ {[o]}))
  | None => Fail AssertFailed
  end.

(** A client's calls, with the references it was given. *)
Inductive audio_op := Open | OpenRoute | Close (r : Ref).
Definition audio_step (op : audio_op) (a : Audio) : outcome (Audio * list Ref) :=
  match op with
  | Open => let '(a, r) := open_object a in Done (a, [r])
  | OpenRoute => x ← taf_audio_OpenRoute true true a; let '(a, (r1, r2, r3)) := x in Done (a, [r1; r2; r3])
  | Close r => a ← close_object r a; Done (a, [])
  end.

(** The references open, from those given and those closed. *)
Fixpoint audio_run (ops : list audio_op) (a : Audio) (opened : list Ref) : outcome (Audio * list Ref) :=
  match ops with
  | [] => Done (a, opened)
  | op :: ops =>
      x ← audio_step op a;
      audio_run ops (fst x) (match op with Close r => filter (fun r' => r' <> r) opened | _ => opened ++ snd x end)
  end.

Context `{!SafeRefsSpec Map Ref nat}.

(** Each open reference stands for a block of its own, and each block has one but for
    those just allocated. *)
Record audio_inv (opened : list Ref) (spare : list nat) (a : Audio) : Prop := {
  ai_refs r : r ∈ opened <-> is_Some (le_ref_Lookup r (AudioRefMap a));
  ai_nodup : NoDup opened /\ NoDup spare;
  ai_live o : o ∈ AudioObjectPool a <-> o ∈ spare \/ exists r, le_ref_Lookup r (AudioRefMap a) = Some o;
  ai_spare o r : o ∈ spare -> le_ref_Lookup r (AudioRefMap a) <> Some o;
  ai_own r r' o : le_ref_Lookup r (AudioRefMap a) = Some o -> le_ref_Lookup r' (AudioRefMap a) = Some o -> r = r';
  ai_fresh o : o ∈ AudioObjectPool a -> (o < allocated a)%nat }.

Lemma alloc_inv opened spare a a' o :
  audio_inv opened spare a -> le_mem_ForceAlloc a = (a', o) -> audio_inv opened (spare ++ [o]) a'.
Proof.
  intros [H1 [H2 H2'] H3 H4 H5 H6] [= <- <-].
  assert (Hnew : allocated a ∉ AudioObjectPool a) by (intros Ho%H6; lia).
  split; simpl; try done.
  - split; [done|]. apply NoDup_app. split; [done|]. split; [|apply NoDup_singleton].
    intros o Ho ->%list_elem_of_singleton. apply Hnew, H3. by left.
  - intros o. rewrite elem_of_union, elem_of_singleton, H3, elem_of_app, list_elem_of_singleton. tauto.
  - intros o r [?| ->%list_elem_of_singleton]%elem_of_app Hr; [by eapply H4|]. apply Hnew, H3. eauto.
  - intros o [->%elem_of_singleton|Ho%H6]%elem_of_union; lia.
Qed.

Lemma ref_inv opened o spare a a' r :
  audio_inv opened (o :: spare) a -> ref_of o a = (a', r) -> audio_inv (opened ++ [r]) spare a' /\ r ∉ opened.
Proof.
  intros [H1 [H2 [Hos H2']%NoDup_cons] H3 H4 H5 H6]. unfold ref_of.
  destruct (le_ref_CreateRef o (AudioRefMap a)) as [m' r0] eqn:Hc. intros [= <- <-].
  assert (Hn : r0 ∉ opened) by (rewrite H1, (ref_new _ _ _ _ Hc); by intros [? ?]).
  pose proof (fun r' => ref_created _ _ _ _ r' Hc) as Hl. split; [|done].
  assert (Ho : forall r', le_ref_Lookup r' (AudioRefMap a) <> Some o) by (intros r'; apply H4; by left).
  split; simpl; try done.
  - intros r'. rewrite Hl, elem_of_app, list_elem_of_singleton, H1. case_decide; naive_solver.
  - split; [|done]. apply NoDup_app. split; [done|]. split; [|apply NoDup_singleton]. by intros r' Hr' ->%list_elem_of_singleton.
  - intros o'. rewrite H3, elem_of_cons. split.
    + intros [[->|?]|[r' Hr']]; [right; exists r0; by rewrite Hl, decide_True|by left|]. right. exists r'. rewrite Hl.
      case_decide; [|done]. subst. by rewrite (ref_new _ _ _ _ Hc) in Hr'.
    + intros [?|[r' Hr']]; [by left; right|]. rewrite Hl in Hr'. case_decide; [injection Hr' as ->; by left; left|by right; exists r'].
  - intros o' r' Ho'. rewrite Hl. case_decide; [by intros [= ->]|]. apply H4. by right.
  - intros r1 r2 o'. rewrite !Hl. repeat case_decide; try naive_solver.
Qed.

Lemma close_inv opened r a :
  audio_inv opened [] a ->
  match close_object r a with
  | Done a' => r ∈ opened /\ audio_inv (filter (fun r' => r' <> r) opened) [] a'
  | Fail f => r ∉ opened /\ f = AssertFailed
  end.
Proof.
  intros [H1 [H2 H2'] H3 H4 H5 H6]. unfold close_object. destruct (le_ref_Lookup r (AudioRefMap a)) as [o|] eqn:Hr.
  2: { split; [|done]. rewrite H1, Hr. by intros [? ?]. }
  split; [by apply H1; eexists|]. split; simpl; try done.
  - intros r'. rewrite list_elem_of_filter, H1, ref_deleted. case_decide; [|naive_solver]. split; [naive_solver|by intros [? ?]].
  - split; [by apply NoDup_filter|done].
  - intros o'. rewrite elem_of_difference, elem_of_singleton, H3. split.
    + intros [[Ho|[r' Hr']] Hne]; [by apply not_elem_of_nil in Ho|]. right. exists r'. rewrite ref_deleted, decide_False; [done|].
      intros ->. congruence.
    + intros [Ho|[r' Hr']]; [by apply not_elem_of_nil in Ho|]. rewrite ref_deleted in Hr'. case_decide as Hne; [done|].
      split; [by right; exists r'|]. intros ->. by apply Hne, (H5 r' r o).
  - intros o' r' Ho'. by apply not_elem_of_nil in Ho'.
  - intros r1 r2 o'. rewrite !ref_deleted. repeat case_decide; try done. by apply H5.
  - intros o' [Ho' _]%elem_of_difference. by apply H6.
Qed.

Lemma open_inv opened a a' r : audio_inv opened [] a -> open_object a = (a', r) -> audio_inv (opened ++ [r]) [] a'.
Proof.
  intros Hi. unfold open_object. destruct (le_mem_ForceAlloc a) as [a1 o] eqn:Ha. intros Hr.
  exact (proj1 (ref_inv _ _ _ _ _ _ (alloc_inv _ _ _ _ _ Hi Ha) Hr)).
Qed.

Lemma route_inv opened a :
  audio_inv opened [] a ->
  exists a' r1 r2 r3, taf_audio_OpenRoute true true a = Done (a', (r1, r2, r3)) /\ audio_inv (opened ++ [r1; r2; r3]) [] a'.
Proof.
  intros Hi. unfold taf_audio_OpenRoute. cbn [andb].
  destruct (le_mem_ForceAlloc a) as [a1 o1] eqn:H1. pose proof (alloc_inv _ _ _ _ _ Hi H1) as I1.
  destruct (le_mem_ForceAlloc a1) as [a2 o2] eqn:H2. pose proof (alloc_inv _ _ _ _ _ I1 H2) as I2.
  destruct (le_mem_ForceAlloc a2) as [a3 o3] eqn:H3. pose proof (alloc_inv _ _ _ _ _ I2 H3) as I3. simpl in I3.
  destruct (ref_of o1 a3) as [a4 r1] eqn:H4. destruct (ref_inv _ _ _ _ _ _ I3 H4) as [I4 _].
  destruct (ref_of o2 a4) as [a5 r2] eqn:H5. destruct (ref_inv _ _ _ _ _ _ I4 H5) as [I5 _].
  destruct (ref_of o3 a5) as [a6 r3] eqn:H6. destruct (ref_inv _ _ _ _ _ _ I5 H6) as [I6 _].
  rewrite <- !(assoc_L (++)) in I6. by exists a6, r1, r2, r3.
Qed.

(** Whatever a client calls: it is ended only when it closes a reference that is not
    open; otherwise the references open are distinct, they are the ones the service
    knows, and there are as many blocks in use. *)
Lemma audio_runs ops opened a :
  audio_inv opened [] a ->
  match audio_run ops a opened with
  | Done (a', opened') => audio_inv opened' [] a'
  | Fail f => f = AssertFailed
  end.
Proof.
  revert opened a. induction ops as [|op ops IH]; intros opened a Hi; [done|]. simpl.
  destruct op as [| |r]; simpl.
  - destruct (open_object a) as [a' r] eqn:Ho. by apply IH, (open_inv _ a).
  - destruct (route_inv _ _ Hi) as (a' & r1 & r2 & r3 & -> & Hi'). by apply IH.
  - pose proof (close_inv _ r _ Hi) as Hc. destruct (close_object r a) as [a'|f]; simpl; [apply IH|]; apply Hc.
Qed.

Lemma audio_init_inv : audio_inv [] [] audio_init.
Proof.
  split; simpl; try set_solver.
  - intros r. rewrite ref_empty. split; [intros Hr; by apply not_elem_of_nil in Hr|by intros [? ?]].
  - split; constructor.
  - intros o. rewrite elem_of_empty. split; [done|]. intros [Ho|[r Hr]]; [by apply not_elem_of_nil in Ho|by rewrite ref_empty in Hr].
  - intros r r' o. by rewrite ref_empty.
Qed.

Lemma live_blocks opened a : audio_inv opened [] a -> size (AudioObjectPool a) = length opened.
Proof.
  intros [H1 [H2 _] H3 _ H5 _].
  assert (Hp : AudioObjectPool a = list_to_set (omap (fun r => le_ref_Lookup r (AudioRefMap a)) opened)).
  { apply set_eq. intros o. rewrite elem_of_list_to_set, list_elem_of_omap, H3. split.
    - intros [Ho|[r Hr]]; [by apply not_elem_of_nil in Ho|]. exists r. split; [by apply H1; eexists|done].
    - intros (r & _ & Hr). right. by exists r. }
  rewrite Hp. assert (Hl : forall r, r ∈ opened -> is_Some (le_ref_Lookup r (AudioRefMap a))) by (intros r; by apply H1).
  clear H1 H3 Hp. induction opened as [|r l IH]; [done|]. apply NoDup_cons in H2 as [Hr Hnd].
  destruct (Hl r ltac:(left)) as [o Ho]. csimpl. rewrite Ho. csimpl. rewrite size_union, size_singleton, IH; [done|done| |].
  - intros r' Hr'. apply Hl. by right.
  - apply disjoint_singleton_l. rewrite elem_of_list_to_set, list_elem_of_omap. intros (r' & Hr' & Ho').
    by rewrite (H5 r r' o) in Hr.
Qed.
End Audio.

(** Whatever a client calls: the service ends only when a reference is closed that is not
    open; otherwise the references open are distinct, they are the ones the service
    knows, and there is a block of the pool in use for each. *)
Lemma audio_references {Map Ref} `{SafeRefsSpec Map Ref nat} (ops : list (audio_op (Ref := Ref))) :
  match audio_run ops audio_init [] with
  | Done (a, opened) =>
      (forall r, r ∈ opened <-> is_Some (le_ref_Lookup r (AudioRefMap a))) /\ NoDup opened /\
      size (AudioObjectPool a) = length opened
  | Fail f => f = AssertFailed
  end.
Proof.
  pose proof (audio_runs ops [] audio_init audio_init_inv) as Hr. destruct (audio_run ops audio_init []) as [[a opened]|f]; [|done].
  split_and!; [apply Hr|apply Hr|by apply live_blocks].
Qed.

(** References that are numbers. *)
#[local] Instance number_refs : SafeRefs (gmap nat nat * nat) nat nat := {|
  le_ref_CreateMap := (∅, 0%nat);
  le_ref_CreateRef o m := ((<[snd m := o]> (fst m), S (snd m)), snd m);
  le_ref_Lookup r m := if (r <? snd m)%nat then fst m !! r else None;
  le_ref_DeleteRef r m := (delete r (fst m), snd m) |}.

#[local] Instance number_refs_spec : SafeRefsSpec (gmap nat nat * nat) nat nat.
Proof.
  split; simpl.
  - done.
  - intros o m m' r [= <- <-]. by rewrite (proj2 (Nat.ltb_ge _ _)) by lia.
  - intros o [m n] m' r r' [= <- <-]. simpl. case_decide as Hr; [subst r'|].
    + by rewrite (proj2 (Nat.ltb_lt _ _)), lookup_insert_eq by lia.
    + rewrite lookup_insert_ne by done. destruct (Nat.ltb_spec r' (S n)), (Nat.ltb_spec r' n); try done; lia.
  - intros r r' [m n]. simpl. case_decide as Hr; [subst; rewrite lookup_delete_eq; by destruct (_ <? _)%nat|].
    by rewrite lookup_delete_ne by done.
Qed.

(** Closing a route leaves its streams open. *)
Example route_streams :
  snd <$> (match audio_run (Map := gmap nat nat * nat) [OpenRoute; Close 2%nat] audio_init [] with Done x => Some x | Fail _ => None end) =
    Some [0%nat; 1%nat] /\
  audio_run (Map := gmap nat nat * nat) [Open; Close 0%nat; Close 0%nat] audio_init [] = Fail AssertFailed.
Proof. by vm_compute. Qed.
End AudioService.
